(* ===== verification/_CoqProject ===== *)
-Q . S2P
Prelude.v
Contracts.v
Documents.v
JsonText.v
Routing.v
RouteEngine.v
Ledger.v
RouteStore.v
Verification.v
VerifyEngine.v
EvidenceStore.v
Policy.v
RuntimeModels.v
StateMachine.v
Planner.v
Workflow.v
Sqlite.v
RunnerTasks.v
TaskStore.v
Idempotency.v
Credentials.v
PolicyPlanning.v
TransactionService.v
RepairModels.v
BudgetLedger.v
HumanTasks.v
RepairLifecycle.v
ControlModels.v
AuditChain.v
Membership.v
Authorization.v
AccessControl.v
RunnerIdentity.v
RunnerRegistry.v
Edifact.v
Mapping.v
Compile.v
Telemetry.v
Usage.v
Api.v
Migrations.v
ReferenceData.v
Adapters.v
Booking.v
SyntheticCarrier.v
BookingAdapter.v
BookingEvidence.v
BookingPlanner.v
BookingSlice.v
Authentication.v
ChannelPlanner.v
Ingestion.v
