(* ===== verification/Prelude.v ===== *)
(** * CargoMesh, verified

    CargoMesh (Python, under src/src/cargomesh/) executes logistics transactions: a payload is
    compiled to an intermediate representation, a planner routes its steps to adapters and
    freezes policy decisions, a durable workflow runs the plan and verifies the outcome against
    independent evidence, runners and people do the attended work, repair happens within a
    budget, and an HTTP API guards all of it with access control and an audit chain.  This
    library models the parts that decide, record or change state, and proves what makes each of
    them correct.

    ** Files and what they model

    Shared:
    - Prelude: Python results (value or raised exception), transactions, sorting by a key,
      sets, runs of a step relation with the invariants and entries they keep, automation.
    - Contracts (ir/enums.py and the field types every contract module repeats): risk and
      verification ranks, name, identifier and digest constraints, the secret-key scanner,
      JSON values with the text [json.dumps] writes, digests, ISO timestamps.
    - Sqlite: how the stores use a connection.  [Connection] is for operations that write only
      after their last statement that may raise, [Database] also keeps what an open
      transaction would roll back to.
    - Ledger: the interface ([KeyedRow]) of append-only tables with a two-part key.

    From a payload to a plan:
    - Documents (ir/models.py, canonical.py): commands, their validators and canonical text.
    - JsonText: the texts of [json.dumps] read back, for every digest over them.
    - Mapping (mapping/): the DCSA track and trace query, both directions of the mapper with
      their diagnostics, and the mapper registry.
    - Compile (application/compile.py): the compile service.
    - Migrations (ir/migrations.py): migration steps, the search for a chain of them, and
      derived documents.
    - ReferenceData (standards/reference_data.py): versioned code tables.
    - Routing, RouteEngine, RouteStore (routing/): candidates, policies and decisions,
      [select_route], and outcomes with the health aggregated from them.
    - RuntimeModels, Planner (runtime/models.py, planner.py): execution plans with their
      validators and the planners that build them.
    - Policy, PolicyPlanning (policy/, runtime/policy.py): rules, the embedded evaluator, the
      OPA provider's decoding, and the decisions frozen into a plan.
    - Credentials (credentials/): bindings and secret leases.
    - Booking (booking/contracts.py, draft.py): the DCSA booking request, the mapping of a
      transaction into it, and its draft.
    - BookingPlanner (booking/planner.py, local.py): the plan of a synthetic booking and the
      local policy, bindings and secrets it runs under.

    Running a transaction:
    - Idempotency, TransactionService (runtime/idempotency.py, application/transactions.py):
      submission reservations and the service over them, as interleaved calls.
    - Adapters (runtime/adapters.py, credentials/providers.py): the adapter registry, the leases
      of a call, and the activity around it.
    - StateMachine, Workflow (runtime/state_machine.py, temporal.py): the status machine and
      [CargoMeshTransactionWorkflow] as a program over the history Temporal replays.
    - Verification, VerifyEngine, EvidenceStore (verification/): evidence, plans and reports,
      [evaluate_verification], the receipts and the activity that collects, records and
      evaluates.
    - RunnerIdentity, RunnerRegistry (runner/identity.py, registry.py): enrollment challenges,
      identities and the registry of runners.
    - RunnerTasks, TaskStore (runner/tasks.py, task_store.py): task leases with fencing tokens,
      heartbeats, results and recovery.
    - HumanTasks (channels/human.py): attended tasks.
    - Edifact (channels/edi.py): the EDIFACT parser.
    - Ingestion (channels/ingestion.py): email messages, their attachments and quarantine.
    - ChannelPlanner (channels/planner.py): plans of EDI and attended-human steps.
    - SyntheticCarrier (booking/synthetic_carrier.py): the carrier's store and the endpoints of
      the carrier and of its ledger.
    - BookingAdapter, BookingEvidence (booking/adapter.py, evidence.py): the adapter that
      submits and cancels bookings and the collector that reads the ledger, over any transport.
    - BookingSlice: what planner, adapter, carrier, collector, workflow and evaluation give
      together; it models no code of its own.

    Around it:
    - RepairModels, BudgetLedger, RepairLifecycle (repair/): repair artifacts, reserve-before-
      use budgets, and the stages from a candidate to a promotion.
    - ControlModels, AuditChain, Membership, Authorization, AccessControl (controlplane/): the
      audit chain, the membership directory, the role policy and the access controller.
    - Authentication (controlplane/authentication.py): bearer tokens, key providers and claims.
    - Telemetry, Usage (platform/telemetry.py, usage.py): payload-free telemetry, service level
      reports and alerts, and the usage meter.
    - Api (api/main.py, errors.py, schemas.py): the transaction endpoints.

    How they interact: the API compiles a payload, requires access (AccessControl over
    Authorization, Membership and the [AuditWriter] interface, which AuditChain implements) and
    calls the transaction service, which reserves the key in Idempotency, builds a plan
    ([ExecutionPlanner], implemented twice in Planner, over RouteEngine and RouteStore), has
    PolicyPlanning freeze its decisions, and starts the workflow; the workflow invokes adapters
    for the steps and the verification activity at the end, whose report its conclusion reads
    and the usage meter bills.  The task store asks the runner registry before it leases.  Rows
    of the model are the rows of the SQLite tables, and an operation is a function from the
    store to the store and a result.

    ** What the theorems show

    - Documents, JsonText, Mapping, Compile: two commands have the same canonical text exactly
      when they differ in nothing that is business; a query becomes a command and comes back with nothing lost, a command becomes a
      query without loss exactly when the mapper says so; compilation returns what the payload
      stands for, with its canonical text and digest, and never with a critical loss.  Whenever
      a chain of registered steps leads to the target, a migration follows a shortest one; a planned booking reaches the carrier exactly.
      A catalog of codes exists exactly when no day
      has two versions of one; lookups and suggestions are exact.
    - Routing and planning: the selected route is admissible and none admissible outranks it;
      selection is total on valid input and does not depend on input order; planners return
      valid plans; frozen plans stay valid, and freezing succeeds exactly when every attempt is
      permitted.  The least matching rule decides; the OPA provider fails closed.
    - Submission: the service refines one that binds fresh keys and starts each workflow once,
      under any interleaving and crash; a submission reported as running runs, and one can
      always be finished, also amid the steps of other callers.
    - Workflow: a run ends in a terminal status or waits, asks for each effect at most once and
      only after approval, compensates latest first, stays quiet after an unknown effect, and
      says VERIFIED only with a matching report.  An adapter call leaves no lease open, hands out
      the secrets of its binding resolved for its own scope, and its telemetry changes nothing
      else.
    - Booking: a submission reported as made has one booking under its key, and one reported as
      not made has left the carrier to the requests of others, whatever is lost or asked
      meanwhile; the collector observes what the ledger holds; the planner and its local
      wiring fit each other, in their own scope only; and the slice as a whole says VERIFIED
      exactly when the carrier still holds the booking as received.
    - Verification: a report says VERIFIED exactly when the evidence is admissible, independent
      enough and agrees with every claim; every summary is backed by a stored receipt.
    - Runners and people: a token enrolls one runner, except when another caller's late rollback
      undoes its consumption, revocation is final, leases go to enrolled
      runners only; stale lease holders are shut out, recovery requeues only before the effect,
      results are final.
    - Channels: the EDIFACT parser accepts exactly the well-bracketed interchanges, and parses
      back what is written with any separators and escapes; a message is accepted only within
      its policy with every attachment scanned, and quarantined otherwise; attended steps
      compile exactly when they should.
    - Repair: budgets are never overspent; a package is promoted only through the recorded
      stages.
    - Control plane and API: an accepted token names an allowed algorithm and a key with it and
      is verified for the issuer and audience within its lifetime, and a refused one shows only
      a public code unless its header is nested too deep for the decoder; decisions are exact on the directory; access fails closed for any
      authorizer and audit writer; any one record digest fixes all
      records before it up to a hash collision; with a controller configured, no call changes a transaction before its access is recorded, and no success is reported before
      its outcome is; error responses are bounded.
    - Platform: exporters get allowlisted attributes with bounded values only, and tracebacks
      show fixed texts; reports and burn rates are exact and bounded,
      alerts are raised exactly when they should; no report is billed twice.

    Witnesses apply each theorem with hypotheses at a concrete input.  Some lemmas record where
    the code falls short: [VerifyEngine.superscript_pointer_raises],
    [Policy.policy_digest_text_ordered], [Workflow.failed_reference_blocks_compensation],
    [Workflow.verification_request_bounds_escape], [TaskStore.expired_lease_renewed],
    [TaskStore.validation_error_leaves_transaction], [TaskStore.acquire_head_of_line],
    [BudgetLedger.reserve_validation_error_leaves_transaction],
    [TransactionService.overlapping_start], [HumanTasks.acknowledged_task_lost],
    [RepairLifecycle.unapproved_candidate_promoted],
    [RunnerRegistry.early_heartbeat_loses_challenge],
    [RunnerRegistry.token_enrolls_two_runners], [Edifact.message_type_escapes],
    [Mapping.level_lost_silently], [Telemetry.joined_credentials_pass], [Telemetry.exporter_details_attached],
    [Telemetry.empty_windows_quiet], [Api.existence_revealed], [Api.unaudited_failure],
    [Api.open_server], [Authentication.deep_header_escapes],
    [Migrations.unhashable_reference_type], [SyntheticCarrier.early_cancel_blocks],
    [BookingAdapter.long_transaction_effect_hidden], [BookingSlice.level_three_unverifiable],
    [Authentication.unknown_key_refuses_set], [Ingestion.line_feed_soft_break_refused],
    [Ingestion.unnamed_part_unscanned] and the examples beside them.

    ** Conventions and bounds

    A pydantic model is a record; its field constraints and validators are a function to
    [result string ()] with the code's checks in order, and [issue] computes the digest and
    validates.  Strings are 8-bit characters read as U+0000 to U+00FF, and the strings of a
    model that strips whitespace are taken already stripped unless its file says otherwise.
    Datetimes are timezone-aware where a field requires it, integers of microseconds since the
    epoch without the year bounds of [datetime].  Floats are [spec_float]s.  Integers are
    unbounded as in Python, with the bounds the fields declare.  Loops are structural over the
    lists they iterate, and the workflow is structural over its plan and history; the only
    definition with fuel is [Migrations.search], which gets one more than the number of steps,
    enough by [Migrations.search_answer].  Calls of a store happen one at
    a time, under its lock; where the code leaves the lock early, the steps say so: a failed enrollment rolls back as a step of its own, which may
    fall between the statements of another ([RunnerRegistry.Interruption]).

    Parameters: SHA-256 ([Sha256], with [Sha256Laws] where its output form matters), CPython's
    float printing ([FloatRepr], with [FloatReprLaws] and [JsonText.FloatTextLaws] for its shape) and pydantic's of datetimes ([DatetimeText]), what it reads from
    a payload ([PayloadReader], [BookingReader]) or a timestamp ([IsoReader]), PyJWT's keys and
    verification ([Authentication.Jwt]), URL splitting and the reading of a token's header, Python's email
    parser and base64 decoder ([Ingestion.MimeParser], [Ingestion.Base64]) and the scanner, the HTTP
    transport of the booking adapter and collector, evidence collectors, policy and secret providers, the OPA
    reply, the adapter and collector outcomes of a history, the authenticator, the approval,
    canary and deployment boundaries of repair, the telemetry exporter and what it raises, drawn ids and tokens,
    and in the API what the service answers and other requests do ([Api.Environment]).

    ** Not modelled

    I/O failures of SQLite other than a nested BEGIN, databases written by other programs
    (except by the audit chain's verification), threads inside a locked operation, FastAPI and
    the Temporal SDK.  Of the rest, the browser and
    HTTP adapters with their package tooling, the network collectors, backup and the runner's
    artifact relay decide little outside the third-party code they drive (httpx,
    Playwright, SQLite's backup API); the repair sandbox and the deployment
    checks drive external processes; standards tooling, releases, marketplace and supply chain
    are build-time and operational documents.  The manifest lists each with its reason. *)

From stdpp Require Export base tactics list sorting gmap sets strings.
From Stdlib Require Export ZArith Lia.
From Stdlib Require Import Ascii.

#[global] Open Scope Z_scope.

(** ** Python results: a value or a raised exception *)

(** A Python call either returns ([Ok]) or raises ([Err]); the exception type is
    a parameter, one per component. *)
Inductive result (E A : Type) : Type :=
| Ok (a : A)
| Err (e : E).
Arguments Ok {_ _} _.
Arguments Err {_ _} _.

#[export] Instance result_ret {E} : MRet (result E) := λ A a, Ok a.
#[export] Instance result_bind {E} : MBind (result E) := λ A B f r,
  match r with Ok a => f a | Err e => Err e end.
#[export] Instance result_fmap {E} : FMap (result E) := λ A B f r,
  match r with Ok a => Ok (f a) | Err e => Err e end.
#[export] Instance result_eq_dec {E A} `{EqDecision E, EqDecision A} :
  EqDecision (result E A).
Proof. solve_decision. Defined.

(** [if b: raise e]. *)
Definition raise_if {E} (b : bool) (e : E) : result E () :=
  if b then Err e else Ok ().

Definition is_ok {E A} (r : result E A) : bool :=
  match r with Ok _ => true | Err _ => false end.

(** A [for] loop whose body may raise and threads an accumulator. *)
Fixpoint foldM {E A B} (f : B → A → result E B) (b : B) (l : list A) : result E B :=
  match l with
  | [] => Ok b
  | a :: l' => b' ← f b a; foldM f b' l'
  end.

(** A comprehension whose element expression may raise. *)
Fixpoint mapM_result {E A B} (f : A → result E B) (l : list A) : result E (list B) :=
  match l with
  | [] => Ok []
  | a :: l' => b ← f a; bs ← mapM_result f l'; Ok (b :: bs)
  end.

(** ** SQLite transactions

    [BEGIN IMMEDIATE ... COMMIT] under the store's lock: the body's writes become
    visible together when it returns, and a raised exception rolls them back. *)
Definition transact {S E A} (body : S → result E (S * A)) (s : S) : S * result E A :=
  match body s with
  | Ok (s', a) => (s', Ok a)
  | Err e => (s, Err e)
  end.

(** ** Sets and orders used by the code's comparisons *)

(** [len(xs) != len(set(xs))]. *)
Definition has_duplicates {A} `{EqDecision A} (l : list A) : bool :=
  negb (bool_decide (NoDup l)).

(** [value in xs] on a tuple. *)
Definition mem {A} `{EqDecision A} (x : A) (l : list A) : bool := bool_decide (x ∈ l).

(** Lexicographic comparison of Python tuples, as a sort key. *)
Definition lex {A B} (RA : relation A) (RB : relation B) (p q : A * B) : Prop :=
  (RA p.1 q.1 ∧ p.1 ≠ q.1) ∨ (p.1 = q.1 ∧ RB p.2 q.2).

#[export] Instance lex_dec {A B} (RA : relation A) (RB : relation B)
    `{EqDecision A, !RelDecision RA, !RelDecision RB} : RelDecision (lex RA RB).
Proof. intros p q. unfold lex. apply _. Defined.

(** [sorted(xs, key=f)] for an order [R] on keys. *)
Definition by_key {A K} (f : A → K) (R : relation K) (x y : A) : Prop := R (f x) (f y).

#[export] Instance by_key_dec {A K} (f : A → K) (R : relation K) `{!RelDecision R} :
  RelDecision (by_key f R).
Proof. intros x y. unfold by_key. apply _. Defined.

Definition sorted_by {A K} (f : A → K) (R : relation K) `{!RelDecision R}
    (l : list A) : list A := merge_sort (by_key f R) l.

(** [tuple(sorted(s))] for a set of strings built by successive [add]s. *)
Definition sorted_set (l : list string) : list string :=
  merge_sort String.le (remove_dups l).

(** ** Reachability *)

(** Zero or more steps. *)
Inductive star {A} (R : A → A → Prop) : A → A → Prop :=
| star_refl a : star R a a
| star_step a b c : R a b → star R b c → star R a c.
#[export] Hint Constructors star : core.

(** ** Automation *)

Create HintDb cargo discriminated.
Create Rewrite HintDb cargo_rw.

(** Split a result-monad hypothesis into the successful prefix. *)
Ltac ok_inv H :=
  repeat match type of H with
  | context [match ?r with Ok _ => _ | Err _ => _ end] =>
      let E := fresh "Hok" in destruct r eqn:E; simpl in H; try discriminate H
  | context [if ?b then _ else _] =>
      let E := fresh "Hif" in destruct b eqn:E; simpl in H; try discriminate H
  end.

(** Turn boolean hypotheses into propositions. *)
Ltac boolify :=
  repeat match goal with
  | H : bool_decide _ = true |- _ => apply bool_decide_eq_true in H
  | H : bool_decide _ = false |- _ => apply bool_decide_eq_false in H
  | H : negb _ = true |- _ => apply negb_true_iff in H
  | H : negb _ = false |- _ => apply negb_false_iff in H
  | H : _ && _ = true |- _ => apply andb_true_iff in H; destruct H
  | H : _ || _ = false |- _ => apply orb_false_iff in H; destruct H
  | H : (_ <? _) = true |- _ => apply Z.ltb_lt in H
  | H : (_ <? _) = false |- _ => apply Z.ltb_ge in H
  | H : (_ <=? _) = true |- _ => apply Z.leb_le in H
  | H : (_ <=? _) = false |- _ => apply Z.leb_gt in H
  | H : (_ =? _) = true |- _ => apply Z.eqb_eq in H
  | H : (_ =? _) = false |- _ => apply Z.eqb_neq in H
  end.

(** ** Lemmas on results *)

Lemma bind_ok {E A B} (r : result E A) (f : A → result E B) b :
  (r ≫= f) = Ok b ↔ ∃ a, r = Ok a ∧ f a = Ok b.
Proof. destruct r; simpl; naive_solver. Qed.

(** [injection] would compute the values. *)
Lemma Ok_inj {E A} (a b : A) : @Ok E A a = Ok b → a = b.
Proof. congruence. Qed.

Lemma raise_if_ok {E} b (e : E) : raise_if b e = Ok () ↔ b = false.
Proof. destruct b; simpl; naive_solver. Qed.

Lemma raise_if_then {E A} b (e : E) (k : () → result E A) a :
  (raise_if b e ≫= k) = Ok a ↔ b = false ∧ k () = Ok a.
Proof. destruct b; simpl; naive_solver. Qed.

Lemma raise_if_err {E A} b (e e' : E) (k : () → result E A) :
  (raise_if b e ≫= k) = Err e' → e' = e ∨ k () = Err e'.
Proof. destruct b; simpl; naive_solver. Qed.

(** Whatever [r] raises satisfies [P]; [raises] takes a chain of calls apart and tries the
    hints of the database of that name on each. *)
Definition raises_only {E A} (P : E → Prop) (r : result E A) : Prop :=
  match r with Ok _ => True | Err e => P e end.

Lemma raises_only_bind {E A B} (P : E → Prop) (r : result E A) (f : A → result E B) :
  raises_only P r → (∀ x, raises_only P (f x)) → raises_only P (r ≫= f).
Proof. destruct r as [x|e]; [intros _ Hf; exact (Hf x)|done]. Qed.

Lemma raises_only_if {E} (P : E → Prop) b e : P e → raises_only P (raise_if b e).
Proof. by destruct b. Qed.

Lemma raises_only_mapM {E A B} (P : E → Prop) (f : A → result E B) l :
  (∀ x, raises_only P (f x)) → raises_only P (mapM_result f l).
Proof.
  intros Hf. induction l as [|x l IH]; [done|]. cbn. apply raises_only_bind; [apply Hf|intros y].
  by apply raises_only_bind.
Qed.

Lemma raises_only_foldM {E A B} (P : E → Prop) (f : B → A → result E B) b l :
  (∀ b x, raises_only P (f b x)) → raises_only P (foldM f b l).
Proof. intros Hf. revert b. induction l as [|x l IH]; intros b; [done|]. cbn. by apply raises_only_bind. Qed.

Create HintDb raises discriminated.
#[export] Hint Constants Opaque : raises.
Ltac raises tac :=
  repeat first
    [ match goal with |- raises_only _ (Ok _) => exact I end
    | solve [auto with raises nocore]
    | apply raises_only_if; solve [tac]
    | apply raises_only_bind; [|intros]
    | apply raises_only_mapM; intros
    | apply raises_only_foldM; intros
    | match goal with
      | |- raises_only _ (Err _) => cbn [raises_only]; solve [tac]
      | |- raises_only _ (match ?x with _ => _ end) => destruct x
      | |- raises_only _ (if ?x then _ else _) => destruct x
      end ].

Lemma transact_ok {S E A} (body : S → result E (S * A)) s s' a :
  transact body s = (s', Ok a) ↔ body s = Ok (s', a).
Proof. unfold transact. destruct (body s) as [[]|]; naive_solver. Qed.

Lemma transact_err {S E A} (body : S → result E (S * A)) s s' e :
  transact body s = (s', Err e) ↔ s' = s ∧ body s = Err e.
Proof. unfold transact. destruct (body s) as [[]|]; naive_solver. Qed.

Lemma mapM_result_Forall2 {E A B} (f : A → result E B) l l' :
  mapM_result f l = Ok l' ↔ Forall2 (λ a b, f a = Ok b) l l'.
Proof.
  revert l'. induction l as [|a l IH]; intros l'; simpl.
  - split; [intros [= <-]; constructor | intros H; by inversion H].
  - split.
    + intros (b & Hb & (bs & Hbs & [= <-])%bind_ok)%bind_ok.
      constructor; [done|]. by apply IH.
    + intros H. inversion H as [|? b ? bs Hb Hbs]; subst.
      rewrite Hb. simpl. apply IH in Hbs. by rewrite Hbs.
Qed.

(** ** Lemmas on membership and duplicates *)

Lemma mem_true {A} `{EqDecision A} (x : A) l : mem x l = true ↔ x ∈ l.
Proof. unfold mem. by rewrite bool_decide_eq_true. Qed.

Lemma mem_false {A} `{EqDecision A} (x : A) l : mem x l = false ↔ x ∉ l.
Proof. unfold mem. by rewrite bool_decide_eq_false. Qed.

Lemma has_duplicates_false {A} `{EqDecision A} (l : list A) :
  has_duplicates l = false ↔ NoDup l.
Proof. unfold has_duplicates. rewrite negb_false_iff. apply bool_decide_eq_true. Qed.

Lemma size_list_to_set_le {A} `{Countable A} (l : list A) :
  (size (list_to_set l : gset A) ≤ length l)%nat.
Proof.
  induction l as [|y l IH]; cbn [list_to_set length]; [by rewrite size_empty|].
  rewrite size_union_alt, size_singleton.
  pose proof (subseteq_size (list_to_set l ∖ {[y]}) (list_to_set l : gset A)). set_solver by lia.
Qed.

(** [len(xs) == len(set(xs))] is what [has_duplicates] decides. *)
Lemma has_duplicates_len_set {A} `{Countable A} (l : list A) :
  has_duplicates l = false ↔ length l = size (list_to_set l : gset A).
Proof.
  rewrite has_duplicates_false. split.
  - intros Hn. by rewrite size_list_to_set.
  - induction l as [|x l IH]; cbn [list_to_set length]; [intros; constructor|]. intros Hs.
    destruct (decide (x ∈ l)) as [Hx|Hx].
    + assert (({[x]} ∪ list_to_set l : gset A) = list_to_set l) as E by set_solver.
      rewrite E in Hs. pose proof (size_list_to_set_le l). lia.
    + constructor; [done|]. apply IH.
      rewrite size_union, size_singleton in Hs by set_solver. lia.
Qed.

(** ** Lemmas on orders and sorting *)

Lemma total_trichotomy {A} (R : relation A) `{EqDecision A, !PartialOrder R, !Total R} :
  TotalOrder R.
Proof.
  split; [apply _|]. intros x y. unfold strict.
  destruct (decide (x = y)) as [->|Hne]; [by right; left|].
  destruct (total R x y) as [H1|H1]; [left|right; right];
    (split; [done|]); intros H2; apply Hne; by apply (anti_symm R).
Qed.

#[export] Instance lex_partial_order {A B} (RA : relation A) (RB : relation B)
    `{!PartialOrder RA, !PartialOrder RB} : PartialOrder (lex RA RB).
Proof.
  repeat split.
  - intros [a b]. right. split; reflexivity.
  - intros [a b] [a' b'] [a'' b'']; unfold lex; simpl.
    intros [[H1 H1']|[-> H1]] [[H2 H2']|[<- H2]]; [left|left|left|right]; split; auto.
    + by etrans.
    + intros ->. apply H1'. by apply (anti_symm RA).
    + by etrans.
  - intros [a b] [a' b']; unfold lex; simpl.
    intros [[H1 H1']|[-> H1]] [[H2 H2']|[E H2]]; try done.
    + exfalso. apply H1'. by apply (anti_symm RA).
    + f_equal. by apply (anti_symm RB).
Qed.

#[export] Instance lex_total {A B} (RA : relation A) (RB : relation B)
    `{EqDecision A, !Total RA, !Total RB} : Total (lex RA RB).
Proof.
  intros [a b] [a' b']. unfold lex; simpl.
  destruct (decide (a = a')) as [->|Hne].
  - destruct (total RB b b'); auto.
  - destruct (total RA a a'); auto.
Qed.

#[export] Instance string_le_total : Total String.le.
Proof. apply _. Qed.

#[export] Instance by_key_trans {A K} (f : A → K) (R : relation K) `{!Transitive R} :
  Transitive (by_key f R).
Proof. intros x y z. unfold by_key. apply transitivity. Qed.

#[export] Instance by_key_total {A K} (f : A → K) (R : relation K) `{!Total R} :
  Total (by_key f R).
Proof. intros x y. unfold by_key. apply total. done. Qed.

Section sorted_by.
Context {A K : Type} (f : A → K) (R : relation K) `{!RelDecision R, !PartialOrder R, !Total R}.

Lemma sorted_by_perm l : sorted_by f R l ≡ₚ l.
Proof. apply merge_sort_Permutation. Qed.

Lemma sorted_by_sorted l : StronglySorted (by_key f R) (sorted_by f R l).
Proof. apply (StronglySorted_merge_sort _). Qed.

Lemma sorted_by_elem l x : x ∈ sorted_by f R l ↔ x ∈ l.
Proof. by rewrite sorted_by_perm. Qed.

(** The head of the sorted list is a least element for the key. *)
Lemma sorted_by_head l x l' y :
  sorted_by f R l = x :: l' → y ∈ l → R (f x) (f y).
Proof.
  intros E Hy. pose proof (sorted_by_sorted l) as Hs. rewrite E in Hs.
  rewrite <-(sorted_by_elem l), E in Hy. apply StronglySorted_cons in Hs as [Hall _].
  apply elem_of_cons in Hy as [->|Hy]; [reflexivity|].
  rewrite Forall_forall in Hall. by apply Hall.
Qed.

(** With distinct keys there is one sorted list. *)
Lemma sorted_by_strong l1 l2 :
  NoDup (f <$> l1) → l1 ≡ₚ l2 → StronglySorted (by_key f R) l2 → sorted_by f R l1 = l2.
Proof.
  intros Hn HP Hs. eapply StronglySorted_unique_strong; [|apply sorted_by_sorted|exact Hs|].
  - intros x y Hx Hy Hxy Hyx. rewrite sorted_by_elem in Hx. rewrite <-HP in Hy.
    assert (f x = f y) as E by (by apply (anti_symm R)).
    clear -Hn Hx Hy E. induction l1 as [|z l1 IH]; [by apply elem_of_nil in Hx|].
    simpl in Hn. apply NoDup_cons in Hn as [Hz Hn].
    apply elem_of_cons in Hx as [->|Hx]; apply elem_of_cons in Hy as [->|Hy]; auto.
    + exfalso. apply Hz. rewrite E. by apply list_elem_of_fmap_2.
    + exfalso. apply Hz. rewrite <-E. by apply list_elem_of_fmap_2.
  - by rewrite sorted_by_perm.
Qed.

(** With distinct keys the sorted list does not depend on the input order: this is
    what makes Python's stable [sorted] deterministic on a set of candidates. *)
Lemma sorted_by_unique l1 l2 :
  NoDup (f <$> l1) → l1 ≡ₚ l2 → sorted_by f R l1 = sorted_by f R l2.
Proof. intros Hn HP. apply sorted_by_strong; [done|by rewrite sorted_by_perm|apply sorted_by_sorted]. Qed.

End sorted_by.

Lemma sorted_set_elem l x : x ∈ sorted_set l ↔ x ∈ l.
Proof. unfold sorted_set. by rewrite merge_sort_Permutation, elem_of_remove_dups. Qed.

Lemma sorted_set_NoDup l : NoDup (sorted_set l).
Proof. unfold sorted_set. rewrite merge_sort_Permutation. apply NoDup_remove_dups. Qed.

Lemma sorted_set_nil l : sorted_set l = [] ↔ l = [].
Proof.
  split; [|by intros ->]. intros E. destruct l as [|x l]; [done|]. exfalso.
  assert (x ∈ sorted_set (x :: l)) as H by (apply sorted_set_elem; set_solver).
  rewrite E in H. by apply elem_of_nil in H.
Qed.

Lemma sorted_set_length l (l' : list string) :
  (∀ x, x ∈ l → x ∈ l') → (length (sorted_set l) ≤ length l')%nat.
Proof.
  intros Hsub. apply submseteq_length, NoDup_submseteq; [apply sorted_set_NoDup|].
  intros x. rewrite sorted_set_elem. apply Hsub.
Qed.

Lemma filter_iff_elem {A} (P Q : A → Prop) `{∀ x, Decision (P x), ∀ x, Decision (Q x)}
    (l : list A) : (∀ x, x ∈ l → P x ↔ Q x) → filter P l = filter Q l.
Proof.
  induction l as [|x l IH]; intros Hiff; [done|]. rewrite !filter_cons.
  assert (P x ↔ Q x) as Hx by (apply Hiff; left).
  rewrite IH by (intros; apply Hiff; by right).
  destruct (decide (P x)), (decide (Q x)); tauto || done.
Qed.

(** Filtering a duplicate-free list by membership in one of its sublists gives that
    sublist back. *)
Lemma filter_sublist_NoDup {A} `{EqDecision A} (k l : list A) :
  NoDup l → k `sublist_of` l → filter (λ x, x ∈ k) l = k.
Proof.
  intros Hn Hs. induction Hs as [|x k l Hs IH|x k l Hs IH]; [done|..];
    apply NoDup_cons in Hn as [Hx Hn].
  - rewrite filter_cons_True by left. f_equal. etrans; [|by apply IH].
    apply filter_iff_elem. intros y Hy. rewrite elem_of_cons. naive_solver.
  - rewrite filter_cons_False; [auto|]. intros Hk. apply Hx. by eapply elem_of_sublist.
Qed.

Lemma forallb_elem {A} (p : A → bool) (l : list A) :
  forallb p l = true ↔ ∀ x, x ∈ l → p x = true.
Proof. rewrite forallb_forall. by setoid_rewrite list_elem_of_In. Qed.

Lemma existsb_elem_false {A} (p : A → bool) (l : list A) :
  existsb p l = false ↔ ∀ x, x ∈ l → p x = false.
Proof.
  rewrite <-not_true_iff_false, existsb_exists. split.
  - intros Hn x Hx. apply not_true_is_false. intros Hp. apply Hn. exists x.
    by rewrite <-list_elem_of_In.
  - intros Hall (x & Hx & Hp). rewrite Hall in Hp; [done|]. by apply list_elem_of_In.
Qed.

(** ** Lists as the code's comprehensions and sets use them *)

Lemma omap_nil {A B} (f : A → option B) (l : list A) :
  omap f l = [] ↔ ∀ x, x ∈ l → f x = None.
Proof.
  induction l as [|a l IH]; simpl; [split; [intros _ x Hx; by apply elem_of_nil in Hx|done]|].
  destruct (f a) as [b|] eqn:E.
  - split; [done|]. intros H. rewrite H in E; [done|left].
  - rewrite IH. setoid_rewrite elem_of_cons. naive_solver.
Qed.

Lemma list_filter_all {A} (p : A → bool) (l : list A) :
  (∀ x, x ∈ l → p x = true) → List.filter p l = l.
Proof.
  induction l as [|a l IH]; simpl; [done|]. intros H. rewrite H by left.
  f_equal. apply IH. intros x Hx. apply H. by right.
Qed.

Lemma list_filter_elem {A} (p : A → bool) (l : list A) x :
  x ∈ List.filter p l ↔ x ∈ l ∧ p x = true.
Proof. by rewrite !list_elem_of_In, filter_In. Qed.

Lemma list_filter_nil {A} (p : A → bool) (l : list A) :
  List.filter p l = [] ↔ ¬ ∃ x, x ∈ l ∧ p x = true.
Proof.
  setoid_rewrite <-list_filter_elem. destruct (List.filter p l) as [|x k].
  - split; [|done]. by intros _ (x & Hx%elem_of_nil).
  - split; [done|]. intros H. exfalso. apply H. exists x. left.
Qed.

Lemma Forall2_map_in {A B} (P : A → B → Prop) l k x :
  Forall2 P l k → x ∈ l → ∃ y, y ∈ k ∧ P x y.
Proof.
  intros HF Hx. apply list_elem_of_lookup in Hx as [i Hi].
  destruct (Forall2_lookup_l _ _ _ _ _ HF Hi) as (y & Hy & HP).
  exists y. split; [by eapply list_elem_of_lookup_2|done].
Qed.

Lemma Forall2_map_in_r {A B} (P : A → B → Prop) l k y :
  Forall2 P l k → y ∈ k → ∃ x, x ∈ l ∧ P x y.
Proof.
  intros HF Hx. apply list_elem_of_lookup in Hx as [i Hi].
  destruct (Forall2_lookup_r _ _ _ _ _ HF Hi) as (x & Hx & HP).
  exists x. split; [by eapply list_elem_of_lookup_2|done].
Qed.

Lemma concat_map_nil {A B} (f : A → list B) (l : list A) :
  concat (map f l) = [] ↔ ∀ x, x ∈ l → f x = [].
Proof.
  induction l as [|a l IH]; simpl; [split; [intros _ x Hx; by apply elem_of_nil in Hx|done]|].
  rewrite app_nil, IH. setoid_rewrite elem_of_cons. naive_solver.
Qed.

Lemma concat_map_elem {A B} (f : A → list B) (l : list A) y :
  y ∈ concat (map f l) ↔ ∃ x, x ∈ l ∧ y ∈ f x.
Proof.
  rewrite !list_elem_of_In, in_concat. split.
  - intros (k & Hk & Hy). apply in_map_iff in Hk as (x & <- & Hx).
    exists x. by rewrite !list_elem_of_In.
  - intros (x & Hx & Hy). exists (f x). rewrite !list_elem_of_In in *.
    split; [by apply in_map|done].
Qed.

Lemma foldM_unit_ok {E A} (f : A → result E ()) (l : list A) :
  foldM (λ _ a, f a) () l = Ok () ↔ ∀ a, a ∈ l → f a = Ok ().
Proof.
  induction l as [|a l IH]; cbn [foldM].
  - split; [|done]. intros _ a Ha. by apply elem_of_nil in Ha.
  - rewrite bind_ok. split.
    + intros ([] & Ha & Hl) x [->|Hx]%elem_of_cons; [done|by apply IH].
    + intros Hall. exists (). split; [apply Hall; left|]. apply IH. intros x Hx. apply Hall. by right.
Qed.

Lemma mapM_result_total {E A B} (f : A → result E B) l :
  (∀ x, x ∈ l → ∃ y, f x = Ok y) → ∃ ys, mapM_result f l = Ok ys.
Proof.
  induction l as [|a l IH]; intros Hall; simpl; [eauto|].
  destruct (Hall a) as [y ->]; [left|]. destruct IH as [ys ->]; [|simpl; eauto].
  intros x Hx. apply Hall. by right.
Qed.

Lemma remove_dups_single {A} `{EqDecision A} (l : list A) k :
  l ≠ [] → Z.of_nat (length (remove_dups l)) ≤ 1 ∧ head (remove_dups l) = Some k ↔
  l ≠ [] ∧ ∀ x, x ∈ l → x = k.
Proof.
  intros Hne. split.
  - intros [Hl Hh]. split; [done|]. intros x Hx. apply elem_of_remove_dups in Hx.
    destruct (remove_dups l) as [|y [|z l']]; simpl in *; [done|..|lia].
    injection Hh as ->. by apply list_elem_of_singleton in Hx.
  - intros [_ Hall]. pose proof (NoDup_remove_dups l) as Hn.
    assert (∀ x, x ∈ remove_dups l → x = k) as Hall'.
    { intros x. rewrite elem_of_remove_dups. auto. }
    destruct (remove_dups l) as [|y l'] eqn:E.
    + exfalso. destruct l as [|a l]; [done|].
      assert (a ∈ remove_dups (a :: l)) as H by (rewrite elem_of_remove_dups; left).
      rewrite E in H. by apply elem_of_nil in H.
    + simpl. rewrite (Hall' y) by left. split; [|done].
      destruct l' as [|z l']; [done|]. exfalso.
      rewrite (Hall' y), (Hall' z) in Hn by set_solver.
      apply NoDup_cons in Hn as [Hn _]. apply Hn. left.
Qed.

Lemma remove_dups_two {A} `{EqDecision A} (l : list A) :
  2 ≤ Z.of_nat (length (remove_dups l)) ↔ ∃ x y, x ∈ l ∧ y ∈ l ∧ x ≠ y.
Proof.
  setoid_rewrite <-(elem_of_remove_dups l). pose proof (NoDup_remove_dups l) as Hn.
  destruct (remove_dups l) as [|x [|y l']]; cbn [length].
  - split; [lia|]. by intros (x & y & Hx%elem_of_nil & _).
  - split; [lia|]. intros (y & z & ->%list_elem_of_singleton & ->%list_elem_of_singleton & ?). done.
  - split; [intros _|lia]. exists x, y. split_and!; [left|right; left|].
    intros ->. apply NoDup_cons in Hn as [Hn _]. apply Hn. left.
Qed.

Lemma star_one {A} (R : A → A → Prop) a b : R a b → star R a b.
Proof. eauto. Qed.

Lemma star_trans {A} (R : A → A → Prop) a b c : star R a b → star R b c → star R a c.
Proof. induction 1; eauto. Qed.

(** An invariant of every step is an invariant of every run. *)
Lemma star_invariant {A} (R : A → A → Prop) (I : A → Prop) a b :
  (∀ x y, I x → R x y → I y) → I a → star R a b → I b.
Proof. intros Hstep Ha Hs. induction Hs; eauto. Qed.

(** Where each step takes the entry under a key to a later one and keeps an invariant, so
    does every run. *)
Lemma star_entries {S K R} (step : S → S → Prop) (I : S → Prop) (entry : S → K → option R)
    (le : R → R → Prop) `{!PreOrder le} :
  (∀ s s', I s → step s s' → I s') →
  (∀ s s' k r, I s → step s s' → entry s k = Some r → ∃ r', entry s' k = Some r' ∧ le r r') →
  ∀ s s' k r, I s → star step s s' → entry s k = Some r →
  I s' ∧ ∃ r', entry s' k = Some r' ∧ le r r'.
Proof.
  intros HI He s s' k r Hs Hstar. revert r Hs.
  induction Hstar as [s|s1 s2 s3 H1 _ IH]; intros r Hs Hr; [split; [done|by exists r]|].
  destruct (He _ _ _ _ Hs H1 Hr) as (r2 & Hr2 & Hle).
  destruct (IH _ (HI _ _ Hs H1) Hr2) as (Hs3 & r3 & Hr3 & Hle'). split; [done|].
  exists r3. split; [done|by etrans].
Qed.

#[export] Hint Rewrite @bind_ok @raise_if_ok @raise_if_then @mem_true @mem_false
  @has_duplicates_false : cargo_rw.
#[export] Hint Resolve sorted_by_perm sorted_by_sorted sorted_set_NoDup : cargo.
