(* ===== verification/Contracts.v ===== *)
(** * Shared contracts

    The vocabulary every component imports: risk classes and verification levels
    ([ir/enums.py]) with the ranks the comparisons use, the string constraints of the
    pydantic field types (names, identifiers, digests), the secret-key scanner, and
    JSON values with the size bound of [verification/models.py].  Python strings are
    [string]s of 8-bit characters, read as the code points U+0000 to U+00FF. *)

From stdpp Require Import options.
From Stdlib Require Import Ascii String.
From Stdlib Require Import SpecFloat.
From stdpp Require Import pretty.
From S2P Require Import Prelude.

(** ** Enumerations (ir/enums.py, routing/models.py) *)

Inductive RiskClass := READ_ONLY | REVERSIBLE_WRITE | CONSEQUENTIAL_WRITE.
Inductive VerificationLevel := L0 | L1 | L2 | L3.
Inductive ExecutionChannel := API | EDI | BROWSER | HUMAN.
Inductive DataClassification := PUBLIC | INTERNAL | CONFIDENTIAL | RESTRICTED.

#[export] Instance RiskClass_eq_dec : EqDecision RiskClass.
Proof. solve_decision. Defined.
#[export] Instance VerificationLevel_eq_dec : EqDecision VerificationLevel.
Proof. solve_decision. Defined.
#[export] Instance ExecutionChannel_eq_dec : EqDecision ExecutionChannel.
Proof. solve_decision. Defined.
#[export] Instance DataClassification_eq_dec : EqDecision DataClassification.
Proof. solve_decision. Defined.

Definition RISK_RANK (r : RiskClass) : Z :=
  match r with READ_ONLY => 0 | REVERSIBLE_WRITE => 1 | CONSEQUENTIAL_WRITE => 2 end.

Definition DATA_RANK (d : DataClassification) : Z :=
  match d with PUBLIC => 0 | INTERNAL => 1 | CONFIDENTIAL => 2 | RESTRICTED => 3 end.

Definition VERIFICATION_RANK (v : VerificationLevel) : Z :=
  match v with L0 => 0 | L1 => 1 | L2 => 2 | L3 => 3 end.

(** [is READ_ONLY]. *)
Definition is_read_only (r : RiskClass) : bool := bool_decide (r = READ_ONLY).

(** ** Characters *)

Definition code (c : ascii) : Z := Z.of_N (N_of_ascii c).
Definition is_lower (c : ascii) : bool := (97 <=? code c) && (code c <=? 122).
Definition is_upper (c : ascii) : bool := (65 <=? code c) && (code c <=? 90).
Definition is_digit (c : ascii) : bool := (48 <=? code c) && (code c <=? 57).
(** [[a-z0-9]]. *)
Definition is_alnum (c : ascii) : bool := is_lower c || is_digit c.
(** [[._-]]. *)
Definition is_sep (c : ascii) : bool := (code c =? 46) || (code c =? 95) || (code c =? 45).
(** [[_-]]. *)
Definition is_dash (c : ascii) : bool := (code c =? 95) || (code c =? 45).
(** [[0-9a-f]]. *)
Definition is_hex (c : ascii) : bool := is_digit c || ((97 <=? code c) && (code c <=? 102)).
(** White space as pydantic's [strip_whitespace] sees it (Unicode White_Space). *)
Definition is_space (c : ascii) : bool :=
  ((9 <=? code c) && (code c <=? 13)) || (code c =? 32) || (code c =? 133) || (code c =? 160).

(** White space as Python's [str.strip] sees it. *)
Definition py_space (c : ascii) : bool :=
  is_space c || ((28 <=? code c) && (code c <=? 31)).

Definition to_lower (c : ascii) : ascii :=
  if is_upper c then ascii_of_N (Z.to_N (code c + 32)) else c.

(** Lowercase ASCII, as [re.IGNORECASE] compares with an ASCII word. *)
Fixpoint lower (s : string) : string :=
  match s with
  | EmptyString => EmptyString
  | String c s' => String (to_lower c) (lower s')
  end.

(** [str.casefold] on U+0000..U+00FF; U+00B5 folds to a character outside this range,
    which nothing else folds to, and is left alone. *)
Fixpoint casefold (s : string) : string :=
  match s with
  | EmptyString => EmptyString
  | String c s' =>
      let z := code c in
      if is_upper c || ((192 <=? z) && (z <=? 222) && negb (z =? 215)) then
        String (ascii_of_N (Z.to_N (z + 32))) (casefold s')
      else if z =? 223 then String "s" (String "s" (casefold s'))
      else String c (casefold s')
  end.

Fixpoint forall_chars (p : ascii → bool) (s : string) : bool :=
  match s with
  | EmptyString => true
  | String c s' => p c && forall_chars p s'
  end.

Definition len (s : string) : Z := Z.of_nat (String.length s).

(** [needle in s]. *)
Fixpoint contains (needle s : string) : bool :=
  String.prefix needle s || match s with String _ s' => contains needle s' | EmptyString => false end.

(** [s.endswith(suffix)]. *)
Definition ends_with (suffix s : string) : bool :=
  let n := (String.length s - String.length suffix)%nat in
  (String.length suffix <=? String.length s)%nat
  && bool_decide (String.substring n (String.length suffix) s = suffix).

(** ** Field patterns *)

(** The tail of [^[a-z][a-z0-9]*(?:[sep][a-z0-9]+)*$]: [after_sep] remembers that a
    separator was just read, so that an alphanumeric character must follow. *)
Fixpoint name_tail (sep : ascii → bool) (after_sep : bool) (s : string) : bool :=
  match s with
  | EmptyString => negb after_sep
  | String c s' =>
      if is_alnum c then name_tail sep false s'
      else sep c && negb after_sep && name_tail sep true s'
  end.

Definition name_pattern (sep : ascii → bool) (s : string) : bool :=
  match s with
  | EmptyString => false
  | String c s' => is_lower c && name_tail sep false s'
  end.

(** RuntimeName, RouteName, PolicyName, RunnerName, VerificationName: the same
    constraints in every module. *)
Definition Name_ok (s : string) : bool :=
  (1 <=? len s) && (len s <=? 128) && name_pattern is_sep s.

Fixpoint ends_with_space (s : string) : bool :=
  match s with
  | EmptyString => false
  | String c EmptyString => py_space c
  | String _ s' => ends_with_space s'
  end.

(** [value == value.strip()]. *)
Definition stripped (s : string) : bool :=
  match s with
  | EmptyString => true
  | String c _ => negb (py_space c) && negb (ends_with_space s)
  end.

(** Leading and trailing whitespace removed. *)
Fixpoint lstrip (l : list ascii) : list ascii :=
  match l with
  | [] => []
  | c :: l' => if is_space c then lstrip l' else l
  end.
Definition strip (s : string) : string :=
  string_of_list_ascii (rev (lstrip (rev (lstrip (list_ascii_of_string s))))).

(** RuntimeIdentifier and its siblings, after [strip_whitespace]. *)
Definition Identifier_ok (s : string) : bool :=
  bool_decide (strip s = s) && (1 <=? len s) && (len s <=? 256).

(** [^sha256:[0-9a-f]{64}$]. *)
Definition Digest_ok (s : string) : bool :=
  bool_decide (String.substring 0 7 s = "sha256:")
  && (len s =? 71)
  && forall_chars is_hex (String.substring 7 64 s).

(** [Field(ge=lo, le=hi)], optional fields and [max_length]. *)
Definition between (lo z hi : Z) : bool := (lo <=? z) && (z <=? hi).
Definition opt_ok {A} (p : A → bool) (o : option A) : bool :=
  match o with None => true | Some a => p a end.
Definition max_length {A} (n : Z) (l : list A) : bool := Z.of_nat (length l) <=? n.
Definition is_none {A} (o : option A) : bool := match o with None => true | Some _ => false end.

(** [_validate_optional_digest]. *)
Definition optional_digest_ok (value : option string) : bool :=
  match value with None => true | Some d => Digest_ok d end.

(** ** The secret-key scanner

    [_SECRET_KEY_RE.search(key)] looks for a secret word delimited on both sides by a
    separator or an end of the key, ignoring case.  [$] also matches before a final
    newline. *)
Definition secret_words : list string :=
  ["authorization"; "cookie"; "credential"; "password"; "secret"; "token"].

Definition secret_end (s : string) : bool :=
  match s with
  | EmptyString => true
  | String c s' => is_sep c || ((code c =? 10) && bool_decide (s' = EmptyString))
  end.

(** [word] is a prefix of [s] (case folded) and ends at a boundary. *)
Fixpoint word_here (word s : string) : bool :=
  match word, s with
  | EmptyString, _ => secret_end s
  | String w word', String c s' => bool_decide (to_lower c = w) && word_here word' s'
  | String _ _, EmptyString => false
  end.

(** Search from the start ([boundary = true]) or after a separator. *)
Fixpoint secret_search (words : list string) (boundary : bool) (s : string) : bool :=
  (boundary && existsb (λ w, word_here w s) words)
  || match s with
     | EmptyString => false
     | String c s' => secret_search words (is_sep c) s'
     end.

Definition is_secret_key (key : string) : bool := secret_search secret_words true key.

(** ** JSON values *)

Inductive json :=
| JNull
| JBool (b : bool)
| JInt (z : Z)
| JFloat (f : spec_float)
| JStr (s : string)
| JList (l : list json)
| JObj (fields : list (string * json)).

Fixpoint assoc {A} (key : string) (fields : list (string * A)) : option A :=
  match fields with
  | [] => None
  | (k, v) :: fields' => if decide (k = key) then Some v else assoc key fields'
  end.

(** [_reject_secret_values]: [true] when some object key at any depth looks secret. *)
Fixpoint has_secret_values (value : json) : bool :=
  match value with
  | JObj fields =>
      existsb (λ kv, is_secret_key kv.1 || has_secret_values kv.2) fields
  | JList l => existsb has_secret_values l
  | _ => false
  end.

(** CPython's shortest decimal representation of a float: not code of this
    repository, so a parameter of what prints JSON. *)
Class FloatRepr := float_repr : spec_float → string.

(** The shortest-repr printer reads back: distinct binary64 values print differently. *)
Class FloatReprLaws `{FloatRepr} : Prop :=
  float_repr_inj : ∀ f g, valid_binary 53 1024 f = true → valid_binary 53 1024 g = true →
    float_repr f = float_repr g → f = g.

Definition sf_is_finite (f : spec_float) : bool :=
  match f with S754_zero _ | S754_finite _ _ _ => true | _ => false end.

Definition chars (l : list Z) : string :=
  string_of_list_ascii (map (λ z, ascii_of_N (Z.to_N z)) l).

(** One character inside a JSON string, as [json.dumps(ensure_ascii=False)] writes it. *)
Definition hex_digit (z : Z) : Z := if z <? 10 then 48 + z else 87 + z.
Definition json_char (c : ascii) : string :=
  let z := code c in
  if z =? 34 then chars [92; 34] else if z =? 92 then chars [92; 92]
  else if z =? 10 then chars [92; 110] else if z =? 13 then chars [92; 114]
  else if z =? 9 then chars [92; 116] else if z =? 8 then chars [92; 98]
  else if z =? 12 then chars [92; 102]
  else if z <? 32 then chars [92; 117; 48; 48; hex_digit (z / 16); hex_digit (z mod 16)]
  else String c EmptyString.

Fixpoint json_chars (s : string) : string :=
  match s with
  | EmptyString => EmptyString
  | String c s' => json_char c +:+ json_chars s'
  end.

Definition json_string (s : string) : string := chars [34] +:+ json_chars s +:+ chars [34].

(** [json.dumps(value, ensure_ascii=False, separators=(",", ":"), sort_keys=True)]. *)
Fixpoint json_dumps `{FloatRepr} (value : json) : string :=
  match value with
  | JNull => "null"
  | JBool true => "true"
  | JBool false => "false"
  | JInt z => pretty z
  | JFloat f => float_repr f
  | JStr s => json_string s
  | JList l => "[" +:+ String.concat "," (map json_dumps l) +:+ "]"
  | JObj fields =>
      "{" +:+ String.concat ","
        (map (λ kv, json_string kv.1 +:+ ":" +:+ kv.2)
          (sorted_by fst String.le (map (λ kv, (kv.1, json_dumps kv.2)) fields))) +:+ "}"
  end.

(** [allow_nan=False]. *)
Fixpoint json_finite (value : json) : bool :=
  match value with
  | JFloat f => sf_is_finite f
  | JList l => forallb json_finite l
  | JObj fields => forallb (λ kv, json_finite kv.2) fields
  | _ => true
  end.

(** [len(s.encode("utf-8"))]. *)
Fixpoint utf8_len (s : string) : Z :=
  match s with
  | EmptyString => 0
  | String c s' => (if code c <? 128 then 1 else 2) + utf8_len s'
  end.

(** [_require_bounded_json]. *)
Definition bounded_json `{FloatRepr} (value : json) (maximum_bytes : Z) : bool :=
  json_finite value && (utf8_len (json_dumps value) <=? maximum_bytes).

(** ** Canonical documents and digests

    Every immutable contract carries the digest of its other fields:
    ["sha256:" + sha256(json.dumps(_canonical_value(fields)))].  SHA-256 itself is
    library code, a parameter here. *)
Class Sha256 := sha256_hex : string → string.

Definition value_digest `{Sha256, FloatRepr} (value : json) : string :=
  "sha256:" +:+ sha256_hex (json_dumps value).

(** The values of the string enumerations. *)
Definition RiskClass_value (r : RiskClass) : string :=
  match r with
  | READ_ONLY => "READ_ONLY" | REVERSIBLE_WRITE => "REVERSIBLE_WRITE"
  | CONSEQUENTIAL_WRITE => "CONSEQUENTIAL_WRITE"
  end.
Definition VerificationLevel_value (v : VerificationLevel) : string :=
  match v with L0 => "L0" | L1 => "L1" | L2 => "L2" | L3 => "L3" end.
Definition ExecutionChannel_value (c : ExecutionChannel) : string :=
  match c with API => "API" | EDI => "EDI" | BROWSER => "BROWSER" | HUMAN => "HUMAN" end.
Definition DataClassification_value (d : DataClassification) : string :=
  match d with
  | PUBLIC => "PUBLIC" | INTERNAL => "INTERNAL" | CONFIDENTIAL => "CONFIDENTIAL"
  | RESTRICTED => "RESTRICTED"
  end.

Definition json_opt {A} (f : A → json) (o : option A) : json :=
  match o with None => JNull | Some a => f a end.
Definition json_strs (l : list string) : json := JList (map JStr l).

(** A timezone-aware datetime is its microseconds since the Unix epoch;
    [value.astimezone(UTC).isoformat(timespec="microseconds")]. *)
Definition civil_of_days (days : Z) : Z * Z * Z :=
  let z := days + 719468 in
  let era := z / 146097 in
  let doe := z mod 146097 in
  let yoe := (doe - doe / 1460 + doe / 36524 - doe / 146096) / 365 in
  let doy := doe - (365 * yoe + yoe / 4 - yoe / 100) in
  let mp := (5 * doy + 2) / 153 in
  let d := doy - (153 * mp + 2) / 5 + 1 in
  let m := if mp <? 10 then mp + 3 else mp - 9 in
  let y := yoe + era * 400 in
  ((if m <=? 2 then y + 1 else y), m, d).

(** Zero-padded decimal of [n] digits. *)
Fixpoint padded (n : nat) (z : Z) : string :=
  match n with
  | O => EmptyString
  | S n' => padded n' (z / 10) +:+ chars [48 + z mod 10]
  end.

Definition isoformat (us : Z) : string :=
  let '(y, m, d) := civil_of_days (us / 86400000000) in
  let r := us mod 86400000000 in
  padded 4 y +:+ "-" +:+ padded 2 m +:+ "-" +:+ padded 2 d +:+ "T" +:+
  padded 2 (r / 3600000000) +:+ ":" +:+ padded 2 (r / 60000000 mod 60) +:+ ":" +:+
  padded 2 (r / 1000000 mod 60) +:+ "." +:+ padded 6 (r mod 1000000) +:+ "+00:00".

Example isoformat_epoch : isoformat 1709210096000001 = "2024-02-29T12:34:56.000001+00:00".
Proof. vm_compute. reflexivity. Qed.

(** [timedelta(seconds=s)]. *)
Definition seconds (s : Z) : Z := s * 1000000.

(** The binary64 value of an integer literal. *)
Definition py_float (z : Z) : spec_float := binary_normalize 53 1024 z 0 false.

(** ** Lemmas *)

(** Induction on a JSON value and the values inside it. *)
Lemma json_deep_ind (P : json → Prop) :
  P JNull → (∀ b, P (JBool b)) → (∀ z, P (JInt z)) → (∀ f, P (JFloat f)) → (∀ s, P (JStr s)) →
  (∀ l, Forall P l → P (JList l)) → (∀ fields, Forall (λ kv, P kv.2) fields → P (JObj fields)) → ∀ v, P v.
Proof.
  intros Hn Hb Hi Hf Hs Hl Ho. fix IH 1.
  intros [|b|z|f|s|l|fields]; [exact Hn|apply Hb|apply Hi|apply Hf|apply Hs|apply Hl|apply Ho].
  - induction l as [|v l IHl]; constructor; [apply IH|exact IHl].
  - induction fields as [|[k v] fields IHf]; constructor; [apply IH|exact IHf].
Qed.

Lemma risk_rank_inj r r' : RISK_RANK r = RISK_RANK r' → r = r'.
Proof. by destruct r, r'. Qed.

Lemma verification_rank_inj v v' : VERIFICATION_RANK v = VERIFICATION_RANK v' → v = v'.
Proof. by destruct v, v'. Qed.

Lemma verification_rank_bounds v : 0 ≤ VERIFICATION_RANK v ≤ 3.
Proof. destruct v; simpl; lia. Qed.

Lemma is_read_only_true r : is_read_only r = true ↔ r = READ_ONLY.
Proof. unfold is_read_only. by rewrite bool_decide_eq_true. Qed.

Lemma is_read_only_false r : is_read_only r = false ↔ r ≠ READ_ONLY.
Proof. unfold is_read_only. by rewrite bool_decide_eq_false. Qed.

#[export] Hint Rewrite is_read_only_true is_read_only_false : cargo_rw.

Lemma assoc_elem {A} key (fields : list (string * A)) v : assoc key fields = Some v → (key, v) ∈ fields.
Proof.
  induction fields as [|[k w] fields IH]; simpl; [done|]. destruct (decide (k = key)) as [->|].
  - intros [= ->]. left.
  - intros. right. auto.
Qed.

Lemma lstrip_plain l : forallb (λ c, negb (is_space c)) l = true → lstrip l = l.
Proof. destruct l as [|c l]; [done|]. cbn. intros [Hc _]%andb_true_iff. by destruct (is_space c). Qed.

Lemma forallb_rev {A} (p : A → bool) l : forallb p (rev l) = forallb p l.
Proof. induction l as [|a l IH]; [done|]. cbn. rewrite forallb_app, IH. cbn. by rewrite andb_true_r, andb_comm. Qed.

(** Text without white space is stripped already. *)
Lemma strip_plain s : forall_chars (λ c, negb (is_space c)) s = true → strip s = s.
Proof.
  intros Hs. assert (forallb (λ c, negb (is_space c)) (list_ascii_of_string s) = true) as Hl.
  { induction s as [|c s IH]; [done|]. cbn in *. apply andb_true_iff in Hs as [-> Hs]. by apply IH. }
  unfold strip. rewrite (lstrip_plain _ Hl), lstrip_plain by by rewrite forallb_rev.
  by rewrite rev_involutive, string_of_list_ascii_of_string.
Qed.

Lemma forall_chars_impl (p q : ascii → bool) s :
  (∀ c, p c = true → q c = true) → forall_chars p s = true → forall_chars q s = true.
Proof.
  intros Hpq. induction s as [|c s IH]; [done|]. cbn. intros [Hc Hs]%andb_true_iff.
  by rewrite (Hpq _ Hc), (IH Hs).
Qed.

Lemma sep_not_alnum c : is_sep c = true → is_alnum c = false.
Proof. destruct c as [[][][][][][][][]]; vm_compute; congruence. Qed.

Lemma dash_is_sep c : is_dash c = true → is_sep c = true.
Proof. destruct c as [[][][][][][][][]]; vm_compute; congruence. Qed.

(** The segments [(?:[sep][a-z0-9]+)*] of a name. *)
Definition segment_ok (sep : ascii → bool) (seg : ascii * string) : Prop :=
  sep seg.1 = true ∧ seg.2 ≠ EmptyString ∧ forall_chars is_alnum seg.2 = true.

Fixpoint segments_string (segs : list (ascii * string)) : string :=
  match segs with
  | [] => EmptyString
  | (c, s) :: segs' => String c (s +:+ segments_string segs')
  end.

Lemma name_tail_sound sep b s :
  name_tail sep b s = true →
  ∃ body segs, s = body +:+ segments_string segs ∧ forall_chars is_alnum body = true ∧
    (b = true → body ≠ EmptyString) ∧ Forall (segment_ok sep) segs.
Proof.
  revert b. induction s as [|c s IH]; intros b; simpl.
  - intros Hb. exists EmptyString, []. destruct b; [done|]. repeat split; auto; done.
  - destruct (is_alnum c) eqn:Hc.
    + intros (body & segs & -> & Hbody & _ & Hsegs)%IH.
      exists (String c body), segs. simpl. rewrite Hc. repeat split; auto.
    + destruct (sep c) eqn:Hs; [|done]. destruct b; [done|]. simpl.
      intros (body & segs & -> & Hbody & Hne & Hsegs)%IH.
      exists EmptyString, ((c, body) :: segs). repeat split; auto; try done.
      constructor; [|done]. repeat split; simpl; auto.
Qed.

Lemma name_tail_complete sep body segs :
  (∀ c, sep c = true → is_alnum c = false) →
  forall_chars is_alnum body = true → Forall (segment_ok sep) segs →
  ∀ b, (b = true → body ≠ EmptyString) →
  name_tail sep b (body +:+ segments_string segs) = true.
Proof.
  intros Hsep. revert body. induction segs as [|[c seg] segs IHsegs]; intros body.
  all: induction body as [|d body IH]; intros Hbody Hsegs b Hb; simpl in *.
  - destruct b; [by destruct Hb|done].
  - apply andb_true_iff in Hbody as [-> Hbody]. by apply IH.
  - inversion Hsegs as [|?? (Hc & Hne & Hseg) Hsegs']; subst. simpl in *.
    destruct b; [by destruct Hb|]. rewrite Hsep, Hc by done. simpl. by apply IHsegs.
  - apply andb_true_iff in Hbody as [-> Hbody]. by apply IH.
Qed.

Lemma name_tail_mono (sep sep' : ascii → bool) b s :
  (∀ c, sep c = true → sep' c = true) →
  name_tail sep b s = true → name_tail sep' b s = true.
Proof.
  intros Hsub. revert b. induction s as [|c s IH]; intros b; simpl; [done|].
  destruct (is_alnum c); [apply IH|]. rewrite !andb_true_iff. naive_solver.
Qed.

Lemma name_pattern_mono (sep sep' : ascii → bool) s :
  (∀ c, sep c = true → sep' c = true) →
  name_pattern sep s = true → name_pattern sep' s = true.
Proof.
  intros Hsub. destruct s as [|c s]; simpl; [done|]. rewrite !andb_true_iff.
  intros [? ?]. eauto using name_tail_mono.
Qed.

(** A [RuntimeName] is exactly a word of 1 to 128 characters that starts with a
    lowercase letter, continues with lowercase letters and digits, and is followed by
    any number of nonempty alphanumeric segments, each introduced by one separator. *)
Theorem Name_ok_language s :
  Name_ok s = true ↔
  1 ≤ len s ≤ 128 ∧
  ∃ c body segs, s = String c (body +:+ segments_string segs) ∧ is_lower c = true ∧
    forall_chars is_alnum body = true ∧ Forall (segment_ok is_sep) segs.
Proof.
  unfold Name_ok. rewrite !andb_true_iff, !Z.leb_le. split; intros [Hl H]; split; try lia.
  - destruct s as [|c s]; simpl in H; [done|]. apply andb_true_iff in H as [Hc H].
    apply name_tail_sound in H as (body & segs & -> & Hb & _ & Hs). eauto 8.
  - destruct H as (c & body & segs & -> & Hc & Hb & Hs). simpl. rewrite Hc. simpl.
    apply name_tail_complete; auto using sep_not_alnum.
Qed.

Lemma word_here_spec word s :
  word_here word s = true ↔
  ∃ w post, s = w +:+ post ∧ lower w = word ∧ secret_end post = true.
Proof.
  revert s. induction word as [|c word IH]; intros s; simpl.
  - split.
    + intros H. by exists EmptyString, s.
    + intros ([|] & post & -> & Hw & Hp); [done|]. discriminate Hw.
  - destruct s as [|d s]; simpl.
    + split; [done|]. intros ([|] & post & E & Hw & _); [|done]. discriminate Hw.
    + rewrite andb_true_iff, bool_decide_eq_true, IH. split.
      * intros (<- & w & post & -> & <- & Hp). by exists (String d w), post.
      * intros ([|e w] & post & E & Hw & Hp); [discriminate Hw|].
        simpl in E, Hw. injection E as -> ->. injection Hw as <- <-.
        split; [done|]. by exists w, post.
Qed.

(** The position [pre] ends with a boundary: the start of the key or a separator. *)
Definition at_boundary (start : bool) (pre : string) : Prop :=
  (pre = EmptyString ∧ start = true) ∨
  ∃ p c, pre = p +:+ String c EmptyString ∧ is_sep c = true.

Lemma at_boundary_cons start c pre :
  at_boundary start (String c pre) ↔ at_boundary (is_sep c) pre.
Proof.
  unfold at_boundary. split.
  - intros [[? _]|([|d p] & e & E & He)]; [done|..]; simpl in E; injection E as <- ->.
    + left. done.
    + right. eauto.
  - intros [[-> Hc]|(p & e & -> & He)]; right.
    + by exists EmptyString, c.
    + by exists (String c p), e.
Qed.

Lemma secret_search_spec words start s :
  secret_search words start s = true ↔
  ∃ pre w post, s = pre +:+ w +:+ post ∧ at_boundary start pre ∧
    lower w ∈ words ∧ secret_end post = true.
Proof.
  revert start. induction s as [|c s IH]; intros start; cbn [secret_search].
  - rewrite orb_false_r, andb_true_iff, existsb_exists. split.
    + intros (-> & word & Hin & Hw). apply word_here_spec in Hw as (w & post & E & <- & Hp).
      exists EmptyString, w, post. repeat split; auto; [by left|by apply list_elem_of_In].
    + intros ([|] & w & post & E & Hb & Hin & Hp); [|done]. split.
      * destruct Hb as [[_ ?]|([|] & ? & ? & _)]; done.
      * exists (lower w). rewrite <-list_elem_of_In. split; [done|].
        apply word_here_spec. by exists w, post.
  - rewrite orb_true_iff, andb_true_iff, existsb_exists, IH. split.
    + intros [(-> & word & Hin & Hw)|(pre & w & post & -> & Hb & Hin & Hp)].
      * apply word_here_spec in Hw as (w & post & E & <- & Hp).
        exists EmptyString, w, post. repeat split; auto; [by left|by apply list_elem_of_In].
      * exists (String c pre), w, post. repeat split; auto. by apply at_boundary_cons.
    + intros ([|d pre] & w & post & E & Hb & Hin & Hp).
      * left. split; [destruct Hb as [[_ ?]|([|] & ? & ? & _)]; done|].
        exists (lower w). rewrite <-list_elem_of_In. split; [done|].
        apply word_here_spec. by exists w, post.
      * right. simpl in E. injection E as -> ->. apply at_boundary_cons in Hb. eauto 8.
Qed.

(** The secret scanner accepts a key exactly when one of the secret words occurs in
    it (in any case) delimited on the left by the start or a separator and on the right
    by a separator or the end. *)
Theorem is_secret_key_spec key :
  is_secret_key key = true ↔
  ∃ pre w post, key = pre +:+ w +:+ post ∧ at_boundary true pre ∧
    lower w ∈ secret_words ∧ secret_end post = true.
Proof. apply secret_search_spec. Qed.

Example secret_examples :
  map is_secret_key ["api-Token"; "tokens"; "x.password.y"; "passwordless"; "_secret"]
  = [true; false; true; false; true].
Proof. reflexivity. Qed.

(** ** Digests

    What [hashlib.sha256(...).hexdigest()] promises: 64 lowercase hexadecimal digits. *)
Class Sha256Laws `{Sha256} : Prop := {
  sha256_hex_length : ∀ s, String.length (sha256_hex s) = 64%nat;
  sha256_hex_chars : ∀ s, forall_chars is_hex (sha256_hex s) = true }.

Lemma substring_all s : String.substring 0 (String.length s) s = s.
Proof. induction s as [|c s IH]; simpl; [done|]. by rewrite IH. Qed.

Lemma digest_prefix h : String.substring 0 7 ("sha256:" +:+ h) = "sha256:".
Proof. by destruct h. Qed.

Lemma digest_suffix h : String.substring 7 64 ("sha256:" +:+ h) = String.substring 0 64 h.
Proof. done. Qed.

Lemma digest_shape d :
  Digest_ok d = true → ∃ h, d = "sha256:" +:+ h ∧ String.length h = 64%nat ∧ forall_chars is_hex h = true.
Proof.
  unfold Digest_ok. rewrite !andb_true_iff, bool_decide_eq_true, Z.eqb_eq. intros [[Hp Hl] Hh].
  unfold len in Hl. do 7 (destruct d as [|? d]; [done|]). cbn [String.length] in Hl.
  assert (String.length d = 64%nat) as Hn by lia. cbn [String.substring] in Hp, Hh.
  rewrite <-Hn, substring_all in Hh. injection Hp as -> -> -> -> -> -> ->. by exists d.
Qed.

(** JSON text is at most six bytes per character. *)

Lemma string_app_assoc (a b c : string) : (a +:+ b) +:+ c = a +:+ (b +:+ c).
Proof. induction a as [|x a IH]; [done|]. exact (f_equal (String x) IH). Qed.
Lemma string_app_cancel (a b c : string) : a +:+ b = a +:+ c → b = c.
Proof. induction a as [|x a IH]; [done|]. intros E. apply IH. by injection E. Qed.

Lemma utf8_len_app s t : utf8_len (s +:+ t) = utf8_len s + utf8_len t.
Proof. induction s as [|c s IH]; [done|]. simpl. rewrite IH. lia. Qed.

Lemma json_char_size c : utf8_len (json_char c) ≤ 6.
Proof. destruct c as [[] [] [] [] [] [] [] []]; vm_compute; discriminate. Qed.

Lemma json_string_size s : utf8_len (json_string s) ≤ 6 * len s + 2.
Proof.
  unfold json_string. rewrite !utf8_len_app. change (utf8_len (chars [34])) with 1.
  enough (utf8_len (json_chars s) ≤ 6 * len s) by lia. induction s as [|c s IH]; [done|].
  cbn [json_chars]. rewrite utf8_len_app. pose proof (json_char_size c).
  change (len (String c s)) with (Z.of_nat (S (String.length s))). unfold len in IH. lia.
Qed.

Lemma hash_digest_ok `{Sha256Laws} s : Digest_ok ("sha256:" +:+ sha256_hex s) = true.
Proof.
  unfold Digest_ok. pose proof (sha256_hex_length s) as Hl. rewrite digest_prefix, digest_suffix.
  rewrite <-Hl, substring_all, sha256_hex_chars. unfold len.
  change (String.length ("sha256:" +:+ ?h)) with (7 + String.length h)%nat. by rewrite Hl.
Qed.

Lemma value_digest_ok `{Sha256Laws, FloatRepr} j : Digest_ok (value_digest j) = true.
Proof. apply hash_digest_ok. Qed.

(** A concrete hash and float printer, for evaluating the model on examples. *)
Definition example_sha256 : Sha256 := λ _,
  "0123456789abcdef0123456789abcdef0123456789abcdef0123456789abcdef".
Definition example_float_repr : FloatRepr := λ _, "1.0".

Lemma example_sha256_laws : @Sha256Laws example_sha256.
Proof. by split. Qed.

(** A hash that tells its arguments apart, for examples that compare digests. *)
Fixpoint poly_hash (acc : Z) (s : string) : Z :=
  match s with
  | EmptyString => acc
  | String c s' => poly_hash (Z.land (acc * 257 + code c + 1) 18446744073709551615) s'
  end.
Fixpoint hex_text (n : nat) (z : Z) : string :=
  match n with
  | O => EmptyString
  | S n' => hex_text n' (z / 16) +:+ chars [hex_digit (z mod 16)]
  end.
Definition distinct_sha256 : Sha256 := λ s, hex_text 64 (poly_hash 0 s).

Lemma length_append s t : String.length (s +:+ t) = (String.length s + String.length t)%nat.
Proof. induction s as [|c s IH]; [done|].
  change (S (String.length (s +:+ t)) = S (String.length s + String.length t)). by rewrite IH.
Qed.

Lemma hex_text_length n z : String.length (hex_text n z) = n.
Proof.
  revert z. induction n as [|n IH]; intros z; cbn [hex_text]; [done|].
  rewrite length_append, IH. cbn. lia.
Qed.

Lemma hex_text_chars n z : forall_chars is_hex (hex_text n z) = true.
Proof.
  assert (∀ s t, forall_chars is_hex s = true → forall_chars is_hex t = true →
    forall_chars is_hex (s +:+ t) = true) as Happ.
  { intros s t Hs Ht. induction s as [|c s IH]; [done|]. apply andb_true_iff in Hs as [Hc Hs].
    change (is_hex c && forall_chars is_hex (s +:+ t) = true). rewrite Hc. by apply IH. }
  revert z. induction n as [|n IH]; intros z; cbn [hex_text]; [done|]. apply Happ; [apply IH|].
  pose proof (Z.mod_pos_bound z 16 eq_refl) as Hz. destruct (z mod 16) as [|p|p]; [done| |lia].
  do 4 (destruct p as [p|p|]; try done); lia.
Qed.

Lemma distinct_sha256_laws : @Sha256Laws distinct_sha256.
Proof. split; intros s; [apply hex_text_length|apply hex_text_chars]. Qed.
