(* ===== verification/Documents.v ===== *)
(** * Transaction documents (ir/models.py, ir/canonical.py, ir/enums.py)

    The versioned business command with its subjects and parameters, every validator, the
    two dumps the program takes of it (the JSON payload of execution steps and the canonical
    business payload) and the business digest that identifies a request for idempotency.

    A datetime is a local time with its UTC offset, both in microseconds; the offset is
    missing for a naive value.  The text pydantic's JSON mode gives a datetime keeps the
    offset and is library code, a parameter ([DatetimeText]). *)

From Stdlib Require Import SpecFloat Ascii.
From S2P Require Import Prelude.
From S2P Require Import Contracts.

(** ** Vocabulary *)

Inductive TransactionType := SHIPMENT_TRACK | BOOKING_CREATE.
Inductive Capability := SHIPMENT_TRACK_READ | BOOKING_DRAFT_PREPARE | BOOKING_SUBMIT | BOOKING_CANCEL.
Inductive RequestedEffect :=
| LATEST_TRANSPORT_EVENTS_RETURNED | BOOKING_REQUEST_ACCEPTED | BOOKING_RECEIVED_VERIFIED.
Inductive EventType := SHIPMENT | TRANSPORT | EQUIPMENT.

#[export] Instance TransactionType_eq_dec : EqDecision TransactionType.
Proof. solve_decision. Defined.
#[export] Instance Capability_eq_dec : EqDecision Capability.
Proof. solve_decision. Defined.
#[export] Instance RequestedEffect_eq_dec : EqDecision RequestedEffect.
Proof. solve_decision. Defined.
#[export] Instance EventType_eq_dec : EqDecision EventType.
Proof. solve_decision. Defined.

Definition TransactionType_value (t : TransactionType) : string :=
  match t with SHIPMENT_TRACK => "shipment.track" | BOOKING_CREATE => "booking.create" end.
Definition Capability_value (c : Capability) : string :=
  match c with
  | SHIPMENT_TRACK_READ => "shipment.track.read" | BOOKING_DRAFT_PREPARE => "booking.draft.prepare"
  | BOOKING_SUBMIT => "booking.submit" | BOOKING_CANCEL => "booking.cancel"
  end.
Definition RequestedEffect_value (e : RequestedEffect) : string :=
  match e with
  | LATEST_TRANSPORT_EVENTS_RETURNED => "latest_transport_events_returned"
  | BOOKING_REQUEST_ACCEPTED => "booking_request_accepted"
  | BOOKING_RECEIVED_VERIFIED => "booking_received_verified"
  end.
Definition EventType_value (e : EventType) : string :=
  match e with SHIPMENT => "SHIPMENT" | TRANSPORT => "TRANSPORT" | EQUIPMENT => "EQUIPMENT" end.

(** ** Constrained strings, after [strip_whitespace] *)

Definition text_ok (lo hi : Z) (s : string) : bool := bool_decide (strip s = s) && between lo (len s) hi.

Definition ShortCode_ok (s : string) : bool := text_ok 1 64 s.

(** [^[A-Z]{2}[A-Z2-9]{3}$]; the length bound leaves no room for a final newline. *)
Definition UNLocationCode_ok (s : string) : bool :=
  text_ok 5 5 s && forall_chars is_upper (String.substring 0 2 s)
  && forall_chars (λ c, is_upper c || ((50 <=? code c) && (code c <=? 57))) (String.substring 2 3 s).

Definition ISOEquipmentCode_ok (s : string) : bool := text_ok 4 4 s.

(** Split at a character. *)
Fixpoint split_at (c : Z) (cur l : list ascii) : list (list ascii) :=
  match l with
  | [] => [rev cur]
  | a :: l' => if code a =? c then rev cur :: split_at c [] l' else split_at c (a :: cur) l'
  end.

(** [[a-z0-9](?:[...]*[a-z0-9])?] with the inner characters given by [p]. *)
Definition bounded_word (p : ascii → bool) (w : list ascii) : bool :=
  forallb (λ c, is_alnum c || p c) w
  && match w with [] => false | a :: _ => is_alnum a end
  && match last w with Some a => is_alnum a | None => false end.

(** [(?:[a-z0-9](?:[a-z0-9-]*[a-z0-9])?\.)+[a-z]{2,63}]: labels and a final domain. *)
Fixpoint dns_labels (labels : list (list ascii)) : bool :=
  match labels with
  | [] => false
  | [top] => forallb is_lower top && between 2 (Z.of_nat (length top)) 63
  | label :: labels' => bounded_word (λ c, code c =? 45) label && dns_labels labels'
  end.

(** [v[1-9][0-9]*]. *)
Definition version_word (w : list ascii) : bool :=
  match w with
  | v :: d :: digits => (code v =? 118) && is_digit d && negb (code d =? 48) && forallb is_digit digits
  | _ => false
  end.

(** [_EXTENSION_NAMESPACE.fullmatch]. *)
Definition extension_namespace (s : string) : bool :=
  match split_at 47 [] (String.list_ascii_of_string s) with
  | [dns; schema; version] =>
      let labels := split_at 46 [] dns in
      (2 <=? Z.of_nat (length labels)) && dns_labels labels
      && bounded_word is_sep schema && version_word version
  | _ => false
  end.

(** ** Datetimes *)

Record Datetime := { dt_local : Z; dt_offset : option Z }.

#[export] Instance Datetime_eq_dec : EqDecision Datetime.
Proof. solve_decision. Defined.

(** [value.tzinfo is None or value.utcoffset() is None]. *)
Definition naive (d : Datetime) : bool := is_none (dt_offset d).
(** The instant of an aware datetime. *)
Definition instant (d : Datetime) : Z := dt_local d - default 0 (dt_offset d).

Class DatetimeText := datetime_text : Datetime → string.

(** ** Subjects and parameters *)

Record ShipmentSubject := {
  ss_carrier_booking_reference : option string;
  ss_booking_reference : option string;
  ss_transport_document_id : option string;
  ss_transport_document_reference : option string;
  ss_equipment_reference : option string;
  ss_schedule_id : option string;
  ss_transport_call_id : option string }.

Definition shipment_identifiers (s : ShipmentSubject) : list (option string) :=
  [ss_carrier_booking_reference s; ss_booking_reference s; ss_transport_document_id s;
   ss_transport_document_reference s; ss_equipment_reference s; ss_schedule_id s;
   ss_transport_call_id s].

(** Truth of an optional string. *)
Definition truthy (o : option string) : bool :=
  match o with Some s => negb (bool_decide (s = EmptyString)) | None => false end.

(** [require_business_identifier]. *)
Definition validate_shipment (s : ShipmentSubject) : result string () :=
  raise_if (negb (forallb (opt_ok Identifier_ok) (shipment_identifiers s))) "field constraint";;
  raise_if (negb (existsb truthy (shipment_identifiers s)))
    "shipment subject requires at least one business identifier".

Record DateTimeFilter := {
  df_eq : option Datetime;
  df_gt : option Datetime;
  df_gte : option Datetime;
  df_lt : option Datetime;
  df_lte : option Datetime }.

Definition is_some {A} (o : option A) : bool := negb (is_none o).

(** [validate_predicate]. *)
Definition validate_filter (f : DateTimeFilter) : result string () :=
  let values := [df_eq f; df_gt f; df_gte f; df_lt f; df_lte f] in
  raise_if (negb (existsb is_some values)) "date-time filter requires at least one predicate";;
  raise_if (existsb (λ v, match v with Some d => naive d | None => false end) values)
    "date-time filter values must include a timezone";;
  raise_if (is_some (df_eq f) && existsb is_some [df_gt f; df_gte f; df_lt f; df_lte f])
    "eq cannot be combined with range predicates";;
  raise_if (is_some (df_gt f) && is_some (df_gte f)) "gt and gte are mutually exclusive";;
  raise_if (is_some (df_lt f) && is_some (df_lte f)) "lt and lte are mutually exclusive";;
  let lower := match df_gt f with Some d => Some d | None => df_gte f end in
  let upper := match df_lt f with Some d => Some d | None => df_lte f end in
  raise_if (match lower, upper with Some l, Some u => instant u <? instant l | _, _ => false end)
    "date-time lower bound must not be after upper bound".

Record TrackFilters := {
  tf_event_types : list EventType;
  tf_shipment_event_type_codes : list string;
  tf_document_type_codes : list string;
  tf_transport_event_type_codes : list string;
  tf_equipment_event_type_codes : list string;
  tf_vessel_imo_number : option string;
  tf_carrier_voyage_number : option string;
  tf_export_voyage_number : option string;
  tf_carrier_service_code : option string;
  tf_un_location_code : option string;
  tf_event_created_date_time : option DateTimeFilter;
  tf_limit : option Z;
  tf_cursor : option string;
  tf_sort : option string }.

(** [reject_duplicate_filters], after the fields. *)
Definition validate_track (t : TrackFilters) : result string () :=
  raise_if (negb (forallb ShortCode_ok (tf_shipment_event_type_codes t)
                  && forallb ShortCode_ok (tf_document_type_codes t)
                  && forallb ShortCode_ok (tf_transport_event_type_codes t)
                  && forallb ShortCode_ok (tf_equipment_event_type_codes t)
                  && forallb (opt_ok ShortCode_ok)
                       [tf_vessel_imo_number t; tf_carrier_voyage_number t;
                        tf_export_voyage_number t; tf_carrier_service_code t;
                        tf_un_location_code t]
                  && opt_ok (λ l, between 1 l 1000) (tf_limit t)
                  && opt_ok Identifier_ok (tf_cursor t) && opt_ok Identifier_ok (tf_sort t)))
    "field constraint";;
  match tf_event_created_date_time t with Some f => validate_filter f | None => Ok () end;;
  raise_if (has_duplicates (tf_event_types t)) "event_types must not contain duplicates";;
  raise_if (has_duplicates (tf_shipment_event_type_codes t))
    "shipment_event_type_codes must not contain duplicates";;
  raise_if (has_duplicates (tf_document_type_codes t))
    "document_type_codes must not contain duplicates";;
  raise_if (has_duplicates (tf_transport_event_type_codes t))
    "transport_event_type_codes must not contain duplicates";;
  raise_if (has_duplicates (tf_equipment_event_type_codes t))
    "equipment_event_type_codes must not contain duplicates".

Inductive LocationType := POL | POD.
Inductive HandoverType := CY | SD | CFS.
Inductive CargoMovement := FCL | LCL.
Inductive WeightUnit := KGM | LBR.

#[export] Instance LocationType_eq_dec : EqDecision LocationType.
Proof. solve_decision. Defined.

Definition LocationType_value (t : LocationType) : string :=
  match t with POL => "POL" | POD => "POD" end.
Definition HandoverType_value (t : HandoverType) : string :=
  match t with CY => "CY" | SD => "SD" | CFS => "CFS" end.
Definition CargoMovement_value (m : CargoMovement) : string :=
  match m with FCL => "FCL" | LCL => "LCL" end.
Definition WeightUnit_value (u : WeightUnit) : string :=
  match u with KGM => "KGM" | LBR => "LBR" end.

Record BookingLocation := { bl_location_type_code : LocationType; bl_un_location_code : string }.
Record CargoGrossWeight := { gw_value : spec_float; gw_unit : WeightUnit }.

Record RequestedBookingEquipment := {
  be_iso_equipment_code : string;
  be_units : Z;
  be_is_shipper_owned : bool;
  be_cargo_gross_weight : CargoGrossWeight;
  be_commodities : list string }.

Definition equipment_ok (e : RequestedBookingEquipment) : bool :=
  ISOEquipmentCode_ok (be_iso_equipment_code e) && between 1 (be_units e) 10000
  && SFltb (py_float 0) (gw_value (be_cargo_gross_weight e))
  && SFleb (gw_value (be_cargo_gross_weight e)) (py_float 100000000)
  && between 1 (Z.of_nat (length (be_commodities e))) 32
  && forallb (text_ok 1 550) (be_commodities e).

Record BookingParameters := {
  bp_receipt_type_at_origin : HandoverType;
  bp_delivery_type_at_destination : HandoverType;
  bp_cargo_movement_type_at_origin : CargoMovement;
  bp_cargo_movement_type_at_destination : CargoMovement;
  bp_service_contract_reference : option string;
  bp_extended_contract_quotation_reference : option string;
  bp_is_equipment_substitution_allowed : bool;
  bp_shipment_locations : list BookingLocation;
  bp_requested_equipments : list RequestedBookingEquipment;
  bp_booking_agent : string }.

Definition count_type (t : LocationType) (l : list BookingLocation) : Z :=
  Z.of_nat (length (List.filter (λ b, bool_decide (bl_location_type_code b = t)) l)).

(** [validate_booking_subset], after the fields; [expected_status] is always [RECEIVED]. *)
Definition validate_booking (b : BookingParameters) : result string () :=
  raise_if (negb (opt_ok (text_ok 1 30) (bp_service_contract_reference b)
                  && opt_ok (text_ok 1 70) (bp_extended_contract_quotation_reference b)
                  && between 2 (Z.of_nat (length (bp_shipment_locations b))) 16
                  && forallb (λ l, UNLocationCode_ok (bl_un_location_code l))
                       (bp_shipment_locations b)
                  && between 1 (Z.of_nat (length (bp_requested_equipments b))) 32
                  && forallb equipment_ok (bp_requested_equipments b)
                  && text_ok 1 70 (bp_booking_agent b))) "field constraint";;
  raise_if (bool_decide (is_none (bp_service_contract_reference b)
                         = is_none (bp_extended_contract_quotation_reference b)))
    "exactly one service_contract_reference or extended_contract_quotation_reference is required";;
  raise_if (negb (count_type POL (bp_shipment_locations b) =? 1)
            || negb (count_type POD (bp_shipment_locations b) =? 1))
    "booking requires exactly one POL and exactly one POD";;
  raise_if (has_duplicates (map bl_un_location_code (bp_shipment_locations b)))
    "booking shipment locations must be distinct".

Inductive Subject :=
| SShipment (s : ShipmentSubject)
| SBooking (carrier_profile : string).

Inductive Parameters :=
| PTrack (t : TrackFilters)
| PBooking (b : BookingParameters).

Definition is_shipment (s : Subject) : bool := match s with SShipment _ => true | _ => false end.
Definition is_track (p : Parameters) : bool := match p with PTrack _ => true | _ => false end.

(** ** The command *)

Record TransactionCommand := {
  tc_transaction_id : option string;
  tc_tenant_id : string;
  tc_transaction_type : TransactionType;
  tc_external_reference : string;
  tc_requested_at : Datetime;
  tc_subject : Subject;
  tc_parameters : Parameters;
  tc_requested_effects : list RequestedEffect;
  tc_minimum_independence_level : VerificationLevel;
  tc_risk_class : RiskClass;
  tc_required_capabilities : list Capability;
  tc_extensions : list (string * json) }.

Definition validate_subject (s : Subject) : result string () :=
  match s with
  | SShipment s => validate_shipment s
  | SBooking profile => raise_if (negb (Identifier_ok profile)) "field constraint"
  end.

Definition validate_parameters (p : Parameters) : result string () :=
  match p with PTrack t => validate_track t | PBooking b => validate_booking b end.

(** [validate_command_invariants], after the fields. *)
Definition validate_command (c : TransactionCommand) : result string () :=
  raise_if (negb (opt_ok Identifier_ok (tc_transaction_id c) && Identifier_ok (tc_tenant_id c)
                  && Identifier_ok (tc_external_reference c))) "field constraint";;
  validate_subject (tc_subject c);;
  validate_parameters (tc_parameters c);;
  raise_if (bool_decide (tc_requested_effects c = [])) "requested_effects must not be empty";;
  raise_if (has_duplicates (tc_requested_effects c))
    "requested_effects must not contain duplicates";;
  raise_if (has_duplicates (tc_required_capabilities c))
    "required_capabilities must not contain duplicates";;
  raise_if (negb (forallb (λ kv, extension_namespace kv.1) (tc_extensions c)))
    "extension keys must use '<dns-name>/<schema-name>/vN' namespaces";;
  raise_if (naive (tc_requested_at c)) "requested_at must include a timezone";;
  match tc_transaction_type c with
  | SHIPMENT_TRACK =>
      raise_if (negb (is_shipment (tc_subject c)) || negb (is_track (tc_parameters c)))
        "shipment.track requires shipment subject and track filters";;
      raise_if (negb (is_read_only (tc_risk_class c))) "shipment.track must be READ_ONLY";;
      raise_if (negb (bool_decide (tc_required_capabilities c = [SHIPMENT_TRACK_READ])))
        "shipment.track requires shipment.track.read";;
      raise_if (negb (bool_decide (tc_requested_effects c = [LATEST_TRANSPORT_EVENTS_RETURNED])))
        "shipment.track has an invalid requested effect bundle"
  | BOOKING_CREATE =>
      raise_if (is_shipment (tc_subject c) || is_track (tc_parameters c))
        "booking.create requires booking subject and parameters";;
      raise_if (negb (bool_decide (tc_risk_class c = CONSEQUENTIAL_WRITE)))
        "booking.create must be CONSEQUENTIAL_WRITE";;
      raise_if (negb (bool_decide (tc_required_capabilities c
                                   = [BOOKING_DRAFT_PREPARE; BOOKING_SUBMIT])))
        "booking.create has an invalid capability bundle";;
      raise_if (negb (bool_decide (tc_requested_effects c
                                   = [BOOKING_REQUEST_ACCEPTED; BOOKING_RECEIVED_VERIFIED])))
        "booking.create has an invalid requested effect bundle";;
      raise_if (VERIFICATION_RANK (tc_minimum_independence_level c) <? VERIFICATION_RANK L2)
        "booking.create requires verification level L2 or higher"
  end.

(** ** Dumps

    [model_dump] of a model as an object; [exclude_none] drops the fields that are [None],
    but not the null members of free-form values such as [extensions]. *)

Definition non_null (kv : string * json) : bool := match kv.2 with JNull => false | _ => true end.
Definition model_obj (exclude_none : bool) (fields : list (string * json)) : json :=
  JObj (if exclude_none then List.filter non_null fields else fields).

Section dump.
Context (exclude_none : bool) (datetime : Datetime → json).

Definition shipment_json (s : ShipmentSubject) : json := model_obj exclude_none [
  ("kind", JStr "shipment");
  ("carrier_booking_reference", json_opt JStr (ss_carrier_booking_reference s));
  ("booking_reference", json_opt JStr (ss_booking_reference s));
  ("transport_document_id", json_opt JStr (ss_transport_document_id s));
  ("transport_document_reference", json_opt JStr (ss_transport_document_reference s));
  ("equipment_reference", json_opt JStr (ss_equipment_reference s));
  ("schedule_id", json_opt JStr (ss_schedule_id s));
  ("transport_call_id", json_opt JStr (ss_transport_call_id s))].

Definition subject_json (s : Subject) : json :=
  match s with
  | SShipment s => shipment_json s
  | SBooking profile =>
      model_obj exclude_none [("kind", JStr "booking"); ("carrier_profile", JStr profile)]
  end.

Definition filter_json (f : DateTimeFilter) : json := model_obj exclude_none [
  ("eq", json_opt datetime (df_eq f)); ("gt", json_opt datetime (df_gt f));
  ("gte", json_opt datetime (df_gte f)); ("lt", json_opt datetime (df_lt f));
  ("lte", json_opt datetime (df_lte f))].

Definition track_json (t : TrackFilters) : json := model_obj exclude_none [
  ("event_types", json_strs (map EventType_value (tf_event_types t)));
  ("shipment_event_type_codes", json_strs (tf_shipment_event_type_codes t));
  ("document_type_codes", json_strs (tf_document_type_codes t));
  ("transport_event_type_codes", json_strs (tf_transport_event_type_codes t));
  ("equipment_event_type_codes", json_strs (tf_equipment_event_type_codes t));
  ("vessel_imo_number", json_opt JStr (tf_vessel_imo_number t));
  ("carrier_voyage_number", json_opt JStr (tf_carrier_voyage_number t));
  ("export_voyage_number", json_opt JStr (tf_export_voyage_number t));
  ("carrier_service_code", json_opt JStr (tf_carrier_service_code t));
  ("un_location_code", json_opt JStr (tf_un_location_code t));
  ("event_created_date_time", json_opt filter_json (tf_event_created_date_time t));
  ("limit", json_opt JInt (tf_limit t)); ("cursor", json_opt JStr (tf_cursor t));
  ("sort", json_opt JStr (tf_sort t))].

Definition location_json (l : BookingLocation) : json := model_obj exclude_none [
  ("location_type_code", JStr (LocationType_value (bl_location_type_code l)));
  ("un_location_code", JStr (bl_un_location_code l))].

Definition equipment_json (e : RequestedBookingEquipment) : json := model_obj exclude_none [
  ("iso_equipment_code", JStr (be_iso_equipment_code e)); ("units", JInt (be_units e));
  ("is_shipper_owned", JBool (be_is_shipper_owned e));
  ("cargo_gross_weight", model_obj exclude_none [
     ("value", JFloat (gw_value (be_cargo_gross_weight e)));
     ("unit", JStr (WeightUnit_value (gw_unit (be_cargo_gross_weight e))))]);
  ("commodities",
    JList (map (λ c, model_obj exclude_none [("commodity_type", JStr c)]) (be_commodities e)))].

Definition booking_json (b : BookingParameters) : json := model_obj exclude_none [
  ("receipt_type_at_origin", JStr (HandoverType_value (bp_receipt_type_at_origin b)));
  ("delivery_type_at_destination", JStr (HandoverType_value (bp_delivery_type_at_destination b)));
  ("cargo_movement_type_at_origin",
    JStr (CargoMovement_value (bp_cargo_movement_type_at_origin b)));
  ("cargo_movement_type_at_destination",
    JStr (CargoMovement_value (bp_cargo_movement_type_at_destination b)));
  ("service_contract_reference", json_opt JStr (bp_service_contract_reference b));
  ("extended_contract_quotation_reference",
    json_opt JStr (bp_extended_contract_quotation_reference b));
  ("is_equipment_substitution_allowed", JBool (bp_is_equipment_substitution_allowed b));
  ("shipment_locations", JList (map location_json (bp_shipment_locations b)));
  ("requested_equipments", JList (map equipment_json (bp_requested_equipments b)));
  ("booking_agent", model_obj exclude_none [("party_name", JStr (bp_booking_agent b))]);
  ("expected_status", JStr "RECEIVED")].

Definition parameters_json (p : Parameters) : json :=
  match p with PTrack t => track_json t | PBooking b => booking_json b end.

(** [command.model_dump(exclude={"transaction_id", "requested_at"})]. *)
Definition command_json (c : TransactionCommand) : json := model_obj exclude_none [
  ("schema_version", JStr "cargomesh.transaction/v1"); ("tenant_id", JStr (tc_tenant_id c));
  ("transaction_type", JStr (TransactionType_value (tc_transaction_type c)));
  ("external_reference", JStr (tc_external_reference c));
  ("subject", subject_json (tc_subject c)); ("parameters", parameters_json (tc_parameters c));
  ("requested_effects", json_strs (map RequestedEffect_value (tc_requested_effects c)));
  ("verification_requirements", model_obj exclude_none [
     ("minimum_independence_level",
       JStr (VerificationLevel_value (tc_minimum_independence_level c)))]);
  ("risk_class", JStr (RiskClass_value (tc_risk_class c)));
  ("required_capabilities", json_strs (map Capability_value (tc_required_capabilities c)));
  ("extensions", JObj (tc_extensions c))].

End dump.

(** [command.model_dump(mode="json", exclude={"transaction_id", "requested_at"})]. *)
Definition command_payload `{DatetimeText} (c : TransactionCommand) : json :=
  command_json false (λ d, JStr (datetime_text d)) c.

(** ** The canonical business payload (ir/canonical.py) *)

(** [rendered.removesuffix("+00:00") + "Z"] of the UTC text.  Commands hold validated
    filters, so the error for a naive value cannot arise. *)
Definition canonical_datetime (d : Datetime) : string :=
  let rendered := isoformat (instant d) in
  let n := (String.length rendered - 6)%nat in
  (if bool_decide (String.substring n 6 rendered = "+00:00")
   then String.substring 0 n rendered else rendered) +:+ "Z".

Definition canonical_time (d : Datetime) : json := JStr (canonical_datetime d).

(** [_normalize] of what [model_dump] returns: keys sorted at every level. *)
Fixpoint normalize (value : json) : json :=
  match value with
  | JObj fields => JObj (sorted_by fst String.le (map (λ kv, (kv.1, normalize kv.2)) fields))
  | JList l => JList (map normalize l)
  | _ => value
  end.

Definition canonical_business_dict (c : TransactionCommand) : json :=
  normalize (command_json true canonical_time c).

(** [allow_nan=False] raises before any text is returned. *)
Definition canonical_business_json `{FloatRepr} (c : TransactionCommand) : result string string :=
  raise_if (negb (json_finite (canonical_business_dict c)))
    "Out of range float values are not JSON compliant";;
  Ok (json_dumps (canonical_business_dict c)).

Definition business_digest `{Sha256, FloatRepr} (c : TransactionCommand) : result string string :=
  canonical ← canonical_business_json c;
  Ok ("sha256:" +:+ sha256_hex canonical).

(** ** The business meaning of a command

    Two commands are the same business request when they differ only in transaction id,
    request time, the UTC offsets of filter times and the key order of their extensions. *)

Definition same_filter (f f' : DateTimeFilter) : Prop :=
  canonical_datetime <$> df_eq f = canonical_datetime <$> df_eq f' ∧
  canonical_datetime <$> df_gt f = canonical_datetime <$> df_gt f' ∧
  canonical_datetime <$> df_gte f = canonical_datetime <$> df_gte f' ∧
  canonical_datetime <$> df_lt f = canonical_datetime <$> df_lt f' ∧
  canonical_datetime <$> df_lte f = canonical_datetime <$> df_lte f'.

Definition drop_filter (t : TrackFilters) : TrackFilters := {|
  tf_event_types := tf_event_types t;
  tf_shipment_event_type_codes := tf_shipment_event_type_codes t;
  tf_document_type_codes := tf_document_type_codes t;
  tf_transport_event_type_codes := tf_transport_event_type_codes t;
  tf_equipment_event_type_codes := tf_equipment_event_type_codes t;
  tf_vessel_imo_number := tf_vessel_imo_number t;
  tf_carrier_voyage_number := tf_carrier_voyage_number t;
  tf_export_voyage_number := tf_export_voyage_number t;
  tf_carrier_service_code := tf_carrier_service_code t;
  tf_un_location_code := tf_un_location_code t; tf_event_created_date_time := None;
  tf_limit := tf_limit t; tf_cursor := tf_cursor t; tf_sort := tf_sort t |}.

Definition same_parameters (p p' : Parameters) : Prop :=
  match p, p' with
  | PTrack t, PTrack t' =>
      drop_filter t = drop_filter t' ∧
      option_relation same_filter (λ _, False) (λ _, False)
        (tf_event_created_date_time t) (tf_event_created_date_time t')
  | PBooking b, PBooking b' => b = b'
  | _, _ => False
  end.

Record same_business (c c' : TransactionCommand) : Prop := {
  sb_tenant : tc_tenant_id c = tc_tenant_id c';
  sb_type : tc_transaction_type c = tc_transaction_type c';
  sb_reference : tc_external_reference c = tc_external_reference c';
  sb_subject : tc_subject c = tc_subject c';
  sb_parameters : same_parameters (tc_parameters c) (tc_parameters c');
  sb_effects : tc_requested_effects c = tc_requested_effects c';
  sb_level : tc_minimum_independence_level c = tc_minimum_independence_level c';
  sb_risk : tc_risk_class c = tc_risk_class c';
  sb_capabilities : tc_required_capabilities c = tc_required_capabilities c';
  sb_extensions : normalize (JObj (tc_extensions c)) = normalize (JObj (tc_extensions c')) }.

(** ** Lemmas: the canonical payload loses no business field *)

Definition norm_field (kv : string * json) : string * json := (kv.1, normalize kv.2).

Lemma normalize_non_null v : non_null (norm_field v) = non_null v.
Proof. by destruct v as [k []]. Qed.

Lemma normalized_fields fields :
  map norm_field (List.filter non_null fields) = List.filter non_null (map norm_field fields).
Proof.
  induction fields as [|kv fields IH]; [done|]. cbn [map List.filter].
  rewrite normalize_non_null. destruct (non_null kv); cbn [map]; by rewrite IH.
Qed.

(** Equal canonical objects have the same non-null members. *)
Lemma canonical_members fields fields' :
  normalize (model_obj true fields) = normalize (model_obj true fields') →
  ∀ kv, kv ∈ map norm_field fields ∧ non_null kv = true ↔
        kv ∈ map norm_field fields' ∧ non_null kv = true.
Proof.
  cbn [normalize model_obj]. intros [= Hs] kv. rewrite <-!list_filter_elem.
  change (λ kv : string * json, (kv.1, normalize kv.2)) with norm_field in Hs.
  rewrite <-!normalized_fields, <-(sorted_by_elem fst String.le), Hs.
  by rewrite sorted_by_elem.
Qed.

Section fields.
Implicit Types l k : list (string * json).

Lemma canonical_field l k i kv :
  l.*1 = k.*1 → NoDup l.*1 → (∀ kv, kv ∈ l ∧ non_null kv = true → kv ∈ k) →
  l !! i = Some kv → ∃ v, k !! i = Some (kv.1, v) ∧ (non_null kv = true → v = kv.2).
Proof.
  intros Hk Hn Hsub Hi. destruct kv as [x v].
  assert (k.*1 !! i = Some x) as Hki by (rewrite <-Hk, list_lookup_fmap, Hi; done).
  rewrite list_lookup_fmap in Hki. destruct (k !! i) as [[y v']|] eqn:Ek; [|done].
  injection Hki as ->. exists v'. split; [done|]. intros Hv.
  assert ((x, v) ∈ k) as (j & Hj)%list_elem_of_lookup
    by (apply Hsub; split; [by eapply list_elem_of_lookup_2|done]).
  assert (j = i) as ->; [|simpl; congruence].
  rewrite Hk in Hn. eapply NoDup_lookup; [exact Hn|..]; rewrite list_lookup_fmap.
  - by rewrite Hj.
  - by rewrite Ek.
Qed.

Lemma canonical_field_eq l k i kv :
  l.*1 = k.*1 → NoDup l.*1 →
  (∀ kv, kv ∈ l ∧ non_null kv = true ↔ kv ∈ k ∧ non_null kv = true) →
  l !! i = Some kv → k !! i = Some kv.
Proof.
  intros Hk Hn Hiff Hi. pose proof Hn as Hn'. rewrite Hk in Hn'.
  destruct (canonical_field l k i kv) as (v & Hv & E); [done..|intros ? ?; by apply Hiff|done|].
  destruct (canonical_field k l i (kv.1, v)) as (v' & Hv' & E');
    [done..|intros ? ?; by apply Hiff|done|].
  rewrite Hi in Hv'. destruct kv as [x w]. injection Hv' as <-. rewrite Hv. simpl in *.
  do 2 f_equal. destruct (non_null (x, w)) eqn:N; [by apply E|].
  destruct (non_null (x, v)) eqn:N'; [by rewrite E'|by destruct v, w].
Qed.

(** Two dumps with the same declared fields and the same non-null members agree field by
    field, [None] included. *)
Lemma canonical_fields l k :
  l.*1 = k.*1 → NoDup l.*1 →
  (∀ kv, kv ∈ l ∧ non_null kv = true ↔ kv ∈ k ∧ non_null kv = true) → l = k.
Proof.
  intros Hk Hn Hiff. apply list_eq. intros i. apply option_eq. intros kv.
  split; apply canonical_field_eq; try done. by rewrite <-Hk.
Qed.

Lemma norm_field_keys l : (map norm_field l).*1 = l.*1.
Proof. induction l as [|kv l IH]; [done|]. cbn. by f_equal. Qed.

(** Equal canonical objects over the same fields have equal canonical values. *)
Lemma model_obj_inj l k :
  l.*1 = k.*1 → NoDup l.*1 →
  normalize (model_obj true l) = normalize (model_obj true k) →
  map norm_field l = map norm_field k.
Proof.
  intros Hk Hn Hs. apply canonical_fields; rewrite ?norm_field_keys; [done..|].
  by apply canonical_members.
Qed.

Lemma model_obj_norm l k :
  map norm_field l = map norm_field k →
  normalize (model_obj true l) = normalize (model_obj true k).
Proof.
  intros E. cbn [normalize model_obj].
  change (λ kv : string * json, (kv.1, normalize kv.2)) with norm_field.
  by rewrite !normalized_fields, E.
Qed.
End fields.

#[export] Instance EventType_value_inj : Inj (=) (=) EventType_value.
Proof. by intros [] []. Qed.
#[export] Instance RequestedEffect_value_inj : Inj (=) (=) RequestedEffect_value.
Proof. by intros [] []. Qed.
#[export] Instance Capability_value_inj : Inj (=) (=) Capability_value.
Proof. by intros [] []. Qed.
#[export] Instance TransactionType_value_inj : Inj (=) (=) TransactionType_value.
Proof. by intros [] []. Qed.
#[export] Instance VerificationLevel_value_inj : Inj (=) (=) VerificationLevel_value.
Proof. by intros [] []. Qed.
#[export] Instance RiskClass_value_inj : Inj (=) (=) RiskClass_value.
Proof. by intros [] []. Qed.
#[export] Instance LocationType_value_inj : Inj (=) (=) LocationType_value.
Proof. by intros [] []. Qed.
#[export] Instance HandoverType_value_inj : Inj (=) (=) HandoverType_value.
Proof. by intros [] []. Qed.
#[export] Instance CargoMovement_value_inj : Inj (=) (=) CargoMovement_value.
Proof. by intros [] []. Qed.
#[export] Instance WeightUnit_value_inj : Inj (=) (=) WeightUnit_value.
Proof. by intros [] []. Qed.

Lemma normalize_opt {A} (f : A → json) o :
  (∀ a, normalize (f a) = f a) → normalize (json_opt f o) = json_opt f o.
Proof. intros Hf. destruct o; [apply Hf|done]. Qed.

Lemma json_opt_inj {A} (f : A → json) o o' :
  (∀ a, f a ≠ JNull) → (∀ a a', f a = f a' → a = a') → json_opt f o = json_opt f o' → o = o'.
Proof.
  intros Hn Hi. destruct o, o'; simpl; intros E; try done; [by f_equal; apply Hi|..]; exfalso;
    by eapply Hn.
Qed.

Lemma json_list_inj {A} (f : A → json) l l' :
  (∀ a a', normalize (f a) = normalize (f a') → a = a') →
  map normalize (map f l) = map normalize (map f l') → l = l'.
Proof.
  intros Hf. revert l'. induction l as [|x l IH]; intros [|y l']; try done.
  intros [= Hx Hl]. f_equal; auto.
Qed.

Lemma opt_str_inj o o' : normalize (json_opt JStr o) = normalize (json_opt JStr o') → o = o'.
Proof. rewrite !normalize_opt by done. apply json_opt_inj; [done|congruence]. Qed.

Lemma opt_int_inj o o' : normalize (json_opt JInt o) = normalize (json_opt JInt o') → o = o'.
Proof. rewrite !normalize_opt by done. apply json_opt_inj; [done|congruence]. Qed.

Lemma strs_inj l l' : map normalize (map JStr l) = map normalize (map JStr l') → l = l'.
Proof. apply json_list_inj. by intros ?? [=]. Qed.

Lemma value_strs_inj {A} (f : A → string) `{!Inj (=) (=) f} l l' :
  map normalize (map JStr (map f l)) = map normalize (map JStr (map f l')) → l = l'.
Proof. intros H%strs_inj. by apply (inj (fmap f)) in H. Qed.

Lemma opt_time_inj o o' :
  normalize (json_opt canonical_time o) = normalize (json_opt canonical_time o') →
  canonical_datetime <$> o = canonical_datetime <$> o'.
Proof. destruct o, o'; cbn; congruence. Qed.

(** Compare two canonical objects field by field. *)
Ltac field_eqs :=
  repeat match goal with
  | H : normalize (json_opt JStr _) = _ |- _ => apply opt_str_inj in H
  | H : normalize (json_opt JInt _) = _ |- _ => apply opt_int_inj in H
  | H : normalize (json_opt canonical_time _) = _ |- _ => apply opt_time_inj in H
  | H : map normalize (map JStr (map ?f _)) = _ |- _ => apply (value_strs_inj f) in H
  | H : map normalize (map JStr _) = _ |- _ => apply strs_inj in H
  | H : ?f ?a = ?f ?b |- _ => apply (inj f (R := eq) (S := eq)) in H
  end.
Ltac same_fields H :=
  apply model_obj_inj in H; [|done|apply (bool_decide_unpack _); vm_compute; exact I];
  cbn [map norm_field fst snd] in H; injection H; clear H; intros; field_eqs.

Lemma shipment_json_inj s s' :
  normalize (shipment_json true s) = normalize (shipment_json true s') → s = s'.
Proof. intros H. same_fields H. destruct s, s'; simpl in *; congruence. Qed.

(** An object with a non-null first member is not one without that member. *)
Lemma first_member_absent kv l k :
  non_null kv = true → ¬ In (norm_field kv) (map norm_field k) →
  normalize (model_obj true (kv :: l)) ≠ normalize (model_obj true k).
Proof.
  intros Hn Ha E. apply Ha, list_elem_of_In. eapply canonical_members in E as [Hkv _].
  apply Hkv. split; [left|by rewrite normalize_non_null].
Qed.

Lemma subject_json_inj s s' :
  normalize (subject_json true s) = normalize (subject_json true s') → s = s'.
Proof.
  destruct s as [s|p], s' as [s'|p']; cbn [subject_json]; intros H.
  - f_equal. by apply shipment_json_inj.
  - apply first_member_absent in H as []; [done|]. simpl. intuition discriminate.
  - symmetry in H. apply first_member_absent in H as []; [done|]. simpl. intuition discriminate.
  - same_fields H. congruence.
Qed.

Lemma filter_json_inj f f' :
  normalize (filter_json true canonical_time f) = normalize (filter_json true canonical_time f') →
  same_filter f f'.
Proof. intros H. same_fields H. by split_and!. Qed.

Lemma track_json_inj t t' :
  normalize (track_json true canonical_time t) = normalize (track_json true canonical_time t') →
  same_parameters (PTrack t) (PTrack t').
Proof.
  intros H. same_fields H. split.
  - unfold drop_filter. by f_equal.
  - destruct (tf_event_created_date_time t), (tf_event_created_date_time t'); simpl in *; try done.
    by apply filter_json_inj.
Qed.

Lemma location_json_inj l l' :
  normalize (location_json true l) = normalize (location_json true l') → l = l'.
Proof. intros H. same_fields H. destruct l, l'; simpl in *; congruence. Qed.

Lemma commodity_json_inj c c' :
  normalize (model_obj true [("commodity_type", JStr c)]) =
  normalize (model_obj true [("commodity_type", JStr c')]) → c = c'.
Proof. intros H. same_fields H. congruence. Qed.

Lemma equipment_json_inj e e' :
  normalize (equipment_json true e) = normalize (equipment_json true e') → e = e'.
Proof.
  intros H. same_fields H.
  match goal with E : map _ _ = _ |- _ => apply json_list_inj in E; [|apply commodity_json_inj] end.
  destruct e as [? ? ? [] ?], e' as [? ? ? [] ?]; simpl in *; congruence.
Qed.

Lemma booking_json_inj b b' : normalize (booking_json true b) = normalize (booking_json true b') → b = b'.
Proof.
  intros H. same_fields H.
  repeat match goal with
  | E : map normalize (map (location_json _) _) = _ |- _ =>
      apply json_list_inj in E; [|apply location_json_inj]
  | E : map normalize (map (equipment_json _) _) = _ |- _ =>
      apply json_list_inj in E; [|apply equipment_json_inj]
  end.
  destruct b, b'; simpl in *; congruence.
Qed.

Lemma parameters_json_inj p p' :
  normalize (parameters_json true canonical_time p) =
  normalize (parameters_json true canonical_time p') → same_parameters p p'.
Proof.
  destruct p as [t|b], p' as [t'|b']; cbn [parameters_json]; intros H.
  - by apply track_json_inj.
  - apply first_member_absent in H as []; [done|]. simpl. intuition discriminate.
  - symmetry in H. apply first_member_absent in H as []; [done|]. simpl. intuition discriminate.
  - by apply booking_json_inj.
Qed.

Lemma same_parameters_json p p' :
  same_parameters p p' →
  normalize (parameters_json true canonical_time p) =
  normalize (parameters_json true canonical_time p').
Proof.
  assert (∀ o o', canonical_datetime <$> o = canonical_datetime <$> o' →
    json_opt canonical_time o = json_opt canonical_time o') as Ht.
  { intros [] []; cbn; unfold canonical_time; congruence. }
  destruct p as [t|b], p' as [t'|b']; simpl; [|done..|by intros ->].
  intros [Hd Hf]. destruct t, t'; simpl in *. injection Hd as -> -> -> -> -> -> -> -> -> -> -> -> ->.
  unfold track_json. cbn [tf_event_created_date_time].
  destruct tf_event_created_date_time0 as [f|], tf_event_created_date_time1 as [f'|]; try done.
  simpl in Hf. destruct Hf as (H1 & H2 & H3 & H4 & H5). unfold json_opt, filter_json.
  by rewrite !(Ht _ _ H1), (Ht _ _ H2), (Ht _ _ H3), (Ht _ _ H4), (Ht _ _ H5).
Qed.

(** The canonical business payload holds exactly the business meaning of a command; its text is
    the subject of [JsonText]. *)
Lemma canonical_dict_faithful c c' :
  canonical_business_dict c = canonical_business_dict c' ↔ same_business c c'.
Proof.
  split.
  - intros H. unfold canonical_business_dict, command_json in H. same_fields H.
    split; try done.
    + by apply subject_json_inj.
    + by apply parameters_json_inj.
    + cbn. by f_equal.
  - intros [H1 H2 H3 H4 H5 H6 H7 H8 H9 H10]. apply same_parameters_json in H5.
    apply model_obj_norm. cbn [map]. unfold norm_field. cbn [fst snd].
    by rewrite H1, H2, H3, H4, H5, H6, H7, H8, H9, H10.
Qed.

(** The two kinds of command that validate, with what the planner reads of them. *)
Lemma validated_command c :
  validate_command c = Ok () →
  Identifier_ok (tc_tenant_id c) = true ∧
  ((∃ s t, tc_subject c = SShipment s ∧ tc_parameters c = PTrack t ∧
      tc_risk_class c = READ_ONLY ∧ tc_required_capabilities c = [SHIPMENT_TRACK_READ]) ∨
   (∃ p b, tc_subject c = SBooking p ∧ tc_parameters c = PBooking b ∧
      tc_risk_class c = CONSEQUENTIAL_WRITE ∧
      tc_required_capabilities c = [BOOKING_DRAFT_PREPARE; BOOKING_SUBMIT] ∧
      VERIFICATION_RANK L2 ≤ VERIFICATION_RANK (tc_minimum_independence_level c))).
Proof.
  unfold validate_command. rewrite raise_if_then.
  intros (Hf & ([] & _ & ([] & _ & Hc)%bind_ok)%bind_ok). rewrite !raise_if_then in Hc.
  destruct Hc as (_ & _ & _ & _ & _ & Hc). split; [by boolify|].
  destruct (tc_transaction_type c); rewrite !raise_if_then, raise_if_ok in Hc.
  - destruct Hc as (Hk & Hr & Hcap & _). left.
    destruct (tc_subject c) as [s|], (tc_parameters c) as [t|]; try done.
    exists s, t. unfold is_read_only in Hr. boolify. by split_and!.
  - destruct Hc as (Hk & Hr & Hcap & _ & Hv). right.
    destruct (tc_subject c) as [|p], (tc_parameters c) as [|b]; try done.
    exists p, b. boolify. by split_and!.
Qed.

(** ** Concrete commands *)

Definition example_shipment : ShipmentSubject := {|
  ss_carrier_booking_reference := Some "CBR-1"; ss_booking_reference := None;
  ss_transport_document_id := None; ss_transport_document_reference := None;
  ss_equipment_reference := None; ss_schedule_id := None; ss_transport_call_id := None |}.

Definition example_track (created : option Datetime) : TrackFilters := {|
  tf_event_types := [TRANSPORT; EQUIPMENT]; tf_shipment_event_type_codes := [];
  tf_document_type_codes := []; tf_transport_event_type_codes := ["ARRI"];
  tf_equipment_event_type_codes := []; tf_vessel_imo_number := None;
  tf_carrier_voyage_number := None; tf_export_voyage_number := None;
  tf_carrier_service_code := None; tf_un_location_code := None;
  tf_event_created_date_time :=
    match created with
    | Some d => Some {| df_eq := None; df_gt := None; df_gte := Some d; df_lt := None; df_lte := None |}
    | None => None
    end;
  tf_limit := Some 50; tf_cursor := None; tf_sort := None |}.

Definition example_command (transaction_id : option string) (requested_at : Z)
    (created : option Datetime) : TransactionCommand := {|
  tc_transaction_id := transaction_id; tc_tenant_id := "tenant";
  tc_transaction_type := SHIPMENT_TRACK; tc_external_reference := "ext-1";
  tc_requested_at := {| dt_local := requested_at; dt_offset := Some 0 |};
  tc_subject := SShipment example_shipment; tc_parameters := PTrack (example_track created);
  tc_requested_effects := [LATEST_TRANSPORT_EVENTS_RETURNED]; tc_minimum_independence_level := L1;
  tc_risk_class := READ_ONLY; tc_required_capabilities := [SHIPMENT_TRACK_READ];
  tc_extensions := [("carrier.example.com/notes/v1", JObj [("b", JNull); ("a", JInt 1)])] |}.

Example example_command_valid :
  validate_command (example_command None 0 (Some {| dt_local := 3600000000; dt_offset := Some 3600000000 |}))
  = Ok ().
Proof. vm_compute. reflexivity. Qed.

Example canonical_example :
  canonical_business_dict (example_command (Some "tx") 5 (Some {| dt_local := 3600000000; dt_offset := Some 3600000000 |}))
  = canonical_business_dict (example_command None 0 (Some {| dt_local := 0; dt_offset := Some 0 |})).
Proof. vm_compute. reflexivity. Qed.

Example namespaces :
  map extension_namespace ["carrier.example.com/notes/v1"; "com/notes/v1"; "a.com/notes/v0";
    "a.com/-notes/v1"; "a-.com/notes/v1"; "a.com/notes/v12"]
  = [true; false; false; false; false; true].
Proof. vm_compute. reflexivity. Qed.
