(* ===== verification/JsonText.v ===== *)
(** * The text of a JSON document reads back (ir/canonical.py and every digest)

    Digests are of texts, and what they bind is the document: two documents have the same
    [json.dumps] text exactly when they are equal up to the order of object keys.  The texts of
    floats are those of CPython ([FloatRepr]), with what the proof needs of them as laws.  On top
    of it, the canonical business text of a command, which [Documents] treats as a document. *)

From Stdlib Require Import SpecFloat Ascii.
From stdpp Require Import pretty.
From S2P Require Import Prelude.
From S2P Require Import Contracts.
From S2P Require Import Documents.

(** ** Sorting by keys commutes with what leaves the keys alone *)

Section natural.
Context {A B : Type} (h : string * A → string * B) (Hh : ∀ x, (h x).1 = x.1).
Notation RA := (by_key (A:=string * A) fst String.le).
Notation RB := (by_key (A:=string * B) fst String.le).

Lemma by_key_natural x y : RB (h x) (h y) ↔ RA x y.
Proof. unfold by_key. by rewrite !Hh. Qed.

Lemma merge_natural l1 l2 : list_merge RB (map h l1) (map h l2) = map h (list_merge RA l1 l2).
Proof.
  revert l2. induction l1 as [|x l1 IH1]; intros l2; [by destruct l2|].
  induction l2 as [|y l2 IH2]; [done|]. cbn [map list_merge].
  destruct (decide (RA x y)) as [Hr|Hr].
  - rewrite decide_True by by apply by_key_natural. cbn [map]. f_equal. apply (IH1 (y :: l2)).
  - rewrite decide_False by by rewrite by_key_natural. cbn [map]. f_equal. apply IH2.
Qed.

Notation hs := (map (option_map (map h))).

Lemma merge_to_stack_natural st l : merge_list_to_stack RB (hs st) (map h l) = hs (merge_list_to_stack RA st l).
Proof.
  revert l. induction st as [|[l'|] st IH]; intros l; [done| |done]. cbn [map option_map merge_list_to_stack].
  f_equal. rewrite merge_natural. apply IH.
Qed.

Lemma merge_stack_natural st : merge_stack RB (hs st) = map h (merge_stack RA st).
Proof. induction st as [|[l|] st IH]; [done| |done]. cbn. by rewrite IH, merge_natural. Qed.

Lemma sorted_by_natural l : sorted_by fst String.le (map h l) = map h (sorted_by fst String.le l).
Proof.
  unfold sorted_by, merge_sort. change (@nil (option (list (string * B)))) with (hs []).
  generalize (@nil (option (list (string * A)))) as st. induction l as [|x l IH]; intros st.
  - apply merge_stack_natural.
  - cbn [map merge_sort_aux]. change [h x] with (map h [x]). rewrite merge_to_stack_natural. apply IH.
Qed.
End natural.

(** ** Printing without sorting *)

Section print.
Context `{FloatRepr}.

Fixpoint print (value : json) : string :=
  match value with
  | JNull => "null"
  | JBool true => "true"
  | JBool false => "false"
  | JInt z => pretty z
  | JFloat f => float_repr f
  | JStr s => json_string s
  | JList l => "[" +:+ String.concat "," (map print l) +:+ "]"
  | JObj fields => "{" +:+ String.concat "," (map (λ kv, json_string kv.1 +:+ ":" +:+ print kv.2) fields) +:+ "}"
  end.
Definition print_field (kv : string * json) : string := json_string kv.1 +:+ ":" +:+ print kv.2.

(** [sort_keys=True] prints the document with its keys sorted at every level. *)
Lemma json_dumps_print j : json_dumps j = print (normalize j).
Proof.
  induction j as [|[]| | | |l IH|fields IH] using json_deep_ind; try done.
  - cbn [json_dumps normalize print]. do 3 f_equal. rewrite map_map.
    induction IH as [|v l Hv _ IHl]; [done|]. cbn. by rewrite Hv, IHl.
  - cbn [json_dumps normalize print]. do 3 f_equal.
    rewrite (sorted_by_natural (λ kv, (kv.1, json_dumps kv.2))), (sorted_by_natural (λ kv, (kv.1, normalize kv.2))) by done.
    rewrite !map_map. cbn [fst snd].
    assert (Forall (λ kv, json_dumps kv.2 = print (normalize kv.2)) (sorted_by fst String.le fields)) as Hs
      by (eapply Permutation_Forall; [symmetry; apply sorted_by_perm|exact IH]).
    induction Hs as [|kv l Hv _ IHl]; [done|]. cbn. by rewrite Hv, IHl.
Qed.


(** ** Characters of a string *)

(** The character a text inside quotes starts with, and the rest; [None] at the closing quote. *)
Definition unescape (s : string) : option (ascii * string) :=
  match s with
  | EmptyString => None
  | String c s1 =>
      if code c =? 34 then None
      else if code c =? 92 then
        match s1 with
        | String d s2 =>
            let z := code d in
            if z =? 110 then Some (ascii_of_N 10, s2) else if z =? 114 then Some (ascii_of_N 13, s2)
            else if z =? 116 then Some (ascii_of_N 9, s2) else if z =? 98 then Some (ascii_of_N 8, s2)
            else if z =? 102 then Some (ascii_of_N 12, s2)
            else if z =? 117 then
              match s2 with
              | String _ (String _ (String x (String y s3))) =>
                  let digit a := if code a <? 58 then code a - 48 else code a - 87 in
                  Some (ascii_of_N (Z.to_N (16 * digit x + digit y)), s3)
              | _ => None
              end
            else Some (d, s2)
        | EmptyString => None
        end
      else Some (c, s1)
  end.

Lemma unescape_char c s : unescape (json_char c +:+ s) = Some (c, s).
Proof. destruct c as [[] [] [] [] [] [] [] []]; reflexivity. Qed.

Lemma json_chars_inj a b s t :
  json_chars a +:+ chars [34] +:+ s = json_chars b +:+ chars [34] +:+ t → a = b ∧ s = t.
Proof.
  revert b. induction a as [|c a IH]; intros [|d b]; cbn [json_chars]; rewrite ?string_app_assoc; intros E.
  - split; [done|]. cbn in E. by injection E.
  - apply (f_equal unescape) in E. by rewrite unescape_char in E.
  - apply (f_equal unescape) in E. by rewrite unescape_char in E.
  - apply (f_equal unescape) in E. rewrite !unescape_char in E. injection E as -> E.
    by destruct (IH _ E) as [-> ->].
Qed.

Lemma json_string_inj a b s t : json_string a +:+ s = json_string b +:+ t → a = b ∧ s = t.
Proof.
  unfold json_string. rewrite !string_app_assoc. intros E. cbn [chars] in E.
  apply (json_chars_inj a b s t). by injection E.
Qed.


(** ** Numbers *)

(** [0-9], [+], [-], [.] and [e]. *)
Definition number_char (c : ascii) : bool :=
  is_digit c || (code c =? 43) || (code c =? 45) || (code c =? 46) || (code c =? 101).
Definition number_text (s : string) : bool := negb (bool_decide (s = EmptyString)) && forall_chars number_char s.

(** What follows a value in a document: nothing, a comma or a closing bracket. *)
Definition stops (s : string) : bool :=
  match s with EmptyString => true | String c _ => (code c =? 44) || (code c =? 93) || (code c =? 125) end.

Lemma stop_no_number c s : stops (String c s) = true → number_char c = false.
Proof. destruct c as [[] [] [] [] [] [] [] []]; vm_compute; done. Qed.

Lemma number_split a b s t :
  forall_chars number_char a = true → forall_chars number_char b = true → stops s = true → stops t = true →
  a +:+ s = b +:+ t → a = b ∧ s = t.
Proof.
  intros Ha Hb Hs Ht. revert b Hb. induction a as [|c a IH]; intros [|d b] Hb E; cbn [forall_chars] in *.
  - done.
  - exfalso. apply andb_true_iff in Hb as [Hd _]. change (s = String d (b +:+ t)) in E. rewrite E in Hs. apply stop_no_number in Hs. congruence.
  - exfalso. apply andb_true_iff in Ha as [Hc _]. change (String c (a +:+ s) = t) in E. rewrite <-E in Ht. apply stop_no_number in Ht. congruence.
  - apply andb_true_iff in Ha as [_ Ha], Hb as [_ Hb]. change (String c (a +:+ s) = String d (b +:+ t)) in E. injection E as -> E.
    by destruct (IH Ha b Hb E) as [-> ->].
Qed.

Lemma pretty_digit x : is_digit (pretty_N_char x) = true.
Proof. unfold pretty_N_char. by repeat case_match. Qed.
Lemma digit_number c : is_digit c = true → number_char c = true.
Proof. unfold number_char. by intros ->. Qed.

Lemma pretty_go_digits x : ∀ s, forall_chars is_digit s = true → forall_chars is_digit (pretty_N_go x s) = true.
Proof.
  induction x as [x IH] using (well_founded_induction N.lt_wf_0). intros s Hs.
  assert (x = 0 ∨ 0 < x)%N as [->|Hx] by lia; [by rewrite pretty_N_go_0|].
  rewrite pretty_N_go_step by done. apply IH; [by apply N.div_lt|]. cbn [forall_chars]. by rewrite pretty_digit.
Qed.

Lemma pretty_go_nonempty x : ∀ s, s ≠ EmptyString → pretty_N_go x s ≠ EmptyString.
Proof.
  induction x as [x IH] using (well_founded_induction N.lt_wf_0). intros s Hs.
  assert (x = 0 ∨ 0 < x)%N as [->|Hx] by lia; [by rewrite pretty_N_go_0|].
  rewrite pretty_N_go_step by done. apply IH; [by apply N.div_lt|done].
Qed.

Lemma pretty_pos p :
  forall_chars is_digit (pretty (Z.pos p)) = true ∧ pretty (Z.pos p) ≠ EmptyString ∧
  pretty (Z.neg p) = "-" +:+ pretty (Z.pos p).
Proof.
  change (pretty (Z.neg p)) with ("-" +:+ pretty (Z.pos p)).
  change (pretty (Z.pos p)) with (pretty_N_go (N.pos p) ""). split_and!; [by apply pretty_go_digits| |done].
  rewrite pretty_N_go_step by done. by apply pretty_go_nonempty.
Qed.

Lemma pretty_Z_number (z : Z) : number_text (pretty z) = true.
Proof.
  unfold number_text. destruct z as [|p|p]; [done|..]; destruct (pretty_pos p) as (Hd & Hn & Hneg);
    apply (forall_chars_impl _ _ _ digit_number) in Hd.
  - by rewrite bool_decide_false, Hd.
  - rewrite Hneg. rewrite bool_decide_false by done. exact Hd.
Qed.

(** ** The text determines the document

    [good] are the floats a document may hold, with what their texts are needed for: they are
    numbers, are not integers, and differ for different floats. *)

Record float_texts (good : spec_float → Prop) : Prop := {
  ft_number f : good f → number_text (float_repr f) = true;
  ft_not_int f (z : Z) : good f → float_repr f ≠ pretty z;
  ft_inj f g : good f → good g → float_repr f = float_repr g → f = g }.

Section reads.
Context (good : spec_float → Prop) (Htexts : float_texts good).

Fixpoint floats_ok (value : json) : Prop :=
  match value with
  | JFloat f => good f
  | JList l => foldr (λ v P, floats_ok v ∧ P) True l
  | JObj fields => foldr (λ kv P, floats_ok kv.2 ∧ P) True fields
  | _ => True
  end.

Lemma floats_list l : floats_ok (JList l) ↔ Forall floats_ok l.
Proof. cbn [floats_ok]. induction l as [|v l IH]; cbn; [done|]. by rewrite IH, Forall_cons. Qed.
Lemma floats_obj fields : floats_ok (JObj fields) ↔ Forall (λ kv, floats_ok kv.2) fields.
Proof. cbn [floats_ok]. induction fields as [|kv l IH]; cbn; [done|]. by rewrite IH, Forall_cons. Qed.

(** What a text starts with tells which kind of value it is of; numbers are one kind. *)
Definition lead (c : ascii) : Z :=
  let z := code c in
  if number_char c then 0 else if (z =? 110) || (z =? 116) || (z =? 102) || (z =? 34) || (z =? 91) || (z =? 123) then z else 1.
Definition kind (value : json) : Z :=
  match value with
  | JNull => 110 | JBool true => 116 | JBool false => 102 | JInt _ | JFloat _ => 0 | JStr _ => 34
  | JList _ => 91 | JObj _ => 123
  end.

Lemma print_lead j : floats_ok j → ∃ c t, print j = String c t ∧ lead c = kind j.
Proof.
  assert (∀ s, number_text s = true → ∃ c t, s = String c t ∧ lead c = 0) as Hnum.
  { intros [|c t]; [done|]. unfold number_text. cbn [forall_chars]. rewrite !andb_true_iff.
    intros (_ & Hc & _). exists c, t. split; [done|]. unfold lead. by rewrite Hc. }
  destruct j as [|[]|z|f|s|l|fields]; intros Hf; try (by do 2 eexists); cbn [print kind].
  - apply Hnum, pretty_Z_number.
  - apply Hnum. by apply (ft_number _ Htexts).
Qed.

Lemma print_kind j j' s s' :
  floats_ok j → floats_ok j' → print j +:+ s = print j' +:+ s' → kind j = kind j'.
Proof.
  intros (c & t & -> & <-)%print_lead (c' & t' & -> & <-)%print_lead E.
  change (String c (t +:+ s) = String c' (t' +:+ s')) in E. by injection E as -> _.
Qed.

(** A printer of items reads back when what it prints of two items, followed by what may
    follow, is only equal for the same items. *)
Definition reads {A} (p : A → string) (ok : A → Prop) (x : A) : Prop :=
  ∀ y s t, ok y → stops s = true → stops t = true → p x +:+ s = p y +:+ t → x = y ∧ s = t.

Lemma concat_reads {A} (p : A → string) (ok : A → Prop) (close : ascii) l l' s t :
  stops (String close EmptyString) = true → close ≠ ","%char →
  Forall (reads p ok) l → Forall ok l' → (∀ x u v, x ∈ l ∨ x ∈ l' → p x +:+ u ≠ String close v) →
  String.concat "," (map p l) +:+ String close s = String.concat "," (map p l') +:+ String close t →
  l = l' ∧ s = t.
Proof.
  intros Hclose Hcomma Hl. revert l'. induction Hl as [|x l Hx Hl IH]; intros l' Hl' Hne E.
  { destruct l' as [|y l']; [cbn in E; by injection E|]. exfalso. symmetry in E. revert E.
    destruct l' as [|y2 l']; cbn [map String.concat]; rewrite ?string_app_assoc; apply Hne; right; left. }
  destruct Hl' as [|y l' Hy Hl'].
  { exfalso. revert E. destruct l as [|x2 l]; cbn [map String.concat]; rewrite ?string_app_assoc; apply Hne; left; left. }
  assert (∀ u, stops (String close u) = true) as Hst by (intros; exact Hclose).
  destruct l as [|x2 l], l' as [|y2 l']; cbn [map String.concat] in E; rewrite ?string_app_assoc in E;
    apply Hx in E as [-> E]; try done; try (by apply Hst).
  - by injection E as ->.
  - change ("," +:+ String.concat "," (p y2 :: map p l') +:+ String close t)
      with (String "," (String.concat "," (p y2 :: map p l') +:+ String close t)) in E. injection E as E _. done.
  - change ("," +:+ String.concat "," (p x2 :: map p l) +:+ String close s)
      with (String "," (String.concat "," (p x2 :: map p l) +:+ String close s)) in E. injection E as E _. done.
  - apply string_app_cancel in E. destruct (IH (y2 :: l') Hl') as [-> ->]; [|exact E|done].
    intros x u v Hin. apply Hne. destruct Hin; [left|right]; by right.
Qed.

Lemma number_reads j a : print j = a → number_text a = true → ∀ y b s t, print y = b → number_text b = true →
  stops s = true → stops t = true → print j +:+ s = print y +:+ t → a = b ∧ s = t.
Proof.
  intros -> Ha y b s t -> Hb. unfold number_text in *. apply andb_true_iff in Ha as [_ Ha], Hb as [_ Hb].
  by apply number_split.
Qed.

Lemma field_reads kv : reads print floats_ok kv.2 → reads print_field (λ kv, floats_ok kv.2) kv.
Proof.
  intros Hv [k v] s t Hf Hs Ht E. unfold print_field in E. rewrite !string_app_assoc in E.
  apply json_string_inj in E as [Ek E]. apply string_app_cancel in E. cbn [fst snd] in *.
  destruct (Hv _ _ _ Hf Hs Ht E) as [Ev ->]. destruct kv as [k' v']. cbn in *. by subst.
Qed.

Lemma print_reads j : floats_ok j → reads print floats_ok j.
Proof.
  induction j as [|b|z|f|a|l IH|fields IH] using json_deep_ind; intros Hf y s t Hy Hs Ht E;
    pose proof (print_kind _ _ _ _ Hf Hy E) as Hk;
    destruct y as [|b'|z'|f'|a'|l'|fields']; try (exfalso; clear -Hk; by repeat destruct b; repeat destruct b');
    try discriminate Hk; clear Hk.
  - by apply string_app_cancel in E.
  - destruct b, b'; try discriminate E; by apply string_app_cancel in E.
  - destruct (number_reads (JInt z) _ eq_refl (pretty_Z_number z) (JInt z') _ s t eq_refl (pretty_Z_number z') Hs Ht E)
      as [Ez ->]. change (pretty z = pretty z') in Ez. by apply (inj pretty) in Ez as ->.
  - destruct (number_reads (JInt z) _ eq_refl (pretty_Z_number z) (JFloat f') _ s t eq_refl
      (ft_number _ Htexts _ Hy) Hs Ht E) as [Ez _]. by destruct (ft_not_int _ Htexts f' z Hy).
  - destruct (number_reads (JFloat f) _ eq_refl (ft_number _ Htexts _ Hf) (JInt z') _ s t eq_refl (pretty_Z_number z')
      Hs Ht E) as [Ez _]. by destruct (ft_not_int _ Htexts f z' Hf).
  - destruct (number_reads (JFloat f) _ eq_refl (ft_number _ Htexts _ Hf) (JFloat f') _ s t eq_refl
      (ft_number _ Htexts _ Hy) Hs Ht E) as [Ef ->]. by apply (ft_inj _ Htexts) in Ef as ->; [..|done].
  - by apply json_string_inj in E as [-> ->].
  - cbn [print] in E. rewrite !string_app_assoc in E. apply string_app_cancel in E.
    apply floats_list in Hf, Hy. rewrite Forall_forall in Hf, Hy.
    destruct (concat_reads print floats_ok "]"%char l l' s t) as [-> ->]; try done.
    + rewrite Forall_forall in IH. apply Forall_forall. intros v Hv. by apply IH, Hf.
    + by apply Forall_forall.
    + intros x u v Hx Ex.
      assert (floats_ok x) as (c & w & Hw & Hc)%print_lead by (destruct Hx; auto).
      rewrite Hw in Ex. change (String c (w +:+ u) = String "]" v) in Ex. injection Ex as -> _. by destruct x as [|[]| | | | |].
  - cbn [print] in E. rewrite !string_app_assoc in E. apply string_app_cancel in E.
    apply floats_obj in Hf, Hy.
    destruct (concat_reads print_field (λ kv, floats_ok kv.2) "}"%char fields fields' s t) as [-> ->]; try done.
    rewrite Forall_forall in IH, Hf. apply Forall_forall. intros kv Hkv. by apply field_reads, IH, Hf.
Qed.

(** A document is determined by its text, up to the order of its keys. *)
Lemma floats_normalize j : floats_ok j → floats_ok (normalize j).
Proof.
  induction j as [| | | | |l IH|fields IH] using json_deep_ind; try done.
  - cbn [normalize]. rewrite !floats_list. intros Hl. apply Forall_map. rewrite Forall_forall in *. auto.
  - cbn [normalize]. rewrite !floats_obj. intros Hl. eapply Permutation_Forall; [symmetry; apply sorted_by_perm|].
    apply Forall_map. rewrite Forall_forall in *. cbn. auto.
Qed.

Lemma json_text_inj j j' :
  floats_ok j → floats_ok j' → json_dumps j = json_dumps j' ↔ normalize j = normalize j'.
Proof.
  intros Hj%floats_normalize Hj'%floats_normalize. rewrite !json_dumps_print. split; [|by intros ->].
  intros E. apply (print_reads _ Hj _ "" "" Hj'); [done..|]. by rewrite E.
Qed.

End reads.

End print.

(** ** Documents Python holds *)

Definition binary64 (f : spec_float) : Prop := valid_binary 53 1024 f = true.
Definition python_float (f : spec_float) : Prop := binary64 f ∧ sf_is_finite f = true.

(** The texts [float.__repr__] gives finite floats are those of JSON numbers with a fraction or
    an exponent, and shortest ones read back. *)
Class FloatTextLaws `{FloatRepr} : Prop := float_texts_python : float_texts python_float.

(** Every float is a binary64 and no object repeats a key. *)
Fixpoint python_json (value : json) : Prop :=
  match value with
  | JFloat f => binary64 f
  | JList l => foldr (λ v P, python_json v ∧ P) True l
  | JObj fields => NoDup fields.*1 ∧ foldr (λ kv P, python_json kv.2 ∧ P) True fields
  | _ => True
  end.

Lemma python_list l : python_json (JList l) ↔ Forall python_json l.
Proof. cbn [python_json]. induction l as [|v l IH]; cbn; [done|]. by rewrite IH, Forall_cons. Qed.
Lemma python_obj fields : python_json (JObj fields) ↔ NoDup fields.*1 ∧ Forall (λ kv, python_json kv.2) fields.
Proof.
  cbn [python_json]. f_equiv. induction fields as [|kv l IH]; cbn; [done|]. by rewrite IH, Forall_cons.
Qed.

Lemma python_finite j : python_json j → json_finite j = true → floats_ok python_float j.
Proof.
  induction j as [| | | | |l IH|fields IH] using json_deep_ind; try done.
  - rewrite python_list, floats_list. cbn [json_finite]. rewrite forallb_elem, !Forall_forall in *. auto.
  - rewrite python_obj, floats_obj. cbn [json_finite]. rewrite forallb_elem, !Forall_forall in *. intros [_ Hp] Hf kv Hkv.
    apply IH; auto.
Qed.

(** Sorting the keys again changes nothing. *)
Lemma normalize_idem j : python_json j → normalize (normalize j) = normalize j.
Proof.
  induction j as [| | | | |l IH|fields IH] using json_deep_ind; try done.
  - rewrite python_list. cbn [normalize]. rewrite map_map. intros Hl. f_equal.
    induction Hl as [|v l Hv _ IHl]; [done|]. inversion IH; subst. cbn. f_equal; auto.
  - rewrite python_obj. intros [Hn Hf]. cbn [normalize]. f_equal.
    rewrite !(sorted_by_natural (λ kv, (kv.1, normalize kv.2))) by done.
    rewrite (sorted_by_unique fst String.le (sorted_by fst String.le fields) fields);
      [|by rewrite sorted_by_perm|apply sorted_by_perm].
    rewrite map_map. apply map_ext_in. intros kv Hkv%list_elem_of_In. rewrite sorted_by_elem in Hkv.
    rewrite Forall_forall in IH, Hf. cbn. f_equal. auto.
Qed.

(** Objects over the same distinct keys that are equal up to the order of keys have the same
    values. *)
Lemma object_fields (l k : list (string * json)) :
  normalize (JObj l) = normalize (JObj k) → l.*1 = k.*1 → NoDup l.*1 → map norm_field l = map norm_field k.
Proof.
  cbn [normalize]. intros [= E] Hk Hn. apply canonical_fields; rewrite ?norm_field_keys; [done..|]. intros kv.
  change (λ kv : string * json, (kv.1, normalize kv.2)) with norm_field in E.
  by rewrite <-(sorted_by_elem fst String.le (map norm_field l)), E, sorted_by_elem.
Qed.

(** ** The canonical business text *)

(** The floats of a command are in its equipment and in its extensions, the only values of
    arbitrary shape. *)
Definition weights (p : Parameters) : list spec_float :=
  match p with
  | PTrack _ => []
  | PBooking b => map (λ e, gw_value (be_cargo_gross_weight e)) (bp_requested_equipments b)
  end.
Definition python_command (c : TransactionCommand) : Prop :=
  python_json (JObj (tc_extensions c)) ∧ Forall binary64 (weights (tc_parameters c)).

Lemma python_model b fields :
  NoDup fields.*1 → Forall (λ kv, python_json kv.2) fields → python_json (model_obj b fields).
Proof.
  intros Hn Hf. unfold model_obj. destruct b; [|by apply python_obj]. apply python_obj. split.
  - clear Hf. induction fields as [|kv l IH]; [done|]. cbn in *. apply NoDup_cons in Hn as [Hk Hn].
    destruct (non_null kv); [|by apply IH]. cbn. constructor; [|by apply IH].
    intros (kv' & E & Hin)%list_elem_of_fmap. apply Hk. rewrite E. apply list_elem_of_fmap_2.
    by apply list_filter_elem in Hin as [? _].
  - rewrite Forall_forall in *. intros kv [Hkv _]%list_filter_elem. auto.
Qed.

Lemma python_strs l : python_json (json_strs l).
Proof. apply python_list. induction l; cbn; by constructor. Qed.
Lemma python_opt {A} (f : A → json) o : (∀ a, python_json (f a)) → python_json (json_opt f o).
Proof. intros Hf. destruct o; [apply Hf|done]. Qed.

(** The keys of a dump are distinct; its members remain. *)
Ltac dump :=
  apply python_model; [apply (bool_decide_unpack (NoDup _)); vm_compute; exact I|];
  repeat apply Forall_cons_2; cbn [snd]; try apply Forall_nil_2; try done;
  try apply python_strs; try (apply python_opt; first [done|intros]).

Lemma python_filter b datetime f : (∀ d, python_json (datetime d)) → python_json (filter_json b datetime f).
Proof. intros Hd. unfold filter_json. dump; apply Hd. Qed.

Lemma python_equipment b e : binary64 (gw_value (be_cargo_gross_weight e)) → python_json (equipment_json b e).
Proof.
  intros Hw. unfold equipment_json. dump; [by dump|]. apply python_list, Forall_map, Forall_forall. intros c _. dump.
Qed.

Lemma python_parameters b datetime p :
  (∀ d, python_json (datetime d)) → Forall binary64 (weights p) → python_json (parameters_json b datetime p).
Proof.
  intros Hd Hw. destruct p as [t|p]; cbn [parameters_json].
  - unfold track_json. dump. by apply python_filter.
  - unfold booking_json. cbn [weights] in Hw. rewrite Forall_map in Hw. dump; [..|by dump].
    + apply python_list, Forall_map, Forall_forall. intros l _. unfold location_json. dump.
    + apply python_list, Forall_map. eapply Forall_impl; [exact Hw|]. intros e. apply python_equipment.
Qed.

Lemma python_dump b datetime c : (∀ d, python_json (datetime d)) → python_command c → python_json (command_json b datetime c).
Proof.
  intros Hd [He Hw]. unfold command_json. dump; [|by apply python_parameters|by dump].
  destruct (tc_subject c) as [s|s]; cbn [subject_json]; [unfold shipment_json|]; dump.
Qed.

Lemma normalize_finite value : json_finite (normalize value) = json_finite value.
Proof.
  induction value as [| | | | |l IH|fields IH] using json_deep_ind; try done; cbn [normalize json_finite].
  - induction IH as [|v l Hv _ IHl]; [done|]. cbn. by rewrite Hv, IHl.
  - apply eq_true_iff_eq. rewrite !forallb_elem. setoid_rewrite sorted_by_elem. rewrite Forall_forall in IH. split.
    + intros Hf kv Hkv. rewrite <-IH by done. apply (Hf (kv.1, normalize kv.2)).
      by apply (list_elem_of_fmap_2 (λ kv, (kv.1, normalize kv.2))).
    + intros Hf kv (kv' & -> & Hkv)%list_elem_of_fmap. cbn. rewrite IH by done. by apply Hf.
Qed.

Section canonical.
Context `{FloatRepr}.

Lemma canonical_text_ok c t :
  canonical_business_json c = Ok t ↔ json_finite (command_json true canonical_time c) = true ∧
    t = json_dumps (canonical_business_dict c).
Proof.
  unfold canonical_business_json, canonical_business_dict. rewrite normalize_finite, raise_if_then, negb_false_iff.
  split; [by intros [? <-%Ok_inj]|by intros [? ->]].
Qed.


End canonical.

(** ** A printer of floats that satisfies the laws

    The mantissa and the binary exponent in decimal, as in [3e-1]. *)

Definition int_char (c : ascii) : bool := is_digit c || (code c =? 45).
Definition signed (s : bool) (m : positive) : Z := if s then Z.neg m else Z.pos m.
Definition exponent_float_repr : FloatRepr := λ f,
  match f with
  | S754_zero s => if s then "-0.0" else "0.0"
  | S754_infinity s => if s then "-inf" else "inf"
  | S754_nan => "nan"
  | S754_finite s m e => pretty (signed s m) +:+ String "e" (pretty e)
  end.

Lemma forall_chars_app p s t : forall_chars p (s +:+ t) = forall_chars p s && forall_chars p t.
Proof.
  induction s as [|c s IH]; [done|]. change (p c && forall_chars p (s +:+ t) = (p c && forall_chars p s) && forall_chars p t).
  by rewrite IH, andb_assoc.
Qed.

Lemma pretty_int (z : Z) : forall_chars int_char (pretty z) = true.
Proof.
  assert (∀ c, is_digit c = true → int_char c = true) as Hi by (unfold int_char; by intros c ->).
  destruct z as [|p|p]; [done|..]; destruct (pretty_pos p) as (Hd & _ & Hneg); apply (forall_chars_impl _ _ _ Hi) in Hd;
    [done|]. by rewrite Hneg.
Qed.

Lemma exponent_split a b s t :
  forall_chars int_char a = true → forall_chars int_char b = true →
  a +:+ String "e" s = b +:+ String "e" t → a = b ∧ s = t.
Proof.
  intros Ha. revert b. induction a as [|c a IH]; intros [|d b] Hb E; cbn [forall_chars] in *.
  - by injection E.
  - injection E as <- _. by rewrite andb_false_l in Hb.
  - injection E as -> _. by rewrite andb_false_l in Ha.
  - apply andb_true_iff in Ha as [_ Ha], Hb as [_ Hb].
    change (String c (a +:+ String "e" s) = String d (b +:+ String "e" t)) in E. injection E as -> E.
    by destruct (IH Ha b Hb E) as [-> ->].
Qed.

Lemma exponent_float_laws : @FloatTextLaws exponent_float_repr.
Proof.
  assert (∀ c, int_char c = true → number_char c = true) as Hi.
  { unfold int_char, number_char. intros c. destruct (is_digit c); [done|]. cbn. intros ->. by rewrite orb_true_r. }
  assert (∀ s m e, forall_chars (λ c, int_char c || (code c =? 101)) (exponent_float_repr (S754_finite s m e)) = true) as He.
  { intros s m e. cbn [exponent_float_repr]. rewrite forall_chars_app. cbn [forall_chars].
    rewrite !(forall_chars_impl int_char) by (done || apply pretty_int || by intros c ->). done. }
  split.
  - intros [[]| | |s m e] [_ Hf]; try done. unfold float_repr, number_text. cbn [exponent_float_repr].
    rewrite forall_chars_app. cbn [forall_chars].
    rewrite !(forall_chars_impl _ _ _ Hi) by apply pretty_int. rewrite bool_decide_false; [done|]. by destruct (pretty _).
  - intros f z [_ Hf] E. pose proof (pretty_int z) as Hz. rewrite <-E in Hz. unfold float_repr in Hz.
    destruct f as [[]| | |s m e]; try done. cbn [exponent_float_repr] in Hz. rewrite forall_chars_app in Hz.
    by rewrite pretty_int in Hz.
  - intros [a| | |s m e] [a'| | |s' m' e'] [_ Hf] [_ Hg] E; try done; unfold float_repr in E.
    + by destruct a, a'.
    + specialize (He s' m' e'). rewrite <-E in He. by destruct a.
    + specialize (He s m e). rewrite E in He. by destruct a'.
    + cbn [exponent_float_repr] in E. apply exponent_split in E as [E1 E2]; [|apply pretty_int..].
      apply (inj pretty) in E1, E2. subst. destruct s, s'; cbn in E1; congruence.
Qed.

(** ** A command and its retry *)

#[local] Existing Instances exponent_float_repr exponent_float_laws.

Definition retried (transaction_id : option string) (requested_at : Z) (d : Datetime) (extensions : list (string * json))
    : TransactionCommand :=
  let c := example_command transaction_id requested_at (Some d) in {|
  tc_transaction_id := tc_transaction_id c; tc_tenant_id := tc_tenant_id c; tc_transaction_type := tc_transaction_type c;
  tc_external_reference := tc_external_reference c; tc_requested_at := tc_requested_at c; tc_subject := tc_subject c;
  tc_parameters := tc_parameters c; tc_requested_effects := tc_requested_effects c;
  tc_minimum_independence_level := tc_minimum_independence_level c; tc_risk_class := tc_risk_class c;
  tc_required_capabilities := tc_required_capabilities c; tc_extensions := extensions |}.
Definition half : json := JFloat (S754_finite false 4503599627370496 (-53)).
Definition first_request : TransactionCommand :=
  retried (Some "tx") 5 {| dt_local := 3600000000; dt_offset := Some 3600000000 |}
    [("a.example.com/x/v1", half); ("b.example.com/y/v1", JNull)].
Definition second_request : TransactionCommand :=
  retried None 0 {| dt_local := 0; dt_offset := Some 0 |} [("b.example.com/y/v1", JNull); ("a.example.com/x/v1", half)].

