(* ===== verification/Routing.v ===== *)
(** * Routing contracts (routing/models.py)

    Candidates, policies, requests, health snapshots, evaluations, decisions and
    outcomes, with the field constraints and validators that decide whether such a
    record can exist. *)

From Stdlib Require Import SpecFloat.
From S2P Require Import Prelude.
From S2P Require Import Contracts.

Inductive RouteHealthStatus := UNKNOWN | HEALTHY | DEGRADED | UNAVAILABLE.
Inductive RouteOutcomeKind := SUCCESS | RETRYABLE_FAILURE | TERMINAL_FAILURE.
Inductive RouteAttemptStatus := SUCCEEDED | FAILED.

#[export] Instance RouteHealthStatus_eq_dec : EqDecision RouteHealthStatus.
Proof. solve_decision. Defined.
#[export] Instance RouteOutcomeKind_eq_dec : EqDecision RouteOutcomeKind.
Proof. solve_decision. Defined.
#[export] Instance RouteAttemptStatus_eq_dec : EqDecision RouteAttemptStatus.
Proof. solve_decision. Defined.

Definition RouteHealthStatus_value (s : RouteHealthStatus) : string :=
  match s with
  | UNKNOWN => "UNKNOWN" | HEALTHY => "HEALTHY" | DEGRADED => "DEGRADED"
  | UNAVAILABLE => "UNAVAILABLE"
  end.
Definition RouteOutcomeKind_value (k : RouteOutcomeKind) : string :=
  match k with
  | SUCCESS => "SUCCESS" | RETRYABLE_FAILURE => "RETRYABLE_FAILURE"
  | TERMINAL_FAILURE => "TERMINAL_FAILURE"
  end.

Record RouteRetryPolicy := {
  rr_initial_interval_seconds : spec_float;
  rr_backoff_coefficient : spec_float;
  rr_maximum_interval_seconds : spec_float;
  rr_maximum_attempts : Z;
  rr_non_retryable_error_types : list string }.

Definition validate_retry (r : RouteRetryPolicy) : result string () :=
  raise_if (negb (SFltb (py_float 0) (rr_initial_interval_seconds r)
                  && SFleb (rr_initial_interval_seconds r) (py_float 3600)
                  && SFleb (py_float 1) (rr_backoff_coefficient r)
                  && SFleb (rr_backoff_coefficient r) (py_float 100)
                  && SFltb (py_float 0) (rr_maximum_interval_seconds r)
                  && SFleb (rr_maximum_interval_seconds r) (py_float 86400)
                  && between 1 (rr_maximum_attempts r) 20
                  && forallb Name_ok (rr_non_retryable_error_types r)
                  && max_length 32 (rr_non_retryable_error_types r))) "field constraint";;
  raise_if (SFltb (rr_maximum_interval_seconds r) (rr_initial_interval_seconds r))
    "maximum retry interval must not be below initial interval";;
  raise_if (has_duplicates (rr_non_retryable_error_types r))
    "non-retryable error types must be unique".

Record RouteCandidate := {
  c_candidate_id : string;
  c_capability : string;
  c_adapter : string;
  c_operation : string;
  c_channel : ExecutionChannel;
  c_baseline_success_bps : Z;
  c_baseline_sample_weight : Z;
  c_expected_latency_ms : Z;
  c_cost_micros : Z;
  c_static_priority : Z;
  c_maximum_risk_class : RiskClass;
  c_maximum_data_classification : DataClassification;
  c_maximum_verification_level : VerificationLevel;
  c_requires_approval : bool;
  c_approval_timeout_seconds : option Z;
  c_timeout_seconds : Z;
  c_retry : RouteRetryPolicy;
  c_fallback_on_error_codes : list string;
  c_enabled : bool;
  c_profile_digest : string }.

Definition retry_json (r : RouteRetryPolicy) : json := JObj [
  ("initial_interval_seconds", JFloat (rr_initial_interval_seconds r));
  ("backoff_coefficient", JFloat (rr_backoff_coefficient r));
  ("maximum_interval_seconds", JFloat (rr_maximum_interval_seconds r));
  ("maximum_attempts", JInt (rr_maximum_attempts r));
  ("non_retryable_error_types", json_strs (rr_non_retryable_error_types r))].

(** [model_dump(exclude={"profile_digest"})]. *)
Definition candidate_json (c : RouteCandidate) : json := JObj [
  ("schema_version", JStr "cargomesh.route-candidate/v1");
  ("candidate_id", JStr (c_candidate_id c)); ("capability", JStr (c_capability c));
  ("adapter", JStr (c_adapter c)); ("operation", JStr (c_operation c));
  ("channel", JStr (ExecutionChannel_value (c_channel c)));
  ("baseline_success_bps", JInt (c_baseline_success_bps c));
  ("baseline_sample_weight", JInt (c_baseline_sample_weight c));
  ("expected_latency_ms", JInt (c_expected_latency_ms c));
  ("cost_micros", JInt (c_cost_micros c)); ("static_priority", JInt (c_static_priority c));
  ("maximum_risk_class", JStr (RiskClass_value (c_maximum_risk_class c)));
  ("maximum_data_classification",
    JStr (DataClassification_value (c_maximum_data_classification c)));
  ("maximum_verification_level",
    JStr (VerificationLevel_value (c_maximum_verification_level c)));
  ("requires_approval", JBool (c_requires_approval c));
  ("approval_timeout_seconds", json_opt JInt (c_approval_timeout_seconds c));
  ("timeout_seconds", JInt (c_timeout_seconds c)); ("retry", retry_json (c_retry c));
  ("fallback_on_error_codes", json_strs (c_fallback_on_error_codes c));
  ("enabled", JBool (c_enabled c))].

(** The pydantic field constraints. *)
Definition candidate_fields_ok (c : RouteCandidate) : bool :=
  Name_ok (c_candidate_id c) && Name_ok (c_capability c) && Name_ok (c_adapter c)
  && Name_ok (c_operation c) && between 0 (c_baseline_success_bps c) 10000
  && between 1 (c_baseline_sample_weight c) 10000
  && between 1 (c_expected_latency_ms c) 86400000
  && between 0 (c_cost_micros c) (10 ^ 15) && between 0 (c_static_priority c) 1000000
  && opt_ok (λ t, between 1 t 604800) (c_approval_timeout_seconds c)
  && between 1 (c_timeout_seconds c) 86400 && is_ok (validate_retry (c_retry c))
  && forallb Name_ok (c_fallback_on_error_codes c)
  && max_length 32 (c_fallback_on_error_codes c) && Digest_ok (c_profile_digest c).

Definition validate_candidate `{Sha256, FloatRepr} (c : RouteCandidate) : result string () :=
  raise_if (negb (candidate_fields_ok c)) "field constraint";;
  raise_if (negb (c_requires_approval c) && bool_decide (is_Some (c_approval_timeout_seconds c)))
    "approval timeout requires approval";;
  raise_if (has_duplicates (c_fallback_on_error_codes c)) "fallback error codes must be unique";;
  raise_if (existsb is_secret_key (c_fallback_on_error_codes c))
    "fallback error codes must not look like secrets";;
  raise_if (negb (bool_decide (c_profile_digest c = value_digest (candidate_json c))))
    "route candidate digest does not match".

Record RoutingWeights := { w_reliability : Z; w_latency : Z; w_cost : Z }.

Definition validate_weights (w : RoutingWeights) : result string () :=
  raise_if (negb (between 0 (w_reliability w) 1000 && between 0 (w_latency w) 1000
                  && between 0 (w_cost w) 1000)) "field constraint";;
  raise_if (w_reliability w + w_latency w + w_cost w <=? 0)
    "at least one routing weight must be positive".

Record RoutingPolicy := {
  p_policy_id : string;
  p_version : string;
  p_allowed_channels : list ExecutionChannel;
  p_allowed_candidate_ids : list string;
  p_denied_candidate_ids : list string;
  p_minimum_success_bps : Z;
  p_maximum_latency_ms : Z;
  p_maximum_cost_micros : Z;
  p_maximum_risk_class : RiskClass;
  p_maximum_data_classification : DataClassification;
  p_minimum_verification_level : VerificationLevel;
  p_approval_required_at_or_above : option RiskClass;
  p_minimum_history_samples : Z;
  p_history_window_size : Z;
  p_circuit_failure_threshold : Z;
  p_circuit_cooldown_seconds : Z;
  p_maximum_fallbacks : Z;
  p_weights : RoutingWeights;
  p_policy_digest : string }.

Definition weights_json (w : RoutingWeights) : json := JObj [
  ("reliability", JInt (w_reliability w)); ("latency", JInt (w_latency w));
  ("cost", JInt (w_cost w))].

Definition policy_json (p : RoutingPolicy) : json := JObj [
  ("schema_version", JStr "cargomesh.routing-policy/v1");
  ("policy_id", JStr (p_policy_id p)); ("version", JStr (p_version p));
  ("allowed_channels", json_strs (map ExecutionChannel_value (p_allowed_channels p)));
  ("allowed_candidate_ids", json_strs (p_allowed_candidate_ids p));
  ("denied_candidate_ids", json_strs (p_denied_candidate_ids p));
  ("minimum_success_bps", JInt (p_minimum_success_bps p));
  ("maximum_latency_ms", JInt (p_maximum_latency_ms p));
  ("maximum_cost_micros", JInt (p_maximum_cost_micros p));
  ("maximum_risk_class", JStr (RiskClass_value (p_maximum_risk_class p)));
  ("maximum_data_classification",
    JStr (DataClassification_value (p_maximum_data_classification p)));
  ("minimum_verification_level",
    JStr (VerificationLevel_value (p_minimum_verification_level p)));
  ("approval_required_at_or_above",
    json_opt (λ r, JStr (RiskClass_value r)) (p_approval_required_at_or_above p));
  ("minimum_history_samples", JInt (p_minimum_history_samples p));
  ("history_window_size", JInt (p_history_window_size p));
  ("circuit_failure_threshold", JInt (p_circuit_failure_threshold p));
  ("circuit_cooldown_seconds", JInt (p_circuit_cooldown_seconds p));
  ("maximum_fallbacks", JInt (p_maximum_fallbacks p));
  ("weights", weights_json (p_weights p))].

(** The digits of one SemVer component: [0|[1-9][0-9]*]. *)
Definition semver_part (s : list Ascii.ascii) : bool :=
  match s with
  | [] => false
  | [c] => is_digit c
  | c :: s' => is_digit c && negb (code c =? 48) && forallb is_digit s'
  end.

(** Split at dots. *)
Fixpoint split_dots (cur l : list Ascii.ascii) : list (list Ascii.ascii) :=
  match l with
  | [] => [rev cur]
  | c :: l' => if code c =? 46 then rev cur :: split_dots [] l' else split_dots (c :: cur) l'
  end.

Definition SemVer_ok (s : string) : bool :=
  let parts := split_dots [] (String.list_ascii_of_string s) in
  (Z.of_nat (length parts) =? 3) && forallb semver_part parts.

Definition policy_fields_ok (p : RoutingPolicy) : bool :=
  Name_ok (p_policy_id p) && SemVer_ok (p_version p)
  && forallb Name_ok (p_allowed_candidate_ids p) && forallb Name_ok (p_denied_candidate_ids p)
  && between 0 (p_minimum_success_bps p) 10000 && between 1 (p_maximum_latency_ms p) 86400000
  && between 0 (p_maximum_cost_micros p) (10 ^ 15)
  && between 0 (p_minimum_history_samples p) 10000 && between 1 (p_history_window_size p) 10000
  && between 1 (p_circuit_failure_threshold p) 100
  && between 1 (p_circuit_cooldown_seconds p) 86400
  && between 0 (p_maximum_fallbacks p) 15 && is_ok (validate_weights (p_weights p))
  && Digest_ok (p_policy_digest p).

Definition validate_policy `{Sha256, FloatRepr} (p : RoutingPolicy) : result string () :=
  raise_if (negb (policy_fields_ok p)) "field constraint";;
  raise_if (has_duplicates (p_allowed_channels p)) "allowed channels must be unique";;
  raise_if (has_duplicates (p_allowed_candidate_ids p)) "allowed candidates must be unique";;
  raise_if (has_duplicates (p_denied_candidate_ids p)) "denied candidates must be unique";;
  raise_if (bool_decide (p_allowed_channels p = [])) "routing policy must allow at least one channel";;
  raise_if (existsb (λ i, mem i (p_denied_candidate_ids p)) (p_allowed_candidate_ids p))
    "candidate allow and deny lists must not overlap";;
  raise_if (negb (bool_decide (p_policy_digest p = value_digest (policy_json p))))
    "routing policy digest does not match".

Record RoutingRequest := {
  rq_tenant_id : string;
  rq_capability : string;
  rq_risk_class : RiskClass;
  rq_data_classification : DataClassification;
  rq_required_verification_level : VerificationLevel;
  rq_evaluated_at : Z }.

Definition request_json (r : RoutingRequest) : json := JObj [
  ("tenant_id", JStr (rq_tenant_id r)); ("capability", JStr (rq_capability r));
  ("risk_class", JStr (RiskClass_value (rq_risk_class r)));
  ("data_classification", JStr (DataClassification_value (rq_data_classification r)));
  ("required_verification_level",
    JStr (VerificationLevel_value (rq_required_verification_level r)));
  ("evaluated_at", JStr (isoformat (rq_evaluated_at r)))].

Record RouteHealthSnapshot := {
  h_tenant_id : string;
  h_candidate_id : string;
  h_evaluated_at : Z;
  h_status : RouteHealthStatus;
  h_sample_count : Z;
  h_success_count : Z;
  h_retryable_failure_count : Z;
  h_terminal_failure_count : Z;
  h_consecutive_failures : Z;
  h_observed_success_bps : option Z;
  h_p95_latency_ms : option Z;
  h_last_outcome_at : option Z;
  h_circuit_open_until : option Z }.

Definition health_json (h : RouteHealthSnapshot) : json := JObj [
  ("tenant_id", JStr (h_tenant_id h)); ("candidate_id", JStr (h_candidate_id h));
  ("evaluated_at", JStr (isoformat (h_evaluated_at h)));
  ("status", JStr (RouteHealthStatus_value (h_status h)));
  ("sample_count", JInt (h_sample_count h)); ("success_count", JInt (h_success_count h));
  ("retryable_failure_count", JInt (h_retryable_failure_count h));
  ("terminal_failure_count", JInt (h_terminal_failure_count h));
  ("consecutive_failures", JInt (h_consecutive_failures h));
  ("observed_success_bps", json_opt JInt (h_observed_success_bps h));
  ("p95_latency_ms", json_opt JInt (h_p95_latency_ms h));
  ("last_outcome_at", json_opt (λ t, JStr (isoformat t)) (h_last_outcome_at h));
  ("circuit_open_until", json_opt (λ t, JStr (isoformat t)) (h_circuit_open_until h))].

Definition health_fields_ok (h : RouteHealthSnapshot) : bool :=
  Identifier_ok (h_tenant_id h) && Name_ok (h_candidate_id h)
  && between 0 (h_sample_count h) 10000 && between 0 (h_success_count h) 10000
  && between 0 (h_retryable_failure_count h) 10000
  && between 0 (h_terminal_failure_count h) 10000
  && between 0 (h_consecutive_failures h) 10000
  && opt_ok (λ b, between 0 b 10000) (h_observed_success_bps h)
  && opt_ok (λ b, between 0 b 86400000) (h_p95_latency_ms h).

Definition is_status (s t : RouteHealthStatus) : bool := bool_decide (s = t).

Definition validate_counts (h : RouteHealthSnapshot) : result string () :=
  raise_if (negb (health_fields_ok h)) "field constraint";;
  raise_if (negb (h_success_count h + h_retryable_failure_count h + h_terminal_failure_count h
                  =? h_sample_count h)) "route health counts must equal sample count";;
  raise_if (h_sample_count h <? h_consecutive_failures h)
    "consecutive failures exceed sample count";;
  raise_if ((h_sample_count h =? 0)
            && negb (is_none (h_observed_success_bps h) && is_none (h_p95_latency_ms h)
                     && is_none (h_last_outcome_at h) && is_none (h_circuit_open_until h)))
    "empty route health must not fabricate observations";;
  raise_if ((h_sample_count h =? 0) && negb (is_status (h_status h) UNKNOWN))
    "empty route health must be UNKNOWN";;
  raise_if ((0 <? h_sample_count h)
            && (is_none (h_observed_success_bps h) || is_none (h_p95_latency_ms h)
                || is_none (h_last_outcome_at h)))
    "non-empty route health requires derived metrics";;
  raise_if (is_status (h_status h) UNAVAILABLE && is_none (h_circuit_open_until h))
    "unavailable route health requires circuit expiry";;
  raise_if (is_status (h_status h) UNAVAILABLE
            && match h_circuit_open_until h with
               | Some t => t <=? h_evaluated_at h | None => false end)
    "unavailable route health requires a future circuit expiry";;
  raise_if (negb (is_status (h_status h) UNAVAILABLE) && negb (is_none (h_circuit_open_until h)))
    "only unavailable route health may carry circuit expiry".

Record RouteEvaluation := {
  e_candidate_id : string;
  e_candidate_digest : string;
  e_health_status : RouteHealthStatus;
  e_eligible : bool;
  e_rejection_reasons : list string;
  e_effective_success_bps : Z;
  e_effective_latency_ms : Z;
  e_cost_micros : Z;
  e_reliability_score_bps : option Z;
  e_latency_score_bps : option Z;
  e_cost_score_bps : option Z;
  e_weighted_score_bps : option Z;
  e_static_priority : Z }.

Definition evaluation_json (e : RouteEvaluation) : json := JObj [
  ("candidate_id", JStr (e_candidate_id e)); ("candidate_digest", JStr (e_candidate_digest e));
  ("health_status", JStr (RouteHealthStatus_value (e_health_status e)));
  ("eligible", JBool (e_eligible e)); ("rejection_reasons", json_strs (e_rejection_reasons e));
  ("effective_success_bps", JInt (e_effective_success_bps e));
  ("effective_latency_ms", JInt (e_effective_latency_ms e));
  ("cost_micros", JInt (e_cost_micros e));
  ("reliability_score_bps", json_opt JInt (e_reliability_score_bps e));
  ("latency_score_bps", json_opt JInt (e_latency_score_bps e));
  ("cost_score_bps", json_opt JInt (e_cost_score_bps e));
  ("weighted_score_bps", json_opt JInt (e_weighted_score_bps e));
  ("static_priority", JInt (e_static_priority e))].

Definition evaluation_fields_ok (e : RouteEvaluation) : bool :=
  Name_ok (e_candidate_id e) && Digest_ok (e_candidate_digest e)
  && forallb Name_ok (e_rejection_reasons e) && max_length 32 (e_rejection_reasons e)
  && between 0 (e_effective_success_bps e) 10000
  && between 0 (e_effective_latency_ms e) 86400000 && between 0 (e_cost_micros e) (10 ^ 15)
  && opt_ok (λ b, between 0 b 10000) (e_reliability_score_bps e)
  && opt_ok (λ b, between 0 b 10000) (e_latency_score_bps e)
  && opt_ok (λ b, between 0 b 10000) (e_cost_score_bps e)
  && opt_ok (λ b, between 0 b 10000) (e_weighted_score_bps e)
  && between 0 (e_static_priority e) 1000000.

Definition evaluation_scores (e : RouteEvaluation) : list (option Z) :=
  [e_reliability_score_bps e; e_latency_score_bps e; e_cost_score_bps e; e_weighted_score_bps e].

Definition validate_evaluation (e : RouteEvaluation) : result string () :=
  raise_if (negb (evaluation_fields_ok e)) "field constraint";;
  raise_if (e_eligible e && (negb (bool_decide (e_rejection_reasons e = []))
                             || existsb is_none (evaluation_scores e)))
    "eligible route evaluation requires scores and no rejections";;
  raise_if (negb (e_eligible e) && (bool_decide (e_rejection_reasons e = [])
                                    || negb (forallb is_none (evaluation_scores e))))
    "ineligible route evaluation requires rejections and no scores";;
  raise_if (has_duplicates (e_rejection_reasons e)) "route rejection reasons must be unique".

Record RouteDecision := {
  d_request : RoutingRequest;
  d_policy_id : string;
  d_policy_version : string;
  d_policy_digest : string;
  d_health_snapshots : list RouteHealthSnapshot;
  d_evaluations : list RouteEvaluation;
  d_ranked_candidate_ids : list string;
  d_selected_candidate_id : string;
  d_fallback_candidate_ids : list string;
  d_decision_digest : string }.

Definition decision_json (d : RouteDecision) : json := JObj [
  ("schema_version", JStr "cargomesh.route-decision/v1");
  ("request", request_json (d_request d)); ("policy_id", JStr (d_policy_id d));
  ("policy_version", JStr (d_policy_version d)); ("policy_digest", JStr (d_policy_digest d));
  ("health_snapshots", JList (map health_json (d_health_snapshots d)));
  ("evaluations", JList (map evaluation_json (d_evaluations d)));
  ("ranked_candidate_ids", json_strs (d_ranked_candidate_ids d));
  ("selected_candidate_id", JStr (d_selected_candidate_id d));
  ("fallback_candidate_ids", json_strs (d_fallback_candidate_ids d))].

Definition decision_fields_ok (d : RouteDecision) : bool :=
  Name_ok (d_policy_id d) && SemVer_ok (d_policy_version d) && Digest_ok (d_policy_digest d)
  && max_length 16 (d_health_snapshots d) && max_length 16 (d_evaluations d)
  && negb (bool_decide (length (d_evaluations d) = 0%nat))
  && max_length 16 (d_ranked_candidate_ids d) && forallb Name_ok (d_ranked_candidate_ids d)
  && Name_ok (d_selected_candidate_id d) && max_length 15 (d_fallback_candidate_ids d)
  && forallb Name_ok (d_fallback_candidate_ids d) && Digest_ok (d_decision_digest d).

Definition eligible_ids (evals : list RouteEvaluation) : list string :=
  map e_candidate_id (filter (λ e, e_eligible e = true) evals).

Definition validate_decision `{Sha256, FloatRepr} (d : RouteDecision) : result string () :=
  raise_if (negb (decision_fields_ok d)) "field constraint";;
  raise_if (has_duplicates (map e_candidate_id (d_evaluations d)))
    "route decision evaluations must be unique";;
  raise_if (has_duplicates (map h_candidate_id (d_health_snapshots d)))
    "route decision health snapshots must be unique";;
  raise_if (negb (forallb (λ i, mem i (map e_candidate_id (d_evaluations d)))
                    (map h_candidate_id (d_health_snapshots d))))
    "route decision health must belong to evaluated candidates";;
  raise_if (existsb (λ h, negb (bool_decide (h_tenant_id h = rq_tenant_id (d_request d)))
                          || negb (h_evaluated_at h =? rq_evaluated_at (d_request d)))
              (d_health_snapshots d))
    "route decision health identity does not match request";;
  raise_if (has_duplicates (d_ranked_candidate_ids d)) "ranked candidate ids must be unique";;
  raise_if (negb (forallb (λ i, mem i (eligible_ids (d_evaluations d))) (d_ranked_candidate_ids d)
                  && forallb (λ i, mem i (d_ranked_candidate_ids d))
                       (eligible_ids (d_evaluations d))))
    "ranked candidates must equal eligible evaluations";;
  match d_ranked_candidate_ids d with
  | [] => Err "ranked candidates: at least 1 item"
  | first :: rest =>
      raise_if (negb (bool_decide (d_selected_candidate_id d = first)))
        "selected candidate must be first ranked";;
      raise_if (negb (bool_decide (filter (λ i, i ∈ d_fallback_candidate_ids d) rest
                                   = d_fallback_candidate_ids d)))
        "fallback candidates must preserve ranking order"
  end;;
  raise_if (negb (bool_decide (d_decision_digest d = value_digest (decision_json d))))
    "route decision digest does not match".

(** [RouteDecision.issue]: bind the digest of the other fields, then validate. *)
Definition set_decision_digest (d : RouteDecision) (digest : string) : RouteDecision :=
  {| d_request := d_request d; d_policy_id := d_policy_id d;
     d_policy_version := d_policy_version d; d_policy_digest := d_policy_digest d;
     d_health_snapshots := d_health_snapshots d; d_evaluations := d_evaluations d;
     d_ranked_candidate_ids := d_ranked_candidate_ids d;
     d_selected_candidate_id := d_selected_candidate_id d;
     d_fallback_candidate_ids := d_fallback_candidate_ids d; d_decision_digest := digest |}.

Definition issue_decision `{Sha256, FloatRepr} (d : RouteDecision) : result string RouteDecision :=
  let d' := set_decision_digest d (value_digest (decision_json d)) in
  validate_decision d';; Ok d'.

Record RouteOutcome := {
  o_event_id : string;
  o_tenant_id : string;
  o_transaction_id : string;
  o_step_id : string;
  o_candidate_id : string;
  o_temporal_attempt : Z;
  o_kind : RouteOutcomeKind;
  o_latency_ms : Z;
  o_failure_code : option string;
  o_occurred_at : Z;
  o_outcome_digest : string }.

Definition outcome_json (o : RouteOutcome) : json := JObj [
  ("schema_version", JStr "cargomesh.route-outcome/v1"); ("event_id", JStr (o_event_id o));
  ("tenant_id", JStr (o_tenant_id o)); ("transaction_id", JStr (o_transaction_id o));
  ("step_id", JStr (o_step_id o)); ("candidate_id", JStr (o_candidate_id o));
  ("temporal_attempt", JInt (o_temporal_attempt o));
  ("kind", JStr (RouteOutcomeKind_value (o_kind o))); ("latency_ms", JInt (o_latency_ms o));
  ("failure_code", json_opt JStr (o_failure_code o));
  ("occurred_at", JStr (isoformat (o_occurred_at o)))].

Definition is_success (k : RouteOutcomeKind) : bool := bool_decide (k = SUCCESS).

Definition validate_outcome `{Sha256, FloatRepr} (o : RouteOutcome) : result string () :=
  raise_if (negb (Identifier_ok (o_event_id o) && Identifier_ok (o_tenant_id o)
                  && Identifier_ok (o_transaction_id o) && Name_ok (o_step_id o)
                  && Name_ok (o_candidate_id o) && between 1 (o_temporal_attempt o) 100
                  && between 0 (o_latency_ms o) 86400000 && opt_ok Name_ok (o_failure_code o)
                  && Digest_ok (o_outcome_digest o))) "field constraint";;
  raise_if (is_success (o_kind o) && negb (is_none (o_failure_code o)))
    "successful route outcome must not have a failure code";;
  raise_if (negb (is_success (o_kind o)) && is_none (o_failure_code o))
    "failed route outcome requires a failure code";;
  raise_if (negb (bool_decide (o_outcome_digest o = value_digest (outcome_json o))))
    "route outcome digest does not match".

(** [RouteCandidate.issue] and [RoutingPolicy.issue]. *)
Definition issue_candidate `{Sha256, FloatRepr} (c : RouteCandidate) : result string RouteCandidate :=
  let c' := {|
    c_candidate_id := c_candidate_id c; c_capability := c_capability c;
    c_adapter := c_adapter c; c_operation := c_operation c; c_channel := c_channel c;
    c_baseline_success_bps := c_baseline_success_bps c;
    c_baseline_sample_weight := c_baseline_sample_weight c;
    c_expected_latency_ms := c_expected_latency_ms c; c_cost_micros := c_cost_micros c;
    c_static_priority := c_static_priority c; c_maximum_risk_class := c_maximum_risk_class c;
    c_maximum_data_classification := c_maximum_data_classification c;
    c_maximum_verification_level := c_maximum_verification_level c;
    c_requires_approval := c_requires_approval c;
    c_approval_timeout_seconds := c_approval_timeout_seconds c;
    c_timeout_seconds := c_timeout_seconds c; c_retry := c_retry c;
    c_fallback_on_error_codes := c_fallback_on_error_codes c; c_enabled := c_enabled c;
    c_profile_digest := value_digest (candidate_json c) |} in
  validate_candidate c';; Ok c'.

Definition issue_policy `{Sha256, FloatRepr} (p : RoutingPolicy) : result string RoutingPolicy :=
  let p' := {|
    p_policy_id := p_policy_id p; p_version := p_version p;
    p_allowed_channels := p_allowed_channels p;
    p_allowed_candidate_ids := p_allowed_candidate_ids p;
    p_denied_candidate_ids := p_denied_candidate_ids p;
    p_minimum_success_bps := p_minimum_success_bps p;
    p_maximum_latency_ms := p_maximum_latency_ms p;
    p_maximum_cost_micros := p_maximum_cost_micros p;
    p_maximum_risk_class := p_maximum_risk_class p;
    p_maximum_data_classification := p_maximum_data_classification p;
    p_minimum_verification_level := p_minimum_verification_level p;
    p_approval_required_at_or_above := p_approval_required_at_or_above p;
    p_minimum_history_samples := p_minimum_history_samples p;
    p_history_window_size := p_history_window_size p;
    p_circuit_failure_threshold := p_circuit_failure_threshold p;
    p_circuit_cooldown_seconds := p_circuit_cooldown_seconds p;
    p_maximum_fallbacks := p_maximum_fallbacks p; p_weights := p_weights p;
    p_policy_digest := value_digest (policy_json p) |} in
  validate_policy p';; Ok p'.

(** The synthetic tracking routes of [runtime/planner.py]. *)
Definition default_retry : RouteRetryPolicy := {|
  rr_initial_interval_seconds := py_float 1; rr_backoff_coefficient := py_float 2;
  rr_maximum_interval_seconds := py_float 30; rr_maximum_attempts := 3;
  rr_non_retryable_error_types := [] |}.

Definition synthetic_api `{Sha256, FloatRepr} : result string RouteCandidate := issue_candidate {|
  c_candidate_id := "synthetic.api.track"; c_capability := "shipment.track.read";
  c_adapter := "synthetic.api.track"; c_operation := "fetch"; c_channel := API;
  c_baseline_success_bps := 9950; c_baseline_sample_weight := 20;
  c_expected_latency_ms := 50; c_cost_micros := 10; c_static_priority := 10;
  c_maximum_risk_class := READ_ONLY; c_maximum_data_classification := INTERNAL;
  c_maximum_verification_level := L3; c_requires_approval := false;
  c_approval_timeout_seconds := None; c_timeout_seconds := 10; c_retry := default_retry;
  c_fallback_on_error_codes := ["api_not_found"; "api_response_invalid"; "api_server_error";
    "api_timeout"; "api_transport_error"];
  c_enabled := true; c_profile_digest := "" |}.

Definition synthetic_browser `{Sha256, FloatRepr} : result string RouteCandidate := issue_candidate {|
  c_candidate_id := "synthetic.browser.track"; c_capability := "shipment.track.read";
  c_adapter := "synthetic.browser.track"; c_operation := "fetch"; c_channel := BROWSER;
  c_baseline_success_bps := 9700; c_baseline_sample_weight := 20;
  c_expected_latency_ms := 1000; c_cost_micros := 500; c_static_priority := 20;
  c_maximum_risk_class := READ_ONLY; c_maximum_data_classification := INTERNAL;
  c_maximum_verification_level := L3; c_requires_approval := false;
  c_approval_timeout_seconds := None; c_timeout_seconds := 60; c_retry := default_retry;
  c_fallback_on_error_codes := []; c_enabled := true; c_profile_digest := "" |}.

Definition synthetic_policy `{Sha256, FloatRepr} : result string RoutingPolicy := issue_policy {|
  p_policy_id := "synthetic.local.optimized"; p_version := "1.0.0";
  p_allowed_channels := [API; BROWSER]; p_allowed_candidate_ids := [];
  p_denied_candidate_ids := []; p_minimum_success_bps := 0; p_maximum_latency_ms := 10000;
  p_maximum_cost_micros := 1000000; p_maximum_risk_class := READ_ONLY;
  p_maximum_data_classification := INTERNAL; p_minimum_verification_level := L0;
  p_approval_required_at_or_above := None; p_minimum_history_samples := 3;
  p_history_window_size := 100; p_circuit_failure_threshold := 3;
  p_circuit_cooldown_seconds := 300; p_maximum_fallbacks := 1;
  p_weights := {| w_reliability := 60; w_latency := 25; w_cost := 15 |};
  p_policy_digest := "" |}.

(** ** Lemmas *)

Lemma between_true lo z hi : between lo z hi = true ↔ lo ≤ z ≤ hi.
Proof. unfold between. rewrite andb_true_iff, !Z.leb_le. lia. Qed.

Lemma is_none_true {A} (o : option A) : is_none o = true ↔ o = None.
Proof. by destruct o. Qed.

#[export] Hint Rewrite between_true @is_none_true : cargo_rw.

(** The digest field is not part of the digested document. *)
Lemma decision_json_set_digest d digest :
  decision_json (set_decision_digest d digest) = decision_json d.
Proof. done. Qed.
