(* ===== verification/RouteEngine.v ===== *)
(** * Route selection (routing/engine.py)

    [select_route] filters the candidates through the hard gates, scores the eligible
    ones with integer arithmetic, ranks them and freezes the choice with its fallbacks
    in a digest-bound decision. *)

From S2P Require Import Prelude.
From S2P Require Import Contracts.
From S2P Require Import Routing.

(** What [select_route] raises. *)
Inductive RouteError :=
| NoEligibleRoute
| RouteValueError (message : string).

Definition lift_value_error {A} (r : result string A) : result RouteError A :=
  match r with Ok a => Ok a | Err m => Err (RouteValueError m) end.

(** The loop body of [_validated_health]. *)
Definition add_health (request : RoutingRequest) (acc : gmap string RouteHealthSnapshot)
    (snapshot : RouteHealthSnapshot) : result RouteError (gmap string RouteHealthSnapshot) :=
  raise_if (bool_decide (is_Some (acc !! h_candidate_id snapshot)))
    (RouteValueError "route health snapshots must be unique");;
  raise_if (negb (bool_decide (h_tenant_id snapshot = rq_tenant_id request))
            || negb (h_evaluated_at snapshot =? rq_evaluated_at request))
    (RouteValueError "route health snapshot identity does not match request");;
  Ok (<[h_candidate_id snapshot := snapshot]> acc).

(** [_validated_health]. *)
Definition validated_health (request : RoutingRequest) (snapshots : list RouteHealthSnapshot)
    : result RouteError (gmap string RouteHealthSnapshot) :=
  foldM (add_health request) ∅ snapshots.

(** [_effective_success]. *)
Definition effective_success (candidate : RouteCandidate) (health : RouteHealthSnapshot) : Z :=
  if h_sample_count health =? 0 then c_baseline_success_bps candidate
  else (c_baseline_success_bps candidate * c_baseline_sample_weight candidate
        + h_success_count health * 10000)
       / (c_baseline_sample_weight candidate + h_sample_count health).

(** [_inverse_score]. *)
Definition inverse_score (value maximum : Z) : Z :=
  if maximum =? 0 then (if value =? 0 then 10000 else 0)
  else Z.max 0 (10000 - value * 10000 / maximum).

(** [health.p95_latency_ms or candidate.expected_latency_ms]: [None] and [0] are both
    falsy. *)
Definition effective_latency (candidate : RouteCandidate) (health : RouteHealthSnapshot) : Z :=
  match h_p95_latency_ms health with
  | Some p95 => if p95 =? 0 then c_expected_latency_ms candidate else p95
  | None => c_expected_latency_ms candidate
  end.

(** [if b: reasons.add(r)]. *)
Definition reason (b : bool) (r : string) : list string := if b then [r] else [].

(** The health-dependent inputs of an evaluation: status, success, latency. *)
Definition health_view (candidate : RouteCandidate) (health : option RouteHealthSnapshot)
    : RouteHealthStatus * Z * Z :=
  match health with
  | None => (UNKNOWN, c_baseline_success_bps candidate, c_expected_latency_ms candidate)
  | Some h => (h_status h, effective_success candidate h, effective_latency candidate h)
  end.

(** The [reasons] set of [_evaluate_candidate], in the order of the checks. *)
Definition gate_reasons (request : RoutingRequest) (candidate : RouteCandidate)
    (health : option RouteHealthSnapshot) (policy : RoutingPolicy) : list string :=
  let '(status, success, latency) := health_view candidate health in
  reason (is_none health) "health_snapshot_missing"
  ++ reason (negb (c_enabled candidate)) "candidate_disabled"
  ++ reason (negb (bool_decide (c_capability candidate = rq_capability request)))
       "capability_mismatch"
  ++ reason (negb (mem (c_channel candidate) (p_allowed_channels policy))) "channel_not_allowed"
  ++ reason (negb (bool_decide (p_allowed_candidate_ids policy = []))
             && negb (mem (c_candidate_id candidate) (p_allowed_candidate_ids policy)))
       "candidate_not_allowed"
  ++ reason (mem (c_candidate_id candidate) (p_denied_candidate_ids policy)) "candidate_denied"
  ++ reason (RISK_RANK (c_maximum_risk_class candidate) <? RISK_RANK (rq_risk_class request))
       "candidate_risk_unsupported"
  ++ reason (RISK_RANK (p_maximum_risk_class policy) <? RISK_RANK (rq_risk_class request))
       "policy_risk_exceeded"
  ++ reason (DATA_RANK (c_maximum_data_classification candidate)
             <? DATA_RANK (rq_data_classification request))
       "candidate_data_classification_unsupported"
  ++ reason (DATA_RANK (p_maximum_data_classification policy)
             <? DATA_RANK (rq_data_classification request))
       "policy_data_classification_exceeded"
  ++ reason (VERIFICATION_RANK (c_maximum_verification_level candidate)
             <? Z.max (VERIFICATION_RANK (rq_required_verification_level request))
                      (VERIFICATION_RANK (p_minimum_verification_level policy)))
       "verification_level_unsupported"
  ++ reason (p_maximum_cost_micros policy <? c_cost_micros candidate) "cost_limit_exceeded"
  ++ reason (p_maximum_latency_ms policy <? latency) "latency_limit_exceeded"
  ++ reason (success <? p_minimum_success_bps policy) "reliability_below_minimum"
  ++ reason (is_status status UNAVAILABLE) "circuit_open"
  ++ reason (match p_approval_required_at_or_above policy with
             | None => false
             | Some r => (RISK_RANK r <=? RISK_RANK (rq_risk_class request))
                         && negb (c_requires_approval candidate)
             end) "approval_required".

(** [weighted_score] of [_evaluate_candidate]. *)
Definition weighted_score (policy : RoutingPolicy) (success latency_score cost_score : Z) : Z :=
  let w := p_weights policy in
  (success * w_reliability w + latency_score * w_latency w + cost_score * w_cost w)
  / (w_reliability w + w_latency w + w_cost w).

(** [_evaluate_candidate]; constructing the [RouteEvaluation] validates it. *)
Definition evaluate_candidate (request : RoutingRequest)
    (health_by_candidate : gmap string RouteHealthSnapshot) (policy : RoutingPolicy)
    (candidate : RouteCandidate) : result RouteError RouteEvaluation :=
  let health := health_by_candidate !! c_candidate_id candidate in
  let '(status, success, latency) := health_view candidate health in
  let reasons := gate_reasons request candidate health policy in
  let e :=
    match reasons with
    | _ :: _ =>
        {| e_candidate_id := c_candidate_id candidate;
           e_candidate_digest := c_profile_digest candidate;
           e_health_status := status; e_eligible := false;
           e_rejection_reasons := sorted_set reasons;
           e_effective_success_bps := success; e_effective_latency_ms := latency;
           e_cost_micros := c_cost_micros candidate;
           e_reliability_score_bps := None; e_latency_score_bps := None;
           e_cost_score_bps := None; e_weighted_score_bps := None;
           e_static_priority := c_static_priority candidate |}
    | [] =>
        let latency_score := inverse_score latency (p_maximum_latency_ms policy) in
        let cost_score :=
          inverse_score (c_cost_micros candidate) (p_maximum_cost_micros policy) in
        {| e_candidate_id := c_candidate_id candidate;
           e_candidate_digest := c_profile_digest candidate;
           e_health_status := status; e_eligible := true; e_rejection_reasons := [];
           e_effective_success_bps := success; e_effective_latency_ms := latency;
           e_cost_micros := c_cost_micros candidate;
           e_reliability_score_bps := Some success;
           e_latency_score_bps := Some latency_score;
           e_cost_score_bps := Some cost_score;
           e_weighted_score_bps :=
             Some (weighted_score policy success latency_score cost_score);
           e_static_priority := c_static_priority candidate |}
    end in
  lift_value_error (validate_evaluation e);; Ok e.

(** [{candidate.candidate_id: candidate for candidate in candidates}]. *)
Definition candidate_by_id (candidates : list RouteCandidate) : gmap string RouteCandidate :=
  list_to_map (map (λ c, (c_candidate_id c, c)) candidates).

(** The sort key [(-score, static_priority, candidate_id)]. *)
Definition rank_key (by_id : gmap string RouteCandidate) (e : RouteEvaluation) : Z * (Z * string) :=
  (- default 0 (e_weighted_score_bps e),
   (default 0 (c_static_priority <$> by_id !! e_candidate_id e), e_candidate_id e)).

Definition rank_le : relation (Z * (Z * string)) := lex Z.le (lex Z.le String.le).

#[export] Instance rank_le_dec : RelDecision rank_le.
Proof. unfold rank_le. apply _. Defined.

(** [not candidate_by_id[candidate_id].requires_approval]. *)
Definition unattended (by_id : gmap string RouteCandidate) (candidate_id : string) : bool :=
  match by_id !! candidate_id with
  | Some c => negb (c_requires_approval c)
  | None => false
  end.

(** The fallbacks: later ranked candidates that need no approval, up to the policy's
    maximum, and only for read-only requests. *)
Definition fallback_ids (request : RoutingRequest) (policy : RoutingPolicy)
    (by_id : gmap string RouteCandidate) (ranked_ids : list string) : list string :=
  if is_read_only (rq_risk_class request) then
    take (Z.to_nat (p_maximum_fallbacks policy))
      (filter (λ i, unattended by_id i = true) (tail ranked_ids))
  else [].

(** [select_route]. *)
Definition select_route `{Sha256, FloatRepr} (request : RoutingRequest)
    (candidates : list RouteCandidate) (health_snapshots : list RouteHealthSnapshot)
    (policy : RoutingPolicy) : result RouteError RouteDecision :=
  raise_if (bool_decide (length candidates = 0%nat)) NoEligibleRoute;;
  raise_if (16 <? Z.of_nat (length candidates))
    (RouteValueError "routing supports at most 16 candidates");;
  raise_if (has_duplicates (map c_candidate_id candidates))
    (RouteValueError "route candidate ids must be unique");;
  health_by_candidate ← validated_health request health_snapshots;
  evaluations ← mapM_result (evaluate_candidate request health_by_candidate policy)
                  (sorted_by c_candidate_id String.le candidates);
  let by_id := candidate_by_id candidates in
  let eligible := filter (λ e, e_eligible e = true) evaluations in
  let ranked := sorted_by (rank_key by_id) rank_le eligible in
  let ranked_ids := map e_candidate_id ranked in
  match ranked_ids with
  | [] => Err NoEligibleRoute
  | first :: _ =>
      lift_value_error (issue_decision
        {| d_request := request; d_policy_id := p_policy_id policy;
           d_policy_version := p_version policy; d_policy_digest := p_policy_digest policy;
           d_health_snapshots := sorted_by h_candidate_id String.le health_snapshots;
           d_evaluations := evaluations; d_ranked_candidate_ids := ranked_ids;
           d_selected_candidate_id := first;
           d_fallback_candidate_ids := fallback_ids request policy by_id ranked_ids;
           d_decision_digest := EmptyString |})
  end.

(** ** Specification: admissible candidates and their score *)

(** The hard gates a candidate must pass, as documented for routing policies. *)
Record admissible (request : RoutingRequest) (policy : RoutingPolicy)
    (health : option RouteHealthSnapshot) (c : RouteCandidate) : Prop := {
  adm_health : is_Some health;
  adm_enabled : c_enabled c = true;
  adm_capability : c_capability c = rq_capability request;
  adm_channel : c_channel c ∈ p_allowed_channels policy;
  adm_allowed : p_allowed_candidate_ids policy = [] ∨
                c_candidate_id c ∈ p_allowed_candidate_ids policy;
  adm_denied : c_candidate_id c ∉ p_denied_candidate_ids policy;
  adm_risk : RISK_RANK (rq_risk_class request) ≤ RISK_RANK (c_maximum_risk_class c);
  adm_policy_risk : RISK_RANK (rq_risk_class request) ≤ RISK_RANK (p_maximum_risk_class policy);
  adm_data : DATA_RANK (rq_data_classification request)
             ≤ DATA_RANK (c_maximum_data_classification c);
  adm_policy_data : DATA_RANK (rq_data_classification request)
                    ≤ DATA_RANK (p_maximum_data_classification policy);
  adm_verification : VERIFICATION_RANK (rq_required_verification_level request)
                     ≤ VERIFICATION_RANK (c_maximum_verification_level c);
  adm_policy_verification : VERIFICATION_RANK (p_minimum_verification_level policy)
                            ≤ VERIFICATION_RANK (c_maximum_verification_level c);
  adm_cost : c_cost_micros c ≤ p_maximum_cost_micros policy;
  adm_latency : (health_view c health).2 ≤ p_maximum_latency_ms policy;
  adm_success : p_minimum_success_bps policy ≤ (health_view c health).1.2;
  adm_circuit : (health_view c health).1.1 ≠ UNAVAILABLE;
  adm_approval : ∀ r, p_approval_required_at_or_above policy = Some r →
                 RISK_RANK r ≤ RISK_RANK (rq_risk_class request) →
                 c_requires_approval c = true }.

(** The score of a candidate under its health. *)
Definition candidate_score (policy : RoutingPolicy) (health : option RouteHealthSnapshot)
    (c : RouteCandidate) : Z :=
  let '(_, success, latency) := health_view c health in
  weighted_score policy success (inverse_score latency (p_maximum_latency_ms policy))
    (inverse_score (c_cost_micros c) (p_maximum_cost_micros policy)).

(** The rank of a candidate: better score first, then lower priority number, then id. *)
Definition candidate_key (policy : RoutingPolicy) (health : option RouteHealthSnapshot)
    (c : RouteCandidate) : Z * (Z * string) :=
  (- candidate_score policy health c, (c_static_priority c, c_candidate_id c)).

(** ** Lemmas *)

#[export] Instance rank_le_po : PartialOrder rank_le.
Proof. unfold rank_le. apply _. Qed.
#[export] Instance rank_le_total : Total rank_le.
Proof. unfold rank_le. apply _. Qed.

Lemma reason_nil b r : reason b r = [] ↔ b = false.
Proof. by destruct b. Qed.

Lemma gate_reasons_nil request c health policy :
  gate_reasons request c health policy = [] ↔ admissible request policy health c.
Proof.
  unfold gate_reasons. destruct (health_view c health) as [[status success] latency] eqn:Hv.
  rewrite !app_nil, !reason_nil. split.
  - intros (H1 & H2 & H3 & H4 & H5 & H6 & H7 & H8 & H9 & H10 & H11 & H12 & H13 & H14 & H15 & H16).
    boolify. apply Z.max_lub_iff in H11 as [H11 H11']. unfold is_status in H15. boolify.
    split; rewrite ?Hv; simpl; auto.
    + by destruct health.
    + by apply mem_true.
    + apply andb_false_iff in H5 as [H5|H5]; boolify; [by left|right].
      by apply mem_true.
    + by apply mem_false.
    + intros r Hr Hle. rewrite Hr in H16. apply andb_false_iff in H16 as [H16|H16]; boolify; [lia|].
      done.
  - intros []. rewrite Hv in *. simpl in *.
    repeat split; rewrite ?negb_false_iff, ?bool_decide_eq_true, ?Z.ltb_ge, ?mem_true, ?mem_false;
      auto; try lia.
    + by destruct adm_health0 as [h ->].
    + apply andb_false_iff. rewrite !negb_false_iff, bool_decide_eq_true, mem_true. done.
    + unfold is_status. by apply bool_decide_eq_false.
    + destruct (p_approval_required_at_or_above policy) as [r|]; [|done].
      destruct (Z.leb_spec (RISK_RANK r) (RISK_RANK (rq_risk_class request))); [|done].
      simpl. apply negb_false_iff. eauto.
Qed.

Lemma lift_value_error_ok {A} (r : result string A) a :
  lift_value_error r = Ok a ↔ r = Ok a.
Proof. destruct r; simpl; naive_solver. Qed.

(** What an accepted evaluation says about its candidate. *)
Lemma evaluate_candidate_ok request hs policy c e :
  evaluate_candidate request hs policy c = Ok e →
  let health := hs !! c_candidate_id c in
  e_candidate_id e = c_candidate_id c ∧
  (e_eligible e = true ↔ admissible request policy health c) ∧
  (e_eligible e = true → e_weighted_score_bps e = Some (candidate_score policy health c)).
Proof.
  intros H. cbv zeta. unfold evaluate_candidate, candidate_score in *.
  set (health := hs !! c_candidate_id c) in *. cbv zeta in H.
  destruct (health_view c health) as [[status success] latency] eqn:Hv.
  apply bind_ok in H as ([] & _ & [= <-]).
  pose proof (gate_reasons_nil request c health policy) as Hg.
  destruct (gate_reasons request c health policy) as [|r rs]; simpl; [tauto|].
  repeat split; try done. intros Ha. apply Hg in Ha. done.
Qed.

Lemma evaluate_all_ok request hs policy cs evals :
  mapM_result (evaluate_candidate request hs policy) cs = Ok evals →
  map e_candidate_id evals = map c_candidate_id cs ∧
  (∀ e, e ∈ evals → ∃ c, c ∈ cs ∧ evaluate_candidate request hs policy c = Ok e) ∧
  (∀ c, c ∈ cs → ∃ e, e ∈ evals ∧ evaluate_candidate request hs policy c = Ok e).
Proof.
  intros H%mapM_result_Forall2. induction H as [|c e cs evals Hce H (IH1 & IH2 & IH3)].
  - split; [done|]. split; intros ? Hn; by apply elem_of_nil in Hn.
  - split; [simpl; f_equal; [|done]; by apply evaluate_candidate_ok in Hce as [? _]|].
    split; intros x [->|Hx]%elem_of_cons.
    + exists c. split; [left|done].
    + apply IH2 in Hx as (c' & ? & ?). exists c'. split; [by right|done].
    + exists e. split; [left|done].
    + apply IH3 in Hx as (e' & ? & ?). exists e'. split; [by right|done].
Qed.

Lemma candidate_by_id_lookup cs c :
  NoDup (map c_candidate_id cs) → c ∈ cs → candidate_by_id cs !! c_candidate_id c = Some c.
Proof.
  intros Hn Hc. apply elem_of_list_to_map_1.
  - by rewrite <-list_fmap_compose.
  - apply (list_elem_of_fmap_2 (λ c, (c_candidate_id c, c))). done.
Qed.

Lemma rank_key_candidate request hs policy cs c e :
  NoDup (map c_candidate_id cs) → c ∈ cs →
  evaluate_candidate request hs policy c = Ok e → e_eligible e = true →
  rank_key (candidate_by_id cs) e = candidate_key policy (hs !! c_candidate_id c) c.
Proof.
  intros Hn Hc He Hel. apply evaluate_candidate_ok in He as (Hid & _ & Hs).
  unfold rank_key, candidate_key. rewrite Hid, (Hs Hel).
  by rewrite candidate_by_id_lookup.
Qed.

(** *** Health by candidate *)

Definition health_identity (request : RoutingRequest) (h : RouteHealthSnapshot) : Prop :=
  h_tenant_id h = rq_tenant_id request ∧ h_evaluated_at h = rq_evaluated_at request.

Definition insert_health (acc : gmap string RouteHealthSnapshot) (h : RouteHealthSnapshot)
    : gmap string RouteHealthSnapshot := <[h_candidate_id h := h]> acc.

Lemma add_health_ok request acc h acc' :
  add_health request acc h = Ok acc' ↔
  acc !! h_candidate_id h = None ∧ health_identity request h ∧ acc' = insert_health acc h.
Proof.
  unfold add_health, health_identity, insert_health.
  rewrite !raise_if_then, orb_false_iff, !negb_false_iff, bool_decide_eq_false,
    bool_decide_eq_true, Z.eqb_eq, <-eq_None_not_Some. naive_solver.
Qed.

Lemma foldM_add_health request hs acc m :
  foldM (add_health request) acc hs = Ok m ↔
  NoDup (map h_candidate_id hs) ∧ (∀ h, h ∈ hs → acc !! h_candidate_id h = None) ∧
  Forall (health_identity request) hs ∧ m = foldl insert_health acc hs.
Proof.
  revert acc. induction hs as [|h hs IH]; intros acc; simpl.
  - split; [intros [= <-]|naive_solver].
    repeat split; auto using NoDup_nil_2. intros ? Hn. by apply elem_of_nil in Hn.
  - rewrite bind_ok, NoDup_cons, Forall_cons. setoid_rewrite add_health_ok. split.
    + intros (a & (Hnone & Hid & ->) & (Hn & Hacc & Hids & ->)%IH).
      unfold insert_health in Hacc. split_and!; try done.
      * intros (h' & E & Hin)%list_elem_of_fmap. apply Hacc in Hin.
        by rewrite E, lookup_insert_eq in Hin.
      * intros h' [->|Hin]%elem_of_cons; [done|].
        apply Hacc in Hin. by apply lookup_insert_None in Hin as [? _].
    + intros ([Hni Hn] & Hacc & [Hid Hids] & ->). eexists. split.
      { split; [apply Hacc; left|done]. }
      apply IH. split_and!; auto. intros h' Hin. apply lookup_insert_None. split.
      * apply Hacc. by right.
      * intros E. apply Hni. rewrite E. by apply (list_elem_of_fmap_2 h_candidate_id).
Qed.

Lemma validated_health_ok request hs m :
  validated_health request hs = Ok m ↔
  NoDup (map h_candidate_id hs) ∧ Forall (health_identity request) hs ∧
  m = foldl insert_health ∅ hs.
Proof. unfold validated_health. rewrite foldM_add_health. set_solver. Qed.

Lemma foldl_insert_health_lookup hs acc i h :
  NoDup (map h_candidate_id hs) →
  foldl insert_health acc hs !! i = Some h ↔
  (h ∈ hs ∧ h_candidate_id h = i) ∨ (acc !! i = Some h ∧ i ∉ map h_candidate_id hs).
Proof.
  revert acc. induction hs as [|x hs IH]; intros acc Hn; simpl.
  - set_solver.
  - apply NoDup_cons in Hn as [Hx Hn]. rewrite IH by done.
    unfold insert_health. rewrite lookup_insert, elem_of_cons, not_elem_of_cons.
    destruct (decide (h_candidate_id x = i)) as [<-|Hne].
    + split; [intros [[? ?]|[[= ->] ?]]|intros [[[->|?] ?]|(? & [] & ?)]]; auto.
    + split; [intros [[? ?]|[? ?]]|intros [[[->|?] ?]|(? & ? & ?)]]; auto; done.
Qed.

Lemma validated_health_lookup request hs m i h :
  validated_health request hs = Ok m →
  m !! i = Some h ↔ h ∈ hs ∧ h_candidate_id h = i.
Proof.
  intros (Hn & _ & ->)%validated_health_ok.
  rewrite foldl_insert_health_lookup by done. rewrite lookup_empty. naive_solver.
Qed.

(** The health map depends only on the set of snapshots. *)
Lemma validated_health_perm request hs hs' m :
  hs ≡ₚ hs' → validated_health request hs = Ok m → validated_health request hs' = Ok m.
Proof.
  intros HP Hm. pose proof Hm as (Hn & Hid & E)%validated_health_ok.
  assert (NoDup (map h_candidate_id hs')) as Hn' by (by rewrite <-HP).
  apply validated_health_ok. split_and!; [done|by rewrite <-HP|].
  apply map_eq. intros i. apply option_eq. intros h.
  rewrite (validated_health_lookup _ _ _ _ _ Hm), foldl_insert_health_lookup by done.
  rewrite HP, lookup_empty. naive_solver.
Qed.

(** *** Inversion of a successful selection *)

Section selection.
Context `{Sha256, FloatRepr}.

Lemma issue_decision_ok d d' :
  issue_decision d = Ok d' ↔
  d' = set_decision_digest d (value_digest (decision_json d)) ∧ validate_decision d' = Ok ().
Proof.
  unfold issue_decision. rewrite bind_ok. split.
  - intros ([] & Hv & [= <-]). done.
  - intros [-> Hv]. eauto.
Qed.

(** The pieces a successful [select_route] is made of. *)
Record selection (request : RoutingRequest) (cs : list RouteCandidate)
    (hs : list RouteHealthSnapshot) (policy : RoutingPolicy) (d : RouteDecision)
    (m : gmap string RouteHealthSnapshot) (evals ranked : list RouteEvaluation) : Prop := {
  sel_ids : NoDup (map c_candidate_id cs);
  sel_health : validated_health request hs = Ok m;
  sel_evals : mapM_result (evaluate_candidate request m policy)
                (sorted_by c_candidate_id String.le cs) = Ok evals;
  sel_ranked : ranked = sorted_by (rank_key (candidate_by_id cs)) rank_le
                          (filter (λ e, e_eligible e = true) evals);
  sel_ranked_ids : d_ranked_candidate_ids d = map e_candidate_id ranked;
  sel_selected : head (map e_candidate_id ranked) = Some (d_selected_candidate_id d);
  sel_fallbacks : d_fallback_candidate_ids d =
                  fallback_ids request policy (candidate_by_id cs) (map e_candidate_id ranked) }.

Lemma select_route_inv request cs hs policy d :
  select_route request cs hs policy = Ok d →
  ∃ m evals ranked, selection request cs hs policy d m evals ranked.
Proof.
  unfold select_route. rewrite !raise_if_then.
  intros (_ & _ & Hn%has_duplicates_false & (m & Hm & (evals & He & Hr)%bind_ok)%bind_ok).
  cbv zeta in Hr.
  set (ranked := sorted_by _ _ _) in Hr.
  destruct (map e_candidate_id ranked) as [|first rest] eqn:Hids; [done|].
  apply lift_value_error_ok, issue_decision_ok in Hr as [-> _].
  exists m, evals, ranked. split; try done; by rewrite Hids.
Qed.

(** An evaluation is ranked exactly when its candidate is admissible. *)
Lemma selection_ranked request cs hs policy d m evals ranked e :
  selection request cs hs policy d m evals ranked →
  e ∈ ranked ↔ ∃ c, c ∈ cs ∧ admissible request policy (m !! c_candidate_id c) c ∧
    evaluate_candidate request m policy c = Ok e ∧ e_eligible e = true.
Proof.
  intros []. subst ranked. rewrite sorted_by_elem, list_elem_of_filter.
  apply evaluate_all_ok in sel_evals0 as (_ & H1 & H2). split.
  - intros [Hel He]. apply H1 in He as (c & Hc & He). rewrite sorted_by_elem in Hc.
    exists c. split_and!; auto. apply evaluate_candidate_ok in He as (_ & Ha & _). by apply Ha.
  - intros (c & Hc & Ha & He & Hel). split; [done|].
    destruct (H2 c) as (e' & ? & He'); [by rewrite sorted_by_elem|].
    by rewrite He in He'; injection He' as ->.
Qed.

Lemma admissible_evaluated request cs hs policy d m evals ranked c :
  selection request cs hs policy d m evals ranked →
  c ∈ cs → admissible request policy (m !! c_candidate_id c) c →
  ∃ e, e ∈ ranked ∧ evaluate_candidate request m policy c = Ok e ∧
    e_candidate_id e = c_candidate_id c ∧
    rank_key (candidate_by_id cs) e = candidate_key policy (m !! c_candidate_id c) c.
Proof.
  intros Hs Hc Ha. pose proof (sel_evals _ _ _ _ _ _ _ _ Hs) as He.
  apply evaluate_all_ok in He as (_ & _ & H2).
  destruct (H2 c) as (e & _ & He); [by rewrite sorted_by_elem|].
  pose proof He as (Hid & Hel & _)%evaluate_candidate_ok. apply Hel in Ha as Hel'.
  exists e. split_and!; auto.
  - apply (selection_ranked _ _ _ _ _ _ _ _ _ Hs). eauto 6.
  - eapply rank_key_candidate; eauto. apply (sel_ids _ _ _ _ _ _ _ _ Hs).
Qed.

(** C1. A decision selects an admissible candidate, and no admissible candidate ranks
    before it: the selected route has the best score, ties going to the smaller static
    priority and then to the smaller candidate id. *)
Theorem select_route_best request cs hs policy d :
  select_route request cs hs policy = Ok d →
  ∃ m c, validated_health request hs = Ok m ∧ c ∈ cs ∧
    d_selected_candidate_id d = c_candidate_id c ∧
    admissible request policy (m !! c_candidate_id c) c ∧
    ∀ c', c' ∈ cs → admissible request policy (m !! c_candidate_id c') c' →
      rank_le (candidate_key policy (m !! c_candidate_id c) c)
              (candidate_key policy (m !! c_candidate_id c') c').
Proof.
  intros (m & evals & ranked & Hs)%select_route_inv.
  pose proof (sel_selected _ _ _ _ _ _ _ _ Hs) as Hsel.
  destruct ranked as [|e ranked]; simpl in Hsel; [done|]. injection Hsel as Hsel.
  assert (e ∈ e :: ranked) as He by left.
  apply (selection_ranked _ _ _ _ _ _ _ _ _ Hs) in He as (c & Hc & Ha & He & Hel).
  pose proof He as (Hid & _)%evaluate_candidate_ok.
  exists m, c. split_and!; [by apply Hs|done|congruence|done|].
  intros c' Hc' Ha'.
  destruct (admissible_evaluated _ _ _ _ _ _ _ _ _ Hs Hc' Ha') as (e' & Hin & _ & _ & <-).
  rewrite <-(rank_key_candidate _ _ _ _ _ _ (sel_ids _ _ _ _ _ _ _ _ Hs) Hc He Hel).
  pose proof (sel_ranked _ _ _ _ _ _ _ _ Hs) as Hrk. symmetry in Hrk.
  apply (sorted_by_head _ _ _ _ _ _ Hrk).
  by rewrite <-(sorted_by_elem (rank_key (candidate_by_id cs)) rank_le), Hrk.
Qed.

(** What a decision says of its fallbacks. *)
Lemma decision_fallbacks request cs hs policy d :
  select_route request cs hs policy = Ok d →
  (d_fallback_candidate_ids d ≠ [] → rq_risk_class request = READ_ONLY) ∧
  NoDup (d_selected_candidate_id d :: d_fallback_candidate_ids d) ∧
  (length (d_fallback_candidate_ids d) ≤ Z.to_nat (p_maximum_fallbacks policy))%nat ∧
  ∀ i, i ∈ d_fallback_candidate_ids d →
    ∃ m c, validated_health request hs = Ok m ∧ c ∈ cs ∧ c_candidate_id c = i ∧
      c_requires_approval c = false ∧ admissible request policy (m !! i) c.
Proof.
  intros (m & evals & ranked & Hs)%select_route_inv.
  pose proof (sel_ids _ _ _ _ _ _ _ _ Hs) as Hn.
  assert (NoDup (map e_candidate_id ranked)) as Hnr.
  { rewrite (sel_ranked _ _ _ _ _ _ _ _ Hs), sorted_by_perm.
    pose proof (sel_evals _ _ _ _ _ _ _ _ Hs) as (Hids & _)%evaluate_all_ok.
    apply (sublist_NoDup _ (map e_candidate_id evals)).
    - rewrite Hids. by rewrite (sorted_by_perm c_candidate_id String.le).
    - apply (fmap_sublist e_candidate_id), sublist_filter. }
  rewrite (sel_fallbacks _ _ _ _ _ _ _ _ Hs). unfold fallback_ids.
  pose proof (sel_selected _ _ _ _ _ _ _ _ Hs) as Hsel.
  destruct (map e_candidate_id ranked) as [|first rest] eqn:Hids; [done|].
  injection Hsel as ->. apply NoDup_cons in Hnr as [Hnf Hnr]. simpl.
  destruct (is_read_only (rq_risk_class request)) eqn:Hro; [apply is_read_only_true in Hro|].
  2: { split_and!; [done|apply NoDup_singleton|simpl; lia|].
       intros i Hi. by apply elem_of_nil in Hi. }
  assert (∀ i n, i ∈ take n (filter (λ i, unattended (candidate_by_id cs) i = true) rest) →
            i ∈ rest ∧ unattended (candidate_by_id cs) i = true) as Hin.
  { intros i n Hi. eapply elem_of_sublist in Hi; [|apply sublist_take].
    apply list_elem_of_filter in Hi. tauto. }
  split_and!; [done| |rewrite length_take; lia|].
  - apply NoDup_cons. split; [naive_solver|].
    eapply sublist_NoDup; [|apply sublist_take]. by apply NoDup_filter.
  - intros i [Hi Hu]%Hin. assert (i ∈ map e_candidate_id ranked) as Hr by (rewrite Hids; by right).
    apply list_elem_of_fmap in Hr as (e & -> & He).
    apply (selection_ranked _ _ _ _ _ _ _ _ _ Hs) in He as (c & Hc & Ha & He & Hel).
    pose proof He as (Hid & _)%evaluate_candidate_ok.
    exists m, c. rewrite Hid in *. split_and!; auto; [by apply Hs|].
    unfold unattended in Hu. rewrite candidate_by_id_lookup in Hu by done. by boolify.
Qed.

(** Fallbacks exist only for read-only requests; each is an admissible candidate
    other than the selected one that needs no approval, none is repeated, and there are
    at most [maximum_fallbacks] of them. *)
Theorem select_route_fallbacks_safe request cs hs policy d :
  select_route request cs hs policy = Ok d →
  (d_fallback_candidate_ids d ≠ [] → rq_risk_class request = READ_ONLY) ∧
  NoDup (d_selected_candidate_id d :: d_fallback_candidate_ids d) ∧
  (length (d_fallback_candidate_ids d) ≤ Z.to_nat (p_maximum_fallbacks policy))%nat ∧
  ∀ i, i ∈ d_fallback_candidate_ids d →
    ∃ m c, validated_health request hs = Ok m ∧ c ∈ cs ∧ c_candidate_id c = i ∧
      c_requires_approval c = false ∧ admissible request policy (m !! i) c.
Proof. apply decision_fallbacks. Qed.

(** What a returned decision carries: its request, a signature that validates, and a
    selected id among the candidates. *)
Lemma decision_identity request cs hs policy d :
  select_route request cs hs policy = Ok d →
  d_request d = request ∧ validate_decision d = Ok () ∧ NoDup (map c_candidate_id cs) ∧
  d_selected_candidate_id d ∈ map c_candidate_id cs.
Proof.
  intros Hr. pose proof Hr as (m & evals & ranked & Hs)%select_route_inv.
  pose proof (sel_selected _ _ _ _ _ _ _ _ Hs) as Hsel.
  destruct ranked as [|e ranked]; simpl in Hsel; [done|]. injection Hsel as Hsel.
  assert (e ∈ e :: ranked) as He by left.
  apply (selection_ranked _ _ _ _ _ _ _ _ _ Hs) in He as (c & Hc & _ & He & _).
  apply evaluate_candidate_ok in He as (Hid & _).
  assert (d_request d = request ∧ validate_decision d = Ok ()) as [-> Hv].
  { revert Hr. unfold select_route. rewrite !raise_if_then.
    intros (_ & _ & _ & (m' & _ & (evals' & _ & Hr)%bind_ok)%bind_ok). cbv zeta in Hr.
    destruct (map e_candidate_id _); [done|].
    by apply lift_value_error_ok, issue_decision_ok in Hr as [-> Hv]. }
  split_and!; [done..|by apply Hs|]. rewrite <-Hsel, Hid. by apply list_elem_of_fmap_2.
Qed.

(** The decision does not depend on the order in which candidates and health
    snapshots are supplied. *)
Theorem select_route_order_independent request cs cs' hs hs' policy d :
  cs ≡ₚ cs' → hs ≡ₚ hs' →
  select_route request cs hs policy = Ok d → select_route request cs' hs' policy = Ok d.
Proof.
  intros Hcs Hhs Hd. rewrite <-Hd. pose proof Hd as (m & evals & ranked & Hs)%select_route_inv.
  pose proof (sel_ids _ _ _ _ _ _ _ _ Hs) as Hn.
  pose proof (sel_health _ _ _ _ _ _ _ _ Hs) as Hm.
  unfold select_route. rewrite <-(Permutation_length Hcs).
  assert (has_duplicates (map c_candidate_id cs') = has_duplicates (map c_candidate_id cs)) as ->.
  { assert (NoDup (map c_candidate_id cs')) as Hn' by (by rewrite <-Hcs).
    apply has_duplicates_false in Hn, Hn'. congruence. }
  rewrite Hm, (validated_health_perm _ _ _ _ Hhs Hm).
  rewrite (sorted_by_unique c_candidate_id String.le cs cs') by done.
  assert (candidate_by_id cs' = candidate_by_id cs) as ->.
  { symmetry. apply list_to_map_proper; [by rewrite <-list_fmap_compose|].
    apply (fmap_Permutation (λ c, (c_candidate_id c, c))). done. }
  assert (NoDup (map h_candidate_id hs)) as Hnh by (by apply validated_health_ok in Hm as [? _]).
  by rewrite (sorted_by_unique h_candidate_id String.le hs hs').
Qed.
End selection.

(** ** Bounds and totality *)

(** The codes [_evaluate_candidate] can add. *)
Definition rejection_codes : list string :=
  ["health_snapshot_missing"; "candidate_disabled"; "capability_mismatch";
   "channel_not_allowed"; "candidate_not_allowed"; "candidate_denied";
   "candidate_risk_unsupported"; "policy_risk_exceeded";
   "candidate_data_classification_unsupported"; "policy_data_classification_exceeded";
   "verification_level_unsupported"; "cost_limit_exceeded"; "latency_limit_exceeded";
   "reliability_below_minimum"; "circuit_open"; "approval_required"].

Lemma elem_of_reason x b r : x ∈ reason b r → x = r.
Proof. destruct b; simpl; set_solver. Qed.

Lemma gate_reasons_codes request c health policy x :
  x ∈ gate_reasons request c health policy → x ∈ rejection_codes.
Proof.
  unfold gate_reasons. destruct (health_view c health) as [[? ?] ?].
  rewrite !elem_of_app. intros Hx. unfold rejection_codes.
  repeat (destruct Hx as [Hx%elem_of_reason|Hx]; [subst; set_solver|]).
  apply elem_of_reason in Hx. subst. set_solver.
Qed.

Lemma inverse_score_bounds value maximum :
  0 ≤ value → 0 ≤ maximum → 0 ≤ inverse_score value maximum ≤ 10000.
Proof.
  intros Hv Hm. unfold inverse_score.
  destruct (Z.eqb_spec maximum 0); [destruct (value =? 0); lia|].
  pose proof (Z.div_pos (value * 10000) maximum). lia.
Qed.

Lemma effective_success_bounds c h :
  0 ≤ c_baseline_success_bps c ≤ 10000 → 1 ≤ c_baseline_sample_weight c →
  0 ≤ h_success_count h ≤ h_sample_count h →
  0 ≤ effective_success c h ≤ 10000.
Proof.
  intros Hb Hw Hs. unfold effective_success.
  destruct (Z.eqb_spec (h_sample_count h) 0); [lia|]. split.
  - apply Z.div_pos; nia.
  - apply Z.div_le_upper_bound; nia.
Qed.

Lemma weighted_score_bounds policy s l k :
  0 ≤ s ≤ 10000 → 0 ≤ l ≤ 10000 → 0 ≤ k ≤ 10000 →
  validate_weights (p_weights policy) = Ok () →
  0 ≤ weighted_score policy s l k ≤ 10000.
Proof.
  intros Hs Hl Hk Hw. unfold validate_weights in Hw.
  rewrite raise_if_then, raise_if_ok, negb_false_iff, !andb_true_iff, !between_true in Hw.
  destruct Hw as [[[? ?] ?] ?%Z.leb_gt]. unfold weighted_score. split.
  - apply Z.div_pos; nia.
  - apply Z.div_le_upper_bound; nia.
Qed.

Section totality.
Context `{Sha256Laws, FloatRepr}.

(** The health of a candidate, when there is one, is a validated snapshot. *)
Definition health_valid (health : option RouteHealthSnapshot) : Prop :=
  ∀ h, health = Some h → validate_counts h = Ok ().

Lemma validate_counts_bounds h :
  validate_counts h = Ok () →
  0 ≤ h_success_count h ≤ h_sample_count h ∧
  (∀ p, h_p95_latency_ms h = Some p → 0 ≤ p ≤ 86400000) ∧ Name_ok (h_candidate_id h) = true.
Proof.
  unfold validate_counts, health_fields_ok. rewrite !raise_if_then, !negb_false_iff, !andb_true_iff,
    !between_true, Z.eqb_eq. intros (Hf & Ht & _). destruct_and! Hf.
  split_and!; try lia; [|done]. intros p Hp. rewrite Hp in *. simpl in *.
  by rewrite between_true in *.
Qed.

Lemma health_view_bounds c health status success latency :
  candidate_fields_ok c = true → health_valid health →
  health_view c health = (status, success, latency) →
  0 ≤ success ≤ 10000 ∧ 0 ≤ latency ≤ 86400000.
Proof.
  unfold candidate_fields_ok. rewrite !andb_true_iff, !between_true. intros Hc Hh.
  destruct_and! Hc. destruct health as [h|]; simpl; intros [= <- <- <-]; [|lia].
  destruct (validate_counts_bounds h) as (Hs & Hp & _); [by apply Hh|].
  split; [apply effective_success_bounds; lia|]. unfold effective_latency.
  destruct (h_p95_latency_ms h) as [p|] eqn:E; [|lia].
  specialize (Hp p eq_refl). destruct (p =? 0); lia.
Qed.

Lemma policy_fields policy :
  validate_policy policy = Ok () → policy_fields_ok policy = true.
Proof. unfold validate_policy. rewrite raise_if_then, negb_false_iff. tauto. Qed.

Lemma candidate_fields c :
  validate_candidate c = Ok () → candidate_fields_ok c = true.
Proof. unfold validate_candidate. rewrite raise_if_then, negb_false_iff. tauto. Qed.

(** For a validated candidate, policy and health snapshot, constructing the
    evaluation never raises: effective values and all four scores stay within
    0..10000 basis points, and the rejection codes fit their field. *)
Theorem evaluate_candidate_total request hs policy c :
  validate_candidate c = Ok () → validate_policy policy = Ok () →
  health_valid (hs !! c_candidate_id c) →
  ∃ e, evaluate_candidate request hs policy c = Ok e.
Proof.
  intros Hc%candidate_fields Hp%policy_fields Hh. unfold evaluate_candidate.
  destruct (health_view c _) as [[status success] latency] eqn:Hv.
  destruct (health_view_bounds _ _ _ _ _ Hc Hh Hv) as [Hs Hl].
  set (e := match gate_reasons _ _ _ _ with [] => _ | _ => _ end).
  enough (validate_evaluation e = Ok ()) as -> by (simpl; eauto).
  unfold candidate_fields_ok in Hc. rewrite !andb_true_iff, !between_true in Hc.
  unfold policy_fields_ok in Hp. rewrite !andb_true_iff, !between_true in Hp.
  destruct_and! Hc. destruct_and! Hp.
  unfold validate_evaluation, evaluation_fields_ok.
  rewrite !raise_if_then, raise_if_ok, negb_false_iff, !andb_true_iff, has_duplicates_false.
  subst e. destruct (gate_reasons request c _ policy) as [|r rs] eqn:Hg.
  - simpl. rewrite !between_true.
    assert (validate_weights (p_weights policy) = Ok ()) as Hw
      by (by destruct (validate_weights _) as [[]|]).
    pose proof (inverse_score_bounds latency (p_maximum_latency_ms policy)).
    pose proof (inverse_score_bounds (c_cost_micros c) (p_maximum_cost_micros policy)).
    pose proof (λ s l k Hs Hl Hk, weighted_score_bounds policy s l k Hs Hl Hk Hw) as Hws.
    split_and!; auto using NoDup_nil_2; try lia; apply Hws; lia.
  - simpl. rewrite !between_true, orb_false_r, bool_decide_eq_false, sorted_set_nil.
    split_and!; auto using sorted_set_NoDup; try lia.
    + apply forallb_elem. intros x. rewrite sorted_set_elem, <-Hg.
      intros Hx%gate_reasons_codes.
      assert (forallb Name_ok rejection_codes = true) as Hall by done.
      rewrite forallb_elem in Hall. auto.
    + apply Z.leb_le.
      assert (length (sorted_set (r :: rs)) ≤ length rejection_codes)%nat
        by (apply sorted_set_length; rewrite <-Hg; apply gate_reasons_codes).
      change (length rejection_codes) with 16%nat in *. lia.
Qed.

(** The inputs the planner supplies: validated records, at most 16 candidates, and one
    health snapshot per listed candidate, taken for this request. *)
Record valid_inputs (request : RoutingRequest) (cs : list RouteCandidate)
    (hs : list RouteHealthSnapshot) (policy : RoutingPolicy) : Prop := {
  vi_count : (length cs ≤ 16)%nat;
  vi_ids : NoDup (map c_candidate_id cs);
  vi_candidates : Forall (λ c, validate_candidate c = Ok ()) cs;
  vi_policy : validate_policy policy = Ok ();
  vi_health_ids : NoDup (map h_candidate_id hs);
  vi_health_identity : Forall (health_identity request) hs;
  vi_health : Forall (λ h, validate_counts h = Ok ()) hs;
  vi_health_known : ∀ i, i ∈ map h_candidate_id hs → i ∈ map c_candidate_id cs }.

(** The health the engine associates with a candidate. *)
Definition health_of (hs : list RouteHealthSnapshot) (c : RouteCandidate)
    : option RouteHealthSnapshot := foldl insert_health ∅ hs !! c_candidate_id c.

Lemma valid_inputs_health request cs hs policy :
  valid_inputs request cs hs policy →
  validated_health request hs = Ok (foldl insert_health ∅ hs) ∧
  ∀ i, health_valid (foldl insert_health ∅ hs !! i).
Proof.
  intros []. split; [by apply validated_health_ok|]. intros i h Hi.
  apply foldl_insert_health_lookup in Hi; [|done]. rewrite lookup_empty in Hi.
  destruct Hi as [[Hin _]|[? _]]; [|done]. rewrite Forall_forall in vi_health0. auto.
Qed.

Lemma valid_inputs_evaluations request cs hs policy :
  valid_inputs request cs hs policy →
  ∃ evals, mapM_result (evaluate_candidate request (foldl insert_health ∅ hs) policy)
             (sorted_by c_candidate_id String.le cs) = Ok evals.
Proof.
  intros Hvi. pose proof (valid_inputs_health _ _ _ _ Hvi) as [_ Hh]. destruct Hvi.
  assert (Forall (λ c, validate_candidate c = Ok ()) (sorted_by c_candidate_id String.le cs))
    as Hall by (by rewrite sorted_by_perm).
  induction Hall as [|c l Hc Hall IH]; simpl; [eauto|].
  destruct (evaluate_candidate_total request (foldl insert_health ∅ hs) policy c) as [e ->];
    auto. simpl. destruct IH as [evals ->]. simpl. eauto.
Qed.

Lemma max_length_true {A} n (l : list A) : max_length n l = true ↔ Z.of_nat (length l) ≤ n.
Proof. unfold max_length. apply Z.leb_le. Qed.

(** The fallbacks are a sublist of the ranking after the selected route. *)
Lemma fallback_ids_sublist request policy by_id first rest :
  fallback_ids request policy by_id (first :: rest) `sublist_of` rest.
Proof.
  unfold fallback_ids. destruct (is_read_only _); [|apply sublist_nil_l].
  etrans; [apply sublist_take|]. apply sublist_filter.
Qed.

Lemma validate_decision_intro d first rest :
  decision_fields_ok d = true →
  NoDup (map e_candidate_id (d_evaluations d)) →
  NoDup (map h_candidate_id (d_health_snapshots d)) →
  (∀ i, i ∈ map h_candidate_id (d_health_snapshots d) → i ∈ map e_candidate_id (d_evaluations d)) →
  Forall (health_identity (d_request d)) (d_health_snapshots d) →
  d_ranked_candidate_ids d = first :: rest → NoDup (first :: rest) →
  (∀ i, i ∈ first :: rest ↔ i ∈ eligible_ids (d_evaluations d)) →
  d_selected_candidate_id d = first →
  d_fallback_candidate_ids d `sublist_of` rest →
  d_decision_digest d = value_digest (decision_json d) →
  validate_decision d = Ok ().
Proof.
  intros Hf Hne Hnh Hhe Hid Hr Hnr Hel Hsel Hfb Hdig. unfold validate_decision.
  rewrite Hr, !raise_if_then, bind_ok. setoid_rewrite raise_if_then.
  setoid_rewrite raise_if_ok. rewrite !negb_false_iff, !has_duplicates_false, andb_true_iff,
    !forallb_elem, existsb_elem_false.
  split_and!; auto.
  - intros i. rewrite mem_true. apply Hhe.
  - intros h Hh. rewrite Forall_forall in Hid. destruct (Hid h Hh) as [-> ->].
    by rewrite bool_decide_eq_true_2, Z.eqb_refl by done.
  - intros i. rewrite mem_true, Hel. done.
  - intros i. rewrite mem_true, Hel. done.
  - exists (). rewrite raise_if_ok, !negb_false_iff, !bool_decide_eq_true.
    split_and!; auto. apply NoDup_cons in Hnr as [_ Hnr]. by apply filter_sublist_NoDup.
Qed.

Lemma names_of_candidates cs i :
  Forall (λ c, validate_candidate c = Ok ()) cs → i ∈ map c_candidate_id cs → Name_ok i = true.
Proof.
  rewrite Forall_forall. intros Hall (c & -> & Hc)%list_elem_of_fmap.
  apply Hall, candidate_fields in Hc. unfold candidate_fields_ok in Hc.
  rewrite !andb_true_iff in Hc. tauto.
Qed.

Lemma NoDup_length_le {A} (l k : list A) :
  NoDup l → (∀ x, x ∈ l → x ∈ k) → (length l ≤ length k)%nat.
Proof. intros. by apply submseteq_length, NoDup_submseteq. Qed.

(** The field constraints of a decision over validated inputs. *)
Lemma selection_fields_ok request cs hs policy evals first rest digest :
  valid_inputs request cs hs policy →
  map e_candidate_id evals ≡ₚ map c_candidate_id cs →
  NoDup (first :: rest) → (∀ i, i ∈ first :: rest → i ∈ map c_candidate_id cs) →
  Digest_ok digest = true →
  decision_fields_ok
    {| d_request := request; d_policy_id := p_policy_id policy;
       d_policy_version := p_version policy; d_policy_digest := p_policy_digest policy;
       d_health_snapshots := sorted_by h_candidate_id String.le hs;
       d_evaluations := evals; d_ranked_candidate_ids := first :: rest;
       d_selected_candidate_id := first;
       d_fallback_candidate_ids :=
         fallback_ids request policy (candidate_by_id cs) (first :: rest);
       d_decision_digest := digest |} = true.
Proof.
  intros [] Hev Hnr Hin Hd. apply policy_fields in vi_policy0. unfold policy_fields_ok in vi_policy0.
  rewrite !andb_true_iff, !between_true in vi_policy0. destruct_and! vi_policy0.
  pose proof (fallback_ids_sublist request policy (candidate_by_id cs) first rest) as Hfb.
  assert (length evals = length cs) as Hlen
    by (apply Permutation_length in Hev; by rewrite !length_map in Hev).
  pose proof (NoDup_length_le _ _ vi_health_ids0 vi_health_known0) as Hlh.
  pose proof (NoDup_length_le _ _ Hnr Hin) as Hlr.
  pose proof (sublist_length _ _ Hfb). rewrite !length_map in *.
  assert (first ∈ map c_candidate_id cs) as Hfirst by (apply Hin; left).
  unfold decision_fields_ok. cbn -[max_length].
  rewrite !andb_true_iff, !max_length_true, negb_true_iff, bool_decide_eq_false, !forallb_elem.
  rewrite (Permutation_length (sorted_by_perm _ _ hs)). cbn [length] in *.
  split_and!; auto; try lia.
  - by eapply names_of_candidates.
  - intros i Hi. eapply names_of_candidates; eauto. apply Hin. by right.
  - by eapply names_of_candidates.
  - intros i Hi. eapply names_of_candidates; eauto. apply Hin. right.
    by eapply elem_of_sublist.
Qed.

(** The decision built by [select_route] passes its own validator. *)
Lemma selection_decision_valid request cs hs policy evals ranked first rest :
  valid_inputs request cs hs policy →
  mapM_result (evaluate_candidate request (foldl insert_health ∅ hs) policy)
    (sorted_by c_candidate_id String.le cs) = Ok evals →
  ranked = sorted_by (rank_key (candidate_by_id cs)) rank_le
             (filter (λ e, e_eligible e = true) evals) →
  map e_candidate_id ranked = first :: rest →
  is_ok (issue_decision
    {| d_request := request; d_policy_id := p_policy_id policy;
       d_policy_version := p_version policy; d_policy_digest := p_policy_digest policy;
       d_health_snapshots := sorted_by h_candidate_id String.le hs;
       d_evaluations := evals; d_ranked_candidate_ids := first :: rest;
       d_selected_candidate_id := first;
       d_fallback_candidate_ids :=
         fallback_ids request policy (candidate_by_id cs) (first :: rest);
       d_decision_digest := EmptyString |}) = true.
Proof.
  intros Hvi (Hids & _ & _)%evaluate_all_ok Hr Hfr.
  unfold issue_decision. set (d := set_decision_digest _ _).
  enough (validate_decision d = Ok ()) as -> by done.
  assert (map e_candidate_id evals ≡ₚ map c_candidate_id cs) as Hev.
  { by rewrite Hids, (sorted_by_perm c_candidate_id String.le). }
  assert (NoDup (map e_candidate_id evals)) as Hne by (rewrite Hev; apply Hvi).
  assert (eligible_ids evals ≡ₚ first :: rest) as Hel.
  { rewrite <-Hfr, Hr. by rewrite (sorted_by_perm (rank_key (candidate_by_id cs)) rank_le). }
  assert (eligible_ids evals `sublist_of` map e_candidate_id evals) as Hsub
    by apply (fmap_sublist e_candidate_id), sublist_filter.
  assert (NoDup (first :: rest)) as Hnr by (rewrite <-Hel; by eapply sublist_NoDup).
  assert (∀ i, i ∈ first :: rest → i ∈ map c_candidate_id cs) as Hin.
  { intros i. rewrite <-Hel, <-Hev. intros Hi. by eapply elem_of_sublist. }
  apply (validate_decision_intro d first rest); try done; subst d; simpl.
  - by apply selection_fields_ok, value_digest_ok.
  - rewrite (sorted_by_perm h_candidate_id String.le). apply Hvi.
  - intros i. rewrite (sorted_by_perm h_candidate_id String.le), Hev. apply Hvi.
  - rewrite (sorted_by_perm h_candidate_id String.le). apply Hvi.
  - intros i. by rewrite Hel.
  - apply fallback_ids_sublist.
Qed.

(** The two outcomes on validated inputs. *)
Lemma select_route_outcomes request cs hs policy :
  valid_inputs request cs hs policy →
  (∃ c, c ∈ cs ∧ admissible request policy (health_of hs c) c) ∧
    (∃ d, select_route request cs hs policy = Ok d) ∨
  (∀ c, c ∈ cs → ¬ admissible request policy (health_of hs c) c) ∧
    select_route request cs hs policy = Err NoEligibleRoute.
Proof.
  intros Hvi. pose proof (valid_inputs_health _ _ _ _ Hvi) as [Hm _].
  destruct (valid_inputs_evaluations _ _ _ _ Hvi) as [evals Hev].
  pose proof Hev as (_ & Hsound & Hcomplete)%evaluate_all_ok.
  set (ranked := sorted_by (rank_key (candidate_by_id cs)) rank_le
                   (filter (λ e, e_eligible e = true) evals)).
  assert (select_route request cs hs policy = match map e_candidate_id ranked with
    [] => Err NoEligibleRoute | _ => select_route request cs hs policy end) as E.
  { unfold select_route. rewrite Hm. cbn [mbind result_bind]. rewrite Hev. cbn [mbind result_bind]. fold ranked.
    destruct Hvi. rewrite (proj2 (has_duplicates_false _)) by done.
    rewrite (proj2 (Z.ltb_ge _ _)) by lia.
    destruct (map e_candidate_id ranked) eqn:Hr; [|done].
    by destruct (bool_decide _). }
  destruct (map e_candidate_id ranked) as [|first rest] eqn:Hfr.
  - right. split; [|done]. intros c Hc Ha.
    destruct (Hcomplete c) as (e & He & Hce); [by rewrite sorted_by_elem|].
    pose proof Hce as (_ & Hel & _)%evaluate_candidate_ok. apply Hel in Ha.
    assert (e ∈ ranked) as Hin by (apply sorted_by_elem, list_elem_of_filter; auto).
    apply (list_elem_of_fmap_2 e_candidate_id) in Hin. unfold fmap in Hin.
    change (list_fmap _ _ e_candidate_id ranked) with (map e_candidate_id ranked) in Hin.
    rewrite Hfr in Hin. by apply elem_of_nil in Hin.
  - left. pose proof (selection_decision_valid _ _ _ _ _ ranked _ _ Hvi Hev eq_refl Hfr) as Hd.
    assert (∃ e, e ∈ ranked) as [e He].
    { destruct ranked as [|e l]; [done|]. exists e. left. }
    split.
    + apply sorted_by_elem, list_elem_of_filter in He as [Hel He].
      apply Hsound in He as (c & Hc & Hce). exists c. rewrite sorted_by_elem in Hc.
      split; [done|]. by apply evaluate_candidate_ok in Hce as (_ & Ha & _); apply Ha.
    + unfold select_route. rewrite Hm. cbn [mbind result_bind]. rewrite Hev. cbn [mbind result_bind]. fold ranked. rewrite Hfr.
      destruct Hvi. rewrite (proj2 (has_duplicates_false _)) by done.
      rewrite (proj2 (Z.ltb_ge _ _)) by lia. cbn [raise_if mbind result_bind].
      destruct (issue_decision _) as [d|]; [|done]. exists d.
      destruct (bool_decide (length cs = 0%nat)) eqn:Hz; [|done].
      boolify. destruct cs; [|done]. destruct evals; [done|].
      pose proof Hev as (Hids & _)%evaluate_all_ok. done.
Qed.

(** On validated inputs [select_route] is total: it returns a decision when some
    candidate is admissible and raises [NoEligibleRoute] when none is; no internal
    validation of the evaluations or of the decision can fail. *)
Theorem select_route_total request cs hs policy :
  valid_inputs request cs hs policy →
  (∃ c, c ∈ cs ∧ admissible request policy (health_of hs c) c) ∧
    (∃ d, select_route request cs hs policy = Ok d) ∨
  (∀ c, c ∈ cs → ¬ admissible request policy (health_of hs c) c) ∧
    select_route request cs hs policy = Err NoEligibleRoute.
Proof. apply select_route_outcomes. Qed.
End totality.

(** ** Witnesses: the synthetic tracking routes *)

#[local] Existing Instance example_sha256.
#[local] Existing Instance example_float_repr.

Definition ex_request : RoutingRequest := {|
  rq_tenant_id := "tenant-a"; rq_capability := "shipment.track.read";
  rq_risk_class := READ_ONLY; rq_data_classification := INTERNAL;
  rq_required_verification_level := L2; rq_evaluated_at := 1000000000 |}.

Definition ex_health (candidate_id : string) : RouteHealthSnapshot := {|
  h_tenant_id := "tenant-a"; h_candidate_id := candidate_id; h_evaluated_at := 1000000000;
  h_status := UNKNOWN; h_sample_count := 0; h_success_count := 0;
  h_retryable_failure_count := 0; h_terminal_failure_count := 0; h_consecutive_failures := 0;
  h_observed_success_bps := None; h_p95_latency_ms := None; h_last_outcome_at := None;
  h_circuit_open_until := None |}.

Definition ex_candidates : list RouteCandidate :=
  match synthetic_api, synthetic_browser with Ok a, Ok b => [b; a] | _, _ => [] end.
Definition ex_snapshots : list RouteHealthSnapshot :=
  [ex_health "synthetic.browser.track"; ex_health "synthetic.api.track"].
Definition ex_default_policy : RoutingPolicy := {|
  p_policy_id := ""; p_version := ""; p_allowed_channels := []; p_allowed_candidate_ids := [];
  p_denied_candidate_ids := []; p_minimum_success_bps := 0; p_maximum_latency_ms := 0;
  p_maximum_cost_micros := 0; p_maximum_risk_class := READ_ONLY;
  p_maximum_data_classification := PUBLIC; p_minimum_verification_level := L0;
  p_approval_required_at_or_above := None; p_minimum_history_samples := 0;
  p_history_window_size := 0; p_circuit_failure_threshold := 0;
  p_circuit_cooldown_seconds := 0; p_maximum_fallbacks := 0;
  p_weights := {| w_reliability := 0; w_latency := 0; w_cost := 0 |}; p_policy_digest := "" |}.
Definition ex_policy : RoutingPolicy :=
  match synthetic_policy with Ok p => p | Err _ => ex_default_policy end.

Example ex_decision_ids :
  (λ d, (d_selected_candidate_id d, d_fallback_candidate_ids d)) <$>
    select_route ex_request ex_candidates ex_snapshots ex_policy
  = Ok ("synthetic.api.track", ["synthetic.browser.track"]).
Proof. vm_compute. reflexivity. Qed.

Lemma select_route_best_witness : ∃ d,
  select_route ex_request ex_candidates ex_snapshots ex_policy = Ok d ∧
  ∃ m c, validated_health ex_request ex_snapshots = Ok m ∧ c ∈ ex_candidates ∧
    d_selected_candidate_id d = c_candidate_id c ∧
    admissible ex_request ex_policy (m !! c_candidate_id c) c ∧
    ∀ c', c' ∈ ex_candidates → admissible ex_request ex_policy (m !! c_candidate_id c') c' →
      rank_le (candidate_key ex_policy (m !! c_candidate_id c) c)
              (candidate_key ex_policy (m !! c_candidate_id c') c').
Proof. eexists. split; [|eapply select_route_best]; vm_compute; reflexivity. Defined.

Lemma select_route_fallbacks_safe_witness : ∃ d,
  select_route ex_request ex_candidates ex_snapshots ex_policy = Ok d ∧
  d_fallback_candidate_ids d ≠ [] ∧
  (d_fallback_candidate_ids d ≠ [] → rq_risk_class ex_request = READ_ONLY).
Proof.
  eexists. split; [vm_compute; reflexivity|]. split; [done|].
  eapply (select_route_fallbacks_safe _ ex_candidates ex_snapshots ex_policy).
  vm_compute; reflexivity.
Defined.

Lemma select_route_order_independent_witness : ∃ d,
  select_route ex_request ex_candidates ex_snapshots ex_policy = Ok d ∧
  select_route ex_request (reverse ex_candidates) (reverse ex_snapshots) ex_policy = Ok d.
Proof.
  eexists. split; [vm_compute; reflexivity|].
  eapply (select_route_order_independent _ ex_candidates _ ex_snapshots);
    [by rewrite reverse_Permutation..|]. vm_compute; reflexivity.
Defined.

Lemma evaluate_candidate_total_witness :
  Forall (λ c, ∃ e, evaluate_candidate ex_request (foldl insert_health ∅ ex_snapshots)
                      ex_policy c = Ok e) ex_candidates.
Proof.
  repeat constructor; (apply evaluate_candidate_total; [vm_compute; reflexivity..|]);
    intros h Hh; vm_compute in Hh; injection Hh as <-; vm_compute; reflexivity.
Defined.

Lemma ex_valid_inputs : valid_inputs ex_request ex_candidates ex_snapshots ex_policy.
Proof.
  split.
  - vm_compute. lia.
  - apply (bool_decide_unpack _). vm_compute. exact I.
  - repeat constructor.
  - vm_compute. reflexivity.
  - apply (bool_decide_unpack _). vm_compute. exact I.
  - repeat constructor.
  - repeat constructor.
  - apply (proj1 (Forall_forall (λ i, i ∈ map c_candidate_id ex_candidates) _)).
    apply (bool_decide_unpack _). vm_compute. exact I.
Qed.

Lemma select_route_total_witness :
  let sr := select_route ex_request ex_candidates ex_snapshots ex_policy in
  (∃ c, c ∈ ex_candidates ∧ admissible ex_request ex_policy (health_of ex_snapshots c) c) ∧
    (∃ d, sr = Ok d) ∨
  (∀ c, c ∈ ex_candidates → ¬ admissible ex_request ex_policy (health_of ex_snapshots c) c) ∧
    sr = Err NoEligibleRoute.
Proof.
  pose proof example_sha256_laws as Hlaws.
  exact (select_route_total ex_request ex_candidates ex_snapshots ex_policy ex_valid_inputs).
Defined.
