(* ===== verification/Ledger.v ===== *)
(** * Append-only keyed ledgers

    The interface the route-outcome store (routing/store.py) and the evidence store
    (verification/store.py) share: rows with a two-part primary key and a content digest,
    looked up before every insert and never updated or deleted.  The stores instantiate
    [KeyedRow]; the lemmas here are about any of them. *)

From S2P Require Import Prelude.

(** A row type with its primary key and its digest column. *)
Class KeyedRow (R : Type) := {
  row_key : R → string * string;
  row_digest : R → string }.

Section ledger.
Context {R : Type} `{KeyedRow R}.

(** [SELECT ... WHERE tenant_id=? AND id=?], [fetchone]. *)
Definition find_row (key : string * string) (rows : list R) : option R :=
  snd <$> list_find (λ r, row_key r = key) rows.

(** The primary key constraint. *)
Definition keyed (rows : list R) : Prop := NoDup (map row_key rows).

(** What an insert-or-replay of [r] does to the rows. *)
Inductive put (r : R) (rows : list R) : list R → R → Prop :=
| put_insert : find_row (row_key r) rows = None → put r rows (rows ++ [r]) r
| put_replay r' : find_row (row_key r) rows = Some r' → row_digest r' = row_digest r →
    put r rows rows r'.

Lemma find_row_Some key rows r : find_row key rows = Some r → r ∈ rows ∧ row_key r = key.
Proof.
  unfold find_row. rewrite fmap_Some. intros ([k r'] & Hf & ->).
  apply list_find_Some in Hf as (H1 & H2 & _). simpl. split; [|done].
  by eapply list_elem_of_lookup_2.
Qed.

Lemma find_row_None key rows : find_row key rows = None → key ∉ map row_key rows.
Proof.
  unfold find_row. rewrite fmap_None, list_find_None, Forall_forall.
  intros Hf (r & E & Hr)%list_elem_of_fmap. by apply (Hf r).
Qed.

Lemma find_row_unique key rows r :
  keyed rows → r ∈ rows → row_key r = key → find_row key rows = Some r.
Proof.
  intros Hn Hr Hk. destruct (find_row key rows) as [r'|] eqn:E.
  - apply find_row_Some in E as [Hr' Hk']. f_equal.
    apply list_elem_of_lookup in Hr as [n Hn1], Hr' as [n' Hn2].
    assert (n = n') as ->; [|congruence].
    eapply (NoDup_lookup (row_key <$> rows)); [done| |];
      rewrite list_lookup_fmap, ?Hn1, ?Hn2; simpl; [by rewrite Hk|by rewrite Hk'].
  - apply find_row_None in E. exfalso. apply E. rewrite <-Hk.
    by apply (list_elem_of_fmap_2 row_key).
Qed.

Lemma put_prefix r rows rows' r' : put r rows rows' r' → rows `prefix_of` rows'.
Proof. destruct 1; [by apply prefix_app_r|done]. Qed.

Lemma put_keyed r rows rows' r' : keyed rows → put r rows rows' r' → keyed rows'.
Proof.
  intros Hn. destruct 1 as [Hf|]; [|done]. unfold keyed. rewrite map_app. apply NoDup_app.
  split_and!; [done| |apply NoDup_singleton].
  intros k Hk ->%list_elem_of_singleton. by apply find_row_None in Hf.
Qed.

(** After a put the key maps to the returned row, which carries the digest. *)
Lemma put_found r rows rows' r' :
  keyed rows → put r rows rows' r' →
  find_row (row_key r) rows' = Some r' ∧ row_digest r' = row_digest r.
Proof.
  intros Hn Hp. pose proof (put_keyed _ _ _ _ Hn Hp) as Hn'. destruct Hp as [Hf|r' Hf Hd]; [|done].
  split; [|done]. apply find_row_unique; [done|set_solver|done].
Qed.

(** A found row stays found while rows are only appended. *)
Lemma find_row_prefix key rows rows' r :
  keyed rows' → rows `prefix_of` rows' → find_row key rows = Some r → find_row key rows' = Some r.
Proof.
  intros Hn [k ->] [Hr Hk]%find_row_Some. apply find_row_unique; [done|set_solver|done].
Qed.

End ledger.
