(* ===== verification/RouteStore.v ===== *)
(** * Route outcome ledger and health aggregation (routing/store.py)

    The SQLite table is the list of its rows in insertion order; the primary key
    (tenant_id, event_id) is enforced by the lookup that precedes every insert, and the
    triggers forbid updates and deletes.  A row's [outcome_json] decodes to the outcome
    it was written from.  [isoformat()] texts in UTC have a fixed width up to the seconds
    and then ['+'], which sorts before the ['.'] of a fraction, so they order like the
    instants they denote and [ORDER BY occurred_at] is modelled on the instants. *)

From S2P Require Import Prelude.
From S2P Require Import Contracts.
From S2P Require Import Routing.
From S2P Require Import Ledger.

Inductive RouteStoreError :=
| RouteOutcomeConflict
| RouteOutcomeStoreError (code : string)
| HealthSnapshotInvalid (message : string)
| LatencyIndexError.

Record OutcomeStore := { os_closed : bool; os_rows : list RouteOutcome }.

Definition outcome_key (o : RouteOutcome) : string * string := (o_tenant_id o, o_event_id o).

Definition ensure_open (s : OutcomeStore) : result RouteStoreError () :=
  raise_if (os_closed s) (RouteOutcomeStoreError "store_closed").

#[export] Instance outcome_row : KeyedRow RouteOutcome :=
  {| row_key := outcome_key; row_digest := o_outcome_digest |}.

Definition find_outcome (tenant_id event_id : string) (rows : list RouteOutcome)
    : option RouteOutcome := find_row (tenant_id, event_id) rows.

(** [SQLiteRouteOutcomeStore.append]. *)
Definition append_body (outcome : RouteOutcome) (s : OutcomeStore)
    : result RouteStoreError (OutcomeStore * RouteOutcome) :=
  ensure_open s;;
  match find_outcome (o_tenant_id outcome) (o_event_id outcome) (os_rows s) with
  | Some row =>
      raise_if (negb (bool_decide (o_outcome_digest row = o_outcome_digest outcome)))
        RouteOutcomeConflict;;
      Ok (s, row)
  | None => Ok ({| os_closed := os_closed s; os_rows := os_rows s ++ [outcome] |}, outcome)
  end.

Definition append (outcome : RouteOutcome) : OutcomeStore → OutcomeStore * result RouteStoreError RouteOutcome :=
  transact (append_body outcome).

(** [get]. *)
Definition get (s : OutcomeStore) (tenant_id event_id : string)
    : result RouteStoreError (option RouteOutcome) :=
  ensure_open s;; Ok (find_outcome tenant_id event_id (os_rows s)).

(** [ORDER BY occurred_at DESC, event_id DESC]. *)
Definition recent_key (o : RouteOutcome) : Z * string := (o_occurred_at o, o_event_id o).
Definition recent_first : relation (Z * string) := flip (lex Z.le String.le).

#[export] Instance recent_first_dec : RelDecision recent_first.
Proof. intros x y. unfold recent_first, flip. apply _. Defined.

(** [replay]. *)
Definition replay (s : OutcomeStore) (tenant_id : string) (candidate : RouteCandidate) (limit : Z)
    : result RouteStoreError (list RouteOutcome) :=
  ensure_open s;;
  Ok (take (Z.to_nat (Z.max 0 limit))
       (sorted_by recent_key recent_first
         (filter (λ o, o_tenant_id o = tenant_id ∧ o_candidate_id o = c_candidate_id candidate)
           (os_rows s)))).

(** [sum(x.kind is k for x in outcomes)]. *)
Definition count_kind (k : RouteOutcomeKind) (outcomes : list RouteOutcome) : Z :=
  Z.of_nat (length (filter (λ o, o_kind o = k) outcomes)).

(** The loop that counts failures up to the most recent success. *)
Fixpoint consecutive_failures (outcomes : list RouteOutcome) : Z :=
  match outcomes with
  | [] => 0
  | o :: rest => if is_success (o_kind o) then 0 else 1 + consecutive_failures rest
  end.

(** [latencies[(len(latencies) * 95 + 99) // 100 - 1]]. *)
Definition p95_index (n : Z) : Z := (n * 95 + 99) / 100 - 1.
Definition p95_latency (outcomes : list RouteOutcome) : option Z :=
  merge_sort Z.le (map o_latency_ms outcomes)
    !! Z.to_nat (p95_index (Z.of_nat (length outcomes))).

(** The status chosen by [health_snapshot]. *)
Definition health_status (policy : RoutingPolicy) (outcomes : list RouteOutcome)
    (expiry evaluated_at : Z) : RouteHealthStatus :=
  if Z.of_nat (length outcomes) <? p_minimum_history_samples policy then UNKNOWN
  else if (p_circuit_failure_threshold policy <=? consecutive_failures outcomes)
          && (evaluated_at <? expiry) then UNAVAILABLE
  else if negb (count_kind RETRYABLE_FAILURE outcomes =? 0)
          || negb (count_kind TERMINAL_FAILURE outcomes =? 0) then DEGRADED
  else HEALTHY.

(** [RouteHealthSnapshot(...)] validates. *)
Definition make_snapshot (h : RouteHealthSnapshot) : result RouteStoreError RouteHealthSnapshot :=
  match validate_counts h with Ok _ => Ok h | Err m => Err (HealthSnapshotInvalid m) end.

(** The aggregation of the replayed outcomes in [health_snapshot]. *)
Definition aggregate (tenant_id : string) (candidate : RouteCandidate) (policy : RoutingPolicy)
    (evaluated_at : Z) (outcomes : list RouteOutcome) : result RouteStoreError RouteHealthSnapshot :=
  match outcomes with
  | [] =>
      make_snapshot {|
        h_tenant_id := tenant_id; h_candidate_id := c_candidate_id candidate;
        h_evaluated_at := evaluated_at; h_status := UNKNOWN; h_sample_count := 0;
        h_success_count := 0; h_retryable_failure_count := 0; h_terminal_failure_count := 0;
        h_consecutive_failures := 0; h_observed_success_bps := None;
        h_p95_latency_ms := None; h_last_outcome_at := None; h_circuit_open_until := None |}
  | latest :: _ =>
      match p95_latency outcomes with
      | None => Err LatencyIndexError
      | Some p95 =>
          let sample := Z.of_nat (length outcomes) in
          let success := count_kind SUCCESS outcomes in
          let last := o_occurred_at latest in
          let expiry := last + seconds (p_circuit_cooldown_seconds policy) in
          let status := health_status policy outcomes expiry evaluated_at in
          make_snapshot {|
            h_tenant_id := tenant_id; h_candidate_id := c_candidate_id candidate;
            h_evaluated_at := evaluated_at; h_status := status; h_sample_count := sample;
            h_success_count := success;
            h_retryable_failure_count := count_kind RETRYABLE_FAILURE outcomes;
            h_terminal_failure_count := count_kind TERMINAL_FAILURE outcomes;
            h_consecutive_failures := consecutive_failures outcomes;
            h_observed_success_bps := Some (success * 10000 / sample);
            h_p95_latency_ms := Some p95; h_last_outcome_at := Some last;
            h_circuit_open_until := if is_status status UNAVAILABLE then Some expiry else None |}
      end
  end.

(** [health_snapshot]. *)
Definition health_snapshot (s : OutcomeStore) (tenant_id : string) (candidate : RouteCandidate)
    (policy : RoutingPolicy) (evaluated_at : Z) : result RouteStoreError RouteHealthSnapshot :=
  outcomes ← replay s tenant_id candidate (p_history_window_size policy);
  aggregate tenant_id candidate policy evaluated_at outcomes.

(** [close]. *)
Definition close (s : OutcomeStore) : OutcomeStore := {| os_closed := true; os_rows := os_rows s |}.

(** A history of appends. *)
Inductive step : OutcomeStore → OutcomeStore → Prop :=
| step_append s s' o r : append o s = (s', r) → step s s'
| step_close s : step s (close s).

Definition empty_store : OutcomeStore := {| os_closed := false; os_rows := [] |}.

(** ** Lemmas *)

Lemma append_cases o s s' r :
  append o s = (s', r) →
  (∃ o', r = Ok o' ∧ os_closed s = false ∧ os_closed s' = false ∧
     put o (os_rows s) (os_rows s') o') ∨
  (s' = s ∧ ∃ e, r = Err e).
Proof.
  unfold append, transact, append_body, ensure_open.
  destruct (os_closed s) eqn:Hc; simpl; [intros [= <- <-]; eauto|].
  destruct (find_outcome _ _ _) as [row|] eqn:Hf; simpl.
  - destruct (bool_decide _) eqn:Hd; simpl; intros [= <- <-]; [|eauto].
    boolify. left. exists row. split_and!; auto. by constructor.
  - intros [= <- <-]. left. exists o. split_and!; auto. by constructor.
Qed.

Lemma step_rows s s' :
  step s s' → keyed (os_rows s) → os_rows s `prefix_of` os_rows s' ∧ keyed (os_rows s').
Proof.
  intros Hs Hn. destruct Hs as [s s' o r Ha|s]; [|done].
  apply append_cases in Ha as [(o' & _ & _ & _ & Hp)|[-> _]]; [|done].
  split; [by eapply put_prefix|by eapply put_keyed].
Qed.

(** The ledger is append-only and keyed: along any history of operations the rows
    present stay, in order, at the front, and no two rows share tenant and event id. *)
Theorem outcome_ledger_append_only s s' :
  star step s s' → NoDup (map outcome_key (os_rows s)) →
  os_rows s `prefix_of` os_rows s' ∧ NoDup (map outcome_key (os_rows s')).
Proof.
  intros Hs. induction Hs as [|s1 s2 s3 H _ IH]; [done|]. intros Hn.
  assert (keyed (os_rows s1)) as Hk by exact Hn. destruct (step_rows _ _ H Hk) as [Hp Hn2].
  destruct (IH Hn2) as [Hp' Hn3]. split; [by etrans|done].
Qed.

(** Appending an outcome stores it or replays it: afterwards the key maps to a row
    with the outcome's digest, a repeat of the call returns that row and changes
    nothing, and the same event id with another digest is rejected as a conflict. *)
Theorem append_replay s o s' o' :
  append o s = (s', Ok o') → NoDup (map outcome_key (os_rows s)) →
  get s' (o_tenant_id o) (o_event_id o) = Ok (Some o') ∧
  o_outcome_digest o' = o_outcome_digest o ∧
  append o s' = (s', Ok o') ∧
  ∀ o2, outcome_key o2 = outcome_key o → o_outcome_digest o2 ≠ o_outcome_digest o →
    append o2 s' = (s', Err RouteOutcomeConflict).
Proof.
  intros H Hn. apply append_cases in H as [(o1 & [= <-] & _ & Hc & Hp)|(_ & ? & ?)]; [|done].
  assert (keyed (os_rows s)) as Hk by exact Hn. destruct (put_found _ _ _ _ Hk Hp) as [Hf Hd].
  change (find_row (row_key o) (os_rows s')) with
    (find_outcome (o_tenant_id o) (o_event_id o) (os_rows s')) in Hf. simpl in Hd.
  unfold get, append, transact, append_body, ensure_open. rewrite Hc. simpl. rewrite Hf. simpl.
  split_and!; [done|done|by rewrite bool_decide_eq_true_2|].
  intros o2 [= -> ->] Hne. rewrite Hf. simpl. by rewrite bool_decide_eq_false_2 by congruence.
Qed.

(** *** Counts, percentile and status *)

Lemma count_kind_sum outcomes :
  count_kind SUCCESS outcomes + count_kind RETRYABLE_FAILURE outcomes
  + count_kind TERMINAL_FAILURE outcomes = Z.of_nat (length outcomes).
Proof.
  unfold count_kind. induction outcomes as [|o l IH]; [done|]. rewrite !filter_cons.
  destruct (o_kind o); repeat (case_decide; [|try done]); try done; simpl; lia.
Qed.

Lemma consecutive_failures_bounds outcomes :
  0 ≤ consecutive_failures outcomes ≤ Z.of_nat (length outcomes) - count_kind SUCCESS outcomes.
Proof.
  unfold count_kind. induction outcomes as [|o l IH]; [done|]. simpl.
  pose proof (length_filter (λ o, o_kind o = SUCCESS) l).
  rewrite filter_cons. unfold is_success. destruct (o_kind o) eqn:E;
    (case_decide; [|try done]); try done; rewrite ?E; simpl; lia.
Qed.

Lemma p95_index_bounds n : 0 < n → 0 ≤ p95_index n < n.
Proof. intros Hn. unfold p95_index. split; [|apply Z.lt_sub_lt_add_r, Z.div_lt_upper_bound]; try lia.
  assert (1 ≤ (n * 95 + 99) / 100); [apply Z.div_le_lower_bound; lia|lia].
Qed.

(** In a sorted list, the elements not above the one at index [i] are at least [i + 1],
    and those strictly below it at most [i]. *)
Lemma sorted_count_le (l : list Z) i x :
  StronglySorted Z.le l → l !! i = Some x →
  (i + 1 ≤ length (filter (λ y, (y ≤ x)%Z) l))%nat ∧
  (length (filter (λ y, (y < x)%Z) l) ≤ i)%nat.
Proof.
  intros Hs. revert i. induction Hs as [|y l Hs IH Hall]; intros i Hi; [done|].
  rewrite !filter_cons. destruct i as [|i]; simpl in Hi.
  - injection Hi as ->. rewrite decide_True, decide_False by lia. simpl. split; [lia|].
    assert (filter (λ y, y < x) l = []) as ->; [|done].
    rewrite Forall_forall in Hall.
    destruct (filter (λ y, y < x) l) as [|z l'] eqn:E; [done|].
    assert (z ∈ filter (λ y, y < x) l) as Hz by (rewrite E; left).
    apply list_elem_of_filter in Hz as [Hlt Hz]. specialize (Hall z Hz). lia.
  - assert (y ≤ x) by (rewrite Forall_forall in Hall; eapply Hall, list_elem_of_lookup_2, Hi).
    destruct (IH i Hi). rewrite decide_True by done. case_decide; simpl; lia.
Qed.

Lemma filter_length_perm {A} (P : A → Prop) `{∀ x, Decision (P x)} (l k : list A) :
  l ≡ₚ k → length (filter P l) = length (filter P k).
Proof. intros HP. by rewrite HP. Qed.

(** The reported p95 latency is the nearest-rank 95th percentile of the window: it
    is the latency of some outcome, at least 95% of the outcomes are not slower, and
    fewer than 95% are strictly faster. *)
Theorem p95_latency_percentile outcomes p :
  p95_latency outcomes = Some p →
  let n := Z.of_nat (length outcomes) in
  let latencies := map o_latency_ms outcomes in
  p ∈ latencies ∧
  95 * n ≤ 100 * Z.of_nat (length (filter (λ y, y ≤ p) latencies)) ∧
  100 * Z.of_nat (length (filter (λ y, y < p) latencies)) < 95 * n.
Proof.
  unfold p95_latency. intros Hp. cbv zeta. set (ls := map o_latency_ms outcomes) in *.
  assert (length ls = length outcomes) as Hlen by apply length_map.
  pose proof (merge_sort_Permutation Z.le ls) as HP.
  assert (0 < Z.of_nat (length outcomes)) as Hpos.
  { apply lookup_lt_Some in Hp. rewrite HP, Hlen in Hp. lia. }
  pose proof (p95_index_bounds _ Hpos) as Hi.
  destruct (sorted_count_le _ _ _ (StronglySorted_merge_sort Z.le ls) Hp) as [H1 H2].
  rewrite (filter_length_perm _ _ _ HP) in H1. rewrite (filter_length_perm _ _ _ HP) in H2.
  split; [rewrite <-HP; by eapply list_elem_of_lookup_2|].
  unfold p95_index in *.
  pose proof (Z.mul_div_le (Z.of_nat (length outcomes) * 95 + 99) 100).
  pose proof (Z.mul_succ_div_gt (Z.of_nat (length outcomes) * 95 + 99) 100).
  lia.
Qed.

Lemma p95_latency_total outcomes : outcomes ≠ [] → is_Some (p95_latency outcomes).
Proof.
  intros Hne. unfold p95_latency. apply lookup_lt_is_Some.
  rewrite (merge_sort_Permutation Z.le), length_map.
  assert (0 < Z.of_nat (length outcomes)) by (destruct outcomes; simpl; [done|lia]).
  pose proof (p95_index_bounds _ H). lia.
Qed.

(** The rows of a ledger, as outcomes that passed their validator. *)
Definition stored_ok (s : OutcomeStore) : Prop :=
  Forall (λ o, 0 ≤ o_latency_ms o ≤ 86400000) (os_rows s).

Lemma replay_elem s tenant candidate limit outcomes o :
  replay s tenant candidate limit = Ok outcomes → o ∈ outcomes →
  o ∈ os_rows s ∧ o_tenant_id o = tenant ∧ o_candidate_id o = c_candidate_id candidate.
Proof.
  unfold replay, ensure_open. rewrite raise_if_then. intros [_ [= <-]] Ho.
  eapply elem_of_sublist in Ho; [|apply sublist_take].
  unfold sorted_by in Ho. rewrite merge_sort_Permutation, list_elem_of_filter in Ho. tauto.
Qed.

Lemma replay_length s tenant candidate limit outcomes :
  replay s tenant candidate limit = Ok outcomes →
  Z.of_nat (length outcomes) ≤ Z.max 0 limit.
Proof.
  unfold replay, ensure_open. rewrite raise_if_then. intros [_ [= <-]].
  rewrite length_take. lia.
Qed.

Lemma health_status_unavailable policy outcomes expiry evaluated_at :
  health_status policy outcomes expiry evaluated_at = UNAVAILABLE ↔
  p_minimum_history_samples policy ≤ Z.of_nat (length outcomes) ∧
  p_circuit_failure_threshold policy ≤ consecutive_failures outcomes ∧ evaluated_at < expiry.
Proof.
  unfold health_status.
  destruct (Z.ltb_spec (Z.of_nat (length outcomes)) (p_minimum_history_samples policy));
    [split; intros; done || lia|].
  destruct (Z.leb_spec (p_circuit_failure_threshold policy) (consecutive_failures outcomes)),
    (Z.ltb_spec evaluated_at expiry); cbn [andb];
    try match goal with |- context [if ?b then DEGRADED else _] => destruct b end;
    (split; intros; done || lia).
Qed.

(** Aggregating any window of validated outcomes gives a valid snapshot. *)
Lemma aggregate_total tenant candidate policy evaluated_at outcomes :
  Identifier_ok tenant = true → Name_ok (c_candidate_id candidate) = true →
  Z.of_nat (length outcomes) ≤ 10000 →
  Forall (λ o, 0 ≤ o_latency_ms o ≤ 86400000) outcomes →
  ∃ h, aggregate tenant candidate policy evaluated_at outcomes = Ok h ∧
    h_sample_count h = Z.of_nat (length outcomes) ∧
    h_consecutive_failures h = consecutive_failures outcomes ∧
    h_status h = match outcomes with
      | [] => UNKNOWN
      | latest :: _ => health_status policy outcomes
          (o_occurred_at latest + seconds (p_circuit_cooldown_seconds policy)) evaluated_at
      end.
Proof.
  intros Ht Hn Hlen Hlat. destruct outcomes as [|latest rest] eqn:Ho.
  { eexists. unfold aggregate, make_snapshot, validate_counts, health_fields_ok.
    cbn -[Identifier_ok Name_ok]. rewrite Ht, Hn. done. }
  unfold aggregate. rewrite <-Ho in *.
  assert (0 < Z.of_nat (length outcomes)) as Hpos by (subst; simpl; lia).
  destruct (p95_latency_total outcomes) as [p95 Hp]; [by subst|]. rewrite Hp.
  pose proof (p95_latency_percentile _ _ Hp) as ((o & -> & Hin)%list_elem_of_fmap & _).
  rewrite Forall_forall in Hlat. specialize (Hlat o Hin).
  pose proof (count_kind_sum outcomes) as Hsum.
  pose proof (consecutive_failures_bounds outcomes) as Hcons.
  assert (∀ k, 0 ≤ count_kind k outcomes) as Hcount by (unfold count_kind; lia).
  pose proof (Hcount SUCCESS). pose proof (Hcount RETRYABLE_FAILURE).
  pose proof (Hcount TERMINAL_FAILURE).
  set (expiry := o_occurred_at latest + _).
  pose proof (health_status_unavailable policy outcomes expiry evaluated_at) as Hst.
  set (status := health_status policy outcomes expiry evaluated_at) in *.
  match goal with |- ∃ h, make_snapshot ?x = _ ∧ _ =>
    exists x; assert (validate_counts x = Ok ()) as Hv end.
  2: { unfold make_snapshot. rewrite Hv. done. }
  assert (0 ≤ count_kind SUCCESS outcomes * 10000 / Z.of_nat (length outcomes) ≤ 10000) as Hbps.
  { split; [apply Z.div_pos; lia|apply Z.div_le_upper_bound; lia]. }
  unfold validate_counts, health_fields_ok. cbn -[Identifier_ok Name_ok].
  rewrite !raise_if_then, raise_if_ok, negb_false_iff, !andb_true_iff, !between_true.
  unfold is_status. destruct (decide (status = UNAVAILABLE)) as [Hu|Hu].
  - rewrite !(bool_decide_eq_true_2 (status = UNAVAILABLE)) by done. apply Hst in Hu. cbn.
    rewrite Ht, Hn, (proj2 (Z.eqb_neq (Z.of_nat (length outcomes)) 0)), (proj2 (Z.leb_gt expiry evaluated_at)) by lia.
    split_and!; try done; try lia.
  - rewrite !(bool_decide_eq_false_2 (status = UNAVAILABLE)) by done. cbn.
    rewrite Ht, Hn, (proj2 (Z.eqb_neq (Z.of_nat (length outcomes)) 0)) by lia.
    split_and!; try done; try lia.
Qed.

(** A snapshot that is built is valid and is about the candidate at that time. *)
Lemma health_snapshot_identity s tenant candidate policy evaluated_at h :
  health_snapshot s tenant candidate policy evaluated_at = Ok h →
  validate_counts h = Ok () ∧ h_tenant_id h = tenant ∧ h_candidate_id h = c_candidate_id candidate ∧
  h_evaluated_at h = evaluated_at.
Proof.
  assert (∀ x h, make_snapshot x = Ok h → validate_counts x = Ok () ∧ h = x) as Hm.
  { intros x h' Hx. unfold make_snapshot in Hx. destruct (validate_counts x) as [[]|] eqn:E; [|done].
    injection Hx as <-. done. }
  unfold health_snapshot. intros (outcomes & _ & Ha)%bind_ok. unfold aggregate in Ha.
  destruct outcomes as [|latest rest]; [|destruct (p95_latency _); [|done]];
    apply Hm in Ha as [Hv ->]; done.
Qed.

(** It is built whenever the ledger is open and holds validated outcomes. *)
Lemma health_snapshot_built s tenant candidate policy evaluated_at :
  os_closed s = false → stored_ok s →
  Identifier_ok tenant = true → Name_ok (c_candidate_id candidate) = true →
  1 ≤ p_history_window_size policy ≤ 10000 →
  ∃ h, health_snapshot s tenant candidate policy evaluated_at = Ok h.
Proof.
  intros Hc Hok Ht Hn Hw. unfold health_snapshot.
  destruct (replay s tenant candidate _) as [outcomes|] eqn:Hr;
    [|by unfold replay, ensure_open in Hr; rewrite Hc in Hr].
  pose proof (replay_length _ _ _ _ _ Hr) as Hlen.
  destruct (aggregate_total tenant candidate policy evaluated_at outcomes) as (h & Hh & _);
    auto; [lia| |by exists h].
  apply Forall_forall. intros o Ho. unfold stored_ok in Hok. rewrite Forall_forall in Hok.
  apply Hok. by eapply replay_elem.
Qed.

(** Building a health snapshot never fails: for an open ledger of validated
    outcomes, a named candidate and a policy window within its bounds, the snapshot
    passes its own validator and summarises exactly the replayed window. *)
Theorem health_snapshot_total s tenant candidate policy evaluated_at :
  os_closed s = false → stored_ok s →
  Identifier_ok tenant = true → Name_ok (c_candidate_id candidate) = true →
  1 ≤ p_history_window_size policy ≤ 10000 →
  ∃ h outcomes, replay s tenant candidate (p_history_window_size policy) = Ok outcomes ∧
    health_snapshot s tenant candidate policy evaluated_at = Ok h ∧
    h_sample_count h = Z.of_nat (length outcomes) ∧
    h_consecutive_failures h = consecutive_failures outcomes ∧
    (h_status h = UNAVAILABLE ↔
      ∃ latest rest, outcomes = latest :: rest ∧
        p_minimum_history_samples policy ≤ Z.of_nat (length outcomes) ∧
        p_circuit_failure_threshold policy ≤ consecutive_failures outcomes ∧
        evaluated_at < o_occurred_at latest + seconds (p_circuit_cooldown_seconds policy)).
Proof.
  intros Hc Hok Ht Hn Hw. unfold health_snapshot.
  destruct (replay s tenant candidate _) as [outcomes|] eqn:Hr;
    [|by unfold replay, ensure_open in Hr; rewrite Hc in Hr].
  cbn [mbind result_bind]. pose proof (replay_length _ _ _ _ _ Hr) as Hlen.
  destruct (aggregate_total tenant candidate policy evaluated_at outcomes) as (h & Hh & Hs & Hf & Hst);
    auto; [lia| |].
  { apply Forall_forall. intros o Ho. unfold stored_ok in Hok. rewrite Forall_forall in Hok.
    apply Hok. by eapply replay_elem. }
  exists h, outcomes. split_and!; auto. rewrite Hst.
  destruct outcomes as [|latest rest]; [naive_solver|].
  rewrite health_status_unavailable. split; [eauto 8|]. by intros (? & ? & [= <- <-] & ?).
Qed.

(** ** Witnesses *)

Definition ex_outcome (event_id : string) (kind : RouteOutcomeKind) (latency at_ : Z)
    : RouteOutcome := {|
  o_event_id := event_id; o_tenant_id := "tenant-a"; o_transaction_id := "tx-1";
  o_step_id := "step"; o_candidate_id := "synthetic.api.track"; o_temporal_attempt := 1;
  o_kind := kind; o_latency_ms := latency;
  o_failure_code := if is_success kind then None else Some "api_timeout";
  o_occurred_at := at_; o_outcome_digest := event_id |}.

Definition ex_candidate : RouteCandidate := {|
  c_candidate_id := "synthetic.api.track"; c_capability := "shipment.track.read";
  c_adapter := "synthetic.api.track"; c_operation := "fetch"; c_channel := API;
  c_baseline_success_bps := 9950; c_baseline_sample_weight := 20; c_expected_latency_ms := 50;
  c_cost_micros := 10; c_static_priority := 10; c_maximum_risk_class := READ_ONLY;
  c_maximum_data_classification := INTERNAL; c_maximum_verification_level := L3;
  c_requires_approval := false; c_approval_timeout_seconds := None; c_timeout_seconds := 10;
  c_retry := default_retry; c_fallback_on_error_codes := []; c_enabled := true;
  c_profile_digest := "" |}.

Definition ex_policy : RoutingPolicy := {|
  p_policy_id := "p"; p_version := "1.0.0"; p_allowed_channels := [API];
  p_allowed_candidate_ids := []; p_denied_candidate_ids := []; p_minimum_success_bps := 0;
  p_maximum_latency_ms := 10000; p_maximum_cost_micros := 1000000;
  p_maximum_risk_class := READ_ONLY; p_maximum_data_classification := INTERNAL;
  p_minimum_verification_level := L0; p_approval_required_at_or_above := None;
  p_minimum_history_samples := 2; p_history_window_size := 100;
  p_circuit_failure_threshold := 2; p_circuit_cooldown_seconds := 300; p_maximum_fallbacks := 1;
  p_weights := {| w_reliability := 60; w_latency := 25; w_cost := 15 |}; p_policy_digest := "" |}.

Definition ex_rows : list RouteOutcome :=
  [ex_outcome "e1" SUCCESS 40 0; ex_outcome "e2" TERMINAL_FAILURE 90 1000000;
   ex_outcome "e3" RETRYABLE_FAILURE 70 2000000].
Definition ex_store : OutcomeStore := {| os_closed := false; os_rows := ex_rows |}.

Lemma outcome_ledger_append_only_witness :
  star step empty_store ex_store ∧ os_rows empty_store `prefix_of` os_rows ex_store ∧
  NoDup (map outcome_key (os_rows ex_store)).
Proof.
  assert (star step empty_store ex_store) as Hs.
  { eapply star_step; [eapply (step_append _ _ (ex_outcome "e1" SUCCESS 40 0)); vm_compute; reflexivity|].
    eapply star_step; [eapply (step_append _ _ (ex_outcome "e2" TERMINAL_FAILURE 90 1000000));
      vm_compute; reflexivity|].
    eapply star_step; [eapply (step_append _ _ (ex_outcome "e3" RETRYABLE_FAILURE 70 2000000));
      vm_compute; reflexivity|]. apply star_refl. }
  split; [exact Hs|]. apply (outcome_ledger_append_only empty_store ex_store Hs).
  apply NoDup_nil_2.
Defined.

Lemma append_replay_witness :
  let o := ex_outcome "e4" SUCCESS 10 3000000 in
  ∃ s', append o ex_store = (s', Ok o) ∧ append o s' = (s', Ok o).
Proof.
  eexists. split; [vm_compute; reflexivity|].
  eapply (append_replay ex_store); [vm_compute; reflexivity|].
  apply (bool_decide_unpack _). vm_compute. exact I.
Defined.

Lemma p95_latency_percentile_witness :
  p95_latency ex_rows = Some 90 ∧ 90 ∈ map o_latency_ms ex_rows.
Proof.
  split; [vm_compute; reflexivity|].
  apply (p95_latency_percentile ex_rows 90). vm_compute. reflexivity.
Defined.

Lemma ex_stored_ok : stored_ok ex_store.
Proof. repeat constructor; simpl; lia. Qed.

Lemma health_snapshot_total_witness :
  ∃ h outcomes, replay ex_store "tenant-a" ex_candidate 100 = Ok outcomes ∧
    health_snapshot ex_store "tenant-a" ex_candidate ex_policy 5000000 = Ok h ∧
    h_sample_count h = Z.of_nat (length outcomes).
Proof.
  destruct (health_snapshot_total ex_store "tenant-a" ex_candidate ex_policy 5000000
    eq_refl ex_stored_ok eq_refl eq_refl ltac:(simpl; lia))
    as (h & outcomes & Hr & Hh & Hs & _).
  exists h, outcomes. split; [exact Hr|]. split; [exact Hh|exact Hs].
Defined.
