(* ===== verification/Verification.v ===== *)
(** * Verification contracts (verification/models.py)

    Evidence observations, verification plans and invocations, and the report with its
    validator and its digest-bound constructor. *)

From Stdlib Require Import Ascii SpecFloat.
From S2P Require Import Prelude.
From S2P Require Import Contracts.

Inductive EvidenceChannel :=
| CH_API | CH_BROWSER | CH_DOCUMENT | CH_EMAIL | CH_SYSTEM_RECORD | CH_HUMAN_ATTESTATION.
Inductive VerificationVerdict := VERIFIED | NEEDS_REVIEW | HALTED.
Inductive ClaimOutcome := MATCH | MISMATCH | MISSING | CONFLICT.
Inductive ClaimNormalization := EXACT | CASEFOLD.

#[export] Instance EvidenceChannel_eq_dec : EqDecision EvidenceChannel.
Proof. solve_decision. Defined.
#[export] Instance VerificationVerdict_eq_dec : EqDecision VerificationVerdict.
Proof. solve_decision. Defined.
#[export] Instance ClaimOutcome_eq_dec : EqDecision ClaimOutcome.
Proof. solve_decision. Defined.
#[export] Instance ClaimNormalization_eq_dec : EqDecision ClaimNormalization.
Proof. solve_decision. Defined.

Definition EvidenceChannel_value (c : EvidenceChannel) : string :=
  match c with
  | CH_API => "API" | CH_BROWSER => "BROWSER" | CH_DOCUMENT => "DOCUMENT"
  | CH_EMAIL => "EMAIL" | CH_SYSTEM_RECORD => "SYSTEM_RECORD"
  | CH_HUMAN_ATTESTATION => "HUMAN_ATTESTATION"
  end.
Definition VerificationVerdict_value (v : VerificationVerdict) : string :=
  match v with
  | VERIFIED => "VERIFIED" | NEEDS_REVIEW => "NEEDS_REVIEW" | HALTED => "HALTED"
  end.
Definition ClaimOutcome_value (o : ClaimOutcome) : string :=
  match o with
  | MATCH => "MATCH" | MISMATCH => "MISMATCH" | MISSING => "MISSING" | CONFLICT => "CONFLICT"
  end.

(** [ClaimScalar = str | int | float | bool | None]. *)
Inductive ClaimScalar :=
| SNone
| SBool (b : bool)
| SInt (z : Z)
| SFloat (f : spec_float)
| SStr (s : string).

#[export] Instance spec_float_eq_dec : EqDecision spec_float.
Proof. solve_decision. Defined.
#[export] Instance ClaimScalar_eq_dec : EqDecision ClaimScalar.
Proof. solve_decision. Defined.

Definition scalar_json (v : ClaimScalar) : json :=
  match v with
  | SNone => JNull | SBool b => JBool b | SInt z => JInt z | SFloat f => JFloat f
  | SStr s => JStr s
  end.

(** JsonPointer: one or more [/]-introduced tokens, in which [~] is only followed by
    [0] or [1]. *)
Fixpoint pointer_chars (s : string) : bool :=
  match s with
  | EmptyString => true
  | String c s' =>
      if code c =? 126 then
        match s' with
        | String d s'' => ((code d =? 48) || (code d =? 49)) && pointer_chars s''
        | EmptyString => false
        end
      else pointer_chars s'
  end.
Definition starts_with_slash (s : string) : bool :=
  match s with String c _ => code c =? 47 | EmptyString => false end.
Definition JsonPointer_ok (s : string) : bool :=
  bool_decide (strip s = s) && between 1 (len s) 512 && starts_with_slash s && pointer_chars s.

(** ** Contracts *)

Record ExecutionSource := {
  src_source_system : string;
  src_channel : EvidenceChannel;
  src_adapter_id : string;
  src_collection_id : string;
  src_synthetic : bool }.

Definition validate_source (s : ExecutionSource) : bool :=
  Name_ok (src_source_system s) && Name_ok (src_adapter_id s)
  && Identifier_ok (src_collection_id s).

Record EvidenceObservation := {
  ob_evidence_id : string;
  ob_tenant_id : string;
  ob_transaction_id : string;
  ob_source_record_id : string;
  ob_source_system : string;
  ob_channel : EvidenceChannel;
  ob_collector_id : string;
  ob_collection_id : string;
  ob_observed_at : Z;
  ob_expires_at : option Z;
  ob_claims : list (string * ClaimScalar);
  ob_synthetic : bool;
  ob_content_digest : string }.

(** [model_dump(exclude={"content_digest"})]. *)
Definition observation_json (o : EvidenceObservation) : json := JObj [
  ("schema_version", JStr "cargomesh.evidence-observation/v1");
  ("evidence_id", JStr (ob_evidence_id o)); ("tenant_id", JStr (ob_tenant_id o));
  ("transaction_id", JStr (ob_transaction_id o));
  ("source_record_id", JStr (ob_source_record_id o));
  ("source_system", JStr (ob_source_system o));
  ("channel", JStr (EvidenceChannel_value (ob_channel o)));
  ("collector_id", JStr (ob_collector_id o)); ("collection_id", JStr (ob_collection_id o));
  ("observed_at", JStr (isoformat (ob_observed_at o)));
  ("expires_at", json_opt (λ t, JStr (isoformat t)) (ob_expires_at o));
  ("claims", JObj (map (λ kv, (kv.1, scalar_json kv.2)) (ob_claims o)));
  ("synthetic", JBool (ob_synthetic o))].

(** [validate_claims], per item. *)
Definition claim_item_ok (kv : string * ClaimScalar) : bool :=
  negb (is_secret_key kv.1)
  && match kv.2 with
     | SFloat f => sf_is_finite f
     | SStr s => len s <=? 4096
     | _ => true
     end.

Definition observation_fields_ok (o : EvidenceObservation) : bool :=
  Identifier_ok (ob_evidence_id o) && Identifier_ok (ob_tenant_id o)
  && Identifier_ok (ob_transaction_id o) && Identifier_ok (ob_source_record_id o)
  && Name_ok (ob_source_system o) && Name_ok (ob_collector_id o)
  && Identifier_ok (ob_collection_id o)
  && negb (has_duplicates (map fst (ob_claims o)))
  && between 1 (Z.of_nat (length (ob_claims o))) 64
  && forallb (λ kv, Name_ok kv.1 && claim_item_ok kv) (ob_claims o)
  && Digest_ok (ob_content_digest o).

Definition validate_observation `{Sha256, FloatRepr} (o : EvidenceObservation)
    : result string () :=
  raise_if (negb (observation_fields_ok o)) "field constraint";;
  raise_if (match ob_expires_at o with Some e => e <=? ob_observed_at o | None => false end)
    "evidence expiry must be after its observation time";;
  raise_if (negb (bool_decide (ob_content_digest o = value_digest (observation_json o))))
    "evidence content digest does not match its canonical content".

Record EvidenceCollectionSpec := {
  ec_step_id : string;
  ec_collector_id : string;
  ec_operation : string;
  ec_input : list (string * json) }.

Definition validate_collection `{FloatRepr} (e : EvidenceCollectionSpec) : bool :=
  Name_ok (ec_step_id e) && Name_ok (ec_collector_id e) && Name_ok (ec_operation e)
  && max_length 32 (ec_input e)
  && negb (has_secret_values (JObj (ec_input e))) && bounded_json (JObj (ec_input e)) 65536.

Record VerificationClaimRule := {
  cr_claim : string;
  cr_expected_pointer : string;
  cr_normalization : ClaimNormalization }.

Record VerificationRetryPolicy := {
  vr_initial_interval_seconds : spec_float;
  vr_backoff_coefficient : spec_float;
  vr_maximum_interval_seconds : spec_float;
  vr_maximum_attempts : Z }.

Definition validate_intervals (r : VerificationRetryPolicy) : bool :=
  SFltb (py_float 0) (vr_initial_interval_seconds r)
  && SFleb (vr_initial_interval_seconds r) (py_float 3600)
  && SFleb (py_float 1) (vr_backoff_coefficient r)
  && SFleb (vr_backoff_coefficient r) (py_float 100)
  && SFltb (py_float 0) (vr_maximum_interval_seconds r)
  && SFleb (vr_maximum_interval_seconds r) (py_float 86400)
  && between 1 (vr_maximum_attempts r) 20
  && negb (SFltb (vr_maximum_interval_seconds r) (vr_initial_interval_seconds r)).

Record VerificationPlan := {
  vp_required_level : VerificationLevel;
  vp_collectors : list EvidenceCollectionSpec;
  vp_claim_rules : list VerificationClaimRule;
  vp_max_evidence_age_seconds : Z;
  vp_future_clock_skew_seconds : Z;
  vp_timeout_seconds : Z;
  vp_retry : VerificationRetryPolicy }.

Definition validate_plan `{FloatRepr} (p : VerificationPlan) : result string () :=
  raise_if (negb (between 1 (Z.of_nat (length (vp_collectors p))) 8
                  && forallb validate_collection (vp_collectors p)
                  && between 1 (Z.of_nat (length (vp_claim_rules p))) 32
                  && forallb (λ r, Name_ok (cr_claim r) && JsonPointer_ok (cr_expected_pointer r))
                       (vp_claim_rules p)
                  && between 1 (vp_max_evidence_age_seconds p) 2592000
                  && between 0 (vp_future_clock_skew_seconds p) 3600
                  && between 1 (vp_timeout_seconds p) 86400
                  && validate_intervals (vp_retry p))) "field constraint";;
  raise_if (bool_decide (vp_required_level p = L0)) "a verification plan cannot request L0";;
  raise_if (has_duplicates (map ec_step_id (vp_collectors p)))
    "evidence collection step ids must be unique";;
  raise_if (has_duplicates (map cr_claim (vp_claim_rules p)))
    "verification claim rules must be unique".

Record VerificationInvocation := {
  vi_tenant_id : string;
  vi_transaction_id : string;
  vi_business_digest : string;
  vi_plan : VerificationPlan;
  vi_execution_document : list (string * json);
  vi_execution_sources : list ExecutionSource }.

Definition validate_invocation `{FloatRepr} (v : VerificationInvocation) : result string () :=
  validate_plan (vi_plan v);;
  raise_if (negb (Identifier_ok (vi_tenant_id v) && Identifier_ok (vi_transaction_id v)
                  && Digest_ok (vi_business_digest v)
                  && bounded_json (JObj (vi_execution_document v)) 262144
                  && max_length 32 (vi_execution_sources v)
                  && forallb validate_source (vi_execution_sources v))) "field constraint".

Record EvidenceReceiptSummary := {
  rs_evidence_id : string;
  rs_source_record_id : string;
  rs_source_system : string;
  rs_channel : EvidenceChannel;
  rs_collector_id : string;
  rs_collection_id : string;
  rs_observed_at : Z;
  rs_content_digest : string;
  rs_synthetic : bool }.

Record ClaimResult := {
  cl_claim : string;
  cl_outcome : ClaimOutcome;
  cl_expected : ClaimScalar;
  cl_observed : list ClaimScalar }.

Record VerificationReport := {
  rp_transaction_id : string;
  rp_business_digest : string;
  rp_verdict : VerificationVerdict;
  rp_required_level : VerificationLevel;
  rp_achieved_level : VerificationLevel;
  rp_evaluated_at : Z;
  rp_reasons : list string;
  rp_claims : list ClaimResult;
  rp_evidence : list EvidenceReceiptSummary;
  rp_synthetic : bool;
  rp_report_digest : string }.

Definition receipt_json (r : EvidenceReceiptSummary) : json := JObj [
  ("evidence_id", JStr (rs_evidence_id r)); ("source_record_id", JStr (rs_source_record_id r));
  ("source_system", JStr (rs_source_system r));
  ("channel", JStr (EvidenceChannel_value (rs_channel r)));
  ("collector_id", JStr (rs_collector_id r)); ("collection_id", JStr (rs_collection_id r));
  ("observed_at", JStr (isoformat (rs_observed_at r)));
  ("content_digest", JStr (rs_content_digest r)); ("synthetic", JBool (rs_synthetic r))].

Definition claim_json (c : ClaimResult) : json := JObj [
  ("claim", JStr (cl_claim c)); ("outcome", JStr (ClaimOutcome_value (cl_outcome c)));
  ("expected", scalar_json (cl_expected c));
  ("observed", JList (map scalar_json (cl_observed c)))].

(** [model_dump(exclude={"report_digest"})]. *)
Definition report_json (r : VerificationReport) : json := JObj [
  ("schema_version", JStr "cargomesh.verification-report/v1");
  ("transaction_id", JStr (rp_transaction_id r));
  ("business_digest", JStr (rp_business_digest r));
  ("verdict", JStr (VerificationVerdict_value (rp_verdict r)));
  ("required_level", JStr (VerificationLevel_value (rp_required_level r)));
  ("achieved_level", JStr (VerificationLevel_value (rp_achieved_level r)));
  ("evaluated_at", JStr (isoformat (rp_evaluated_at r)));
  ("reasons", json_strs (rp_reasons r)); ("claims", JList (map claim_json (rp_claims r)));
  ("evidence", JList (map receipt_json (rp_evidence r)));
  ("synthetic", JBool (rp_synthetic r))].

Definition receipt_ok (r : EvidenceReceiptSummary) : bool :=
  Identifier_ok (rs_evidence_id r) && Identifier_ok (rs_source_record_id r)
  && Name_ok (rs_source_system r) && Name_ok (rs_collector_id r)
  && Identifier_ok (rs_collection_id r) && Digest_ok (rs_content_digest r).

Definition report_fields_ok (r : VerificationReport) : bool :=
  Identifier_ok (rp_transaction_id r) && Digest_ok (rp_business_digest r)
  && forallb Name_ok (rp_reasons r) && between 1 (Z.of_nat (length (rp_reasons r))) 64
  && forallb (λ c, Name_ok (cl_claim c)) (rp_claims r) && max_length 32 (rp_claims r)
  && forallb receipt_ok (rp_evidence r) && max_length 64 (rp_evidence r)
  && Digest_ok (rp_report_digest r).

Definition is_verdict (v w : VerificationVerdict) : bool := bool_decide (v = w).
Definition is_outcome (o o' : ClaimOutcome) : bool := bool_decide (o = o').

(** [validate_report]. *)
Definition validate_report `{Sha256, FloatRepr} (r : VerificationReport) : result string () :=
  let outcomes := map cl_outcome (rp_claims r) in
  raise_if (negb (report_fields_ok r)) "field constraint";;
  raise_if (bool_decide (rp_reasons r = []))
    "verification report requires at least one reason code";;
  raise_if (has_duplicates (rp_reasons r)) "verification reason codes must be unique";;
  (if is_verdict (rp_verdict r) VERIFIED then
     raise_if (VERIFICATION_RANK (rp_achieved_level r) <? VERIFICATION_RANK (rp_required_level r))
       "verified report did not achieve its required level";;
     raise_if (bool_decide (rp_claims r = []) || negb (forallb (is_outcome MATCH) outcomes))
       "verified report requires only matching claims";;
     raise_if (bool_decide (rp_evidence r = [])) "verified report requires evidence receipts"
   else Ok ());;
  raise_if (is_verdict (rp_verdict r) NEEDS_REVIEW
            && negb (mem CONFLICT outcomes || mem MISMATCH outcomes))
    "review report requires a conflicting or mismatched claim";;
  raise_if (negb (bool_decide (rp_report_digest r = value_digest (report_json r))))
    "verification report digest does not match".

Definition set_report_digest (r : VerificationReport) (digest : string) : VerificationReport :=
  {| rp_transaction_id := rp_transaction_id r; rp_business_digest := rp_business_digest r;
     rp_verdict := rp_verdict r; rp_required_level := rp_required_level r;
     rp_achieved_level := rp_achieved_level r; rp_evaluated_at := rp_evaluated_at r;
     rp_reasons := rp_reasons r; rp_claims := rp_claims r; rp_evidence := rp_evidence r;
     rp_synthetic := rp_synthetic r; rp_report_digest := digest |}.

(** [VerificationReport.issue]. *)
Definition issue_report `{Sha256, FloatRepr} (r : VerificationReport)
    : result string VerificationReport :=
  raise_if (negb (json_finite (report_json r))) "Out of range float values are not JSON compliant";;
  let r' := set_report_digest r (value_digest (report_json r)) in
  validate_report r';; Ok r'.

(** ** Lemmas *)

Lemma report_json_digest_irrelevant r digest :
  report_json (set_report_digest r digest) = report_json r.
Proof. done. Qed.

Lemma issue_report_ok `{Sha256, FloatRepr} r r' :
  issue_report r = Ok r' →
  r' = set_report_digest r (value_digest (report_json r)) ∧ validate_report r' = Ok ().
Proof.
  unfold issue_report. intros [_ (u & Hv & [= <-])%bind_ok]%raise_if_then. split; [done|].
  by destruct u.
Qed.
