(* ===== verification/VerifyEngine.v ===== *)
(** * Deterministic verification (verification/engine.py)

    Screening of evidence, independence of sources, claim comparison through normalized
    keys, the verdict and the issued report. *)

From Stdlib Require Import Ascii SpecFloat.
From stdpp Require Import pretty.
From S2P Require Import Prelude.
From S2P Require Import Contracts.
From S2P Require Import Verification.

(** What [evaluate_verification] may raise. [ExpectedValueUnavailable] is caught by the
    claim loop; [IntegerParseError] is the [ValueError] of [int] and is not. *)
Inductive VerifyError :=
| ExpectedValueUnavailable
| IntegerParseError
| ReportInvalid (message : string).

#[export] Instance VerifyError_eq_dec : EqDecision VerifyError.
Proof. solve_decision. Defined.

(** ** JSON pointers *)

(** [pointer.split("/")]. *)
Fixpoint split_slash (s : string) : list string :=
  match s with
  | EmptyString => [EmptyString]
  | String c s' =>
      if code c =? 47 then EmptyString :: split_slash s'
      else match split_slash s' with
           | [] => [String c EmptyString]
           | t :: ts => String c t :: ts
           end
  end.

(** [s.replace("~" + digit, by)] for a one-character replacement. *)
Fixpoint replace_tilde (digit by_ : ascii) (s : string) : string :=
  match s with
  | EmptyString => EmptyString
  | String c s' =>
      match s' with
      | String d s'' =>
          if (code c =? 126) && bool_decide (d = digit) then String by_ (replace_tilde digit by_ s'')
          else String c (replace_tilde digit by_ s')
      | EmptyString => String c EmptyString
      end
  end.

Definition slash : ascii := "/".
Definition tilde : ascii := "~".
Definition decode_token (raw : string) : string :=
  replace_tilde "0" tilde (replace_tilde "1" slash raw).

(** [str.isdigit]: besides the decimal digits, the superscripts U+00B2, U+00B3, U+00B9
    have the digit property, and [int] rejects them. *)
Definition is_superscript (c : ascii) : bool :=
  (code c =? 178) || (code c =? 179) || (code c =? 185).
Definition str_isdigit (s : string) : bool :=
  negb (bool_decide (s = EmptyString)) && forall_chars (λ c, is_digit c || is_superscript c) s.

Fixpoint decimal_value (acc : Z) (s : string) : Z :=
  match s with
  | EmptyString => acc
  | String c s' => decimal_value (10 * acc + (code c - 48)) s'
  end.
(** [int(token)] on a token that [isdigit]. *)
Definition py_int (token : string) : result VerifyError Z :=
  raise_if (negb (forall_chars is_digit token)) IntegerParseError;; Ok (decimal_value 0 token).

Definition starts_with_zero (s : string) : bool :=
  match s with String c _ => code c =? 48 | EmptyString => false end.

(** One token of [resolve_json_pointer]. *)
Definition resolve_token (current : json) (raw_token : string) : result VerifyError json :=
  let token := decode_token raw_token in
  match current with
  | JObj fields =>
      match assoc token fields with Some v => Ok v | None => Err ExpectedValueUnavailable end
  | JList l =>
      raise_if (negb (str_isdigit token) || ((1 <? len token) && starts_with_zero token))
        ExpectedValueUnavailable;;
      index ← py_int token;
      match l !! Z.to_nat index with
      | Some v => Ok v
      | None => Err ExpectedValueUnavailable
      end
  | _ => Err ExpectedValueUnavailable
  end.

Definition resolve_json_pointer (document : json) (pointer : string) : result VerifyError json :=
  foldM resolve_token document (tail (split_slash pointer)).

(** [_require_scalar]. *)
Definition require_scalar (value : json) : result VerifyError ClaimScalar :=
  match value with
  | JNull => Ok SNone
  | JBool b => Ok (SBool b)
  | JInt z => Ok (SInt z)
  | JFloat f => raise_if (negb (sf_is_finite f)) ExpectedValueUnavailable;; Ok (SFloat f)
  | JStr s => Ok (SStr s)
  | JList _ | JObj _ => Err ExpectedValueUnavailable
  end.

(** ** Normalized keys *)

(** [repr] of a string. *)
Definition quote_char : ascii := ascii_of_N 39.
Definition dquote_char : ascii := ascii_of_N 34.
Definition backslash : ascii := ascii_of_N 92.
Definition is_printable (c : ascii) : bool :=
  ((32 <=? code c) && (code c <=? 126)) || ((161 <=? code c) && negb (code c =? 173)).
Definition repr_char (q c : ascii) : string :=
  let z := code c in
  if bool_decide (c = q) || (z =? 92) then String backslash (String c EmptyString)
  else if z =? 9 then chars [92; 116] else if z =? 10 then chars [92; 110]
  else if z =? 13 then chars [92; 114]
  else if is_printable c then String c EmptyString
  else chars [92; 120; hex_digit (z / 16); hex_digit (z mod 16)].
Fixpoint repr_chars (q : ascii) (s : string) : string :=
  match s with
  | EmptyString => EmptyString
  | String c s' => repr_char q c +:+ repr_chars q s'
  end.
Definition repr_quote (s : string) : ascii :=
  if negb (forall_chars (λ c, negb (bool_decide (c = quote_char))) s)
     && forall_chars (λ c, negb (bool_decide (c = dquote_char))) s
  then dquote_char else quote_char.
Definition repr_str (s : string) : string :=
  let q := repr_quote s in String q (repr_chars q s +:+ String q EmptyString).

Definition type_name (v : ClaimScalar) : string :=
  match v with
  | SNone => "NoneType" | SBool _ => "bool" | SInt _ => "int" | SFloat _ => "float"
  | SStr _ => "str"
  end.
Definition py_repr `{FloatRepr} (v : ClaimScalar) : string :=
  match v with
  | SNone => "None" | SBool true => "True" | SBool false => "False"
  | SInt z => pretty z | SFloat f => float_repr f | SStr s => repr_str s
  end.

Definition normalize (v : ClaimScalar) (n : ClaimNormalization) : ClaimScalar :=
  match n, v with CASEFOLD, SStr s => SStr (casefold s) | _, _ => v end.
(** [_normalized_key]. *)
Definition normalized_key `{FloatRepr} (v : ClaimScalar) (n : ClaimNormalization) : string :=
  type_name (normalize v n) +:+ ":" +:+ py_repr (normalize v n).

(** ** Independence *)

(** Independent collector and collection: the filter of [level_one]. *)
Definition independent_of (sources : list ExecutionSource) (o : EvidenceObservation) : bool :=
  forallb (λ s, negb (bool_decide (ob_collector_id o = src_adapter_id s))
                && negb (bool_decide (ob_collection_id o = src_collection_id s))) sources.
(** Outside every execution system: the filter of [level_two]. *)
Definition external_to (sources : list ExecutionSource) (o : EvidenceObservation) : bool :=
  negb (mem (ob_source_system o) (map src_source_system sources)).

(** [_independence_level]. *)
Definition independence_level (observations : list EvidenceObservation)
    (sources : list ExecutionSource) : VerificationLevel * list EvidenceObservation :=
  match sources with
  | [] => (L0, [])
  | _ =>
      let level_one := List.filter (independent_of sources) observations in
      match level_one with
      | [] => (L0, [])
      | _ =>
          let level_two := List.filter (external_to sources) level_one in
          match level_two with
          | [] => (L1, level_one)
          | _ =>
              let source_systems := remove_dups (map ob_source_system level_two) in
              let channels := remove_dups (map ob_channel level_two) in
              if (2 <=? Z.of_nat (length source_systems)) && (2 <=? Z.of_nat (length channels))
              then (L3, level_two) else (L2, level_two)
          end
      end
  end.

(** ** Evaluation *)

Definition identity_mismatch (inv : VerificationInvocation) (o : EvidenceObservation) : bool :=
  negb (bool_decide (ob_tenant_id o = vi_tenant_id inv))
  || negb (bool_decide (ob_transaction_id o = vi_transaction_id inv)).

Definition from_future (inv : VerificationInvocation) (now : Z) (o : EvidenceObservation) : bool :=
  now + seconds (vp_future_clock_skew_seconds (vi_plan inv)) <? ob_observed_at o.
Definition is_stale (inv : VerificationInvocation) (now : Z) (o : EvidenceObservation) : bool :=
  seconds (vp_max_evidence_age_seconds (vi_plan inv)) <? now - ob_observed_at o.
Definition is_expired (now : Z) (o : EvidenceObservation) : bool :=
  match ob_expires_at o with Some e => e <=? now | None => false end.

(** The sets and lists the observation loop builds. *)
Record Screening := {
  sc_reasons : list string;
  sc_identity_valid : list EvidenceObservation;
  sc_fresh : list EvidenceObservation }.

(** The body of [for observation in observations]. *)
Definition screen_observation (inv : VerificationInvocation) (now : Z) (acc : Screening)
    (o : EvidenceObservation) : Screening :=
  if identity_mismatch inv o then
    {| sc_reasons := sc_reasons acc ++ ["evidence_identity_mismatch"];
       sc_identity_valid := sc_identity_valid acc; sc_fresh := sc_fresh acc |}
  else
    let idv := sc_identity_valid acc ++ [o] in
    let reject reason :=
      {| sc_reasons := sc_reasons acc ++ [reason]; sc_identity_valid := idv;
         sc_fresh := sc_fresh acc |} in
    if from_future inv now o then reject "evidence_from_future"
    else if is_stale inv now o then reject "evidence_stale"
    else if is_expired now o then reject "evidence_expired"
    else {| sc_reasons := sc_reasons acc; sc_identity_valid := idv;
            sc_fresh := sc_fresh acc ++ [o] |}.

Definition screen (inv : VerificationInvocation) (now : Z)
    (observations : list EvidenceObservation) : Screening :=
  foldl (screen_observation inv now)
    {| sc_reasons := []; sc_identity_valid := []; sc_fresh := [] |} observations.

(** The two calls under [try]. *)
Definition expected_value (inv : VerificationInvocation) (rule : VerificationClaimRule)
    : result VerifyError ClaimScalar :=
  expected ← resolve_json_pointer (JObj (vi_execution_document inv)) (cr_expected_pointer rule);
  require_scalar expected.

(** [observation.claims[rule.claim] for observation in independent if ...]. *)
Definition observed_values (independent : list EvidenceObservation) (claim : string)
    : list ClaimScalar :=
  omap (λ o, assoc claim (ob_claims o)) independent.

Definition compare_claim `{FloatRepr} (rule : VerificationClaimRule) (expected : ClaimScalar)
    (observed : list ClaimScalar) : ClaimOutcome * list string :=
  let values := remove_dups (map (λ v, normalized_key v (cr_normalization rule)) observed) in
  match observed with
  | [] => (MISSING, ["evidence_claim_missing"])
  | _ =>
      if 1 <? Z.of_nat (length values) then (CONFLICT, ["evidence_conflict"])
      else if negb (bool_decide
                (head values = Some (normalized_key expected (cr_normalization rule))))
      then (MISMATCH, ["evidence_mismatch"])
      else (MATCH, [])
  end.

(** [ClaimResult(...)] strips the strings it stores ([str_strip_whitespace]). *)
Definition strip_scalar (v : ClaimScalar) : ClaimScalar :=
  match v with SStr s => SStr (strip s) | _ => v end.

(** The body of [for rule in invocation.plan.claim_rules]: the reasons added and the
    claim result appended. *)
Definition evaluate_rule `{FloatRepr} (inv : VerificationInvocation)
    (independent : list EvidenceObservation) (rule : VerificationClaimRule)
    : result VerifyError (list string * ClaimResult) :=
  match expected_value inv rule with
  | Err ExpectedValueUnavailable =>
      Ok (["expected_claim_unavailable"],
          {| cl_claim := cr_claim rule; cl_outcome := MISSING; cl_expected := SNone;
             cl_observed := [] |})
  | Err e => Err e
  | Ok expected =>
      let observed := observed_values independent (cr_claim rule) in
      let '(outcome, added) := compare_claim rule expected observed in
      Ok (added,
          {| cl_claim := cr_claim rule; cl_outcome := outcome;
             cl_expected := strip_scalar expected; cl_observed := map strip_scalar observed |})
  end.

Definition HALTING_REASONS : list string :=
  ["evidence_claim_missing"; "evidence_expired"; "evidence_from_future";
   "evidence_identity_mismatch"; "evidence_stale"; "expected_claim_unavailable";
   "independence_insufficient"].

(** The verdict and the reasons after it is chosen. *)
Definition decide_verdict (reasons : list string) (outcomes : list ClaimOutcome)
    : VerificationVerdict * list string :=
  if existsb (λ r, mem r HALTING_REASONS) reasons then (HALTED, reasons)
  else if mem CONFLICT outcomes || mem MISMATCH outcomes then (NEEDS_REVIEW, reasons)
  else if negb (bool_decide (reasons = [])) || mem MISSING outcomes then (HALTED, reasons)
  else (VERIFIED, reasons ++ ["claims_and_independence_verified"]).

(** [_receipt_summary]. *)
Definition receipt_summary (o : EvidenceObservation) : EvidenceReceiptSummary := {|
  rs_evidence_id := ob_evidence_id o; rs_source_record_id := ob_source_record_id o;
  rs_source_system := ob_source_system o; rs_channel := ob_channel o;
  rs_collector_id := ob_collector_id o; rs_collection_id := ob_collection_id o;
  rs_observed_at := ob_observed_at o; rs_content_digest := ob_content_digest o;
  rs_synthetic := ob_synthetic o |}.

Definition make_report `{Sha256, FloatRepr} (r : VerificationReport)
    : result VerifyError VerificationReport :=
  match issue_report r with Ok r' => Ok r' | Err m => Err (ReportInvalid m) end.

(** The reasons known before the claim loop. *)
Definition initial_reasons (inv : VerificationInvocation) (screened : Screening)
    (achieved : VerificationLevel) : list string :=
  sc_reasons screened ++
  if VERIFICATION_RANK achieved <? VERIFICATION_RANK (vp_required_level (vi_plan inv))
  then ["independence_insufficient"] else [].

Definition evaluate_verification `{Sha256, FloatRepr} (inv : VerificationInvocation)
    (observations : list EvidenceObservation) (evaluated_at : Z)
    : result VerifyError VerificationReport :=
  let screened := screen inv evaluated_at observations in
  let '(achieved, independent) :=
    independence_level (sc_fresh screened) (vi_execution_sources inv) in
  rules ← mapM_result (evaluate_rule inv independent) (vp_claim_rules (vi_plan inv));
  let reasons := initial_reasons inv screened achieved ++ concat (map fst rules) in
  let claims := map snd rules in
  let '(verdict, final) := decide_verdict reasons (map cl_outcome claims) in
  make_report {|
    rp_transaction_id := vi_transaction_id inv; rp_business_digest := vi_business_digest inv;
    rp_verdict := verdict; rp_required_level := vp_required_level (vi_plan inv);
    rp_achieved_level := achieved; rp_evaluated_at := evaluated_at;
    rp_reasons := sorted_set final; rp_claims := claims;
    rp_evidence := map receipt_summary (sc_identity_valid screened);
    rp_synthetic := existsb src_synthetic (vi_execution_sources inv)
                    || existsb ob_synthetic (sc_identity_valid screened);
    rp_report_digest := "" |}.

(** ** Specification *)

(** The reason one observation is screened out with, if any. *)
Definition observation_reason (inv : VerificationInvocation) (now : Z) (o : EvidenceObservation)
    : option string :=
  if identity_mismatch inv o then Some "evidence_identity_mismatch"
  else if from_future inv now o then Some "evidence_from_future"
  else if is_stale inv now o then Some "evidence_stale"
  else if is_expired now o then Some "evidence_expired" else None.

(** Evidence that belongs to the transaction, was observed within the allowed window
    around the evaluation time and has not expired. *)
Definition admissible_evidence (inv : VerificationInvocation) (now : Z) (o : EvidenceObservation)
    : Prop :=
  ob_tenant_id o = vi_tenant_id inv ∧ ob_transaction_id o = vi_transaction_id inv ∧
  now - seconds (vp_max_evidence_age_seconds (vi_plan inv)) ≤ ob_observed_at o
    ≤ now + seconds (vp_future_clock_skew_seconds (vi_plan inv)) ∧
  ∀ e, ob_expires_at o = Some e → now < e.

(** The rule's expected value exists, some independent observation reports the claim and
    every one that does reports the expected value up to normalization. *)
Definition claim_agrees `{FloatRepr} (inv : VerificationInvocation)
    (independent : list EvidenceObservation) (rule : VerificationClaimRule) : Prop :=
  ∃ expected, expected_value inv rule = Ok expected ∧
    (∃ o v, o ∈ independent ∧ assoc (cr_claim rule) (ob_claims o) = Some v) ∧
    ∀ o v, o ∈ independent → assoc (cr_claim rule) (ob_claims o) = Some v →
      normalized_key v (cr_normalization rule) = normalized_key expected (cr_normalization rule).

(** ** Screening *)

Lemma screen_foldl inv now obs acc :
  foldl (screen_observation inv now) acc obs = {|
    sc_reasons := sc_reasons acc ++ omap (observation_reason inv now) obs;
    sc_identity_valid :=
      sc_identity_valid acc ++ List.filter (λ o, negb (identity_mismatch inv o)) obs;
    sc_fresh :=
      sc_fresh acc ++ List.filter (λ o, is_none (observation_reason inv now o)) obs |}.
Proof.
  revert acc. induction obs as [|o obs IH]; intros acc; simpl.
  - rewrite !app_nil_r. by destruct acc.
  - rewrite IH. unfold screen_observation, observation_reason.
    destruct (identity_mismatch inv o), (from_future inv now o), (is_stale inv now o),
      (is_expired now o); cbn; by rewrite <-?(assoc_L (++)).
Qed.

Lemma screen_eq inv now obs :
  screen inv now obs = {|
    sc_reasons := omap (observation_reason inv now) obs;
    sc_identity_valid := List.filter (λ o, negb (identity_mismatch inv o)) obs;
    sc_fresh := List.filter (λ o, is_none (observation_reason inv now o)) obs |}.
Proof. apply screen_foldl. Qed.

Lemma observation_reason_None inv now o :
  observation_reason inv now o = None ↔ admissible_evidence inv now o.
Proof.
  unfold observation_reason, admissible_evidence, identity_mismatch, from_future, is_stale,
    is_expired.
  destruct (bool_decide_reflect (ob_tenant_id o = vi_tenant_id inv)); simpl; [|naive_solver].
  destruct (bool_decide_reflect (ob_transaction_id o = vi_transaction_id inv)); simpl;
    [|naive_solver].
  destruct (_ <? ob_observed_at o) eqn:Hf; boolify; [split; [done|lia]|].
  destruct (_ <? now - _) eqn:Hs; boolify; [split; [done|lia]|].
  destruct (ob_expires_at o) as [t|]; simpl.
  - destruct (t <=? now) eqn:He; boolify.
    + split; [done|]. intros (_ & _ & _ & H). specialize (H _ eq_refl); lia.
    + split; [intros _|done]. split_and!; auto; try lia. by intros ? [= <-].
  - split; [intros _|done]. split_and!; auto; try lia; by intros.
Qed.

(** ** Claims *)

Lemma observed_values_elem independent claim v :
  v ∈ observed_values independent claim ↔
  ∃ o, o ∈ independent ∧ assoc claim (ob_claims o) = Some v.
Proof. apply list_elem_of_omap. Qed.

Lemma compare_claim_match `{FloatRepr} rule expected observed :
  let c := compare_claim rule expected observed in
  (c.1 = MATCH ↔ observed ≠ [] ∧ ∀ v, v ∈ observed →
     normalized_key v (cr_normalization rule)
     = normalized_key expected (cr_normalization rule)) ∧
  (c.2 = [] ↔ c.1 = MATCH) ∧
  (c.1 = MISSING → c.2 = ["evidence_claim_missing"]).
Proof.
  unfold compare_claim. cbv zeta. set (key := λ v, normalized_key v (cr_normalization rule)).
  destruct observed as [|v observed]; [simpl; naive_solver|].
  cbv beta iota. assert (map key (v :: observed) ≠ []) as Hne by done.
  assert (v :: observed ≠ []) as Hne' by done.
  generalize dependent (v :: observed). intros l Hne Hne'.
  pose proof (remove_dups_single (map key l) (key expected) Hne) as Hs.
  change (normalized_key expected (cr_normalization rule)) with (key expected).
  change (λ v, normalized_key v (cr_normalization rule)) with key.
  assert ((∀ x, x ∈ map key l → x = key expected) ↔ ∀ w, w ∈ l → key w = key expected) as Hmap.
  { split; [intros Hall w Hw; apply Hall; by apply (list_elem_of_fmap_2 key)|].
    intros Hall x (w & -> & Hw)%list_elem_of_fmap. by apply Hall. }
  destruct (1 <? _) eqn:H1; boolify; [|destruct (bool_decide_reflect
    (head (remove_dups (map key l)) = Some (key expected)))]; simpl.
  - split_and!; [|by split|done]. split; [done|]. intros [_ Hall].
    destruct (proj2 Hs (conj Hne (proj2 Hmap Hall))). lia.
  - split_and!; [|by split|done]. split; [intros _|done]. split; [done|].
    apply (proj1 Hmap). by apply Hs.
  - split_and!; [|by split|done]. split; [done|]. intros [_ Hall].
    by destruct (proj2 Hs (conj Hne (proj2 Hmap Hall))).
Qed.

Lemma evaluate_rule_spec `{FloatRepr} inv independent rule added c :
  evaluate_rule inv independent rule = Ok (added, c) →
  cl_claim c = cr_claim rule ∧
  (cl_outcome c = MATCH ↔ claim_agrees inv independent rule) ∧
  (added = [] ↔ cl_outcome c = MATCH) ∧
  (cl_outcome c = MISSING → ∃ reason, reason ∈ added ∧ reason ∈ HALTING_REASONS).
Proof.
  unfold evaluate_rule, claim_agrees. destruct (expected_value inv rule) as [e|[]] eqn:He; try done.
  - destruct (compare_claim_match rule e (observed_values independent (cr_claim rule)))
      as (Hm & Ha & Hh).
    destruct (compare_claim _ _ _) as [outcome added'] eqn:Hc. simpl in *.
    intros [= <- <-]. simpl. rewrite Hm. split_and!; auto.
    + split.
      * intros [Hne Hall]. exists e. split; [done|]. split.
        -- destruct (observed_values _ _) as [|v l] eqn:E; [done|].
           assert (v ∈ observed_values independent (cr_claim rule)) as Hv
             by (rewrite E; left). apply observed_values_elem in Hv as (o & ? & ?). eauto.
        -- intros o v Ho Hv. apply Hall, observed_values_elem. eauto.
      * intros (e' & [= <-] & (o & v & Ho & Hv) & Hall).
        assert (v ∈ observed_values independent (cr_claim rule)) as Hin
          by (apply observed_values_elem; eauto).
        split; [intros E; rewrite E in Hin; by apply elem_of_nil in Hin|].
        intros w (o' & ? & ?)%observed_values_elem. eauto.
    + by rewrite <-Hm.
    + intros ->. rewrite Hh by done. eexists. split; [left|]. apply (bool_decide_unpack _).
      by vm_compute.
  - intros [= <- <-]. simpl. split_and!; auto; try (split; done).
    + split; [done|]. intros (? & ? & _). done.
    + intros _. exists "expected_claim_unavailable". split; [left|].
      apply (bool_decide_unpack _). by vm_compute.
Qed.

(** ** Verdicts *)

Lemma decide_verdict_verified reasons outcomes :
  (decide_verdict reasons outcomes).1 = VERIFIED ↔
  reasons = [] ∧ CONFLICT ∉ outcomes ∧ MISMATCH ∉ outcomes ∧ MISSING ∉ outcomes.
Proof.
  unfold decide_verdict. destruct reasons as [|r reasons]; simpl.
  - destruct (mem CONFLICT outcomes) eqn:H1, (mem MISMATCH outcomes) eqn:H2,
      (mem MISSING outcomes) eqn:H3; simpl; autorewrite with cargo_rw in *; naive_solver.
  - destruct (_ || _); simpl; [naive_solver|]. destruct (_ || _); simpl; naive_solver.
Qed.

(** The level and evidence the screened observations reach. *)
Definition independence_of (inv : VerificationInvocation) (now : Z)
    (observations : list EvidenceObservation) : VerificationLevel * list EvidenceObservation :=
  independence_level (sc_fresh (screen inv now observations)) (vi_execution_sources inv).

(** What a returned report consists of. *)
Lemma evaluate_ok `{Sha256, FloatRepr} inv obs now r :
  evaluate_verification inv obs now = Ok r →
  ∃ rules,
    Forall2 (λ rule x, evaluate_rule inv (independence_of inv now obs).2 rule = Ok x)
      (vp_claim_rules (vi_plan inv)) rules ∧
    let reasons := initial_reasons inv (screen inv now obs) (independence_of inv now obs).1
                     ++ concat (map fst rules) in
    let final := decide_verdict reasons (map cl_outcome (map snd rules)) in
    rp_verdict r = final.1 ∧ rp_reasons r = sorted_set final.2 ∧
    rp_claims r = map snd rules ∧ rp_achieved_level r = (independence_of inv now obs).1 ∧
    rp_required_level r = vp_required_level (vi_plan inv) ∧
    rp_evidence r = map receipt_summary (sc_identity_valid (screen inv now obs)) ∧
    validate_report r = Ok ().
Proof.
  unfold evaluate_verification, independence_of.
  destruct (independence_level _ _) as [achieved independent]. cbv beta iota zeta.
  intros (rules & Hr & Hm)%bind_ok. exists rules. split; [by apply mapM_result_Forall2|].
  cbn [fst snd]. destruct (decide_verdict _ _) as [verdict final]. unfold make_report in Hm.
  destruct (issue_report _) as [r'|] eqn:Hi; [|done]. injection Hm as <-.
  apply issue_report_ok in Hi as [-> Hv]. cbn. split_and!; done.
Qed.

(** The level and evidence of observations that all pass the screening. *)
Lemma independence_of_all inv now observations :
  (∀ o, o ∈ observations → admissible_evidence inv now o) →
  independence_of inv now observations = independence_level observations (vi_execution_sources inv).
Proof.
  intros Hall. unfold independence_of. rewrite screen_eq. simpl. rewrite list_filter_all; [done|].
  intros o Ho. by rewrite (proj2 (observation_reason_None inv now o) (Hall o Ho)).
Qed.

(** When a report says VERIFIED, over the evidence left by the screening. *)
Lemma evaluate_verified `{Sha256, FloatRepr} inv observations now r :
  evaluate_verification inv observations now = Ok r →
  (rp_verdict r = VERIFIED ↔
   (∀ o, o ∈ observations → admissible_evidence inv now o) ∧
   VERIFICATION_RANK (vp_required_level (vi_plan inv))
     ≤ VERIFICATION_RANK (independence_of inv now observations).1 ∧
   ∀ rule, rule ∈ vp_claim_rules (vi_plan inv) →
     claim_agrees inv (independence_of inv now observations).2 rule).
Proof.
  intros (rules & HF & Hv & _)%evaluate_ok. rewrite Hv, decide_verdict_verified. clear Hv.
  assert (omap (observation_reason inv now) observations = [] ↔
          ∀ o, o ∈ observations → admissible_evidence inv now o) as Hadm.
  { rewrite omap_nil. by setoid_rewrite observation_reason_None. }
  unfold initial_reasons. rewrite !app_nil, concat_map_nil.
  rewrite screen_eq at 1. cbn [sc_reasons]. rewrite Hadm.
  destruct (independence_of inv now observations) as [ach ind]. cbn [fst snd] in *. split.
  - intros ([[Hall Hlev] Hrules] & _). split; [done|].
    split; [destruct (_ <? _) eqn:E; boolify; [done|lia]|].
    intros rule Hr. destruct (Forall2_map_in _ _ _ _ HF Hr) as ([added c] & Hx & He).
    apply evaluate_rule_spec in He as (_ & Hm & Ha & _). apply Hm, Ha. apply (Hrules _ Hx).
  - intros (Hall & Hlev & Hrules).
    assert (∀ x, x ∈ rules → cl_outcome x.2 = MATCH ∧ x.1 = []) as Hmatch.
    { intros [added c] Hx. destruct (Forall2_map_in_r _ _ _ _ HF Hx) as (rule & Hr & He).
      apply evaluate_rule_spec in He as (_ & Hm & Ha & _). simpl.
      assert (cl_outcome c = MATCH) as E by (apply Hm, Hrules, Hr). split; [done|by apply Ha]. }
    split; [split; [split; [done|]|]|].
    + destruct (_ <? _) eqn:E; boolify; [lia|done].
    + intros x Hx. by apply Hmatch.
    + rewrite map_map. split_and!; intros (x & E & Hx)%list_elem_of_fmap;
        destruct (Hmatch x Hx) as [E' _]; congruence.
Qed.

(** C2. A report says VERIFIED exactly when every collected observation belongs to the
    transaction, is within its time window and unexpired, the independence level reached is at
    least the required one, and every claim rule's expected value is reported by at least
    one independent observation and contradicted by none. *)
Theorem evaluate_verified_iff `{Sha256, FloatRepr} inv observations now r :
  evaluate_verification inv observations now = Ok r →
  (rp_verdict r = VERIFIED ↔
   (∀ o, o ∈ observations → admissible_evidence inv now o) ∧
   let '(achieved, independent) := independence_level observations (vi_execution_sources inv) in
   VERIFICATION_RANK (vp_required_level (vi_plan inv)) ≤ VERIFICATION_RANK achieved ∧
   ∀ rule, rule ∈ vp_claim_rules (vi_plan inv) → claim_agrees inv independent rule).
Proof.
  intros Hr. rewrite (evaluate_verified inv observations now r Hr). split; intros [Hall Hrest];
    rewrite (independence_of_all inv now observations Hall) in *; (split; [done|]);
    by destruct (independence_level _ _).
Qed.

(** ** Reasons *)

Lemma evaluate_rule_outcome `{FloatRepr} inv independent rule added c :
  evaluate_rule inv independent rule = Ok (added, c) →
  (cl_outcome c = MATCH ∧ added = []) ∨
  (cl_outcome c = MISSING ∧ ∃ reason, added = [reason] ∧ reason ∈ HALTING_REASONS) ∨
  (cl_outcome c = CONFLICT ∧ added = ["evidence_conflict"]) ∨
  (cl_outcome c = MISMATCH ∧ added = ["evidence_mismatch"]).
Proof.
  unfold evaluate_rule. destruct (expected_value inv rule) as [e|[]]; try done.
  - destruct (compare_claim _ _ _) as [outcome added'] eqn:Hc. intros [= <- <-]. simpl.
    unfold compare_claim in Hc. destruct (observed_values _ _) as [|v l].
    + injection Hc as <- <-. right; left. split; [done|]. eexists. split; [done|].
      apply (bool_decide_unpack _). by vm_compute.
    + destruct (1 <? _); [|destruct (negb _)]; injection Hc as <- <-; auto 6.
  - intros [= <- <-]. right; left. split; [done|]. eexists. split; [done|].
    apply (bool_decide_unpack _). by vm_compute.
Qed.

Lemma initial_reasons_halting inv now obs achieved reason :
  reason ∈ initial_reasons inv (screen inv now obs) achieved → reason ∈ HALTING_REASONS.
Proof.
  unfold initial_reasons. rewrite screen_eq. cbn [sc_reasons]. rewrite elem_of_app.
  intros [(o & _ & Ho)%list_elem_of_omap|Hr].
  - unfold observation_reason in Ho.
    repeat (case_match; [injection Ho as <-; apply (bool_decide_unpack _); by vm_compute|]).
    done.
  - destruct (_ <? _); [|by apply elem_of_nil in Hr].
    apply list_elem_of_singleton in Hr as ->. apply (bool_decide_unpack _); by vm_compute.
Qed.

(** The reasons and outcomes of one evaluation fit together. *)
Definition reasons_fit (reasons : list string) (outcomes : list ClaimOutcome) : Prop :=
  (∀ reason, reason ∈ reasons → reason ∈ HALTING_REASONS ∨
     (reason = "evidence_conflict" ∧ CONFLICT ∈ outcomes) ∨
     (reason = "evidence_mismatch" ∧ MISMATCH ∈ outcomes)) ∧
  (MISSING ∈ outcomes → ∃ reason, reason ∈ reasons ∧ reason ∈ HALTING_REASONS) ∧
  (∀ o, o ∈ outcomes → o ≠ MATCH → reasons ≠ []).

Lemma evaluation_reasons_fit `{FloatRepr} inv now obs independent achieved rules k :
  Forall2 (λ rule x, evaluate_rule inv independent rule = Ok x) rules k →
  reasons_fit (initial_reasons inv (screen inv now obs) achieved ++ concat (map fst k))
    (map cl_outcome (map snd k)).
Proof.
  intros HF. rewrite map_map. split_and!.
  - intros reason [Hr|Hr]%elem_of_app; [left; by eapply initial_reasons_halting|].
    apply concat_map_elem in Hr as ([added c] & Hx & Hr). simpl in Hr.
    destruct (Forall2_map_in_r _ _ _ _ HF Hx) as (rule & _ & He).
    pose proof (list_elem_of_fmap_2 (λ x, cl_outcome x.2) k _ Hx) as Ho. simpl in Ho.
    apply evaluate_rule_outcome in He as [[_ ->]|[(_ & y & -> & Hy)|[[E ->]|[E ->]]]].
    + by apply elem_of_nil in Hr.
    + apply list_elem_of_singleton in Hr as ->. by left.
    + apply list_elem_of_singleton in Hr as ->. rewrite E in Ho. auto.
    + apply list_elem_of_singleton in Hr as ->. rewrite E in Ho. auto.
  - intros ([added c] & E & Hx)%list_elem_of_fmap. simpl in E.
    destruct (Forall2_map_in_r _ _ _ _ HF Hx) as (rule & _ & He).
    apply evaluate_rule_outcome in He as [[? _]|[(_ & y & -> & Hy)|[[? _]|[? _]]]];
      [congruence| |congruence..].
    exists y. split; [|done]. apply elem_of_app. right. apply concat_map_elem.
    exists ([y], c). split; [done|left].
  - intros o (x & -> & Hx)%list_elem_of_fmap Hne. rewrite app_nil, concat_map_nil.
    intros [_ Hall]. specialize (Hall _ Hx). destruct x as [added c]. simpl in *. subst.
    destruct (Forall2_map_in_r _ _ _ _ HF Hx) as (rule & _ & He).
    apply evaluate_rule_outcome in He. naive_solver.
Qed.

Lemma existsb_halting reasons :
  existsb (λ r, mem r HALTING_REASONS) reasons = true ↔
  ∃ reason, reason ∈ reasons ∧ reason ∈ HALTING_REASONS.
Proof.
  rewrite existsb_exists. setoid_rewrite list_elem_of_In at 1.
  split; intros (x & Hx & Hm); exists x; (split; [done|]); by apply mem_true.
Qed.

Lemma verified_reason_not_halting : "claims_and_independence_verified" ∉ HALTING_REASONS.
Proof. apply (bool_decide_unpack _). by vm_compute. Qed.

Lemma decide_verdict_fit reasons outcomes :
  reasons_fit reasons outcomes →
  let d := decide_verdict reasons outcomes in
  (d.1 = HALTED ↔ ∃ reason, reason ∈ d.2 ∧ reason ∈ HALTING_REASONS) ∧
  (d.1 = NEEDS_REVIEW ↔ (∀ reason, reason ∈ d.2 → reason ∉ HALTING_REASONS) ∧
     (CONFLICT ∈ outcomes ∨ MISMATCH ∈ outcomes)) ∧
  d.2 ≠ [].
Proof.
  intros (Hfit & Hmiss & Hne). unfold decide_verdict.
  destruct (existsb _ _) eqn:Hh; cbv zeta.
  - apply existsb_halting in Hh as (x & Hx & Hxh). cbn. split_and!.
    + split; [eauto|done].
    + split; [done|]. intros [Hn _]. by destruct (Hn x).
    + intros ->. by apply elem_of_nil in Hx.
  - assert (∀ x, x ∈ reasons → x ∉ HALTING_REASONS) as Hn.
    { intros x Hx Hxh. rewrite (proj2 (existsb_halting reasons)) in Hh; [done|eauto]. }
    destruct (mem CONFLICT outcomes || mem MISMATCH outcomes) eqn:Hc; cbn.
    + apply orb_true_iff in Hc. rewrite !mem_true in Hc. split_and!; [split; [done|]|done|].
      * intros (x & Hx & Hxh). by destruct (Hn x).
      * destruct Hc as [Hc|Hc]; by apply (Hne _ Hc).
    + boolify. autorewrite with cargo_rw in *. destruct reasons as [|x reasons].
      2:{ exfalso. destruct (Hfit x) as [?|[[_ ?]|[_ ?]]]; [left|..]; try done.
          apply (Hn x); [left|done]. }
      destruct (mem MISSING outcomes) eqn:Hm; cbn.
      * apply mem_true, Hmiss in Hm as (x & Hx & _). by apply elem_of_nil in Hx.
      * split_and!; [split; [done|]|split; [done|]|done].
        -- intros (x & ->%list_elem_of_singleton & Hxh). destruct (verified_reason_not_halting Hxh).
        -- intros [_ [?|?]]; done.
Qed.

(** Reasons and verdict agree: a report is HALTED exactly when it lists a halting
    reason, whatever the claims say, and NEEDS_REVIEW exactly when it lists none and some
    claim is conflicting or mismatched. *)
Theorem evaluate_verdict_reasons `{Sha256, FloatRepr} inv observations now r :
  evaluate_verification inv observations now = Ok r →
  (rp_verdict r = HALTED ↔ ∃ reason, reason ∈ rp_reasons r ∧ reason ∈ HALTING_REASONS) ∧
  (rp_verdict r = NEEDS_REVIEW ↔
     (∀ reason, reason ∈ rp_reasons r → reason ∉ HALTING_REASONS) ∧
     ∃ c, c ∈ rp_claims r ∧ (cl_outcome c = CONFLICT ∨ cl_outcome c = MISMATCH)).
Proof.
  intros (rules & HF & Hv & Hr & Hc & _)%evaluate_ok. rewrite Hv, Hr, Hc.
  pose proof (evaluation_reasons_fit inv now observations _ (independence_of inv now observations).1
    _ _ HF) as Hfit.
  destruct (decide_verdict_fit _ _ Hfit) as (Hh & Hn & _). clear Hfit. rewrite Hh, Hn.
  setoid_rewrite sorted_set_elem. split; [done|]. apply and_iff_compat_l. split.
  - intros [(c & E & Hin)%list_elem_of_fmap|(c & E & Hin)%list_elem_of_fmap]; exists c; auto.
  - intros (c & Hin & [E|E]); [left|right]; rewrite <-E; by apply list_elem_of_fmap_2.
Qed.

(** ** Totality *)

Definition pointer_plain (s : string) : bool := forall_chars (λ c, negb (is_superscript c)) s.

Lemma split_slash_chars p s t :
  forall_chars p s = true → t ∈ split_slash s → forall_chars p t = true.
Proof.
  revert t. induction s as [|c s IH]; intros t; simpl.
  - by intros _ ->%list_elem_of_singleton.
  - intros [Hc Hs]%andb_true_iff. destruct (code c =? 47).
    + intros [->|Ht]%elem_of_cons; auto.
    + destruct (split_slash s) as [|t' ts] eqn:E.
      * intros ->%list_elem_of_singleton. simpl. by rewrite Hc.
      * intros [->|Ht]%elem_of_cons; simpl; [rewrite Hc; apply IH; [done|left]|].
        apply IH; [done|by right].
Qed.

Lemma replace_tilde_cons d r c c' s :
  replace_tilde d r (String c (String c' s)) =
  if (code c =? 126) && bool_decide (c' = d) then String r (replace_tilde d r s)
  else String c (replace_tilde d r (String c' s)).
Proof. reflexivity. Qed.

Lemma replace_tilde_chars p d r s :
  p r = true → forall_chars p s = true → forall_chars p (replace_tilde d r s) = true.
Proof.
  intros Hr. induction s as [s IH] using (induction_ltof1 _ String.length); unfold ltof in IH.
  destruct s as [|c [|c' s]]; [done..|]. rewrite replace_tilde_cons. cbn [forall_chars].
  rewrite !andb_true_iff. intros (Hc & Hc' & Hs).
  destruct (_ && _); cbn [forall_chars]; rewrite andb_true_iff; (split; [done|]); apply IH;
    cbn [forall_chars String.length]; rewrite ?andb_true_iff; auto.
Qed.

Lemma decode_token_plain raw : pointer_plain raw = true → pointer_plain (decode_token raw) = true.
Proof. intros Hp. unfold decode_token, pointer_plain. by do 2 (apply replace_tilde_chars; [done|]). Qed.

Lemma isdigit_plain s :
  pointer_plain s = true → str_isdigit s = true → forall_chars is_digit s = true.
Proof.
  unfold pointer_plain, str_isdigit. rewrite andb_true_iff. intros Hp [_ Hd].
  induction s as [|c s IH]; simpl in *; [done|]. apply andb_true_iff in Hp as [Hc Hp], Hd as [Hc' Hd].
  apply negb_true_iff in Hc. rewrite Hc, orb_false_r in Hc'. rewrite Hc'. by apply IH.
Qed.

Lemma resolve_token_total current raw :
  pointer_plain raw = true →
  (∃ v, resolve_token current raw = Ok v) ∨ resolve_token current raw = Err ExpectedValueUnavailable.
Proof.
  intros Hp%decode_token_plain. unfold resolve_token. destruct current; auto.
  - destruct (str_isdigit _) eqn:Hd; simpl; [|auto]. destruct (_ && _); simpl; [auto|].
    unfold py_int. rewrite (isdigit_plain _ Hp Hd). simpl. destruct (_ !! _); eauto.
  - destruct (assoc _ _); eauto.
Qed.

Lemma expected_value_total inv rule :
  pointer_plain (cr_expected_pointer rule) = true →
  (∃ v, expected_value inv rule = Ok v) ∨ expected_value inv rule = Err ExpectedValueUnavailable.
Proof.
  intros Hp. unfold expected_value, resolve_json_pointer.
  assert (∀ t, t ∈ tail (split_slash (cr_expected_pointer rule)) → pointer_plain t = true) as Ht.
  { intros t Ht. eapply split_slash_chars; [done|]. destruct (split_slash _); [done|by right]. }
  revert Ht. generalize (tail (split_slash (cr_expected_pointer rule))) as ts.
  generalize (JObj (vi_execution_document inv)) as d.
  intros d ts. revert d. induction ts as [|t ts IH]; intros d Ht; simpl.
  - unfold require_scalar. destruct d as [| |?|f| | |]; eauto.
    destruct (sf_is_finite f); simpl; eauto.
  - destruct (resolve_token_total d t) as [[v ->]| ->]; [apply Ht; left| |by right]. simpl.
    apply IH. intros t' Ht'. apply Ht. by right.
Qed.

(** ** Independence *)

(** Two distinct values of an attribute occur among the external independent evidence. *)
Definition diverse {A} (attr : EvidenceObservation → A) (obs : list EvidenceObservation)
    (srcs : list ExecutionSource) : Prop :=
  ∃ o1 o2, o1 ∈ obs ∧ o2 ∈ obs ∧ attr o1 ≠ attr o2 ∧
    independent_of srcs o1 = true ∧ external_to srcs o1 = true ∧
    independent_of srcs o2 = true ∧ external_to srcs o2 = true.

Lemma diverse_remove_dups {A} `{EqDecision A} (attr : EvidenceObservation → A) obs srcs :
  2 ≤ Z.of_nat (length (remove_dups (map attr
    (List.filter (external_to srcs) (List.filter (independent_of srcs) obs))))) ↔
  diverse attr obs srcs.
Proof.
  rewrite remove_dups_two. unfold diverse. split.
  - intros (x & y & (o1 & -> & H1)%list_elem_of_fmap & (o2 & -> & H2)%list_elem_of_fmap & Hne).
    rewrite !list_filter_elem in H1, H2. exists o1, o2. tauto.
  - intros (o1 & o2 & H1 & H2 & Hne & ?). exists (attr o1), (attr o2).
    split_and!; [..|done]; apply list_elem_of_fmap_2; rewrite !list_filter_elem; tauto.
Qed.

Lemma independence_used obs srcs o : o ∈ (independence_level obs srcs).2 → o ∈ obs.
Proof.
  unfold independence_level. destruct srcs as [|s srcs]; [by intros ?%elem_of_nil|].
  generalize (s :: srcs). clear. intros srcs.
  destruct (List.filter (independent_of srcs) obs) as [|o1 l1] eqn:L1; [by intros ?%elem_of_nil|].
  rewrite <-L1. destruct (List.filter (external_to srcs) _) eqn:L2.
  - by intros [? _]%list_filter_elem.
  - rewrite <-L2. destruct (_ && _); cbn; intros [[? _]%list_filter_elem _]%list_filter_elem; done.
Qed.

Lemma independence_level_filters obs srcs :
  let '(level, used) := independence_level obs srcs in
  (1 ≤ VERIFICATION_RANK level ↔
    srcs ≠ [] ∧ ∃ o, o ∈ obs ∧ independent_of srcs o = true) ∧
  (2 ≤ VERIFICATION_RANK level ↔
    srcs ≠ [] ∧ ∃ o, o ∈ obs ∧ independent_of srcs o = true ∧ external_to srcs o = true) ∧
  (3 ≤ VERIFICATION_RANK level ↔
    srcs ≠ [] ∧ diverse ob_source_system obs srcs ∧ diverse ob_channel obs srcs) ∧
  (∀ o, o ∈ used → o ∈ obs ∧ independent_of srcs o = true ∧
    (2 ≤ VERIFICATION_RANK level → external_to srcs o = true)).
Proof.
  unfold independence_level. destruct srcs as [|s srcs'].
  { cbn. split_and!; try (split; [lia|]; by intros [? _]). by intros o Ho%elem_of_nil. }
  assert (s :: srcs' ≠ []) as Hs by done. generalize dependent (s :: srcs'). intros srcs Hs.
  pose proof (diverse_remove_dups ob_source_system obs srcs) as D1.
  pose proof (diverse_remove_dups ob_channel obs srcs) as D2.
  pose proof (list_filter_nil (independent_of srcs) obs) as H1.
  pose proof (list_filter_nil (external_to srcs) (List.filter (independent_of srcs) obs)) as H2.
  pose proof (λ o, list_filter_elem (independent_of srcs) obs o) as E1.
  pose proof (λ o, list_filter_elem (external_to srcs) (List.filter (independent_of srcs) obs) o)
    as E2.
  destruct (List.filter (independent_of srcs) obs) as [|o1 l1] eqn:L1.
  { cbn. split_and!; [..|by intros o Ho%elem_of_nil]; (split; [lia|]).
    - intros [_ Ho]. by apply H1 in Ho.
    - intros (_ & o & Ho & Hi & _). exfalso. apply H1; [done|eauto].
    - intros (_ & Hd & _). apply D1 in Hd; cbn in Hd; lia. }
  destruct (List.filter (external_to srcs) (o1 :: l1)) as [|o2 l2] eqn:L2.
  { cbn. split_and!; try (split; [lia|]).
    - split; [intros _|lia]. split; [done|]. exists o1. apply E1. left.
    - intros (_ & o & Ho & Hi & He). exfalso. apply H2; [done|]. exists o.
      split; [by apply E1|done].
    - intros (_ & Hd & _). apply D1 in Hd; cbn in Hd; lia.
    - intros o Ho. apply E1 in Ho as [? ?]. split_and!; auto. }
  assert (o2 ∈ obs ∧ independent_of srcs o2 = true ∧ external_to srcs o2 = true) as (Ho & Hi & He).
  { destruct (proj1 (E2 o2)) as [Hin He]; [left|]. apply E1 in Hin. tauto. }
  assert (∀ o, o ∈ o2 :: l2 → o ∈ obs ∧ independent_of srcs o = true ∧ external_to srcs o = true)
    as Hused.
  { intros o [Hin Hx]%E2. apply E1 in Hin. tauto. }
  destruct (_ && _) eqn:Hd; cbn [VERIFICATION_RANK].
  - boolify. split_and!; try (split; [intros _|lia]); eauto 6; [|naive_solver].
    split_and!; [done|by apply D1|by apply D2].
  - split_and!; try (split; [intros _|lia]); eauto; [|naive_solver].
    split; [lia|]. intros (_ & Ha%D1%Z.leb_le & Hb%D2%Z.leb_le).
    by rewrite Ha, Hb in Hd.
Qed.

(** Collected by someone else, elsewhere, than every execution source; and from a system no
    execution ran on. *)
Definition collected_apart (srcs : list ExecutionSource) (o : EvidenceObservation) : Prop :=
  ∀ s, s ∈ srcs →
    ob_collector_id o ≠ src_adapter_id s ∧ ob_collection_id o ≠ src_collection_id s.
Definition from_outside (srcs : list ExecutionSource) (o : EvidenceObservation) : Prop :=
  ∀ s, s ∈ srcs → ob_source_system o ≠ src_source_system s.

Lemma independent_of_true srcs o : independent_of srcs o = true ↔ collected_apart srcs o.
Proof.
  unfold independent_of, collected_apart. rewrite forallb_elem.
  setoid_rewrite andb_true_iff. by setoid_rewrite negb_true_iff; setoid_rewrite bool_decide_eq_false.
Qed.

Lemma external_to_true srcs o : external_to srcs o = true ↔ from_outside srcs o.
Proof.
  unfold external_to, from_outside. rewrite negb_true_iff, mem_false. split.
  - intros Hn s Hs E. apply Hn. rewrite E. by apply (list_elem_of_fmap_2 src_source_system).
  - intros Hall (s & E & Hs)%list_elem_of_fmap. by apply (Hall s).
Qed.

(** Two values of [attr] among the evidence collected apart and from outside. *)
Definition two_values {A} (attr : EvidenceObservation → A) (obs : list EvidenceObservation)
    (srcs : list ExecutionSource) : Prop :=
  ∃ o1 o2, o1 ∈ obs ∧ o2 ∈ obs ∧ attr o1 ≠ attr o2 ∧
    collected_apart srcs o1 ∧ from_outside srcs o1 ∧ collected_apart srcs o2 ∧ from_outside srcs o2.

(** The independence level means what it says: at least L1 needs evidence from another
    collector and collection than every execution source, at least L2 needs such evidence
    from outside every execution system, and L3 needs two source systems and two
    channels among it; the evidence handed to the claims is of that kind. *)
Theorem independence_level_spec obs srcs :
  let '(level, used) := independence_level obs srcs in
  (1 ≤ VERIFICATION_RANK level ↔ srcs ≠ [] ∧ ∃ o, o ∈ obs ∧ collected_apart srcs o) ∧
  (2 ≤ VERIFICATION_RANK level ↔
    srcs ≠ [] ∧ ∃ o, o ∈ obs ∧ collected_apart srcs o ∧ from_outside srcs o) ∧
  (3 ≤ VERIFICATION_RANK level ↔
    srcs ≠ [] ∧ two_values ob_source_system obs srcs ∧ two_values ob_channel obs srcs) ∧
  (∀ o, o ∈ used → o ∈ obs ∧ collected_apart srcs o ∧
    (2 ≤ VERIFICATION_RANK level → from_outside srcs o)).
Proof.
  pose proof (independence_level_filters obs srcs) as Hf.
  destruct (independence_level obs srcs) as [level used]. unfold diverse in Hf.
  setoid_rewrite independent_of_true in Hf. setoid_rewrite external_to_true in Hf. exact Hf.
Qed.

(** ** Every evaluation yields a valid report *)

Definition ALL_REASONS : list string :=
  HALTING_REASONS ++ ["evidence_conflict"; "evidence_mismatch"; "claims_and_independence_verified"].

Lemma ALL_REASONS_names : forallb Name_ok ALL_REASONS = true.
Proof. by vm_compute. Qed.

Lemma decide_verdict_known reasons outcomes :
  reasons_fit reasons outcomes →
  ∀ reason, reason ∈ (decide_verdict reasons outcomes).2 → reason ∈ ALL_REASONS.
Proof.
  intros [Hfit _] reason Hr. unfold ALL_REASONS. rewrite elem_of_app.
  assert (reason ∈ reasons ∨ reason = "claims_and_independence_verified") as [Hin| ->].
  { unfold decide_verdict in Hr. destruct (existsb _ _); [auto|].
    destruct (_ || _); [auto|]. destruct (_ || _); [auto|]. simpl in Hr.
    apply elem_of_app in Hr as [Hr|Hr]; [auto|]. right. by apply list_elem_of_singleton in Hr. }
  - destruct (Hfit _ Hin) as [?|[[-> _]|[-> _]]]; [auto| |]; right; set_solver.
  - right. set_solver.
Qed.

Lemma evaluate_rule_total `{FloatRepr} inv independent rule :
  pointer_plain (cr_expected_pointer rule) = true → ∃ x, evaluate_rule inv independent rule = Ok x.
Proof.
  intros Hp. unfold evaluate_rule.
  destruct (expected_value_total inv rule Hp) as [[v ->]| ->]; [|eauto].
  destruct (compare_claim _ _ _). eauto.
Qed.

Lemma strip_scalar_finite v : json_finite (scalar_json (strip_scalar v)) = json_finite (scalar_json v).
Proof. by destruct v. Qed.

Lemma expected_value_finite inv rule v :
  expected_value inv rule = Ok v → json_finite (scalar_json v) = true.
Proof.
  unfold expected_value. intros (j & _ & Hr)%bind_ok. unfold require_scalar in Hr.
  destruct j as [| | |f| | |]; try (injection Hr as <-; done); [|done..].
  destruct (sf_is_finite f) eqn:E; [|done]. by injection Hr as <-.
Qed.

Lemma observed_finite obs claim v :
  (∀ o, o ∈ obs → observation_fields_ok o = true) →
  v ∈ observed_values obs claim → json_finite (scalar_json v) = true.
Proof.
  intros Hok (o & Ho & Ha%assoc_elem)%observed_values_elem. specialize (Hok o Ho).
  unfold observation_fields_ok in Hok. boolify.
  match goal with H : forallb _ (ob_claims o) = true |- _ =>
    pose proof (proj1 (forallb_elem _ _) H _ Ha) as Hc end. simpl in Hc. boolify.
  unfold claim_item_ok in *. boolify. simpl in *. by destruct v.
Qed.

Lemma evaluate_rule_finite `{FloatRepr} inv independent rule added c :
  (∀ o, o ∈ independent → observation_fields_ok o = true) →
  evaluate_rule inv independent rule = Ok (added, c) → json_finite (claim_json c) = true.
Proof.
  intros Hok. unfold evaluate_rule. destruct (expected_value inv rule) as [v|[]] eqn:E; try done.
  - destruct (compare_claim _ _ _). intros [= <- <-]. simpl.
    rewrite strip_scalar_finite, (expected_value_finite _ _ _ E), andb_true_r. simpl.
    rewrite forallb_elem. intros j (w & -> & (w' & -> & Hw)%list_elem_of_fmap)%list_elem_of_fmap.
    rewrite strip_scalar_finite. by eapply observed_finite.
  - by intros [= <- <-].
Qed.

Lemma validate_observation_fields `{Sha256, FloatRepr} o :
  validate_observation o = Ok () → observation_fields_ok o = true.
Proof. unfold validate_observation. intros [Hf _]%raise_if_then. by apply negb_false_iff in Hf. Qed.

Lemma receipt_summary_ok o : observation_fields_ok o = true → receipt_ok (receipt_summary o) = true.
Proof.
  unfold observation_fields_ok, receipt_ok. intros Ho. boolify. simpl.
  rewrite !andb_true_iff. tauto.
Qed.

Lemma fresh_subset inv now obs o :
  o ∈ sc_fresh (screen inv now obs) → o ∈ sc_identity_valid (screen inv now obs).
Proof.
  rewrite screen_eq. cbn. rewrite !list_filter_elem. intros [Ho Hr]. split; [done|].
  unfold observation_reason in Hr. by destruct (identity_mismatch inv o).
Qed.

Lemma used_subset inv now obs o :
  o ∈ (independence_of inv now obs).2 → o ∈ sc_fresh (screen inv now obs).
Proof.
  unfold independence_of. pose proof (independence_used (sc_fresh (screen inv now obs))
    (vi_execution_sources inv) o) as Hu. by destruct (independence_level _ _).
Qed.

Lemma identity_valid_subset inv now obs o :
  o ∈ sc_identity_valid (screen inv now obs) → o ∈ obs.
Proof. rewrite screen_eq. cbn. rewrite list_filter_elem. tauto. Qed.

(** The report [evaluate_verification] builds, before it is signed. *)
Definition unsigned_report `{FloatRepr} (inv : VerificationInvocation)
    (obs : list EvidenceObservation) (now : Z) (rules : list (list string * ClaimResult))
    : VerificationReport :=
  let screened := screen inv now obs in
  let reasons := initial_reasons inv screened (independence_of inv now obs).1
                   ++ concat (map fst rules) in
  let final := decide_verdict reasons (map cl_outcome (map snd rules)) in {|
    rp_transaction_id := vi_transaction_id inv; rp_business_digest := vi_business_digest inv;
    rp_verdict := final.1; rp_required_level := vp_required_level (vi_plan inv);
    rp_achieved_level := (independence_of inv now obs).1; rp_evaluated_at := now;
    rp_reasons := sorted_set final.2; rp_claims := map snd rules;
    rp_evidence := map receipt_summary (sc_identity_valid screened);
    rp_synthetic := existsb src_synthetic (vi_execution_sources inv)
                    || existsb ob_synthetic (sc_identity_valid screened);
    rp_report_digest := "" |}.

Lemma evaluate_unsigned `{Sha256, FloatRepr} inv obs now rules :
  mapM_result (evaluate_rule inv (independence_of inv now obs).2) (vp_claim_rules (vi_plan inv))
    = Ok rules →
  evaluate_verification inv obs now = make_report (unsigned_report inv obs now rules).
Proof.
  unfold evaluate_verification, unsigned_report, independence_of.
  destruct (independence_level _ _) as [achieved independent]. cbn [fst snd]. intros ->.
  cbn [mbind result_bind]. by destruct (decide_verdict _ _).
Qed.

Section report_valid.
Context `{Sha256Laws, FloatRepr} (inv : VerificationInvocation)
  (obs : list EvidenceObservation) (now : Z) (rules : list (list string * ClaimResult)).

Notation unsigned := (unsigned_report inv obs now rules).

Hypothesis Hinv : validate_invocation inv = Ok ().
Hypothesis Hobs : ∀ o, o ∈ obs → observation_fields_ok o = true.
Hypothesis Hlen : (length obs ≤ 64)%nat.
Hypothesis HF : Forall2
  (λ rule x, evaluate_rule inv (independence_of inv now obs).2 rule = Ok x)
  (vp_claim_rules (vi_plan inv)) rules.

Lemma used_fields_ok o :
  o ∈ (independence_of inv now obs).2 → observation_fields_ok o = true.
Proof. intros Ho%used_subset%fresh_subset%identity_valid_subset. auto. Qed.

Lemma claims_finite c : c ∈ map snd rules → json_finite (claim_json c) = true.
Proof.
  intros ([added c'] & -> & Hx)%list_elem_of_fmap.
  destruct (Forall2_map_in_r _ _ _ _ HF Hx) as (rule & _ & He).
  eapply evaluate_rule_finite; [|exact He]. exact used_fields_ok.
Qed.

Lemma unsigned_report_finite : json_finite (report_json unsigned) = true.
Proof.
  unfold report_json, unsigned_report. cbv zeta. cbn [json_finite forallb snd rp_reasons rp_claims
    rp_evidence]. unfold json_strs. cbn [json_finite]. rewrite !andb_true_iff.
  split_and!; try done; apply forallb_elem; intros j (x & -> & Hx)%list_elem_of_fmap; try done.
  by apply claims_finite.
Qed.

Lemma unsigned_reasons_ok :
  forallb Name_ok (rp_reasons unsigned) = true ∧
  1 ≤ Z.of_nat (length (rp_reasons unsigned)) ≤ 64 ∧
  rp_reasons unsigned ≠ [].
Proof.
  pose proof (evaluation_reasons_fit inv now obs _ (independence_of inv now obs).1 _ _ HF) as Hfit.
  destruct (decide_verdict_fit _ _ Hfit) as (_ & _ & Hne).
  pose proof (decide_verdict_known _ _ Hfit) as Hall. unfold unsigned_report. cbv zeta.
  cbn [rp_reasons]. destruct (decide_verdict _ _) as [v final]. cbn [fst snd] in *.
  assert (sorted_set final ≠ []) as Hs by (rewrite sorted_set_nil; done).
  pose proof (sorted_set_length final ALL_REASONS Hall) as Hl.
  split_and!; [| |cbn in Hl; lia|done].
  - apply forallb_elem. intros x Hx. rewrite sorted_set_elem in Hx.
    by apply (proj1 (forallb_elem _ _) ALL_REASONS_names), Hall.
  - destruct (sorted_set final); [done|]. cbn. lia.
Qed.

Lemma unsigned_claims_ok :
  forallb (λ c, Name_ok (cl_claim c)) (rp_claims unsigned) = true ∧
  1 ≤ Z.of_nat (length (rp_claims unsigned)) ≤ 32.
Proof.
  unfold validate_invocation, validate_plan in Hinv.
  apply bind_ok in Hinv as ([] & [Hp _]%raise_if_then & _). boolify.
  unfold unsigned_report. cbv zeta. cbn [rp_claims]. rewrite length_map.
  rewrite <-(Forall2_length _ _ _ HF).
  match goal with H : between 1 (Z.of_nat (length (vp_claim_rules _))) 32 = true |- _ =>
    unfold between in H; boolify end.
  split; [|lia]. apply forallb_elem. intros c ([added c'] & -> & Hx)%list_elem_of_fmap.
  destruct (Forall2_map_in_r _ _ _ _ HF Hx) as (rule & Hr & He).
  apply evaluate_rule_spec in He as [Hc _]. cbn [snd]. rewrite Hc.
  match goal with H : forallb _ (vp_claim_rules _) = true |- _ =>
    pose proof (proj1 (forallb_elem _ _) H _ Hr) as Hn end.
  cbv beta in Hn. by boolify.
Qed.

Lemma unsigned_evidence_ok :
  forallb receipt_ok (rp_evidence unsigned) = true ∧
  Z.of_nat (length (rp_evidence unsigned)) ≤ 64.
Proof.
  unfold unsigned_report. cbv zeta. cbn [rp_evidence]. split.
  - apply forallb_elem. intros x (o & -> & Ho)%list_elem_of_fmap.
    apply receipt_summary_ok, Hobs. by eapply identity_valid_subset.
  - rewrite length_map, screen_eq. cbn [sc_identity_valid].
    pose proof (List.filter_length_le (λ o, negb (identity_mismatch inv o)) obs). lia.
Qed.

Lemma unsigned_verified_ok :
  rp_verdict unsigned = VERIFIED →
  VERIFICATION_RANK (rp_required_level unsigned)
    ≤ VERIFICATION_RANK (rp_achieved_level unsigned) ∧
  forallb (is_outcome MATCH) (map cl_outcome (rp_claims unsigned)) = true ∧
  rp_evidence unsigned ≠ [].
Proof.
  unfold unsigned_report. cbv zeta. cbn [rp_verdict rp_required_level rp_achieved_level rp_claims
    rp_evidence]. rewrite decide_verdict_verified. intros ([Hi Hc]%app_nil & _).
  unfold initial_reasons in Hi. apply app_nil in Hi as [_ Hlev].
  destruct (_ <? _) eqn:Hl; [done|]. boolify. rewrite concat_map_nil in Hc.
  assert (∀ x, x ∈ rules → cl_outcome x.2 = MATCH ∧
    ∃ rule, claim_agrees inv (independence_of inv now obs).2 rule) as Hm.
  { intros [added c] Hx. destruct (Forall2_map_in_r _ _ _ _ HF Hx) as (rule & _ & He).
    apply evaluate_rule_spec in He as (_ & Hma & Ha & _).
    assert (cl_outcome c = MATCH) by (apply Ha, (Hc _ Hx)). split; [done|].
    exists rule. by apply Hma. }
  split_and!; [done| |].
  - apply forallb_elem. rewrite map_map. intros o (x & -> & Hx)%list_elem_of_fmap.
    unfold is_outcome. rewrite (proj1 (Hm x Hx)). done.
  - destruct unsigned_claims_ok as [_ Hn]. unfold unsigned_report in Hn. cbv zeta in Hn.
    cbn [rp_claims] in Hn. rewrite length_map in Hn. destruct rules as [|x rules']; [simpl in Hn; lia|].
    destruct (Hm x) as (_ & rule & e & _ & (o & v & Ho & _) & _); [left|].
    apply used_subset, fresh_subset in Ho. intros E.
    assert (receipt_summary o ∈ map receipt_summary (sc_identity_valid (screen inv now obs)))
      as Hin by (by apply (list_elem_of_fmap_2 receipt_summary)).
    rewrite E in Hin. by apply elem_of_nil in Hin.
Qed.

Lemma evaluate_report_valid_aux :
  json_finite (report_json unsigned) = true ∧
  validate_report (set_report_digest unsigned (value_digest (report_json unsigned)))
    = Ok ().
Proof.
  split; [exact unsigned_report_finite|].
  destruct unsigned_reasons_ok as (R1 & R2 & R3), unsigned_claims_ok as (C1 & C2),
    unsigned_evidence_ok as (E1 & E2). pose proof unsigned_verified_ok as V.
  assert (Identifier_ok (vi_transaction_id inv) = true ∧ Digest_ok (vi_business_digest inv) = true)
    as [I1 I2].
  { unfold validate_invocation in Hinv. apply bind_ok in Hinv as ([] & _ & Hv%raise_if_ok). by boolify. }
  assert (NEEDS_REVIEW = rp_verdict unsigned →
    mem CONFLICT (map cl_outcome (rp_claims unsigned))
    || mem MISMATCH (map cl_outcome (rp_claims unsigned)) = true) as N.
  { unfold unsigned_report. cbv zeta. cbn [rp_verdict rp_claims]. intros Hn. symmetry in Hn.
    apply decide_verdict_fit in Hn as [_ Hn];
      [|by eapply evaluation_reasons_fit]. by rewrite orb_true_iff, !mem_true. }
  assert (NoDup (rp_reasons unsigned)) as ND by apply sorted_set_NoDup.
  change (vi_transaction_id inv) with (rp_transaction_id unsigned) in I1.
  change (vi_business_digest inv) with (rp_business_digest unsigned) in I2.
  generalize dependent unsigned. intros u; intros.
  unfold validate_report, report_fields_ok. rewrite report_json_digest_irrelevant.
  cbn [set_report_digest rp_transaction_id rp_business_digest rp_verdict rp_required_level
    rp_achieved_level rp_evaluated_at rp_reasons rp_claims rp_evidence rp_synthetic rp_report_digest].
  rewrite I1, I2, R1, C1, E1, value_digest_ok. unfold between, max_length.
  rewrite !(proj2 (Z.leb_le _ _)) by lia. cbn [negb andb raise_if mbind result_bind].
  rewrite (bool_decide_eq_false_2 (rp_reasons u = [])) by done.
  rewrite (proj2 (has_duplicates_false _) ND), (bool_decide_eq_true_2 (value_digest _ = _)) by done.
  cbn [raise_if mbind result_bind negb].
  destruct (rp_verdict u) eqn:Ev; cbn.
  - destruct V as (V1 & V2 & V3); [done|]. rewrite V2, (proj2 (Z.ltb_ge _ _) V1).
    rewrite (bool_decide_eq_false_2 (rp_evidence u = [])) by done.
    rewrite bool_decide_eq_false_2; [done|]. intros E. rewrite E in C2. simpl in C2. lia.
  - by rewrite N.
  - done.
Qed.

End report_valid.

(** Evaluation is total and its result well formed: for a validated invocation whose
    pointers hold no superscript digit and at most 64 validated observations a report is
    returned, and it passes the report validator, digest included. *)
Theorem evaluate_verification_total `{Sha256Laws, FloatRepr} inv observations now :
  validate_invocation inv = Ok () →
  (∀ o, o ∈ observations → validate_observation o = Ok ()) →
  (length observations ≤ 64)%nat →
  (∀ rule, rule ∈ vp_claim_rules (vi_plan inv) → pointer_plain (cr_expected_pointer rule) = true) →
  ∃ r, evaluate_verification inv observations now = Ok r ∧ validate_report r = Ok ().
Proof.
  intros Hinv Hobs Hlen Hplain.
  assert (∀ o, o ∈ observations → observation_fields_ok o = true) as Hf
    by eauto using validate_observation_fields.
  destruct (mapM_result_total (evaluate_rule inv (independence_of inv now observations).2)
    (vp_claim_rules (vi_plan inv))) as [rules Hrules]; [eauto using evaluate_rule_total|].
  assert (∃ r, evaluate_verification inv observations now = Ok r) as [r Hr].
  2:{ exists r. split; [done|]. apply evaluate_ok in Hr. naive_solver. }
  rewrite (evaluate_unsigned _ _ _ rules) by done. apply mapM_result_Forall2 in Hrules.
  destruct (evaluate_report_valid_aux inv observations now rules Hinv Hf Hlen Hrules) as [Hfin Hv].
  unfold make_report, issue_report. rewrite Hfin. cbn [negb raise_if mbind result_bind].
  rewrite Hv. cbn. eauto.
Qed.

(** ** JSON pointers address the value their tokens name *)

(** [resolve_token] after decoding. *)
Definition step_token (current : json) (token : string) : result VerifyError json :=
  match current with
  | JObj fields =>
      match assoc token fields with Some v => Ok v | None => Err ExpectedValueUnavailable end
  | JList l =>
      if negb (str_isdigit token) || ((1 <? len token) && starts_with_zero token)
      then Err ExpectedValueUnavailable
      else index ← py_int token;
           match l !! Z.to_nat index with Some v => Ok v | None => Err ExpectedValueUnavailable end
  | _ => Err ExpectedValueUnavailable
  end.

(** The escaping of RFC 6901: [~] is written [~0] and [/] is written [~1]. *)
Fixpoint encode_token (t : string) : string :=
  match t with
  | EmptyString => EmptyString
  | String c t' =>
      if code c =? 126 then String tilde (String "0" (encode_token t'))
      else if code c =? 47 then String tilde (String "1" (encode_token t'))
      else String c (encode_token t')
  end.
Fixpoint escape_tilde (t : string) : string :=
  match t with
  | EmptyString => EmptyString
  | String c t' =>
      if code c =? 126 then String tilde (String "0" (escape_tilde t'))
      else String c (escape_tilde t')
  end.
Definition pointer_of (tokens : list string) : string :=
  foldr (λ t s, String slash (encode_token t +:+ s)) EmptyString tokens.

Lemma code_inj c d : code c = code d → c = d.
Proof.
  unfold code. intros E%N2Z.inj. rewrite <-(ascii_N_embedding c), <-(ascii_N_embedding d).
  by rewrite E.
Qed.

Lemma replace_tilde_other d r c s :
  code c ≠ 126 → replace_tilde d r (String c s) = String c (replace_tilde d r s).
Proof.
  intros Hc. destruct s as [|c' s]; [done|]. rewrite replace_tilde_cons.
  by rewrite (proj2 (Z.eqb_neq _ _) Hc).
Qed.

Lemma replace_slash_encode t : replace_tilde "1" slash (encode_token t) = escape_tilde t.
Proof.
  induction t as [|c t IH]; [done|]. cbn [encode_token escape_tilde].
  destruct (code c =? 126) eqn:E1; boolify.
  - rewrite replace_tilde_cons. cbn [andb bool_decide]. rewrite replace_tilde_other by done.
    by rewrite IH.
  - destruct (code c =? 47) eqn:E2; boolify.
    + rewrite replace_tilde_cons. cbn. rewrite IH. f_equal. by apply code_inj.
    + by rewrite replace_tilde_other, IH.
Qed.

Lemma replace_tilde_escape t : replace_tilde "0" tilde (escape_tilde t) = t.
Proof.
  induction t as [|c t IH]; [done|]. cbn [escape_tilde].
  destruct (code c =? 126) eqn:E1; boolify.
  - rewrite replace_tilde_cons. cbn. rewrite IH. f_equal. by apply code_inj.
  - by rewrite replace_tilde_other, IH.
Qed.

Lemma decode_encode_token t : decode_token (encode_token t) = t.
Proof. unfold decode_token. by rewrite replace_slash_encode, replace_tilde_escape. Qed.

Lemma split_slash_cons c s t ts :
  code c ≠ 47 → split_slash s = t :: ts → split_slash (String c s) = String c t :: ts.
Proof. intros Hc E. cbn [split_slash]. by rewrite (proj2 (Z.eqb_neq _ _) Hc), E. Qed.

Lemma encode_token_cases c t :
  encode_token (String c t) = String tilde (String "0" (encode_token t)) ∨
  encode_token (String c t) = String tilde (String "1" (encode_token t)) ∨
  (code c ≠ 47 ∧ encode_token (String c t) = String c (encode_token t)).
Proof.
  cbn [encode_token]. destruct (code c =? 126); [auto|].
  destruct (code c =? 47) eqn:E; boolify; auto.
Qed.

Lemma split_slash_app t s :
  split_slash (encode_token t +:+ String slash s) = encode_token t :: split_slash s.
Proof.
  induction t as [|c t IH]; [done|].
  destruct (encode_token_cases c t) as [-> |[-> |[Hc ->]]]; cbn [String.append];
    repeat (apply split_slash_cons; [done|]); exact IH.
Qed.

Lemma split_slash_token t : split_slash (encode_token t) = [encode_token t].
Proof.
  induction t as [|c t IH]; [done|].
  destruct (encode_token_cases c t) as [-> |[-> |[Hc ->]]];
    repeat (apply split_slash_cons; [done|]); exact IH.
Qed.

Lemma string_app_nil s : s +:+ EmptyString = s.
Proof. induction s as [|c s IH]; [done|]. exact (f_equal (String c) IH). Qed.

Lemma split_pointer tokens : tail (split_slash (pointer_of tokens)) = map encode_token tokens.
Proof.
  destruct tokens as [|t tokens]; [done|]. cbn [pointer_of foldr split_slash].
  change (code slash =? 47) with true. cbn [tail]. revert t.
  induction tokens as [|t' tokens IH]; intros t; cbn [foldr map].
  - by rewrite string_app_nil, split_slash_token.
  - rewrite split_slash_app. f_equal. apply IH.
Qed.

(** Pointer round trip: the pointer written by escaping a list of tokens resolves to
    exactly what stepping through the document with those tokens gives, for every token
    (slashes and tildes included) and every document. *)
Theorem resolve_pointer_roundtrip document tokens :
  resolve_json_pointer document (pointer_of tokens) = foldM step_token document tokens.
Proof.
  unfold resolve_json_pointer. rewrite split_pointer. revert document.
  induction tokens as [|t tokens IH]; intros document; [done|]. cbn [map foldM].
  assert (resolve_token document (encode_token t) = step_token document t) as ->.
  { unfold resolve_token, step_token. rewrite decode_encode_token. destruct document; try done.
    by destruct (_ || _). }
  destruct (step_token document t); [|done]. cbn [mbind result_bind]. apply IH.
Qed.

(** ** Keys are equal exactly for equal normalized values *)

Definition hex_value (c : ascii) : Z := if is_digit c then code c - 48 else code c - 87.

(** Reads a string literal up to its closing quote. *)
Fixpoint unrepr (q : ascii) (s : string) : string :=
  match s with
  | EmptyString => EmptyString
  | String c s1 =>
      if bool_decide (c = q) then EmptyString
      else if code c =? 92 then
        match s1 with
        | EmptyString => EmptyString
        | String d s2 =>
            if code d =? 116 then String (ascii_of_N 9) (unrepr q s2)
            else if code d =? 110 then String (ascii_of_N 10) (unrepr q s2)
            else if code d =? 114 then String (ascii_of_N 13) (unrepr q s2)
            else if code d =? 120 then
              match s2 with
              | String h (String l s3) =>
                  String (ascii_of_N (Z.to_N (16 * hex_value h + hex_value l))) (unrepr q s3)
              | _ => EmptyString
              end
            else String d (unrepr q s2)
        end
      else String c (unrepr q s1)
  end.

Lemma unrepr_char q c s :
  q = quote_char ∨ q = dquote_char → unrepr q (repr_char q c +:+ s) = String c (unrepr q s).
Proof. intros [->| ->]; destruct c as [[][][][][][][][]]; reflexivity. Qed.

Lemma unrepr_chars q s :
  q = quote_char ∨ q = dquote_char → unrepr q (repr_chars q s +:+ String q EmptyString) = s.
Proof.
  intros Hq. induction s as [|c s IH]; cbn [repr_chars].
  - simpl. by rewrite bool_decide_eq_true_2.
  - by rewrite string_app_assoc, unrepr_char, IH.
Qed.

#[export] Instance repr_str_inj : Inj (=) (=) repr_str.
Proof.
  assert (∀ s, repr_quote s = quote_char ∨ repr_quote s = dquote_char) as Hq.
  { intros s. unfold repr_quote. destruct (_ && _); auto. }
  intros s t E. unfold repr_str in E. injection E as Eq E.
  rewrite <-(unrepr_chars _ s (Hq s)), E, Eq. apply unrepr_chars, Hq.
Qed.

Definition scalar_wf (v : ClaimScalar) : Prop :=
  match v with SFloat f => valid_binary 53 1024 f = true | _ => True end.

(** Two claim values have the same normalized key exactly when they are the same
    value of the same type, up to case folding of strings when the rule asks for it: the
    text key confuses neither types (1, true, "1", 1.0) nor values. *)
Theorem normalized_key_injective `{FloatReprLaws} v w n :
  scalar_wf v → scalar_wf w →
  normalized_key v n = normalized_key w n ↔ normalize v n = normalize w n.
Proof.
  intros Hv Hw. split; [|unfold normalized_key; by intros ->].
  assert (scalar_wf (normalize v n) ∧ scalar_wf (normalize w n)) as [Hv' Hw'] by (by destruct n, v, w).
  unfold normalized_key. generalize dependent (normalize v n); intros v' ?.
  generalize dependent (normalize w n); intros w' ?. clear Hv Hw.
  destruct v' as [|b|z|f|s], w' as [|b'|z'|f'|s']; simpl; try done; intros E;
    do 2 apply string_app_cancel in E.
  - by destruct b, b'.
  - f_equal. by apply (inj pretty).
  - f_equal. by apply float_repr_inj.
  - f_equal. by apply (inj repr_str).
Qed.

(** ** A concrete verification *)

#[local] Existing Instances example_sha256 example_float_repr example_sha256_laws.

Definition example_source : ExecutionSource := {|
  src_source_system := "carrier.api"; src_channel := CH_API; src_adapter_id := "carrier-api";
  src_collection_id := "run-1"; src_synthetic := true |}.

Definition example_observation (status : string) : EvidenceObservation := {|
  ob_evidence_id := "ev-1"; ob_tenant_id := "tenant"; ob_transaction_id := "tx-1";
  ob_source_record_id := "ledger:1"; ob_source_system := "synthetic.ledger";
  ob_channel := CH_SYSTEM_RECORD; ob_collector_id := "ledger"; ob_collection_id := "col-1";
  ob_observed_at := 1000000; ob_expires_at := None;
  ob_claims := [("shipment.status", SStr status)]; ob_synthetic := true;
  ob_content_digest := value_digest JNull |}.

Definition example_plan (pointer : string) : VerificationPlan := {|
  vp_required_level := L2;
  vp_collectors := [{| ec_step_id := "collect"; ec_collector_id := "ledger";
                       ec_operation := "read"; ec_input := [] |}];
  vp_claim_rules := [{| cr_claim := "shipment.status"; cr_expected_pointer := pointer;
                        cr_normalization := CASEFOLD |}];
  vp_max_evidence_age_seconds := 3600; vp_future_clock_skew_seconds := 300;
  vp_timeout_seconds := 30;
  vp_retry := {| vr_initial_interval_seconds := py_float 1; vr_backoff_coefficient := py_float 2;
                 vr_maximum_interval_seconds := py_float 30; vr_maximum_attempts := 3 |} |}.

Definition example_invocation (pointer : string) : VerificationInvocation := {|
  vi_tenant_id := "tenant"; vi_transaction_id := "tx-1"; vi_business_digest := value_digest JNull;
  vi_plan := example_plan pointer;
  vi_execution_document := [("shipment", JObj [("status", JStr "IN_TRANSIT")]); ("log", JList [JNull])];
  vi_execution_sources := [example_source] |}.

Definition example_report (status : string) : result VerifyError VerificationReport :=
  evaluate_verification (example_invocation "/shipment/status") [example_observation status] 2000000.

Definition report_or (r : result VerifyError VerificationReport) : VerificationReport :=
  match r with Ok r => r | Err _ => unsigned_report (example_invocation "/a") [] 0 [] end.

Lemma evaluate_verified_iff_witness :
  rp_verdict (report_or (example_report "in_transit")) = VERIFIED ∧
  (∀ o, o ∈ [example_observation "in_transit"] →
     admissible_evidence (example_invocation "/shipment/status") 2000000 o).
Proof.
  assert (rp_verdict (report_or (example_report "in_transit")) = VERIFIED) as Hv by (vm_compute; reflexivity).
  split; [exact Hv|].
  refine (proj1 (proj1 (evaluate_verified_iff (example_invocation "/shipment/status")
    [example_observation "in_transit"] 2000000 (report_or (example_report "in_transit")) _) Hv)).
  vm_compute. reflexivity.
Defined.

Lemma evaluate_verdict_reasons_witness :
  rp_verdict (report_or (example_report "DELAYED")) = NEEDS_REVIEW ∧
  ∃ c, c ∈ rp_claims (report_or (example_report "DELAYED")) ∧
    (cl_outcome c = CONFLICT ∨ cl_outcome c = MISMATCH).
Proof.
  assert (rp_verdict (report_or (example_report "DELAYED")) = NEEDS_REVIEW) as Hv by (vm_compute; reflexivity).
  split; [exact Hv|].
  refine (proj2 (proj1 (proj2 (evaluate_verdict_reasons (example_invocation "/shipment/status")
    [example_observation "DELAYED"] 2000000 (report_or (example_report "DELAYED")) _)) Hv)).
  vm_compute. reflexivity.
Defined.

Lemma evaluate_verification_total_witness :
  ∃ r, example_report "in_transit" = Ok r ∧ validate_report r = Ok ().
Proof.
  apply (evaluate_verification_total (example_invocation "/shipment/status")
    [example_observation "in_transit"] 2000000).
  - vm_compute. reflexivity.
  - intros o Ho. apply list_elem_of_singleton in Ho as ->. vm_compute. reflexivity.
  - simpl. lia.
  - intros rule Hr. apply list_elem_of_singleton in Hr as ->. vm_compute. reflexivity.
Defined.

(** A pointer token that is a superscript digit passes every validator of the invocation
    and [str.isdigit], and then makes [int] raise out of the evaluation. *)
Lemma superscript_pointer_raises :
  let pointer := "/log/" +:+ String (ascii_of_N 178) EmptyString in
  validate_invocation (example_invocation pointer) = Ok () ∧
  evaluate_verification (example_invocation pointer) [example_observation "x"] 2000000
    = Err IntegerParseError.
Proof. vm_compute. split; reflexivity. Qed.

(** A float printer that satisfies the law. *)
Definition spec_float_code (f : spec_float) : bool + bool + () + bool * positive * Z :=
  match f with
  | S754_zero s => inl (inl (inl s)) | S754_infinity s => inl (inl (inr s))
  | S754_nan => inl (inr ()) | S754_finite s m e => inr (s, m, e)
  end.
Definition injective_float_repr : FloatRepr := λ f, pretty (encode (spec_float_code f)).

Lemma injective_float_repr_laws : @FloatReprLaws injective_float_repr.
Proof.
  intros f g _ _ E. unfold float_repr, injective_float_repr in E.
  apply (inj pretty), (inj encode) in E.
  destruct f, g; simpl in E; congruence.
Qed.

Lemma normalized_key_injective_witness :
  @normalized_key injective_float_repr (SFloat (py_float 1)) EXACT
    ≠ @normalized_key injective_float_repr (SInt 1) EXACT.
Proof.
  intros E.
  pose proof (proj1 (@normalized_key_injective injective_float_repr injective_float_repr_laws
    (SFloat (py_float 1)) (SInt 1) EXACT eq_refl I) E) as E'. discriminate E'.
Defined.
