(* ===== verification/EvidenceStore.v ===== *)
(** * Evidence collection (verification/store.py, collectors.py, activities.py)

    The append-only receipt store, the collector registry and the verification activity
    that collects, records and evaluates evidence.  Collectors are a parameter: each is a
    function from an invocation to what its coroutine produces. *)

From S2P Require Import Prelude.
From S2P Require Import Contracts.
From S2P Require Import Ledger.
From S2P Require Import Verification.
From S2P Require Import VerifyEngine.

(** ** Receipt store (SQLiteEvidenceStore) *)

Inductive StoreError :=
| EvidenceConflict
| EvidenceStoreError (code : string).

Record EvidenceStore := { es_closed : bool; es_rows : list EvidenceObservation }.

#[export] Instance observation_row : KeyedRow EvidenceObservation := {|
  row_key := λ o, (ob_tenant_id o, ob_evidence_id o); row_digest := ob_content_digest |}.

Definition ensure_open (s : EvidenceStore) : result StoreError () :=
  raise_if (es_closed s) (EvidenceStoreError "store_closed").

(** [_required_text]. *)
Definition required_text (value : string) : result StoreError () :=
  raise_if (bool_decide (value = "")) (EvidenceStoreError "invalid_observation").

(** The transaction of [append]: look the key up, replay or insert. *)
Definition append_body (o : EvidenceObservation) (s : EvidenceStore)
    : result StoreError (EvidenceStore * EvidenceObservation) :=
  match find_row (ob_tenant_id o, ob_evidence_id o) (es_rows s) with
  | Some row =>
      raise_if (negb (bool_decide (ob_content_digest row = ob_content_digest o))) EvidenceConflict;;
      Ok (s, row)
  | None => Ok ({| es_closed := es_closed s; es_rows := es_rows s ++ [o] |}, o)
  end.

(** [append]. *)
Definition append (o : EvidenceObservation) (s : EvidenceStore)
    : EvidenceStore * result StoreError EvidenceObservation :=
  match (ensure_open s;; required_text (ob_tenant_id o);; required_text (ob_evidence_id o);;
         required_text (ob_content_digest o)) with
  | Ok _ => transact (append_body o) s
  | Err e => (s, Err e)
  end.

(** [get]. *)
Definition get (s : EvidenceStore) (tenant_id evidence_id : string)
    : result StoreError (option EvidenceObservation) :=
  ensure_open s;; Ok (find_row (tenant_id, evidence_id) (es_rows s)).

(** [close]. *)
Definition close (s : EvidenceStore) : EvidenceStore :=
  {| es_closed := true; es_rows := es_rows s |}.

(** ** Collector registry *)

Record CollectionInvocation := {
  ci_tenant_id : string;
  ci_transaction_id : string;
  ci_step_id : string;
  ci_collector_id : string;
  ci_operation : string;
  ci_input : list (string * json) }.

Record CollectionError := { ce_code : string; ce_retryable : bool }.

(** What awaiting a collector gives: an observation, an [EvidenceCollectionError], any
    other exception, or a value of another type. *)
Inductive Collected :=
| CollectedObservation (o : EvidenceObservation)
| CollectedError (e : CollectionError)
| CollectedException
| CollectedOther.

Definition Collector : Type := CollectionInvocation → Collected.
Definition Registry : Type := list (string * Collector).

(** [register]: a second registration of a name is a [ValueError]. *)
Definition register (name : string) (collector : Collector) (r : Registry)
    : result string Registry :=
  match assoc name r with
  | Some _ => Err "evidence collector is already registered"
  | None => Ok (r ++ [(name, collector)])
  end.

(** [EvidenceCollectorRegistry.collect]. *)
Definition collect (r : Registry) (inv : CollectionInvocation)
    : result CollectionError EvidenceObservation :=
  match assoc (ci_collector_id inv) r with
  | None => Err {| ce_code := "evidence_collector_not_found"; ce_retryable := false |}
  | Some collector =>
      match collector inv with
      | CollectedObservation o => Ok o
      | CollectedError e => Err e
      | CollectedException => Err {| ce_code := "evidence_collector_internal"; ce_retryable := false |}
      | CollectedOther => Err {| ce_code := "invalid_evidence_observation"; ce_retryable := false |}
      end
  end.

(** ** Activity *)

(** How the activity fails: a typed Temporal application error, or an exception of the
    evaluation that is not translated. *)
Inductive ActivityFailure :=
| ApplicationError (type_ : string) (non_retryable : bool)
| EvaluationRaised (e : VerifyError).

Definition collection_invocation (inv : VerificationInvocation) (spec : EvidenceCollectionSpec)
    : CollectionInvocation := {|
  ci_tenant_id := vi_tenant_id inv; ci_transaction_id := vi_transaction_id inv;
  ci_step_id := ec_step_id spec; ci_collector_id := ec_collector_id spec;
  ci_operation := ec_operation spec; ci_input := ec_input spec |}.

Definition store_error_code (e : StoreError) : string :=
  match e with EvidenceConflict => "evidence_conflict" | EvidenceStoreError code => code end.

(** The body of the [for spec in invocation.plan.collectors] loop, under its handlers. *)
Definition collect_one (r : Registry) (inv : VerificationInvocation) (s : EvidenceStore)
    (spec : EvidenceCollectionSpec)
    : EvidenceStore * result ActivityFailure EvidenceObservation :=
  match collect r (collection_invocation inv spec) with
  | Err e => (s, Err (ApplicationError (ce_code e) (negb (ce_retryable e))))
  | Ok o =>
      if identity_mismatch inv o then
        (s, Err (ApplicationError "evidence_identity_mismatch" true))
      else
        match append o s with
        | (s', Ok _) => (s', Ok o)
        | (s', Err e) => (s', Err (ApplicationError (store_error_code e) true))
        end
  end.

(** The loop: receipts written before a failure stay written. *)
Fixpoint collect_all (r : Registry) (inv : VerificationInvocation) (s : EvidenceStore)
    (specs : list EvidenceCollectionSpec)
    : EvidenceStore * result ActivityFailure (list EvidenceObservation) :=
  match specs with
  | [] => (s, Ok [])
  | spec :: specs' =>
      match collect_one r inv s spec with
      | (s1, Err e) => (s1, Err e)
      | (s1, Ok o) =>
          match collect_all r inv s1 specs' with
          | (s2, Ok os) => (s2, Ok (o :: os))
          | (s2, Err e) => (s2, Err e)
          end
      end
  end.

(** [VerificationActivities.verify]; [now] is the clock read after collection. *)
Definition verify `{Sha256, FloatRepr} (r : Registry) (inv : VerificationInvocation) (now : Z)
    (s : EvidenceStore) : EvidenceStore * result ActivityFailure VerificationReport :=
  match collect_all r inv s (vp_collectors (vi_plan inv)) with
  | (s', Err e) => (s', Err e)
  | (s', Ok observations) =>
      match evaluate_verification inv observations now with
      | Ok report => (s', Ok report)
      | Err e => (s', Err (EvaluationRaised e))
      end
  end.

(** ** Store lemmas *)

Lemma receipt_append_cases o s s' r :
  append o s = (s', r) →
  (∃ o', r = Ok o' ∧ es_closed s = false ∧ es_closed s' = false ∧
     put o (es_rows s) (es_rows s') o') ∨
  (s' = s ∧ ∃ e, r = Err e).
Proof.
  unfold append, ensure_open. destruct (es_closed s) eqn:Hc; simpl; [intros [= <- <-]; eauto|].
  unfold required_text.
  destruct (bool_decide (ob_tenant_id o = "")); simpl; [intros [= <- <-]; eauto|].
  destruct (bool_decide (ob_evidence_id o = "")); simpl; [intros [= <- <-]; eauto|].
  destruct (bool_decide (ob_content_digest o = "")); simpl; [intros [= <- <-]; eauto|].
  unfold transact, append_body. destruct (find_row _ _) as [row|] eqn:Hf; simpl.
  - destruct (bool_decide _) eqn:Hd; simpl; intros [= <- <-]; [|eauto].
    boolify. left. exists row. split_and!; auto. by constructor.
  - intros [= <- <-]. left. exists o. split_and!; auto. by constructor.
Qed.

(** A row already stored with the digest is replayed. *)
Lemma append_found o s row :
  es_closed s = false → observation_fields_ok o = true →
  find_row (row_key o) (es_rows s) = Some row → row_digest row = row_digest o →
  append o s = (s, Ok row).
Proof.
  intros Hc Ho Hf Hd. unfold append, ensure_open. rewrite Hc. simpl.
  unfold observation_fields_ok in Ho. boolify. unfold required_text.
  rewrite !bool_decide_eq_false_2; [| | |];
    try (intros E; match goal with H : _ _ = true |- _ => rewrite E in H; discriminate H end).
  simpl in *. unfold transact, append_body. rewrite Hf. simpl.
  by rewrite bool_decide_eq_true_2.
Qed.

(** The invariant of the store along the activity. *)
Definition extends (s s' : EvidenceStore) : Prop :=
  es_closed s' = es_closed s ∧ es_rows s `prefix_of` es_rows s' ∧
  (keyed (es_rows s) → keyed (es_rows s')).

Lemma extends_refl s : extends s s.
Proof. by split_and!. Qed.

Lemma extends_trans s1 s2 s3 : extends s1 s2 → extends s2 s3 → extends s1 s3.
Proof. intros (A1 & A2 & A3) (B1 & B2 & B3). split_and!; [congruence|by etrans|auto]. Qed.

Lemma append_extends o s s' r : append o s = (s', r) → extends s s'.
Proof.
  intros [(o' & _ & H1 & H2 & Hp)|[-> _]]%receipt_append_cases; [|apply extends_refl].
  split_and!; [congruence|by eapply put_prefix|intros; by eapply put_keyed].
Qed.

Lemma collect_one_extends r inv s spec s' x : collect_one r inv s spec = (s', x) → extends s s'.
Proof.
  unfold collect_one. destruct (collect _ _) as [o|e]; [|intros [= <- _]; apply extends_refl].
  destruct (identity_mismatch _ _); [intros [= <- _]; apply extends_refl|].
  destruct (append o s) as [s1 [o'|e]] eqn:Ha; intros [= <- _]; by eapply append_extends.
Qed.

Lemma collect_all_extends r inv specs s s' x :
  collect_all r inv s specs = (s', x) → extends s s'.
Proof.
  revert s s' x. induction specs as [|spec specs IH]; intros s s' x; simpl.
  - intros [= <- _]. apply extends_refl.
  - destruct (collect_one _ _ _ _) as [s1 [o|e]] eqn:H1;
      [|intros [= <- _]; by eapply collect_one_extends].
    destruct (collect_all r inv s1 specs) as [s2 [os|e]] eqn:H2; intros [= <- _];
      (eapply extends_trans; [by eapply collect_one_extends|by eapply IH]).
Qed.

(** [o] is recorded: its key maps to a receipt with its digest. *)
Definition recorded (s : EvidenceStore) (o : EvidenceObservation) : Prop :=
  ∃ row, find_row (row_key o) (es_rows s) = Some row ∧ row_digest row = row_digest o.

Lemma recorded_extends s s' o :
  extends s s' → keyed (es_rows s) → recorded s o → recorded s' o.
Proof.
  intros (_ & Hp & Hk) Hn (row & Hf & Hd). exists row. split; [|done].
  eapply find_row_prefix; eauto.
Qed.

Lemma collect_one_ok r inv s spec s' o :
  collect_one r inv s spec = (s', Ok o) →
  collect r (collection_invocation inv spec) = Ok o ∧ identity_mismatch inv o = false ∧
  es_closed s' = false ∧ (keyed (es_rows s) → recorded s' o).
Proof.
  unfold collect_one. destruct (collect _ _) as [o'|e] eqn:Hc; [|done].
  destruct (identity_mismatch inv o') eqn:Hi; [done|].
  destruct (append o' s) as [s1 [row|e]] eqn:Ha; intros [= <- <-].
  apply receipt_append_cases in Ha as [(row' & [= <-] & _ & Hop & Hp)|(_ & ? & ?)]; [|done].
  split_and!; auto. intros Hn. exists row. by eapply put_found.
Qed.

Lemma collect_all_ok r inv specs s s' os :
  keyed (es_rows s) → collect_all r inv s specs = (s', Ok os) →
  Forall2 (λ spec o, collect r (collection_invocation inv spec) = Ok o ∧
    identity_mismatch inv o = false ∧ recorded s' o) specs os.
Proof.
  revert s s' os. induction specs as [|spec specs IH]; intros s s' os Hn; simpl.
  - intros [= _ <-]. constructor.
  - destruct (collect_one _ _ _ _) as [s1 [o|e]] eqn:H1; [|done].
    destruct (collect_all r inv s1 specs) as [s2 [os'|e]] eqn:H2; [|done]. intros [= <- <-].
    pose proof (collect_one_extends _ _ _ _ _ _ H1) as He1.
    pose proof (collect_all_extends _ _ _ _ _ _ H2) as He2.
    assert (keyed (es_rows s1)) as Hn1 by (by apply He1).
    apply collect_one_ok in H1 as (Hc & Hi & _ & Hr).
    constructor; [|by eapply IH].
    split_and!; auto. eapply recorded_extends; eauto.
Qed.

(** C5. Receipts back every report: when the activity returns a report, each evidence
    summary in it comes from an observation of the transaction's own tenant that one of
    the planned collectors returned, and the store holds a receipt for it with the same
    content digest; every receipt that was there before still is, in place. *)
Theorem verify_receipts_recorded `{Sha256, FloatRepr} r inv now s s' report :
  keyed (es_rows s) → verify r inv now s = (s', Ok report) →
  es_rows s `prefix_of` es_rows s' ∧ keyed (es_rows s') ∧
  ∀ summary, summary ∈ rp_evidence report →
    ∃ o spec row, summary = receipt_summary o ∧ spec ∈ vp_collectors (vi_plan inv) ∧
      collect r (collection_invocation inv spec) = Ok o ∧ ob_tenant_id o = vi_tenant_id inv ∧
      find_row (vi_tenant_id inv, rs_evidence_id summary) (es_rows s') = Some row ∧
      ob_content_digest row = rs_content_digest summary.
Proof.
  intros Hn. unfold verify. destruct (collect_all _ _ _ _) as [s1 [os|e]] eqn:Hc; [|done].
  destruct (evaluate_verification _ _ _) as [rep|e] eqn:He; [|done]. intros [= <- <-].
  pose proof (collect_all_extends _ _ _ _ _ _ Hc) as (_ & Hp & Hk).
  split_and!; [done|by apply Hk|]. intros summary Hs.
  apply evaluate_ok in He as (rules & _ & _ & _ & _ & _ & _ & Hev & _). rewrite Hev in Hs.
  apply list_elem_of_fmap in Hs as (o & -> & Ho).
  apply identity_valid_subset in Ho. apply collect_all_ok in Hc; [|done].
  destruct (Forall2_map_in_r _ _ _ _ Hc Ho) as (spec & Hspec & Hcol & Hid & row & Hf & Hd).
  unfold identity_mismatch in Hid. boolify. exists o, spec, row. simpl in *.
  split_and!; try done. congruence.
Qed.

(** Repeating the collection against the store it left replays every receipt. *)
Lemma collect_all_replay r inv specs os s :
  es_closed s = false →
  Forall2 (λ spec o, collect r (collection_invocation inv spec) = Ok o ∧
    identity_mismatch inv o = false ∧ recorded s o ∧ observation_fields_ok o = true) specs os →
  collect_all r inv s specs = (s, Ok os).
Proof.
  intros Hc. induction 1 as [|spec o specs os (Hcol & Hid & (row & Hf & Hd) & Ho) HF IH]; [done|].
  simpl. unfold collect_one. rewrite Hcol, Hid, (append_found o s row) by done. by rewrite IH.
Qed.

(** The activity may be retried: with collectors that answer as before, running it again
    on the store a successful run left changes nothing and returns the same report. *)
Theorem verify_retry_idempotent `{Sha256, FloatRepr} r inv now s s' report :
  keyed (es_rows s) → es_closed s = false →
  (∀ i o, collect r i = Ok o → observation_fields_ok o = true) →
  verify r inv now s = (s', Ok report) → verify r inv now s' = (s', Ok report).
Proof.
  intros Hn Hop Hvalid. unfold verify. destruct (collect_all r inv s _) as [s1 [os|e]] eqn:Hc; [|done].
  destruct (evaluate_verification inv os now) as [rep|e] eqn:He; [|done]. intros [= <- <-].
  rewrite (collect_all_replay r inv _ os s1); [by rewrite He|..].
  - pose proof (collect_all_extends _ _ _ _ _ _ Hc) as [-> _]. done.
  - eapply Forall2_impl; [by eapply collect_all_ok|]. cbv beta. naive_solver.
Qed.

(** Failures are classified: the activity asks for a retry only when a collector itself
    raised a retryable error, and a failure leaves the receipts recorded so far in place. *)
Theorem verify_failure_classified `{Sha256, FloatRepr} r inv now s s' code :
  verify r inv now s = (s', Err (ApplicationError code false)) →
  extends s s' ∧
  ∃ spec collector, spec ∈ vp_collectors (vi_plan inv) ∧
    assoc (ec_collector_id spec) r = Some collector ∧
    collector (collection_invocation inv spec)
      = CollectedError {| ce_code := code; ce_retryable := true |}.
Proof.
  unfold verify. destruct (collect_all r inv s _) as [s1 [os|e]] eqn:Hc;
    [by destruct (evaluate_verification _ _ _)|]. intros [= <- ->].
  split; [by eapply collect_all_extends|]. revert s s1 Hc.
  induction (vp_collectors (vi_plan inv)) as [|spec specs IH]; intros s s1; simpl; [done|].
  destruct (collect_one r inv s spec) as [s2 [o|e]] eqn:H1.
  - destruct (collect_all r inv s2 specs) as [s3 [os|e]] eqn:H2; [done|]. intros [= <- ->].
    destruct (IH _ _ H2) as (spec' & collector & Hs & Hrest). exists spec', collector.
    split; [by right|done].
  - intros [= <- ->]. exists spec. unfold collect_one, collect in H1. cbn [ci_collector_id
      collection_invocation] in H1.
    destruct (assoc (ec_collector_id spec) r) as [collector|]; [|done]. exists collector.
    split; [left|]. split; [done|].
    destruct (collector _) as [o|[code' []]| |]; simplify_eq; try done.
    destruct (identity_mismatch inv o); [done|]. by destruct (append o s) as [? []].
Qed.

(** ** A concrete run *)

#[local] Existing Instances example_sha256 example_float_repr.

Definition example_registry : Registry :=
  [("ledger", λ _, CollectedObservation (example_observation "in_transit"));
   ("flaky", λ _, CollectedError {| ce_code := "evidence_timeout"; ce_retryable := true |})].

Definition example_request : VerificationInvocation := example_invocation "/shipment/status".
Definition example_store : EvidenceStore := {| es_closed := false; es_rows := [] |}.
Definition example_after : EvidenceStore :=
  {| es_closed := false; es_rows := [example_observation "in_transit"] |}.

Lemma verify_receipts_recorded_witness :
  Forall (λ summary, ∃ o, summary = receipt_summary o)
    (rp_evidence (report_or (example_report "in_transit"))).
Proof.
  destruct (verify_receipts_recorded example_registry example_request 2000000 example_store
    example_after (report_or (example_report "in_transit"))) as (_ & _ & Hall).
  - constructor.
  - vm_compute. reflexivity.
  - apply Forall_forall. intros summary Hs.
    destruct (Hall summary Hs) as (o & _ & _ & E & _). exists o. exact E.
Defined.

Lemma verify_retry_idempotent_witness :
  verify example_registry example_request 2000000 example_after
  = (example_after, Ok (report_or (example_report "in_transit"))).
Proof.
  apply (verify_retry_idempotent example_registry example_request 2000000 example_store).
  - constructor.
  - reflexivity.
  - intros i o. unfold collect, example_registry. simpl.
    destruct (decide ("ledger" = ci_collector_id i)).
    + intros [= <-]. vm_compute. reflexivity.
    + destruct (decide ("flaky" = ci_collector_id i)); discriminate.
  - vm_compute. reflexivity.
Defined.

Definition flaky_request : VerificationInvocation := {|
  vi_tenant_id := "tenant"; vi_transaction_id := "tx-1"; vi_business_digest := value_digest JNull;
  vi_plan := {|
    vp_required_level := L2;
    vp_collectors := [{| ec_step_id := "collect"; ec_collector_id := "flaky";
                         ec_operation := "read"; ec_input := [] |}];
    vp_claim_rules := vp_claim_rules (example_plan "/a"); vp_max_evidence_age_seconds := 3600;
    vp_future_clock_skew_seconds := 300; vp_timeout_seconds := 30;
    vp_retry := vp_retry (example_plan "/a") |};
  vi_execution_document := []; vi_execution_sources := [] |}.

Lemma verify_failure_classified_witness : extends example_store example_store.
Proof.
  destruct (verify_failure_classified example_registry flaky_request 0 example_store example_store
    "evidence_timeout") as [He _].
  - vm_compute. reflexivity.
  - exact He.
Defined.
