(* ===== verification/Policy.v ===== *)
(** * Business policy (policy/models.py, policy/evaluator.py, policy/providers.py)

    Payload-free policy inputs, rules, sets and decisions with their validators; the
    deterministic first-match evaluator; and the two providers, which answer every
    request with a decision and deny when anything goes wrong. *)

From Stdlib Require Import Ascii.
From S2P Require Import Prelude.
From S2P Require Import Contracts.
From S2P Require Import Routing.

Inductive PolicyEffect := ALLOW | DENY | REQUIRE_APPROVAL.

#[export] Instance PolicyEffect_eq_dec : EqDecision PolicyEffect.
Proof. solve_decision. Defined.

Definition PolicyEffect_value (e : PolicyEffect) : string :=
  match e with ALLOW => "ALLOW" | DENY => "DENY" | REQUIRE_APPROVAL => "REQUIRE_APPROVAL" end.

Definition is_effect (e e' : PolicyEffect) : bool := bool_decide (e = e').

(** ** Contracts *)

Record PolicyInput := {
  pi_tenant_id : string;
  pi_environment_id : string;
  pi_principal_ref : string;
  pi_capability : string;
  pi_risk_class : RiskClass;
  pi_data_classification : DataClassification;
  pi_requested_verification_level : VerificationLevel;
  pi_route : string;
  pi_channel : ExecutionChannel;
  pi_adapter : string;
  pi_evaluated_at : Z;
  pi_input_digest : string }.

#[export] Instance PolicyInput_eq_dec : EqDecision PolicyInput.
Proof. solve_decision. Defined.

(** [model_dump(exclude={"input_digest"})], canonicalised. *)
Definition input_unsigned_fields (i : PolicyInput) : list (string * json) := [
  ("schema_version", JStr "cargomesh.policy-input/v1"); ("tenant_id", JStr (pi_tenant_id i));
  ("environment_id", JStr (pi_environment_id i)); ("principal_ref", JStr (pi_principal_ref i));
  ("capability", JStr (pi_capability i));
  ("risk_class", JStr (RiskClass_value (pi_risk_class i)));
  ("data_classification", JStr (DataClassification_value (pi_data_classification i)));
  ("requested_verification_level",
    JStr (VerificationLevel_value (pi_requested_verification_level i)));
  ("route", JStr (pi_route i)); ("channel", JStr (ExecutionChannel_value (pi_channel i)));
  ("adapter", JStr (pi_adapter i)); ("evaluated_at", JStr (isoformat (pi_evaluated_at i)))].
Definition input_json (i : PolicyInput) : json :=
  JObj (input_unsigned_fields i ++ [("input_digest", JStr (pi_input_digest i))]).

Definition validate_input `{Sha256, FloatRepr} (i : PolicyInput) : result string () :=
  raise_if (negb (Identifier_ok (pi_tenant_id i) && Identifier_ok (pi_environment_id i)
                  && Identifier_ok (pi_principal_ref i) && Name_ok (pi_capability i)
                  && Name_ok (pi_route i) && Name_ok (pi_adapter i)
                  && Digest_ok (pi_input_digest i))) "field constraint";;
  raise_if (negb (bool_decide (pi_input_digest i = value_digest (JObj (input_unsigned_fields i)))))
    "policy input digest does not match".

(** [PolicyInput.issue]; the digest given is ignored. *)
Definition issue_input `{Sha256, FloatRepr} (i : PolicyInput) : result string PolicyInput :=
  let i' := {| pi_tenant_id := pi_tenant_id i; pi_environment_id := pi_environment_id i;
    pi_principal_ref := pi_principal_ref i; pi_capability := pi_capability i;
    pi_risk_class := pi_risk_class i; pi_data_classification := pi_data_classification i;
    pi_requested_verification_level := pi_requested_verification_level i;
    pi_route := pi_route i; pi_channel := pi_channel i; pi_adapter := pi_adapter i;
    pi_evaluated_at := pi_evaluated_at i;
    pi_input_digest := value_digest (JObj (input_unsigned_fields i)) |} in
  validate_input i';; Ok i'.

Record PolicyRule := {
  pr_rule_id : string;
  pr_priority : Z;
  pr_tenant_ids : list string;
  pr_environment_ids : list string;
  pr_principal_refs : list string;
  pr_capabilities : list string;
  pr_risk_classes : list RiskClass;
  pr_data_classifications : list DataClassification;
  pr_requested_verification_levels : list VerificationLevel;
  pr_routes : list string;
  pr_channels : list ExecutionChannel;
  pr_adapters : list string;
  pr_effect : PolicyEffect;
  pr_approval_requirement : option string;
  pr_reason_code : string;
  pr_rule_digest : string }.

Definition rule_unsigned_fields (r : PolicyRule) : list (string * json) := [
  ("schema_version", JStr "cargomesh.policy-rule/v1"); ("rule_id", JStr (pr_rule_id r));
  ("priority", JInt (pr_priority r)); ("tenant_ids", json_strs (pr_tenant_ids r));
  ("environment_ids", json_strs (pr_environment_ids r));
  ("principal_refs", json_strs (pr_principal_refs r));
  ("capabilities", json_strs (pr_capabilities r));
  ("risk_classes", json_strs (map RiskClass_value (pr_risk_classes r)));
  ("data_classifications", json_strs (map DataClassification_value (pr_data_classifications r)));
  ("requested_verification_levels",
    json_strs (map VerificationLevel_value (pr_requested_verification_levels r)));
  ("routes", json_strs (pr_routes r));
  ("channels", json_strs (map ExecutionChannel_value (pr_channels r)));
  ("adapters", json_strs (pr_adapters r)); ("effect", JStr (PolicyEffect_value (pr_effect r)));
  ("approval_requirement", json_opt JStr (pr_approval_requirement r));
  ("reason_code", JStr (pr_reason_code r))].
Definition rule_json (r : PolicyRule) : json :=
  JObj (rule_unsigned_fields r ++ [("rule_digest", JStr (pr_rule_digest r))]).

Definition rule_fields_ok (r : PolicyRule) : bool :=
  Name_ok (pr_rule_id r) && between (-1000000) (pr_priority r) 1000000
  && forallb Identifier_ok (pr_tenant_ids r) && max_length 64 (pr_tenant_ids r)
  && forallb Identifier_ok (pr_environment_ids r) && max_length 64 (pr_environment_ids r)
  && forallb Identifier_ok (pr_principal_refs r) && max_length 64 (pr_principal_refs r)
  && forallb Name_ok (pr_capabilities r) && max_length 64 (pr_capabilities r)
  && max_length 3 (pr_risk_classes r) && max_length 4 (pr_data_classifications r)
  && max_length 4 (pr_requested_verification_levels r)
  && forallb Name_ok (pr_routes r) && max_length 64 (pr_routes r)
  && max_length 4 (pr_channels r)
  && forallb Name_ok (pr_adapters r) && max_length 64 (pr_adapters r)
  && opt_ok Name_ok (pr_approval_requirement r) && Name_ok (pr_reason_code r)
  && Digest_ok (pr_rule_digest r).

(** [validate_rule]. *)
Definition validate_rule `{Sha256, FloatRepr} (r : PolicyRule) : result string () :=
  raise_if (negb (rule_fields_ok r)) "field constraint";;
  raise_if (has_duplicates (pr_tenant_ids r) || has_duplicates (pr_environment_ids r)
            || has_duplicates (pr_principal_refs r) || has_duplicates (pr_capabilities r)
            || has_duplicates (pr_risk_classes r) || has_duplicates (pr_data_classifications r)
            || has_duplicates (pr_requested_verification_levels r)
            || has_duplicates (pr_routes r) || has_duplicates (pr_channels r)
            || has_duplicates (pr_adapters r)) "selector must be unique";;
  (if is_effect (pr_effect r) REQUIRE_APPROVAL then
     raise_if (is_none (pr_approval_requirement r))
       "approval effect requires an approval requirement"
   else raise_if (negb (is_none (pr_approval_requirement r)))
       "approval requirement requires approval effect");;
  raise_if (negb (bool_decide (pr_rule_digest r = value_digest (JObj (rule_unsigned_fields r)))))
    "policy rule digest does not match".

Record PolicySet := {
  ps_policy_id : string;
  ps_version : string;
  ps_rules : list PolicyRule;
  ps_policy_digest : string }.

Definition set_json (s : PolicySet) : json := JObj [
  ("schema_version", JStr "cargomesh.policy-set/v1"); ("policy_id", JStr (ps_policy_id s));
  ("version", JStr (ps_version s)); ("rules", JList (map rule_json (ps_rules s)))].

(** [validate_set]. *)
Definition validate_set `{Sha256, FloatRepr} (s : PolicySet) : result string () :=
  foldM (λ _ r, validate_rule r) () (ps_rules s);;
  raise_if (negb (Name_ok (ps_policy_id s) && SemVer_ok (ps_version s)
                  && max_length 256 (ps_rules s) && Digest_ok (ps_policy_digest s)))
    "field constraint";;
  raise_if (has_duplicates (map pr_rule_id (ps_rules s))) "policy rule ids must be unique";;
  raise_if (negb (bool_decide (ps_policy_digest s = value_digest (set_json s))))
    "policy set digest does not match".

(** [PolicyRule.issue]; the digest given is ignored. *)
Definition issue_rule `{Sha256, FloatRepr} (r : PolicyRule) : result string PolicyRule :=
  let r' := {| pr_rule_id := pr_rule_id r; pr_priority := pr_priority r; pr_tenant_ids := pr_tenant_ids r;
    pr_environment_ids := pr_environment_ids r; pr_principal_refs := pr_principal_refs r;
    pr_capabilities := pr_capabilities r; pr_risk_classes := pr_risk_classes r;
    pr_data_classifications := pr_data_classifications r;
    pr_requested_verification_levels := pr_requested_verification_levels r; pr_routes := pr_routes r;
    pr_channels := pr_channels r; pr_adapters := pr_adapters r; pr_effect := pr_effect r;
    pr_approval_requirement := pr_approval_requirement r; pr_reason_code := pr_reason_code r;
    pr_rule_digest := value_digest (JObj (rule_unsigned_fields r)) |} in
  validate_rule r';; Ok r'.

(** [PolicySet.issue]. *)
Definition issue_set `{Sha256, FloatRepr} (s : PolicySet) : result string PolicySet :=
  let s' := {| ps_policy_id := ps_policy_id s; ps_version := ps_version s; ps_rules := ps_rules s;
    ps_policy_digest := value_digest (set_json s) |} in
  validate_set s';; Ok s'.

Record PolicyDecision := {
  pd_input : PolicyInput;
  pd_policy_id : string;
  pd_policy_version : string;
  pd_policy_digest : string;
  pd_effect : PolicyEffect;
  pd_matched_rule_id : option string;
  pd_matched_rule_digest : option string;
  pd_approval_requirement : option string;
  pd_reason_code : string;
  pd_evaluated_at : Z;
  pd_decision_digest : string }.

Definition decision_json (d : PolicyDecision) : json := JObj [
  ("schema_version", JStr "cargomesh.policy-decision/v1"); ("input", input_json (pd_input d));
  ("policy_id", JStr (pd_policy_id d)); ("policy_version", JStr (pd_policy_version d));
  ("policy_digest", JStr (pd_policy_digest d));
  ("effect", JStr (PolicyEffect_value (pd_effect d)));
  ("matched_rule_id", json_opt JStr (pd_matched_rule_id d));
  ("matched_rule_digest", json_opt JStr (pd_matched_rule_digest d));
  ("approval_requirement", json_opt JStr (pd_approval_requirement d));
  ("reason_code", JStr (pd_reason_code d));
  ("evaluated_at", JStr (isoformat (pd_evaluated_at d)))].

(** [validate_decision]. *)
Definition validate_decision `{Sha256, FloatRepr} (d : PolicyDecision) : result string () :=
  validate_input (pd_input d);;
  raise_if (negb (Name_ok (pd_policy_id d) && SemVer_ok (pd_policy_version d)
                  && Digest_ok (pd_policy_digest d) && opt_ok Name_ok (pd_matched_rule_id d)
                  && opt_ok Digest_ok (pd_matched_rule_digest d)
                  && opt_ok Name_ok (pd_approval_requirement d) && Name_ok (pd_reason_code d)
                  && Digest_ok (pd_decision_digest d))) "field constraint";;
  raise_if (negb (pd_evaluated_at d =? pi_evaluated_at (pd_input d)))
    "policy decision time must equal input evaluation time";;
  raise_if (negb (bool_decide (is_none (pd_matched_rule_id d) = is_none (pd_matched_rule_digest d))))
    "matched policy rule identity must be complete";;
  (if is_effect (pd_effect d) REQUIRE_APPROVAL then
     raise_if (is_none (pd_approval_requirement d))
       "approval decision requires an approval requirement"
   else raise_if (negb (is_none (pd_approval_requirement d)))
       "approval requirement requires approval decision");;
  raise_if (negb (is_effect (pd_effect d) DENY) && is_none (pd_matched_rule_id d))
    "allow and approval decisions require a matched rule";;
  raise_if (negb (bool_decide (pd_decision_digest d = value_digest (decision_json d))))
    "policy decision digest does not match".

Definition set_decision_digest (d : PolicyDecision) (digest : string) : PolicyDecision := {|
  pd_input := pd_input d; pd_policy_id := pd_policy_id d; pd_policy_version := pd_policy_version d;
  pd_policy_digest := pd_policy_digest d; pd_effect := pd_effect d;
  pd_matched_rule_id := pd_matched_rule_id d; pd_matched_rule_digest := pd_matched_rule_digest d;
  pd_approval_requirement := pd_approval_requirement d; pd_reason_code := pd_reason_code d;
  pd_evaluated_at := pd_evaluated_at d; pd_decision_digest := digest |}.

(** [PolicyDecision.issue] ([issue_model]). *)
Definition issue_decision `{Sha256, FloatRepr} (d : PolicyDecision)
    : result string PolicyDecision :=
  let d' := set_decision_digest d (value_digest (decision_json d)) in
  validate_decision d';; Ok d'.

(** ** Evaluator *)

(** [_in_or_any]. *)
Definition in_or_any {A} `{EqDecision A} (value : A) (selected : list A) : bool :=
  bool_decide (selected = []) || mem value selected.

(** [_matches]. *)
Definition matches (r : PolicyRule) (i : PolicyInput) : bool :=
  in_or_any (pi_tenant_id i) (pr_tenant_ids r)
  && in_or_any (pi_environment_id i) (pr_environment_ids r)
  && in_or_any (pi_principal_ref i) (pr_principal_refs r)
  && in_or_any (pi_capability i) (pr_capabilities r)
  && in_or_any (pi_risk_class i) (pr_risk_classes r)
  && in_or_any (pi_data_classification i) (pr_data_classifications r)
  && in_or_any (pi_requested_verification_level i) (pr_requested_verification_levels r)
  && in_or_any (pi_route i) (pr_routes r)
  && in_or_any (pi_channel i) (pr_channels r)
  && in_or_any (pi_adapter i) (pr_adapters r).

(** [key=lambda item: (item.priority, item.rule_id)]. *)
Definition rule_key (r : PolicyRule) : Z * string := (pr_priority r, pr_rule_id r).
Definition rule_order : relation (Z * string) := lex Z.le String.le.
#[export] Instance rule_order_dec : RelDecision rule_order.
Proof. intros x y. unfold rule_order. apply _. Defined.

(** The loop's first match. *)
Definition first_match (rules : list PolicyRule) (i : PolicyInput) : option PolicyRule :=
  List.find (λ r, matches r i) (sorted_by rule_key rule_order rules).

Definition decision_of (s : PolicySet) (i : PolicyInput) (rule : PolicyRule) : PolicyDecision := {|
  pd_input := i; pd_policy_id := ps_policy_id s; pd_policy_version := ps_version s;
  pd_policy_digest := ps_policy_digest s; pd_effect := pr_effect rule;
  pd_matched_rule_id := Some (pr_rule_id rule);
  pd_matched_rule_digest := Some (pr_rule_digest rule);
  pd_approval_requirement := pr_approval_requirement rule; pd_reason_code := pr_reason_code rule;
  pd_evaluated_at := pi_evaluated_at i; pd_decision_digest := "" |}.

(** [_provider_deny], and the evaluator's default. *)
Definition denial (s : PolicySet) (i : PolicyInput) (reason_code : string) : PolicyDecision := {|
  pd_input := i; pd_policy_id := ps_policy_id s; pd_policy_version := ps_version s;
  pd_policy_digest := ps_policy_digest s; pd_effect := DENY; pd_matched_rule_id := None;
  pd_matched_rule_digest := None; pd_approval_requirement := None; pd_reason_code := reason_code;
  pd_evaluated_at := pi_evaluated_at i; pd_decision_digest := "" |}.
Definition provider_deny `{Sha256, FloatRepr} (s : PolicySet) (i : PolicyInput)
    (reason_code : string) : result string PolicyDecision := issue_decision (denial s i reason_code).

(** [EmbeddedPolicyEvaluator.evaluate]. *)
Definition evaluate `{Sha256, FloatRepr} (s : PolicySet) (i : PolicyInput)
    : result string PolicyDecision :=
  match first_match (ps_rules s) i with
  | Some rule => issue_decision (decision_of s i rule)
  | None => issue_decision (denial s i "policy_no_matching_rule")
  end.

(** ** Providers *)

(** [EmbeddedPolicyProvider.evaluate]. *)
Definition embedded_evaluate `{Sha256, FloatRepr} (s : PolicySet) (i : PolicyInput)
    : result string PolicyDecision :=
  match evaluate s i with
  | Ok d => Ok d
  | Err _ => provider_deny s i "policy_provider_error"
  end.

(** What [_request] followed by [json.loads] yields: a safe provider fault with its code,
    another exception, or a document. *)
Inductive OpaResponse :=
| OpaFault (code : string)
| OpaException
| OpaBody (body : option json).

Definition RESULT_FIELDS : list string :=
  ["policy_id"; "policy_version"; "policy_digest"; "input_digest"; "effect"; "matched_rule_id";
   "matched_rule_digest"; "approval_requirement"; "reason_code"].

Definition same_keys (fields : list (string * json)) (names : list string) : bool :=
  forallb (λ k, mem k names) (map fst fields) && forallb (λ k, mem k (map fst fields)) names.

Definition parse_effect (value : option json) : option PolicyEffect :=
  match value with
  | Some (JStr s) =>
      if bool_decide (s = "ALLOW") then Some ALLOW
      else if bool_decide (s = "DENY") then Some DENY
      else if bool_decide (s = "REQUIRE_APPROVAL") then Some REQUIRE_APPROVAL else None
  | _ => None
  end.

(** [value is None or isinstance(value, str)], and the value. *)
Definition optional_text (value : option json) : option (option string) :=
  match value with Some JNull => Some None | Some (JStr s) => Some (Some s) | _ => None end.

Definition is_text (value : option json) (s : string) : bool :=
  match value with Some (JStr t) => bool_decide (t = s) | _ => false end.

(** [_decode]: every failure becomes [opa_response_invalid]. *)
Definition decode `{Sha256, FloatRepr} (s : PolicySet) (i : PolicyInput) (body : option json)
    : result string PolicyDecision :=
  let invalid := "opa_response_invalid" in
  match body with
  | Some (JObj envelope) =>
      raise_if (negb (same_keys envelope ["result"])) invalid;;
      match assoc "result" envelope with
      | Some (JObj r) =>
          raise_if (negb (same_keys r RESULT_FIELDS)) invalid;;
          raise_if (negb (is_text (assoc "input_digest" r) (pi_input_digest i))) invalid;;
          raise_if (negb (is_text (assoc "policy_id" r) (ps_policy_id s))
                    || negb (is_text (assoc "policy_version" r) (ps_version s))
                    || negb (is_text (assoc "policy_digest" r) (ps_policy_digest s))) invalid;;
          match parse_effect (assoc "effect" r), optional_text (assoc "matched_rule_id" r),
                optional_text (assoc "matched_rule_digest" r),
                optional_text (assoc "approval_requirement" r), assoc "reason_code" r with
          | Some effect, Some rule_id, Some rule_digest, Some approval, Some (JStr reason) =>
              match issue_decision {|
                pd_input := i; pd_policy_id := ps_policy_id s; pd_policy_version := ps_version s;
                pd_policy_digest := ps_policy_digest s; pd_effect := effect;
                pd_matched_rule_id := rule_id; pd_matched_rule_digest := rule_digest;
                pd_approval_requirement := approval; pd_reason_code := reason;
                pd_evaluated_at := pi_evaluated_at i; pd_decision_digest := "" |} with
              | Ok d => Ok d
              | Err _ => Err invalid
              end
          | _, _, _, _, _ => Err invalid
          end
      | _ => Err invalid
      end
  | _ => Err invalid
  end.

(** [OpaPolicyProvider.evaluate], given the response. *)
Definition opa_evaluate `{Sha256, FloatRepr} (s : PolicySet) (i : PolicyInput)
    (response : OpaResponse) : result string PolicyDecision :=
  match response with
  | OpaFault code => provider_deny s i code
  | OpaException => provider_deny s i "policy_provider_error"
  | OpaBody body =>
      match decode s i body with
      | Ok d => Ok d
      | Err code => provider_deny s i code
      end
  end.

(** ** Lemmas *)

Lemma find_sorted {A K} (f : A → K) (R : relation K) `{!RelDecision R, !PartialOrder R, !Total R}
    (p : A → bool) l r :
  List.find p (sorted_by f R l) = Some r →
  r ∈ l ∧ p r = true ∧ ∀ r', r' ∈ l → p r' = true → R (f r) (f r').
Proof.
  intros Hf. pose proof (sorted_by_sorted f R l) as Hs.
  assert (∀ x, x ∈ sorted_by f R l ↔ x ∈ l) as He by (intros; apply sorted_by_elem).
  setoid_rewrite <-He. clear He. revert Hf. generalize dependent (sorted_by f R l). clear l.
  intros l Hs. induction l as [|a l IH]; simpl; [done|].
  apply StronglySorted_cons in Hs as [Ha Hs]. rewrite Forall_forall in Ha.
  destruct (p a) eqn:Hp.
  - intros [= ->]. split_and!; [left|done|]. intros r' [->|Hr]%elem_of_cons _; [reflexivity|].
    by apply Ha.
  - intros Hf. destruct (IH Hs Hf) as (H1 & H2 & H3). split_and!; [by right|done|].
    intros r' [->|Hr]%elem_of_cons Hp'; [congruence|auto].
Qed.

Lemma first_match_Some rules i r :
  first_match rules i = Some r →
  r ∈ rules ∧ matches r i = true ∧
  ∀ r', r' ∈ rules → matches r' i = true → rule_order (rule_key r) (rule_key r').
Proof. apply (find_sorted rule_key rule_order). Qed.

Lemma first_match_None rules i :
  first_match rules i = None → ∀ r, r ∈ rules → matches r i = false.
Proof.
  unfold first_match. intros Hf r Hr. eapply find_none in Hf; [exact Hf|].
  rewrite <-list_elem_of_In. by rewrite sorted_by_elem.
Qed.

Lemma first_match_perm rules rules' i :
  NoDup (map pr_rule_id rules) → rules ≡ₚ rules' → first_match rules i = first_match rules' i.
Proof.
  intros Hn HP. unfold first_match. rewrite (sorted_by_unique rule_key rule_order rules rules'); auto.
  apply (NoDup_fmap_1 snd). by rewrite <-list_fmap_compose.
Qed.

Section issue.
Context `{Sha256Laws, FloatRepr}.

(** A decision whose fields fit together is signed and returned. *)
Definition decision_consistent (d : PolicyDecision) : Prop :=
  validate_input (pd_input d) = Ok () ∧
  Name_ok (pd_policy_id d) = true ∧ SemVer_ok (pd_policy_version d) = true ∧
  Digest_ok (pd_policy_digest d) = true ∧ opt_ok Name_ok (pd_matched_rule_id d) = true ∧
  opt_ok Digest_ok (pd_matched_rule_digest d) = true ∧
  opt_ok Name_ok (pd_approval_requirement d) = true ∧ Name_ok (pd_reason_code d) = true ∧
  pd_evaluated_at d = pi_evaluated_at (pd_input d) ∧
  is_none (pd_matched_rule_id d) = is_none (pd_matched_rule_digest d) ∧
  (pd_effect d = REQUIRE_APPROVAL ↔ is_none (pd_approval_requirement d) = false) ∧
  (pd_effect d ≠ DENY → is_none (pd_matched_rule_id d) = false).

Lemma issue_policy_decision_ok d :
  decision_consistent d →
  issue_decision d = Ok (set_decision_digest d (value_digest (decision_json d))) ∧
  validate_decision (set_decision_digest d (value_digest (decision_json d))) = Ok ().
Proof.
  intros (F1 & F2 & F3 & F4 & F5 & F6 & F7 & F8 & F9 & F10 & F11 & F12).
  assert (validate_decision (set_decision_digest d (value_digest (decision_json d))) = Ok ()) as Hv.
  2:{ unfold issue_decision. by rewrite Hv. }
  unfold validate_decision. cbn [set_decision_digest pd_input pd_policy_id pd_policy_version
    pd_policy_digest pd_effect pd_matched_rule_id pd_matched_rule_digest pd_approval_requirement
    pd_reason_code pd_evaluated_at pd_decision_digest].
  change (decision_json (set_decision_digest d _)) with (decision_json d).
  rewrite F1, F2, F3, F4, F5, F6, F7, F8, F9, Z.eqb_refl, value_digest_ok.
  rewrite !bool_decide_eq_true_2 by done. cbn [mbind result_bind raise_if negb andb].
  unfold is_effect. revert F11 F12.
  destruct (pd_effect d), (is_none (pd_approval_requirement d)); intros [F11 F11'] F12; cbn;
    try (discriminate (F11' eq_refl)); try (discriminate (F11 eq_refl)); cbn;
    rewrite ?F12 by done; done.
Qed.

Lemma issue_decision_inv d d' :
  issue_decision d = Ok d' →
  d' = set_decision_digest d (value_digest (decision_json d)) ∧ validate_decision d' = Ok ().
Proof.
  unfold issue_decision. intros ([] & Hv & [= <-])%bind_ok. done.
Qed.

Context (s : PolicySet) (i : PolicyInput).
Hypothesis Hset : validate_set s = Ok ().
Hypothesis Hinput : validate_input i = Ok ().

Lemma set_identity_ok :
  Name_ok (ps_policy_id s) = true ∧ SemVer_ok (ps_version s) = true ∧
  Digest_ok (ps_policy_digest s) = true.
Proof.
  unfold validate_set in Hset. apply bind_ok in Hset as (_ & _ & [Hf _]%raise_if_then).
  by boolify.
Qed.

Lemma set_rule_ok r : r ∈ ps_rules s → validate_rule r = Ok ().
Proof.
  unfold validate_set in Hset. apply bind_ok in Hset as ([] & Hf & _). clear -Hf.
  induction (ps_rules s) as [|r' rules IH]; [intros Hr; by apply elem_of_nil in Hr|].
  cbn [foldM] in Hf. apply bind_ok in Hf as ([] & Hr' & Hf).
  intros [->|Hr]%elem_of_cons; auto.
Qed.

Lemma denial_consistent reason : Name_ok reason = true → decision_consistent (denial s i reason).
Proof.
  intros Hr. destruct set_identity_ok as (? & ? & ?). unfold denial, decision_consistent. cbn.
  split_and!; done.
Qed.

Lemma rule_decision_consistent r : r ∈ ps_rules s → decision_consistent (decision_of s i r).
Proof.
  intros Hr%set_rule_ok. destruct set_identity_ok as (? & ? & ?).
  unfold validate_rule in Hr. apply raise_if_then in Hr as [Hf Hr].
  apply raise_if_then in Hr as [_ Hr]. apply bind_ok in Hr as ([] & Ha & _).
  unfold rule_fields_ok in Hf. boolify. unfold decision_of, decision_consistent. cbn.
  split_and!; try done. unfold is_effect in Ha.
  destruct (pr_effect r); cbn in Ha; destruct (pr_approval_requirement r); done.
Qed.

(** A provider's denial always succeeds. *)
Lemma provider_deny_ok reason :
  Name_ok reason = true →
  ∃ d, provider_deny s i reason = Ok d ∧ validate_decision d = Ok () ∧ pd_effect d = DENY ∧
    pd_reason_code d = reason ∧ pd_matched_rule_id d = None.
Proof.
  intros Hr. destruct (issue_policy_decision_ok _ (denial_consistent reason Hr)) as [Hi Hv].
  unfold provider_deny. eauto 7.
Qed.

(** The embedded provider answers with the first matching rule's effect, or denies. *)
Lemma embedded_effect :
  ∃ d, embedded_evaluate s i = Ok d ∧ pd_input d = i ∧
    (pd_effect d, pd_reason_code d) =
      match first_match (ps_rules s) i with
      | Some rule => (pr_effect rule, pr_reason_code rule)
      | None => (DENY, "policy_no_matching_rule")
      end.
Proof.
  unfold embedded_evaluate, evaluate. destruct (first_match (ps_rules s) i) as [rule|] eqn:Hm.
  - apply first_match_Some in Hm as (Hr & _).
    destruct (issue_policy_decision_ok _ (rule_decision_consistent rule Hr)) as [-> _]. eauto.
  - destruct (issue_policy_decision_ok _ (denial_consistent "policy_no_matching_rule" eq_refl)) as [-> _]. eauto.
Qed.

(** C3. The evaluator decides by the least matching rule: it always returns a valid
    decision, and that decision is the one of the matching rule with the smallest
    (priority, rule_id), or a DENY without a rule when no rule matches. *)
Theorem evaluate_least_match :
  ∃ d, evaluate s i = Ok d ∧ validate_decision d = Ok () ∧
  ((∃ rule, rule ∈ ps_rules s ∧ matches rule i = true ∧
      (∀ rule', rule' ∈ ps_rules s → matches rule' i = true →
         rule_order (rule_key rule) (rule_key rule')) ∧
      pd_effect d = pr_effect rule ∧ pd_matched_rule_id d = Some (pr_rule_id rule) ∧
      pd_approval_requirement d = pr_approval_requirement rule ∧
      pd_reason_code d = pr_reason_code rule) ∨
   ((∀ rule, rule ∈ ps_rules s → matches rule i = false) ∧ pd_effect d = DENY ∧
      pd_matched_rule_id d = None ∧ pd_reason_code d = "policy_no_matching_rule")).
Proof.
  unfold evaluate. destruct (first_match (ps_rules s) i) as [rule|] eqn:Hm.
  - apply first_match_Some in Hm as (Hr & Hmr & Hleast).
    destruct (issue_policy_decision_ok _ (rule_decision_consistent rule Hr)) as [Hi Hv].
    eexists. split; [exact Hi|]. split; [exact Hv|]. left. exists rule. cbn.
    split_and!; done.
  - destruct (provider_deny_ok "policy_no_matching_rule") as (d & Hd & Hv & ? & ? & ?); [done|].
    exists d. split; [exact Hd|]. split; [exact Hv|]. right.
    split; [by apply first_match_None|auto].
Qed.

(** The codes [_request] and [_decode] raise. *)
Definition response_ok (response : OpaResponse) : bool :=
  match response with OpaFault code => Name_ok code | _ => true end.

Definition result_object (response : OpaResponse) : option (list (string * json)) :=
  match response with
  | OpaBody (Some (JObj envelope)) =>
      match assoc "result" envelope with Some (JObj r) => Some r | _ => None end
  | _ => None
  end.

Lemma decode_ok body d :
  decode s i body = Ok d →
  validate_decision d = Ok () ∧ pd_input d = i ∧
  ∃ r, result_object (OpaBody body) = Some r ∧
    is_text (assoc "input_digest" r) (pi_input_digest i) = true ∧
    is_text (assoc "policy_id" r) (ps_policy_id s) = true ∧
    is_text (assoc "policy_version" r) (ps_version s) = true ∧
    is_text (assoc "policy_digest" r) (ps_policy_digest s) = true ∧
    parse_effect (assoc "effect" r) = Some (pd_effect d).
Proof.
  unfold decode, result_object. destruct body as [[| | | | | |envelope]|]; try done.
  intros [_ Hd]%raise_if_then. destruct (assoc "result" envelope) as [[| | | | | |r]|]; try done.
  apply raise_if_then in Hd as [_ Hd]. apply raise_if_then in Hd as [Hi Hd].
  apply raise_if_then in Hd as [Hp Hd]. boolify.
  destruct (parse_effect _) as [effect|] eqn:He; [|done].
  destruct (optional_text _) as [rule_id|]; [|done].
  destruct (optional_text _) as [rule_digest|]; [|done].
  destruct (optional_text _) as [approval|]; [|done].
  destruct (assoc "reason_code" r) as [[| | | |reason| |]|]; try done.
  destruct (issue_decision _) as [d'|] eqn:Hiss; [|done]. injection Hd as <-.
  apply issue_decision_inv in Hiss as [-> Hv].
  split; [exact Hv|]. split; [done|]. exists r. split_and!; done.
Qed.

Lemma decode_err body code : decode s i body = Err code → code = "opa_response_invalid".
Proof.
  unfold decode. destruct body as [[| | | | | |envelope]|]; try congruence.
  intros [?|Hd]%raise_if_err; [done|].
  destruct (assoc "result" envelope) as [[| | | | | |r]|]; try congruence.
  do 3 (apply raise_if_err in Hd as [?|Hd]; [done|]).
  destruct (parse_effect _); [|congruence].
  do 3 (destruct (optional_text _); [|congruence]).
  destruct (assoc "reason_code" r) as [[]|]; try congruence.
  destruct (issue_decision _); congruence.
Qed.

(** C4. The OPA provider fails closed: whatever the transport or the remote service does, it
    returns a valid decision for this very input, and unless the reply is a result object
    that names this input's digest and this policy's identity, version and digest, that
    decision is DENY. *)
Theorem opa_fails_closed response :
  response_ok response = true →
  ∃ d, opa_evaluate s i response = Ok d ∧ validate_decision d = Ok () ∧ pd_input d = i ∧
  (pd_effect d ≠ DENY →
     ∃ r, result_object response = Some r ∧
       is_text (assoc "input_digest" r) (pi_input_digest i) = true ∧
       is_text (assoc "policy_id" r) (ps_policy_id s) = true ∧
       is_text (assoc "policy_version" r) (ps_version s) = true ∧
       is_text (assoc "policy_digest" r) (ps_policy_digest s) = true ∧
       parse_effect (assoc "effect" r) = Some (pd_effect d)).
Proof.
  assert (∀ code, Name_ok code = true → ∃ d, provider_deny s i code = Ok d ∧
    validate_decision d = Ok () ∧ pd_input d = i ∧ pd_effect d = DENY) as Hdeny.
  { intros code Hc. destruct (issue_policy_decision_ok _ (denial_consistent code Hc)) as [Hi Hv].
    unfold provider_deny. eauto 6. }
  destruct response as [code| |body]; cbn [response_ok opa_evaluate]; intros Hc.
  - destruct (Hdeny code Hc) as (d & Hd & Hv & Hi & He). exists d. done.
  - destruct (Hdeny "policy_provider_error") as (d & Hd & Hv & Hi & He); [done|]. exists d. done.
  - destruct (decode s i body) as [d|code] eqn:Hd.
    + apply decode_ok in Hd as (Hv & Hi & Hr). eauto 6.
    + apply decode_err in Hd as ->. destruct (Hdeny "opa_response_invalid") as (d & Hd & Hv & Hi & He);
        [done|]. exists d. done.
Qed.

End issue.

(** The rules of a set are a set: listing them in another order changes neither the
    effect nor anything else of the decision. *)
Theorem evaluate_rule_order_irrelevant `{Sha256, FloatRepr} s rules i :
  NoDup (map pr_rule_id (ps_rules s)) → ps_rules s ≡ₚ rules →
  evaluate {| ps_policy_id := ps_policy_id s; ps_version := ps_version s; ps_rules := rules;
              ps_policy_digest := ps_policy_digest s |} i = evaluate s i.
Proof.
  intros Hn HP. unfold evaluate. cbn [ps_rules]. by rewrite (first_match_perm (ps_rules s) rules).
Qed.

(** ** Concrete policies *)

#[local] Existing Instances example_sha256 example_float_repr example_sha256_laws.

Definition example_rule (rule_id : string) (priority : Z) (capabilities : list string)
    (effect : PolicyEffect) (approval : option string) : PolicyRule := {|
  pr_rule_id := rule_id; pr_priority := priority; pr_tenant_ids := []; pr_environment_ids := [];
  pr_principal_refs := []; pr_capabilities := capabilities; pr_risk_classes := [];
  pr_data_classifications := []; pr_requested_verification_levels := []; pr_routes := [];
  pr_channels := []; pr_adapters := []; pr_effect := effect; pr_approval_requirement := approval;
  pr_reason_code := "reviewed"; pr_rule_digest := value_digest JNull |}.

Definition example_rules : list PolicyRule :=
  [example_rule "b-allow" 5 ["track"] ALLOW None;
   example_rule "a-approve" 5 ["track"] REQUIRE_APPROVAL (Some "two-person");
   example_rule "deny-all" 10 [] DENY None].

Definition example_set : PolicySet := {|
  ps_policy_id := "default"; ps_version := "1.0.0"; ps_rules := example_rules;
  ps_policy_digest := value_digest JNull |}.

Definition example_input (capability : string) : PolicyInput := {|
  pi_tenant_id := "tenant"; pi_environment_id := "env"; pi_principal_ref := "user";
  pi_capability := capability; pi_risk_class := READ_ONLY; pi_data_classification := PUBLIC;
  pi_requested_verification_level := L2; pi_route := "api"; pi_channel := API;
  pi_adapter := "http"; pi_evaluated_at := 0; pi_input_digest := value_digest JNull |}.

Example evaluate_examples :
  map (λ c, match evaluate example_set (example_input c) with
            | Ok d => Some (pd_effect d, pd_matched_rule_id d) | Err _ => None end)
    ["track"; "amend"]
  = [Some (REQUIRE_APPROVAL, Some "a-approve"); Some (DENY, Some "deny-all")].
Proof. vm_compute. reflexivity. Qed.

Lemma evaluate_least_match_witness :
  ∃ d, evaluate example_set (example_input "track") = Ok d ∧ validate_decision d = Ok ().
Proof.
  destruct (evaluate_least_match example_set (example_input "track")) as (d & Hd & Hv & _).
  - vm_compute. reflexivity.
  - vm_compute. reflexivity.
  - exists d. split; [exact Hd|exact Hv].
Defined.

Lemma opa_fails_closed_witness :
  ∃ d, opa_evaluate example_set (example_input "track") (OpaBody (Some (JObj []))) = Ok d ∧
    pd_input d = example_input "track".
Proof.
  destruct (opa_fails_closed example_set (example_input "track")) with
    (response := OpaBody (Some (JObj []))) as (d & Hd & _ & Hi & _).
  - vm_compute. reflexivity.
  - vm_compute. reflexivity.
  - reflexivity.
  - exists d. split; [exact Hd|exact Hi].
Defined.

Lemma evaluate_rule_order_irrelevant_witness :
  evaluate {| ps_policy_id := ps_policy_id example_set; ps_version := ps_version example_set;
              ps_rules := rev example_rules; ps_policy_digest := ps_policy_digest example_set |}
    (example_input "track") = evaluate example_set (example_input "track").
Proof.
  apply (evaluate_rule_order_irrelevant example_set (rev example_rules) (example_input "track")).
  - apply (bool_decide_unpack _). vm_compute. exact I.
  - apply Permutation_rev.
Defined.

(** The text a set's digest is taken of does depend on the order of its rules, although
    its decisions do not. *)
Lemma policy_digest_text_ordered :
  json_dumps (set_json example_set) ≠
  json_dumps (set_json {| ps_policy_id := "default"; ps_version := "1.0.0";
                          ps_rules := rev example_rules; ps_policy_digest := "" |}).
Proof. vm_compute. discriminate. Qed.
