(* ===== verification/RuntimeModels.v ===== *)
(** * Runtime contracts (runtime/models.py)

    Execution plans with every validator that decides whether a plan may exist, the
    invocations and results that cross the activity boundary, approvals and the
    execution snapshot. *)

From Stdlib Require Import SpecFloat.
From S2P Require Import Prelude.
From S2P Require Import Contracts.
From S2P Require Import Routing.
From S2P Require Import Policy.
From S2P Require Import Verification.

Module Status.

Inductive ExecutionStatus :=
| ACCEPTED | RUNNING | WAITING_APPROVAL | COMPENSATING | VERIFYING | VERIFIED | NEEDS_REVIEW
| EXECUTED_UNVERIFIED | COMPENSATED | REJECTED | HALTED | CANCELLED.

#[export] Instance ExecutionStatus_eq_dec : EqDecision ExecutionStatus.
Proof. solve_decision. Defined.

Definition TERMINAL_EXECUTION_STATUSES : list ExecutionStatus :=
  [EXECUTED_UNVERIFIED; VERIFIED; NEEDS_REVIEW; COMPENSATED; REJECTED; HALTED; CANCELLED].

End Status.
Export (hints) Status.
Notation ExecutionStatus := Status.ExecutionStatus.

(** ** Plans *)

Record RetryPolicySpec := {
  rt_initial_interval_seconds : spec_float;
  rt_backoff_coefficient : spec_float;
  rt_maximum_interval_seconds : spec_float;
  rt_maximum_attempts : Z;
  rt_non_retryable_error_types : list string }.

(** [validate_intervals], after the field constraints. *)
Definition validate_retry_spec (r : RetryPolicySpec) : result string () :=
  raise_if (negb (SFltb (py_float 0) (rt_initial_interval_seconds r)
                  && SFleb (rt_initial_interval_seconds r) (py_float 3600)
                  && SFleb (py_float 1) (rt_backoff_coefficient r)
                  && SFleb (rt_backoff_coefficient r) (py_float 100)
                  && SFltb (py_float 0) (rt_maximum_interval_seconds r)
                  && SFleb (rt_maximum_interval_seconds r) (py_float 86400)
                  && between 1 (rt_maximum_attempts r) 100
                  && forallb Name_ok (rt_non_retryable_error_types r))) "field constraint";;
  raise_if (SFltb (rt_maximum_interval_seconds r) (rt_initial_interval_seconds r))
    "maximum retry interval must not be below the initial interval";;
  raise_if (has_duplicates (rt_non_retryable_error_types r))
    "non-retryable error types must not contain duplicates".

Record CompensationSpec := {
  cp_adapter : string;
  cp_operation : string;
  cp_capability : option string;
  cp_risk_class : RiskClass;
  cp_execution_channel : ExecutionChannel;
  cp_credential_binding_digest : option string;
  cp_include_effect_reference : bool;
  cp_input : list (string * json);
  cp_timeout_seconds : Z;
  cp_retry : RetryPolicySpec }.

Definition validate_compensation (c : CompensationSpec) : result string () :=
  validate_retry_spec (cp_retry c);;
  raise_if (negb (Name_ok (cp_adapter c) && Name_ok (cp_operation c)
                  && opt_ok Name_ok (cp_capability c)
                  && between 1 (cp_timeout_seconds c) 86400)) "field constraint";;
  raise_if (is_read_only (cp_risk_class c)) "compensation must declare an effectful risk class";;
  raise_if (negb (optional_digest_ok (cp_credential_binding_digest c)))
    "credential_binding_digest must be a lowercase sha256 digest";;
  raise_if (negb (is_none (cp_credential_binding_digest c)) && is_none (cp_capability c))
    "compensation credential binding requires a capability";;
  raise_if (cp_include_effect_reference c && is_none (cp_capability c))
    "effect-referenced compensation requires a capability".

Record RouteFallbackSpec := {
  rf_candidate_id : string;
  rf_adapter : string;
  rf_operation : string;
  rf_timeout_seconds : Z;
  rf_retry : RetryPolicySpec;
  rf_fallback_on_error_codes : list string;
  rf_execution_channel : ExecutionChannel;
  rf_credential_binding_digest : option string }.

Definition validate_fallback (f : RouteFallbackSpec) : result string () :=
  validate_retry_spec (rf_retry f);;
  raise_if (negb (Name_ok (rf_candidate_id f) && Name_ok (rf_adapter f) && Name_ok (rf_operation f)
                  && between 1 (rf_timeout_seconds f) 86400
                  && forallb Name_ok (rf_fallback_on_error_codes f))) "field constraint";;
  raise_if (has_duplicates (rf_fallback_on_error_codes f))
    "fallback error codes must not contain duplicates";;
  raise_if (negb (optional_digest_ok (rf_credential_binding_digest f)))
    "credential_binding_digest must be a lowercase sha256 digest".

Record ExecutionStep := {
  st_step_id : string;
  st_capability : string;
  st_adapter : string;
  st_operation : string;
  st_risk_class : RiskClass;
  st_input : list (string * json);
  st_depends_on : list string;
  st_timeout_seconds : Z;
  st_retry : RetryPolicySpec;
  st_requires_approval : bool;
  st_approval_timeout_seconds : option Z;
  st_compensation : option CompensationSpec;
  st_route_candidate_id : option string;
  st_fallback_on_error_codes : list string;
  st_unknown_effect_error_codes : list string;
  st_route_fallbacks : list RouteFallbackSpec;
  st_execution_channel : ExecutionChannel;
  st_credential_binding_digest : option string }.

Definition step_read_only (s : ExecutionStep) : bool := is_read_only (st_risk_class s).
Definition is_nil {A} (l : list A) : bool := match l with [] => true | _ => false end.
Definition opt_mem (o : option string) (l : list string) : bool :=
  match o with Some x => mem x l | None => false end.

Definition step_fields_ok (s : ExecutionStep) : bool :=
  Name_ok (st_step_id s) && Name_ok (st_capability s) && Name_ok (st_adapter s)
  && Name_ok (st_operation s) && forallb Name_ok (st_depends_on s)
  && between 1 (st_timeout_seconds s) 86400
  && opt_ok (λ t, between 1 t 604800) (st_approval_timeout_seconds s)
  && opt_ok Name_ok (st_route_candidate_id s)
  && forallb Name_ok (st_fallback_on_error_codes s)
  && forallb Name_ok (st_unknown_effect_error_codes s).

(** [validate_step]. *)
Definition validate_step (s : ExecutionStep) : result string () :=
  validate_retry_spec (st_retry s);;
  match st_compensation s with Some c => validate_compensation c | None => Ok () end;;
  foldM (λ _ f, validate_fallback f) () (st_route_fallbacks s);;
  raise_if (negb (step_fields_ok s)) "field constraint";;
  raise_if (mem (st_step_id s) (st_depends_on s)) "a step cannot depend on itself";;
  raise_if (has_duplicates (st_depends_on s)) "step dependencies must not contain duplicates";;
  raise_if (negb (st_requires_approval s) && negb (is_none (st_approval_timeout_seconds s)))
    "approval timeout requires an approval boundary";;
  raise_if (step_read_only s && negb (is_none (st_compensation s)))
    "read-only execution steps must not declare compensation";;
  raise_if (has_duplicates (st_fallback_on_error_codes s))
    "fallback error codes must not contain duplicates";;
  raise_if (has_duplicates (st_unknown_effect_error_codes s))
    "unknown-effect error codes must not contain duplicates";;
  raise_if (negb (is_nil (st_unknown_effect_error_codes s)) && step_read_only s)
    "unknown-effect errors require an effectful step";;
  raise_if (negb (is_nil (st_unknown_effect_error_codes s))
            && negb (rt_maximum_attempts (st_retry s) =? 1))
    "unknown-effect steps must disable automatic retries";;
  raise_if (is_none (st_route_candidate_id s)
            && (negb (is_nil (st_fallback_on_error_codes s))
                || negb (is_nil (st_route_fallbacks s))))
    "route fallback metadata requires a selected candidate";;
  raise_if (negb (is_nil (st_route_fallbacks s)) && negb (step_read_only s))
    "automatic route fallback is restricted to read-only steps";;
  raise_if (has_duplicates (map rf_candidate_id (st_route_fallbacks s)))
    "route fallback candidate ids must be unique";;
  raise_if (opt_mem (st_route_candidate_id s) (map rf_candidate_id (st_route_fallbacks s)))
    "selected route cannot also be a fallback";;
  raise_if (negb (optional_digest_ok (st_credential_binding_digest s)))
    "credential_binding_digest must be a lowercase sha256 digest";;
  raise_if (has_secret_values (JObj (st_input s))) "looks like secret material";;
  raise_if (match st_compensation s with
            | Some c => has_secret_values (JObj (cp_input c))
            | None => false
            end) "looks like secret material".

Record ExecutionPlan := {
  pl_transaction_id : string;
  pl_tenant_id : string;
  pl_environment_id : string;
  pl_business_digest : string;
  pl_risk_class : RiskClass;
  pl_verification_level : VerificationLevel;
  pl_data_classification : DataClassification;
  pl_steps : list ExecutionStep;
  pl_verification : option VerificationPlan;
  pl_routing_decisions : list RouteDecision;
  pl_policy_decisions : list PolicyDecision }.

(** The loop over [steps] that grows [available]. *)
Fixpoint dependencies_ok (available : list string) (steps : list ExecutionStep) : bool :=
  match steps with
  | [] => true
  | s :: steps' =>
      forallb (λ d, mem d available) (st_depends_on s)
      && dependencies_ok (st_step_id s :: available) steps'
  end.

(** [max(self.steps, key=...).risk_class]. *)
Definition maximum_step_risk (steps : list ExecutionStep) : RiskClass :=
  foldl (λ m s, if RISK_RANK m <? RISK_RANK (st_risk_class s) then st_risk_class s else m)
    READ_ONLY steps.

Definition is_routed (s : ExecutionStep) : bool := negb (is_none (st_route_candidate_id s)).

(** A frozen route decision matches its step. *)
Definition route_matches (p : ExecutionPlan) (sd : ExecutionStep * RouteDecision) : bool :=
  let '(s, d) := sd in
  bool_decide (rq_tenant_id (d_request d) = pl_tenant_id p)
  && bool_decide (rq_capability (d_request d) = st_capability s)
  && bool_decide (Some (d_selected_candidate_id d) = st_route_candidate_id s)
  && bool_decide (d_fallback_candidate_ids d = map rf_candidate_id (st_route_fallbacks s)).

(** The tuples of [attempts]. *)
Record Attempt := {
  at_step_id : string;
  at_capability : string;
  at_risk_class : RiskClass;
  at_route : string;
  at_adapter : string;
  at_channel : ExecutionChannel;
  at_is_compensation : bool }.

Definition primary_attempt (s : ExecutionStep) : Attempt := {|
  at_step_id := st_step_id s; at_capability := st_capability s; at_risk_class := st_risk_class s;
  at_route := default (st_adapter s) (st_route_candidate_id s); at_adapter := st_adapter s;
  at_channel := st_execution_channel s; at_is_compensation := false |}.
Definition fallback_attempts (s : ExecutionStep) : list Attempt :=
  map (λ f, {|
    at_step_id := st_step_id s; at_capability := st_capability s;
    at_risk_class := st_risk_class s; at_route := rf_candidate_id f; at_adapter := rf_adapter f;
    at_channel := rf_execution_channel f; at_is_compensation := false |}) (st_route_fallbacks s).
Definition compensation_attempt (s : ExecutionStep) : list Attempt :=
  match st_compensation s with
  | Some c =>
      match cp_capability c with
      | Some capability => [{|
          at_step_id := st_step_id s; at_capability := capability;
          at_risk_class := cp_risk_class c; at_route := cp_adapter c; at_adapter := cp_adapter c;
          at_channel := cp_execution_channel c; at_is_compensation := true |}]
      | None => []
      end
  | None => []
  end.
Definition attempts (steps : list ExecutionStep) : list Attempt :=
  map primary_attempt steps ++ concat (map fallback_attempts steps)
    ++ concat (map compensation_attempt steps).

Definition policy_matches (p : ExecutionPlan) (a : Attempt) (i : PolicyInput) : bool :=
  bool_decide (pi_tenant_id i = pl_tenant_id p)
  && bool_decide (pi_environment_id i = pl_environment_id p)
  && bool_decide (pi_capability i = at_capability a)
  && bool_decide (pi_risk_class i = at_risk_class a)
  && bool_decide (pi_data_classification i = pl_data_classification p)
  && bool_decide (pi_requested_verification_level i = pl_verification_level p)
  && bool_decide (pi_route i = at_route a) && bool_decide (pi_adapter i = at_adapter a)
  && bool_decide (pi_channel i = at_channel a).

(** The body of the loop over attempts and decisions; returns [approval_steps]. *)
Definition check_attempt (p : ExecutionPlan) (approval_steps : list string)
    (ad : Attempt * PolicyDecision) : result string (list string) :=
  let '(a, d) := ad in
  raise_if (negb (policy_matches p a (pd_input d)))
    "policy decision does not match its execution attempt";;
  raise_if (is_effect (pd_effect d) DENY) "denied execution attempts cannot enter a plan";;
  if is_effect (pd_effect d) REQUIRE_APPROVAL then
    raise_if (at_is_compensation a) "compensation policy must allow execution directly";;
    Ok (at_step_id a :: approval_steps)
  else Ok approval_steps.

Definition validate_policy_decisions (p : ExecutionPlan) : result string () :=
  match pl_policy_decisions p with
  | [] => Ok ()
  | _ =>
      let l := attempts (pl_steps p) in
      raise_if (negb (Nat.eqb (length l) (length (pl_policy_decisions p))))
        "each execution attempt requires one frozen policy decision";;
      approval_steps ← foldM (check_attempt p) [] (zip l (pl_policy_decisions p));
      raise_if (existsb (λ s, mem (st_step_id s) approval_steps && negb (st_requires_approval s))
                  (pl_steps p)) "policy approval must be frozen into the execution step"
  end.

(** The field constraints of a plan and [validate_plan]. *)
Definition validate_plan_level (p : ExecutionPlan) : result string () :=
  raise_if (negb (Identifier_ok (pl_transaction_id p) && Identifier_ok (pl_tenant_id p)
                  && Identifier_ok (pl_environment_id p))) "field constraint";;
  raise_if (negb (Digest_ok (pl_business_digest p)))
    "business_digest must be a lowercase sha256 digest";;
  raise_if (is_nil (pl_steps p)) "execution plan must contain at least one step";;
  raise_if (has_duplicates (map st_step_id (pl_steps p)))
    "execution plan step ids must be unique";;
  raise_if (negb (dependencies_ok [] (pl_steps p))) "unknown or forward dependencies";;
  raise_if (negb (bool_decide (maximum_step_risk (pl_steps p) = pl_risk_class p)))
    "plan risk_class must equal the highest step risk class";;
  raise_if (match pl_verification p with
            | Some v => negb (bool_decide (vp_required_level v = pl_verification_level p))
            | None => false
            end) "verification plan level must equal execution plan level";;
  let routed_steps := List.filter is_routed (pl_steps p) in
  raise_if (negb (Nat.eqb (length routed_steps) (length (pl_routing_decisions p))))
    "each routed step requires exactly one frozen route decision";;
  raise_if (negb (forallb (route_matches p) (zip routed_steps (pl_routing_decisions p))))
    "route decision does not match its execution step";;
  validate_policy_decisions p.

(** A plan with its parts. *)
Definition validate_execution_plan `{Sha256, FloatRepr} (p : ExecutionPlan) : result string () :=
  foldM (λ _ s, validate_step s) () (pl_steps p);;
  match pl_verification p with Some v => validate_plan v | None => Ok () end;;
  foldM (λ _ d, Routing.validate_decision d) () (pl_routing_decisions p);;
  foldM (λ _ d, Policy.validate_decision d) () (pl_policy_decisions p);;
  validate_plan_level p.

(** ** Activity boundary *)

Record AdapterInvocation := {
  ai_transaction_id : string;
  ai_tenant_id : string;
  ai_environment_id : string;
  ai_step_id : string;
  ai_capability : option string;
  ai_adapter : string;
  ai_operation : string;
  ai_input : list (string * json);
  ai_route_candidate_id : option string;
  ai_credential_binding_digest : option string }.

(** [validate_credentials]. *)
Definition validate_adapter_invocation (i : AdapterInvocation) : result string () :=
  raise_if (negb (Identifier_ok (ai_transaction_id i) && Identifier_ok (ai_tenant_id i)
                  && Identifier_ok (ai_environment_id i) && Name_ok (ai_step_id i)
                  && opt_ok Name_ok (ai_capability i) && Name_ok (ai_adapter i)
                  && Name_ok (ai_operation i) && opt_ok Name_ok (ai_route_candidate_id i)))
    "field constraint";;
  raise_if (negb (optional_digest_ok (ai_credential_binding_digest i)))
    "credential_binding_digest must be a lowercase sha256 digest";;
  raise_if (negb (is_none (ai_credential_binding_digest i)) && is_none (ai_capability i))
    "credential binding requires a capability scope";;
  raise_if (has_secret_values (JObj (ai_input i))) "looks like secret material".

Record AdapterResult := {
  ar_output : list (string * json);
  ar_effect_reference : option string;
  ar_execution_source : option ExecutionSource }.

Record ApprovalDecision := {
  ap_step_id : string;
  ap_approved : bool;
  ap_decided_by : string;
  ap_reason : option string }.

#[export] Instance ApprovalDecision_eq_dec : EqDecision ApprovalDecision.
Proof. solve_decision. Defined.

(** [require_rejection_reason]. *)
Definition validate_approval (d : ApprovalDecision) : result string () :=
  raise_if (negb (Name_ok (ap_step_id d) && Identifier_ok (ap_decided_by d)
                  && opt_ok (λ r, len r <=? 1000) (ap_reason d))) "field constraint";;
  raise_if (negb (ap_approved d) && match ap_reason d with Some r => len r =? 0 | None => true end)
    "a rejected approval requires a reason".

Record StepOutput := {
  so_step_id : string;
  so_output : list (string * json);
  so_effect_reference : option string;
  so_execution_source : option ExecutionSource }.

Record RouteAttempt := {
  ra_step_id : string;
  ra_candidate_id : string;
  ra_adapter : string;
  ra_status : RouteAttemptStatus;
  ra_failure_code : option string }.

(** [validate_attempt]. *)
Definition validate_attempt (a : RouteAttempt) : result string () :=
  raise_if (negb (Name_ok (ra_step_id a) && Name_ok (ra_candidate_id a) && Name_ok (ra_adapter a)
                  && opt_ok Name_ok (ra_failure_code a))) "field constraint";;
  raise_if (bool_decide (ra_status a = SUCCEEDED) && negb (is_none (ra_failure_code a)))
    "successful route attempt must not include a failure code";;
  raise_if (bool_decide (ra_status a = FAILED) && is_none (ra_failure_code a))
    "failed route attempt requires a failure code".

Record ExecutionSnapshot := {
  sn_transaction_id : string;
  sn_workflow_id : string;
  sn_status : ExecutionStatus;
  sn_current_step_id : option string;
  sn_awaiting_approval_step_id : option string;
  sn_completed_step_ids : list string;
  sn_compensated_step_ids : list string;
  sn_outputs : list StepOutput;
  sn_failure_code : option string;
  sn_verification : option VerificationReport;
  sn_routing_decisions : list RouteDecision;
  sn_policy_decisions : list PolicyDecision;
  sn_route_attempts : list RouteAttempt }.

Definition terminal (s : ExecutionSnapshot) : bool :=
  mem (sn_status s) Status.TERMINAL_EXECUTION_STATUSES.

(** ** Lemmas *)

Lemma check_attempts_ok p l acc acc' :
  foldM (check_attempt p) acc l = Ok acc' →
  (∀ x, x ∈ acc → x ∈ acc') ∧
  ∀ a d, (a, d) ∈ l → policy_matches p a (pd_input d) = true ∧ pd_effect d ≠ DENY ∧
    (pd_effect d = REQUIRE_APPROVAL → at_is_compensation a = false ∧ at_step_id a ∈ acc').
Proof.
  revert acc. induction l as [|[a d] l IH]; intros acc; cbn [foldM].
  - intros [= <-]. split; [done|]. intros a d Had. by apply elem_of_nil in Had.
  - intros (acc1 & Hc & Hl)%bind_ok. apply IH in Hl as [Hsub Hall].
    unfold check_attempt in Hc. apply raise_if_then in Hc as [Hm Hc].
    apply raise_if_then in Hc as [Hd Hc]. unfold is_effect in *. boolify.
    case_bool_decide as Hr.
    + apply raise_if_then in Hc as [Hcomp [= <-]]. split.
      * intros x Hx. apply Hsub. by right.
      * intros a' d' [[= -> ->]|Had]%elem_of_cons; [|auto].
        split_and!; auto. intros _. split; [done|]. apply Hsub. left.
    + injection Hc as <-. split; [done|].
      intros a' d' [[= -> ->]|Had]%elem_of_cons; [|auto]. by split_and!.
Qed.

Lemma zip_elem_l {A B} (l : list A) (k : list B) x :
  length l = length k → x ∈ l → ∃ y, (x, y) ∈ zip l k.
Proof.
  intros Hl Hx. apply list_elem_of_lookup in Hx as [i Hi].
  destruct (lookup_lt_is_Some_2 k i) as [y Hy]; [rewrite <-Hl; by eapply lookup_lt_Some|].
  exists y. apply list_elem_of_lookup. exists i. apply lookup_zip_Some; eauto.
Qed.

(** The parts of a validated plan. *)
Lemma validate_plan_parts `{Sha256, FloatRepr} p :
  validate_execution_plan p = Ok () →
  (∀ s, s ∈ pl_steps p → validate_step s = Ok ()) ∧
  (∀ v, pl_verification p = Some v →
     validate_plan v = Ok () ∧ vp_required_level v = pl_verification_level p) ∧
  Identifier_ok (pl_transaction_id p) = true ∧ Identifier_ok (pl_tenant_id p) = true ∧
  Identifier_ok (pl_environment_id p) = true ∧ Digest_ok (pl_business_digest p) = true ∧
  pl_steps p ≠ [] ∧ NoDup (map st_step_id (pl_steps p)) ∧
  dependencies_ok [] (pl_steps p) = true ∧ maximum_step_risk (pl_steps p) = pl_risk_class p ∧
  validate_policy_decisions p = Ok ().
Proof.
  unfold validate_execution_plan, validate_plan_level. intros ([] & Hs & Hp)%bind_ok.
  apply bind_ok in Hp as ([] & Hv & Hp). apply bind_ok in Hp as ([] & _ & Hp).
  apply bind_ok in Hp as ([] & _ & Hp). apply raise_if_then in Hp as [Hi Hp].
  apply raise_if_then in Hp as [Hd Hp]. apply raise_if_then in Hp as [Hn Hp].
  apply raise_if_then in Hp as [Hu Hp]. apply raise_if_then in Hp as [Hdep Hp].
  apply raise_if_then in Hp as [Hr Hp]. apply raise_if_then in Hp as [Hl Hp].
  apply raise_if_then in Hp as [_ Hp]. apply raise_if_then in Hp as [_ Hp].
  rewrite foldM_unit_ok in Hs. apply has_duplicates_false in Hu. boolify. split_and!; try done.
  - intros v E. rewrite E in Hv, Hl. boolify. done.
  - intros E. by rewrite E in Hn.
Qed.

(** A plan with policy decisions is fully covered by them: every primary, fallback and
    capability-scoped compensation attempt has a frozen decision whose input is that very
    attempt, none is denied, a compensation never needs approval, and a step whose attempt
    does is itself an approval step. *)
Theorem plan_policy_coverage `{Sha256, FloatRepr} p :
  validate_execution_plan p = Ok () → pl_policy_decisions p ≠ [] →
  ∀ a, a ∈ attempts (pl_steps p) →
  ∃ d, d ∈ pl_policy_decisions p ∧ policy_matches p a (pd_input d) = true ∧ pd_effect d ≠ DENY ∧
    (pd_effect d = REQUIRE_APPROVAL → at_is_compensation a = false ∧
       ∀ s, s ∈ pl_steps p → st_step_id s = at_step_id a → st_requires_approval s = true).
Proof.
  intros Hp Hne a Ha. apply validate_plan_parts in Hp as (_ & _ & _ & _ & _ & _ & _ & _ & _ & _ & Hpol).
  unfold validate_policy_decisions in Hpol.
  destruct (pl_policy_decisions p) as [|d0 ds] eqn:Ed; [done|]. cbv beta iota zeta in Hpol.
  apply raise_if_then in Hpol as [Hlen Hpol]. apply negb_false_iff, Nat.eqb_eq in Hlen.
  apply bind_ok in Hpol as (acc & Hf & Hex%raise_if_ok).
  apply check_attempts_ok in Hf as [_ Hall].
  destruct (zip_elem_l _ _ a Hlen Ha) as [d Hd]. destruct (Hall a d Hd) as (Hm & He & Hr).
  exists d. split; [by apply elem_of_zip_r in Hd|]. split; [done|]. split; [done|].
  intros Hreq. destruct (Hr Hreq) as [Hc Hin]. split; [done|]. intros s Hs E.
  apply (proj1 (existsb_elem_false _ _) Hex) in Hs. rewrite E in Hs.
  apply (proj2 (mem_true _ _)) in Hin. rewrite Hin in Hs. simpl in Hs. by apply negb_false_iff in Hs.
Qed.

Lemma dependencies_earlier available steps :
  dependencies_ok available steps = true →
  ∀ before s after, steps = before ++ s :: after →
  ∀ d, d ∈ st_depends_on s → d ∈ available ∨ d ∈ map st_step_id before.
Proof.
  revert available. induction steps as [|s' steps IH]; intros available; cbn [dependencies_ok].
  - intros _ before s after E. by destruct before.
  - intros [Hd Hs]%andb_true_iff before s after E d Hin.
    destruct before as [|b before]; injection E as <- E.
    + left. apply (proj1 (forallb_elem _ _) Hd) in Hin. by apply mem_true in Hin.
    + destruct (IH _ Hs before s after E d Hin) as [[->|]%elem_of_cons|]; [|auto|];
        right; simpl; [left|by right].
Qed.

Lemma maximum_risk_spec steps m :
  let r := foldl (λ m s, if RISK_RANK m <? RISK_RANK (st_risk_class s) then st_risk_class s else m)
             m steps in
  RISK_RANK m ≤ RISK_RANK r ∧ ∀ s, s ∈ steps → RISK_RANK (st_risk_class s) ≤ RISK_RANK r.
Proof.
  revert m. induction steps as [|s steps IH]; intros m; cbn [foldl].
  - split; [lia|]. intros s Hs. by apply elem_of_nil in Hs.
  - destruct (_ <? _) eqn:E; boolify.
    + destruct (IH (st_risk_class s)) as [H1 H2]. split; [lia|].
      intros s' [->|Hs]%elem_of_cons; auto.
    + destruct (IH m) as [H1 H2]. split; [lia|]. intros s' [->|Hs]%elem_of_cons; [lia|auto].
Qed.

(** A valid plan is executable in order: its step ids are unique, every dependency of a
    step is the id of an earlier step, and no step exceeds the plan's risk class. *)
Theorem plan_order_and_risk `{Sha256, FloatRepr} p :
  validate_execution_plan p = Ok () →
  NoDup (map st_step_id (pl_steps p)) ∧
  (∀ before s after, pl_steps p = before ++ s :: after →
     ∀ d, d ∈ st_depends_on s → d ∈ map st_step_id before) ∧
  ∀ s, s ∈ pl_steps p → RISK_RANK (st_risk_class s) ≤ RISK_RANK (pl_risk_class p).
Proof.
  intros (_ & _ & _ & _ & _ & _ & _ & Hu & Hd & <- & _)%validate_plan_parts. split_and!; [done|..].
  - intros before s after E d Hin.
    destruct (dependencies_earlier _ _ Hd before s after E d Hin) as [Hn|]; [|done].
    by apply elem_of_nil in Hn.
  - apply maximum_risk_spec.
Qed.

(** ** A concrete plan *)

#[local] Existing Instances example_sha256 example_float_repr.

Definition example_retry : RetryPolicySpec := {|
  rt_initial_interval_seconds := py_float 1; rt_backoff_coefficient := py_float 2;
  rt_maximum_interval_seconds := py_float 60; rt_maximum_attempts := 1;
  rt_non_retryable_error_types := [] |}.

Definition example_compensation : CompensationSpec := {|
  cp_adapter := "portal"; cp_operation := "revert"; cp_capability := Some "amend";
  cp_risk_class := REVERSIBLE_WRITE; cp_execution_channel := API;
  cp_credential_binding_digest := None; cp_include_effect_reference := true; cp_input := [];
  cp_timeout_seconds := 60; cp_retry := example_retry |}.

Definition example_step (step_id : string) (risk : RiskClass) (deps : list string)
    (approval : bool) (compensation : option CompensationSpec) : ExecutionStep := {|
  st_step_id := step_id; st_capability := step_id; st_adapter := "portal"; st_operation := "run";
  st_risk_class := risk; st_input := []; st_depends_on := deps; st_timeout_seconds := 60;
  st_retry := example_retry; st_requires_approval := approval;
  st_approval_timeout_seconds := None; st_compensation := compensation;
  st_route_candidate_id := None; st_fallback_on_error_codes := [];
  st_unknown_effect_error_codes :=
    if is_read_only risk then [] else ["effect_unknown"];
  st_route_fallbacks := []; st_execution_channel := API; st_credential_binding_digest := None |}.

Definition example_steps : list ExecutionStep :=
  [example_step "lookup" READ_ONLY [] false None;
   example_step "amend" REVERSIBLE_WRITE ["lookup"] true (Some example_compensation);
   example_step "confirm" REVERSIBLE_WRITE ["lookup"; "amend"] false (Some example_compensation)].

Definition example_policy (a : Attempt) : PolicyDecision := {|
  pd_input := {|
    pi_tenant_id := "tenant"; pi_environment_id := "local"; pi_principal_ref := "user";
    pi_capability := at_capability a; pi_risk_class := at_risk_class a;
    pi_data_classification := INTERNAL; pi_requested_verification_level := L2;
    pi_route := at_route a; pi_channel := at_channel a; pi_adapter := at_adapter a;
    pi_evaluated_at := 0; pi_input_digest := value_digest JNull |};
  pd_policy_id := "default"; pd_policy_version := "1.0.0"; pd_policy_digest := value_digest JNull;
  pd_effect := if bool_decide (at_step_id a = "amend") && negb (at_is_compensation a)
               then REQUIRE_APPROVAL else ALLOW;
  pd_matched_rule_id := Some "rule"; pd_matched_rule_digest := Some (value_digest JNull);
  pd_approval_requirement :=
    if bool_decide (at_step_id a = "amend") && negb (at_is_compensation a)
    then Some "two-person" else None;
  pd_reason_code := "reviewed"; pd_evaluated_at := 0; pd_decision_digest := value_digest JNull |}.

Definition example_execution_plan : ExecutionPlan := {|
  pl_transaction_id := "tx-1"; pl_tenant_id := "tenant"; pl_environment_id := "local";
  pl_business_digest := value_digest JNull; pl_risk_class := REVERSIBLE_WRITE;
  pl_verification_level := L2; pl_data_classification := INTERNAL; pl_steps := example_steps;
  pl_verification := None; pl_routing_decisions := [];
  pl_policy_decisions := map example_policy (attempts example_steps) |}.

Lemma example_plan_valid : validate_execution_plan example_execution_plan = Ok ().
Proof. vm_compute. reflexivity. Qed.

Lemma plan_policy_coverage_witness :
  ∃ d, d ∈ pl_policy_decisions example_execution_plan ∧ pd_effect d ≠ DENY.
Proof.
  destruct (plan_policy_coverage example_execution_plan)
    with (a := primary_attempt (example_step "lookup" READ_ONLY [] false None))
    as (d & Hd & _ & He & _).
  - exact example_plan_valid.
  - discriminate.
  - apply list_elem_of_In. left. reflexivity.
  - exists d. split; [exact Hd|exact He].
Defined.

Lemma plan_order_and_risk_witness : NoDup ["lookup"; "amend"; "confirm"].
Proof. exact (proj1 (plan_order_and_risk example_execution_plan example_plan_valid)). Defined.
