(* ===== verification/StateMachine.v ===== *)
(** * Execution state machine (runtime/state_machine.py) *)

From S2P Require Import Prelude.
From S2P Require Import RuntimeModels.
Import Status.

(** [_ALLOWED_TRANSITIONS]. *)
Definition ALLOWED_TRANSITIONS (s : ExecutionStatus) : list ExecutionStatus :=
  match s with
  | ACCEPTED => [RUNNING; CANCELLED; HALTED]
  | RUNNING =>
      [WAITING_APPROVAL; COMPENSATING; VERIFYING; EXECUTED_UNVERIFIED; CANCELLED; HALTED]
  | WAITING_APPROVAL => [RUNNING; COMPENSATING; REJECTED; CANCELLED; HALTED]
  | COMPENSATING => [COMPENSATED; REJECTED; HALTED; CANCELLED]
  | VERIFYING => [VERIFIED; NEEDS_REVIEW; HALTED; CANCELLED]
  | VERIFIED | NEEDS_REVIEW | EXECUTED_UNVERIFIED | COMPENSATED | REJECTED | HALTED
  | CANCELLED => []
  end.

Record InvalidExecutionTransition := { current : ExecutionStatus; target : ExecutionStatus }.

(** [transition]. *)
Definition transition (cur tgt : ExecutionStatus)
    : result InvalidExecutionTransition ExecutionStatus :=
  raise_if (negb (mem tgt (ALLOWED_TRANSITIONS cur))) {| current := cur; target := tgt |};;
  Ok tgt.

(** One legal status change. *)
Definition moves (cur tgt : ExecutionStatus) : Prop := transition cur tgt = Ok tgt.

Definition is_terminal (s : ExecutionStatus) : bool := mem s TERMINAL_EXECUTION_STATUSES.

Lemma moves_iff cur tgt : moves cur tgt ↔ tgt ∈ ALLOWED_TRANSITIONS cur.
Proof.
  unfold moves, transition. rewrite <-mem_true.
  destruct (mem tgt (ALLOWED_TRANSITIONS cur)); simpl; split; congruence.
Qed.

Lemma is_terminal_true s : is_terminal s = true ↔ s ∈ TERMINAL_EXECUTION_STATUSES.
Proof. apply mem_true. Qed.

(** A rank that every transition out of a non-terminal status other than the approval
    loop increases; [WAITING_APPROVAL] and [RUNNING] share theirs. *)
Definition phase (s : ExecutionStatus) : Z :=
  match s with
  | ACCEPTED => 0
  | RUNNING | WAITING_APPROVAL => 1
  | COMPENSATING | VERIFYING => 2
  | _ => 3
  end.

(** The status machine only moves forward: from any status reachable moves never go to
    an earlier phase, terminal statuses (and only they) are dead ends, a compensating
    execution can never end verified and a verifying one never compensates. *)
Theorem status_machine_forward s s' :
  star moves s s' →
  phase s ≤ phase s' ∧
  (is_terminal s = true → s' = s) ∧
  (is_terminal s = false → ∃ t, moves s t) ∧
  (s = COMPENSATING → s' ∉ [RUNNING; WAITING_APPROVAL; VERIFYING; VERIFIED; NEEDS_REVIEW;
                            EXECUTED_UNVERIFIED]) ∧
  (s = VERIFYING → s' ∉ [RUNNING; WAITING_APPROVAL; COMPENSATING; COMPENSATED; REJECTED;
                         EXECUTED_UNVERIFIED]).
Proof.
  assert (∀ a, is_terminal a = false → ∃ t, moves a t) as Hlive.
  { intros a Ha. destruct a; try discriminate Ha;
      [exists RUNNING|exists HALTED..]; reflexivity. }
  assert (∀ a b, moves a b → phase a ≤ phase b ∧ is_terminal a = false ∧
    (a = COMPENSATING → is_terminal b = true ∧
       b ∉ [RUNNING; WAITING_APPROVAL; VERIFYING; VERIFIED; NEEDS_REVIEW; EXECUTED_UNVERIFIED]) ∧
    (a = VERIFYING → is_terminal b = true ∧
       b ∉ [RUNNING; WAITING_APPROVAL; COMPENSATING; COMPENSATED; REJECTED; EXECUTED_UNVERIFIED]))
    as Hstep.
  { intros a b. rewrite moves_iff. intros Hm.
    destruct a; cbn in Hm; repeat (apply elem_of_cons in Hm as [->|Hm]);
      try (by apply elem_of_nil in Hm);
      split_and!; try (intros Hn; discriminate Hn); try reflexivity; try (vm_compute; congruence);
      intros _; (split; [reflexivity|]); apply (bool_decide_unpack _); by vm_compute. }
  intros Hs.
  assert (∀ a b, star moves a b → is_terminal a = true → b = a) as Hdead.
  { intros a b [|a' b' c Hab _] Ht; [done|]. apply Hstep in Hab as (_ & Hf & _). congruence. }
  split.
  { induction Hs as [|a b c Hab _ IH]; [lia|]. destruct (Hstep _ _ Hab). lia. }
  split; [by apply Hdead|]. split; [by apply Hlive|].
  split; intros ->; inversion Hs as [|? b ? Hab Hbc]; subst.
  1,3: apply (bool_decide_unpack _); by vm_compute.
  - destruct (Hstep _ _ Hab) as (_ & _ & Hc & _). destruct (Hc eq_refl) as [Ht Hn].
    by rewrite (Hdead _ _ Hbc Ht).
  - destruct (Hstep _ _ Hab) as (_ & _ & _ & Hc). destruct (Hc eq_refl) as [Ht Hn].
    by rewrite (Hdead _ _ Hbc Ht).
Qed.

Lemma status_machine_forward_witness : phase ACCEPTED ≤ phase VERIFIED.
Proof.
  refine (proj1 (status_machine_forward ACCEPTED VERIFIED _)).
  apply (star_step _ _ RUNNING); [reflexivity|]. apply (star_step _ _ VERIFYING); [reflexivity|].
  apply (star_step _ _ VERIFIED); [reflexivity|]. apply star_refl.
Defined.
