(* ===== verification/Planner.v ===== *)
(** * Execution planners (runtime/planner.py)

    The two planners that turn a validated command into an execution plan: the static one
    from configured capability bindings, and the optimizing one, which freezes the routing
    decision of each capability with the health observed at that moment.  Routing policies,
    health and the clock come from providers, arguments here; [store_health] is the provider
    of the outcome store. *)

From Stdlib Require Import SpecFloat Ascii.
From stdpp Require Import pretty.
From S2P Require Import Prelude.
From S2P Require Import Contracts.
From S2P Require Import Documents.
From S2P Require Import Routing.
From S2P Require Import RouteEngine.
From S2P Require Import RouteStore.
From S2P Require Import Policy.
From S2P Require Import Verification.
From S2P Require Import RuntimeModels.

(** What [build] raises; [PlanInvalid] is a [ValueError], as pydantic's errors are. *)
Inductive PlanError :=
| MissingCapabilityBinding (capability : string)
| PlanInvalid (message : string)
| PlanRoute (e : RouteError)
| PlanHealth (e : RouteStoreError)
| PlanKeyError (key : string).

Definition plan_value {A} (r : result string A) : result PlanError A :=
  match r with Ok a => Ok a | Err m => Err (PlanInvalid m) end.

Record CapabilityBinding := {
  cb_adapter : string;
  cb_operation : string;
  cb_requires_approval : bool;
  cb_approval_timeout_seconds : option Z;
  cb_timeout_seconds : Z;
  cb_retry : RetryPolicySpec;
  cb_execution_channel : ExecutionChannel }.

(** The field constraints: no bounds on the timeouts. *)
Definition validate_binding (b : CapabilityBinding) : result string () :=
  validate_retry_spec (cb_retry b);;
  raise_if (negb (Name_ok (cb_adapter b) && Name_ok (cb_operation b))) "field constraint".

(** [f"execute-{index}-{capability.replace('.', '-')}"]. *)
Fixpoint replace_dots (s : string) : string :=
  match s with
  | EmptyString => EmptyString
  | String c s' => String (if code c =? 46 then ascii_of_nat 45 else c) (replace_dots s')
  end.
Definition step_identifier (index : Z) (capability : string) : string :=
  "execute-" +:+ pretty index +:+ "-" +:+ replace_dots capability.

Definition depends_on (previous : option string) : list string :=
  match previous with Some p => [p] | None => [] end.

Section planners.
Context `{Sha256, FloatRepr, DatetimeText}.

(** [ExecutionPlan(...)]. *)
Definition make_plan (p : ExecutionPlan) : result PlanError ExecutionPlan :=
  plan_value (validate_execution_plan p);; Ok p.

Definition step_input (c : TransactionCommand) : list (string * json) :=
  [("transaction", command_payload c)].

(** [self._verification_factory(command) if self._verification_factory is not None else None]. *)
Definition VerificationFactory : Type := TransactionCommand → result PlanError (option VerificationPlan).
Definition call_factory (factory : option VerificationFactory) (c : TransactionCommand)
    : result PlanError (option VerificationPlan) :=
  match factory with Some f => f c | None => Ok None end.

(** ** StaticExecutionPlanner *)

Definition static_step (c : TransactionCommand) (index : Z) (capability : string)
    (binding : CapabilityBinding) (previous : option string) : ExecutionStep := {|
  st_step_id := step_identifier index capability; st_capability := capability;
  st_adapter := cb_adapter binding; st_operation := cb_operation binding;
  st_risk_class := tc_risk_class c; st_input := step_input c;
  st_depends_on := depends_on previous; st_timeout_seconds := cb_timeout_seconds binding;
  st_retry := cb_retry binding; st_requires_approval := cb_requires_approval binding;
  st_approval_timeout_seconds := cb_approval_timeout_seconds binding; st_compensation := None;
  st_route_candidate_id := None; st_fallback_on_error_codes := [];
  st_unknown_effect_error_codes := []; st_route_fallbacks := [];
  st_execution_channel := cb_execution_channel binding; st_credential_binding_digest := None |}.

(** The loop over [enumerate(command.required_capabilities, start=1)]. *)
Fixpoint static_steps (bindings : gmap string CapabilityBinding) (c : TransactionCommand)
    (index : Z) (previous : option string) (capabilities : list Capability)
    : result PlanError (list ExecutionStep) :=
  match capabilities with
  | [] => Ok []
  | capability_value :: rest =>
      let capability := Capability_value capability_value in
      binding ← match bindings !! capability with
                | Some b => Ok b
                | None => Err (MissingCapabilityBinding capability)
                end;
      let step := static_step c index capability binding previous in
      plan_value (validate_step step);;
      steps ← static_steps bindings c (index + 1) (Some (st_step_id step)) rest;
      Ok (step :: steps)
  end.

(** [StaticExecutionPlanner.build]. *)
Definition static_build (bindings : gmap string CapabilityBinding)
    (factory : option VerificationFactory) (c : TransactionCommand)
    (transaction_id business_digest : string) : result PlanError ExecutionPlan :=
  steps ← static_steps bindings c 1 None (tc_required_capabilities c);
  verification ← call_factory factory c;
  make_plan {|
    pl_transaction_id := transaction_id; pl_tenant_id := tc_tenant_id c;
    pl_environment_id := "local"; pl_business_digest := business_digest;
    pl_risk_class := tc_risk_class c; pl_verification_level := tc_minimum_independence_level c;
    pl_data_classification := INTERNAL; pl_steps := steps; pl_verification := verification;
    pl_routing_decisions := []; pl_policy_decisions := [] |}.

(** ** OptimizingExecutionPlanner *)

(** [_runtime_retry]: [RetryPolicySpec.model_validate(candidate.retry.model_dump())]. *)
Definition runtime_retry (c : RouteCandidate) : result PlanError RetryPolicySpec :=
  let r := {|
    rt_initial_interval_seconds := rr_initial_interval_seconds (c_retry c);
    rt_backoff_coefficient := rr_backoff_coefficient (c_retry c);
    rt_maximum_interval_seconds := rr_maximum_interval_seconds (c_retry c);
    rt_maximum_attempts := rr_maximum_attempts (c_retry c);
    rt_non_retryable_error_types := rr_non_retryable_error_types (c_retry c) |} in
  plan_value (validate_retry_spec r);; Ok r.

(** [_runtime_fallback]. *)
Definition runtime_fallback (c : RouteCandidate) : result PlanError RouteFallbackSpec :=
  retry ← runtime_retry c;
  let f := {|
    rf_candidate_id := c_candidate_id c; rf_adapter := c_adapter c; rf_operation := c_operation c;
    rf_timeout_seconds := c_timeout_seconds c; rf_retry := retry;
    rf_fallback_on_error_codes := c_fallback_on_error_codes c; rf_execution_channel := c_channel c;
    rf_credential_binding_digest := None |} in
  plan_value (validate_fallback f);; Ok f.

(** [candidate_by_id[candidate_id]]. *)
Definition candidate_lookup (candidates : list RouteCandidate) (candidate_id : string)
    : result PlanError RouteCandidate :=
  match candidate_by_id candidates !! candidate_id with
  | Some c => Ok c
  | None => Err (PlanKeyError candidate_id)
  end.

(** The field constraints of [RoutingRequest]; its time is timezone-aware. *)
Definition validate_routing_request (r : RoutingRequest) : result string () :=
  raise_if (negb (Identifier_ok (rq_tenant_id r) && Name_ok (rq_capability r))) "field constraint".

Definition HealthProvider : Type :=
  string → RouteCandidate → RoutingPolicy → Z → result RouteStoreError RouteHealthSnapshot.
Definition plan_health {A} (r : result RouteStoreError A) : result PlanError A :=
  match r with Ok a => Ok a | Err e => Err (PlanHealth e) end.

Record OptimizingPlanner := {
  op_candidates : list RouteCandidate;
  op_policy_for : TransactionCommand → result PlanError RoutingPolicy;
  op_health : HealthProvider;
  (** The reading of the clock for the [index]-th capability. *)
  op_clock : Z → Z;
  op_data_classification : DataClassification;
  op_verification_factory : option VerificationFactory }.

Definition routing_request (o : OptimizingPlanner) (c : TransactionCommand) (index : Z)
    (capability : string) : RoutingRequest := {|
  rq_tenant_id := tc_tenant_id c; rq_capability := capability; rq_risk_class := tc_risk_class c;
  rq_data_classification := op_data_classification o;
  rq_required_verification_level := tc_minimum_independence_level c;
  rq_evaluated_at := op_clock o index |}.

Definition capable (o : OptimizingPlanner) (capability : string) : list RouteCandidate :=
  filter (λ candidate, c_capability candidate = capability) (op_candidates o).

Definition optimized_step (c : TransactionCommand) (index : Z) (capability : string)
    (selected : RouteCandidate) (retry : RetryPolicySpec) (fallbacks : list RouteFallbackSpec)
    (previous : option string) : ExecutionStep := {|
  st_step_id := step_identifier index capability; st_capability := capability;
  st_adapter := c_adapter selected; st_operation := c_operation selected;
  st_risk_class := tc_risk_class c; st_input := step_input c;
  st_depends_on := depends_on previous; st_timeout_seconds := c_timeout_seconds selected;
  st_retry := retry; st_requires_approval := c_requires_approval selected;
  st_approval_timeout_seconds := c_approval_timeout_seconds selected; st_compensation := None;
  st_route_candidate_id := Some (c_candidate_id selected);
  st_fallback_on_error_codes := c_fallback_on_error_codes selected;
  st_unknown_effect_error_codes := []; st_route_fallbacks := fallbacks;
  st_execution_channel := c_channel selected; st_credential_binding_digest := None |}.

(** The body of the loop: route one capability and build its step. *)
Definition route_capability (o : OptimizingPlanner) (policy : RoutingPolicy)
    (c : TransactionCommand) (index : Z) (capability : string) (previous : option string)
    : result PlanError (ExecutionStep * RouteDecision) :=
  let candidates := capable o capability in
  let request := routing_request o c index capability in
  plan_value (validate_routing_request request);;
  health ← plan_health (mapM_result (λ candidate,
             op_health o (tc_tenant_id c) candidate policy (rq_evaluated_at request)) candidates);
  decision ← match select_route request candidates health policy with
             | Ok d => Ok d
             | Err e => Err (PlanRoute e)
             end;
  selected ← candidate_lookup candidates (d_selected_candidate_id decision);
  fallbacks ← mapM_result (λ candidate_id,
                candidate ← candidate_lookup candidates candidate_id;
                runtime_fallback candidate) (d_fallback_candidate_ids decision);
  retry ← runtime_retry selected;
  let step := optimized_step c index capability selected retry fallbacks previous in
  plan_value (validate_step step);;
  Ok (step, decision).

Fixpoint optimized_steps (o : OptimizingPlanner) (policy : RoutingPolicy) (c : TransactionCommand)
    (index : Z) (previous : option string) (capabilities : list Capability)
    : result PlanError (list (ExecutionStep * RouteDecision)) :=
  match capabilities with
  | [] => Ok []
  | capability_value :: rest =>
      routed ← route_capability o policy c index (Capability_value capability_value) previous;
      steps ← optimized_steps o policy c (index + 1) (Some (st_step_id routed.1)) rest;
      Ok (routed :: steps)
  end.

(** [OptimizingExecutionPlanner.build]. *)
Definition optimizing_build (o : OptimizingPlanner) (c : TransactionCommand)
    (transaction_id business_digest : string) : result PlanError ExecutionPlan :=
  policy ← op_policy_for o c;
  routed ← optimized_steps o policy c 1 None (tc_required_capabilities c);
  verification ← call_factory (op_verification_factory o) c;
  make_plan {|
    pl_transaction_id := transaction_id; pl_tenant_id := tc_tenant_id c;
    pl_environment_id := "local"; pl_business_digest := business_digest;
    pl_risk_class := tc_risk_class c; pl_verification_level := tc_minimum_independence_level c;
    pl_data_classification := op_data_classification o; pl_steps := map fst routed;
    pl_verification := verification; pl_routing_decisions := map snd routed;
    pl_policy_decisions := [] |}.

(** [SQLiteRouteOutcomeStore.health_snapshot] as the health provider. *)
Definition store_health (s : OutcomeStore) : HealthProvider := health_snapshot s.

(** [_synthetic_tracking_verification]. *)
Definition synthetic_tracking_verification : VerificationFactory := λ c,
  if bool_decide (tc_minimum_independence_level c = L0) then Ok None
  else
    match tc_subject c with
    | SShipment s =>
        match ss_carrier_booking_reference s with
        | Some reference =>
            let plan := {|
              vp_required_level := tc_minimum_independence_level c;
              vp_collectors := [{|
                ec_step_id := "collect-synthetic-ledger";
                ec_collector_id := "synthetic.evidence.track"; ec_operation := "fetch";
                ec_input := [("carrier_booking_reference", JStr reference)] |}];
              vp_claim_rules := [
                {| cr_claim := "shipment.reference";
                   cr_expected_pointer := "/transaction/subject/carrier_booking_reference";
                   cr_normalization := EXACT |};
                {| cr_claim := "shipment.status";
                   cr_expected_pointer := "/outputs/0/output/data/shipment.status";
                   cr_normalization := EXACT |}];
              vp_max_evidence_age_seconds := 3600; vp_future_clock_skew_seconds := 300;
              vp_timeout_seconds := 30;
              vp_retry := {|
                vr_initial_interval_seconds := py_float 1; vr_backoff_coefficient := py_float 2;
                vr_maximum_interval_seconds := py_float 30; vr_maximum_attempts := 3 |} |} in
            plan_value (validate_plan plan);; Ok (Some plan)
        | None => Err (MissingCapabilityBinding "verification.shipment.carrier_booking_reference")
        end
    | SBooking _ => Err (MissingCapabilityBinding "verification.shipment.subject")
    end.

End planners.

(** ** The planners the program configures *)

Definition default_retry_spec : RetryPolicySpec := {|
  rt_initial_interval_seconds := py_float 1; rt_backoff_coefficient := py_float 2;
  rt_maximum_interval_seconds := py_float 60; rt_maximum_attempts := 3;
  rt_non_retryable_error_types := [] |}.

Definition tracking_binding (adapter : string) (channel : ExecutionChannel) : CapabilityBinding := {|
  cb_adapter := adapter; cb_operation := "fetch"; cb_requires_approval := false;
  cb_approval_timeout_seconds := None; cb_timeout_seconds := 60; cb_retry := default_retry_spec;
  cb_execution_channel := channel |}.

(** [synthetic_tracking_planner] and the two browser planners. *)
Definition synthetic_tracking_bindings : gmap string CapabilityBinding :=
  {["shipment.track.read" := tracking_binding "synthetic.track" API]}.
Definition synthetic_browser_bindings : gmap string CapabilityBinding :=
  {["shipment.track.read" := tracking_binding "synthetic.browser.track" BROWSER]}.

Definition synthetic_tracking_planner `{Sha256, FloatRepr, DatetimeText} :=
  static_build synthetic_tracking_bindings None.
Definition synthetic_browser_tracking_planner `{Sha256, FloatRepr, DatetimeText} :=
  static_build synthetic_browser_bindings None.
Definition synthetic_verified_browser_tracking_planner `{Sha256, FloatRepr, DatetimeText} :=
  static_build synthetic_browser_bindings (Some synthetic_tracking_verification).

(** ** Lemmas: the step input carries no secret-looking key but those of the extensions *)

Lemma has_secret_list {A} (f : A → json) l :
  (∀ x, has_secret_values (f x) = false) → has_secret_values (JList (map f l)) = false.
Proof.
  intros Hf. cbn. induction l as [|x l IH]; [done|]. cbn [map existsb]. by rewrite Hf.
Qed.

Lemma has_secret_obj fields :
  has_secret_values (JObj fields) = existsb (λ kv, is_secret_key kv.1 || has_secret_values kv.2) fields.
Proof. done. Qed.

Lemma has_secret_opt {A} (f : A → json) o :
  (∀ x, has_secret_values (f x) = false) → has_secret_values (json_opt f o) = false.
Proof. intros Hf. by destruct o; cbn. Qed.

Lemma has_secret_strs l : has_secret_values (json_strs l) = false.
Proof. by apply has_secret_list. Qed.

(** Evaluate the scanner on the declared keys and split the members. *)
Ltac scan_keys :=
  unfold model_obj; rewrite has_secret_obj; cbn [existsb fst snd];
  repeat match goal with
  | |- context [is_secret_key ?k] => let b := eval vm_compute in (is_secret_key k) in
      change (is_secret_key k) with b
  end; cbn [orb].

Section secrets.
Context (dt : Datetime → json) (Hdt : ∀ d, has_secret_values (dt d) = false).

Lemma subject_secrets s : has_secret_values (subject_json false s) = false.
Proof.
  destruct s as [s|p]; cbn [subject_json]; unfold shipment_json; scan_keys; [|done].
  by rewrite !(has_secret_opt JStr) by done.
Qed.

Lemma filter_secrets f : has_secret_values (filter_json false dt f) = false.
Proof. unfold filter_json. scan_keys. by rewrite !(has_secret_opt dt) by done. Qed.

Lemma location_secrets l : has_secret_values (location_json false l) = false.
Proof. unfold location_json. by scan_keys. Qed.

Lemma equipment_secrets e : has_secret_values (equipment_json false e) = false.
Proof.
  unfold equipment_json. scan_keys. rewrite has_secret_list; [done|].
  intros c. by scan_keys.
Qed.

Lemma parameters_secrets p : has_secret_values (parameters_json false dt p) = false.
Proof.
  destruct p as [t|b]; cbn [parameters_json]; unfold track_json, booking_json; scan_keys.
  - rewrite !has_secret_strs, !(has_secret_opt JStr), (has_secret_opt JInt),
      (has_secret_opt (filter_json false dt)) by done || apply filter_secrets. done.
  - rewrite !(has_secret_opt JStr), !has_secret_list by (done || apply location_secrets || apply equipment_secrets).
    done.
Qed.

Lemma command_secrets c :
  has_secret_values (command_json false dt c) = has_secret_values (JObj (tc_extensions c)).
Proof.
  unfold command_json. scan_keys.
  rewrite subject_secrets, parameters_secrets, !has_secret_strs. cbn [orb]. by rewrite orb_false_r.
Qed.
End secrets.

Lemma step_input_secrets `{DatetimeText} c :
  has_secret_values (JObj (step_input c)) = has_secret_values (JObj (tc_extensions c)).
Proof.
  unfold step_input. rewrite has_secret_obj. cbn [existsb fst snd].
  rewrite orb_false_r. unfold command_payload. by rewrite command_secrets.
Qed.

(** ** Lemmas: valid steps and plans *)

(** A step without compensation, unknown-effect codes or credentials, as both planners
    build them. *)
Lemma plain_step_valid s :
  validate_retry_spec (st_retry s) = Ok () →
  (∀ f, f ∈ st_route_fallbacks s → validate_fallback f = Ok ()) →
  step_fields_ok s = true → st_step_id s ∉ st_depends_on s → NoDup (st_depends_on s) →
  st_requires_approval s = true ∨ st_approval_timeout_seconds s = None →
  st_compensation s = None → NoDup (st_fallback_on_error_codes s) →
  st_unknown_effect_error_codes s = [] →
  (st_route_candidate_id s = None →
    st_fallback_on_error_codes s = [] ∧ st_route_fallbacks s = []) →
  (st_route_fallbacks s ≠ [] → st_risk_class s = READ_ONLY) →
  (∀ i, st_route_candidate_id s = Some i → NoDup (i :: map rf_candidate_id (st_route_fallbacks s))) →
  st_credential_binding_digest s = None → has_secret_values (JObj (st_input s)) = false →
  validate_step s = Ok ().
Proof.
  intros Hr Hf Hok Hid Hd Ha Hc Hn Hu Hroute Hro Hdup Hcred Hsec.
  assert (NoDup (map rf_candidate_id (st_route_fallbacks s)) ∧
    opt_mem (st_route_candidate_id s) (map rf_candidate_id (st_route_fallbacks s)) = false) as [Hnd Hm].
  { destruct (st_route_candidate_id s) as [i|]; simpl.
    - destruct (proj1 (NoDup_cons _ _) (Hdup i eq_refl)) as [Hi ?]. split; [done|]. by apply mem_false.
    - destruct (Hroute eq_refl) as [_ ->]. split; [constructor|done]. }
  apply (proj2 (mem_false _ _)) in Hid. apply has_duplicates_false in Hd, Hn, Hnd.
  apply (proj2 (foldM_unit_ok _ _)) in Hf.
  unfold validate_step. rewrite Hr, Hc, Hf, Hok, Hid, Hd, Hn, Hu, Hnd, Hm, Hcred, Hsec. cbn.
  assert (negb (st_requires_approval s) && negb (is_none (st_approval_timeout_seconds s)) = false) as ->.
  { destruct Ha as [->| ->]; [done|]. simpl. by rewrite andb_false_r. }
  rewrite andb_false_r. cbn. destruct (st_route_candidate_id s) as [i|] eqn:Ei; cbn.
  - destruct (st_route_fallbacks s) as [|f fs]; [done|]. cbn. unfold step_read_only.
    by rewrite (proj2 (is_read_only_true _) (Hro ltac:(done))).
  - by destruct (Hroute eq_refl) as [-> ->].
Qed.

(** A plan without policy decisions whose parts are valid. *)
Lemma unsigned_plan_valid `{Sha256, FloatRepr} p :
  (∀ s, s ∈ pl_steps p → validate_step s = Ok ()) →
  (∀ v, pl_verification p = Some v →
    validate_plan v = Ok () ∧ vp_required_level v = pl_verification_level p) →
  (∀ d, d ∈ pl_routing_decisions p → Routing.validate_decision d = Ok ()) →
  Identifier_ok (pl_transaction_id p) = true → Identifier_ok (pl_tenant_id p) = true →
  pl_environment_id p = "local" → Digest_ok (pl_business_digest p) = true →
  pl_steps p ≠ [] → NoDup (map st_step_id (pl_steps p)) → dependencies_ok [] (pl_steps p) = true →
  maximum_step_risk (pl_steps p) = pl_risk_class p →
  length (List.filter is_routed (pl_steps p)) = length (pl_routing_decisions p) →
  forallb (route_matches p) (zip (List.filter is_routed (pl_steps p)) (pl_routing_decisions p)) = true →
  pl_policy_decisions p = [] → validate_execution_plan p = Ok ().
Proof.
  intros Hs Hv Hd Ht Hten Henv Hdig Hne Hu Hdep Hr Hlen Hm Hpol.
  apply (proj2 (foldM_unit_ok _ _)) in Hs, Hd. apply has_duplicates_false in Hu.
  unfold validate_execution_plan, validate_plan_level. rewrite Hs, Hd, Ht, Hten, Henv, Hdig, Hu, Hdep, Hr, Hlen, Hm, Hpol.
  rewrite Nat.eqb_refl, bool_decide_eq_true_2 by done. unfold validate_policy_decisions.
  rewrite Hpol. destruct (pl_steps p); [done|]. cbn.
  destruct (pl_verification p) as [v|]; [|done]. destruct (Hv v eq_refl) as [-> Hl]. cbn.
  by rewrite Hl, bool_decide_eq_true_2.
Qed.

(** The chain of steps built for a command. *)
Fixpoint chained (previous : option string) (index : Z) (capabilities : list Capability)
    (steps : list ExecutionStep) : Prop :=
  match capabilities, steps with
  | [], [] => True
  | k :: ks, s :: ss =>
      st_step_id s = step_identifier index (Capability_value k) ∧
      st_capability s = Capability_value k ∧ st_depends_on s = depends_on previous ∧
      chained (Some (st_step_id s)) (index + 1) ks ss
  | _, _ => False
  end.

(** A command's capabilities chain into distinct steps with known dependencies. *)
Lemma chained_ids c steps :
  validate_command c = Ok () → chained None 1 (tc_required_capabilities c) steps →
  Forall (λ s, st_risk_class s = tc_risk_class c) steps →
  steps ≠ [] ∧ NoDup (map st_step_id steps) ∧ dependencies_ok [] steps = true ∧
  maximum_step_risk steps = tc_risk_class c ∧
  map st_capability steps = map Capability_value (tc_required_capabilities c).
Proof.
  intros (_ & [(s & t & _ & _ & -> & ->)|(p & b & _ & _ & -> & -> & _)])%validated_command Hch Hr.
  - destruct steps as [|s1 [|]]; simpl in Hch; [done| |by destruct Hch as (_ & _ & _ & [])].
    destruct Hch as (Hi & Hc & Hd & _). apply Forall_cons in Hr as [Hr _].
    unfold maximum_step_risk. cbn. rewrite Hi, Hd, Hr, Hc. split_and!; try done. apply NoDup_singleton.
  - destruct steps as [|s1 [|s2 [|]]]; simpl in Hch;
      [done|naive_solver| |by destruct Hch as (_ & _ & _ & _ & _ & _ & [])].
    destruct Hch as (Hi & Hc & Hd & Hi' & Hc' & Hd' & _).
    apply Forall_cons in Hr as [Hr [Hr' _]%Forall_cons].
    unfold maximum_step_risk. cbn. rewrite Hi, Hd, Hr, Hc, Hi', Hd', Hi, Hc', Hr'.
    split_and!; try done. by apply (bool_decide_unpack _).
Qed.

Lemma step_names k index :
  index = 1 ∨ index = 2 →
  Name_ok (step_identifier index (Capability_value k)) = true ∧ Name_ok (Capability_value k) = true.
Proof. intros [-> | ->]; destruct k; by vm_compute. Qed.

(** The step a dependency names: the one before. *)
Definition previous_ok (index : Z) (previous : option string) : Prop :=
  ∀ p, previous = Some p → index = 2 ∧ ∃ k, p = step_identifier 1 (Capability_value k).

Lemma previous_depends index k previous :
  index = 1 ∨ index = 2 → previous_ok index previous →
  step_identifier index (Capability_value k) ∉ depends_on previous ∧
  NoDup (depends_on previous) ∧ forallb Name_ok (depends_on previous) = true.
Proof.
  intros Hi Hp. destruct previous as [p|]; [|split_and!; [apply not_elem_of_nil|constructor|done]].
  destruct (Hp p eq_refl) as [-> [k' ->]]. split_and!; [|apply NoDup_singleton|].
  - simpl. rewrite list_elem_of_singleton. by destruct k, k'.
  - by destruct k'.
Qed.

Lemma previous_next index k :
  index = 1 → previous_ok (index + 1) (Some (step_identifier index (Capability_value k))).
Proof. intros -> p [= <-]. split; [done|by exists k]. Qed.

Section plans.
Context `{Sha256, FloatRepr, DatetimeText}.

Lemma make_plan_ok p : validate_execution_plan p = Ok () → make_plan p = Ok p.
Proof. unfold make_plan. by intros ->. Qed.

(** ** The static planner *)

(** A binding whose unchecked timeouts also fit an execution step. *)
Definition usable_binding (b : CapabilityBinding) : bool :=
  is_ok (validate_binding b) && between 1 (cb_timeout_seconds b) 86400
  && opt_ok (λ t, between 1 t 604800) (cb_approval_timeout_seconds b)
  && (cb_requires_approval b || is_none (cb_approval_timeout_seconds b)).

Lemma static_step_valid c index k b previous :
  has_secret_values (JObj (tc_extensions c)) = false → usable_binding b = true →
  index = 1 ∨ index = 2 → previous_ok index previous →
  validate_step (static_step c index (Capability_value k) b previous) = Ok ().
Proof.
  intros Hsec Hb Hi Hp. destruct (step_names k index Hi) as [Hn1 Hn2].
  destruct (previous_depends index k previous Hi Hp) as (Hd1 & Hd2 & Hd3).
  unfold usable_binding, validate_binding in Hb.
  destruct (validate_retry_spec (cb_retry b)) as [[]|] eqn:Hr; [|done]. cbn in Hb.
  destruct (Name_ok (cb_adapter b) && Name_ok (cb_operation b)) eqn:Hn; [|done]. cbn in Hb.
  rewrite !andb_true_iff, orb_true_iff in Hb. rewrite andb_true_iff in Hn. destruct Hb as [[Ht Ha] Hc], Hn as [Hn3 Hn4].
  apply plain_step_valid; cbn [static_step st_retry st_route_fallbacks st_step_id st_depends_on
    st_requires_approval st_approval_timeout_seconds st_compensation st_fallback_on_error_codes
    st_unknown_effect_error_codes st_route_candidate_id st_risk_class st_credential_binding_digest
    st_input map]; try done; try (by rewrite step_input_secrets); try apply NoDup_nil_2.
  - intros f Hf. by apply elem_of_nil in Hf.
  - unfold step_fields_ok. cbn. by rewrite Hn1, Hn2, Hn3, Hn4, Hd3, Ht, Ha.
  - destruct Hc as [?|Hc]; [by left|right]. by destruct (cb_approval_timeout_seconds b).
Qed.

(** The steps of the static planner: one per capability, from its binding. *)
Definition bound_step (bindings : gmap string CapabilityBinding) (c : TransactionCommand)
    (k : Capability) (s : ExecutionStep) : Prop :=
  ∃ b index previous, bindings !! Capability_value k = Some b ∧
    s = static_step c index (Capability_value k) b previous.

Lemma static_steps_cases bindings c index previous ks :
  has_secret_values (JObj (tc_extensions c)) = false →
  (∀ k b, bindings !! Capability_value k = Some b → usable_binding b = true) →
  1 ≤ index → index + Z.of_nat (length ks) ≤ 3 → (ks ≠ [] → previous_ok index previous) →
  (∃ steps, static_steps bindings c index previous ks = Ok steps ∧
    chained previous index ks steps ∧ Forall2 (bound_step bindings c) ks steps ∧
    Forall (λ s, validate_step s = Ok () ∧ st_risk_class s = tc_risk_class c ∧
      is_routed s = false) steps) ∨
  (∃ pre k post, ks = pre ++ k :: post ∧ bindings !! Capability_value k = None ∧
    (∀ k', k' ∈ pre → is_Some (bindings !! Capability_value k')) ∧
    static_steps bindings c index previous ks = Err (MissingCapabilityBinding (Capability_value k))).
Proof.
  intros Hsec Hb. revert index previous.
  induction ks as [|k ks IH]; intros index previous Hi Hl Hp; cbn [static_steps].
  { left. exists []. split_and!; try constructor; done. }
  cbn [length] in Hl. destruct (bindings !! Capability_value k) as [b|] eqn:Ek.
  2:{ right. exists [], k, ks. split_and!; try done. intros k' Hk'. by apply elem_of_nil in Hk'. }
  assert (index = 1 ∨ index = 2) as Hix by lia. cbn [mbind result_bind].
  rewrite (static_step_valid c index k b previous) by eauto.
  cbn [plan_value mbind result_bind]. set (s := static_step _ _ _ _ _).
  destruct (IH (index + 1) (Some (st_step_id s))) as [(steps & -> & Hch & HF & Hall)|Hmiss]; [lia..| | |].
  - intros Hne. apply previous_next. destruct ks; [done|]. simpl in Hl. lia.
  - left. exists (s :: steps). split_and!; [done|by split_and!| |].
    + constructor; [|done]. by exists b, index, previous.
    + constructor; [|done]. split_and!; [by eapply static_step_valid; eauto|done..].
  - right. destruct Hmiss as (pre & k' & post & -> & Hk' & Hpre & ->).
    exists (k :: pre), k', post. split_and!; try done.
    intros k'' [->|Hk'']%elem_of_cons; [by rewrite Ek|auto].
Qed.

(** The static planner is total on validated commands: with usable bindings, no
    secret-looking extension key and a verification plan of the command's level, [build]
    returns a plan that passes every validator and has exactly one step per required
    capability, in order, each depending on the one before and taken from its binding; or it
    raises [MissingCapabilityBinding] for the first capability that has no binding. *)
Theorem static_build_total bindings factory c transaction_id digest v :
  validate_command c = Ok () → has_secret_values (JObj (tc_extensions c)) = false →
  Identifier_ok transaction_id = true → Digest_ok digest = true →
  (∀ k b, bindings !! Capability_value k = Some b → usable_binding b = true) →
  call_factory factory c = Ok v →
  (∀ p, v = Some p →
    validate_plan p = Ok () ∧ vp_required_level p = tc_minimum_independence_level c) →
  (∃ p, static_build bindings factory c transaction_id digest = Ok p ∧
    validate_execution_plan p = Ok () ∧ pl_verification p = v ∧
    chained None 1 (tc_required_capabilities c) (pl_steps p) ∧
    Forall2 (bound_step bindings c) (tc_required_capabilities c) (pl_steps p)) ∨
  (∃ pre k post, tc_required_capabilities c = pre ++ k :: post ∧
    bindings !! Capability_value k = None ∧
    (∀ k', k' ∈ pre → is_Some (bindings !! Capability_value k')) ∧
    static_build bindings factory c transaction_id digest
    = Err (MissingCapabilityBinding (Capability_value k))).
Proof.
  intros Hc Hsec Ht Hd Hb Hv Hvp. unfold static_build.
  destruct (static_steps_cases bindings c 1 None (tc_required_capabilities c))
    as [(steps & -> & Hch & HF & Hall)|(pre & k & post & E & Hk & Hpre & ->)]; try done.
  - by destruct (validated_command c Hc)
      as (_ & [(? & ? & _ & _ & _ & ->)|(? & ? & _ & _ & _ & -> & _)]).
  - left. cbn. rewrite Hv. cbn [mbind result_bind].
    apply Forall_and in Hall as [Hs [Hr Hn]%Forall_and].
    destruct (chained_ids c steps Hc Hch Hr) as (Hne & Hids & Hdep & Hrisk & _).
    assert (List.filter is_routed steps = []) as Hf.
    { apply list_filter_nil. intros (s & Hin & E). rewrite Forall_forall in Hn.
      by rewrite Hn in E. }
    match goal with |- context [make_plan ?p] => set (plan := p) end.
    assert (validate_execution_plan plan = Ok ()) as Hvalid.
    { apply unsigned_plan_valid; unfold plan; cbn [pl_steps pl_verification pl_routing_decisions
        pl_transaction_id pl_tenant_id pl_environment_id pl_business_digest pl_verification_level
        pl_risk_class pl_policy_decisions]; rewrite ?Hf; try done.
      - by rewrite Forall_forall in Hs.
      - intros d Hd'. by apply elem_of_nil in Hd'.
      - by apply validated_command. }
    exists plan. rewrite make_plan_ok by done. by split_and!.
  - right. exists pre, k, post. by split_and!.
Qed.

(** ** The optimizing planner *)

(** A planner with validated candidates and policy over an open outcome ledger. *)
Record planner_ready (o : OptimizingPlanner) (s : OutcomeStore) (policy : RoutingPolicy)
    (c : TransactionCommand) : Prop := {
  pr_command : validate_command c = Ok ();
  pr_secrets : has_secret_values (JObj (tc_extensions c)) = false;
  pr_policy_for : op_policy_for o c = Ok policy;
  pr_policy : validate_policy policy = Ok ();
  pr_health : op_health o = store_health s;
  pr_open : os_closed s = false;
  pr_rows : stored_ok s;
  pr_count : (length (op_candidates o) ≤ 16)%nat;
  pr_ids : NoDup (map c_candidate_id (op_candidates o));
  pr_candidates : Forall (λ candidate, validate_candidate candidate = Ok ()) (op_candidates o) }.

(** What a routed step is: the decision [select_route] takes on the health observed for the
    capable candidates, and the step that executes its selected candidate, with the ranked
    fallbacks. *)
Definition routed_step (o : OptimizingPlanner) (policy : RoutingPolicy) (c : TransactionCommand)
    (index : Z) (capability : string) (previous : option string)
    (routed : ExecutionStep * RouteDecision) : Prop :=
  ∃ health selected retry fallbacks,
    Forall2 (λ candidate h,
        op_health o (tc_tenant_id c) candidate policy (op_clock o index) = Ok h)
      (capable o capability) health ∧
    select_route (routing_request o c index capability) (capable o capability) health policy
    = Ok routed.2 ∧
    selected ∈ capable o capability ∧
    c_candidate_id selected = d_selected_candidate_id routed.2 ∧
    runtime_retry selected = Ok retry ∧
    Forall2 (λ i f, ∃ candidate, candidate ∈ capable o capability ∧
        c_candidate_id candidate = i ∧ runtime_fallback candidate = Ok f)
      (d_fallback_candidate_ids routed.2) fallbacks ∧
    routed.1 = optimized_step c index capability selected retry fallbacks previous.

Fixpoint routed_steps (o : OptimizingPlanner) (policy : RoutingPolicy) (c : TransactionCommand)
    (index : Z) (previous : option string) (ks : list Capability)
    (l : list (ExecutionStep * RouteDecision)) : Prop :=
  match ks, l with
  | [], [] => True
  | k :: ks', routed :: l' =>
      routed_step o policy c index (Capability_value k) previous routed ∧
      routed_steps o policy c (index + 1) (Some (st_step_id routed.1)) ks' l'
  | _, _ => False
  end.

Lemma candidate_retry candidate :
  validate_candidate candidate = Ok () → ∃ retry, runtime_retry candidate = Ok retry ∧
    validate_retry_spec retry = Ok ().
Proof.
  intros Hc%candidate_fields. unfold candidate_fields_ok in Hc. boolify. unfold runtime_retry.
  match goal with |- context [plan_value (validate_retry_spec ?r)] => exists r;
    enough (validate_retry_spec r = Ok ()) as -> by done end.
  destruct (validate_retry (c_retry candidate)) as [[]|] eqn:Hr; [|done].
  unfold validate_retry in Hr. unfold validate_retry_spec.
  cbn [rt_initial_interval_seconds rt_backoff_coefficient rt_maximum_interval_seconds
    rt_maximum_attempts rt_non_retryable_error_types].
  rewrite !raise_if_then, raise_if_ok, negb_false_iff, !andb_true_iff, !between_true in Hr |- *.
  destruct_and! Hr. boolify. split_and!; done || lia.
Qed.

Lemma candidate_fallback candidate :
  validate_candidate candidate = Ok () → ∃ f, runtime_fallback candidate = Ok f ∧
    validate_fallback f = Ok () ∧ rf_candidate_id f = c_candidate_id candidate.
Proof.
  intros Hc. destruct (candidate_retry candidate Hc) as (retry & Hr & Hv).
  unfold runtime_fallback. rewrite Hr. cbn [mbind result_bind].
  match goal with |- context [plan_value (validate_fallback ?f)] => exists f;
    enough (validate_fallback f = Ok ()) as -> by done end.
  unfold validate_candidate in Hc. rewrite !raise_if_then in Hc. destruct Hc as (Hf & _ & Hd & _).
  unfold candidate_fields_ok in Hf. rewrite negb_false_iff, !andb_true_iff in Hf.
  destruct_and! Hf. unfold validate_fallback.
  cbn [rf_retry rf_candidate_id rf_adapter rf_operation rf_timeout_seconds
    rf_fallback_on_error_codes rf_credential_binding_digest].
  rewrite Hv, Hd. cbn [mbind result_bind].
  repeat match goal with E : _ = true |- _ => rewrite E; clear E end. done.
Qed.

Section ready.
Context `{!Sha256Laws}.
Context (o : OptimizingPlanner) (s : OutcomeStore) (policy : RoutingPolicy) (c : TransactionCommand).
Hypothesis Hready : planner_ready o s policy c.

Lemma capable_valid capability candidate :
  candidate ∈ capable o capability → validate_candidate candidate = Ok ().
Proof.
  intros [_ Hin]%list_elem_of_filter. pose proof (pr_candidates _ _ _ _ Hready) as Hc.
  rewrite Forall_forall in Hc. auto.
Qed.

Lemma capable_ids capability : NoDup (map c_candidate_id (capable o capability)).
Proof.
  eapply sublist_NoDup; [apply Hready|]. apply (fmap_sublist c_candidate_id), sublist_filter.
Qed.

Lemma candidate_lookup_ok capability candidate :
  candidate ∈ capable o capability →
  candidate_lookup (capable o capability) (c_candidate_id candidate) = Ok candidate.
Proof.
  intros Hc. unfold candidate_lookup. by rewrite candidate_by_id_lookup by (done || apply capable_ids).
Qed.

Lemma tenant_ok : Identifier_ok (tc_tenant_id c) = true.
Proof. apply validated_command, Hready. Qed.

(** The health of the capable candidates is read without failing and fits the engine. *)
Lemma capable_health index capability :
  ∃ health,
    mapM_result (λ candidate, op_health o (tc_tenant_id c) candidate policy (op_clock o index))
      (capable o capability) = Ok health ∧
    Forall2 (λ candidate h,
        op_health o (tc_tenant_id c) candidate policy (op_clock o index) = Ok h)
      (capable o capability) health ∧
    valid_inputs (routing_request o c index capability) (capable o capability) health policy.
Proof.
  rewrite (pr_health _ _ _ _ Hready). unfold store_health.
  destruct (mapM_result_total (λ candidate,
      health_snapshot s (tc_tenant_id c) candidate policy (op_clock o index)) (capable o capability))
    as [health Hh].
  { intros candidate Hc. apply health_snapshot_built; try apply Hready; [apply tenant_ok|..].
    - apply capable_valid, candidate_fields in Hc. unfold candidate_fields_ok in Hc. by boolify.
    - pose proof (policy_fields _ (pr_policy _ _ _ _ Hready)) as Hp. unfold policy_fields_ok in Hp.
      rewrite !andb_true_iff, !between_true in Hp. lia. }
  exists health. split; [done|]. apply mapM_result_Forall2 in Hh. split; [done|].
  assert (map h_candidate_id health = map c_candidate_id (capable o capability)) as Eids.
  { clear -Hh. induction Hh as [|x h l hs Hx _ IH]; [done|]. cbn.
    apply health_snapshot_identity in Hx as (_ & _ & -> & _). by rewrite IH. }
  assert (∀ h, h ∈ health → ∃ candidate, candidate ∈ capable o capability ∧
    health_snapshot s (tc_tenant_id c) candidate policy (op_clock o index) = Ok h) as Hall.
  { intros h Hin. by apply (Forall2_map_in_r _ _ _ _ Hh). }
  split.
  - pose proof (pr_count _ _ _ _ Hready). unfold capable.
    pose proof (length_filter (λ candidate, c_capability candidate = capability) (op_candidates o)).
    lia.
  - apply capable_ids.
  - apply Forall_forall. intros candidate. apply capable_valid.
  - apply Hready.
  - rewrite Eids. apply capable_ids.
  - apply Forall_forall. intros h (candidate & _ & Hx)%Hall.
    by apply health_snapshot_identity in Hx as (_ & ? & _ & ?).
  - apply Forall_forall. intros h (candidate & _ & Hx)%Hall.
    by apply health_snapshot_identity in Hx as (? & _).
  - intros i. by rewrite Eids.
Qed.

(** The fallbacks of a decision are looked up and built without failing. *)
Lemma fallbacks_built capability ids :
  (∀ i, i ∈ ids → i ∈ map c_candidate_id (capable o capability)) →
  ∃ fallbacks,
    mapM_result (λ i, candidate ← candidate_lookup (capable o capability) i;
      runtime_fallback candidate) ids = Ok fallbacks ∧
    Forall2 (λ i f, ∃ candidate, candidate ∈ capable o capability ∧ c_candidate_id candidate = i ∧
      runtime_fallback candidate = Ok f) ids fallbacks ∧
    map rf_candidate_id fallbacks = ids ∧ (∀ f, f ∈ fallbacks → validate_fallback f = Ok ()).
Proof.
  induction ids as [|i ids IH]; intros Hin; cbn [mapM_result].
  { exists []. split_and!; try done. intros f Hf. by apply elem_of_nil in Hf. }
  destruct IH as (fallbacks & -> & HF & Eids & Hv); [intros j Hj; apply Hin; by right|].
  assert (i ∈ map c_candidate_id (capable o capability)) as (candidate & -> & Hc)%list_elem_of_fmap
    by (apply Hin; left).
  rewrite candidate_lookup_ok by done. cbn [mbind result_bind].
  destruct (candidate_fallback candidate (capable_valid _ _ Hc)) as (f & Hf & Hvf & Ef).
  rewrite Hf. cbn [mbind result_bind]. exists (f :: fallbacks). split_and!; [done| | |].
  - constructor; [|done]. by exists candidate.
  - cbn. by rewrite Ef, Eids.
  - intros f' [->|Hf']%elem_of_cons; auto.
Qed.

(** No candidate passes the gates under the health the provider reports. *)
Definition no_route (index : Z) (capability : string) : Prop :=
  ∃ health, Forall2 (λ candidate h,
      op_health o (tc_tenant_id c) candidate policy (op_clock o index) = Ok h)
    (capable o capability) health ∧
  ∀ candidate, candidate ∈ capable o capability →
    ¬ admissible (routing_request o c index capability) policy (health_of health candidate) candidate.

(** A routed step as a plan needs it. *)
Definition plan_ready (routed : ExecutionStep * RouteDecision) : Prop :=
  validate_step routed.1 = Ok () ∧ Routing.validate_decision routed.2 = Ok () ∧
  st_risk_class routed.1 = tc_risk_class c ∧ is_routed routed.1 = true ∧
  rq_tenant_id (d_request routed.2) = tc_tenant_id c ∧
  rq_capability (d_request routed.2) = st_capability routed.1 ∧
  Some (d_selected_candidate_id routed.2) = st_route_candidate_id routed.1 ∧
  d_fallback_candidate_ids routed.2 = map rf_candidate_id (st_route_fallbacks routed.1).

Lemma optimized_step_valid index k selected retry fallbacks previous d health :
  index = 1 ∨ index = 2 → previous_ok index previous →
  select_route (routing_request o c index (Capability_value k)) (capable o (Capability_value k))
    health policy = Ok d →
  selected ∈ capable o (Capability_value k) →
  c_candidate_id selected = d_selected_candidate_id d →
  runtime_retry selected = Ok retry → validate_retry_spec retry = Ok () →
  map rf_candidate_id fallbacks = d_fallback_candidate_ids d →
  (∀ f, f ∈ fallbacks → validate_fallback f = Ok ()) →
  validate_step (optimized_step c index (Capability_value k) selected retry fallbacks previous) = Ok ().
Proof.
  intros Hi Hp Hd Hsel Esel Hretry Hvr Efb Hvf. destruct (step_names k index Hi) as [Hn1 Hn2].
  destruct (previous_depends index k previous Hi Hp) as (Hd1 & Hd2 & Hd3).
  apply decision_fallbacks in Hd as (Hro & Hnd & _ & _).
  pose proof (capable_valid _ _ Hsel) as Hc. unfold validate_candidate in Hc.
  rewrite !raise_if_then in Hc. destruct Hc as (Hf & Ha & Hcodes & _).
  apply has_duplicates_false in Hcodes. unfold candidate_fields_ok in Hf.
  rewrite negb_false_iff, !andb_true_iff in Hf. destruct_and! Hf.
  apply plain_step_valid; cbn [optimized_step st_retry st_route_fallbacks st_step_id st_depends_on
    st_requires_approval st_approval_timeout_seconds st_compensation st_fallback_on_error_codes
    st_unknown_effect_error_codes st_route_candidate_id st_risk_class st_credential_binding_digest
    st_input]; try done.
  - unfold step_fields_ok. cbn [optimized_step st_step_id st_capability st_adapter st_operation
      st_depends_on st_timeout_seconds st_approval_timeout_seconds st_route_candidate_id
      st_fallback_on_error_codes st_unknown_effect_error_codes opt_ok forallb].
    rewrite Hn1, Hn2, Hd3. repeat match goal with E : _ = true |- _ => rewrite E; clear E end. done.
  - destruct (c_requires_approval selected); [by left|right]. cbn in Ha.
    destruct (c_approval_timeout_seconds selected); [|done]. by rewrite bool_decide_eq_true_2 in Ha by eauto.
  - intros Hne. apply Hro. rewrite <-Efb. by destruct fallbacks.
  - intros i [= <-]. by rewrite Esel, Efb.
  - by rewrite step_input_secrets, (pr_secrets _ _ _ _ Hready).
Qed.

Lemma route_capability_cases index k previous :
  index = 1 ∨ index = 2 → previous_ok index previous →
  (∃ routed, route_capability o policy c index (Capability_value k) previous = Ok routed ∧
    routed_step o policy c index (Capability_value k) previous routed ∧ plan_ready routed) ∨
  (route_capability o policy c index (Capability_value k) previous = Err (PlanRoute NoEligibleRoute) ∧
    no_route index (Capability_value k)).
Proof.
  intros Hi Hp. destruct (step_names k index Hi) as [_ Hn].
  destruct (capable_health index (Capability_value k)) as (health & Hm & HF & Hvi).
  unfold route_capability, validate_routing_request. cbv zeta.
  cbn [routing_request rq_tenant_id rq_capability rq_evaluated_at].
  rewrite tenant_ok, Hn. cbn [negb andb raise_if plan_value mbind result_bind].
  rewrite Hm. cbn [plan_health mbind result_bind].
  destruct (select_route_outcomes _ _ _ _ Hvi) as [[_ [d Hd]]|[Hno ->]]; [left|right; split; [done|by exists health]].
  rewrite Hd. cbn [mbind result_bind].
  pose proof (decision_identity _ _ _ _ _ Hd) as (Hreq & Hvd & _ & Hsel).
  apply list_elem_of_fmap in Hsel as (selected & Esel & Hsel).
  rewrite Esel, candidate_lookup_ok by done. cbn [mbind result_bind].
  destruct (fallbacks_built (Capability_value k) (d_fallback_candidate_ids d))
    as (fallbacks & -> & HFf & Efb & Hvf).
  { intros i Hif. apply decision_fallbacks in Hd as (_ & _ & _ & Hall).
    destruct (Hall i Hif) as (_ & candidate & _ & Hc & <- & _). by apply list_elem_of_fmap_2. }
  destruct (candidate_retry selected (capable_valid _ _ Hsel)) as (retry & Hr & Hvr).
  rewrite Hr. cbn [mbind result_bind].
  pose proof (optimized_step_valid index k selected retry fallbacks previous d health Hi Hp Hd Hsel
    (eq_sym Esel) Hr Hvr Efb Hvf) as Hv.
  rewrite Hv. eexists. split; [done|]. split.
  - exists health, selected, retry, fallbacks. by split_and!.
  - unfold plan_ready. cbn [fst snd]. rewrite Hreq, Esel, <-Efb. by split_and!.
Qed.

Lemma optimized_steps_cases index previous ks :
  1 ≤ index → index + Z.of_nat (length ks) ≤ 3 → (ks ≠ [] → previous_ok index previous) →
  (∃ l, optimized_steps o policy c index previous ks = Ok l ∧
    routed_steps o policy c index previous ks l ∧ chained previous index ks (map fst l) ∧
    Forall plan_ready l) ∨
  (optimized_steps o policy c index previous ks = Err (PlanRoute NoEligibleRoute) ∧
    ∃ k j, k ∈ ks ∧ no_route j (Capability_value k)).
Proof.
  revert index previous. induction ks as [|k ks IH]; intros index previous Hi Hl Hp;
    cbn [optimized_steps].
  { left. exists []. by split_and!. }
  cbn [length] in Hl.
  destruct (route_capability_cases index k previous) as [(routed & -> & Hrt & Hpr)|[-> Hno]];
    [lia|by apply Hp| |].
  2:{ right. split; [done|]. exists k, index. split; [left|done]. }
  cbn [mbind result_bind].
  assert (st_step_id routed.1 = step_identifier index (Capability_value k) ∧
    st_capability routed.1 = Capability_value k ∧ st_depends_on routed.1 = depends_on previous)
    as (Eid & Ecap & Edep).
  { destruct Hrt as (? & ? & ? & ? & _ & _ & _ & _ & _ & _ & ->). done. }
  destruct (IH (index + 1) (Some (st_step_id routed.1)))
    as [(l & -> & Hrts & Hch & HF)|[-> (k' & j & Hk & Hno)]]; [lia..| | |].
  - intros Hne. rewrite Eid. apply previous_next. destruct ks; [done|]. simpl in Hl. lia.
  - left. exists (routed :: l). split_and!; [done|by split|by split_and!|by constructor].
  - right. split; [done|]. exists k', j. split; [by right|done].
Qed.

End ready.

Lemma routed_matches c p l :
  pl_tenant_id p = tc_tenant_id c → Forall (plan_ready c) l →
  length (List.filter is_routed (map fst l)) = length (map snd l) ∧
  forallb (route_matches p) (zip (List.filter is_routed (map fst l)) (map snd l)) = true.
Proof.
  intros Hten. induction 1 as [|[s d] l (_ & _ & _ & Hr & E1 & E2 & E3 & E4) _ [IH1 IH2]];
    [done|]. cbn in *. rewrite Hr. cbn. split; [by f_equal|].
  rewrite IH2, andb_true_r, E1, E2, Hten, E3, E4. by rewrite !bool_decide_eq_true_2.
Qed.

(** Planner, routing engine and outcome ledger together: with validated candidates, policy
    and command and an open ledger of validated outcomes as health source, [build] either
    returns a plan that passes every validator, whose steps run, one per required capability
    and chained, the candidate the router selects on the observed health with its ranked
    fallbacks, each next to the decision that chose it; or it raises [NoEligibleRoute], and
    then some required capability has no admissible candidate.  It never fails otherwise. *)
Theorem optimizing_build_total `{!Sha256Laws} o s policy c transaction_id digest v :
  planner_ready o s policy c → Identifier_ok transaction_id = true → Digest_ok digest = true →
  call_factory (op_verification_factory o) c = Ok v →
  (∀ p, v = Some p →
    validate_plan p = Ok () ∧ vp_required_level p = tc_minimum_independence_level c) →
  (∃ p l, optimizing_build o c transaction_id digest = Ok p ∧ validate_execution_plan p = Ok () ∧
    pl_verification p = v ∧ pl_steps p = map fst l ∧ pl_routing_decisions p = map snd l ∧
    chained None 1 (tc_required_capabilities c) (pl_steps p) ∧
    routed_steps o policy c 1 None (tc_required_capabilities c) l) ∨
  (optimizing_build o c transaction_id digest = Err (PlanRoute NoEligibleRoute) ∧
    ∃ k j, k ∈ tc_required_capabilities c ∧ no_route o policy c j (Capability_value k)).
Proof.
  intros Hready Ht Hd Hv Hvp. pose proof (pr_command _ _ _ _ Hready) as Hc.
  unfold optimizing_build. rewrite (pr_policy_for _ _ _ _ Hready). cbn [mbind result_bind].
  destruct (optimized_steps_cases o s policy c Hready 1 None (tc_required_capabilities c))
    as [(l & -> & Hrt & Hch & HF)|[-> Hno]]; try done; [|left|by right].
  { by destruct (validated_command c Hc)
      as (_ & [(? & ? & _ & _ & _ & ->)|(? & ? & _ & _ & _ & -> & _)]). }
  cbn [mbind result_bind]. rewrite Hv. cbn [mbind result_bind].
  assert (Forall (λ s, st_risk_class s = tc_risk_class c) (map fst l)) as Hr.
  { clear -HF. induction HF as [|x l Hx _ IH]; cbn; constructor; [apply Hx|done]. }
  destruct (chained_ids c _ Hc Hch Hr) as (Hne & Hids & Hdep & Hrisk & _).
  match goal with |- context [make_plan ?p] => set (plan := p) end.
  destruct (routed_matches c plan l eq_refl HF) as [Hlen Hm].
  rewrite Forall_forall in HF.
  assert (validate_execution_plan plan = Ok ()) as Hvalid.
  { apply unsigned_plan_valid; unfold plan in *; cbn [pl_steps pl_verification pl_routing_decisions
      pl_transaction_id pl_tenant_id pl_environment_id pl_business_digest pl_verification_level
      pl_risk_class pl_policy_decisions] in *; try done.
    - intros x (y & -> & Hy)%list_elem_of_fmap. by apply (HF y Hy).
    - intros d (y & -> & Hy)%list_elem_of_fmap. by apply (HF y Hy).
    - by apply validated_command. }
  exists plan, l. rewrite make_plan_ok by done. by split_and!.
Qed.

(** ** The interface the transaction service uses *)

(** [ExecutionPlanner]: [build(command, transaction_id=..., business_digest=...)]. *)
Definition ExecutionPlanner : Type :=
  TransactionCommand → string → string → result PlanError ExecutionPlan.

(** What a planner promises of the plans it returns. *)
Class LawfulPlanner (build : ExecutionPlanner) : Prop := {
  built_valid c transaction_id digest p :
    build c transaction_id digest = Ok p → validate_execution_plan p = Ok ();
  built_identity c transaction_id digest p :
    build c transaction_id digest = Ok p →
    pl_transaction_id p = transaction_id ∧ pl_tenant_id p = tc_tenant_id c ∧
    pl_business_digest p = digest ∧ (validate_command c = Ok () → pl_risk_class p = tc_risk_class c) ∧
    pl_verification_level p = tc_minimum_independence_level c ∧ pl_policy_decisions p = [] }.

Lemma make_plan_inv p p' : make_plan p = Ok p' → p' = p ∧ validate_execution_plan p = Ok ().
Proof.
  unfold make_plan. destruct (validate_execution_plan p) as [[]|]; [|done]. by intros [= <-].
Qed.

#[export] Instance static_build_lawful bindings factory : LawfulPlanner (static_build bindings factory).
Proof.
  split; intros c t d p; unfold static_build;
    intros (steps & _ & (v & _ & [-> Hv]%make_plan_inv)%bind_ok)%bind_ok; done.
Qed.

#[export] Instance optimizing_build_lawful o : LawfulPlanner (optimizing_build o).
Proof.
  split; intros c t d p; unfold optimizing_build;
    intros (policy & _ & (l & _ & (v & _ & [-> Hv]%make_plan_inv)%bind_ok)%bind_ok)%bind_ok; done.
Qed.

End plans.

(** [synthetic_optimized_tracking_planner]: the API first, the browser as fallback. *)
Definition synthetic_optimized_tracking_planner `{Sha256, FloatRepr, DatetimeText}
    (health : HealthProvider) (clock : Z → Z) : result string OptimizingPlanner :=
  api ← synthetic_api;
  browser ← synthetic_browser;
  policy ← synthetic_policy;
  Ok {| op_candidates := [api; browser]; op_policy_for := λ _, Ok policy; op_health := health;
        op_clock := clock; op_data_classification := INTERNAL;
        op_verification_factory := Some synthetic_tracking_verification |}.

(** ** Concrete plans *)

#[local] Existing Instances example_sha256 example_float_repr example_sha256_laws.
#[local] Instance example_datetime_text : DatetimeText := canonical_datetime.

Definition planned_command : TransactionCommand := example_command (Some "tx-1") 0 None.
Definition planned_digest : string := value_digest JNull.

(** The plan of the verified browser planner: one chained step and a verification plan. *)
Example static_plan_example :
  (λ p, (map st_step_id (pl_steps p), map st_adapter (pl_steps p), vp_required_level <$> pl_verification p))
    <$> synthetic_verified_browser_tracking_planner planned_command "tx-1" planned_digest
  = Ok (["execute-1-shipment-track-read"], ["synthetic.browser.track"], Some L1).
Proof. vm_compute. reflexivity. Qed.

Example static_plan_missing :
  static_build ∅ None planned_command "tx-1" planned_digest
  = Err (MissingCapabilityBinding "shipment.track.read").
Proof. vm_compute. reflexivity. Qed.

Lemma static_build_total_witness :
  ∃ p, synthetic_tracking_planner planned_command "tx-1" planned_digest = Ok p ∧
    validate_execution_plan p = Ok ().
Proof.
  destruct (static_build_total synthetic_tracking_bindings None planned_command "tx-1" planned_digest None)
    as [(p & Hp & Hv & _)|(pre & k & post & _ & _ & _ & E)].
  - vm_compute. reflexivity.
  - vm_compute. reflexivity.
  - vm_compute. reflexivity.
  - vm_compute. reflexivity.
  - intros k b Hb. destruct k; vm_compute in Hb; [|discriminate..]. injection Hb as <-.
    vm_compute. reflexivity.
  - reflexivity.
  - discriminate.
  - exists p. split; [exact Hp|exact Hv].
  - exfalso. revert E. vm_compute. discriminate.
Defined.

Definition ready_policy : RoutingPolicy :=
  match synthetic_policy with Ok p => p | Err _ => RouteEngine.ex_default_policy end.
Definition ready_planner : OptimizingPlanner := {|
  op_candidates := RouteEngine.ex_candidates; op_policy_for := λ _, Ok ready_policy;
  op_health := store_health empty_store; op_clock := λ i, i * 1000000;
  op_data_classification := INTERNAL;
  op_verification_factory := Some synthetic_tracking_verification |}.

Example optimized_plan_example :
  (λ p, (map st_adapter (pl_steps p), map rf_adapter (concat (map st_route_fallbacks (pl_steps p)))))
    <$> optimizing_build ready_planner planned_command "tx-1" planned_digest
  = Ok (["synthetic.api.track"], ["synthetic.browser.track"]).
Proof. vm_compute. reflexivity. Qed.

Lemma ready_example : planner_ready ready_planner empty_store ready_policy planned_command.
Proof.
  split.
  - vm_compute. reflexivity.
  - vm_compute. reflexivity.
  - reflexivity.
  - vm_compute. reflexivity.
  - reflexivity.
  - reflexivity.
  - constructor.
  - vm_compute. lia.
  - apply (bool_decide_unpack _). vm_compute. exact I.
  - repeat constructor; vm_compute; reflexivity.
Qed.

Definition planned_verification : option VerificationPlan :=
  match synthetic_tracking_verification planned_command with Ok v => v | Err _ => None end.

Lemma planned_verification_valid :
  match planned_verification with
  | Some p => validate_plan p = Ok () ∧ vp_required_level p = L1
  | None => False
  end.
Proof. vm_compute. split; reflexivity. Qed.

Lemma optimizing_build_total_witness :
  ∃ p, optimizing_build ready_planner planned_command "tx-1" planned_digest = Ok p ∧
    validate_execution_plan p = Ok ().
Proof.
  destruct (optimizing_build_total ready_planner empty_store ready_policy planned_command "tx-1"
    planned_digest planned_verification) as [(p & l & Hp & Hvp & _)|[E _]].
  - exact ready_example.
  - vm_compute. reflexivity.
  - vm_compute. reflexivity.
  - vm_compute. reflexivity.
  - intros p Hp. pose proof planned_verification_valid as Hv. rewrite Hp in Hv. exact Hv.
  - exists p. split; [exact Hp|exact Hvp].
  - exfalso. revert E. vm_compute. discriminate.
Defined.
