(* ===== verification/Workflow.v ===== *)
(** * Durable transaction workflow (runtime/temporal.py)

    [CargoMeshTransactionWorkflow] as a deterministic program over its event history.
    Every await consumes ticks of the history: signals, which run their handlers, timer
    firings, and activity completions; an await that runs out of history is [Blocked], the
    state of a workflow that is still waiting.  The adapter and verification activities
    are the environment that writes the history.  The trace of status changes and activity
    invocations is recorded for the theorems and read by nothing else. *)

From Stdlib Require Import SpecFloat.
From S2P Require Import Prelude.
From S2P Require Import Contracts.
From S2P Require Import Routing.
From S2P Require Import Policy.
From S2P Require Import Verification.
From S2P Require Import RuntimeModels.
From S2P Require Import StateMachine.

(** ** History *)

(** [ActivityError.cause]: an [ApplicationError] with its type, or anything else. *)
Inductive ActivityCause :=
| AppFailure (type_ : option string)
| OtherFailure.

Inductive Sig :=
| SigApprove (decision : ApprovalDecision)
| SigCancel.

(** One activation of the workflow.  All signals of an activation are handled before the
    coroutine that waits runs again; a timer may fire in an activation that also delivers
    signals.  Signals that come with the completion of an activity are handled before it, as an
    activation of their own: what awaits an activity looks at nothing else. *)
Inductive Tick :=
| TSignals (arrived : list Sig)
| TTimer (arrived : list Sig)
| TAdapter (r : AdapterResult)
| TReport (r : VerificationReport)
| TFailed (cause : ActivityCause).

(** ** Workflow state *)

(** The approval state an adapter invocation is issued in. *)
Record View := {
  vw_approvals : list (string * ApprovalDecision);
  vw_conflict : bool;
  vw_cancel : bool;
  vw_status : ExecutionStatus }.

Inductive Event :=
| EvStatus (from to : ExecutionStatus)
| EvForward (step : ExecutionStep) (i : AdapterInvocation) (view : View)
| EvStepFailed (step : ExecutionStep) (failure_code : string)
| EvCompensate (step : ExecutionStep) (i : AdapterInvocation)
| EvVerify (i : VerificationInvocation).

Record Wf := {
  wf_snapshot : ExecutionSnapshot;
  wf_approvals : list (string * ApprovalDecision);
  wf_conflict : bool;
  wf_cancel : bool;
  wf_history : list Tick;
  wf_trace : list Event }.

Inductive WfError :=
| TransitionError (e : InvalidExecutionTransition)
| ValidationError (message : string)
| RoutesExhausted
| AssertionFailed.

(** The outcome of running to the end or to an await that cannot proceed. *)
Inductive Res (A : Type) :=
| Val (a : A)
| Raise (e : WfError)
| Failed (cause : ActivityCause)
| Blocked.
Arguments Val {_} _.
Arguments Raise {_} _.
Arguments Failed {_} _.
Arguments Blocked {_}.

(** ** Workflow code as a state monad *)

Definition M (A : Type) : Type := Wf → Wf * Res A.

#[export] Instance M_ret : MRet M := λ A a w, (w, Val a).
#[export] Instance M_bind : MBind M := λ A B f m w,
  match m w with
  | (w', Val a) => f a w'
  | (w', Raise e) => (w', Raise e)
  | (w', Failed c) => (w', Failed c)
  | (w', Blocked) => (w', Blocked)
  end.

(** [try: m; except ActivityError], with what follows on either path. *)
Definition catch {A B} (m : M A) (ok : A → M B) (handler : ActivityCause → M B) : M B := λ w,
  match m w with
  | (w', Val a) => ok a w'
  | (w', Failed c) => handler c w'
  | (w', Raise e) => (w', Raise e)
  | (w', Blocked) => (w', Blocked)
  end.

Definition raise {A} (e : WfError) : M A := λ w, (w, Raise e).
(** Reading an attribute of the workflow object. *)
Definition gets {A} (f : Wf → A) : M A := λ w, (w, Val (f w)).
Definition cancel_requested : M bool := gets wf_cancel.
Definition approval_conflict : M bool := gets wf_conflict.

Definition set_snapshot (w : Wf) (s : ExecutionSnapshot) : Wf := {|
  wf_snapshot := s; wf_approvals := wf_approvals w; wf_conflict := wf_conflict w;
  wf_cancel := wf_cancel w; wf_history := wf_history w; wf_trace := wf_trace w |}.
Definition set_history (w : Wf) (h : list Tick) : Wf := {|
  wf_snapshot := wf_snapshot w; wf_approvals := wf_approvals w; wf_conflict := wf_conflict w;
  wf_cancel := wf_cancel w; wf_history := h; wf_trace := wf_trace w |}.
Definition add_event (w : Wf) (e : Event) : Wf := {|
  wf_snapshot := wf_snapshot w; wf_approvals := wf_approvals w; wf_conflict := wf_conflict w;
  wf_cancel := wf_cancel w; wf_history := wf_history w; wf_trace := wf_trace w ++ [e] |}.

(** [_require_snapshot] once [run] has created the snapshot. *)
Definition require_snapshot : M ExecutionSnapshot := λ w, (w, Val (wf_snapshot w)).

(** [_replace], [model_copy(update=...)]: no validation. *)
Definition replace (f : ExecutionSnapshot → ExecutionSnapshot) : M () := λ w,
  (set_snapshot w (f (wf_snapshot w)), Val ()).
Definition log (e : Event) : M () := λ w, (add_event w e, Val ()).

(** The fields [_replace] updates. *)
Definition with_status (t : ExecutionStatus) (s : ExecutionSnapshot) : ExecutionSnapshot := {|
  sn_transaction_id := sn_transaction_id s; sn_workflow_id := sn_workflow_id s; sn_status := t;
  sn_current_step_id := sn_current_step_id s;
  sn_awaiting_approval_step_id := sn_awaiting_approval_step_id s;
  sn_completed_step_ids := sn_completed_step_ids s;
  sn_compensated_step_ids := sn_compensated_step_ids s; sn_outputs := sn_outputs s;
  sn_failure_code := sn_failure_code s; sn_verification := sn_verification s;
  sn_routing_decisions := sn_routing_decisions s; sn_policy_decisions := sn_policy_decisions s;
  sn_route_attempts := sn_route_attempts s |}.
Definition with_current (c a : option string) (s : ExecutionSnapshot) : ExecutionSnapshot := {|
  sn_transaction_id := sn_transaction_id s; sn_workflow_id := sn_workflow_id s;
  sn_status := sn_status s; sn_current_step_id := c; sn_awaiting_approval_step_id := a;
  sn_completed_step_ids := sn_completed_step_ids s;
  sn_compensated_step_ids := sn_compensated_step_ids s; sn_outputs := sn_outputs s;
  sn_failure_code := sn_failure_code s; sn_verification := sn_verification s;
  sn_routing_decisions := sn_routing_decisions s; sn_policy_decisions := sn_policy_decisions s;
  sn_route_attempts := sn_route_attempts s |}.
Definition with_failure (c : option string) (s : ExecutionSnapshot) : ExecutionSnapshot := {|
  sn_transaction_id := sn_transaction_id s; sn_workflow_id := sn_workflow_id s;
  sn_status := sn_status s; sn_current_step_id := sn_current_step_id s;
  sn_awaiting_approval_step_id := sn_awaiting_approval_step_id s;
  sn_completed_step_ids := sn_completed_step_ids s;
  sn_compensated_step_ids := sn_compensated_step_ids s; sn_outputs := sn_outputs s;
  sn_failure_code := c; sn_verification := sn_verification s;
  sn_routing_decisions := sn_routing_decisions s; sn_policy_decisions := sn_policy_decisions s;
  sn_route_attempts := sn_route_attempts s |}.
Definition with_verification (r : VerificationReport) (s : ExecutionSnapshot) : ExecutionSnapshot := {|
  sn_transaction_id := sn_transaction_id s; sn_workflow_id := sn_workflow_id s;
  sn_status := sn_status s; sn_current_step_id := sn_current_step_id s;
  sn_awaiting_approval_step_id := sn_awaiting_approval_step_id s;
  sn_completed_step_ids := sn_completed_step_ids s;
  sn_compensated_step_ids := sn_compensated_step_ids s; sn_outputs := sn_outputs s;
  sn_failure_code := sn_failure_code s; sn_verification := Some r;
  sn_routing_decisions := sn_routing_decisions s; sn_policy_decisions := sn_policy_decisions s;
  sn_route_attempts := sn_route_attempts s |}.
Definition with_completed (o : StepOutput) (s : ExecutionSnapshot) : ExecutionSnapshot := {|
  sn_transaction_id := sn_transaction_id s; sn_workflow_id := sn_workflow_id s;
  sn_status := sn_status s; sn_current_step_id := sn_current_step_id s;
  sn_awaiting_approval_step_id := sn_awaiting_approval_step_id s;
  sn_completed_step_ids := sn_completed_step_ids s ++ [so_step_id o];
  sn_compensated_step_ids := sn_compensated_step_ids s; sn_outputs := sn_outputs s ++ [o];
  sn_failure_code := sn_failure_code s; sn_verification := sn_verification s;
  sn_routing_decisions := sn_routing_decisions s; sn_policy_decisions := sn_policy_decisions s;
  sn_route_attempts := sn_route_attempts s |}.
Definition with_compensated (step_id : string) (s : ExecutionSnapshot) : ExecutionSnapshot := {|
  sn_transaction_id := sn_transaction_id s; sn_workflow_id := sn_workflow_id s;
  sn_status := sn_status s; sn_current_step_id := sn_current_step_id s;
  sn_awaiting_approval_step_id := sn_awaiting_approval_step_id s;
  sn_completed_step_ids := sn_completed_step_ids s;
  sn_compensated_step_ids := sn_compensated_step_ids s ++ [step_id]; sn_outputs := sn_outputs s;
  sn_failure_code := sn_failure_code s; sn_verification := sn_verification s;
  sn_routing_decisions := sn_routing_decisions s; sn_policy_decisions := sn_policy_decisions s;
  sn_route_attempts := sn_route_attempts s |}.
Definition with_attempt (a : RouteAttempt) (s : ExecutionSnapshot) : ExecutionSnapshot := {|
  sn_transaction_id := sn_transaction_id s; sn_workflow_id := sn_workflow_id s;
  sn_status := sn_status s; sn_current_step_id := sn_current_step_id s;
  sn_awaiting_approval_step_id := sn_awaiting_approval_step_id s;
  sn_completed_step_ids := sn_completed_step_ids s;
  sn_compensated_step_ids := sn_compensated_step_ids s; sn_outputs := sn_outputs s;
  sn_failure_code := sn_failure_code s; sn_verification := sn_verification s;
  sn_routing_decisions := sn_routing_decisions s; sn_policy_decisions := sn_policy_decisions s;
  sn_route_attempts := sn_route_attempts s ++ [a] |}.

(** [_set_status]. *)
Definition set_status (target : ExecutionStatus) : M () :=
  s ← require_snapshot;
  match transition (sn_status s) target with
  | Ok t => log (EvStatus (sn_status s) t);; replace (with_status t)
  | Err e => raise (TransitionError e)
  end.

(** ** Signals and awaits *)

(** [approve] and [request_cancel]. *)
Definition apply_signal (w : Wf) (s : Sig) : Wf :=
  match s with
  | SigApprove d =>
      match assoc (ap_step_id d) (wf_approvals w) with
      | None => {|
          wf_snapshot := wf_snapshot w; wf_approvals := wf_approvals w ++ [(ap_step_id d, d)];
          wf_conflict := wf_conflict w; wf_cancel := wf_cancel w; wf_history := wf_history w;
          wf_trace := wf_trace w |}
      | Some existing =>
          if bool_decide (existing = d) then w
          else {|
            wf_snapshot := wf_snapshot w; wf_approvals := wf_approvals w; wf_conflict := true;
            wf_cancel := wf_cancel w; wf_history := wf_history w; wf_trace := wf_trace w |}
      end
  | SigCancel => {|
      wf_snapshot := wf_snapshot w; wf_approvals := wf_approvals w; wf_conflict := wf_conflict w;
      wf_cancel := true; wf_history := wf_history w; wf_trace := wf_trace w |}
  end.

Definition deliver (t : Tick) (w : Wf) : Wf :=
  match t with
  | TSignals arrived | TTimer arrived => foldl apply_signal w arrived
  | _ => w
  end.

(** Awaiting an activity: signals are handled until its completion arrives. *)
Fixpoint await_activity {A} (accept : Tick → option (Res A)) (h : list Tick) (w : Wf) : Wf * Res A :=
  match h with
  | [] => (set_history w [], Blocked)
  | t :: h' =>
      match accept t with
      | Some r => (set_history w h', r)
      | None => await_activity accept h' (deliver t w)
      end
  end.

Definition accept_adapter (t : Tick) : option (Res AdapterResult) :=
  match t with TAdapter r => Some (Val r) | TFailed c => Some (Failed c) | _ => None end.
Definition accept_report (t : Tick) : option (Res VerificationReport) :=
  match t with TReport r => Some (Val r) | TFailed c => Some (Failed c) | _ => None end.

Definition execute_adapter_activity : M AdapterResult := λ w,
  await_activity accept_adapter (wf_history w) w.
Definition execute_verify_activity : M VerificationReport := λ w,
  await_activity accept_report (wf_history w) w.

(** [workflow.wait_condition(cond, timeout=...)]: [true] when the condition holds, [false]
    on [TimeoutError]. *)
Fixpoint wait_loop (cond : Wf → bool) (has_timeout : bool) (h : list Tick) (w : Wf) : Wf * Res bool :=
  if cond w then (set_history w h, Val true)
  else match h with
       | [] => (set_history w [], Blocked)
       | t :: h' =>
           if has_timeout && match t with TTimer _ => true | _ => false end
           then (set_history (deliver t w) h', Val false)
           else wait_loop cond has_timeout h' (deliver t w)
       end.
Definition wait_condition (cond : Wf → bool) (has_timeout : bool) : M bool := λ w,
  wait_loop cond has_timeout (wf_history w) w.

(** [_activity_failure_code]. *)
Definition activity_failure_code (cause : ActivityCause) : string :=
  match cause with
  | AppFailure (Some error_type) =>
      if (len error_type <=? 128) && name_pattern is_dash error_type then error_type
      else "activity_failed"
  | _ => "activity_failed"
  end.

(** ** Approval *)

(** [_wait_for_approval]. *)
Definition wait_for_approval (step : ExecutionStep) : M (option ApprovalDecision) :=
  replace (with_current (Some (st_step_id step)) (Some (st_step_id step)));;
  set_status Status.WAITING_APPROVAL;;
  satisfied ← wait_condition
    (λ w, negb (is_none (assoc (st_step_id step) (wf_approvals w))) || wf_cancel w)
    (negb (is_none (st_approval_timeout_seconds step)));
  if negb satisfied then mret None
  else
    cancelled ← cancel_requested;
    if cancelled : bool then mret None
    else
      approvals ← gets wf_approvals;
      match assoc (st_step_id step) approvals with
      | None => raise AssertionFailed
      | Some decision =>
          (if ap_approved decision then set_status Status.RUNNING else mret ());;
          mret (Some decision)
      end.

(** ** Steps *)

Record Alternative := {
  alt_candidate_id : option string;
  alt_adapter : string;
  alt_operation : string;
  alt_timeout_seconds : Z;
  alt_retry : RetryPolicySpec;
  alt_safe_codes : list string;
  alt_credential_binding_digest : option string }.

(** The [alternatives] of [_execute_step]. *)
Definition alternatives (step : ExecutionStep) : list Alternative :=
  {| alt_candidate_id := st_route_candidate_id step; alt_adapter := st_adapter step;
     alt_operation := st_operation step; alt_timeout_seconds := st_timeout_seconds step;
     alt_retry := st_retry step; alt_safe_codes := st_fallback_on_error_codes step;
     alt_credential_binding_digest := st_credential_binding_digest step |}
  :: map (λ f, {|
       alt_candidate_id := Some (rf_candidate_id f); alt_adapter := rf_adapter f;
       alt_operation := rf_operation f; alt_timeout_seconds := rf_timeout_seconds f;
       alt_retry := rf_retry f; alt_safe_codes := rf_fallback_on_error_codes f;
       alt_credential_binding_digest := rf_credential_binding_digest f |}) (st_route_fallbacks step).

(** [AdapterInvocation(...)]: construction validates. *)
Definition make_invocation (i : AdapterInvocation) : M AdapterInvocation :=
  match validate_adapter_invocation i with
  | Ok _ => mret i
  | Err m => raise (ValidationError m)
  end.

Definition step_invocation (plan : ExecutionPlan) (step : ExecutionStep) (a : Alternative)
    : AdapterInvocation := {|
  ai_transaction_id := pl_transaction_id plan; ai_tenant_id := pl_tenant_id plan;
  ai_environment_id := pl_environment_id plan; ai_step_id := st_step_id step;
  ai_capability := Some (st_capability step); ai_adapter := alt_adapter a;
  ai_operation := alt_operation a; ai_input := st_input step;
  ai_route_candidate_id := alt_candidate_id a;
  ai_credential_binding_digest := alt_credential_binding_digest a |}.

(** [_append_route_attempt(RouteAttempt(...))], when the alternative is a routed one. *)
Definition record_attempt (step : ExecutionStep) (a : Alternative) (status : RouteAttemptStatus)
    (failure_code : option string) : M () :=
  match alt_candidate_id a with
  | None => mret ()
  | Some candidate_id =>
      let attempt := {|
        ra_step_id := st_step_id step; ra_candidate_id := candidate_id; ra_adapter := alt_adapter a;
        ra_status := status; ra_failure_code := failure_code |} in
      match validate_attempt attempt with
      | Ok _ => replace (with_attempt attempt)
      | Err m => raise (ValidationError m)
      end
  end.

Definition view_of (w : Wf) : View := {|
  vw_approvals := wf_approvals w; vw_conflict := wf_conflict w; vw_cancel := wf_cancel w;
  vw_status := sn_status (wf_snapshot w) |}.

(** The loop of [_execute_step] over the remaining alternatives. *)
Fixpoint try_alternatives (plan : ExecutionPlan) (step : ExecutionStep) (alts : list Alternative)
    : M AdapterResult :=
  match alts with
  | [] => raise RoutesExhausted
  | a :: rest =>
      i ← make_invocation (step_invocation plan step a);
      view ← gets view_of;
      log (EvForward step i view);;
      catch execute_adapter_activity
        (λ result, record_attempt step a SUCCEEDED None;; mret result)
        (λ cause,
          let failure_code := activity_failure_code cause in
          log (EvStepFailed step failure_code);;
          record_attempt step a FAILED (Some failure_code);;
          if step_read_only step && negb (is_nil rest) && mem failure_code (alt_safe_codes a)
          then try_alternatives plan step rest
          else λ w', (w', Failed cause))
  end.

(** [_execute_step]. *)
Definition execute_step (plan : ExecutionPlan) (step : ExecutionStep) : M AdapterResult :=
  try_alternatives plan step (alternatives step).

(** ** Verification *)

Definition source_json (s : ExecutionSource) : json := JObj [
  ("source_system", JStr (src_source_system s));
  ("channel", JStr (EvidenceChannel_value (src_channel s)));
  ("adapter_id", JStr (src_adapter_id s)); ("collection_id", JStr (src_collection_id s));
  ("synthetic", JBool (src_synthetic s))].

(** [output.model_dump(mode="json")]. *)
Definition output_json (o : StepOutput) : json := JObj [
  ("step_id", JStr (so_step_id o)); ("output", JObj (so_output o));
  ("effect_reference", json_opt JStr (so_effect_reference o));
  ("execution_source", json_opt source_json (so_execution_source o))].

Definition verification_invocation (plan : ExecutionPlan) (v : VerificationPlan)
    (s : ExecutionSnapshot) : VerificationInvocation :=
  let transaction :=
    match pl_steps plan with
    | step :: _ => default JNull (assoc "transaction" (st_input step))
    | [] => JNull
    end in {|
  vi_tenant_id := pl_tenant_id plan; vi_transaction_id := pl_transaction_id plan;
  vi_business_digest := pl_business_digest plan; vi_plan := v;
  vi_execution_document :=
    [("transaction", transaction); ("outputs", JList (map output_json (sn_outputs s)))];
  vi_execution_sources := omap so_execution_source (sn_outputs s) |}.

(** [_execute_verification]: the invocation's own bounds are checked, uncaught. *)
Definition execute_verification `{FloatRepr} (plan : ExecutionPlan) : M VerificationReport :=
  match pl_verification plan with
  | None => raise AssertionFailed
  | Some v =>
      s ← require_snapshot;
      let i := verification_invocation plan v s in
      match validate_invocation i with
      | Err m => raise (ValidationError m)
      | Ok _ => log (EvVerify i);; execute_verify_activity
      end
  end.

(** The report handling that [run] and [_finish_unknown_effect] share. *)
Definition conclude (plan : ExecutionPlan) (report : VerificationReport) : M ExecutionSnapshot :=
  if negb (bool_decide (rp_transaction_id report = pl_transaction_id plan))
     || negb (bool_decide (rp_business_digest report = pl_business_digest plan))
     || negb (bool_decide (rp_required_level report = pl_verification_level plan))
  then
    replace (with_failure (Some "verification_report_mismatch"));;
    set_status Status.HALTED;; require_snapshot
  else
    replace (with_verification report);;
    match rp_verdict report with
    | VERIFIED => set_status Status.VERIFIED
    | NEEDS_REVIEW => set_status Status.NEEDS_REVIEW
    | HALTED => set_status Status.HALTED
    end;;
    require_snapshot.

(** [_finish_unknown_effect]. *)
Definition finish_unknown_effect `{FloatRepr} (plan : ExecutionPlan) (failure_code : string)
    : M ExecutionSnapshot :=
  replace (λ s, with_failure (Some failure_code) (with_current None None s));;
  if is_none (pl_verification plan) then set_status Status.HALTED;; require_snapshot
  else
    set_status Status.VERIFYING;;
    catch (execute_verification plan) (conclude plan)
      (λ _, replace (with_failure (Some "unknown_effect_verification_failed"));;
            set_status Status.HALTED;; require_snapshot).

(** ** Compensation *)

(** [compensation_input["effect_reference"] = effect_reference]. *)
Fixpoint dict_set (key : string) (v : json) (d : list (string * json)) : list (string * json) :=
  match d with
  | [] => [(key, v)]
  | (k, w) :: d' => if decide (k = key) then (k, v) :: d' else (k, w) :: dict_set key v d'
  end.

(** The latest effect reference of the step, [next(..., None)] over reversed outputs. *)
Definition effect_reference (step_id : string) (outputs : list StepOutput) : option string :=
  head (omap (λ o, if bool_decide (so_step_id o = step_id) then so_effect_reference o else None)
         (rev outputs)).

Definition compensation_invocation (plan : ExecutionPlan) (step : ExecutionStep)
    (c : CompensationSpec) (reference : option string) : AdapterInvocation := {|
  ai_transaction_id := pl_transaction_id plan; ai_tenant_id := pl_tenant_id plan;
  ai_environment_id := pl_environment_id plan; ai_step_id := st_step_id step;
  ai_capability := cp_capability c; ai_adapter := cp_adapter c; ai_operation := cp_operation c;
  ai_input := match reference with
              | Some r => dict_set "effect_reference" (JStr r) (cp_input c)
              | None => cp_input c
              end;
  ai_route_candidate_id := None;
  ai_credential_binding_digest := cp_credential_binding_digest c |}.

(** The loop over the compensatable steps, latest first; [Some] is an early return. *)
Fixpoint compensate (plan : ExecutionPlan) (steps : list ExecutionStep)
    : M (option ExecutionSnapshot) :=
  match steps with
  | [] => mret None
  | step :: rest =>
      match st_compensation step with
      | None => raise AssertionFailed
      | Some c =>
          s ← require_snapshot;
          let reference :=
            if cp_include_effect_reference c
            then effect_reference (st_step_id step) (sn_outputs s) else None in
          if cp_include_effect_reference c && is_none reference then
            replace (λ s, with_failure (Some "compensation_reference_missing")
                            (with_current None (sn_awaiting_approval_step_id s) s));;
            set_status Status.HALTED;;
            final ← require_snapshot; mret (Some final)
          else
            i ← make_invocation (compensation_invocation plan step c reference);
            log (EvCompensate step i);;
            catch execute_adapter_activity
              (λ _, replace (with_compensated (st_step_id step));; compensate plan rest)
              (λ _, replace (λ s, with_failure (Some "compensation_failed")
                                    (with_current None (sn_awaiting_approval_step_id s) s));;
                    set_status Status.HALTED;;
                    final ← require_snapshot; mret (Some final))
      end
  end.

Definition has_compensation (s : ExecutionStep) : bool := negb (is_none (st_compensation s)).
Definition unresolved (s : ExecutionStep) : bool := negb (step_read_only s) && negb (has_compensation s).

(** [_finish_with_compensation]. *)
Definition finish_with_compensation (plan : ExecutionPlan) (completed_steps : list ExecutionStep)
    (requested_terminal : ExecutionStatus) (failure_code : option string) : M ExecutionSnapshot :=
  let compensatable := List.filter has_compensation completed_steps in
  let unresolved_effect := existsb unresolved completed_steps in
  early ← (if is_nil compensatable then mret None
           else set_status Status.COMPENSATING;; compensate plan (rev compensatable));
  match early with
  | Some final => mret final
  | None =>
      let '(terminal, code) :=
        if unresolved_effect then (Status.HALTED, Some "uncompensated_effect")
        else if bool_decide (requested_terminal = Status.COMPENSATED) && is_nil compensatable
        then (Status.HALTED, failure_code) else (requested_terminal, failure_code) in
      replace (λ s, with_failure code (with_current None None s));;
      set_status terminal;; require_snapshot
  end.

(** ** The run *)

(** After the loop over the steps. *)
Definition finish_run `{FloatRepr} (plan : ExecutionPlan) (completed_steps : list ExecutionStep)
    : M ExecutionSnapshot :=
  cancelled ← cancel_requested;
  if cancelled : bool then
    finish_with_compensation plan completed_steps Status.CANCELLED (Some "cancelled")
  else
    replace (λ s, with_current None (sn_awaiting_approval_step_id s) s);;
    if is_none (pl_verification plan) then
      set_status Status.EXECUTED_UNVERIFIED;; require_snapshot
    else
      set_status Status.VERIFYING;;
      catch (execute_verification plan) (conclude plan)
        (λ cause, replace (with_failure (Some (activity_failure_code cause)));;
                  set_status Status.HALTED;; require_snapshot).

(** What an approval step decides: [None] to go on, [Some] an early return. *)
Definition approval_gate (plan : ExecutionPlan) (completed_steps : list ExecutionStep)
    (step : ExecutionStep) : M (option ExecutionSnapshot) :=
  if negb (st_requires_approval step) then mret None
  else
    decision ← wait_for_approval step;
    cancelled ← cancel_requested;
    conflict ← approval_conflict;
    match decision with
    | None =>
        final ← finish_with_compensation plan completed_steps
          (if cancelled : bool then Status.CANCELLED else Status.HALTED)
          (Some (if cancelled : bool then "cancelled" else "approval_timeout"));
        mret (Some final)
    | Some d =>
        if conflict : bool then
          final ← finish_with_compensation plan completed_steps Status.HALTED
            (Some "approval_conflict");
          mret (Some final)
        else if negb (ap_approved d) then
          final ← finish_with_compensation plan completed_steps Status.REJECTED None;
          mret (Some final)
        else mret None
    end.

(** The handler of [except ActivityError] around a step. *)
Definition step_failed `{FloatRepr} (plan : ExecutionPlan) (completed_steps : list ExecutionStep)
    (step : ExecutionStep) (cause : ActivityCause) : M ExecutionSnapshot :=
  let failure_code := activity_failure_code cause in
  if mem failure_code (st_unknown_effect_error_codes step)
  then finish_unknown_effect plan failure_code
  else if step_read_only step
  then finish_with_compensation plan completed_steps Status.HALTED (Some failure_code)
  else finish_with_compensation plan (completed_steps ++ [step]) Status.COMPENSATED
         (Some failure_code).

(** [for step in plan.steps], from the remaining [steps]. *)
Fixpoint run_steps `{FloatRepr} (plan : ExecutionPlan) (completed_steps steps : list ExecutionStep)
    : M ExecutionSnapshot :=
  match steps with
  | [] => finish_run plan completed_steps
  | step :: rest =>
      cancelled ← cancel_requested;
      if cancelled : bool then
        finish_with_compensation plan completed_steps Status.CANCELLED (Some "cancelled")
      else
        stop ← approval_gate plan completed_steps step;
        match stop with
        | Some final => mret final
        | None =>
            replace (with_current (Some (st_step_id step)) None);;
            catch (execute_step plan step)
              (λ result,
                replace (with_completed {|
                  so_step_id := st_step_id step; so_output := ar_output result;
                  so_effect_reference := ar_effect_reference result;
                  so_execution_source := ar_execution_source result |});;
                run_steps plan (completed_steps ++ [step]) rest)
              (step_failed plan completed_steps step)
        end
  end.

Definition initial_snapshot (plan : ExecutionPlan) (workflow_id : string) : ExecutionSnapshot := {|
  sn_transaction_id := pl_transaction_id plan; sn_workflow_id := workflow_id;
  sn_status := Status.ACCEPTED; sn_current_step_id := None; sn_awaiting_approval_step_id := None;
  sn_completed_step_ids := []; sn_compensated_step_ids := []; sn_outputs := [];
  sn_failure_code := None; sn_verification := None;
  sn_routing_decisions := pl_routing_decisions plan;
  sn_policy_decisions := pl_policy_decisions plan; sn_route_attempts := [] |}.

(** The workflow object when [run] starts; signals may have been handled before. *)
Definition initial_state (plan : ExecutionPlan) (workflow_id : string) (early : list Sig)
    (history : list Tick) : Wf :=
  foldl apply_signal
    {| wf_snapshot := initial_snapshot plan workflow_id; wf_approvals := []; wf_conflict := false;
       wf_cancel := false; wf_history := history; wf_trace := [] |} early.

(** [run]. *)
Definition run `{FloatRepr} (plan : ExecutionPlan) (workflow_id : string) (early : list Sig)
    (history : list Tick) : Wf * Res ExecutionSnapshot :=
  (set_status Status.RUNNING;; run_steps plan [] (pl_steps plan))
    (initial_state plan workflow_id early history).

(** ** Weakest preconditions *)

Definition wp {A} (m : M A) (Q : Res A → Wf → Prop) (w : Wf) : Prop := Q (m w).2 (m w).1.

(** The post of a prefix, lifted over what follows it. *)
Definition then_ {A B} (f : A → M B) (Q : Res B → Wf → Prop) (r : Res A) (w : Wf) : Prop :=
  match r with
  | Val a => wp (f a) Q w
  | Raise e => Q (Raise e) w
  | Failed c => Q (Failed c) w
  | Blocked => Q Blocked w
  end.

Section wp_rules.
Context {A B : Type}.
Implicit Types (w : Wf).

Lemma wp_bind (m : M A) (f : A → M B) Q w : wp m (then_ f Q) w → wp (m ≫= f) Q w.
Proof. unfold wp, then_, mbind, M_bind. by destruct (m w) as [w' []]. Qed.

Lemma wp_catch (m : M A) (ok : A → M B) handler Q w :
  wp m (λ r w', match r with
                | Val a => wp (ok a) Q w' | Failed c => wp (handler c) Q w'
                | Raise e => Q (Raise e) w' | Blocked => Q Blocked w'
                end) w →
  wp (catch m ok handler) Q w.
Proof. unfold wp, catch. by destruct (m w) as [w' []]. Qed.

Lemma wp_ret (a : A) Q w : Q (Val a) w → wp (mret a) Q w.
Proof. done. Qed.

Lemma wp_raise e (Q : Res A → Wf → Prop) w : Q (Raise e) w → wp (raise e) Q w.
Proof. done. Qed.

Lemma wp_mono (m : M A) (Q Q' : Res A → Wf → Prop) w :
  wp m Q w → (∀ r w', Q r w' → Q' r w') → wp m Q' w.
Proof. unfold wp. auto. Qed.

End wp_rules.

Lemma wp_gets {A} (f : Wf → A) Q w : Q (Val (f w)) w → wp (gets f) Q w.
Proof. done. Qed.
Lemma wp_require Q w : Q (Val (wf_snapshot w)) w → wp require_snapshot Q w.
Proof. done. Qed.
Lemma wp_replace f Q w : Q (Val ()) (set_snapshot w (f (wf_snapshot w))) → wp (replace f) Q w.
Proof. done. Qed.
Lemma wp_log e Q w : Q (Val ()) (add_event w e) → wp (log e) Q w.
Proof. done. Qed.

Notation status w := (sn_status (wf_snapshot w)).

(** The state after a legal status change. *)
Definition moved (w : Wf) (t : ExecutionStatus) : Wf :=
  set_snapshot (add_event w (EvStatus (status w) t)) (with_status t (wf_snapshot w)).

Lemma wp_set_status t Q w :
  moves (status w) t → Q (Val ()) (moved w t) → wp (set_status t) Q w.
Proof.
  intros Hm HQ. unfold wp, set_status, mbind, M_bind, require_snapshot. cbn. by rewrite Hm.
Qed.

(** What an await may change: it handles signals and consumes history, nothing else. *)
Definition frame (w w' : Wf) : Prop :=
  wf_snapshot w' = wf_snapshot w ∧ wf_trace w' = wf_trace w ∧
  (∀ k d, assoc k (wf_approvals w) = Some d → assoc k (wf_approvals w') = Some d) ∧
  (∀ t, t ∈ wf_history w' → t ∈ wf_history w).

Lemma assoc_app {A} k (l l' : list (string * A)) :
  assoc k (l ++ l') = match assoc k l with Some v => Some v | None => assoc k l' end.
Proof. induction l as [|[k' v] l IH]; simpl; [done|]. by destruct (decide (k' = k)). Qed.

Lemma apply_signal_frame w s : frame w (apply_signal w s) ∧ wf_history (apply_signal w s) = wf_history w.
Proof.
  unfold frame. destruct s as [d|]; simpl; [|by split_and!].
  destruct (assoc _ _); [case_bool_decide; by split_and!|]. split_and!; try done. simpl.
  intros k d' Hk. by rewrite assoc_app, Hk.
Qed.

Lemma frame_trans w1 w2 w3 : frame w1 w2 → frame w2 w3 → frame w1 w3.
Proof. unfold frame. intros (A1 & A2 & A3 & A4) (B1 & B2 & B3 & B4). split_and!; try congruence; auto. Qed.

Lemma apply_signals_frame l w : frame w (foldl apply_signal w l) ∧ wf_history (foldl apply_signal w l) = wf_history w.
Proof.
  revert w. induction l as [|s l IH]; intros w; simpl; [by split_and!|].
  destruct (apply_signal_frame w s) as [F1 E1], (IH (apply_signal w s)) as [F2 E2].
  split; [by eapply frame_trans|congruence].
Qed.

Lemma deliver_frame t w : frame w (deliver t w) ∧ wf_history (deliver t w) = wf_history w.
Proof. destruct t; simpl; try (by split_and!); apply apply_signals_frame. Qed.

(** [await_activity] on the remaining history. *)
Lemma await_spec {A} (accept : Tick → option (Res A)) h w w' r :
  (∀ t, t ∈ h → t ∈ wf_history w) → await_activity accept h w = (w', r) →
  frame w w' ∧ (r = Blocked ∨ ∃ t, t ∈ wf_history w ∧ accept t = Some r).
Proof.
  revert w. induction h as [|t h IH]; intros w Hsub; simpl.
  - intros [= <- <-]. split; [|auto]. by split_and!.
  - destruct (accept t) as [r'|] eqn:Ha.
    + intros [= <- <-]. split; [|right; exists t; split; [apply Hsub; left|done]].
      split_and!; try done. intros t' Ht. apply Hsub. by right.
    + destruct (deliver_frame t w) as [F E]. intros Hw. apply IH in Hw as [F' Hr].
      * split; [by eapply frame_trans|]. by rewrite E in Hr.
      * intros t' Ht. rewrite E. apply Hsub. by right.
Qed.

Lemma wp_adapter Q w :
  (∀ r w', frame w w' →
     match r with
     | Val a => TAdapter a ∈ wf_history w | Failed c => TFailed c ∈ wf_history w
     | Raise _ => False | Blocked => True
     end → Q r w') →
  wp execute_adapter_activity Q w.
Proof.
  intros HQ. unfold wp, execute_adapter_activity.
  destruct (await_activity accept_adapter (wf_history w) w) as [w' r] eqn:E.
  apply await_spec in E as [F Hr]; [|done]. apply HQ; [done|].
  destruct Hr as [->|([] & Ht & [= <-])]; done.
Qed.

Lemma wp_report Q w :
  (∀ r w', frame w w' →
     match r with
     | Val a => TReport a ∈ wf_history w | Failed c => TFailed c ∈ wf_history w
     | Raise _ => False | Blocked => True
     end → Q r w') →
  wp execute_verify_activity Q w.
Proof.
  intros HQ. unfold wp, execute_verify_activity.
  destruct (await_activity accept_report (wf_history w) w) as [w' r] eqn:E.
  apply await_spec in E as [F Hr]; [|done]. apply HQ; [done|].
  destruct Hr as [->|([] & Ht & [= <-])]; done.
Qed.

Lemma wait_spec cond has_timeout h w w' r :
  (∀ w h, cond (set_history w h) = cond w) →
  (∀ t, t ∈ h → t ∈ wf_history w) → wait_loop cond has_timeout h w = (w', r) →
  frame w w' ∧ (r = Blocked ∨ (r = Val true ∧ cond w' = true) ∨ r = Val false).
Proof.
  intros Hc. revert w. induction h as [|t h IH]; intros w Hsub; simpl; destruct (cond w) eqn:Hw.
  - intros [= <- <-]. split; [by split_and!|]. rewrite Hc. auto.
  - intros [= <- <-]. split; [|auto]. split_and!; try done.
  - intros [= <- <-]. split; [by split_and!|]. rewrite Hc. auto.
  - destruct (deliver_frame t w) as [F E]. destruct (_ && _).
    + intros [= <- <-]. split; [|auto]. destruct F as (F1 & F2 & F3 & F4). split_and!; try done.
      simpl. intros t' Ht. apply Hsub. by right.
    + intros Hw'. apply IH in Hw' as [F' Hr]; [split; [by eapply frame_trans|done]|].
      intros t' Ht. rewrite E. apply Hsub. by right.
Qed.

Lemma wp_wait cond has_timeout Q w :
  (∀ w h, cond (set_history w h) = cond w) →
  (∀ r w', frame w w' →
     match r with Val b => b = true → cond w' = true | Blocked => True | _ => False end →
     Q r w') →
  wp (wait_condition cond has_timeout) Q w.
Proof.
  intros Hc HQ. unfold wp, wait_condition.
  destruct (wait_loop cond has_timeout (wf_history w) w) as [w' r] eqn:E.
  apply wait_spec in E as [F Hr]; [|done..]. apply HQ; [done|].
  by destruct Hr as [->|[[-> ?]| ->]]; simpl.
Qed.

(** ** What the trace records *)

Definition forward_step (e : Event) : option ExecutionStep :=
  match e with EvForward step _ _ => Some step | _ => None end.
Definition compensated_step (e : Event) : option ExecutionStep :=
  match e with EvCompensate step _ => Some step | _ => None end.
Definition effectful (s : ExecutionStep) : bool := negb (step_read_only s).

(** The effectful steps the adapters were asked to perform, in order, and the steps they
    were asked to compensate. *)
Definition effects (trace : list Event) : list ExecutionStep :=
  List.filter effectful (omap forward_step trace).
Definition compensations (trace : list Event) : list ExecutionStep := omap compensated_step trace.

(** A failure with one of the step's unknown-effect codes. *)
Definition unknown_failure (e : Event) : bool :=
  match e with
  | EvStepFailed step code => mem code (st_unknown_effect_error_codes step)
  | _ => false
  end.
Definition adapter_event (e : Event) : bool :=
  match e with EvForward _ _ _ | EvCompensate _ _ => true | _ => false end.

(** After an unknown effect no adapter is invoked any more. *)
Definition quiet_after_unknown (trace : list Event) : Prop :=
  ∀ t1 e t2, trace = t1 ++ e :: t2 → unknown_failure e = true →
    ∀ e', e' ∈ t2 → adapter_event e' = false.

(** What holds of each recorded event. *)
Definition event_ok (e : Event) : Prop :=
  match e with
  | EvStatus from to => moves from to
  | EvForward step i view =>
      vw_status view = Status.RUNNING ∧ ai_step_id i = st_step_id step ∧
      (st_requires_approval step = true → ∃ d, assoc (st_step_id step) (vw_approvals view) = Some d ∧
         ap_approved d = true) ∧
      (effectful step = true → vw_cancel view = false ∧
         (st_requires_approval step = true → vw_conflict view = false))
  | EvCompensate step i =>
      ai_step_id i = st_step_id step ∧
      ∃ c, st_compensation step = Some c ∧
        (cp_include_effect_reference c = true →
           ∃ r, ai_input i = dict_set "effect_reference" (JStr r) (cp_input c))
  | _ => True
  end.

Lemma effects_app t t' : effects (t ++ t') = effects t ++ effects t'.
Proof. unfold effects. by rewrite omap_app, List.filter_app. Qed.
Lemma compensations_app t t' : compensations (t ++ t') = compensations t ++ compensations t'.
Proof. apply omap_app. Qed.

Lemma quiet_none trace : existsb unknown_failure trace = false → quiet_after_unknown trace.
Proof.
  intros Hn t1 e t2 -> He. rewrite existsb_app in Hn. simpl in Hn. rewrite He in Hn.
  by rewrite orb_true_r in Hn.
Qed.

Lemma quiet_app trace tail :
  existsb adapter_event tail = false → existsb unknown_failure tail = false →
  quiet_after_unknown trace → quiet_after_unknown (trace ++ tail).
Proof.
  intros Ha Hu Hq t1 e t2 E He e' He'.
  rewrite existsb_elem_false in Ha, Hu.
  destruct (decide (length t1 < length trace)%nat) as [Hl|Hl].
  - assert (∃ t3, trace = t1 ++ e :: t3 ∧ t2 = t3 ++ tail) as (t3 & E1 & E2).
    { clear -E Hl. revert t1 E Hl. induction trace as [|x trace IH]; intros [|y t1] E Hl; simpl in *;
        try lia; injection E as -> E; [eauto|].
      destruct (IH t1 E) as (t3 & -> & ->); [lia|]. eauto. }
    subst. apply elem_of_app in He' as [He'|He']; [by eapply Hq|by apply Ha].
  - exfalso. assert (e ∈ tail) as Hin.
    { clear -E Hl. revert t1 E Hl. induction trace as [|x trace IH]; intros t1 E Hl; simpl in *.
      - rewrite E. apply elem_of_app. right. left.
      - destruct t1 as [|y t1]; simpl in *; [lia|]. injection E as -> E. apply (IH t1 E). lia. }
    rewrite (Hu e Hin) in He. done.
Qed.

(** ** Well-formed plans never fail to build an invocation *)

Lemma validate_step_parts s :
  validate_step s = Ok () →
  step_fields_ok s = true ∧ optional_digest_ok (st_credential_binding_digest s) = true ∧
  has_secret_values (JObj (st_input s)) = false ∧
  (∀ f, f ∈ st_route_fallbacks s → validate_fallback f = Ok ()) ∧
  (effectful s = true → st_route_fallbacks s = []) ∧
  (effectful s = false → st_unknown_effect_error_codes s = [] ∧ st_compensation s = None) ∧
  (∀ c, st_compensation s = Some c → validate_compensation c = Ok () ∧
     has_secret_values (JObj (cp_input c)) = false).
Proof.
  unfold validate_step. intros ([] & _ & Hs)%bind_ok.
  apply bind_ok in Hs as ([] & Hc & Hs). apply bind_ok in Hs as ([] & Hf & Hs).
  apply raise_if_then in Hs as [Hfields Hs]. do 3 (apply raise_if_then in Hs as [_ Hs]).
  apply raise_if_then in Hs as [Hro Hs]. do 2 (apply raise_if_then in Hs as [_ Hs]).
  apply raise_if_then in Hs as [Hun Hs]. do 2 (apply raise_if_then in Hs as [_ Hs]).
  apply raise_if_then in Hs as [Hfb Hs]. do 2 (apply raise_if_then in Hs as [_ Hs]).
  apply raise_if_then in Hs as [Hd Hs]. apply raise_if_then in Hs as [Hsec Hs].
  apply raise_if_ok in Hs. rewrite foldM_unit_ok in Hf. unfold effectful.
  apply negb_false_iff in Hfields, Hd. split_and!; try done.
  - intros He. rewrite He in Hfb. by destruct (st_route_fallbacks s).
  - intros He%negb_false_iff. rewrite He in Hun, Hro. rewrite andb_true_r in Hun. simpl in Hro.
    destruct (st_unknown_effect_error_codes s), (st_compensation s); done.
  - intros c E. by rewrite E in Hc, Hs.
Qed.

Lemma dict_set_secret key v d :
  is_secret_key key = false → has_secret_values v = false →
  has_secret_values (JObj d) = false → has_secret_values (JObj (dict_set key v d)) = false.
Proof.
  intros Hk Hv. simpl. rewrite !existsb_elem_false. intros Hd kv Hkv.
  induction d as [|[k w] d IH]; simpl in Hkv.
  - apply list_elem_of_singleton in Hkv as ->. simpl. by rewrite Hk, Hv.
  - destruct (decide (k = key)) as [->|Hne].
    + apply elem_of_cons in Hkv as [->|Hkv]; [simpl; by rewrite Hk, Hv|]. apply Hd. by right.
    + apply elem_of_cons in Hkv as [->|Hkv]; [apply Hd; left|].
      apply IH; [|done]. intros x Hx. apply Hd. by right.
Qed.

Section plan.
Context `{Sha256, FloatRepr} (plan : ExecutionPlan).
Hypothesis Hplan : validate_execution_plan plan = Ok ().

Lemma plan_ids_ok :
  Identifier_ok (pl_transaction_id plan) = true ∧ Identifier_ok (pl_tenant_id plan) = true ∧
  Identifier_ok (pl_environment_id plan) = true.
Proof. apply validate_plan_parts in Hplan. naive_solver. Qed.

Lemma step_invocation_ok step a :
  validate_step step = Ok () → a ∈ alternatives step →
  validate_adapter_invocation (step_invocation plan step a) = Ok ().
Proof.
  intros (Hf & Hd & Hsec & Hfb & _)%validate_step_parts Ha. destruct plan_ids_ok as (I1 & I2 & I3).
  unfold step_fields_ok in Hf. boolify.
  assert (Name_ok (alt_adapter a) = true ∧ Name_ok (alt_operation a) = true ∧
    opt_ok Name_ok (alt_candidate_id a) = true ∧
    optional_digest_ok (alt_credential_binding_digest a) = true) as (A1 & A2 & A3 & A4).
  { unfold alternatives in Ha. apply elem_of_cons in Ha as [->|Ha]; [by split_and!|].
    apply list_elem_of_fmap in Ha as (f & -> & Hin). specialize (Hfb f Hin).
    unfold validate_fallback in Hfb. apply bind_ok in Hfb as ([] & _ & Hfb).
    apply raise_if_then in Hfb as [Hn Hfb]. apply raise_if_then in Hfb as [_ Hfb].
    apply raise_if_ok in Hfb. boolify. simpl. by split_and!. }
  unfold validate_adapter_invocation, step_invocation. cbn [ai_transaction_id ai_tenant_id
    ai_environment_id ai_step_id ai_capability ai_adapter ai_operation ai_route_candidate_id
    ai_credential_binding_digest ai_input opt_ok].
  rewrite I1, I2, I3, A1, A2, A3, A4, Hsec.
  repeat match goal with E : Name_ok _ = true |- _ => rewrite E; clear E end.
  simpl. by rewrite andb_false_r.
Qed.

Lemma compensation_invocation_ok step c reference :
  validate_step step = Ok () → st_compensation step = Some c →
  validate_adapter_invocation (compensation_invocation plan step c reference) = Ok ().
Proof.
  intros (Hf & _ & _ & _ & _ & _ & Hc)%validate_step_parts E.
  destruct (Hc c E) as [Hv Hsec], plan_ids_ok as (I1 & I2 & I3). unfold step_fields_ok in Hf. boolify.
  unfold validate_compensation in Hv. apply bind_ok in Hv as ([] & _ & Hv).
  apply raise_if_then in Hv as [Hn Hv]. apply raise_if_then in Hv as [_ Hv].
  apply raise_if_then in Hv as [Hd Hv]. apply raise_if_then in Hv as [Hcap _]. boolify.
  assert (has_secret_values (JObj (ai_input (compensation_invocation plan step c reference))) = false)
    as Hs.
  { simpl ai_input. destruct reference; [|done]. by apply dict_set_secret. }
  unfold validate_adapter_invocation. rewrite Hs. unfold compensation_invocation.
  cbn [ai_transaction_id ai_tenant_id ai_environment_id ai_step_id ai_capability ai_adapter
    ai_operation ai_route_candidate_id ai_credential_binding_digest opt_ok].
  rewrite I1, I2, I3, Hd, Hcap.
  repeat match goal with E : _ _ = true |- _ => rewrite E; clear E end.
  done.
Qed.

Lemma activity_failure_code_name cause : Name_ok (activity_failure_code cause) = true.
Proof.
  destruct cause as [[t|]|]; [|done..]. simpl. destruct (_ && _) eqn:E; [|done].
  apply andb_true_iff in E as [Hl Hp]. unfold Name_ok. rewrite Hl.
  rewrite (name_pattern_mono is_dash is_sep) by eauto using dash_is_sep.
  destruct t as [|ch t]; [done|]. unfold len. simpl String.length.
  by rewrite (proj2 (Z.leb_le _ _)) by lia.
Qed.

Lemma attempt_ok step a status code :
  validate_step step = Ok () → a ∈ alternatives step →
  (status = SUCCEEDED ∧ code = None ∨ ∃ cause, status = FAILED ∧ code = Some (activity_failure_code cause)) →
  ∀ candidate_id, alt_candidate_id a = Some candidate_id →
  validate_attempt {| ra_step_id := st_step_id step; ra_candidate_id := candidate_id;
    ra_adapter := alt_adapter a; ra_status := status; ra_failure_code := code |} = Ok ().
Proof.
  intros Hs Ha Hcode cid E. pose proof (step_invocation_ok step a Hs Ha) as Hi.
  unfold validate_adapter_invocation, step_invocation in Hi. apply raise_if_then in Hi as [Hi _].
  cbn [ai_transaction_id ai_tenant_id ai_environment_id ai_step_id ai_capability ai_adapter
    ai_operation ai_route_candidate_id opt_ok] in Hi.
  rewrite E in Hi. cbn [opt_ok] in Hi. boolify. unfold validate_attempt.
  cbn [ra_step_id ra_candidate_id ra_adapter ra_status ra_failure_code].
  repeat match goal with E : _ _ = true |- _ => rewrite E; clear E end.
  destruct Hcode as [[-> ->]|(cause & -> & ->)]; [done|]. simpl.
  by rewrite activity_failure_code_name.
Qed.

End plan.

(** ** Invariants of a run *)

Definition suffix_of_history (H : list Tick) (w : Wf) : Prop := ∀ t, t ∈ wf_history w → t ∈ H.

(** While steps are executed: no compensation yet, no unknown effect yet. *)
Definition clean (E : list ExecutionStep) (w : Wf) : Prop :=
  effects (wf_trace w) = E ∧ compensations (wf_trace w) = [] ∧
  sn_compensated_step_ids (wf_snapshot w) = [] ∧
  existsb unknown_failure (wf_trace w) = false ∧ Forall event_ok (wf_trace w).

(** At any point: compensations run latest first, each completed one is recorded. *)
Definition settled (E : list ExecutionStep) (w : Wf) : Prop :=
  effects (wf_trace w) = E ∧
  compensations (wf_trace w) `prefix_of` rev (List.filter has_compensation E) ∧
  sn_compensated_step_ids (wf_snapshot w) `prefix_of` map st_step_id (compensations (wf_trace w)) ∧
  quiet_after_unknown (wf_trace w) ∧ Forall event_ok (wf_trace w).

Lemma clean_settled E w : clean E w → settled E w.
Proof.
  intros (H1 & H2 & H3 & H4 & H5). split_and!; [done|..|by apply quiet_none|done].
  - rewrite H2. apply prefix_nil.
  - rewrite H3. apply prefix_nil.
Qed.

Lemma frame_clean E w w' : frame w w' → clean E w → clean E w'.
Proof. intros (F1 & F2 & _). unfold clean. by rewrite F1, F2. Qed.
Lemma frame_settled E w w' : frame w w' → settled E w → settled E w'.
Proof. intros (F1 & F2 & _). unfold settled. by rewrite F1, F2. Qed.
Lemma frame_status w w' : frame w w' → status w' = status w.
Proof. by intros (-> & _). Qed.
Lemma frame_suffix H w w' : frame w w' → suffix_of_history H w → suffix_of_history H w'.
Proof. intros (_ & _ & _ & F) Hs t Ht. auto. Qed.

(** Logging an event no invariant looks at. *)
Definition plain_event (e : Event) : bool :=
  negb (adapter_event e) && negb (unknown_failure e).

Lemma plain_event_projections e :
  plain_event e = true → omap forward_step [e] = [] ∧ omap compensated_step [e] = [] ∧
  existsb adapter_event [e] = false ∧ existsb unknown_failure [e] = false.
Proof. unfold plain_event. destruct e; simpl; try done. by rewrite negb_true_iff, orb_false_r. Qed.

Lemma clean_log E w e : plain_event e = true → event_ok e → clean E w → clean E (add_event w e).
Proof.
  intros Hp He (H1 & H2 & H3 & H4 & H5).
  destruct (plain_event_projections e Hp) as (P1 & P2 & P3 & P4). unfold clean. cbn [wf_trace wf_snapshot add_event].
  rewrite effects_app, compensations_app, existsb_app, H1, H2, H3, H4, P4. unfold effects, compensations.
  rewrite P1, P2. simpl. rewrite app_nil_r. split_and!; try done.
  apply Forall_app. auto.
Qed.

Lemma settled_log E w e : plain_event e = true → event_ok e → settled E w → settled E (add_event w e).
Proof.
  intros Hp He (H1 & H2 & H3 & H4 & H5).
  destruct (plain_event_projections e Hp) as (P1 & P2 & P3 & P4). unfold settled. cbn [wf_trace wf_snapshot add_event].
  rewrite effects_app, compensations_app, H1. unfold effects at 1, compensations at 2 4.
  rewrite P1, P2. simpl. rewrite !app_nil_r. split_and!; try done; [by apply quiet_app|].
  apply Forall_app. auto.
Qed.

Lemma clean_snapshot E w s :
  sn_compensated_step_ids s = sn_compensated_step_ids (wf_snapshot w) →
  clean E w → clean E (set_snapshot w s).
Proof. unfold clean. cbn. by intros ->. Qed.
Lemma settled_snapshot E w s :
  sn_compensated_step_ids s = sn_compensated_step_ids (wf_snapshot w) →
  settled E w → settled E (set_snapshot w s).
Proof. unfold settled. cbn. by intros ->. Qed.

Lemma clean_moved E w t : moves (status w) t → clean E w → clean E (moved w t).
Proof. intros Hm Hc. apply clean_snapshot; [done|]. by apply clean_log. Qed.
Lemma settled_moved E w t : moves (status w) t → settled E w → settled E (moved w t).
Proof. intros Hm Hc. apply settled_snapshot; [done|]. by apply settled_log. Qed.

(** What an ended or waiting run looks like, given the effects [E] it asked for. *)
Definition report_backed (plan : ExecutionPlan) (H : list Tick) (s : ExecutionSnapshot)
    (verdict : VerificationVerdict) : Prop :=
  ∃ report, TReport report ∈ H ∧ sn_verification s = Some report ∧ rp_verdict report = verdict ∧
    rp_transaction_id report = pl_transaction_id plan ∧
    rp_business_digest report = pl_business_digest plan ∧
    rp_required_level report = pl_verification_level plan ∧ pl_verification plan ≠ None.

Definition ended (plan : ExecutionPlan) (H : list Tick) (E : list ExecutionStep)
    (s : ExecutionSnapshot) : Prop :=
  terminal s = true ∧
  (sn_status s = Status.VERIFIED → report_backed plan H s VERIFIED) ∧
  (sn_status s = Status.NEEDS_REVIEW → report_backed plan H s NEEDS_REVIEW) ∧
  (sn_status s ∈ [Status.COMPENSATED; Status.REJECTED; Status.CANCELLED] →
     ∀ step, step ∈ E → st_step_id step ∈ sn_compensated_step_ids s).

Definition fin (plan : ExecutionPlan) (H : list Tick) (E : list ExecutionStep)
    (r : Res ExecutionSnapshot) (w : Wf) : Prop :=
  settled E w ∧
  match r with
  | Val s => s = wf_snapshot w ∧ ended plan H E s
  | Blocked => True
  | Raise (ValidationError _) => status w = Status.VERIFYING
  | _ => False
  end.

Ltac wp_step :=
  match goal with
  | |- wp (_ ≫= _) _ _ => apply wp_bind
  | |- wp (mret _) _ _ => apply wp_ret
  | |- wp (gets _) _ _ => apply wp_gets
  | |- wp require_snapshot _ _ => apply wp_require
  | |- wp (replace _) _ _ => apply wp_replace
  | |- wp (log _) _ _ => apply wp_log
  | |- then_ _ _ (Val _) _ => cbn [then_]
  end.
Ltac wp_run := repeat (wp_step; cbv beta).

Section run.
Context `{Sha256, FloatRepr} (plan : ExecutionPlan) (H_ : list Tick).
Hypothesis Hplan : validate_execution_plan plan = Ok ().

Notation fin := (fin plan H_).

(** A final status change that claims nothing. *)
Lemma fin_moved E w t :
  moves (status w) t → settled E w →
  t ∈ [Status.HALTED; Status.EXECUTED_UNVERIFIED] →
  wp (set_status t) (then_ (λ _, require_snapshot) (fin E)) w.
Proof.
  intros Hm Hs Ht. apply wp_set_status; [done|]. wp_run.
  split; [by apply settled_moved|]. split; [done|]. unfold ended. cbn.
  apply elem_of_cons in Ht as [->|Ht%list_elem_of_singleton]; [|subst t];
    (split_and!; try done; intros Hin; exfalso; revert Hin; apply (bool_decide_unpack _); by vm_compute).
Qed.

Lemma conclude_spec E w report :
  status w = Status.VERIFYING → TReport report ∈ H_ → pl_verification plan ≠ None → settled E w →
  wp (conclude plan report) (fin E) w.
Proof.
  intros Hst Hr Hv Hs. unfold conclude.
  destruct (negb _ || _ || _) eqn:Hm.
  - wp_run. apply fin_moved; cbn; [by rewrite Hst|by apply settled_snapshot|left].
  - boolify. wp_run.
    assert (report_backed plan H_ (with_verification report (wf_snapshot w)) (rp_verdict report)) as Hb.
    { exists report. by split_and!. }
    destruct (rp_verdict report) eqn:Hverd.
    + apply wp_set_status; cbn; [by rewrite Hst|]. wp_run.
      split; [apply settled_moved; cbn; [by rewrite Hst|by apply settled_snapshot]|].
      split; [done|]. split_and!; try done. cbn. intros Hin. exfalso. revert Hin.
      apply (bool_decide_unpack _). by vm_compute.
    + apply wp_set_status; cbn; [by rewrite Hst|]. wp_run.
      split; [apply settled_moved; cbn; [by rewrite Hst|by apply settled_snapshot]|].
      split; [done|]. split_and!; try done. cbn. intros Hin. exfalso. revert Hin.
      apply (bool_decide_unpack _). by vm_compute.
    + apply (fin_moved E (set_snapshot w _) Status.HALTED); cbn;
        [by rewrite Hst|by apply settled_snapshot|left].
Qed.

Lemma execute_verification_spec E w :
  status w = Status.VERIFYING → pl_verification plan ≠ None → settled E w →
  suffix_of_history H_ w →
  wp (execute_verification plan) (λ r w', settled E w' ∧ status w' = Status.VERIFYING ∧
    match r with
    | Val report => TReport report ∈ H_
    | Failed _ | Blocked => True
    | Raise (ValidationError _) => True
    | Raise _ => False
    end) w.
Proof.
  intros Hst Hv Hs Hh. unfold execute_verification.
  destruct (pl_verification plan) as [v|]; [|done]. wp_run.
  destruct (validate_invocation _) as [_|m]; [|by apply wp_raise].
  wp_run. apply wp_report. intros r w' F Hr.
  split; [by eapply frame_settled, settled_log|].
  split; [by rewrite (frame_status _ _ F)|]. destruct r; try done. by apply Hh.
Qed.

(** The handlers that halt after recording a failure code. *)
Lemma halt_spec E w f :
  moves (status w) Status.HALTED → settled E w →
  sn_status (f (wf_snapshot w)) = status w →
  sn_compensated_step_ids (f (wf_snapshot w)) = sn_compensated_step_ids (wf_snapshot w) →
  wp (replace f;; set_status Status.HALTED;; require_snapshot) (fin E) w.
Proof.
  intros Hm Hs Hf Hc. wp_run. apply fin_moved; cbn; [by rewrite Hf|by apply settled_snapshot|left].
Qed.

Lemma fin_blocked E w : settled E w → fin E Blocked w.
Proof. by split. Qed.

(** Verifying and concluding, with a handler that halts. *)
Lemma verify_and_conclude_spec E w (code : ActivityCause → option string) :
  status w = Status.VERIFYING → pl_verification plan ≠ None → settled E w →
  suffix_of_history H_ w →
  wp (catch (execute_verification plan) (conclude plan)
       (λ cause, replace (with_failure (code cause));;
                 set_status Status.HALTED;; require_snapshot)) (fin E) w.
Proof.
  intros Hst Hv Hs Hh. apply wp_catch.
  eapply wp_mono; [by eapply execute_verification_spec|]. cbv beta.
  intros [report|[]|cause|] w' (Hs' & Hst' & Hr); try done.
  - by apply conclude_spec.
  - apply halt_spec; [by rewrite Hst'|done..].
Qed.

Lemma finish_unknown_effect_spec E w code :
  status w = Status.RUNNING → settled E w → suffix_of_history H_ w →
  wp (finish_unknown_effect plan code) (fin E) w.
Proof.
  intros Hst Hs Hh. unfold finish_unknown_effect. apply wp_bind, wp_replace. cbn [then_].
  destruct (pl_verification plan) as [v|] eqn:Hv; cbn [is_none].
  - apply wp_bind, wp_set_status; cbn; [by rewrite Hst|].
    apply (verify_and_conclude_spec E _ (λ _, Some "unknown_effect_verification_failed"));
      [done|by rewrite Hv| |done].
    apply settled_moved; cbn; [by rewrite Hst|by apply settled_snapshot].
  - apply wp_bind, fin_moved; cbn; [by rewrite Hst|by apply settled_snapshot|left].
Qed.

(** ** Compensation *)

Lemma rev_filter_step {A} (l done_ rest : list A) x :
  rev l = done_ ++ x :: rest → done_ ++ [x] `prefix_of` rev l.
Proof. intros ->. exists rest. by rewrite <-(assoc_L (++)). Qed.

Definition compensating (E done_ : list ExecutionStep) (w : Wf) : Prop :=
  status w = Status.COMPENSATING ∧ effects (wf_trace w) = E ∧
  compensations (wf_trace w) = done_ ∧
  sn_compensated_step_ids (wf_snapshot w) = map st_step_id done_ ∧
  existsb unknown_failure (wf_trace w) = false ∧ Forall event_ok (wf_trace w).

Lemma compensating_settled E done_ rest w :
  rev (List.filter has_compensation E) = done_ ++ rest → compensating E done_ w → settled E w.
Proof.
  intros Hr (_ & H1 & H2 & H3 & H4 & H5). split_and!; [done|..|by apply quiet_none|done].
  - rewrite H2, Hr. by apply prefix_app_r.
  - rewrite H3, H2. done.
Qed.

Lemma compensating_log E done_ rest step i w :
  rev (List.filter has_compensation E) = done_ ++ step :: rest →
  event_ok (EvCompensate step i) → compensating E done_ w →
  settled E (add_event w (EvCompensate step i)) ∧
  effects (wf_trace w ++ [EvCompensate step i]) = E ∧
  compensations (wf_trace w ++ [EvCompensate step i]) = done_ ++ [step] ∧
  existsb unknown_failure (wf_trace w ++ [EvCompensate step i]) = false ∧
  Forall event_ok (wf_trace w ++ [EvCompensate step i]).
Proof.
  intros Hr He (_ & H1 & H2 & H3 & H4 & H5).
  assert (effects (wf_trace w ++ [EvCompensate step i]) = E) as Ee.
  { rewrite effects_app, H1. apply app_nil_r. }
  assert (compensations (wf_trace w ++ [EvCompensate step i]) = done_ ++ [step]) as Ec.
  { by rewrite compensations_app, H2. }
  assert (existsb unknown_failure (wf_trace w ++ [EvCompensate step i]) = false) as Eu.
  { by rewrite existsb_app, H4. }
  assert (Forall event_ok (wf_trace w ++ [EvCompensate step i])) as Ef by (apply Forall_app; auto).
  split; [|by split_and!]. unfold settled. cbn [wf_trace wf_snapshot add_event].
  split_and!; [done|..|by apply quiet_none|done].
  - rewrite Ec. by eapply rev_filter_step.
  - rewrite Ec, H3, map_app. by apply prefix_app_r.
Qed.

Lemma halt_some_spec E w f :
  moves (status w) Status.HALTED → settled E w →
  sn_status (f (wf_snapshot w)) = status w →
  sn_compensated_step_ids (f (wf_snapshot w)) = sn_compensated_step_ids (wf_snapshot w) →
  wp (replace f;; set_status Status.HALTED;; final ← require_snapshot; mret (Some final))
    (λ r w', ∃ s, r = Val (Some s) ∧ fin E (Val s) w') w.
Proof.
  intros Hm Hs Hf Hc. apply wp_bind, wp_replace. cbn [then_].
  apply wp_bind, wp_set_status; cbn [status wf_snapshot set_snapshot]; [by rewrite Hf|].
  wp_run. exists (wf_snapshot (moved (set_snapshot w (f (wf_snapshot w))) Status.HALTED)).
  split; [done|]. split.
  - apply settled_moved; cbn [wf_snapshot set_snapshot]; [by rewrite Hf|by apply settled_snapshot].
  - split; [done|]. unfold ended. cbn.
    split_and!; try done. intros Hin. exfalso. revert Hin. apply (bool_decide_unpack _). by vm_compute.
Qed.

Lemma compensate_spec E steps done_ w :
  rev (List.filter has_compensation E) = done_ ++ steps →
  (∀ s, s ∈ steps → validate_step s = Ok ()) →
  compensating E done_ w → suffix_of_history H_ w →
  wp (compensate plan steps) (λ r w',
    match r with
    | Val None => compensating E (done_ ++ steps) w'
    | Val (Some s) => fin E (Val s) w'
    | Blocked => settled E w'
    | _ => False
    end) w.
Proof.
  revert done_ w. induction steps as [|step rest IH]; intros done_ w Hrev Hval Hc Hh; cbn [compensate].
  - apply wp_ret. by rewrite app_nil_r.
  - assert (has_compensation step = true) as Hstep.
    { assert (step ∈ rev (List.filter has_compensation E)) as Hin by (rewrite Hrev; set_solver).
      rewrite list_elem_of_In, <-in_rev, filter_In in Hin. tauto. }
    unfold has_compensation in Hstep. destruct (st_compensation step) as [c|] eqn:Hcomp; [|done].
    pose proof Hc as (Hst & _).
    pose proof (compensating_settled E done_ (step :: rest) w Hrev Hc) as Hset.
    apply wp_bind, wp_require. cbn [then_].
    set (reference := if cp_include_effect_reference c then _ else None).
    destruct (cp_include_effect_reference c && is_none reference) eqn:Hmiss.
    + eapply wp_mono; [apply halt_some_spec with (E := E); [by rewrite Hst|done..]|].
      cbv beta. intros r w' (s & -> & Hf). exact Hf.
    + assert (event_ok (EvCompensate step (compensation_invocation plan step c reference))) as Hok.
      { split; [done|]. exists c. split; [done|]. intros Hinc. rewrite Hinc in Hmiss. simpl in Hmiss.
        destruct reference as [r|]; [|done]. by exists r. }
      destruct (compensating_log E done_ rest step _ w Hrev Hok Hc) as (Hset' & He & Hco & Hu & Hf).
      apply wp_bind. unfold make_invocation.
      rewrite (compensation_invocation_ok plan Hplan step c reference) by (first [done|apply Hval; left]).
      apply wp_ret. cbn [then_]. apply wp_bind, wp_log. cbn [then_]. apply wp_catch, wp_adapter.
      intros r w' F Hr. pose proof F as (F1 & F2 & _ & _). destruct r as [res|e|cause|]; try done.
      * apply wp_bind, wp_replace. cbn [then_]. replace (done_ ++ step :: rest) with ((done_ ++ [step]) ++ rest)
          by (by rewrite <-(assoc_L (++))).
        apply IH.
        -- rewrite Hrev. by rewrite <-(assoc_L (++)).
        -- intros s Hs. apply Hval. by right.
        -- destruct Hc as (_ & _ & _ & Hids & _). unfold compensating.
           cbn [wf_trace wf_snapshot set_snapshot with_compensated sn_status sn_compensated_step_ids].
           rewrite F1, F2. cbn [wf_trace wf_snapshot add_event]. rewrite Hids, map_app.
           split_and!; done.
        -- intros t Ht. apply (frame_suffix H_ _ _ F); done.
      * eapply wp_mono; [apply halt_some_spec with (E := E)|].
        -- rewrite (frame_status _ _ F). cbn. by rewrite Hst.
        -- by eapply frame_settled.
        -- done.
        -- done.
        -- cbv beta. intros r w'' (s & -> & Hfin). exact Hfin.
      * by eapply frame_settled.
Qed.

Definition finish_request_ok (st req : ExecutionStatus) : Prop :=
  (st = Status.RUNNING ∨ st = Status.WAITING_APPROVAL) ∧
  (req ∈ [Status.CANCELLED; Status.HALTED; Status.COMPENSATED] ∨
   (req = Status.REJECTED ∧ st = Status.WAITING_APPROVAL)).

Lemma finish_request_moves st req :
  finish_request_ok st req →
  moves st Status.COMPENSATING ∧ moves st Status.HALTED ∧
  moves Status.COMPENSATING Status.HALTED ∧ moves Status.COMPENSATING req ∧
  (req ≠ Status.COMPENSATED → moves st req) ∧
  req ∈ [Status.CANCELLED; Status.HALTED; Status.COMPENSATED; Status.REJECTED].
Proof.
  unfold finish_request_ok. rewrite !elem_of_cons, elem_of_nil.
  intros [[-> | ->] [[->|[->|[->|[]]]]|[-> Hs]]]; try discriminate Hs; split_and!; try done; auto 6.
Qed.

Lemma filter_has_compensation completed_steps :
  (∀ s, s ∈ completed_steps → validate_step s = Ok ()) →
  List.filter has_compensation (List.filter effectful completed_steps)
  = List.filter has_compensation completed_steps.
Proof.
  induction completed_steps as [|s l IH]; intros Hval; [done|]. cbn.
  pose proof (validate_step_parts s (Hval s ltac:(left))) as (_ & _ & _ & _ & _ & Hro & _).
  assert (List.filter has_compensation (List.filter effectful l) = List.filter has_compensation l)
    as IH' by (apply IH; intros; apply Hval; by right).
  destruct (effectful s) eqn:He; cbn; rewrite IH'; [done|].
  destruct (Hro eq_refl) as [_ Hc]. unfold has_compensation. by rewrite Hc.
Qed.

(** The last status change of [_finish_with_compensation]. *)
Lemma finish_spec E w w0 req code :
  settled E w → w = set_snapshot w0 (with_failure code (with_current None None (wf_snapshot w0))) →
  moves (status w) req → req ∈ [Status.CANCELLED; Status.HALTED; Status.COMPENSATED; Status.REJECTED] →
  (req ≠ Status.HALTED → ∀ step, step ∈ E → st_step_id step ∈ sn_compensated_step_ids (wf_snapshot w)) →
  wp (set_status req) (then_ (λ _, require_snapshot) (fin E)) w.
Proof.
  intros Hs _ Hm Hin Hall. apply wp_set_status; [done|]. wp_run.
  split; [by apply settled_moved|]. split; [done|].
  rewrite !elem_of_cons, elem_of_nil in Hin.
  destruct Hin as [->|[->|[->|[->|[]]]]]; (split_and!; [done|done|done|]); cbn; intros Hc; try (by apply Hall).
  exfalso. revert Hc. apply (bool_decide_unpack _). by vm_compute.
Qed.

Lemma unresolved_false completed_steps :
  existsb unresolved completed_steps = false →
  ∀ s, s ∈ List.filter effectful completed_steps → has_compensation s = true.
Proof.
  intros Hu s. rewrite list_filter_elem. intros [Hs He].
  apply (proj1 (existsb_elem_false _ _) Hu) in Hs. unfold unresolved, effectful in *.
  rewrite He in Hs. simpl in Hs. by apply negb_false_iff in Hs.
Qed.

Lemma finish_with_compensation_spec completed_steps req code w :
  finish_request_ok (status w) req →
  (∀ s, s ∈ completed_steps → validate_step s = Ok ()) →
  clean (List.filter effectful completed_steps) w → suffix_of_history H_ w →
  wp (finish_with_compensation plan completed_steps req code)
    (fin (List.filter effectful completed_steps)) w.
Proof.
  intros Hreq Hval Hc Hh. set (E := List.filter effectful completed_steps) in *.
  destruct (finish_request_moves _ _ Hreq) as (M1 & M2 & M3 & M4 & M5 & Hin).
  unfold finish_with_compensation. cbv zeta.
  set (comp := List.filter has_compensation completed_steps).
  assert (List.filter has_compensation E = comp) as Ecomp by by apply filter_has_compensation.
  apply wp_bind. destruct (is_nil comp) eqn:Hnil.
  - destruct comp as [|? ?] eqn:Ec; [|done]. apply wp_ret. cbn [then_].
    assert (existsb unresolved completed_steps = false → E = []) as Hnone.
    { intros Hu. pose proof (unresolved_false _ Hu) as Hall. fold E in Hall.
      destruct E as [|s E']; [done|]. exfalso. simpl in Ecomp.
      rewrite (Hall s) in Ecomp by left. done. }
    destruct (existsb unresolved completed_steps) eqn:Hu.
    + apply wp_bind, wp_replace. cbn [then_]. apply wp_bind. eapply (finish_spec E _ w); try done.
      * apply settled_snapshot; [done|]. by apply clean_settled.
      * set_solver.
    + assert (req = Status.COMPENSATED ∨ req ≠ Status.COMPENSATED) as [->|Hne]
        by (destruct (decide (req = Status.COMPENSATED)); auto).
      * cbn. apply wp_bind, wp_replace. cbn [then_]. apply wp_bind. eapply (finish_spec E _ w); try done.
        -- apply settled_snapshot; [done|]. by apply clean_settled.
        -- set_solver.
      * rewrite bool_decide_eq_false_2 by done. cbn [andb]. apply wp_bind, wp_replace. cbn [then_].
        apply wp_bind. eapply (finish_spec E _ w); try done.
        -- apply settled_snapshot; [done|]. by apply clean_settled.
        -- by apply M5.
        -- intros _ step Hstep. rewrite (Hnone eq_refl) in Hstep. by apply elem_of_nil in Hstep.
  - apply wp_bind, wp_set_status; [done|]. cbn [then_].
    eapply wp_mono; [apply (compensate_spec E (rev comp) [])|].
    + by rewrite Ecomp.
    + intros s Hs. apply Hval. rewrite list_elem_of_In, <-in_rev in Hs. unfold comp in Hs.
      apply filter_In in Hs. apply list_elem_of_In. tauto.
    + pose proof (clean_moved E w Status.COMPENSATING M1 Hc) as (C1 & C2 & C3 & C4 & C5).
      unfold compensating. split_and!; done.
    + done.
    + cbv beta. intros [early|e|cause|] w' Hr; try done.
      * destruct early as [s|]; cbn [then_].
        -- apply wp_ret. exact Hr.
        -- cbn [app] in Hr. pose proof Hr as (R1 & R2 & R3 & R4 & R5 & R6).
           assert (settled E w') as Hset.
           { eapply (compensating_settled E (rev comp) []); [by rewrite Ecomp, app_nil_r|done]. }
           rewrite andb_false_r.
           destruct (existsb unresolved completed_steps) eqn:Hu.
           ++ apply wp_bind, wp_replace. cbn [then_]. apply wp_bind.
              eapply (finish_spec E _ w'); try done.
              ** cbn. by rewrite R1.
              ** set_solver.
           ++ apply wp_bind, wp_replace. cbn [then_]. apply wp_bind.
              eapply (finish_spec E _ w'); try done.
              ** cbn. by rewrite R1.
              ** intros _ step Hstep. cbn [wf_snapshot set_snapshot with_failure with_current
                   sn_compensated_step_ids]. rewrite R4. apply list_elem_of_fmap_2.
                 rewrite list_elem_of_In, <-in_rev, <-list_elem_of_In. rewrite <-Ecomp.
                 apply list_filter_elem. split; [done|]. by eapply unresolved_false.
Qed.

Lemma finish_run_spec completed_steps w :
  status w = Status.RUNNING → (∀ s, s ∈ completed_steps → validate_step s = Ok ()) →
  clean (List.filter effectful completed_steps) w → suffix_of_history H_ w →
  wp (finish_run plan completed_steps) (fin (List.filter effectful completed_steps)) w.
Proof.
  intros Hst Hval Hc Hh. unfold finish_run. apply wp_bind, wp_gets. cbn [then_].
  destruct (wf_cancel w).
  - apply finish_with_compensation_spec; try done. rewrite Hst. split; [auto|]. left. left.
  - apply wp_bind, wp_replace. cbn [then_]. apply clean_settled in Hc.
    destruct (pl_verification plan) eqn:Hv; cbn [is_none].
    + apply wp_bind, wp_set_status; cbn; [by rewrite Hst|].
      apply (verify_and_conclude_spec _ _ (λ cause, Some (activity_failure_code cause)));
        [done|by rewrite Hv| |done].
      apply settled_moved; cbn; [by rewrite Hst|by apply settled_snapshot].
    + apply wp_bind, fin_moved; cbn; [by rewrite Hst|by apply settled_snapshot|right; left].
Qed.

(** What the gate establishes before a step is executed. *)
Definition gate_ok (step : ExecutionStep) (w : Wf) : Prop :=
  wf_cancel w = false ∧
  (st_requires_approval step = true →
     wf_conflict w = false ∧
     ∃ d, assoc (st_step_id step) (wf_approvals w) = Some d ∧ ap_approved d = true).

Lemma wait_for_approval_spec step E w :
  status w = Status.RUNNING → clean E w → suffix_of_history H_ w →
  wp (wait_for_approval step) (λ r w', clean E w' ∧ suffix_of_history H_ w' ∧
    match r with
    | Val None => status w' = Status.WAITING_APPROVAL
    | Val (Some d) => wf_cancel w' = false ∧ assoc (st_step_id step) (wf_approvals w') = Some d ∧
        status w' = if ap_approved d then Status.RUNNING else Status.WAITING_APPROVAL
    | Blocked => True
    | _ => False
    end) w.
Proof.
  intros Hst Hc Hh. unfold wait_for_approval. apply wp_bind, wp_replace. cbn [then_].
  apply wp_bind, wp_set_status; cbn; [by rewrite Hst|]. apply wp_bind, wp_wait; [done|].
  intros r w' F Hr.
  assert (clean E w') as Hc'.
  { eapply frame_clean; [exact F|]. apply clean_moved; cbn; [by rewrite Hst|by apply clean_snapshot]. }
  assert (status w' = Status.WAITING_APPROVAL) as Hst' by by rewrite (frame_status _ _ F).
  assert (suffix_of_history H_ w') as Hh' by by eapply frame_suffix.
  clear F. destruct r as [[]| | |]; cbn [then_ negb]; try done.
  apply wp_bind, wp_gets. cbn [then_]. specialize (Hr eq_refl).
  destruct (wf_cancel w') eqn:Hcan; [by apply wp_ret|]. apply wp_bind, wp_gets. cbn [then_].
  destruct (assoc (st_step_id step) (wf_approvals w')) as [d|] eqn:Ha; [|done].
  apply wp_bind. destruct (ap_approved d) eqn:Hd.
  - apply wp_set_status; [by rewrite Hst'|]. cbn [then_]. apply wp_ret. rewrite Hd. split_and!; try done.
    apply clean_moved; [by rewrite Hst'|done].
  - apply wp_ret. cbn [then_]. apply wp_ret. by rewrite Hd.
Qed.

Lemma approval_gate_spec completed_steps step w :
  status w = Status.RUNNING → wf_cancel w = false →
  (∀ s, s ∈ completed_steps → validate_step s = Ok ()) →
  clean (List.filter effectful completed_steps) w → suffix_of_history H_ w →
  wp (approval_gate plan completed_steps step) (λ r w',
    match r with
    | Val None => status w' = Status.RUNNING ∧ gate_ok step w' ∧
        clean (List.filter effectful completed_steps) w' ∧ suffix_of_history H_ w'
    | Val (Some s) => fin (List.filter effectful completed_steps) (Val s) w'
    | Raise e => fin (List.filter effectful completed_steps) (Raise e) w'
    | Failed cause => fin (List.filter effectful completed_steps) (Failed cause) w'
    | Blocked => fin (List.filter effectful completed_steps) Blocked w'
    end) w.
Proof.
  intros Hst Hcan Hval Hc Hh. unfold approval_gate.
  destruct (st_requires_approval step) eqn:Hreq; cbn [negb].
  2:{ apply wp_ret. split; [done|]. split; [|done]. split; [done|]. intros E. congruence. }
  assert (∀ w' req code, finish_request_ok (status w') req →
    clean (List.filter effectful completed_steps) w' → suffix_of_history H_ w' →
    wp (final ← finish_with_compensation plan completed_steps req code; mret (Some final))
      (λ r w'', match r with
        | Val None => status w'' = Status.RUNNING ∧ gate_ok step w'' ∧
            clean (List.filter effectful completed_steps) w'' ∧ suffix_of_history H_ w''
        | Val (Some s) => fin (List.filter effectful completed_steps) (Val s) w''
        | Raise e => fin (List.filter effectful completed_steps) (Raise e) w''
        | Failed cause => fin (List.filter effectful completed_steps) (Failed cause) w''
        | Blocked => fin (List.filter effectful completed_steps) Blocked w''
        end) w') as Hfin.
  { intros w' req code Hok Hc' Hh'. apply wp_bind. unfold finish_request_ok in Hok.
    eapply wp_mono; [by eapply finish_with_compensation_spec|]. cbv beta.
    intros [s|e|cause|] w'' Hf; cbn [then_]; [by apply wp_ret|done..]. }
  apply wp_bind. eapply wp_mono; [by eapply wait_for_approval_spec|]. cbv beta.
  intros [[d|]| | |] w' (Hc' & Hh' & Hr); cbn [then_]; try done; [|..|by apply fin_blocked, clean_settled].
  - destruct Hr as (Hcan' & Ha & Hst'). do 2 (apply wp_bind, wp_gets; cbn [then_]).
    destruct (wf_conflict w') eqn:Hconf.
    + apply Hfin; [|done..]. rewrite Hst'. split; [destruct (ap_approved d); auto|]. left. set_solver.
    + destruct (ap_approved d) eqn:Hd; cbn [negb].
      * apply wp_ret. split_and!; try done. split; [done|]. intros _. eauto.
      * apply Hfin; [|done..]. rewrite Hst'. split; [auto|]. by right.
  - do 2 (apply wp_bind, wp_gets; cbn [then_]). apply Hfin; [|done..]. rewrite Hr.
    split; [auto|]. left. destruct (wf_cancel w'); set_solver.
Qed.

(** ** Steps *)

Definition with_effect (E : list ExecutionStep) (step : ExecutionStep) : list ExecutionStep :=
  E ++ if effectful step then [step] else [].

Lemma clean_attempt E w a : clean E w → clean E (set_snapshot w (with_attempt a (wf_snapshot w))).
Proof. by apply clean_snapshot. Qed.

Lemma record_attempt_spec step a st code Q w :
  validate_step step = Ok () → a ∈ alternatives step →
  (st = SUCCEEDED ∧ code = None ∨ ∃ cause, st = FAILED ∧ code = Some (activity_failure_code cause)) →
  (∀ w', wf_history w' = wf_history w → wf_approvals w' = wf_approvals w →
     wf_trace w' = wf_trace w → status w' = status w →
     sn_compensated_step_ids (wf_snapshot w') = sn_compensated_step_ids (wf_snapshot w) →
     Q (Val ()) w') →
  wp (record_attempt step a st code) Q w.
Proof.
  intros Hs Ha Hcode HQ. unfold record_attempt.
  destruct (alt_candidate_id a) as [cid|] eqn:E; [|by apply wp_ret, HQ].
  rewrite (attempt_ok plan Hplan step a st code Hs Ha Hcode cid E). by apply wp_replace, HQ.
Qed.

Lemma effects_forward E step i v trace :
  effects trace = E → effects (trace ++ [EvForward step i v]) = with_effect E step.
Proof.
  intros <-. by rewrite effects_app.
Qed.

(** After a failed step: what the handler finds. *)
Definition after_failure (E : list ExecutionStep) (step : ExecutionStep) (code : string) (w : Wf) : Prop :=
  settled E w ∧ status w = Status.RUNNING ∧ suffix_of_history H_ w ∧
  (mem code (st_unknown_effect_error_codes step) = false → clean E w).

Lemma quiet_snoc trace e :
  existsb unknown_failure trace = false → quiet_after_unknown (trace ++ [e]).
Proof.
  intros Hn t1 e1 t2 E He e' He'. destruct t2 as [|x t3] using rev_ind.
  - by apply elem_of_nil in He'.
  - exfalso. clear IHt3. rewrite app_comm_cons, (assoc_L (++)) in E. apply app_inj_tail in E as [-> _].
    rewrite existsb_app in Hn. simpl in Hn. rewrite He in Hn. simpl in Hn. by rewrite orb_true_r in Hn.
Qed.

(** Whatever the alternatives do, the step is asked for once if it is effectful, and its
    failure reaches the handler with the trace still clean unless the effect is unknown. *)
Lemma try_alternatives_spec step alts E w :
  validate_step step = Ok () → (∀ a, a ∈ alts → a ∈ alternatives step) → alts ≠ [] →
  status w = Status.RUNNING → suffix_of_history H_ w →
  (st_requires_approval step = true →
     ∃ d, assoc (st_step_id step) (wf_approvals w) = Some d ∧ ap_approved d = true) →
  (effectful step = true → gate_ok step w) →
  clean E w →
  wp (try_alternatives plan step alts) (λ r w',
    match r with
    | Val _ => clean (with_effect E step) w' ∧ status w' = Status.RUNNING ∧ suffix_of_history H_ w'
    | Failed cause => after_failure (with_effect E step) step (activity_failure_code cause) w'
    | Blocked => settled (with_effect E step) w'
    | Raise _ => False
    end) w.
Proof.
  intros Hs. pose proof (validate_step_parts step Hs) as (_ & _ & _ & _ & _ & Hro & _).
  revert w. induction alts as [|a rest IH]; intros w Halts Hne Hst Hh Happ Hgate Hc; [done|].
  cbn [try_alternatives]. apply wp_bind. unfold make_invocation.
  rewrite (step_invocation_ok plan Hplan step a) by (first [done|apply Halts; left]).
  apply wp_ret. cbn [then_]. apply wp_bind, wp_gets. cbn [then_]. apply wp_bind, wp_log. cbn [then_].
  set (ev := EvForward step _ _).
  assert (event_ok ev) as Hok.
  { split_and!; [done|done|done|]. intros He. destruct (Hgate He) as [G1 G2]. split; [done|].
    intros Hr. by destruct (G2 Hr). }
  destruct Hc as (C1 & C2 & C3 & C4 & C5).
  assert (clean (with_effect E step) (add_event w ev)) as Hc1.
  { assert (effects (wf_trace w ++ [ev]) = with_effect E step) as X by by apply effects_forward.
    unfold clean. cbn [wf_trace wf_snapshot add_event]. rewrite X.
    rewrite compensations_app, existsb_app, C2, C4. split_and!; try done. apply Forall_app. auto. }
  apply wp_catch, wp_adapter. intros r w1 F Hr.
  pose proof (frame_clean _ _ _ F Hc1) as Hc2. pose proof (frame_status _ _ F) as Hst1.
  cbn in Hst1. rewrite Hst in Hst1.
  assert (suffix_of_history H_ w1) as Hh1 by by eapply frame_suffix.
  destruct r as [res|e|cause|]; [|done|..|by apply clean_settled].
  - apply wp_bind, record_attempt_spec; [done|apply Halts; left|auto|]. intros w2 E1 E2 E3 E4 E5.
    cbn [then_]. apply wp_ret. split_and!; [|congruence|unfold suffix_of_history; by rewrite E1].
    unfold clean. by rewrite E3, E5.
  - cbv zeta. set (code := activity_failure_code cause). apply wp_bind, wp_log. cbn [then_].
    apply wp_bind, record_attempt_spec; [done|apply Halts; left|right; eauto|].
    intros w2 E1 E2 E3 E4 E5. cbn [then_]. cbn in E1, E2, E4, E5.
    cbn [wf_trace add_event] in E3. destruct Hc2 as (D1 & D2 & D3 & D4 & D5).
    assert (effects (wf_trace w2) = with_effect E step) as X1.
    { rewrite E3, effects_app, D1. apply app_nil_r. }
    assert (compensations (wf_trace w2) = []) as X2 by by rewrite E3, compensations_app, D2.
    assert (Forall event_ok (wf_trace w2)) as X3
      by (rewrite E3; apply Forall_app; split; [done|by repeat constructor]).
    assert (mem code (st_unknown_effect_error_codes step) = false →
            clean (with_effect E step) w2) as Hclean.
    { intros Hm. unfold clean. rewrite X1, X2, E5. split_and!; try done.
      rewrite E3, existsb_app, D4. simpl. by rewrite Hm. }
    destruct (step_read_only step && negb (is_nil rest) && mem code (alt_safe_codes a)) eqn:Hfall.
    + apply andb_true_iff in Hfall as [[Hro' Hrest]%andb_true_iff _].
      assert (effectful step = false) as He by (unfold effectful; by rewrite Hro').
      assert (with_effect E step = E) as EE by (unfold with_effect; rewrite He; apply app_nil_r).
      rewrite EE in *. apply IH; try done.
      * intros b Hb. apply Halts. by right.
      * intros ->. done.
      * congruence.
      * unfold suffix_of_history. by rewrite E1.
      * rewrite E2. intros Hreq. destruct (Happ Hreq) as (d & Hd & ?). exists d.
        split; [|done]. by apply F.
      * congruence.
      * apply Hclean. destruct (Hro He) as [-> _]. done.
    + unfold wp. cbn. split_and!; [|congruence|unfold suffix_of_history; by rewrite E1|done].
      split_and!; [done|rewrite X2; apply prefix_nil|rewrite E5, D3; apply prefix_nil| |done].
      rewrite E3. by apply quiet_snoc.
Qed.

Lemma filter_effectful_snoc completed_steps step :
  List.filter effectful (completed_steps ++ [step])
  = with_effect (List.filter effectful completed_steps) step.
Proof. unfold with_effect. rewrite List.filter_app. f_equal. Qed.

Lemma step_failed_spec completed_steps step cause w :
  (∀ s, s ∈ completed_steps → validate_step s = Ok ()) → validate_step step = Ok () →
  after_failure (List.filter effectful (completed_steps ++ [step])) step
    (activity_failure_code cause) w →
  wp (step_failed plan completed_steps step cause)
    (fin (List.filter effectful (completed_steps ++ [step]))) w.
Proof.
  intros Hval Hs (Hset & Hst & Hh & Hc). unfold step_failed. cbv zeta.
  destruct (mem _ _) eqn:Hm; [by apply finish_unknown_effect_spec|]. specialize (Hc eq_refl).
  destruct (step_read_only step) eqn:Hro.
  - assert (List.filter effectful (completed_steps ++ [step]) = List.filter effectful completed_steps)
      as E.
    { rewrite filter_effectful_snoc. unfold with_effect, effectful. rewrite Hro. apply app_nil_r. }
    rewrite E in *. apply finish_with_compensation_spec; try done. rewrite Hst.
    split; [auto|left; set_solver].
  - apply finish_with_compensation_spec; try done.
    + rewrite Hst. split; [auto|left; set_solver].
    + intros s [Hin| ->%list_elem_of_singleton]%elem_of_app; auto.
Qed.

Lemma run_steps_spec completed_steps steps w :
  (∀ s, s ∈ completed_steps → validate_step s = Ok ()) →
  (∀ s, s ∈ steps → validate_step s = Ok ()) →
  status w = Status.RUNNING → suffix_of_history H_ w →
  clean (List.filter effectful completed_steps) w →
  wp (run_steps plan completed_steps steps)
    (λ r w', ∃ n, fin (List.filter effectful (completed_steps ++ take n steps)) r w') w.
Proof.
  revert completed_steps w. induction steps as [|step rest IH];
    intros completed_steps w Hval Hval' Hst Hh Hc; cbn [run_steps].
  { eapply wp_mono; [by apply finish_run_spec|]. cbv beta. intros r w' Hf. exists 0%nat.
    by rewrite app_nil_r. }
  assert (∀ r w', fin (List.filter effectful completed_steps) r w' →
    ∃ n, fin (List.filter effectful (completed_steps ++ take n (step :: rest))) r w') as Hstop.
  { intros r w' Hf. exists 0%nat. by rewrite app_nil_r. }
  assert (∀ r w', fin (List.filter effectful (completed_steps ++ [step])) r w' →
    ∃ n, fin (List.filter effectful (completed_steps ++ take n (step :: rest))) r w') as Hhere.
  { intros r w' Hf. by exists 1%nat. }
  apply wp_bind, wp_gets. cbn [then_]. destruct (wf_cancel w) eqn:Hcan.
  { eapply wp_mono; [|exact Hstop]. apply finish_with_compensation_spec; try done.
    rewrite Hst. split; [auto|left; set_solver]. }
  apply wp_bind. eapply wp_mono; [by eapply approval_gate_spec|]. cbv beta.
  intros [[s|]|e|cause|] w1 Hg; cbn [then_]; [by apply wp_ret, Hstop| |by apply Hstop..].
  destruct Hg as (Hst1 & Hgate & Hc1 & Hh1). apply wp_bind, wp_replace. cbn [then_].
  assert (validate_step step = Ok ()) as Hs by (apply Hval'; left).
  apply wp_catch. eapply wp_mono; [eapply (try_alternatives_spec step _ _ _ Hs)|]; try done.
  - intros Hr. by apply Hgate.
  - cbv beta. rewrite <-filter_effectful_snoc. intros [res|e|cause|] w2 Hr; [|done|..].
    + destruct Hr as (Hc2 & Hst2 & Hh2). apply wp_bind, wp_replace. cbn [then_].
      eapply wp_mono; [apply IH|].
      * intros s [Hin| ->%list_elem_of_singleton]%elem_of_app; auto.
      * intros s Hin. apply Hval'. by right.
      * done.
      * done.
      * by apply clean_snapshot.
      * cbv beta. intros r w' [n Hf]. exists (S n). cbn [take].
        by rewrite <-(assoc_L (++)) in Hf.
    + eapply wp_mono; [by apply step_failed_spec|exact Hhere].
    + by apply Hhere, fin_blocked.
Qed.

End run.

(** ** Where approvals come from *)

(** The approval was signalled, before the run started or in its history. *)
Definition signalled (early : list Sig) (H : list Tick) (d : ApprovalDecision) : Prop :=
  SigApprove d ∈ early ∨
  ∃ arrived, (TSignals arrived ∈ H ∨ TTimer arrived ∈ H) ∧ SigApprove d ∈ arrived.

Definition approvals_from (early : list Sig) (H : list Tick)
    (approvals : list (string * ApprovalDecision)) : Prop :=
  ∀ k d, assoc k approvals = Some d → ap_step_id d = k ∧ signalled early H d.

Section keeps.
Context (early : list Sig) (H_ : list Tick).

(** Every approval the workflow holds, or held when it invoked an adapter, was signalled. *)
Definition provenance (w : Wf) : Prop :=
  suffix_of_history H_ w ∧ approvals_from early H_ (wf_approvals w) ∧
  ∀ step i view, EvForward step i view ∈ wf_trace w → approvals_from early H_ (vw_approvals view).

Definition keeps {A} (m : M A) : Prop := ∀ w, provenance w → provenance (m w).1.

Lemma keeps_bind {A B} (m : M A) (f : A → M B) : keeps m → (∀ a, keeps (f a)) → keeps (m ≫= f).
Proof.
  intros Hm Hf w Hw. specialize (Hm w Hw). unfold mbind, M_bind.
  destruct (m w) as [w' []]; [by apply Hf|done..].
Qed.
Lemma keeps_catch {A B} (m : M A) (ok : A → M B) handler :
  keeps m → (∀ a, keeps (ok a)) → (∀ c, keeps (handler c)) → keeps (catch m ok handler).
Proof.
  intros Hm Hf Hh w Hw. specialize (Hm w Hw). unfold catch.
  destruct (m w) as [w' []]; [by apply Hf|done|by apply Hh|done].
Qed.
Lemma keeps_ret {A} (a : A) : keeps (mret a).
Proof. by intros w Hw. Qed.
Lemma keeps_raise {A} e : keeps (raise e : M A).
Proof. by intros w Hw. Qed.
Lemma keeps_failed {A} c : keeps (λ w, (w, Failed c) : Wf * Res A).
Proof. by intros w Hw. Qed.
Lemma keeps_gets {A} (f : Wf → A) : keeps (gets f).
Proof. by intros w Hw. Qed.
Lemma keeps_require : keeps require_snapshot.
Proof. by intros w Hw. Qed.
Lemma keeps_replace f : keeps (replace f).
Proof. by intros w Hw. Qed.
Lemma keeps_log e : forward_step e = None → keeps (log e).
Proof.
  intros He w (H1 & H2 & H3). split_and!; [done..|]. cbn.
  intros step i view [Hin|Hin%list_elem_of_singleton]%elem_of_app; [by eapply H3|by subst].
Qed.
Lemma keeps_forward {A} step i (m : View → M A) :
  (∀ view, keeps (m view)) →
  keeps (view ← gets view_of; log (EvForward step i view);; m view).
Proof.
  intros Hm w (H1 & H2 & H3). apply Hm. split_and!; [done..|]. cbn.
  intros s j view [Hin|Hin%list_elem_of_singleton]%elem_of_app; [by eapply H3|].
  injection Hin as -> -> ->. exact H2.
Qed.
Lemma keeps_set_status t : keeps (set_status t).
Proof.
  unfold set_status. apply keeps_bind; [apply keeps_require|]. intros s.
  destruct (transition _ _); [|apply keeps_raise].
  apply keeps_bind; [by apply keeps_log|]. intros []. apply keeps_replace.
Qed.

Lemma keeps_signal s w :
  (∀ d, s = SigApprove d → signalled early H_ d) → provenance w → provenance (apply_signal w s).
Proof.
  intros Hs (H1 & H2 & H3). destruct s as [d|]; [|done]. simpl.
  destruct (assoc _ _) eqn:Ha; [case_bool_decide; done|]. split_and!; [done| |done]. cbn.
  intros k d'. rewrite assoc_app. destruct (assoc k (wf_approvals w)) eqn:Hk.
  - intros [= ->]. by apply H2.
  - simpl. destruct (decide _) as [<-|]; [|done]. intros [= <-]. split; [done|]. by apply Hs.
Qed.

Lemma keeps_signals l w :
  (∀ d, SigApprove d ∈ l → signalled early H_ d) → provenance w →
  provenance (foldl apply_signal w l).
Proof.
  revert w. induction l as [|s l IH]; intros w Hl Hw; simpl; [done|]. apply IH.
  - intros d Hd. apply Hl. by right.
  - apply keeps_signal; [|done]. intros d ->. apply Hl. left.
Qed.

Lemma keeps_deliver t w : t ∈ H_ → provenance w → provenance (deliver t w).
Proof.
  intros Ht. destruct t; simpl; try done.
  all: apply keeps_signals; intros d Hd; right; eauto.
Qed.

Lemma keeps_await {A} (accept : Tick → option (Res A)) :
  keeps (λ w, await_activity accept (wf_history w) w).
Proof.
  intros w Hw. assert (∀ t, t ∈ wf_history w → t ∈ H_) as Hh by apply Hw. revert Hw Hh.
  generalize (wf_history w) as h. intros h. revert w. induction h as [|t h IH]; intros w Hw Hh; simpl.
  - destruct Hw as (_ & H2 & H3). split_and!; [|done..]. intros t Ht. by apply elem_of_nil in Ht.
  - destruct (accept t).
    + destruct Hw as (_ & H2 & H3). split_and!; [|done..]. intros t' Ht. apply Hh. by right.
    + apply IH; [apply keeps_deliver; [apply Hh; left|done]|]. intros t' Ht. apply Hh. by right.
Qed.

Lemma keeps_wait cond b : keeps (wait_condition cond b).
Proof.
  intros w Hw. unfold wait_condition. assert (∀ t, t ∈ wf_history w → t ∈ H_) as Hh by apply Hw.
  revert Hw Hh. generalize (wf_history w) as h. intros h. revert w.
  induction h as [|t h IH]; intros w Hw Hh; simpl; destruct (cond w).
  1-3: destruct Hw as (_ & H2 & H3); split_and!; [|done..]; intros t' Ht;
    try (by apply elem_of_nil in Ht); by apply Hh.
  pose proof (keeps_deliver t w (Hh t ltac:(left)) Hw) as Hd.
  destruct (_ && _).
  - destruct Hd as (_ & H2 & H3). split_and!; [|done..]. intros t' Ht. apply Hh. by right.
  - apply IH; [done|]. intros t' Ht. apply Hh. by right.
Qed.

Ltac keep :=
  repeat first
    [ match goal with K : _ |- _ => solve [apply K] end
    | apply keeps_forward; intros ?
    | apply keeps_bind; [|intros ?]
    | apply keeps_catch; [|intros ?|intros ?]
    | apply keeps_ret | apply keeps_raise | apply keeps_failed | apply keeps_gets
    | apply keeps_require | apply keeps_replace | apply keeps_set_status | apply keeps_await
    | apply keeps_wait | (apply keeps_log; reflexivity) | assumption
    | case_match ].

Context `{FloatRepr} (plan : ExecutionPlan).

Lemma keeps_conclude report : keeps (conclude plan report).
Proof. unfold conclude. keep. Qed.
Lemma keeps_execute_verification : keeps (execute_verification plan).
Proof. unfold execute_verification, execute_verify_activity. cbv zeta. keep. Qed.
Lemma keeps_compensate steps : keeps (compensate plan steps).
Proof.
  induction steps as [|step rest IH]; cbn [compensate]; [apply keeps_ret|].
  cbv zeta. unfold make_invocation, execute_adapter_activity. keep.
Qed.
Lemma keeps_finish_with_compensation l t c : keeps (finish_with_compensation plan l t c).
Proof.
  unfold finish_with_compensation. cbv zeta. pose proof (keeps_compensate (rev (List.filter has_compensation l))).
  keep.
Qed.
Lemma keeps_finish_unknown_effect c : keeps (finish_unknown_effect plan c).
Proof.
  unfold finish_unknown_effect. pose proof keeps_execute_verification. pose proof keeps_conclude. keep; auto.
Qed.
Lemma keeps_finish_run l : keeps (finish_run plan l).
Proof.
  unfold finish_run, cancel_requested. pose proof keeps_execute_verification. pose proof keeps_conclude.
  pose proof keeps_finish_with_compensation. keep; auto.
Qed.
Lemma keeps_approval_gate l step : keeps (approval_gate plan l step).
Proof.
  unfold approval_gate, wait_for_approval, cancel_requested, approval_conflict.
  pose proof keeps_finish_with_compensation. keep; auto.
Qed.
Lemma keeps_record_attempt step a st c : keeps (record_attempt step a st c).
Proof. unfold record_attempt. cbv zeta. keep. Qed.
Lemma keeps_try_alternatives step alts : keeps (try_alternatives plan step alts).
Proof.
  induction alts as [|a rest IH]; cbn [try_alternatives]; [apply keeps_raise|].
  unfold make_invocation, execute_adapter_activity. cbv zeta. pose proof keeps_record_attempt. keep; auto.
Qed.
Lemma keeps_run_steps l steps : keeps (run_steps plan l steps).
Proof.
  revert l. induction steps as [|step rest IH]; intros l; cbn [run_steps]; [apply keeps_finish_run|].
  unfold cancel_requested, execute_step. pose proof keeps_finish_with_compensation.
  pose proof keeps_approval_gate. pose proof keeps_try_alternatives.
  pose proof keeps_finish_unknown_effect. unfold step_failed. cbv zeta. keep; auto.
Qed.

End keeps.

(** ** Replay *)

(** The workflow in the same state with more history to come. *)
Definition extend (w : Wf) (h : list Tick) : Wf := set_history w (wf_history w ++ h).

(** Replaying a longer history repeats an ended execution exactly, and re-issues what a
    waiting one had issued before anything new. *)
Definition replayable {A} (m : M A) : Prop := ∀ w,
  wf_trace w `prefix_of` wf_trace (m w).1 ∧
  ∀ h, ((m w).2 ≠ Blocked → m (extend w h) = (extend (m w).1 h, (m w).2)) ∧
       wf_trace (m w).1 `prefix_of` wf_trace (m (extend w h)).1.

Lemma replayable_bind {A B} (m : M A) (f : A → M B) :
  replayable m → (∀ a, replayable (f a)) → replayable (m ≫= f).
Proof.
  intros Hm Hf w. destruct (Hm w) as [Hp Hr]. unfold mbind, M_bind.
  destruct (m w) as [w1 r] eqn:E. cbn [fst snd] in *. split.
  - destruct r as [a| | |]; cbn; try done. etrans; [exact Hp|]. apply Hf.
  - intros h. destruct (Hr h) as [Hend Hpre].
    destruct r as [a|e|c|]; try (rewrite Hend by done; cbn; by split).
    + rewrite Hend by done. apply (Hf a w1).
    + cbn. split; [done|]. destruct (m (extend w h)) as [w2 [a|e|c|]]; cbn in *; try done.
      etrans; [exact Hpre|]. apply Hf.
Qed.

Lemma replayable_catch {A B} (m : M A) (ok : A → M B) handler :
  replayable m → (∀ a, replayable (ok a)) → (∀ c, replayable (handler c)) →
  replayable (catch m ok handler).
Proof.
  intros Hm Hf Hc w. destruct (Hm w) as [Hp Hr]. unfold catch.
  destruct (m w) as [w1 r] eqn:E. cbn [fst snd] in *. split.
  - destruct r as [a| |c|]; cbn; try done; (etrans; [exact Hp|]); [apply Hf|apply Hc].
  - intros h. destruct (Hr h) as [Hend Hpre].
    destruct r as [a|e|c|]; try (rewrite Hend by done; cbn; by split).
    + rewrite Hend by done. apply (Hf a w1).
    + rewrite Hend by done. apply (Hc c w1).
    + cbn. split; [done|]. destruct (m (extend w h)) as [w2 [a|e|c|]]; cbn in *; try done;
        (etrans; [exact Hpre|]); [apply Hf|apply Hc].
Qed.

(** Code that does not await. *)
Lemma replayable_local {A} (m : M A) :
  (∀ w, wf_trace w `prefix_of` wf_trace (m w).1) →
  (∀ w h, m (extend w h) = (extend (m w).1 h, (m w).2)) → replayable m.
Proof. intros Hp He w. split; [done|]. intros h. rewrite He. by split. Qed.

Lemma replayable_ret {A} (a : A) : replayable (mret a).
Proof. by apply replayable_local. Qed.
Lemma replayable_raise {A} e : replayable (raise e : M A).
Proof. by apply replayable_local. Qed.
Lemma replayable_failed {A} c : replayable (λ w, (w, Failed c) : Wf * Res A).
Proof. by apply replayable_local. Qed.
Lemma replayable_gets {A} (f : Wf → A) : (∀ w h, f (extend w h) = f w) → replayable (gets f).
Proof. intros Hf. apply replayable_local; [done|]. intros w h. unfold gets. by rewrite Hf. Qed.
Lemma replayable_require : replayable require_snapshot.
Proof. by apply replayable_local. Qed.
Lemma replayable_replace f : replayable (replace f).
Proof. by apply replayable_local. Qed.
Lemma replayable_log e : replayable (log e).
Proof. apply replayable_local; [|done]. intros w. by apply prefix_app_r. Qed.
Lemma replayable_set_status t : replayable (set_status t).
Proof.
  unfold set_status. apply replayable_bind; [apply replayable_require|]. intros s.
  destruct (transition _ _); [|apply replayable_raise].
  apply replayable_bind; [apply replayable_log|]. intros []. apply replayable_replace.
Qed.

Lemma deliver_set_history t w h : deliver t (set_history w h) = set_history (deliver t w) h.
Proof.
  assert (∀ s w, apply_signal (set_history w h) s = set_history (apply_signal w s) h) as Hs.
  { intros [d|] w'; simpl; [|done]. destruct (assoc _ _); [by case_bool_decide|done]. }
  destruct t as [l|l| | |]; simpl; try done.
  all: revert w; induction l as [|s l IH]; intros w; simpl; [done|]; by rewrite Hs, IH.
Qed.

Lemma deliver_trace t w : wf_trace (deliver t w) = wf_trace w.
Proof. by destruct (deliver_frame t w) as [(_ & E & _) _]. Qed.

Lemma set_history_twice w h h' : set_history (set_history w h) h' = set_history w h'.
Proof. done. Qed.

Lemma await_replay {A} (accept : Tick → option (Res A)) h w h0 h' :
  (∀ t, accept t ≠ Some Blocked) →
  wf_trace (await_activity accept h w).1 = wf_trace w ∧
  wf_trace (await_activity accept (h ++ h') (set_history w h0)).1 = wf_trace w ∧
  ((await_activity accept h w).2 ≠ Blocked →
   await_activity accept (h ++ h') (set_history w h0)
   = (extend (await_activity accept h w).1 h', (await_activity accept h w).2)).
Proof.
  intros Ha. revert w. induction h as [|t h IH]; intros w; simpl.
  - split; [done|]. split; [|done]. clear Ha. revert w h0.
    induction h' as [|t h' IH]; intros w h0; simpl; [done|].
    destruct (accept t); [done|]. rewrite deliver_set_history, IH. apply deliver_trace.
  - destruct (accept t) as [r|]; [done|]. rewrite deliver_set_history.
    destruct (IH (deliver t w)) as (I1 & I2 & I3). by rewrite I1, I2, deliver_trace.
Qed.

Lemma replayable_await {A} (accept : Tick → option (Res A)) :
  (∀ t, accept t ≠ Some Blocked) → replayable (λ w, await_activity accept (wf_history w) w).
Proof.
  intros Ha w. split; [|intros h; split].
  - by destruct (await_replay accept (wf_history w) w [] [] Ha) as [-> _].
  - by destruct (await_replay accept (wf_history w) w (wf_history w ++ h) h Ha) as (_ & _ & E).
  - destruct (await_replay accept (wf_history w) w (wf_history w ++ h) h Ha) as (E1 & E2 & _).
    rewrite E1. unfold extend at 1. cbn [wf_history set_history]. unfold extend. by rewrite E2.
Qed.

Lemma wait_replay cond b h w h0 h' :
  (∀ w h, cond (set_history w h) = cond w) →
  wf_trace (wait_loop cond b h w).1 = wf_trace w ∧
  wf_trace (wait_loop cond b (h ++ h') (set_history w h0)).1 = wf_trace w ∧
  ((wait_loop cond b h w).2 ≠ Blocked →
   wait_loop cond b (h ++ h') (set_history w h0)
   = (extend (wait_loop cond b h w).1 h', (wait_loop cond b h w).2)).
Proof.
  intros Hc. revert w. induction h as [|t h IH]; intros w; simpl.
  - split; [by destruct (cond w)|]. split.
    + revert w h0. induction h' as [|t h' IH]; intros w h0; simpl; rewrite Hc; [by destruct (cond w)|].
      destruct (cond w); [done|]. rewrite deliver_set_history.
      destruct (_ && _); [apply deliver_trace|]. rewrite IH. apply deliver_trace.
    + destruct (cond w) eqn:E; [|done]. intros _. destruct h'; simpl; by rewrite Hc, E.
  - rewrite Hc. destruct (cond w); [done|]. rewrite deliver_set_history.
    destruct (_ && _); cbn.
    + by rewrite deliver_trace.
    + destruct (IH (deliver t w)) as (I1 & I2 & I3). by rewrite I1, I2, deliver_trace.
Qed.

Lemma replayable_wait cond b :
  (∀ w h, cond (set_history w h) = cond w) → replayable (wait_condition cond b).
Proof.
  intros Hc w. unfold wait_condition. split; [|intros h; split].
  - by destruct (wait_replay cond b (wf_history w) w [] [] Hc) as [-> _].
  - by destruct (wait_replay cond b (wf_history w) w (wf_history w ++ h) h Hc) as (_ & _ & E).
  - destruct (wait_replay cond b (wf_history w) w (wf_history w ++ h) h Hc) as (E1 & E2 & _).
    rewrite E1. unfold extend at 1. cbn [wf_history set_history]. unfold extend. by rewrite E2.
Qed.

Lemma accept_adapter_not_blocked t : accept_adapter t ≠ Some Blocked.
Proof. by destruct t. Qed.
Lemma accept_report_not_blocked t : accept_report t ≠ Some Blocked.
Proof. by destruct t. Qed.

Ltac replay :=
  repeat first
    [ match goal with K : _ |- _ => solve [apply K] end
    | apply replayable_bind; [|intros ?]
    | apply replayable_catch; [|intros ?|intros ?]
    | apply replayable_ret | apply replayable_raise | apply replayable_failed
    | (apply replayable_gets; reflexivity) | apply replayable_require | apply replayable_replace
    | apply replayable_set_status | apply replayable_log
    | (apply replayable_await; [exact accept_adapter_not_blocked])
    | (apply replayable_await; [exact accept_report_not_blocked])
    | (apply replayable_wait; reflexivity)
    | case_match ].

Section replay.
Context `{FloatRepr} (plan : ExecutionPlan).

Lemma replayable_conclude report : replayable (conclude plan report).
Proof. unfold conclude. replay. Qed.
Lemma replayable_execute_verification : replayable (execute_verification plan).
Proof. unfold execute_verification, execute_verify_activity. cbv zeta. replay. Qed.
Lemma replayable_compensate steps : replayable (compensate plan steps).
Proof.
  induction steps as [|step rest IH]; cbn [compensate]; [apply replayable_ret|].
  cbv zeta. unfold make_invocation, execute_adapter_activity. replay.
Qed.
Lemma replayable_finish_with_compensation l t c : replayable (finish_with_compensation plan l t c).
Proof.
  unfold finish_with_compensation. cbv zeta.
  pose proof (replayable_compensate (rev (List.filter has_compensation l))). replay.
Qed.
Lemma replayable_finish_unknown_effect c : replayable (finish_unknown_effect plan c).
Proof.
  unfold finish_unknown_effect. pose proof replayable_execute_verification.
  pose proof replayable_conclude. replay.
Qed.
Lemma replayable_finish_run l : replayable (finish_run plan l).
Proof.
  unfold finish_run, cancel_requested. pose proof replayable_execute_verification.
  pose proof replayable_conclude. pose proof replayable_finish_with_compensation. replay.
Qed.
Lemma replayable_approval_gate l step : replayable (approval_gate plan l step).
Proof.
  unfold approval_gate, wait_for_approval, cancel_requested, approval_conflict.
  pose proof replayable_finish_with_compensation. replay.
Qed.
Lemma replayable_try_alternatives step alts : replayable (try_alternatives plan step alts).
Proof.
  induction alts as [|a rest IH]; cbn [try_alternatives]; [apply replayable_raise|].
  unfold make_invocation, execute_adapter_activity, record_attempt. cbv zeta. replay.
Qed.
Lemma replayable_run_steps l steps : replayable (run_steps plan l steps).
Proof.
  revert l. induction steps as [|step rest IH]; intros l; cbn [run_steps]; [apply replayable_finish_run|].
  unfold cancel_requested, execute_step. pose proof replayable_finish_with_compensation.
  pose proof replayable_approval_gate. pose proof replayable_try_alternatives.
  pose proof replayable_finish_unknown_effect. unfold step_failed. cbv zeta. replay.
Qed.

End replay.

(** ** Properties of a run *)

Lemma initial_state_facts plan wid early history :
  let w := initial_state plan wid early history in
  wf_snapshot w = initial_snapshot plan wid ∧ wf_trace w = [] ∧ wf_history w = history.
Proof.
  unfold initial_state. set (w0 := {| wf_snapshot := _ |}).
  by destruct (apply_signals_frame early w0) as [(E1 & E2 & _) ->].
Qed.

Lemma initial_state_extend plan wid early h h' :
  initial_state plan wid early (h ++ h') = extend (initial_state plan wid early h) h'.
Proof.
  unfold initial_state, extend. set (w0 := {| wf_snapshot := _; wf_history := h |}).
  pose proof (deliver_set_history (TTimer early) w0 (h ++ h')) as E. simpl in E.
  destruct (apply_signals_frame early w0) as [_ ->]. exact E.
Qed.

Lemma run_spec `{Sha256, FloatRepr} plan wid early history :
  validate_execution_plan plan = Ok () →
  wp (λ _, run plan wid early history)
    (λ r w, ∃ n, fin plan history (List.filter effectful (take n (pl_steps plan))) r w)
    (initial_state plan wid early history).
Proof.
  intros Hp. pose proof (validate_plan_parts plan Hp) as (Hsteps & _).
  destruct (initial_state_facts plan wid early history) as (E1 & E2 & E3).
  unfold run. set (w0 := initial_state plan wid early history) in *.
  change (wp (set_status Status.RUNNING;; run_steps plan [] (pl_steps plan))
    (λ r w, ∃ n, fin plan history (List.filter effectful (take n (pl_steps plan))) r w) w0).
  apply wp_bind, wp_set_status; [by rewrite E1|]. cbn [then_].
  assert (clean [] w0) as Hc.
  { unfold clean. rewrite E1, E2. by split_and!. }
  eapply wp_mono; [apply (run_steps_spec plan history Hp [] (pl_steps plan))|].
  - intros s Hs. by apply elem_of_nil in Hs.
  - done.
  - done.
  - intros t Ht. cbn in Ht. by rewrite E3 in Ht.
  - apply clean_moved; [by rewrite E1|done].
  - done.
Qed.

(** C10. Every run of a valid plan ends properly or is waiting: it returns its own snapshot
    in a terminal status, waits for more history, or is stuck on the bounds of the
    verification request while VERIFYING; no other exception escapes, and every status change
    it ever made is one the state machine allows. *)
Theorem run_ends_or_waits `{Sha256, FloatRepr} plan wid early history :
  validate_execution_plan plan = Ok () →
  let '(w, r) := run plan wid early history in
  ((∃ s, r = Val s ∧ s = wf_snapshot w ∧ terminal s = true) ∨ r = Blocked ∨
   (∃ m, r = Raise (ValidationError m) ∧ sn_status (wf_snapshot w) = Status.VERIFYING)) ∧
  ∀ from to, EvStatus from to ∈ wf_trace w → moves from to.
Proof.
  intros Hp. pose proof (run_spec plan wid early history Hp) as Hr. unfold wp in Hr.
  destruct (run plan wid early history) as [w r]. destruct Hr as (n & Hset & Hres). cbn [fst snd] in *.
  split.
  - destruct r as [s|[]|c|]; try done; [left|right; right|right; left]; [|by eauto|done].
    exists s. destruct Hres as (? & ? & _). done.
  - destruct Hset as (_ & _ & _ & _ & Hev). rewrite Forall_forall in Hev.
    intros from to Hin. exact (Hev _ Hin).
Qed.

(** C7. A VERIFIED (or NEEDS_REVIEW) transaction is backed by a report the verification
    activity returned, with that verdict, about this very transaction, business digest and
    verification level; nothing else produces these statuses. *)
Theorem run_verified_sound `{Sha256, FloatRepr} plan wid early history w s :
  validate_execution_plan plan = Ok () →
  run plan wid early history = (w, Val s) →
  (sn_status s = Status.VERIFIED → report_backed plan history s VERIFIED) ∧
  (sn_status s = Status.NEEDS_REVIEW → report_backed plan history s NEEDS_REVIEW).
Proof.
  intros Hp Hrun. pose proof (run_spec plan wid early history Hp) as Hr. unfold wp in Hr.
  rewrite Hrun in Hr. destruct Hr as (n & _ & _ & _ & Hv & Hn & _). done.
Qed.

(** C8. No adapter is invoked for a step before its approval: each invocation for a step
    that requires approval is issued while RUNNING with an approving decision for that step
    that was signalled to this workflow; and an effectful step is never invoked once a
    cancellation was requested or, behind an approval, conflicting decisions arrived. *)
Theorem run_approval_before_invocation `{Sha256, FloatRepr} plan wid early history step i view :
  validate_execution_plan plan = Ok () →
  EvForward step i view ∈ wf_trace (run plan wid early history).1 →
  vw_status view = Status.RUNNING ∧
  (st_requires_approval step = true →
     ∃ d, assoc (st_step_id step) (vw_approvals view) = Some d ∧ ap_approved d = true ∧
       ap_step_id d = st_step_id step ∧ signalled early history d) ∧
  (st_risk_class step ≠ READ_ONLY →
     vw_cancel view = false ∧ (st_requires_approval step = true → vw_conflict view = false)).
Proof.
  intros Hp Hin. pose proof (run_spec plan wid early history Hp) as Hr. unfold wp in Hr.
  assert (provenance early history (run plan wid early history).1) as (_ & _ & Hprov).
  { unfold run. apply keeps_bind; [apply keeps_set_status|intros; apply keeps_run_steps|].
    apply keeps_signals; [by left|]. split_and!; cbn.
    - by intros t.
    - by intros k d.
    - intros s j v Hv. by apply elem_of_nil in Hv. }
  destruct Hr as (n & (_ & _ & _ & _ & Hev) & _). rewrite Forall_forall in Hev.
  destruct (Hev _ Hin) as (H1 & _ & H3 & H4). split; [done|]. split.
  - intros Hreq. destruct (H3 Hreq) as (d & Hd & Hok). exists d.
    destruct (Hprov _ _ _ Hin _ _ Hd) as [? ?]. done.
  - intros Hrisk. apply H4. unfold effectful, step_read_only. by rewrite (proj2 (is_read_only_false _) Hrisk).
Qed.

(** C6. Effects are requested at most once and in plan order: the effectful steps the
    adapters were asked to perform are a prefix of the plan's effectful steps, so no
    fallback or resumption ever repeats one. *)
Theorem run_effects_at_most_once `{Sha256, FloatRepr} plan wid early history :
  validate_execution_plan plan = Ok () →
  let trace := wf_trace (run plan wid early history).1 in
  effects trace `prefix_of` List.filter effectful (pl_steps plan) ∧
  NoDup (map st_step_id (effects trace)).
Proof.
  intros Hp. cbv zeta. pose proof (run_spec plan wid early history Hp) as Hr. unfold wp in Hr.
  destruct Hr as (n & (-> & _) & _).
  assert (List.filter effectful (take n (pl_steps plan)) `prefix_of` List.filter effectful (pl_steps plan))
    as Hpre.
  { rewrite <-(take_drop n (pl_steps plan)) at 2. rewrite List.filter_app. by apply prefix_app_r. }
  split; [done|]. pose proof (validate_plan_parts plan Hp) as (_ & _ & _ & _ & _ & _ & _ & Hn & _).
  assert (∀ l, NoDup (map st_step_id l) → NoDup (map st_step_id (List.filter effectful l))) as Hf.
  { clear. induction l as [|s l IH]; simpl; [done|]. intros [Hs Hn]%NoDup_cons.
    destruct (effectful s); simpl; [|auto]. apply NoDup_cons. split; [|auto].
    intros (x & E & Hx)%list_elem_of_fmap. apply list_filter_elem in Hx as [Hx _].
    apply Hs. rewrite E. by apply (list_elem_of_fmap_2 st_step_id). }
  apply Hf. rewrite <-(take_drop n (pl_steps plan)), map_app in Hn. by apply NoDup_app in Hn as [? _].
Qed.

(** An unknown effect is never acted on blindly: once an effectful step fails with one of
    its unknown-effect codes no adapter is invoked any more, neither to retry, nor to go on,
    nor to compensate. *)
Theorem run_unknown_effect_quiet `{Sha256, FloatRepr} plan wid early history before step code after :
  validate_execution_plan plan = Ok () →
  wf_trace (run plan wid early history).1 = before ++ EvStepFailed step code :: after →
  code ∈ st_unknown_effect_error_codes step →
  ∀ e, e ∈ after → adapter_event e = false.
Proof.
  intros Hp E Hc. pose proof (run_spec plan wid early history Hp) as Hr. unfold wp in Hr.
  destruct Hr as (n & (_ & _ & _ & Hq & _) & _). eapply (Hq _ _ _ E). by apply mem_true.
Qed.

(** C9. Compensation undoes effects latest first: the compensations requested are a prefix of
    the compensatable effects in reverse order, each uses the reference it needs, and an
    execution that ends COMPENSATED, REJECTED or CANCELLED has compensated every effect it
    ever requested. *)
Theorem run_compensation_complete `{Sha256, FloatRepr} plan wid early history :
  validate_execution_plan plan = Ok () →
  let '(w, r) := run plan wid early history in
  compensations (wf_trace w) `prefix_of` rev (List.filter has_compensation (effects (wf_trace w))) ∧
  sn_compensated_step_ids (wf_snapshot w) `prefix_of` map st_step_id (compensations (wf_trace w)) ∧
  (∀ step i, EvCompensate step i ∈ wf_trace w → event_ok (EvCompensate step i)) ∧
  ∀ s, r = Val s → sn_status s ∈ [Status.COMPENSATED; Status.REJECTED; Status.CANCELLED] →
    ∀ step, step ∈ effects (wf_trace w) → st_step_id step ∈ sn_compensated_step_ids s.
Proof.
  intros Hp. pose proof (run_spec plan wid early history Hp) as Hr. unfold wp in Hr.
  destruct (run plan wid early history) as [w r]. destruct Hr as (n & (E & C1 & C2 & _ & Hev) & Hres).
  cbn [fst snd] in *. rewrite E. split_and!; [done|done|..].
  - intros step i Hin. rewrite Forall_forall in Hev. exact (Hev _ Hin).
  - intros s -> Hs. destruct Hres as (_ & _ & _ & _ & Hall). by apply Hall.
Qed.

(** Replay is faithful: running the workflow on a longer history ends exactly as before if
    it had ended, and otherwise first re-issues every status change and invocation it had
    issued. *)
Theorem run_replay `{FloatRepr} plan wid early history more :
  let '(w, r) := run plan wid early history in
  (r ≠ Blocked → run plan wid early (history ++ more) = (extend w more, r)) ∧
  wf_trace w `prefix_of` wf_trace (run plan wid early (history ++ more)).1.
Proof.
  assert (replayable (set_status Status.RUNNING;; run_steps plan [] (pl_steps plan))) as Hr.
  { apply replayable_bind; [apply replayable_set_status|]. intros _. apply replayable_run_steps. }
  unfold run. rewrite initial_state_extend.
  destruct (Hr (initial_state plan wid early history)) as [_ Hh].
  destruct (Hh more) as [Hend Hpre].
  revert Hend Hpre. generalize ((set_status Status.RUNNING;; run_steps plan [] (pl_steps plan))
    (initial_state plan wid early history)). intros [w r]. done.
Qed.

(** ** Concrete runs *)

#[local] Existing Instances example_sha256 example_float_repr example_sha256_laws.

Definition example_result (reference : option string) : AdapterResult := {|
  ar_output := [("status", JStr "ok")]; ar_effect_reference := reference;
  ar_execution_source := None |}.

Definition example_approval (approved : bool) : ApprovalDecision := {|
  ap_step_id := "amend"; ap_approved := approved; ap_decided_by := "alice"; ap_reason := Some "checked" |}.

Definition verified_plan : ExecutionPlan := {|
  pl_transaction_id := pl_transaction_id example_execution_plan;
  pl_tenant_id := pl_tenant_id example_execution_plan;
  pl_environment_id := pl_environment_id example_execution_plan;
  pl_business_digest := pl_business_digest example_execution_plan;
  pl_risk_class := pl_risk_class example_execution_plan;
  pl_verification_level := pl_verification_level example_execution_plan;
  pl_data_classification := pl_data_classification example_execution_plan;
  pl_steps := pl_steps example_execution_plan;
  pl_verification := Some {|
    vp_required_level := L2;
    vp_collectors := [{| ec_step_id := "collect"; ec_collector_id := "ledger";
                         ec_operation := "read"; ec_input := [] |}];
    vp_claim_rules := [{| cr_claim := "status"; cr_expected_pointer := "/outputs/0/output/status";
                          cr_normalization := EXACT |}];
    vp_max_evidence_age_seconds := 3600; vp_future_clock_skew_seconds := 300;
    vp_timeout_seconds := 30;
    vp_retry := {| vr_initial_interval_seconds := py_float 1; vr_backoff_coefficient := py_float 2;
                   vr_maximum_interval_seconds := py_float 30; vr_maximum_attempts := 3 |} |};
  pl_routing_decisions := []; pl_policy_decisions := pl_policy_decisions example_execution_plan |}.

Lemma verified_plan_valid : validate_execution_plan verified_plan = Ok ().
Proof. vm_compute. reflexivity. Qed.

Definition verified_report : VerificationReport := {|
  rp_transaction_id := "tx-1"; rp_business_digest := value_digest JNull; rp_verdict := VERIFIED;
  rp_required_level := L2; rp_achieved_level := L2; rp_evaluated_at := 0;
  rp_reasons := ["claims_and_independence_verified"]; rp_claims := []; rp_evidence := [];
  rp_synthetic := true; rp_report_digest := value_digest JNull |}.

(** The steps run to the end: a read, an approved write and a second write. *)
Definition performed : list Tick :=
  [TAdapter (example_result None); TSignals [SigApprove (example_approval true)];
   TAdapter (example_result (Some "ref-1")); TAdapter (example_result (Some "ref-2"))].
Definition verified_history : list Tick := performed ++ [TReport verified_report].
(** The same, with a cancellation while the last write is in progress. *)
Definition cancelled_history : list Tick :=
  take 3 performed ++ [TSignals [SigCancel]] ++ drop 3 performed
    ++ [TAdapter (example_result None); TAdapter (example_result None)].
(** The first write fails with an unknown effect. *)
Definition unknown_history : list Tick :=
  take 2 performed ++ [TFailed (AppFailure (Some "effect_unknown")); TReport verified_report].

Definition final_status (r : Res ExecutionSnapshot) : option (ExecutionStatus * list string) :=
  match r with Val s => Some (sn_status s, sn_compensated_step_ids s) | _ => None end.

Example run_examples :
  map (λ h, final_status (run verified_plan "wf" [] h).2)
    [verified_history; cancelled_history; unknown_history; performed]
  = [Some (Status.VERIFIED, []); Some (Status.CANCELLED, ["confirm"; "amend"]);
     Some (Status.VERIFIED, []); None].
Proof. vm_compute. reflexivity. Qed.

Lemma run_ends_or_waits_witness :
  Forall (λ e, match e with EvStatus from to => moves from to | _ => True end)
    (wf_trace (run verified_plan "wf" [] verified_history).1).
Proof.
  pose proof (run_ends_or_waits verified_plan "wf" [] verified_history verified_plan_valid) as Hr.
  destruct (run verified_plan "wf" [] verified_history) as [w r].
  apply Forall_forall. intros [] He; try exact I. exact (proj2 Hr _ _ He).
Defined.

Definition verified_end : Wf * Res ExecutionSnapshot := run verified_plan "wf" [] verified_history.
Definition verified_snapshot : ExecutionSnapshot := wf_snapshot verified_end.1.

Lemma run_verified_sound_witness : report_backed verified_plan verified_history verified_snapshot VERIFIED.
Proof.
  refine (proj1 (run_verified_sound verified_plan "wf" [] verified_history verified_end.1
    verified_snapshot verified_plan_valid _) _).
  - vm_compute. reflexivity.
  - vm_compute. reflexivity.
Defined.

Definition approved_view : View := {|
  vw_approvals := [("amend", example_approval true)]; vw_conflict := false; vw_cancel := false;
  vw_status := Status.RUNNING |}.
Definition amend_step : ExecutionStep :=
  example_step "amend" REVERSIBLE_WRITE ["lookup"] true (Some example_compensation).

Lemma run_approval_before_invocation_witness :
  ∃ d, assoc "amend" (vw_approvals approved_view) = Some d ∧ signalled [] verified_history d.
Proof.
  destruct (run_approval_before_invocation verified_plan "wf" [] verified_history amend_step
    (step_invocation verified_plan amend_step {|
       alt_candidate_id := None; alt_adapter := "portal"; alt_operation := "run";
       alt_timeout_seconds := 60; alt_retry := example_retry; alt_safe_codes := [];
       alt_credential_binding_digest := None |}) approved_view) as (_ & Happ & _).
  - exact verified_plan_valid.
  - apply list_elem_of_In. vm_compute. repeat (first [left; reflexivity|right]).
  - destruct (Happ eq_refl) as (d & Hd & _ & _ & Hs). exists d. split; [exact Hd|exact Hs].
Defined.

Lemma run_effects_at_most_once_witness :
  effects (wf_trace (run verified_plan "wf" [] cancelled_history).1)
    `prefix_of` List.filter effectful example_steps.
Proof. exact (proj1 (run_effects_at_most_once verified_plan "wf" [] cancelled_history verified_plan_valid)). Defined.

Definition unknown_trace : list Event := wf_trace (run verified_plan "wf" [] unknown_history).1.

Lemma run_unknown_effect_quiet_witness :
  Forall (λ e, adapter_event e = false) (drop 6 unknown_trace).
Proof.
  apply Forall_forall.
  apply (run_unknown_effect_quiet verified_plan "wf" [] unknown_history (take 5 unknown_trace)
    amend_step "effect_unknown").
  - exact verified_plan_valid.
  - vm_compute. reflexivity.
  - apply list_elem_of_In. left. reflexivity.
Defined.

Lemma run_compensation_complete_witness :
  compensations (wf_trace (run verified_plan "wf" [] cancelled_history).1)
    `prefix_of` rev (List.filter has_compensation
                       (effects (wf_trace (run verified_plan "wf" [] cancelled_history).1))).
Proof.
  pose proof (run_compensation_complete verified_plan "wf" [] cancelled_history verified_plan_valid) as Hr.
  destruct (run verified_plan "wf" [] cancelled_history) as [w r]. exact (proj1 Hr).
Defined.

(** When the failing write's compensation needs an effect reference, the run halts before
    the writes completed earlier are compensated. *)
Definition failed_history : list Tick :=
  take 3 performed ++ [TFailed (AppFailure (Some "portal_error"))].

Lemma failed_reference_blocks_compensation :
  final_status (run example_execution_plan "wf" [] failed_history).2 = Some (Status.HALTED, []) ∧
  compensations (wf_trace (run example_execution_plan "wf" [] failed_history).1) = [].
Proof. vm_compute. split; reflexivity. Qed.

(** A valid plan whose outputs carry more execution sources than the verification request
    admits: the run raises and stays VERIFYING whatever the history brings. *)
Definition busy_source : ExecutionSource := {|
  src_source_system := "portal"; src_channel := CH_API; src_adapter_id := "portal";
  src_collection_id := "run"; src_synthetic := false |}.
Definition busy_result : AdapterResult := {|
  ar_output := []; ar_effect_reference := None; ar_execution_source := Some busy_source |}.
Definition busy_plan : ExecutionPlan := {|
  pl_transaction_id := "tx-1"; pl_tenant_id := "tenant"; pl_environment_id := "local";
  pl_business_digest := value_digest JNull; pl_risk_class := READ_ONLY;
  pl_verification_level := L2; pl_data_classification := INTERNAL;
  pl_steps := map (λ n, example_step ("s" +:+ pretty.pretty n) READ_ONLY [] false None) (seq 0 33);
  pl_verification := pl_verification verified_plan; pl_routing_decisions := [];
  pl_policy_decisions := [] |}.

Lemma verification_request_bounds_escape :
  validate_execution_plan busy_plan = Ok () ∧
  (run busy_plan "wf" [] (repeat (TAdapter busy_result) 33)).2
    = Raise (ValidationError "field constraint") ∧
  sn_status (wf_snapshot (run busy_plan "wf" [] (repeat (TAdapter busy_result) 33)).1)
    = Status.VERIFYING.
Proof. vm_compute. split_and!; reflexivity. Qed.
