(* ===== verification/Sqlite.v ===== *)
(** * Connections with an open transaction

    The SQLite stores run each operation as [BEGIN IMMEDIATE], a body, and [commit], inside one
    [try] whose handlers name the exceptions that roll back.  An exception no handler names
    leaves the transaction open on the shared connection, so it is part of the state.  Bodies of
    the task store (runner/task_store.py) and the budget ledger (repair/budget.py) write only
    after their last statement that may raise, so a transaction they leave open holds no writes
    ([Connection]).  The runner registry (runner/registry.py) also inserts outside any
    transaction of its own, into whichever is open ([Database]).  Database failures other than a
    nested [BEGIN] are not modelled. *)

From S2P Require Import Prelude.

Record Connection (D : Type) := {
  cn_closed : bool;
  cn_in_transaction : bool;
  cn_data : D }.
Arguments cn_closed {_} _.
Arguments cn_in_transaction {_} _.
Arguments cn_data {_} _.
Arguments Build_Connection {_} _ _ _.

Section connection.
Context {D E : Type}.

(** A fresh connection on the data of the database. *)
Definition connect (data : D) : Connection D := Build_Connection false false data.

Definition with_data (c : Connection D) (data : D) : Connection D :=
  Build_Connection (cn_closed c) (cn_in_transaction c) data.
Definition with_transaction (c : Connection D) (b : bool) : Connection D :=
  Build_Connection (cn_closed c) b (cn_data c).

Context (handled : E → bool) (closed unavailable : E).

(** The [try] block: [BEGIN IMMEDIATE] inside an open transaction is an [sqlite3.Error],
    whose handler rolls back and raises [unavailable]. *)
Definition session {A} (body : D → result E (D * A)) (c : Connection D)
    : Connection D * result E A :=
  if cn_in_transaction c then (with_transaction c false, Err unavailable)
  else
    match body (cn_data c) with
    | Ok (data, a) => (with_data c data, Ok a)
    | Err e => (with_transaction c (negb (handled e)), Err e)
    end.

(** [_ensure_open]. *)
Definition ensure_open (c : Connection D) : result E () := raise_if (cn_closed c) closed.

(** The checks before the lock is taken, then the [try] block. *)
Definition operation {A} (checks : result E ()) (body : D → result E (D * A))
    (c : Connection D) : Connection D * result E A :=
  match (ensure_open c;; checks) with
  | Ok _ => session body c
  | Err e => (c, Err e)
  end.

(** [close]: closing the connection rolls an open transaction back. *)
Definition close (c : Connection D) : Connection D :=
  if cn_closed c then c else Build_Connection true false (cn_data c).

(** ** Lemmas *)

Lemma operation_cases {A} (checks : result E ()) (body : D → result E (D * A)) c c' x :
  operation checks body c = (c', x) →
  (cn_data c' = cn_data c ∧ ∃ e, x = Err e) ∨
  ∃ data a, x = Ok a ∧ checks = Ok () ∧ body (cn_data c) = Ok (data, a) ∧ c' = with_data c data ∧
    cn_in_transaction c = false ∧ cn_closed c = false.
Proof.
  unfold operation, ensure_open, session.
  destruct (cn_closed c); simpl; [intros [= <- <-]; left; eauto|].
  destruct checks as [[]|e]; [|intros [= <- <-]; left; eauto].
  destruct (cn_in_transaction c); [intros [= <- <-]; left; eauto|].
  destruct (body _) as [[data a]|e]; intros [= <- <-]; [right; eauto 10|left; eauto].
Qed.

Lemma operation_ok {A} (checks : result E ()) (body : D → result E (D * A)) c c' a :
  operation checks body c = (c', Ok a) ↔
  cn_closed c = false ∧ cn_in_transaction c = false ∧ checks = Ok () ∧
  ∃ data, body (cn_data c) = Ok (data, a) ∧ c' = with_data c data.
Proof.
  split.
  - intros [(_ & e & He)|(data & a' & [= <-] & Hc & Hb & -> & Ht & Ho)]%operation_cases; [done|].
    eauto 10.
  - intros (Ho & Ht & Hc & data & Hb & ->). unfold operation, ensure_open, session.
    by rewrite Ho, Hc, Ht, Hb.
Qed.

(** Past the checks and outside a transaction an operation is its body. *)
Lemma operation_run {A} (checks : result E ()) (body : D → result E (D * A)) c :
  checks = Ok () → cn_closed c = false → cn_in_transaction c = false →
  operation checks body c =
    match body (cn_data c) with
    | Ok (data, a) => (with_data c data, Ok a)
    | Err e => (with_transaction c (negb (handled e)), Err e)
    end.
Proof. intros Hc Ho Ht. unfold operation, ensure_open, session. by rewrite Ho, Hc, Ht. Qed.

(** A handled error outside a transaction changes nothing. *)
Lemma operation_handled {A} (checks : result E ()) (body : D → result E (D * A)) c e :
  checks = Ok () → cn_closed c = false → cn_in_transaction c = false →
  body (cn_data c) = Err e → handled e = true → operation checks body c = (c, Err e).
Proof.
  intros Hc Ho Ht Hb He. rewrite operation_run, Hb, He by done.
  destruct c as [o t d]; simpl in *. by subst.
Qed.

(** A read that writes its data back changes nothing. *)
Lemma operation_unchanged {A} (checks : result E ()) (body : D → result E (D * A)) c a :
  checks = Ok () → cn_closed c = false → cn_in_transaction c = false →
  body (cn_data c) = Ok (cn_data c, a) → operation checks body c = (c, Ok a).
Proof. intros Hc Ho Ht Hb. rewrite operation_run, Hb by done. by destruct c. Qed.

End connection.

(** ** Statements in autocommit mode

    A connection with [isolation_level=None] whose operations also write outside a transaction:
    inside one left open such a write is provisional.  [db_saved] is the committed data while a
    transaction is open, [db_data] what every statement sees. *)

Record Database (D : Type) := {
  db_closed : bool;
  db_saved : option D;
  db_data : D }.
Arguments db_closed {_} _.
Arguments db_saved {_} _.
Arguments db_data {_} _.
Arguments Build_Database {_} _ _ _.

Section database.
Context {D E : Type}.

Definition open_database (data : D) : Database D := Build_Database false None data.

(** The data a crash or a rollback leaves. *)
Definition committed (db : Database D) : D := default (db_data db) (db_saved db).

Definition rollback (db : Database D) : Database D :=
  Build_Database (db_closed db) None (committed db).
Definition commit (db : Database D) : Database D := Build_Database (db_closed db) None (db_data db).
Definition write (f : D → D) (db : Database D) : Database D :=
  Build_Database (db_closed db) (db_saved db) (f (db_data db)).
(** [BEGIN IMMEDIATE]: [None] is the [sqlite3.Error] inside a transaction. *)
Definition begin (db : Database D) : option (Database D) :=
  match db_saved db with
  | Some _ => None
  | None => Some (Build_Database (db_closed db) (Some (db_data db)) (db_data db))
  end.
Definition close_database (db : Database D) : Database D :=
  if db_closed db then db else Build_Database true None (committed db).

(** [BEGIN IMMEDIATE], a body that writes after its last statement that may raise, [commit];
    [handled] tells which exceptions of the body roll back. *)
Definition transaction {A} (handled : E → bool) (unavailable : E) (body : D → result E (D * A))
    (db : Database D) : Database D * result E A :=
  match begin db with
  | None => (rollback db, Err unavailable)
  | Some db1 =>
      match body (db_data db1) with
      | Ok (data, a) => (commit (write (λ _, data) db1), Ok a)
      | Err e => (if handled e then rollback db1 else db1, Err e)
      end
  end.

(** What a transaction does: it commits its body's data, or leaves the data visible or
    committed before, in or out of a transaction. *)
Lemma transaction_cases {A} handled (unavailable : E) (body : D → result E (D * A)) db db' x :
  transaction handled unavailable body db = (db', x) →
  db_closed db' = db_closed db ∧
  ((∃ a, x = Ok a ∧ db_saved db = None ∧ db_saved db' = None ∧ body (db_data db) = Ok (db_data db', a)) ∨
   (∃ e, x = Err e) ∧
     ((db_saved db' = None ∧ db_data db' = committed db) ∨
      (db_saved db = None ∧ db_saved db' = Some (db_data db) ∧ db_data db' = db_data db))).
Proof.
  unfold transaction, begin, rollback, committed. destruct db as [c [saved|] data]; cbn.
  { intros [= <- <-]. cbn. eauto 10. }
  destruct (body data) as [[data' a]|e]; [intros [= <- <-]; cbn; eauto 10|].
  destruct (handled e); intros [= <- <-]; cbn; eauto 10.
Qed.

End database.

(** ** Validation at the boundary *)

(** [try: model_validate(...) except Exception: raise error]. *)
Definition revalidate {E} (r : result string ()) (e : E) : result E () :=
  match r with Ok _ => Ok () | Err _ => Err e end.

(** A [ValidationError] that propagates. *)
Definition escaping {E A} (raise : string → E) (r : result string A) : result E A :=
  match r with Ok a => Ok a | Err m => Err (raise m) end.

Lemma revalidate_ok {E} r (e : E) : revalidate r e = Ok () ↔ r = Ok ().
Proof. destruct r as [[]|]; simpl; split; congruence. Qed.

Lemma escaping_ok {E A} (raise : string → E) (r : result string A) a :
  escaping raise r = Ok a ↔ r = Ok a.
Proof. destruct r; simpl; split; congruence. Qed.
