(* ===== verification/RunnerTasks.v ===== *)
(** * Runner task contracts (runner/tasks.py)

    Tasks, leases, heartbeats, recovery directives and result receipts with their field
    constraints, validators and digest-bound [issue] constructors.  Timestamps are
    timezone-aware datetimes, as microseconds since the epoch; the year bounds of
    [datetime] are not modelled. *)

From S2P Require Import Prelude.
From S2P Require Import Contracts.

(** ** Secret-like payload keys *)

(** The words of the module's own [_SECRET_KEY_RE]: [api[_-]?key] adds three. *)
Definition runner_secret_words : list string :=
  secret_words ++ ["apikey"; "api_key"; "api-key"].

Definition runner_secret_key (key : string) : bool := secret_search runner_secret_words true key.

(** [_reject_secret_keys] raises. *)
Fixpoint reject_secret_keys (value : json) : bool :=
  match value with
  | JObj fields => existsb (λ kv, runner_secret_key kv.1 || reject_secret_keys kv.2) fields
  | JList l => existsb reject_secret_keys l
  | _ => false
  end.

(** [Field(ge=1, le=2**63 - 1)]. *)
Definition token_ok (token : Z) : bool := between 1 token (2 ^ 63 - 1).

(** ** Tasks *)

Inductive RecoveryAction := RETRY_FROM_CHECKPOINT | VERIFY_OR_RECONCILE.

#[export] Instance RecoveryAction_eq_dec : EqDecision RecoveryAction.
Proof. solve_decision. Defined.

Definition RecoveryAction_value (a : RecoveryAction) : string :=
  match a with
  | RETRY_FROM_CHECKPOINT => "RETRY_FROM_CHECKPOINT"
  | VERIFY_OR_RECONCILE => "VERIFY_OR_RECONCILE"
  end.

Record RunnerTask := {
  tk_task_id : string;
  tk_tenant_id : string;
  tk_environment_id : string;
  tk_runner_pool : string;
  tk_capability : string;
  tk_execution_id : string;
  tk_adapter_digest : string;
  tk_policy_digest : string;
  tk_input_digest : string;
  tk_created_at : Z;
  tk_deadline : Z;
  tk_payload : list (string * json);
  tk_task_digest : string }.

(** [model_digest(self, exclude={"task_digest"})] hashes these fields. *)
Definition task_json (t : RunnerTask) : json := JObj [
  ("schema_version", JStr "cargomesh.runner-task/v1"); ("task_id", JStr (tk_task_id t));
  ("tenant_id", JStr (tk_tenant_id t)); ("environment_id", JStr (tk_environment_id t));
  ("runner_pool", JStr (tk_runner_pool t)); ("capability", JStr (tk_capability t));
  ("execution_id", JStr (tk_execution_id t)); ("adapter_digest", JStr (tk_adapter_digest t));
  ("policy_digest", JStr (tk_policy_digest t)); ("input_digest", JStr (tk_input_digest t));
  ("created_at", JStr (isoformat (tk_created_at t)));
  ("deadline", JStr (isoformat (tk_deadline t))); ("payload", JObj (tk_payload t))].

Definition task_fields_ok (t : RunnerTask) : bool :=
  Identifier_ok (tk_task_id t) && Identifier_ok (tk_tenant_id t)
  && Identifier_ok (tk_environment_id t) && Name_ok (tk_runner_pool t)
  && Name_ok (tk_capability t) && Identifier_ok (tk_execution_id t)
  && Digest_ok (tk_adapter_digest t) && Digest_ok (tk_policy_digest t)
  && Digest_ok (tk_input_digest t) && max_length 64 (tk_payload t).

(** [validate_task], after the field constraints. *)
Definition validate_task `{Sha256, FloatRepr} (t : RunnerTask) : result string () :=
  raise_if (negb (task_fields_ok t)) "field constraint";;
  raise_if (tk_deadline t <=? tk_created_at t) "task deadline must be after creation";;
  raise_if (reject_secret_keys (JObj (tk_payload t))) "payload contains a secret-like key";;
  raise_if (negb (Digest_ok (tk_task_digest t))) "task digest must be a lowercase sha256 digest";;
  raise_if (negb (bool_decide (tk_task_digest t = value_digest (task_json t))))
    "task digest does not match".

(** [RunnerTask.issue]; the digest given is ignored. *)
Definition issue_task `{Sha256, FloatRepr} (t : RunnerTask) : result string RunnerTask :=
  let t' := {| tk_task_id := tk_task_id t; tk_tenant_id := tk_tenant_id t;
    tk_environment_id := tk_environment_id t; tk_runner_pool := tk_runner_pool t;
    tk_capability := tk_capability t; tk_execution_id := tk_execution_id t;
    tk_adapter_digest := tk_adapter_digest t; tk_policy_digest := tk_policy_digest t;
    tk_input_digest := tk_input_digest t; tk_created_at := tk_created_at t;
    tk_deadline := tk_deadline t; tk_payload := tk_payload t;
    tk_task_digest := value_digest (task_json t) |} in
  validate_task t';; Ok t'.

(** ** Leases *)

Record TaskLease := {
  ls_task_id : string;
  ls_runner_id : string;
  ls_fencing_token : Z;
  ls_acquired_at : Z;
  ls_lease_expires_at : Z;
  ls_lease_digest : string }.

#[export] Instance TaskLease_eq_dec : EqDecision TaskLease.
Proof. solve_decision. Defined.

Definition lease_json (task_id runner_id : string) (token acquired expires : Z) : json := JObj [
  ("schema_version", JStr "cargomesh.runner-lease/v1"); ("task_id", JStr task_id);
  ("runner_id", JStr runner_id); ("fencing_token", JInt token);
  ("acquired_at", JStr (isoformat acquired)); ("lease_expires_at", JStr (isoformat expires))].

Definition lease_fields_ok (l : TaskLease) : bool :=
  Identifier_ok (ls_task_id l) && Identifier_ok (ls_runner_id l) && token_ok (ls_fencing_token l).

(** [validate_lease]. *)
Definition validate_lease `{Sha256, FloatRepr} (l : TaskLease) : result string () :=
  raise_if (negb (lease_fields_ok l)) "field constraint";;
  raise_if (ls_lease_expires_at l <=? ls_acquired_at l) "lease expiry must be after acquisition";;
  raise_if (negb (bool_decide (ls_lease_digest l =
    value_digest (lease_json (ls_task_id l) (ls_runner_id l) (ls_fencing_token l)
      (ls_acquired_at l) (ls_lease_expires_at l))))) "lease digest does not match".

(** [TaskLease.issue]. *)
Definition issue_lease `{Sha256, FloatRepr} (task_id runner_id : string)
    (token acquired expires : Z) : result string TaskLease :=
  let l := {| ls_task_id := task_id; ls_runner_id := runner_id; ls_fencing_token := token;
    ls_acquired_at := acquired; ls_lease_expires_at := expires;
    ls_lease_digest := value_digest (lease_json task_id runner_id token acquired expires) |} in
  validate_lease l;; Ok l.

(** ** Heartbeats *)

Record RunnerHeartbeat := {
  hb_task_id : string;
  hb_runner_id : string;
  hb_fencing_token : Z;
  hb_step_id : string;
  hb_effect_boundary : option bool;
  hb_checkpoint_digest : option string;
  hb_artifact_upload_count : Z;
  hb_session_live : bool;
  hb_occurred_at : Z;
  hb_heartbeat_digest : string }.

Definition heartbeat_json (h : RunnerHeartbeat) : json := JObj [
  ("schema_version", JStr "cargomesh.runner-heartbeat/v1"); ("task_id", JStr (hb_task_id h));
  ("runner_id", JStr (hb_runner_id h)); ("fencing_token", JInt (hb_fencing_token h));
  ("step_id", JStr (hb_step_id h)); ("effect_boundary", json_opt JBool (hb_effect_boundary h));
  ("checkpoint_digest", json_opt JStr (hb_checkpoint_digest h));
  ("artifact_upload_count", JInt (hb_artifact_upload_count h));
  ("session_live", JBool (hb_session_live h));
  ("occurred_at", JStr (isoformat (hb_occurred_at h)))].

Definition heartbeat_fields_ok (h : RunnerHeartbeat) : bool :=
  Identifier_ok (hb_task_id h) && Identifier_ok (hb_runner_id h)
  && token_ok (hb_fencing_token h) && Name_ok (hb_step_id h)
  && optional_digest_ok (hb_checkpoint_digest h)
  && between 0 (hb_artifact_upload_count h) 1000000.

(** [validate_heartbeat]. *)
Definition validate_heartbeat `{Sha256, FloatRepr} (h : RunnerHeartbeat) : result string () :=
  raise_if (negb (heartbeat_fields_ok h)) "field constraint";;
  raise_if (negb (bool_decide (hb_heartbeat_digest h = value_digest (heartbeat_json h))))
    "heartbeat digest does not match".

(** [RunnerHeartbeat.issue]; the digest given is ignored. *)
Definition issue_heartbeat `{Sha256, FloatRepr} (h : RunnerHeartbeat)
    : result string RunnerHeartbeat :=
  let h' := {| hb_task_id := hb_task_id h; hb_runner_id := hb_runner_id h;
    hb_fencing_token := hb_fencing_token h; hb_step_id := hb_step_id h;
    hb_effect_boundary := hb_effect_boundary h; hb_checkpoint_digest := hb_checkpoint_digest h;
    hb_artifact_upload_count := hb_artifact_upload_count h;
    hb_session_live := hb_session_live h; hb_occurred_at := hb_occurred_at h;
    hb_heartbeat_digest := value_digest (heartbeat_json h) |} in
  validate_heartbeat h';; Ok h'.

(** ** Recovery directives *)

Record RecoveryDirective := {
  rd_task_id : string;
  rd_action : RecoveryAction;
  rd_checkpoint_digest : option string;
  rd_reason_code : string;
  rd_directive_digest : string }.

Definition directive_json (task_id : string) (action : RecoveryAction)
    (checkpoint : option string) (reason : string) : json := JObj [
  ("schema_version", JStr "cargomesh.runner-recovery/v1"); ("task_id", JStr task_id);
  ("action", JStr (RecoveryAction_value action));
  ("checkpoint_digest", json_opt JStr checkpoint); ("reason_code", JStr reason)].

(** [validate_directive]. *)
Definition validate_directive `{Sha256, FloatRepr} (d : RecoveryDirective) : result string () :=
  raise_if (negb (Identifier_ok (rd_task_id d) && optional_digest_ok (rd_checkpoint_digest d)
                  && Name_ok (rd_reason_code d))) "field constraint";;
  raise_if (negb (bool_decide (rd_directive_digest d =
    value_digest (directive_json (rd_task_id d) (rd_action d) (rd_checkpoint_digest d)
      (rd_reason_code d))))) "recovery directive digest does not match";;
  raise_if (bool_decide (rd_action d = RETRY_FROM_CHECKPOINT) && is_none (rd_checkpoint_digest d))
    "checkpoint retry requires a checkpoint digest".

(** [RecoveryDirective.issue]. *)
Definition issue_directive `{Sha256, FloatRepr} (task_id : string) (action : RecoveryAction)
    (checkpoint : option string) (reason : string) : result string RecoveryDirective :=
  let d := {| rd_task_id := task_id; rd_action := action; rd_checkpoint_digest := checkpoint;
    rd_reason_code := reason;
    rd_directive_digest := value_digest (directive_json task_id action checkpoint reason) |} in
  validate_directive d;; Ok d.

(** ** Result receipts *)

Record RunnerResultReceipt := {
  rr_task_id : string;
  rr_runner_id : string;
  rr_fencing_token : Z;
  rr_result_digest : string;
  rr_completed_at : Z;
  rr_effect_boundary : option bool;
  rr_receipt_digest : string }.

#[export] Instance RunnerResultReceipt_eq_dec : EqDecision RunnerResultReceipt.
Proof. solve_decision. Defined.

Definition result_receipt_json (r : RunnerResultReceipt) : json := JObj [
  ("schema_version", JStr "cargomesh.runner-result-receipt/v1"); ("task_id", JStr (rr_task_id r));
  ("runner_id", JStr (rr_runner_id r)); ("fencing_token", JInt (rr_fencing_token r));
  ("result_digest", JStr (rr_result_digest r));
  ("completed_at", JStr (isoformat (rr_completed_at r)));
  ("effect_boundary", json_opt JBool (rr_effect_boundary r))].

(** [validate_receipt]. *)
Definition validate_receipt `{Sha256, FloatRepr} (r : RunnerResultReceipt) : result string () :=
  raise_if (negb (Identifier_ok (rr_task_id r) && Identifier_ok (rr_runner_id r)
                  && token_ok (rr_fencing_token r) && Digest_ok (rr_result_digest r)))
    "field constraint";;
  raise_if (negb (bool_decide (rr_receipt_digest r = value_digest (result_receipt_json r))))
    "result receipt digest does not match".

(** [RunnerResultReceipt.issue]; the digest given is ignored. *)
Definition issue_receipt `{Sha256, FloatRepr} (r : RunnerResultReceipt)
    : result string RunnerResultReceipt :=
  let r' := {| rr_task_id := rr_task_id r; rr_runner_id := rr_runner_id r;
    rr_fencing_token := rr_fencing_token r; rr_result_digest := rr_result_digest r;
    rr_completed_at := rr_completed_at r; rr_effect_boundary := rr_effect_boundary r;
    rr_receipt_digest := value_digest (result_receipt_json r) |} in
  validate_receipt r';; Ok r'.

(** ** Lemmas *)

Lemma issue_lease_ok `{Sha256, FloatRepr} task_id runner_id token acquired expires l :
  issue_lease task_id runner_id token acquired expires = Ok l →
  validate_lease l = Ok () ∧
  l = {| ls_task_id := task_id; ls_runner_id := runner_id; ls_fencing_token := token;
    ls_acquired_at := acquired; ls_lease_expires_at := expires;
    ls_lease_digest := value_digest (lease_json task_id runner_id token acquired expires) |}.
Proof. unfold issue_lease. intros ([] & Hv & [= <-])%bind_ok. done. Qed.

(** What [issue] accepts: the digest it computes always matches. *)
Lemma issue_lease_total `{Sha256, FloatRepr} task_id runner_id token acquired expires :
  Identifier_ok task_id = true → Identifier_ok runner_id = true → token_ok token = true →
  acquired < expires → is_ok (issue_lease task_id runner_id token acquired expires) = true.
Proof.
  intros Ht Hr Hk Ha. unfold issue_lease, validate_lease, lease_fields_ok.
  cbn [ls_task_id ls_runner_id ls_fencing_token ls_acquired_at ls_lease_expires_at ls_lease_digest].
  rewrite Ht, Hr, Hk, (proj2 (Z.leb_gt _ _)), bool_decide_eq_true_2 by done. done.
Qed.

Lemma issue_directive_ok `{Sha256, FloatRepr} task_id action checkpoint reason d :
  issue_directive task_id action checkpoint reason = Ok d →
  rd_task_id d = task_id ∧ rd_action d = action ∧ rd_checkpoint_digest d = checkpoint ∧
  rd_reason_code d = reason.
Proof. unfold issue_directive. intros ([] & _ & [= <-])%bind_ok. done. Qed.

Lemma issue_directive_total `{Sha256, FloatRepr} task_id action checkpoint reason :
  Identifier_ok task_id = true → optional_digest_ok checkpoint = true → Name_ok reason = true →
  (action = RETRY_FROM_CHECKPOINT → checkpoint ≠ None) →
  is_ok (issue_directive task_id action checkpoint reason) = true.
Proof.
  intros Ht Hc Hr Ha. unfold issue_directive, validate_directive.
  cbn [rd_task_id rd_action rd_checkpoint_digest rd_reason_code rd_directive_digest].
  rewrite Ht, Hc, Hr, (bool_decide_eq_true_2 (_ = value_digest _)) by done.
  destruct action, checkpoint; try done. by destruct Ha.
Qed.

Lemma validate_lease_ok `{Sha256, FloatRepr} l :
  validate_lease l = Ok () →
  lease_fields_ok l = true ∧ ls_acquired_at l < ls_lease_expires_at l.
Proof.
  unfold validate_lease. rewrite !raise_if_then. intros (Hf & He & _). boolify. done.
Qed.

Lemma validate_heartbeat_ok `{Sha256, FloatRepr} h :
  validate_heartbeat h = Ok () → heartbeat_fields_ok h = true.
Proof. unfold validate_heartbeat. rewrite raise_if_then. intros [Hf _]. by boolify. Qed.

Lemma validate_task_ok `{Sha256, FloatRepr} t :
  validate_task t = Ok () →
  task_fields_ok t = true ∧ tk_created_at t < tk_deadline t ∧
  reject_secret_keys (JObj (tk_payload t)) = false ∧
  tk_task_digest t = value_digest (task_json t).
Proof.
  unfold validate_task. rewrite !raise_if_then, raise_if_ok. intros (Hf & Hd & Hs & _ & He).
  boolify. done.
Qed.
