(* ===== verification/TaskStore.v ===== *)
(** * Runner task store (runner/task_store.py)

    The SQLite task queue: atomic acquisition with fencing tokens, renewals, heartbeats,
    results and recovery.  A row keeps the decoded values of its columns; columns that
    repeat a field of the task are the task's own, so the integrity errors of
    [_decode_task], [_decode_heartbeat] and [_decode_receipt], which need a database
    written by someone else, do not arise.  The rows sit on a connection whose open
    transaction is part of the state ([Sqlite]). *)

From S2P Require Import Prelude.
From S2P Require Import Contracts.
From S2P Require Import RunnerTasks.
From S2P Require Import Sqlite.

(** ** State *)

Inductive TaskState := QUEUED | LEASED | COMPLETED | EXPIRED | VERIFYING.

#[export] Instance TaskState_eq_dec : EqDecision TaskState.
Proof. solve_decision. Defined.

(** A row of [runner_tasks]; [task_id] is the key of the map of rows. *)
Record TaskRow := {
  tr_task : RunnerTask;
  tr_state : TaskState;
  tr_runner_id : option string;
  tr_fencing_token : Z;
  tr_lease_acquired_at : option Z;
  tr_lease_expires_at : option Z;
  tr_heartbeat : option RunnerHeartbeat;
  tr_receipt : option RunnerResultReceipt }.

Notation Rows := (gmap string TaskRow).

Notation TaskStore := (Connection Rows).

(** [__init__]; [lease] is [timedelta(seconds=lease_seconds)] in microseconds, where a positive
    number of seconds may round to an empty interval.  The operations that use it take it as
    an argument. *)
Definition make_store (lease : Z) : result string TaskStore :=
  raise_if ((lease <? 0) || (seconds 3600 <? lease)) "lease_seconds is out of bounds";;
  Ok (connect ∅).

Inductive TaskError :=
| TaskConflict
| TaskNotFound
| TaskLeaseError (code : string)
| TaskStoreError (code : string)
| ValidationError (message : string).

(** The exceptions the operations' handlers roll back; a pydantic [ValidationError] is not
    among them. *)
Definition handled (e : TaskError) : bool :=
  match e with ValidationError _ => false | _ => true end.

(** The frame of every operation. *)
Definition operation {A} : result TaskError () → (Rows → result TaskError (Rows * A)) →
    TaskStore → TaskStore * result TaskError A :=
  Sqlite.operation handled (TaskStoreError "store_closed") (TaskStoreError "task_store_unavailable").

(** ** Rows *)

Definition row_state (r : TaskRow) (state : TaskState) (expires : option Z)
    (receipt : option RunnerResultReceipt) : TaskRow := {|
  tr_task := tr_task r; tr_state := state; tr_runner_id := tr_runner_id r;
  tr_fencing_token := tr_fencing_token r; tr_lease_acquired_at := tr_lease_acquired_at r;
  tr_lease_expires_at := expires; tr_heartbeat := tr_heartbeat r; tr_receipt := receipt |}.

Definition row_heartbeat (r : TaskRow) (h : RunnerHeartbeat) : TaskRow := {|
  tr_task := tr_task r; tr_state := tr_state r; tr_runner_id := tr_runner_id r;
  tr_fencing_token := tr_fencing_token r; tr_lease_acquired_at := tr_lease_acquired_at r;
  tr_lease_expires_at := tr_lease_expires_at r; tr_heartbeat := Some h;
  tr_receipt := tr_receipt r |}.

(** The row [acquire] writes. *)
Definition row_leased (r : TaskRow) (l : TaskLease) : TaskRow := {|
  tr_task := tr_task r; tr_state := LEASED; tr_runner_id := Some (ls_runner_id l);
  tr_fencing_token := ls_fencing_token l; tr_lease_acquired_at := Some (ls_acquired_at l);
  tr_lease_expires_at := Some (ls_lease_expires_at l); tr_heartbeat := None;
  tr_receipt := tr_receipt r |}.

Definition new_row (t : RunnerTask) : TaskRow := {|
  tr_task := t; tr_state := QUEUED; tr_runner_id := None; tr_fencing_token := 0;
  tr_lease_acquired_at := None; tr_lease_expires_at := None; tr_heartbeat := None;
  tr_receipt := None |}.

(** [_require_row]. *)
Definition require_row (rows : Rows) (task_id : string) : result TaskError TaskRow :=
  match rows !! task_id with Some r => Ok r | None => Err TaskNotFound end.

(** [SELECT ... WHERE state='QUEUED' ORDER BY task_id LIMIT 1]. *)
Definition queued_ids (rows : Rows) : list string :=
  (filter (λ kr, tr_state kr.2 = QUEUED) (map_to_list rows)).*1.
Definition next_queued (rows : Rows) : option (string * TaskRow) :=
  task_id ← head (merge_sort String.le (queued_ids rows));
  r ← rows !! task_id;
  Some (task_id, r).

Section store.
Context `{Sha256, FloatRepr}.

(** [_lease_from_row]. *)
Definition lease_from_row (task_id : string) (r : TaskRow) : result TaskError TaskLease :=
  match tr_runner_id r, tr_lease_expires_at r, tr_lease_acquired_at r with
  | Some runner_id, Some expires, Some acquired =>
      match issue_lease task_id runner_id (tr_fencing_token r) acquired expires with
      | Ok l => Ok l
      | Err _ => Err (TaskLeaseError "lease_integrity_error")
      end
  | _, _, _ => Err (TaskLeaseError "lease_integrity_error")
  end.

(** [_check_lease]; [claim] is the runner and token of a heartbeat or receipt. *)
Definition check_lease (r : TaskRow) (l : TaskLease) (now : Z) (claim : option (string * Z))
    : result TaskError () :=
  let stale := TaskLeaseError "stale_lease" in
  raise_if (negb (bool_decide (tr_state r = LEASED))) stale;;
  match claim with
  | Some (runner_id, token) =>
      raise_if (negb (bool_decide (tr_runner_id r = Some runner_id))) stale;;
      raise_if (negb (tr_fencing_token r =? token)) stale
  | None => Ok ()
  end;;
  raise_if (negb (bool_decide (tr_runner_id r = Some (ls_runner_id l)))
            || negb (tr_fencing_token r =? ls_fencing_token l)) stale;;
  raise_if (ls_lease_expires_at l <=? now) (TaskLeaseError "lease_expired").

(** ** Operations *)

(** [enqueue]. *)
Definition enqueue_body (t : RunnerTask) (rows : Rows) : result TaskError (Rows * RunnerTask) :=
  match rows !! tk_task_id t with
  | Some r =>
      raise_if (negb (bool_decide (tk_task_digest (tr_task r) = tk_task_digest t))) TaskConflict;;
      Ok (rows, tr_task r)
  | None => Ok (<[tk_task_id t := new_row t]> rows, t)
  end.
Definition enqueue (t : RunnerTask) : TaskStore → TaskStore * result TaskError RunnerTask :=
  operation (revalidate (validate_task t) (TaskStoreError "invalid_task")) (enqueue_body t).

(** What [RunnerAuthorizer.authorize] does: answer, or raise. *)
Inductive Authorization := Answers (authorized : bool) | Raises.
Definition Authorizer : Type := string → string → string → string → string → Authorization.

(** [acquire]; [None] is a store built without an authorizer. *)
Definition authorize (authorizer : option Authorizer) (runner_id : string) (t : RunnerTask)
    : result TaskError () :=
  match authorizer with
  | None => Err (TaskLeaseError "runner_authorization_unavailable")
  | Some f =>
      match f runner_id (tk_tenant_id t) (tk_environment_id t) (tk_runner_pool t)
              (tk_capability t) with
      | Raises => Err (TaskLeaseError "runner_authorization_unavailable")
      | Answers b => raise_if (negb b) (TaskLeaseError "runner_unauthorized")
      end
  end.
Definition acquire_body (authorizer : option Authorizer) (lease : Z) (runner_id : string) (now : Z)
    (rows : Rows) : result TaskError (Rows * option TaskLease) :=
  match next_queued rows with
  | None => Ok (rows, None)
  | Some (task_id, r) =>
      if tk_deadline (tr_task r) <=? now then
        Ok (<[task_id := row_state r EXPIRED (tr_lease_expires_at r) (tr_receipt r)]> rows, None)
      else
        authorize authorizer runner_id (tr_task r);;
        l ← escaping ValidationError (issue_lease task_id runner_id (tr_fencing_token r + 1) now (now + lease));
        Ok (<[task_id := row_leased r l]> rows, Some l)
  end.
Definition acquire (authorizer : option Authorizer) (lease : Z) (runner_id : string) (now : Z)
    : TaskStore → TaskStore * result TaskError (option TaskLease) :=
  operation (Ok ()) (acquire_body authorizer lease runner_id now).

(** [renew]: the expiry compared with the clock is the one of the lease passed in. *)
Definition renew_body (l : TaskLease) (lease now : Z) (rows : Rows)
    : result TaskError (Rows * TaskLease) :=
  r ← require_row rows (ls_task_id l);
  check_lease r l now None;;
  renewed ← escaping ValidationError (issue_lease (ls_task_id l) (ls_runner_id l) (ls_fencing_token l)
                        (ls_acquired_at l) (now + lease));
  Ok (<[ls_task_id l :=
        row_state r (tr_state r) (Some (ls_lease_expires_at renewed)) (tr_receipt r)]> rows, renewed).
Definition renew (l : TaskLease) (lease now : Z)
    : TaskStore → TaskStore * result TaskError TaskLease :=
  operation (revalidate (validate_lease l) (TaskLeaseError "invalid_lease"))
    (renew_body l lease now).

(** [heartbeat]. *)
Definition heartbeat_body (h : RunnerHeartbeat) (now : Z) (rows : Rows)
    : result TaskError (Rows * RunnerHeartbeat) :=
  r ← require_row rows (hb_task_id h);
  l ← lease_from_row (hb_task_id h) r;
  check_lease r l now (Some (hb_runner_id h, hb_fencing_token h));;
  Ok (<[hb_task_id h := row_heartbeat r h]> rows, h).
Definition heartbeat (h : RunnerHeartbeat) (now : Z)
    : TaskStore → TaskStore * result TaskError RunnerHeartbeat :=
  operation (revalidate (validate_heartbeat h) (TaskLeaseError "invalid_heartbeat"))
    (heartbeat_body h now).

(** [complete]; [now] defaults to the receipt's own completion time. *)
Definition complete_body (v : RunnerResultReceipt) (now : Z) (rows : Rows)
    : result TaskError (Rows * RunnerResultReceipt) :=
  r ← require_row rows (rr_task_id v);
  match tr_receipt r with
  | Some existing =>
      raise_if (negb (bool_decide (existing = v))) TaskConflict;; Ok (rows, existing)
  | None =>
      l ← lease_from_row (rr_task_id v) r;
      check_lease r l now (Some (rr_runner_id v, rr_fencing_token v));;
      Ok (<[rr_task_id v := row_state r COMPLETED None (Some v)]> rows, v)
  end.
Definition complete (v : RunnerResultReceipt) (now : option Z)
    : TaskStore → TaskStore * result TaskError RunnerResultReceipt :=
  operation (revalidate (validate_receipt v) (TaskLeaseError "invalid_result_receipt"))
    (complete_body v (default (rr_completed_at v) now)).

(** [recover]'s decision from the last heartbeat. *)
Definition recovery_action (h : option RunnerHeartbeat) : RecoveryAction * option string :=
  match h with
  | Some h' =>
      if bool_decide (hb_effect_boundary h' = Some false) then
        match hb_checkpoint_digest h' with
        | Some checkpoint => (RETRY_FROM_CHECKPOINT, Some checkpoint)
        | None => (VERIFY_OR_RECONCILE, None)
        end
      else (VERIFY_OR_RECONCILE, None)
  | None => (VERIFY_OR_RECONCILE, None)
  end.
Definition recovery_reason (h : option RunnerHeartbeat) (action : RecoveryAction) : string :=
  match action with
  | RETRY_FROM_CHECKPOINT => "lease_expired_pre_effect"
  | VERIFY_OR_RECONCILE =>
      match h with
      | Some h' =>
          if bool_decide (hb_effect_boundary h' = Some true) then "lease_expired_post_effect"
          else "lease_expired_effect_unknown"
      | None => "lease_expired_effect_unknown"
      end
  end.
Definition recovered_state (action : RecoveryAction) : TaskState :=
  match action with RETRY_FROM_CHECKPOINT => QUEUED | VERIFY_OR_RECONCILE => VERIFYING end.

(** [recover]; the task is named by its id or by a lease. *)
Definition lease_mismatch (supplied : option TaskLease) (l : TaskLease) : bool :=
  match supplied with
  | Some l' => negb (bool_decide (ls_runner_id l' = ls_runner_id l)
                     && (ls_fencing_token l' =? ls_fencing_token l))
  | None => false
  end.
Definition recover_body (task_id : string) (supplied : option TaskLease) (now : Z) (rows : Rows)
    : result TaskError (Rows * RecoveryDirective) :=
  r ← require_row rows task_id;
  raise_if (negb (bool_decide (tr_state r = LEASED))) (TaskLeaseError "task_not_recoverable");;
  l ← lease_from_row task_id r;
  raise_if (lease_mismatch supplied l) (TaskLeaseError "stale_lease");;
  raise_if (now <? ls_lease_expires_at l) (TaskLeaseError "lease_active");;
  let '(action, checkpoint) := recovery_action (tr_heartbeat r) in
  directive ← escaping ValidationError (issue_directive task_id action checkpoint
                          (recovery_reason (tr_heartbeat r) action));
  Ok (<[task_id := row_state r (recovered_state action) None (tr_receipt r)]> rows, directive).
Definition recover (task : string + TaskLease) (now : Z)
    : TaskStore → TaskStore * result TaskError RecoveryDirective :=
  match task with
  | inl task_id => operation (Ok ()) (recover_body task_id None now)
  | inr l => operation (revalidate (validate_lease l) (TaskLeaseError "invalid_lease"))
               (recover_body (ls_task_id l) (Some l) now)
  end.

(** [get]. *)
Definition get (s : TaskStore) (task_id : string) : result TaskError (option RunnerTask) :=
  ensure_open (TaskStoreError "store_closed") s;; Ok (tr_task <$> cn_data s !! task_id).

End store.

(** ** Histories *)

Section histories.
Context `{Sha256, FloatRepr}.

(** One call, by anyone with any arguments at any time, whatever it returns. *)
Inductive step : TaskStore → TaskStore → Prop :=
| step_enqueue t s : step s (enqueue t s).1
| step_acquire authorizer lease runner_id now s :
    step s (acquire authorizer lease runner_id now s).1
| step_renew l lease now s : step s (renew l lease now s).1
| step_heartbeat h now s : step s (heartbeat h now s).1
| step_complete v now s : step s (complete v now s).1
| step_recover task now s : step s (recover task now s).1
| step_close s : step s (close s).

(** The stores a program can get to. *)
Definition reachable (s : TaskStore) : Prop :=
  ∃ lease s0, make_store lease = Ok s0 ∧ star step s0 s.

(** The invariant of a row. *)
Definition row_lease_ok (r : TaskRow) : Prop :=
  ∃ runner_id acquired expires, tr_runner_id r = Some runner_id ∧
    tr_lease_acquired_at r = Some acquired ∧ tr_lease_expires_at r = Some expires ∧
    token_ok (tr_fencing_token r) = true.

Record row_ok (task_id : string) (r : TaskRow) : Prop := {
  row_id : tk_task_id (tr_task r) = task_id;
  row_task : validate_task (tr_task r) = Ok ();
  row_leased_ok : tr_state r = LEASED → row_lease_ok r;
  row_unleased : tr_state r ≠ LEASED → tr_lease_expires_at r = None;
  row_completed : tr_state r = COMPLETED ↔ tr_receipt r ≠ None;
  row_receipt : ∀ v, tr_receipt r = Some v →
    tr_runner_id r = Some (rr_runner_id v) ∧ tr_fencing_token r = rr_fencing_token v;
  row_beat : ∀ h, tr_heartbeat r = Some h → heartbeat_fields_ok h = true ∧
    tr_runner_id r = Some (hb_runner_id h) ∧ tr_fencing_token r = hb_fencing_token h }.

Definition store_ok (s : TaskStore) : Prop := map_Forall row_ok (cn_data s).

(** What an operation may do to an existing row. *)
Inductive row_move (task_id : string) (r : TaskRow) : TaskRow → Prop :=
| mv_expire : tr_state r = QUEUED →
    row_move task_id r (row_state r EXPIRED (tr_lease_expires_at r) (tr_receipt r))
| mv_acquire l : tr_state r = QUEUED → validate_lease l = Ok () →
    ls_fencing_token l = tr_fencing_token r + 1 → row_move task_id r (row_leased r l)
| mv_renew expires : tr_state r = LEASED →
    row_move task_id r (row_state r (tr_state r) (Some expires) (tr_receipt r))
| mv_heartbeat h : tr_state r = LEASED → heartbeat_fields_ok h = true →
    tr_runner_id r = Some (hb_runner_id h) → tr_fencing_token r = hb_fencing_token h →
    row_move task_id r (row_heartbeat r h)
| mv_complete v : tr_state r = LEASED →
    tr_runner_id r = Some (rr_runner_id v) → tr_fencing_token r = rr_fencing_token v →
    row_move task_id r (row_state r COMPLETED None (Some v))
| mv_recover action : tr_state r = LEASED → action = (recovery_action (tr_heartbeat r)).1 →
    row_move task_id r (row_state r (recovered_state action) None (tr_receipt r)).

(** What an operation may do to the rows. *)
Inductive writes (rows : Rows) : Rows → Prop :=
| wr_none : writes rows rows
| wr_insert t : rows !! tk_task_id t = None → validate_task t = Ok () →
    writes rows (<[tk_task_id t := new_row t]> rows)
| wr_update task_id r r' : rows !! task_id = Some r → row_move task_id r r' →
    writes rows (<[task_id := r']> rows).
#[local] Hint Constructors writes row_move : core.

(** *** What each operation does to the rows *)

Lemma require_row_ok rows task_id r : require_row rows task_id = Ok r ↔ rows !! task_id = Some r.
Proof. unfold require_row. destruct (rows !! task_id); split; congruence. Qed.

Lemma check_lease_ok r l now claim :
  check_lease r l now claim = Ok () ↔
  tr_state r = LEASED ∧ tr_runner_id r = Some (ls_runner_id l) ∧
  tr_fencing_token r = ls_fencing_token l ∧ now < ls_lease_expires_at l ∧
  match claim with
  | Some (runner_id, token) => tr_runner_id r = Some runner_id ∧ tr_fencing_token r = token
  | None => True
  end.
Proof.
  unfold check_lease, raise_if. rewrite <-(Z.leb_gt (ls_lease_expires_at l) now).
  destruct (tr_fencing_token r =? ls_fencing_token l) eqn:Ht;
    (rewrite Z.eqb_eq in Ht || rewrite Z.eqb_neq in Ht);
    destruct claim as [[runner_id token]|];
    try (destruct (tr_fencing_token r =? token) eqn:Ht';
      (rewrite Z.eqb_eq in Ht' || rewrite Z.eqb_neq in Ht'));
    destruct (ls_lease_expires_at l <=? now); repeat case_bool_decide; simpl; naive_solver.
Qed.

Lemma next_queued_Some rows task_id r :
  next_queued rows = Some (task_id, r) →
  rows !! task_id = Some r ∧ tr_state r = QUEUED ∧
  ∀ task_id' r', rows !! task_id' = Some r' → tr_state r' = QUEUED → String.le task_id task_id'.
Proof.
  unfold next_queued. destruct (head _) as [k|] eqn:Hh; [|done]. simpl.
  destruct (rows !! k) as [r0|] eqn:Hk; [|done]. simpl. intros [= <- <-].
  assert (∀ k', k' ∈ queued_ids rows ↔ ∃ r', rows !! k' = Some r' ∧ tr_state r' = QUEUED) as Hin.
  { intros k'. unfold queued_ids. rewrite list_elem_of_fmap. split.
    - intros ([k1 r1] & -> & [Hq Hr]%list_elem_of_filter). exists r1. split; [|done].
      by apply elem_of_map_to_list.
    - intros (r' & Hr & Hq). exists (k', r'). split; [done|]. apply list_elem_of_filter.
      split; [done|]. by apply elem_of_map_to_list. }
  pose proof (StronglySorted_merge_sort String.le (queued_ids rows)) as Hs.
  destruct (merge_sort _ _) as [|k1 l] eqn:Hm; [done|]. injection Hh as ->.
  assert (k ∈ queued_ids rows) as Hq.
  { rewrite <-(merge_sort_Permutation String.le), Hm. left. }
  apply Hin in Hq as (r' & Hr' & Hq). simplify_eq. split_and!; [done|done|].
  intros k' r' Hr'' Hq'. assert (k' ∈ queued_ids rows) as He by (apply Hin; eauto).
  rewrite <-(merge_sort_Permutation String.le), Hm in He.
  apply elem_of_cons in He as [->|He]; [reflexivity|].
  apply StronglySorted_cons in Hs as [Ha _]. rewrite Forall_forall in Ha. by apply Ha.
Qed.

Lemma enqueue_writes t rows rows' t' :
  validate_task t = Ok () → enqueue_body t rows = Ok (rows', t') → writes rows rows'.
Proof.
  intros Hv. unfold enqueue_body. destruct (rows !! _) as [r|] eqn:Hr.
  - rewrite raise_if_then. by intros [_ [= <- <-]].
  - intros [= <- <-]. by constructor.
Qed.

Lemma acquire_cases authorizer lease runner_id now rows rows' x :
  acquire_body authorizer lease runner_id now rows = Ok (rows', x) →
  (x = None ∧ writes rows rows') ∨
  ∃ r l, x = Some l ∧ rows !! ls_task_id l = Some r ∧ tr_state r = QUEUED ∧
    validate_lease l = Ok () ∧ ls_runner_id l = runner_id ∧ ls_acquired_at l = now ∧
    ls_lease_expires_at l = now + lease ∧
    ls_fencing_token l = tr_fencing_token r + 1 ∧ authorize authorizer runner_id (tr_task r) = Ok () ∧
    now < tk_deadline (tr_task r) ∧ rows' = <[ls_task_id l := row_leased r l]> rows.
Proof.
  unfold acquire_body. destruct (next_queued rows) as [[k r]|] eqn:Hn; [|intros [= <- <-]; auto].
  apply next_queued_Some in Hn as (Hr & Hq & _).
  destruct (_ <=? now) eqn:Hd; boolify.
  - intros [= <- <-]. left. split; [done|]. eapply wr_update; eauto.
  - rewrite bind_ok. intros ([] & Ha & (l & Hl%escaping_ok & [= <- <-])%bind_ok).
    apply issue_lease_ok in Hl as [Hv El]. rewrite El in *. right. exists r. eexists.
    split_and!; eauto.
Qed.

Lemma renew_cases l lease now rows rows' l' :
  renew_body l lease now rows = Ok (rows', l') →
  ls_task_id l' = ls_task_id l ∧ ls_runner_id l' = ls_runner_id l ∧
  ls_fencing_token l' = ls_fencing_token l ∧
  ∃ r, rows !! ls_task_id l = Some r ∧ check_lease r l now None = Ok () ∧
    rows' = <[ls_task_id l := row_state r (tr_state r) (Some (ls_lease_expires_at l'))
               (tr_receipt r)]> rows.
Proof.
  unfold renew_body.
  intros (r & Hr%require_row_ok & ([] & Hc & (l1 & Hl%escaping_ok & [= <- <-])%bind_ok)%bind_ok)%bind_ok.
  apply issue_lease_ok in Hl as [_ El]. rewrite El. simpl. eauto 10.
Qed.

Lemma heartbeat_cases h now rows rows' h' :
  heartbeat_body h now rows = Ok (rows', h') →
  ∃ r, rows !! hb_task_id h = Some r ∧ tr_state r = LEASED ∧
    tr_runner_id r = Some (hb_runner_id h) ∧ tr_fencing_token r = hb_fencing_token h ∧
    rows' = <[hb_task_id h := row_heartbeat r h]> rows ∧ h' = h.
Proof.
  unfold heartbeat_body.
  intros (r & Hr%require_row_ok & (l & Hl & ([] & Hc & [= <- <-])%bind_ok)%bind_ok)%bind_ok.
  apply check_lease_ok in Hc as (Hs & _ & _ & _ & Hi & Ht). eauto 10.
Qed.

Lemma complete_cases v now rows rows' v' :
  complete_body v now rows = Ok (rows', v') →
  v' = v ∧ ∃ r, rows !! rr_task_id v = Some r ∧
    ((tr_receipt r = Some v ∧ rows' = rows) ∨
     (tr_receipt r = None ∧ tr_state r = LEASED ∧ tr_runner_id r = Some (rr_runner_id v) ∧
      tr_fencing_token r = rr_fencing_token v ∧
      rows' = <[rr_task_id v := row_state r COMPLETED None (Some v)]> rows)).
Proof.
  unfold complete_body. intros (r & Hr%require_row_ok & Hb)%bind_ok.
  destruct (tr_receipt r) as [e|] eqn:He.
  - apply raise_if_then in Hb as [Hd [= <- <-]]. boolify. subst. eauto 10.
  - apply bind_ok in Hb as (l & Hl & ([] & Hc & [= <- <-])%bind_ok).
    apply check_lease_ok in Hc as (Hs & _ & _ & _ & Hi & Ht). eauto 12.
Qed.

Lemma recover_cases task_id supplied now rows rows' d :
  recover_body task_id supplied now rows = Ok (rows', d) →
  rd_task_id d = task_id ∧
  ∃ r l, rows !! task_id = Some r ∧ tr_state r = LEASED ∧ lease_from_row task_id r = Ok l ∧
    lease_mismatch supplied l = false ∧ ls_lease_expires_at l ≤ now ∧
    (rd_action d, rd_checkpoint_digest d) = recovery_action (tr_heartbeat r) ∧
    rows' = <[task_id := row_state r (recovered_state (rd_action d)) None (tr_receipt r)]> rows.
Proof.
  unfold recover_body.
  intros (r & Hr%require_row_ok & [Hs (l & Hl & [Hm [He Hd]%raise_if_then]%raise_if_then)%bind_ok]%raise_if_then)%bind_ok.
  destruct (recovery_action _) as [action checkpoint] eqn:Ha.
  apply bind_ok in Hd as (d' & Hd%escaping_ok & [= <- <-]).
  apply issue_directive_ok in Hd as (Hd1 & Hd2 & Hd3 & _). boolify. subst. eauto 15.
Qed.

Lemma task_step_writes s s' : step s s' → writes (cn_data s) (cn_data s').
Proof.
  intros Hs.
  destruct Hs as [t s|authorizer lease runner_id now s|l lease now s|h now s|v now s|task now s|s];
    [destruct (enqueue t s) as [s1 x] eqn:E
    |destruct (acquire authorizer lease runner_id now s) as [s1 x] eqn:E
    |destruct (renew l lease now s) as [s1 x] eqn:E|destruct (heartbeat h now s) as [s1 x] eqn:E
    |destruct (complete v now s) as [s1 x] eqn:E
    |destruct task as [task_id|l]; [destruct (recover (inl task_id) now s) as [s1 x] eqn:E
                                   |destruct (recover (inr l) now s) as [s1 x] eqn:E]
    |by unfold close; destruct (cn_closed s); apply wr_none];
    cbn [fst]; apply operation_cases in E as [(-> & _)|(rows & a & _ & Hc & Hb & -> & _)];
    try apply wr_none; cbn [cn_data with_data].
  - apply revalidate_ok in Hc. by eapply enqueue_writes.
  - apply acquire_cases in Hb as [[_ Hb]|(r & l & _ & Hr & Hq & Hv & _ & _ & _ & Ht & _ & _ & ->)];
      [done|]. eapply wr_update; eauto.
  - apply renew_cases in Hb as (_ & _ & _ & r & Hr & (Hs & _)%check_lease_ok & ->).
    eapply wr_update; eauto.
  - apply revalidate_ok, validate_heartbeat_ok in Hc.
    apply heartbeat_cases in Hb as (r & Hr & Hs & Hi & Ht & -> & _). eapply wr_update; eauto.
  - apply complete_cases in Hb as (_ & r & Hr & [[_ ->]|(_ & Hs & Hi & Ht & ->)]); [constructor|].
    eapply wr_update; eauto.
  - apply recover_cases in Hb as (_ & r & l & Hr & Hs & _ & _ & _ & Ha & ->).
    eapply wr_update; [done|]. apply mv_recover; [done|]. by rewrite <-Ha.
  - apply recover_cases in Hb as (_ & r & l' & Hr & Hs & _ & _ & _ & Ha & ->).
    eapply wr_update; [done|]. apply mv_recover; [done|]. by rewrite <-Ha.
Qed.

(** *** The invariant and the order on rows *)

Lemma row_move_ok task_id r r' : row_ok task_id r → row_move task_id r r' → row_ok task_id r'.
Proof.
  intros [Hid Ht Hl Hu Hc Hr Hb].
  assert (tr_state r ≠ COMPLETED → tr_receipt r = None) as Hn.
  { destruct (tr_receipt r); [|done]. intros Hne. destruct Hne. by apply Hc. }
  intros [Hq|l Hq Hv Hk|e Hs|h Hs Hf Hi Hk|v Hs Hi Hk|action Hs Ha];
    split; cbn [row_state row_leased row_heartbeat tr_task tr_state tr_runner_id tr_fencing_token
      tr_lease_acquired_at tr_lease_expires_at tr_heartbeat tr_receipt]; try done.
  - intros _. apply Hu. by rewrite Hq.
  - by rewrite Hn by (by rewrite Hq).
  - intros _. apply validate_lease_ok in Hv as [Hv _]. unfold lease_fields_ok in Hv. boolify.
    exists (ls_runner_id l), (ls_acquired_at l), (ls_lease_expires_at l). by split_and!.
  - by rewrite Hn by (by rewrite Hq).
  - by rewrite Hn by (by rewrite Hq).
  - intros _. destruct (Hl Hs) as (x & a & e0 & H1 & H2 & H3 & H4). exists x, a, e. by split_and!.
  - by intros h' [= <-].
  - by intros v' [= <-].
  - destruct action; done.
  - rewrite Hn by (by rewrite Hs). by destruct action.
Qed.

(** [r'] is a later state of the row [r]. *)
Record row_le (r r' : TaskRow) : Prop := {
  le_task : tr_task r' = tr_task r;
  le_token : tr_fencing_token r ≤ tr_fencing_token r';
  le_runner : tr_fencing_token r = tr_fencing_token r' → tr_runner_id r' = tr_runner_id r;
  le_unleased : tr_fencing_token r = tr_fencing_token r' → tr_state r' = LEASED → tr_state r = LEASED;
  le_final : tr_state r ∈ [COMPLETED; EXPIRED; VERIFYING] → r' = r }.

#[export] Instance row_le_preorder : PreOrder row_le.
Proof.
  split.
  - intros r. by split.
  - intros r1 r2 r3 [A1 A2 A3 A4 A5] [B1 B2 B3 B4 B5]. split.
    + congruence.
    + lia.
    + intros E. rewrite B3, A3 by lia. done.
    + intros E Hl. apply A4; [lia|]. apply B4; [lia|done].
    + intros Hf. pose proof (A5 Hf). subst. auto.
Qed.

Lemma row_move_le task_id r r' : row_move task_id r r' → row_le r r'.
Proof.
  intros [Hq|l Hq Hv Hk|e Hs|h Hs Hf Hi Hk|v Hs Hi Hk|action Hs Ha];
    split; cbn [row_state row_leased row_heartbeat tr_task tr_state tr_runner_id tr_fencing_token];
    try done; try lia; rewrite ?Hq, ?Hs; set_solver.
Qed.

Lemma task_writes_ok rows rows' : writes rows rows' → map_Forall row_ok rows → map_Forall row_ok rows'.
Proof.
  intros [|t Hn Hv|k r r' Hr Hm] Hok; [done|..].
  - apply map_Forall_insert_2; [|done]. split; simpl; try done; naive_solver.
  - apply map_Forall_insert_2; [|done]. eapply row_move_ok; [|done]. by apply Hok.
Qed.

Lemma task_writes_le rows rows' task_id r :
  writes rows rows' → rows !! task_id = Some r → ∃ r', rows' !! task_id = Some r' ∧ row_le r r'.
Proof.
  intros [|t Hn Hv|k r1 r1' Hr Hm] Hk.
  - by exists r.
  - exists r. split; [|done]. rewrite lookup_insert_ne; congruence.
  - destruct (decide (k = task_id)) as [->|Hne].
    + rewrite lookup_insert_eq. simplify_eq. eauto using row_move_le.
    + rewrite lookup_insert_ne by done. by exists r.
Qed.

Lemma reachable_star s s' : reachable s → star step s s' → reachable s'.
Proof. intros (lease & s0 & Hm & Hs) Hs'. exists lease, s0. eauto using star_trans. Qed.

Lemma task_reachable_ok s : reachable s → store_ok s.
Proof.
  intros (lease & s0 & Hm & Hs). apply (star_invariant step store_ok s0 s); [|..|done].
  - intros x y Hx Hxy. eapply task_writes_ok; [by apply task_step_writes|done].
  - unfold make_store in Hm. apply raise_if_then in Hm as [_ [= <-]]. apply map_Forall_empty.
Qed.

Lemma task_entries s s' task_id r :
  star step s s' → cn_data s !! task_id = Some r →
  ∃ r', cn_data s' !! task_id = Some r' ∧ row_le r r'.
Proof.
  intros Hs Hr.
  eapply (star_entries step (λ _, True) (λ s k, cn_data s !! k) row_le); [done|..|done|done|done].
  intros s1 s2 k r1 _ Hw%task_step_writes. by apply task_writes_le.
Qed.

Lemma acquire_ok authorizer lease runner_id now s s' l :
  acquire authorizer lease runner_id now s = (s', Ok (Some l)) →
  ∃ r, cn_data s !! ls_task_id l = Some r ∧ tr_state r = QUEUED ∧
    ls_fencing_token l = tr_fencing_token r + 1 ∧ ls_runner_id l = runner_id ∧
    authorize authorizer runner_id (tr_task r) = Ok () ∧ now < tk_deadline (tr_task r) ∧
    cn_data s' !! ls_task_id l = Some (row_leased r l).
Proof.
  intros (_ & _ & _ & rows & Hb & ->)%operation_ok.
  apply acquire_cases in Hb as [[? _]|(r & l' & [= <-] & Hr & Hq & _ & Hi & _ & _ & Ht & Ha & Hd & ->)];
    [done|]. exists r. split_and!; try done. cbn [with_data cn_data]. apply lookup_insert_eq.
Qed.

(** *** Theorems *)

(** C11. Fencing: once a runner has acquired a task, whatever calls anyone makes in between,
    every later acquisition of the task carries a strictly larger token, and every renewal,
    heartbeat or result that is accepted for it carries at least this token, and exactly this
    runner if it carries this token: the holders before this acquisition are shut out. *)
Theorem fencing_excludes_stale_holders authorizer lease runner_id now s0 s1 l s2 :
  reachable s0 → acquire authorizer lease runner_id now s0 = (s1, Ok (Some l)) → star step s1 s2 →
  let current token id := ls_fencing_token l ≤ token ∧
    (token = ls_fencing_token l → id = ls_runner_id l) in
  (∀ a n i t s3 l', acquire a n i t s2 = (s3, Ok (Some l')) → ls_task_id l' = ls_task_id l →
    ls_fencing_token l < ls_fencing_token l') ∧
  (∀ l0 n t s3 l', renew l0 n t s2 = (s3, Ok l') → ls_task_id l0 = ls_task_id l →
    current (ls_fencing_token l0) (ls_runner_id l0)) ∧
  (∀ h t s3 h', heartbeat h t s2 = (s3, Ok h') → hb_task_id h = ls_task_id l →
    current (hb_fencing_token h) (hb_runner_id h)) ∧
  (∀ v t s3 v', complete v t s2 = (s3, Ok v') → rr_task_id v = ls_task_id l →
    current (rr_fencing_token v) (rr_runner_id v)).
Proof.
  intros Hre Ha Hs current.
  assert (store_ok s2) as Hok.
  { apply task_reachable_ok. eapply reachable_star; [|done]. eapply reachable_star; [done|].
    apply star_one. pose proof (step_acquire authorizer lease runner_id now s0) as Hst.
    by rewrite Ha in Hst. }
  apply acquire_ok in Ha as (r & _ & _ & _ & _ & _ & _ & Hr1).
  destruct (task_entries _ _ _ _ Hs Hr1) as (r2 & Hr2 & Hle). destruct Hle as [_ Htok Hrun _ _].
  cbn [row_leased tr_fencing_token tr_runner_id] in Htok, Hrun.
  assert (∀ token id, tr_fencing_token r2 = token → tr_runner_id r2 = Some id → current token id)
    as Hcur.
  { intros token id Ht Hi. subst current. cbv beta. split; [lia|].
    intros E. rewrite Hrun in Hi by lia. congruence. }
  split_and!.
  - intros a n i t s3 l' (r' & Hr' & _ & Ht & _)%acquire_ok E. rewrite E in Hr'. simplify_eq. lia.
  - intros l0 n t s3 l' (_ & _ & _ & rows & Hb & _)%operation_ok E.
    apply renew_cases in Hb as (_ & _ & _ & r' & Hr' & (_ & Hi & Ht & _)%check_lease_ok & _).
    rewrite E in Hr'. simplify_eq. auto.
  - intros h t s3 h' (_ & _ & _ & rows & Hb & _)%operation_ok E.
    apply heartbeat_cases in Hb as (r' & Hr' & _ & Hi & Ht & _). rewrite E in Hr'. simplify_eq. auto.
  - intros v t s3 v' (_ & _ & _ & rows & Hb & _)%operation_ok E.
    apply complete_cases in Hb as (_ & r' & Hr' & Hcase). rewrite E in Hr'. simplify_eq.
    destruct Hcase as [[Hv _]|(_ & _ & Hi & Ht & _)]; [|auto].
    destruct (row_receipt _ _ (Hok _ _ Hr2) _ Hv); auto.
Qed.

(** A lease can be read back from a row the invariant holds of, unless a renewal moved its
    expiry before its acquisition. *)
Lemma lease_from_row_ok task_id r runner_id acquired expires :
  Identifier_ok task_id = true → Identifier_ok runner_id = true →
  token_ok (tr_fencing_token r) = true → acquired < expires →
  tr_runner_id r = Some runner_id → tr_lease_acquired_at r = Some acquired →
  tr_lease_expires_at r = Some expires →
  ∃ l, lease_from_row task_id r = Ok l ∧ ls_runner_id l = runner_id ∧
    ls_fencing_token l = tr_fencing_token r ∧ ls_lease_expires_at l = expires.
Proof.
  intros Ht Hi Hk Ha E1 E2 E3. unfold lease_from_row. rewrite E1, E2, E3.
  pose proof (issue_lease_total _ _ _ _ _ Ht Hi Hk Ha) as Hok.
  destruct (issue_lease _ _ _ _ _) as [l|] eqn:El; [|done].
  apply issue_lease_ok in El as [_ ->]. eauto.
Qed.

(** A final row refuses every further acquisition. *)
Lemma final_never_acquired authorizer lease runner_id now s s' l r :
  tr_state r ≠ QUEUED → cn_data s !! ls_task_id l = Some r →
  acquire authorizer lease runner_id now s ≠ (s', Ok (Some l)).
Proof. intros Hq Hr (r' & Hr' & Hq' & _)%acquire_ok. congruence. Qed.

(** C12. Recovery is decided by the last heartbeat of the lease that expired: a directive is
    only given for a leased task whose lease has run out; it says retry exactly when the last
    heartbeat, sent under that lease's token, reports no effect and names a checkpoint, which
    the directive repeats, and then the task is queued again under the same token; otherwise
    the effect may have happened, and no later acquisition ever hands the task out. *)
Theorem recover_requeues_only_before_effect task now s s' d :
  reachable s → recover task now s = (s', Ok d) →
  ∃ r r' expires, cn_data s !! rd_task_id d = Some r ∧ cn_data s' !! rd_task_id d = Some r' ∧
    tr_state r = LEASED ∧ tr_lease_expires_at r = Some expires ∧ expires ≤ now ∧
    (rd_action d = RETRY_FROM_CHECKPOINT ↔ ∃ h c, tr_heartbeat r = Some h ∧
      hb_fencing_token h = tr_fencing_token r ∧ tr_runner_id r = Some (hb_runner_id h) ∧
      hb_effect_boundary h = Some false ∧ hb_checkpoint_digest h = Some c ∧
      rd_checkpoint_digest d = Some c) ∧
    (rd_action d = RETRY_FROM_CHECKPOINT →
      tr_state r' = QUEUED ∧ tr_fencing_token r' = tr_fencing_token r) ∧
    (rd_action d = VERIFY_OR_RECONCILE → ∀ s2 authorizer lease runner_id t s3 l,
      star step s' s2 → acquire authorizer lease runner_id t s2 = (s3, Ok (Some l)) →
      ls_task_id l ≠ rd_task_id d).
Proof.
  intros Hre Hrec. pose proof (task_reachable_ok _ Hre) as Hok.
  assert (∃ task_id supplied rows, recover_body task_id supplied now (cn_data s) = Ok (rows, d) ∧
    s' = with_data s rows) as (k & supplied & rows & Hb & ->).
  { destruct task as [k|l]; apply operation_ok in Hrec as (_ & _ & _ & rows & Hb & ->); eauto. }
  apply recover_cases in Hb as (Ek & r & l & Hr & Hs & Hl & _ & He & Ha & ->). rewrite Ek.
  destruct (Hok _ _ Hr) as [_ _ Hlo _ _ _ Hbeat].
  destruct (Hlo Hs) as (runner_id & acquired & expires & E1 & E2 & E3 & _).
  unfold lease_from_row in Hl. rewrite E1, E2, E3 in Hl.
  destruct (issue_lease _ _ _ _ _) as [l'|] eqn:El; [|done]. injection Hl as ->.
  apply issue_lease_ok in El as [_ El]. rewrite El in He. cbn [ls_lease_expires_at] in He.
  exists r. eexists. exists expires. cbn [with_data cn_data]. rewrite lookup_insert_eq.
  split_and!; try done.
  - unfold recovery_action in Ha. split.
    + intros Hact. rewrite Hact in Ha. destruct (tr_heartbeat r) as [h|]; [|done].
      case_bool_decide; [|done]. destruct (hb_checkpoint_digest h) as [c|] eqn:Hc; [|done].
      injection Ha as Ha. destruct (Hbeat h eq_refl) as (_ & Hi & Ht). exists h, c. by split_and!.
    + intros (h & c & Hh & _ & _ & Hb & Hc & _). rewrite Hh, bool_decide_eq_true_2, Hc in Ha by done.
      congruence.
  - intros ->. done.
  - intros Hact s2 authorizer lease i t s3 l' Hstar Hacq Heq.
    destruct (task_entries _ _ k _ Hstar (lookup_insert_eq _ _ _)) as (r2 & Hr2 & Hle).
    rewrite (le_final _ _ Hle) in Hr2 by (rewrite Hact; set_solver).
    rewrite <-Heq in Hr2. eapply final_never_acquired; [|exact Hr2|exact Hacq]. by rewrite Hact.
Qed.

(** Results are final: the holder of a lease may complete its task at any time before the
    expiry, and once a result has been accepted, whatever calls follow, presenting it again
    returns it and changes nothing, and any other result for the task is a conflict. *)
Theorem complete_first_result_final authorizer lease runner_id now s0 s1 l v t :
  reachable s0 → acquire authorizer lease runner_id now s0 = (s1, Ok (Some l)) →
  validate_receipt v = Ok () → rr_task_id v = ls_task_id l → rr_runner_id v = ls_runner_id l →
  rr_fencing_token v = ls_fencing_token l → t < ls_lease_expires_at l →
  ∃ s2, complete v (Some t) s1 = (s2, Ok v) ∧
    ∀ s3 w t', star step s2 s3 → cn_closed s3 = false → cn_in_transaction s3 = false →
      validate_receipt w = Ok () → rr_task_id w = rr_task_id v →
      complete w t' s3 = (s3, if decide (w = v) then Ok v else Err TaskConflict).
Proof.
  intros Hre Ha Hv Ek Ei Et Hlt. pose proof (task_reachable_ok _ Hre) as Hok.
  pose proof Ha as (Ho & Htx & _ & rows & Hb & ->)%operation_ok.
  apply acquire_cases in Hb
    as [[? _]|(r & l' & [= <-] & Hr & Hq & Hl & _ & _ & _ & Htok & _ & _ & ->)]; [done|].
  destruct (Hok _ _ Hr) as [_ _ _ _ Hc _ _].
  apply validate_lease_ok in Hl as [Hf Hexp]. unfold lease_fields_ok in Hf. boolify.
  assert (tr_receipt r = None) as Hnone.
  { destruct (tr_receipt r); [|done]. rewrite Hq in Hc. by discriminate (proj2 Hc). }
  destruct (lease_from_row_ok (ls_task_id l) (row_leased r l) (ls_runner_id l) (ls_acquired_at l)
    (ls_lease_expires_at l)) as (l' & Hl' & Hli & Hlt' & Hle); try done.
  eexists. unfold complete, operation. rewrite operation_run by (rewrite ?revalidate_ok; done). change (default (rr_completed_at v) (Some t)) with t.
  cbn [with_data cn_data]. unfold complete_body.
  rewrite Ek. unfold require_row. rewrite lookup_insert_eq. cbn [mbind result_bind].
  replace (tr_receipt (row_leased r l)) with (@None RunnerResultReceipt) by done.
  rewrite Hl'. cbn [mbind result_bind].
  rewrite (proj2 (check_lease_ok (row_leased r l) l' t (Some (rr_runner_id v, rr_fencing_token v))))
    by (cbn [row_leased tr_state tr_runner_id tr_fencing_token] in *; split_and!; congruence || lia).
  cbn [mbind result_bind]. split; [done|].
  intros s3 w t' Hstar Hopen Hidle Hw Ew.
  destruct (task_entries _ _ (ls_task_id l) _ Hstar (lookup_insert_eq _ _ _)) as (r3 & Hr3 & Hle3).
  rewrite (le_final _ _ Hle3) in Hr3 by (cbn; set_solver).
  unfold complete, operation. rewrite operation_run by (rewrite ?revalidate_ok; done). unfold complete_body, require_row. rewrite Ew, Hr3.
  cbn [mbind result_bind row_state tr_receipt]. unfold raise_if.
  destruct (decide (w = v)) as [->|Hne].
  - rewrite bool_decide_eq_true_2 by done. cbn. destruct s3; done.
  - rewrite bool_decide_eq_false_2 by congruence. cbn. destruct s3. cbn in *. by subst.
Qed.

End histories.

(** ** A concrete run *)

#[local] Existing Instances example_sha256 example_float_repr.

Definition example_task : RunnerTask := {|
  tk_task_id := "task-1"; tk_tenant_id := "tenant"; tk_environment_id := "prod";
  tk_runner_pool := "pool"; tk_capability := "booking.submit"; tk_execution_id := "ex-1";
  tk_adapter_digest := value_digest JNull; tk_policy_digest := value_digest JNull;
  tk_input_digest := value_digest JNull; tk_created_at := 0; tk_deadline := seconds 3600;
  tk_payload := [("reference", JStr "r")]; tk_task_digest := value_digest JNull |}.

Definition everyone : Authorizer := λ _ _ _ _ _, Answers true.
Definition empty_store : TaskStore := connect ∅.
Definition queued_store : TaskStore := (enqueue example_task empty_store).1.
Definition leased_store : TaskStore := (acquire (Some everyone) (seconds 30) "runner-a" 0 queued_store).1.
Definition example_lease (runner_id : string) (token acquired expires : Z) : TaskLease := {|
  ls_task_id := "task-1"; ls_runner_id := runner_id; ls_fencing_token := token;
  ls_acquired_at := acquired; ls_lease_expires_at := expires;
  ls_lease_digest := value_digest JNull |}.
Definition example_heartbeat (effect : option bool) : RunnerHeartbeat := {|
  hb_task_id := "task-1"; hb_runner_id := "runner-a"; hb_fencing_token := 1;
  hb_step_id := "fill"; hb_effect_boundary := effect;
  hb_checkpoint_digest := Some (value_digest JNull); hb_artifact_upload_count := 0;
  hb_session_live := true; hb_occurred_at := seconds 5;
  hb_heartbeat_digest := value_digest JNull |}.
Definition example_receipt (runner_id : string) (token : Z) : RunnerResultReceipt := {|
  rr_task_id := "task-1"; rr_runner_id := runner_id; rr_fencing_token := token;
  rr_result_digest := value_digest JNull; rr_completed_at := seconds 20;
  rr_effect_boundary := Some true; rr_receipt_digest := value_digest JNull |}.
(** Heartbeat before the effect, lease lost, queued again and given to another runner. *)
Definition beaten_store : TaskStore :=
  (heartbeat (example_heartbeat (Some false)) (seconds 5) leased_store).1.
Definition requeued_store : TaskStore := (recover (inl "task-1") (seconds 31) beaten_store).1.
Definition released_store : TaskStore :=
  (acquire (Some everyone) (seconds 30) "runner-b" (seconds 40) requeued_store).1.

Example run_results :
  (enqueue example_task empty_store).2 = Ok example_task ∧
  (acquire (Some everyone) (seconds 30) "runner-b" (seconds 40) requeued_store).2
    = Ok (Some (example_lease "runner-b" 2 (seconds 40) (seconds 70))) ∧
  (complete (example_receipt "runner-a" 1) None released_store).2
    = Err (TaskLeaseError "stale_lease") ∧
  (complete (example_receipt "runner-b" 2) None released_store).2
    = Ok (example_receipt "runner-b" 2).
Proof. vm_compute. split_and!; reflexivity. Qed.

Lemma queued_reachable : reachable queued_store.
Proof.
  exists (seconds 30), empty_store. split; [reflexivity|]. apply star_one. apply step_enqueue.
Qed.

Lemma beaten_reachable : reachable beaten_store.
Proof.
  eapply reachable_star; [exact queued_reachable|].
  eapply star_step; [apply (step_acquire (Some everyone) (seconds 30) "runner-a" 0)|].
  apply star_one. apply step_heartbeat.
Qed.

Lemma fencing_excludes_stale_holders_witness :
  ls_fencing_token (example_lease "runner-a" 1 0 (seconds 30))
  < ls_fencing_token (example_lease "runner-b" 2 (seconds 40) (seconds 70)).
Proof.
  destruct (fencing_excludes_stale_holders (Some everyone) (seconds 30) "runner-a" 0 queued_store leased_store
    (example_lease "runner-a" 1 0 (seconds 30)) requeued_store) as [Hacq _].
  - exact queued_reachable.
  - vm_compute. reflexivity.
  - eapply star_step; [apply (step_heartbeat (example_heartbeat (Some false)) (seconds 5))|].
    apply star_one. apply (step_recover (inl "task-1") (seconds 31)).
  - apply (Hacq (Some everyone) (seconds 30) "runner-b" (seconds 40) released_store
      (example_lease "runner-b" 2 (seconds 40) (seconds 70))).
    + vm_compute. reflexivity.
    + reflexivity.
Defined.

Lemma recover_requeues_only_before_effect_witness :
  ∃ r', cn_data requeued_store !! "task-1" = Some r' ∧ tr_state r' = QUEUED.
Proof.
  destruct (recover_requeues_only_before_effect (inl "task-1") (seconds 31) beaten_store
    requeued_store {| rd_task_id := "task-1"; rd_action := RETRY_FROM_CHECKPOINT;
      rd_checkpoint_digest := Some (value_digest JNull);
      rd_reason_code := "lease_expired_pre_effect";
      rd_directive_digest := value_digest JNull |})
    as (r & r' & e & _ & Hr' & _ & _ & _ & _ & Hq & _).
  - exact beaten_reachable.
  - vm_compute. reflexivity.
  - exists r'. split; [exact Hr'|exact (proj1 (Hq eq_refl))].
Defined.

Lemma complete_first_result_final_witness :
  ∃ s2, complete (example_receipt "runner-a" 1) (Some (seconds 20)) leased_store
    = (s2, Ok (example_receipt "runner-a" 1)).
Proof.
  destruct (complete_first_result_final (Some everyone) (seconds 30) "runner-a" 0 queued_store leased_store
    (example_lease "runner-a" 1 0 (seconds 30)) (example_receipt "runner-a" 1) (seconds 20))
    as (s2 & Hc & _);
    [exact queued_reachable|vm_compute; reflexivity|vm_compute; reflexivity|reflexivity|reflexivity
    |reflexivity|reflexivity|].
  exists s2. exact Hc.
Defined.

(** A lease that has run out can be renewed by its holder: the expiry compared with the clock
    is the one the presented lease carries, and anyone can issue a lease with a later one. *)
Lemma expired_lease_renewed :
  tr_lease_expires_at <$> cn_data leased_store !! "task-1" = Some (Some (seconds 30)) ∧
  (heartbeat (example_heartbeat (Some false)) (seconds 35) leased_store).2
    = Err (TaskLeaseError "lease_expired") ∧
  validate_lease (example_lease "runner-a" 1 0 (seconds 99)) = Ok () ∧
  (renew (example_lease "runner-a" 1 0 (seconds 99)) (seconds 30) (seconds 35) leased_store).2
    = Ok (example_lease "runner-a" 1 0 (seconds 65)).
Proof. vm_compute. split_and!; reflexivity. Qed.

(** An authorized runner id that is no identifier makes [acquire] raise a validation error
    inside its transaction, and the next operation, whoever calls it, fails. *)
Lemma validation_error_leaves_transaction :
  let s := (acquire (Some everyone) (seconds 30) " runner" 0 queued_store).1 in
  (acquire (Some everyone) (seconds 30) " runner" 0 queued_store).2 = Err (ValidationError "field constraint") ∧
  cn_in_transaction s = true ∧
  (acquire (Some everyone) (seconds 30) "runner-a" 0 s).2 = Err (TaskStoreError "task_store_unavailable").
Proof. vm_compute. split_and!; reflexivity. Qed.

(** A runner that may not take the first queued task is refused even when it may take a later
    one. *)
Definition second_task : RunnerTask := {|
  tk_task_id := "task-2"; tk_tenant_id := "tenant"; tk_environment_id := "prod";
  tk_runner_pool := "other"; tk_capability := "booking.submit"; tk_execution_id := "ex-2";
  tk_adapter_digest := value_digest JNull; tk_policy_digest := value_digest JNull;
  tk_input_digest := value_digest JNull; tk_created_at := 0; tk_deadline := seconds 3600;
  tk_payload := []; tk_task_digest := value_digest JNull |}.
Definition other_pool : Authorizer := λ _ _ _ pool _, Answers (bool_decide (pool = "other")).

Lemma acquire_head_of_line :
  (acquire (Some other_pool) (seconds 30) "runner-b" 0 (enqueue second_task queued_store).1).2
  = Err (TaskLeaseError "runner_unauthorized").
Proof. vm_compute. reflexivity. Qed.
