(* ===== verification/Idempotency.v ===== *)
(** * Idempotent submission ledger (runtime/idempotency.py)

    The SQLite reservations that tie a tenant's idempotency key to one transaction and one
    workflow, and the lifecycle of the workflow start.  The table is a map from its primary
    key; [UPDATE ... WHERE transaction_id=?] touches one row because the column is unique.
    Timestamps are microseconds since the epoch, which the stored text keeps exactly. *)

From stdpp Require Import options.
From Stdlib Require Import Ascii String.
From S2P Require Import Prelude.
From S2P Require Import Contracts.

(** ** Reservations *)

Inductive SubmissionState := RESERVED | STARTED | START_FAILED.

#[export] Instance SubmissionState_eq_dec : EqDecision SubmissionState.
Proof. solve_decision. Defined.

Record SubmissionReservation := {
  rv_tenant_id : string;
  rv_idempotency_key : string;
  rv_transaction_id : string;
  rv_workflow_id : string;
  rv_business_digest : string;
  rv_state : SubmissionState;
  rv_created_at : Z;
  rv_updated_at : Z;
  rv_start_error_code : option string;
  rv_created : bool }.

Inductive SubmissionError :=
| ValueError (message : string)
| IdempotencyConflict
| SubmissionNotFound
| SubmissionIdentifierConflict
| InvalidSubmissionState (state : SubmissionState)
| ProgrammingError.

Notation Reservations := (gmap (string * string) SubmissionReservation).

Record SubmissionStore := { sb_closed : bool; sb_rows : Reservations }.

Definition empty_submissions : SubmissionStore := {| sb_closed := false; sb_rows := ∅ |}.

(** ** Argument checks *)

(** [_validate_identifier] and [_validate_error_code], up to the field named. *)
Definition validate_text (value : string) (maximum : Z) : result SubmissionError () :=
  raise_if (negb (stripped value) || bool_decide (value = ""))
    (ValueError "must be a non-empty, whitespace-trimmed string");;
  raise_if (maximum <? len value) (ValueError "must be at most the maximum length").
Definition validate_identifier (value : string) : result SubmissionError () :=
  validate_text value 256.
Definition validate_error_code (value : string) : result SubmissionError () :=
  validate_text value 128.

(** [_validate_business_digest]. *)
Definition validate_business_digest (value : string) : result SubmissionError () :=
  raise_if (negb (Digest_ok value)) (ValueError "business_digest must be a lowercase sha256 digest").

(** ** Rows *)

(** [_replace_reservation]: never a created one. *)
Definition replace_reservation (r : SubmissionReservation) (state : SubmissionState)
    (updated_at : Z) (error : option string) : SubmissionReservation := {|
  rv_tenant_id := rv_tenant_id r; rv_idempotency_key := rv_idempotency_key r;
  rv_transaction_id := rv_transaction_id r; rv_workflow_id := rv_workflow_id r;
  rv_business_digest := rv_business_digest r; rv_state := state;
  rv_created_at := rv_created_at r; rv_updated_at := updated_at; rv_start_error_code := error;
  rv_created := false |}.

Definition row_key (r : SubmissionReservation) : string * string :=
  (rv_tenant_id r, rv_idempotency_key r).

(** [SELECT ... WHERE transaction_id=?], [fetchone]. *)
Definition find_transaction (rows : Reservations) (transaction_id : string)
    : option SubmissionReservation :=
  head (filter (λ r, rv_transaction_id r = transaction_id) (map_to_list rows).*2).

(** The [UNIQUE] constraints an insert would violate. *)
Definition identifier_taken (rows : Reservations) (transaction_id workflow_id : string) : bool :=
  existsb (λ r, bool_decide (rv_transaction_id r = transaction_id)
                || bool_decide (rv_workflow_id r = workflow_id)) (map_to_list rows).*2.

(** [BEGIN IMMEDIATE] on a closed connection raises; every other exception rolls back. *)
Definition session {A} (body : Reservations → result SubmissionError (Reservations * A))
    (s : SubmissionStore) : SubmissionStore * result SubmissionError A :=
  transact (λ s,
    raise_if (sb_closed s) ProgrammingError;;
    '(rows, a) ← body (sb_rows s);
    Ok ({| sb_closed := sb_closed s; sb_rows := rows |}, a)) s.

(** The argument checks precede the session. *)
Definition checked {A} (checks : result SubmissionError ())
    (body : Reservations → result SubmissionError (Reservations * A))
    (s : SubmissionStore) : SubmissionStore * result SubmissionError A :=
  match checks with Ok _ => session body s | Err e => (s, Err e) end.

(** ** Operations *)

(** [_replay_or_retry]. *)
Definition replay_or_retry (current : SubmissionReservation) (business_digest : string) (now : Z)
    (rows : Reservations)
    : result SubmissionError (Reservations * SubmissionReservation) :=
  raise_if (negb (bool_decide (rv_business_digest current = business_digest))) IdempotencyConflict;;
  if negb (bool_decide (rv_state current = START_FAILED)) then Ok (rows, current)
  else
    let updated := replace_reservation current RESERVED now None in
    Ok (<[row_key current := updated]> rows, updated).

(** [reserve]. *)
Definition reserve_body (tenant_id idempotency_key transaction_id workflow_id business_digest : string)
    (now : Z) (rows : Reservations)
    : result SubmissionError (Reservations * SubmissionReservation) :=
  match rows !! (tenant_id, idempotency_key) with
  | Some row => replay_or_retry row business_digest now rows
  | None =>
      raise_if (identifier_taken rows transaction_id workflow_id) SubmissionIdentifierConflict;;
      let row created := {|
        rv_tenant_id := tenant_id; rv_idempotency_key := idempotency_key;
        rv_transaction_id := transaction_id; rv_workflow_id := workflow_id;
        rv_business_digest := business_digest; rv_state := RESERVED; rv_created_at := now;
        rv_updated_at := now; rv_start_error_code := None; rv_created := created |} in
      Ok (<[(tenant_id, idempotency_key) := row false]> rows, row true)
  end.
Definition reserve_checks (tenant_id idempotency_key transaction_id workflow_id business_digest : string)
    : result SubmissionError () :=
  validate_identifier tenant_id;; validate_identifier idempotency_key;;
  validate_identifier transaction_id;; validate_identifier workflow_id;;
  validate_business_digest business_digest.
Definition reserve (tenant_id idempotency_key transaction_id workflow_id business_digest : string)
    (now : Z) : SubmissionStore → SubmissionStore * result SubmissionError SubmissionReservation :=
  checked (reserve_checks tenant_id idempotency_key transaction_id workflow_id business_digest)
    (reserve_body tenant_id idempotency_key transaction_id workflow_id business_digest now).

(** [_require_by_transaction_id]. *)
Definition require_transaction (rows : Reservations) (transaction_id : string)
    : result SubmissionError SubmissionReservation :=
  match find_transaction rows transaction_id with
  | Some r => Ok r
  | None => Err SubmissionNotFound
  end.

(** [mark_started]. *)
Definition mark_started_body (transaction_id : string) (now : Z) (rows : Reservations)
    : result SubmissionError (Reservations * SubmissionReservation) :=
  current ← require_transaction rows transaction_id;
  if bool_decide (rv_state current = STARTED) then Ok (rows, current)
  else
    raise_if (negb (bool_decide (rv_state current = RESERVED)))
      (InvalidSubmissionState (rv_state current));;
    let updated := replace_reservation current STARTED now None in
    Ok (<[row_key current := updated]> rows, updated).
Definition mark_started (transaction_id : string) (now : Z)
    : SubmissionStore → SubmissionStore * result SubmissionError SubmissionReservation :=
  checked (validate_identifier transaction_id) (mark_started_body transaction_id now).

(** [mark_start_failed]. *)
Definition mark_start_failed_body (transaction_id error_code : string) (now : Z)
    (rows : Reservations) : result SubmissionError (Reservations * SubmissionReservation) :=
  current ← require_transaction rows transaction_id;
  if bool_decide (rv_state current = START_FAILED)
     && bool_decide (rv_start_error_code current = Some error_code) then Ok (rows, current)
  else
    raise_if (negb (bool_decide (rv_state current = RESERVED)))
      (InvalidSubmissionState (rv_state current));;
    let updated := replace_reservation current START_FAILED now (Some error_code) in
    Ok (<[row_key current := updated]> rows, updated).
Definition mark_start_failed (transaction_id error_code : string) (now : Z)
    : SubmissionStore → SubmissionStore * result SubmissionError SubmissionReservation :=
  checked (validate_identifier transaction_id;; validate_error_code error_code)
    (mark_start_failed_body transaction_id error_code now).

(** [lookup_by_transaction_id] and its aliases. *)
Definition lookup_by_transaction_id (s : SubmissionStore) (transaction_id : string)
    : result SubmissionError (option SubmissionReservation) :=
  validate_identifier transaction_id;;
  raise_if (sb_closed s) ProgrammingError;;
  Ok (find_transaction (sb_rows s) transaction_id).

(** [close]. *)
Definition close (s : SubmissionStore) : SubmissionStore :=
  {| sb_closed := true; sb_rows := sb_rows s |}.

(** ** Histories *)

(** One call, with any arguments at any time, whatever it returns. *)
Inductive step : SubmissionStore → SubmissionStore → Prop :=
| step_reserve t k x w d now s : step s (reserve t k x w d now s).1
| step_started x now s : step s (mark_started x now s).1
| step_failed x code now s : step s (mark_start_failed x code now s).1
| step_close s : step s (close s).

Definition reachable (s : SubmissionStore) : Prop := star step empty_submissions s.

(** The invariant: rows sit under their key, identifiers are unique across rows, and only a
    failed start carries an error code. *)
Record rows_ok (rows : Reservations) : Prop := {
  ok_key : ∀ k r, rows !! k = Some r → row_key r = k ∧ rv_created r = false;
  ok_error : ∀ k r, rows !! k = Some r →
    rv_start_error_code r = None ↔ rv_state r ≠ START_FAILED;
  ok_unique : ∀ k1 k2 r1 r2, rows !! k1 = Some r1 → rows !! k2 = Some r2 →
    rv_transaction_id r1 = rv_transaction_id r2 ∨ rv_workflow_id r1 = rv_workflow_id r2 → k1 = k2 }.

(** The lifecycle of one reservation. *)
Inductive start_move (r : SubmissionReservation) : SubmissionReservation → Prop :=
| move_started now : rv_state r = RESERVED → start_move r (replace_reservation r STARTED now None)
| move_failed now code : rv_state r = RESERVED →
    start_move r (replace_reservation r START_FAILED now (Some code))
| move_retry now : rv_state r = START_FAILED →
    start_move r (replace_reservation r RESERVED now None).

(** What an operation does to the rows. *)
Inductive writes (rows : Reservations) : Reservations → Prop :=
| wr_none : writes rows rows
| wr_insert r : rows !! row_key r = None → rv_created r = false → rv_state r = RESERVED →
    rv_start_error_code r = None →
    identifier_taken rows (rv_transaction_id r) (rv_workflow_id r) = false →
    writes rows (<[row_key r := r]> rows)
| wr_update r r' : rows !! row_key r = Some r → start_move r r' →
    writes rows (<[row_key r := r']> rows).

(** [r'] is a later state of the reservation [r]. *)
Record row_le (r r' : SubmissionReservation) : Prop := {
  le_key : row_key r' = row_key r;
  le_transaction : rv_transaction_id r' = rv_transaction_id r;
  le_workflow : rv_workflow_id r' = rv_workflow_id r;
  le_digest : rv_business_digest r' = rv_business_digest r;
  le_started : rv_state r = STARTED → r' = r }.

#[export] Instance row_le_preorder : PreOrder row_le.
Proof.
  split; [by split|]. intros r1 r2 r3 [A1 A2 A3 A4 A5] [B1 B2 B3 B4 B5].
  split; try congruence. intros Hs. pose proof (A5 Hs). subst. auto.
Qed.

Lemma start_move_le r r' : start_move r r' → row_le r r'.
Proof. intros [now Hs|now code Hs|now Hs]; split; try done; congruence. Qed.

Lemma in_rows (rows : Reservations) r : r ∈ (map_to_list rows).*2 ↔ ∃ k, rows !! k = Some r.
Proof.
  rewrite list_elem_of_fmap. split.
  - intros ([k r'] & -> & Hr). exists k. by apply elem_of_map_to_list.
  - intros [k Hr]. exists (k, r). split; [done|]. by apply elem_of_map_to_list.
Qed.

Lemma find_transaction_Some rows x r :
  find_transaction rows x = Some r → rv_transaction_id r = x ∧ ∃ k, rows !! k = Some r.
Proof.
  unfold find_transaction. destruct (filter _ _) as [|r' l] eqn:E; [done|]. intros [= ->].
  assert (r ∈ filter (λ r, rv_transaction_id r = x) (map_to_list rows).*2) as Hr by (rewrite E; left).
  by apply list_elem_of_filter in Hr as [Hx Hr%in_rows].
Qed.

Lemma find_transaction_unique rows k r :
  rows_ok rows → rows !! k = Some r → find_transaction rows (rv_transaction_id r) = Some r.
Proof.
  intros Hok Hr. destruct (find_transaction rows _) as [r'|] eqn:E.
  - apply find_transaction_Some in E as [Hx [k' Hr']].
    assert (k' = k) as -> by (eapply (ok_unique _ Hok); eauto). congruence.
  - exfalso. unfold find_transaction in E. apply head_None in E.
    assert (r ∈ filter (λ r', rv_transaction_id r' = rv_transaction_id r) (map_to_list rows).*2)
      as Hin by (apply list_elem_of_filter; split; [done|apply in_rows; eauto]).
    rewrite E in Hin. by apply elem_of_nil in Hin.
Qed.

Lemma identifier_taken_false rows x w :
  identifier_taken rows x w = false ↔
  ∀ k r, rows !! k = Some r → rv_transaction_id r ≠ x ∧ rv_workflow_id r ≠ w.
Proof.
  unfold identifier_taken. rewrite existsb_elem_false. split.
  - intros Hall k r Hr. specialize (Hall r). rewrite orb_false_iff, !bool_decide_eq_false in Hall.
    apply Hall, in_rows. eauto.
  - intros Hall r [k Hr]%in_rows. rewrite orb_false_iff, !bool_decide_eq_false. by apply (Hall k).
Qed.

Lemma submission_writes_ok rows rows' : writes rows rows' → rows_ok rows → rows_ok rows'.
Proof.
  intros [|r Hn Hc Hs He Ht|r r' Hr Hm] Hok; [done|..].
  - rewrite identifier_taken_false in Ht. destruct Hok as [Hk Her Hu]. split.
    + intros k r0 [[<- <-]|[_ Hr]]%lookup_insert_Some; [done|by apply Hk].
    + intros k r0 [[<- <-]|[_ Hr]]%lookup_insert_Some; [by rewrite Hs|by apply (Her k)].
    + intros k1 k2 r1 r2 [[<- <-]|[N1 H1]]%lookup_insert_Some [[<- <-]|[N2 H2]]%lookup_insert_Some;
        intros E; [done|..|by eapply Hu].
      * apply Ht in H2. naive_solver.
      * apply Ht in H1. naive_solver.
  - pose proof (start_move_le _ _ Hm) as [L1 L2 L3 _ _]. destruct Hok as [Hk Her Hu]. split.
    + intros k r0 [[<- <-]|[_ Hr0]]%lookup_insert_Some; [|by apply Hk].
      split; [done|]. by destruct Hm.
    + intros k r0 [[<- <-]|[_ Hr0]]%lookup_insert_Some; [|by apply (Her k)].
      by destruct Hm.
    + intros k1 k2 r1 r2 [[<- <-]|[N1 H1]]%lookup_insert_Some [[<- <-]|[N2 H2]]%lookup_insert_Some;
        intros E; [done|..|by eapply Hu]; rewrite ?L2, ?L3 in E; by eapply Hu.
Qed.

Lemma submission_writes_le rows rows' k r :
  writes rows rows' → rows !! k = Some r → ∃ r', rows' !! k = Some r' ∧ row_le r r'.
Proof.
  intros [|r0 Hn|r0 r0' Hr Hm] Hk; [by exists r|..].
  - exists r. split; [|done]. rewrite lookup_insert_ne; congruence.
  - destruct (decide (row_key r0 = k)) as [<-|Hne].
    + simplify_eq. rewrite lookup_insert_eq. eauto using start_move_le.
    + rewrite lookup_insert_ne by done. by exists r.
Qed.

Lemma checked_ok {A} (checks : result SubmissionError ())
    (body : Reservations → result SubmissionError (Reservations * A)) s s' a :
  checked checks body s = (s', Ok a) ↔
  checks = Ok () ∧ sb_closed s = false ∧
  ∃ rows, body (sb_rows s) = Ok (rows, a) ∧ s' = {| sb_closed := false; sb_rows := rows |}.
Proof.
  unfold checked, session. split.
  - destruct checks as [[]|]; [|done]. intros Ht. apply transact_ok in Ht.
    apply raise_if_then in Ht as [Ho ([rows a'] & Hb & [= <- <-])%bind_ok]. rewrite Ho. eauto 10.
  - intros (-> & Ho & rows & Hb & ->). apply transact_ok. rewrite Ho. simpl. by rewrite Hb.
Qed.

Lemma checked_err {A} (checks : result SubmissionError ())
    (body : Reservations → result SubmissionError (Reservations * A)) s e :
  checks = Ok () → sb_closed s = false → body (sb_rows s) = Err e →
  checked checks body s = (s, Err e).
Proof.
  intros -> Ho Hb. unfold checked, session. apply transact_err. split; [done|].
  rewrite Ho. simpl. by rewrite Hb.
Qed.

Lemma checked_rows {A} (checks : result SubmissionError ())
    (body : Reservations → result SubmissionError (Reservations * A)) s :
  (∀ rows a, body (sb_rows s) = Ok (rows, a) → writes (sb_rows s) rows) →
  writes (sb_rows s) (sb_rows (checked checks body s).1).
Proof.
  intros Hw. destruct (checked checks body s) as [s' [a|e]] eqn:E.
  - apply checked_ok in E as (_ & _ & rows & Hb & ->). by eapply Hw.
  - unfold checked, session in E. destruct checks; [|by injection E as <- _; constructor].
    apply transact_err in E as [-> _]. constructor.
Qed.

Lemma reserve_body_cases t k x w d now rows rows' r :
  rows_ok rows → reserve_body t k x w d now rows = Ok (rows', r) →
  writes rows rows' ∧ row_key r = (t, k) ∧ rv_business_digest r = d ∧
  match rows !! (t, k) with
  | Some r0 => rv_business_digest r0 = d ∧ rv_created r = false ∧ row_le r0 r ∧
               rows' !! (t, k) = Some r
  | None => rv_transaction_id r = x ∧ rv_workflow_id r = w ∧
            ∃ r1, rows' !! (t, k) = Some r1 ∧ row_le r r1 ∧
              rv_transaction_id r1 = x ∧ rv_workflow_id r1 = w
  end.
Proof.
  intros Hok. unfold reserve_body. destruct (rows !! (t, k)) as [r0|] eqn:Hr0.
  - destruct (ok_key _ Hok _ _ Hr0) as [Hk Hc]. unfold replay_or_retry.
    rewrite raise_if_then. intros [Hd Hb]. boolify.
    destruct (bool_decide (rv_state r0 = START_FAILED)) eqn:Hs; simpl in Hb; boolify.
    + injection Hb as <- <-. assert (start_move r0 (replace_reservation r0 RESERVED now None)) as Hm
        by (by constructor). split_and!; try done.
      * apply wr_update; [by rewrite Hk|done].
      * by apply start_move_le.
      * rewrite Hk. apply lookup_insert_eq.
    + injection Hb as <- <-. split_and!; try done. constructor.
  - rewrite raise_if_then. intros [Ht [= <- <-]]. split_and!; try done.
    + match goal with |- writes _ (<[_ := ?r]> _) => by apply (wr_insert rows r) end.
    + eexists. rewrite lookup_insert_eq. by split_and!.
Qed.

Lemma require_transaction_ok rows x r :
  rows_ok rows → require_transaction rows x = Ok r →
  rv_transaction_id r = x ∧ rows !! row_key r = Some r.
Proof.
  unfold require_transaction. intros Hok. destruct (find_transaction rows x) as [r'|] eqn:E; [|done].
  intros [= ->]. apply find_transaction_Some in E as [Hx [k Hr]]. split; [done|].
  by destruct (ok_key _ Hok _ _ Hr) as [-> _].
Qed.

Lemma mark_started_cases x now rows rows' r :
  rows_ok rows → mark_started_body x now rows = Ok (rows', r) →
  writes rows rows' ∧ rv_transaction_id r = x ∧ rv_state r = STARTED ∧
  rows' !! row_key r = Some r.
Proof.
  intros Hok. unfold mark_started_body. intros (c & Hc & Hb)%bind_ok.
  apply require_transaction_ok in Hc as [Hx Hr]; [|done]. case_bool_decide.
  - injection Hb as <- <-. split_and!; try done. constructor.
  - apply raise_if_then in Hb as [Hs [= <- <-]]. boolify.
    split_and!; try done; [|apply lookup_insert_eq].
    apply wr_update; [done|]. by constructor.
Qed.

Lemma mark_start_failed_writes x code now rows rows' r :
  rows_ok rows → mark_start_failed_body x code now rows = Ok (rows', r) → writes rows rows'.
Proof.
  intros Hok. unfold mark_start_failed_body. intros (c & Hc & Hb)%bind_ok.
  apply require_transaction_ok in Hc as [Hx Hr]; [|done]. destruct (_ && _).
  - injection Hb as <- <-. constructor.
  - apply raise_if_then in Hb as [Hs [= <- <-]]. boolify. apply wr_update; [done|]. by constructor.
Qed.

Lemma submission_step_writes s s' : rows_ok (sb_rows s) → step s s' → writes (sb_rows s) (sb_rows s').
Proof.
  intros Hok Hs. revert Hok.
  destruct Hs as [t k x w d now s|x now s|x code now s|s]; intros Hok;
    [apply checked_rows; intros rows a Hb..|constructor].
  - by eapply reserve_body_cases.
  - by eapply mark_started_cases.
  - by eapply mark_start_failed_writes.
Qed.

Lemma submission_reachable_ok s : reachable s → rows_ok (sb_rows s).
Proof.
  apply (star_invariant step (λ s, rows_ok (sb_rows s))).
  - intros s1 s2 Hok Hs. eapply submission_writes_ok; [by apply submission_step_writes|done].
  - split; intros k **; simpl in *; by rewrite ?lookup_empty in *.
Qed.

Lemma submission_entries s s' k r :
  rows_ok (sb_rows s) → star step s s' → sb_rows s !! k = Some r →
  rows_ok (sb_rows s') ∧ ∃ r', sb_rows s' !! k = Some r' ∧ row_le r r'.
Proof.
  apply (star_entries step (λ s, rows_ok (sb_rows s)) (λ s k, sb_rows s !! k) row_le).
  - intros s1 s2 Hok Hs. eapply submission_writes_ok; [by apply submission_step_writes|done].
  - intros s1 s2 k' r' Hok Hs. eapply submission_writes_le. by apply submission_step_writes.
Qed.

(** ** Theorems *)

(** A key is bound once: after a reservation has been returned for a tenant's key, whatever
    calls follow, every later reservation of the key returns the same transaction and
    workflow, is for the same business request and is not new; a different request is a
    conflict that changes nothing; and no other key is ever given either identifier. *)
Theorem reserve_binds_key_once t k x w d now s0 s1 r1 s2 :
  reachable s0 → reserve t k x w d now s0 = (s1, Ok r1) → star step s1 s2 →
  (∀ x' w' d' now' s3 r2, reserve t k x' w' d' now' s2 = (s3, Ok r2) →
    d' = d ∧ rv_transaction_id r2 = rv_transaction_id r1 ∧
    rv_workflow_id r2 = rv_workflow_id r1 ∧ rv_created r2 = false) ∧
  (∀ x' w' d' now', sb_closed s2 = false → reserve_checks t k x' w' d' = Ok () → d' ≠ d →
    reserve t k x' w' d' now' s2 = (s2, Err IdempotencyConflict)) ∧
  (∀ t' k' x' w' d' now' s3 r2, (t', k') ≠ (t, k) →
    reserve t' k' x' w' d' now' s2 = (s3, Ok r2) →
    rv_transaction_id r2 ≠ rv_transaction_id r1 ∧ rv_workflow_id r2 ≠ rv_workflow_id r1).
Proof.
  intros Hre Hr Hs. pose proof (submission_reachable_ok _ Hre) as Hok.
  pose proof Hr as (_ & _ & rows & Hb & ->)%checked_ok.
  apply reserve_body_cases in Hb as (Hw & Hk & Hd & Hcase); [|done].
  assert (∃ r, rows !! (t, k) = Some r ∧ row_le r1 r) as (r & Hrow & Hle).
  { destruct (sb_rows s0 !! (t, k)) as [r0|].
    - destruct Hcase as (_ & _ & _ & ?). by exists r1.
    - destruct Hcase as (_ & _ & r & ? & ? & _). by exists r. }
  destruct (submission_entries {| sb_closed := false; sb_rows := rows |} s2 (t, k) r (submission_writes_ok _ _ Hw Hok) Hs Hrow) as (Hok2 & r2 & Hr2 & Hle2).
  assert (row_le r1 r2) as [L1 L2 L3 L4 _] by (by etrans).
  split_and!.
  - intros x' w' d' now' s3 r3 (_ & _ & rows3 & Hb & _)%checked_ok.
    apply reserve_body_cases in Hb as (_ & _ & _ & Hb); [|done]. rewrite Hr2 in Hb.
    destruct Hb as (Hd2 & Hc & [M1 M2 M3 M4 _] & _). split_and!; congruence.
  - intros x' w' d' now' Ho Hc Hne. apply checked_err; [done|done|].
    unfold reserve_body. rewrite Hr2. unfold replay_or_retry.
    rewrite (bool_decide_eq_false_2 (rv_business_digest r2 = d')) by congruence. done.
  - intros t' k' x' w' d' now' s3 r3 Hne (_ & _ & rows3 & Hb & _)%checked_ok.
    pose proof Hb as (Hw3 & _ & _ & Hcase3)%reserve_body_cases; [|done].
    destruct (submission_writes_le _ _ _ _ Hw3 Hr2) as (r2' & Hr2' & [_ N2 N3 _ _]).
    assert (∃ r3', rows3 !! (t', k') = Some r3' ∧ rv_transaction_id r3' = rv_transaction_id r3 ∧
      rv_workflow_id r3' = rv_workflow_id r3) as (r3' & Hr3' & E1 & E2).
    { destruct (sb_rows s2 !! (t', k')) as [r0|].
      - destruct Hcase3 as (_ & _ & _ & ?). by exists r3.
      - destruct Hcase3 as (? & ? & r3' & ? & _ & ? & ?). exists r3'. split_and!; congruence. }
    pose proof (ok_unique _ (submission_writes_ok _ _ Hw3 Hok2) _ _ _ _ Hr3' Hr2') as Hu.
    split; intros E; apply Hne, Hu; [left|right]; congruence.
Qed.

(** A started submission is final: once a start has been acknowledged, whatever calls
    follow, looking the transaction up and acknowledging again return the same reservation, a
    late start failure is refused, and replaying the request returns the started reservation
    with its identifiers; none of these changes the ledger. *)
Theorem started_is_final x now s0 s1 r s2 now' :
  reachable s0 → mark_started x now s0 = (s1, Ok r) → star step s1 s2 → sb_closed s2 = false →
  rv_state r = STARTED ∧ rv_transaction_id r = x ∧
  lookup_by_transaction_id s2 x = Ok (Some r) ∧
  mark_started x now' s2 = (s2, Ok r) ∧
  (∀ code, validate_error_code code = Ok () →
    mark_start_failed x code now' s2 = (s2, Err (InvalidSubmissionState STARTED))) ∧
  (∀ x' w', let '(t, k) := row_key r in
    reserve_checks t k x' w' (rv_business_digest r) = Ok () →
    reserve t k x' w' (rv_business_digest r) now' s2 = (s2, Ok r)).
Proof.
  intros Hre Hm Hs Ho. pose proof (submission_reachable_ok _ Hre) as Hok.
  pose proof Hm as (Hx & _ & rows & Hb & ->)%checked_ok.
  apply mark_started_cases in Hb as (Hw & <- & Hst & Hr); [|done].
  destruct (submission_entries {| sb_closed := false; sb_rows := rows |} s2 _ r (submission_writes_ok _ _ Hw Hok) Hs Hr) as (Hok2 & r2 & Hr2 & Hle).
  rewrite (le_started _ _ Hle Hst) in Hr2.
  pose proof (find_transaction_unique _ _ _ Hok2 Hr2) as Hf.
  assert (s2 = {| sb_closed := false; sb_rows := sb_rows s2 |}) as Es by (destruct s2; simpl in *; congruence).
  split_and!; try done.
  - unfold lookup_by_transaction_id. rewrite Hx, Ho. simpl. by rewrite Hf.
  - apply checked_ok. split_and!; [done..|]. exists (sb_rows s2). split; [|done].
    unfold mark_started_body, require_transaction. rewrite Hf. simpl.
    by rewrite bool_decide_eq_true_2.
  - intros code Hc. apply checked_err; [by rewrite Hx|done|].
    unfold mark_start_failed_body, require_transaction. rewrite Hf. simpl. by rewrite !Hst.
  - intros x' w'. destruct (row_key r) as [t k] eqn:Ek. intros Hc. apply checked_ok.
    split_and!; [done..|]. exists (sb_rows s2). split; [|done].
    unfold reserve_body. rewrite Hr2. unfold replay_or_retry.
    rewrite (bool_decide_eq_true_2 (_ = rv_business_digest r)) by done. simpl. by rewrite Hst.
Qed.

(** A failed start can be retried under the same transaction and workflow. *)
Lemma failed_start_retried x code now s0 s1 r x' w' now' now'' :
  reachable s0 → mark_start_failed x code now s0 = (s1, Ok r) →
  let '(t, k) := row_key r in
  reserve_checks t k x' w' (rv_business_digest r) = Ok () →
  ∃ s2 r2 s3 r3, reserve t k x' w' (rv_business_digest r) now' s1 = (s2, Ok r2) ∧
    rv_state r2 = RESERVED ∧ rv_transaction_id r2 = x ∧ rv_workflow_id r2 = rv_workflow_id r ∧
    mark_started x now'' s2 = (s3, Ok r3) ∧ rv_state r3 = STARTED.
Proof.
  intros Hre Hm. pose proof (submission_reachable_ok _ Hre) as Hok.
  pose proof Hm as (Hc & _ & rows & Hb & ->)%checked_ok.
  apply bind_ok in Hc as ([] & Hx & _).
  pose proof (mark_start_failed_writes _ _ _ _ _ _ Hok Hb) as Hw.
  assert (rv_transaction_id r = x ∧ rv_state r = START_FAILED ∧ rows !! row_key r = Some r)
    as (<- & Hst & Hr).
  { unfold mark_start_failed_body in Hb. apply bind_ok in Hb as (c & Hc & Hb).
    apply require_transaction_ok in Hc as [Hx' Hr]; [|done].
    destruct (_ && _) eqn:E; boolify.
    - injection Hb as <- <-. done.
    - apply raise_if_then in Hb as [_ [= <- <-]]. split_and!; try done. apply lookup_insert_eq. }
  destruct (row_key r) as [t k] eqn:Ek. intros Hchk.
  set (r2 := replace_reservation r RESERVED now' None).
  set (rows2 := <[(t, k) := r2]> rows).
  assert (rows_ok rows2) as Hok2.
  { eapply submission_writes_ok; [|by eapply submission_writes_ok]. unfold rows2. rewrite <-Ek.
    apply wr_update; [by rewrite Ek|by constructor]. }
  assert (rows2 !! (t, k) = Some r2) as Hr2 by apply lookup_insert_eq.
  pose proof (find_transaction_unique _ _ _ Hok2 Hr2) as Hf.
  eexists {| sb_closed := false; sb_rows := rows2 |}, r2, _, _. split_and!; try done.
  - apply checked_ok. split_and!; [done..|]. exists rows2. split; [|done].
    unfold reserve_body. cbn [sb_rows]. rewrite Hr. unfold replay_or_retry.
    rewrite (bool_decide_eq_true_2 (_ = rv_business_digest r)) by done. simpl. rewrite Hst. cbn.
    by rewrite Ek.
  - apply checked_ok. split_and!; [done..|]. eexists. split; [|done].
    unfold mark_started_body, require_transaction. cbn [sb_rows].
    change (rv_transaction_id r) with (rv_transaction_id r2). rewrite Hf. reflexivity.
  - done.
Qed.

(** ** A concrete run *)

Definition example_digest : string :=
  "sha256:0123456789abcdef0123456789abcdef0123456789abcdef0123456789abcdef".
Definition reserved_store : SubmissionStore :=
  (reserve "tenant" "key" "tx-1" "wf-1" example_digest 0 empty_submissions).1.
Definition started_store : SubmissionStore := (mark_started "tx-1" 5 reserved_store).1.
Definition example_reservation (state : SubmissionState) (updated : Z) (created : bool)
    : SubmissionReservation := {|
  rv_tenant_id := "tenant"; rv_idempotency_key := "key"; rv_transaction_id := "tx-1";
  rv_workflow_id := "wf-1"; rv_business_digest := example_digest; rv_state := state;
  rv_created_at := 0; rv_updated_at := updated; rv_start_error_code := None;
  rv_created := created |}.

Lemma reserved_reachable : reachable reserved_store.
Proof. apply star_one. apply step_reserve. Qed.

Lemma reserve_binds_key_once_witness :
  rv_transaction_id (example_reservation STARTED 5 false) = "tx-1" ∧
  (reserve "tenant" "key" "tx-2" "wf-2" example_digest 9 started_store).2
    = Ok (example_reservation STARTED 5 false).
Proof.
  destruct (reserve_binds_key_once "tenant" "key" "tx-1" "wf-1" example_digest 0 empty_submissions
    reserved_store (example_reservation RESERVED 0 true) started_store) as (Hsame & _).
  - apply star_refl.
  - vm_compute. reflexivity.
  - apply star_one. apply (step_started "tx-1" 5).
  - assert (reserve "tenant" "key" "tx-2" "wf-2" example_digest 9 started_store
      = (started_store, Ok (example_reservation STARTED 5 false))) as E by (vm_compute; reflexivity).
    split; [exact (proj1 (proj2 (Hsame _ _ _ _ _ _ E)))|rewrite E; reflexivity].
Defined.

Lemma started_is_final_witness :
  lookup_by_transaction_id started_store "tx-1" = Ok (Some (example_reservation STARTED 5 false)).
Proof.
  destruct (started_is_final "tx-1" 5 reserved_store started_store
    (example_reservation STARTED 5 false) started_store 9) as (_ & _ & Hl & _).
  - exact reserved_reachable.
  - vm_compute. reflexivity.
  - apply star_refl.
  - reflexivity.
  - exact Hl.
Defined.
