(* ===== verification/Credentials.v ===== *)
(** * Credential metadata and secret leases (credentials/models.py, store.py, lease.py)

    Opaque secret references, the bindings that map an adapter capability to them, the
    directory that keeps one binding per scope with advancing revisions, and the in-memory
    lease whose buffers are wiped when it closes or expires.  The text a binding is stored as
    is pydantic's, whose decoding gives the binding back; a row is the binding itself. *)

From Stdlib Require Import Ascii.
From S2P Require Import Prelude.
From S2P Require Import Contracts.

(** ** References *)

(** The words of [_SECRET_NAME_RE]: [api[_-]?key] stands for three. *)
Definition opaque_secret_words : list string := secret_words ++ ["apikey"; "api_key"; "api-key"].

Definition opaque_char (c : ascii) : bool := is_lower c || is_upper c || is_digit c || is_sep c.

(** [".." in value]. *)
Fixpoint has_dots (s : string) : bool :=
  match s with
  | String c s' =>
      ((code c =? 46) && match s' with String d _ => code d =? 46 | EmptyString => false end)
      || has_dots s'
  | EmptyString => false
  end.

(** [_OPAQUE_RE.fullmatch]. *)
Definition opaque_shape (s : string) : bool :=
  match s with
  | String c s' => opaque_char c && negb (is_sep c) && forall_chars opaque_char s' && (len s' <=? 255)
  | EmptyString => false
  end.

(** [_reject_opaque] accepts. *)
Definition opaque_ok (value : string) : bool :=
  opaque_shape value && negb (has_dots value)
  && negb (secret_search opaque_secret_words true value).

Record SecretRef := {
  sr_provider : string;
  sr_key : string;
  sr_version : option string }.

#[export] Instance SecretRef_eq_dec : EqDecision SecretRef.
Proof. solve_decision. Defined.

(** [SecretRef(...)]: every rejection is the same error. *)
Definition validate_ref (r : SecretRef) : result string () :=
  raise_if (negb (Name_ok (sr_provider r) && Identifier_ok (sr_key r)
                  && opt_ok Identifier_ok (sr_version r)
                  && opaque_ok (sr_provider r) && opaque_ok (sr_key r)
                  && opt_ok opaque_ok (sr_version r))) "Secret reference is invalid".

Definition ref_json (r : SecretRef) : json := JObj [
  ("schema_version", JStr "cargomesh.secret-ref/v1"); ("provider", JStr (sr_provider r));
  ("key", JStr (sr_key r)); ("version", json_opt JStr (sr_version r))].

(** [ref_digest]. *)
Definition ref_digest `{Sha256, FloatRepr} (r : SecretRef) : string := value_digest (ref_json r).

(** ** Bindings *)

Record CredentialBinding := {
  bi_tenant_id : string;
  bi_environment_id : string;
  bi_adapter : string;
  bi_capability : string;
  bi_secrets : list (string * SecretRef);
  bi_revision : Z;
  bi_binding_digest : string }.

#[export] Instance CredentialBinding_eq_dec : EqDecision CredentialBinding.
Proof. solve_decision. Defined.

Notation Scope := (string * string * string * string)%type.

(** [identity]. *)
Definition identity (b : CredentialBinding) : Scope :=
  (bi_tenant_id b, bi_environment_id b, bi_adapter b, bi_capability b).

(** [model_dump(exclude={"binding_digest"})]. *)
Definition binding_json (b : CredentialBinding) : json := JObj [
  ("schema_version", JStr "cargomesh.credential-binding/v1"); ("tenant_id", JStr (bi_tenant_id b));
  ("environment_id", JStr (bi_environment_id b)); ("adapter", JStr (bi_adapter b));
  ("capability", JStr (bi_capability b));
  ("secrets", JObj (map (λ kv, (kv.1, ref_json kv.2)) (bi_secrets b)));
  ("revision", JInt (bi_revision b))].

(** [CredentialBinding.model_validate]: fields, names, digest. *)
Definition validate_binding `{Sha256, FloatRepr} (b : CredentialBinding) : result string () :=
  foldM (λ _ kv, validate_ref kv.2) () (bi_secrets b);;
  raise_if (negb (Identifier_ok (bi_tenant_id b) && Identifier_ok (bi_environment_id b)
                  && Name_ok (bi_adapter b) && Name_ok (bi_capability b)
                  && between 1 (Z.of_nat (length (bi_secrets b))) 32
                  && forallb Name_ok (map fst (bi_secrets b))
                  && between 1 (bi_revision b) (2 ^ 63 - 1))) "field constraint";;
  raise_if (has_duplicates (map fst (bi_secrets b))) "credential binding names must be unique";;
  raise_if (negb (Digest_ok (bi_binding_digest b))) "credential binding digest is invalid";;
  raise_if (negb (bool_decide (bi_binding_digest b = value_digest (binding_json b))))
    "credential binding digest does not match".

(** [CredentialBinding.issue]; the digest given is ignored. *)
Definition issue_binding `{Sha256, FloatRepr} (b : CredentialBinding) : result string CredentialBinding :=
  let b' := {| bi_tenant_id := bi_tenant_id b; bi_environment_id := bi_environment_id b;
    bi_adapter := bi_adapter b; bi_capability := bi_capability b; bi_secrets := bi_secrets b;
    bi_revision := bi_revision b; bi_binding_digest := value_digest (binding_json b) |} in
  validate_binding b';; Ok b'.

(** ** The directory *)

Inductive CredentialError :=
| CredentialBindingConflict
| CredentialBindingNotFound
| InvalidCredentialBinding
| BindingStoreClosed.

#[export] Instance CredentialError_eq_dec : EqDecision CredentialError.
Proof. solve_decision. Defined.

Notation Bindings := (gmap Scope CredentialBinding).
Record BindingStore := { bs_closed : bool; bs_rows : Bindings }.
Definition empty_bindings : BindingStore := {| bs_closed := false; bs_rows := ∅ |}.

Section store.
Context `{Sha256, FloatRepr}.

(** [_ensure_open], [_validate], then the transaction; every exception of the bodies is
    caught and rolls back. *)
Definition binding_session {A} (b : CredentialBinding)
    (body : Bindings → result CredentialError (Bindings * A))
    : BindingStore → BindingStore * result CredentialError A :=
  transact (λ s,
    raise_if (bs_closed s) BindingStoreClosed;;
    raise_if (negb (is_ok (validate_binding b))) InvalidCredentialBinding;;
    '(rows, a) ← body (bs_rows s);
    Ok ({| bs_closed := bs_closed s; bs_rows := rows |}, a)).

(** [put], also named [provision] and [bind]. *)
Definition put_body (value : CredentialBinding) (rows : Bindings)
    : result CredentialError (Bindings * CredentialBinding) :=
  match rows !! identity value with
  | Some current =>
      raise_if (negb (bool_decide (bi_binding_digest current = bi_binding_digest value)))
        CredentialBindingConflict;;
      Ok (rows, current)
  | None => Ok (<[identity value := value]> rows, value)
  end.
Definition put (binding : CredentialBinding)
    : BindingStore → BindingStore * result CredentialError CredentialBinding :=
  binding_session binding (put_body binding).

(** [replace]. *)
Definition replace_body (value : CredentialBinding) (rows : Bindings)
    : result CredentialError (Bindings * CredentialBinding) :=
  match rows !! identity value with
  | None => Err CredentialBindingNotFound
  | Some current =>
      raise_if (negb (bi_revision value =? bi_revision current + 1)) CredentialBindingConflict;;
      Ok (<[identity value := value]> rows, value)
  end.
Definition replace (binding : CredentialBinding)
    : BindingStore → BindingStore * result CredentialError CredentialBinding :=
  binding_session binding (replace_body binding).

End store.

(** [get]. *)
Definition get (s : BindingStore) (tenant_id environment_id adapter capability : string)
    : result CredentialError (option CredentialBinding) :=
  raise_if (bs_closed s) BindingStoreClosed;;
  Ok (bs_rows s !! (tenant_id, environment_id, adapter, capability)).

(** [ORDER BY environment_id, adapter, capability]. *)
Definition listing_key (b : CredentialBinding) : string * (string * string) :=
  (bi_environment_id b, (bi_adapter b, bi_capability b)).
Definition listing_order : relation (string * (string * string)) :=
  lex String.le (lex String.le String.le).
#[export] Instance listing_order_dec : RelDecision listing_order.
Proof. unfold listing_order. apply _. Defined.

(** [list]. *)
Definition list_bindings (s : BindingStore) (tenant_id : string) (environment_id : option string)
    : result CredentialError (list CredentialBinding) :=
  raise_if (bs_closed s) BindingStoreClosed;;
  Ok (sorted_by listing_key listing_order
        (List.filter (λ b, bool_decide (bi_tenant_id b = tenant_id)
             && opt_ok (λ e, bool_decide (bi_environment_id b = e)) environment_id)
          (map_to_list (bs_rows s)).*2)).

(** [close]. *)
Definition close_bindings (s : BindingStore) : BindingStore :=
  {| bs_closed := true; bs_rows := bs_rows s |}.

(** One call by anyone with any argument. *)
Inductive binding_step `{Sha256, FloatRepr} : BindingStore → BindingStore → Prop :=
| step_put b s : binding_step s (put b s).1
| step_replace b s : binding_step s (replace b s).1
| step_close s : binding_step s (close_bindings s).

Definition bindings_reachable `{Sha256, FloatRepr} (s : BindingStore) : Prop :=
  star binding_step empty_bindings s.

(** ** Leases (credentials/lease.py) *)

Inductive LeaseError :=
| SecretLeaseClosed
| SecretLeaseExpired
| SecretNameUnavailable
| LeaseValueError (message : string).

#[export] Instance LeaseError_eq_dec : EqDecision LeaseError.
Proof. solve_decision. Defined.

(** A [bytearray]. *)
Notation Buffer := (list Z).

Record SecretLease := {
  sl_buffers : list (string * Buffer);
  sl_default_name : string;
  sl_closed : bool;
  sl_expires_at : Z }.

Inductive LeaseValue :=
| OneValue (value : Buffer)
| NamedValues (values : list (string * Buffer)).

(** [SecretLease(value, expires_at, name=..., clock=...)] of a timezone-aware expiry: without
    a clock of its own the expiry must lie after the current time. *)
Definition make_lease (value : LeaseValue) (expires_at : Z) (name : string) (own_clock : bool)
    (now : Z) : result LeaseError SecretLease :=
  raise_if ((expires_at <=? now) && negb own_clock)
    (LeaseValueError "lease expiry must be in the future");;
  match value with
  | OneValue v => Ok {| sl_buffers := [(name, v)]; sl_default_name := name; sl_closed := false;
                        sl_expires_at := expires_at |}
  | NamedValues [] => Err (LeaseValueError "lease must contain a value")
  | NamedValues ((first, _) :: _ as values) =>
      Ok {| sl_buffers := values;
            sl_default_name := if is_none (assoc name values) then first else name;
            sl_closed := false; sl_expires_at := expires_at |}
  end.

Definition wipe (buffer : Buffer) : Buffer := map (λ _, 0) buffer.

(** [close]. *)
Definition close_lease (l : SecretLease) : SecretLease :=
  if sl_closed l then l
  else {| sl_buffers := map (λ kv, (kv.1, wipe kv.2)) (sl_buffers l);
          sl_default_name := sl_default_name l; sl_closed := true;
          sl_expires_at := sl_expires_at l |}.

(** [_check_open] at the reading [now] of the clock. *)
Definition check_open (now : Z) (l : SecretLease) : SecretLease * result LeaseError () :=
  if sl_closed l then (l, Err SecretLeaseClosed)
  else if sl_expires_at l <=? now then (close_lease l, Err SecretLeaseExpired)
  else (l, Ok ()).

(** [read]; [value], [bytes], [secret] and [__getitem__] are calls of it. *)
Definition read (name : option string) (now : Z) (l : SecretLease)
    : SecretLease * result LeaseError Buffer :=
  match check_open now l with
  | (l', Err e) => (l', Err e)
  | (l', Ok _) =>
      (l', match assoc (default (sl_default_name l') name) (sl_buffers l') with
           | Some b => Ok b
           | None => Err SecretNameUnavailable
           end)
  end.

(** [get(name, default)]. *)
Definition get_secret (name : string) (default : option Buffer) (now : Z) (l : SecretLease)
    : SecretLease * result LeaseError (option Buffer) :=
  match check_open now l with
  | (l', Err e) => (l', Err e)
  | (l', Ok _) =>
      (l', Ok (match assoc name (sl_buffers l') with Some b => Some b | None => default end))
  end.

(** [values]. *)
Definition lease_values (now : Z) (l : SecretLease)
    : SecretLease * result LeaseError (list (string * Buffer)) :=
  match check_open now l with
  | (l', Err e) => (l', Err e)
  | (l', Ok _) => (l', Ok (sl_buffers l'))
  end.

(** One use of a lease, at whatever the clock then says; [__enter__] only checks, [__exit__]
    and [__del__] close. *)
Inductive lease_step : SecretLease → SecretLease → Prop :=
| use_read name now l : lease_step l (read name now l).1
| use_get name default now l : lease_step l (get_secret name default now l).1
| use_values now l : lease_step l (lease_values now l).1
| use_enter now l : lease_step l (check_open now l).1
| use_close l : lease_step l (close_lease l).

(** ** Lemmas: the directory *)

Section directory.
Context `{Sha256, FloatRepr}.

Lemma binding_session_ok {A} (b : CredentialBinding) (body : Bindings → result CredentialError (Bindings * A)) s s' a :
  binding_session b body s = (s', Ok a) ↔
  bs_closed s = false ∧ validate_binding b = Ok () ∧
  ∃ rows, body (bs_rows s) = Ok (rows, a) ∧ s' = {| bs_closed := false; bs_rows := rows |}.
Proof.
  unfold binding_session. rewrite transact_ok, !raise_if_then, bind_ok, negb_false_iff.
  assert (is_ok (validate_binding b) = true ↔ validate_binding b = Ok ()) as ->
    by (destruct (validate_binding b) as [[]|]; split; done).
  split.
  - intros (Ho & Hv & [rows a'] & Hb & [= <- <-]). rewrite Ho. eauto 6.
  - intros (Ho & Hv & rows & Hb & ->). split_and!; [done..|]. exists (rows, a). by rewrite Ho.
Qed.

Lemma binding_session_err {A} (b : CredentialBinding)
    (body : Bindings → result CredentialError (Bindings * A)) s s' e :
  binding_session b body s = (s', Err e) → s' = s.
Proof. unfold binding_session. by intros [-> _]%transact_err. Qed.

(** What a call does to the rows: nothing, a first binding, or the next revision. *)
Inductive binding_write (rows : Bindings) : Bindings → Prop :=
| bw_none : binding_write rows rows
| bw_first b : rows !! identity b = None → validate_binding b = Ok () →
    binding_write rows (<[identity b := b]> rows)
| bw_next b b' : rows !! identity b' = Some b → bi_revision b' = bi_revision b + 1 →
    validate_binding b' = Ok () → binding_write rows (<[identity b' := b']> rows).

Lemma put_writes b s s' a :
  put b s = (s', Ok a) → binding_write (bs_rows s) (bs_rows s') ∧ identity a = identity b ∨
  ∃ current, bs_rows s !! identity b = Some current ∧ a = current ∧ s' = s.
Proof.
  intros (Ho & Hv & rows & Hb & ->)%binding_session_ok. unfold put_body in Hb.
  destruct (bs_rows s !! identity b) as [current|] eqn:E.
  - apply raise_if_then in Hb as [_ [= <- <-]]. right. exists current. split_and!; try done.
    destruct s; simpl in *; congruence.
  - injection Hb as <- <-. left. split; [by constructor|done].
Qed.

Lemma replace_writes b s s' a :
  replace b s = (s', Ok a) → binding_write (bs_rows s) (bs_rows s') ∧ a = b ∧
  bs_rows s' !! identity b = Some b ∧ bs_closed s' = false.
Proof.
  intros (Ho & Hv & rows & Hb & ->)%binding_session_ok. unfold replace_body in Hb.
  destruct (bs_rows s !! identity b) as [current|] eqn:E; [|done].
  apply raise_if_then in Hb as [Hr [= <- <-]]. boolify. cbn. rewrite lookup_insert_eq.
  split_and!; try done. by eapply bw_next.
Qed.

Lemma binding_step_writes s s' : binding_step s s' → binding_write (bs_rows s) (bs_rows s').
Proof.
  intros [b s1|b s1|s1]; [| |constructor].
  - destruct (put b s1) as [s2 [a|e]] eqn:E; cbn.
    + apply put_writes in E as [[? _]|(? & _ & _ & ->)]; [done|constructor].
    + apply binding_session_err in E as ->. constructor.
  - destruct (replace b s1) as [s2 [a|e]] eqn:E; cbn.
    + by apply replace_writes in E as [? _].
    + apply binding_session_err in E as ->. constructor.
Qed.

Definition rows_valid (rows : Bindings) : Prop :=
  ∀ k b, rows !! k = Some b → identity b = k ∧ validate_binding b = Ok ().

Lemma binding_write_valid rows rows' : binding_write rows rows' → rows_valid rows → rows_valid rows'.
Proof.
  intros [|b _ Hb|b b' _ _ Hb] Hv; [done|..];
    intros k c [[<- <-]|[_ Hc]]%lookup_insert_Some; auto.
Qed.

(** [b'] is [b] or a later revision of it. *)
Definition binding_le (b b' : CredentialBinding) : Prop :=
  identity b' = identity b ∧ bi_revision b ≤ bi_revision b' ∧ (bi_revision b' = bi_revision b → b' = b).

#[export] Instance binding_le_preorder : PreOrder binding_le.
Proof.
  split; [by intros b; split_and!|]. intros b1 b2 b3 (I1 & R1 & E1) (I2 & R2 & E2).
  split_and!; [congruence|lia|]. intros E. rewrite <-E1, <-E2 by lia. done.
Qed.

Lemma binding_write_le (rows rows' : Bindings) k b :
  rows_valid rows → binding_write rows rows' → rows !! k = Some b →
  ∃ b', rows' !! k = Some b' ∧ binding_le b b'.
Proof.
  intros Hv Hw Hb. destruct Hw as [|b0 Hn|b0 b1 Hb0 Hr].
  - by exists b.
  - exists b. split; [|done]. rewrite lookup_insert_ne; congruence.
  - destruct (decide (identity b1 = k)) as [<-|Hne].
    + exists b1. rewrite lookup_insert_eq. split; [done|]. simplify_eq.
      destruct (Hv _ _ Hb0) as [E _]. unfold binding_le. rewrite E. split_and!; [done|lia|lia].
    + exists b. by rewrite lookup_insert_ne.
Qed.

Lemma bindings_reachable_valid s : bindings_reachable s → rows_valid (bs_rows s).
Proof.
  apply (star_invariant binding_step (λ s, rows_valid (bs_rows s))).
  - intros s1 s2 Hv Hs. eapply binding_write_valid; [by apply binding_step_writes|done].
  - intros k b Hb. cbn in Hb. by rewrite lookup_empty in Hb.
Qed.

(** The credential directory never loses or silently changes a binding: once a scope has
    one, after any further calls by anyone [get] returns a valid binding of that very scope,
    with the same or a later revision; the same revision means the same binding, digest and
    references included, and each replacement that is accepted is what [get] then returns. *)
Theorem binding_revisions_advance s s' t e a cap b :
  bindings_reachable s → star binding_step s s' → bs_closed s' = false →
  get s t e a cap = Ok (Some b) →
  (∃ b', get s' t e a cap = Ok (Some b') ∧ identity b' = (t, e, a, cap) ∧
    validate_binding b' = Ok () ∧ bi_revision b ≤ bi_revision b' ∧
    (bi_revision b' = bi_revision b → b' = b)) ∧
  ∀ b1 s1 r, identity b1 = (t, e, a, cap) → replace b1 s' = (s1, Ok r) →
    get s1 t e a cap = Ok (Some b1) ∧ bi_revision b < bi_revision b1.
Proof.
  intros Hre Hs Ho [_ [= Hb]]%raise_if_then. unfold get.
  assert (rows_valid (bs_rows s') ∧ ∃ b', bs_rows s' !! (t, e, a, cap) = Some b' ∧ binding_le b b')
    as (Hv & b' & Hb' & Hid & Hr & Heq).
  { eapply (star_entries binding_step (λ s, rows_valid (bs_rows s)) (λ s k, bs_rows s !! k) binding_le);
      [..|exact (bindings_reachable_valid s Hre)|exact Hs|exact Hb].
    - intros s1 s2 Hv Hst. eapply binding_write_valid; [by apply binding_step_writes|done].
    - intros s1 s2 k b0 Hv Hst. eapply binding_write_le; [done|by apply binding_step_writes]. }
  destruct (Hv _ _ Hb') as [Hid' Hval]. rewrite Ho. cbn [raise_if mbind result_bind]. split.
  - exists b'. rewrite Hb'. by split_and!.
  - intros b1 s1 r E Hrep. pose proof Hrep as (_ & _ & Hl & Hc)%replace_writes.
    rewrite Hc, <-E, Hl. split; [done|].
    apply binding_session_ok in Hrep as (_ & _ & rows & Hbody & _). unfold replace_body in Hbody.
    rewrite E, Hb' in Hbody. apply raise_if_then in Hbody as [Hrev _]. boolify. lia.
Qed.

End directory.

(** ** Lemmas: leases *)

(** Every buffer holds zeros only. *)
Definition wiped (l : SecretLease) : Prop := Forall (λ kv, Forall (λ z, z = 0) kv.2) (sl_buffers l).

Lemma close_lease_closed l : sl_closed (close_lease l) = true.
Proof. unfold close_lease. by destruct (sl_closed l) eqn:E. Qed.

Lemma close_lease_wiped l : sl_closed l = false → wiped (close_lease l).
Proof.
  unfold close_lease, wiped, wipe. intros ->. cbn.
  induction (sl_buffers l) as [|[k b] bs IH]; cbn; constructor; [|done].
  induction b; cbn; by constructor.
Qed.

(** A step leaves a lease as it is or closes it. *)
Lemma lease_step_cases l l' : lease_step l l' → l' = l ∨ sl_closed l = false ∧ l' = close_lease l.
Proof.
  assert (∀ now l0, (check_open now l0).1 = l0 ∨
    sl_closed l0 = false ∧ (check_open now l0).1 = close_lease l0) as Hc.
  { intros now l0. unfold check_open. destruct (sl_closed l0) eqn:E; [by left|].
    destruct (_ <=? _); [by right|by left]. }
  intros [name now l0|name d now l0|now l0|now l0|l0];
    try specialize (Hc now l0); unfold read, get_secret, lease_values in *;
    try (destruct (check_open now l0) as [l1 [[]|e]]; exact Hc).
  destruct (sl_closed l0) eqn:E; [left|by right]. unfold close_lease. by rewrite E.
Qed.

Lemma closed_forever l l' : sl_closed l = true → star lease_step l l' → l' = l.
Proof.
  intros Hc Hs. induction Hs as [|l1 l2 l3 [->|[E _]]%lease_step_cases _ IH]; [done|auto|congruence].
Qed.

(** A secret lease never gives its bytes back: until it closes every use leaves the
    buffers as they were; a use at or after the expiry, whatever was used before and whatever
    the clock says later, raises, closes the lease and wipes it; and a closed lease holds only
    zeros, refuses every read and stays closed. *)
Theorem lease_wiped_for_good value expires name own now0 l0 l now n :
  make_lease value expires name own now0 = Ok l0 → star lease_step l0 l →
  (sl_closed l = false → l = l0) ∧
  (sl_closed l = true → wiped l ∧ read n now l = (l, Err SecretLeaseClosed) ∧
    ∀ l', star lease_step l l' → l' = l) ∧
  (sl_closed l = false → expires ≤ now →
    read n now l = (close_lease l, Err SecretLeaseExpired) ∧ wiped (close_lease l) ∧
    sl_closed (close_lease l) = true).
Proof.
  intros Hm Hs.
  assert (sl_closed l0 = false ∧ sl_expires_at l0 = expires) as [Hc0 He0].
  { unfold make_lease in Hm. apply raise_if_then in Hm as [_ Hm].
    destruct value as [v|[|[k v] vs]]; try done; injection Hm as <-; done. }
  assert ((sl_closed l = false → l = l0) ∧ (sl_closed l = true → wiped l)) as [Hopen Hwiped].
  { clear Hm. induction Hs as [l0|l0 l1 l2 [->|[_ ->]]%lease_step_cases Hs IH].
    - split; [done|congruence].
    - auto.
    - assert (l2 = close_lease l0) as -> by (eapply closed_forever; [apply close_lease_closed|done]).
      rewrite close_lease_closed. split; [done|]. intros _. by apply close_lease_wiped. }
  split_and!; [done| |].
  - intros Hc. split_and!; [auto| |]; [unfold read, check_open; by rewrite Hc|].
    intros l' Hl. by eapply closed_forever.
  - intros Hc Hle. rewrite (Hopen Hc) in *. unfold read, check_open.
    rewrite Hc0, (proj2 (Z.leb_le _ _)) by lia.
    split_and!; [done|by apply close_lease_wiped|apply close_lease_closed].
Qed.

(** ** Concrete bindings and a lease *)

#[local] Existing Instances example_sha256 example_float_repr.

Example opaque_examples :
  map opaque_ok ["carrier.maersk-1"; "carrier/token"; "a..b"; "my.api-key"; "tokens"; "my_token"; ""]
  = [true; false; false; false; true; false; false].
Proof. vm_compute. reflexivity. Qed.

Definition example_binding (revision : Z) (key : string) : CredentialBinding := {|
  bi_tenant_id := "tenant"; bi_environment_id := "prod"; bi_adapter := "portal";
  bi_capability := "booking.submit";
  bi_secrets := [("login", {| sr_provider := "vault"; sr_key := key; sr_version := Some "3" |})];
  bi_revision := revision; bi_binding_digest := value_digest JNull |}.
Definition first_bindings : BindingStore := (put (example_binding 1 "portal.main") empty_bindings).1.
Definition second_bindings : BindingStore :=
  (replace (example_binding 2 "portal.other") first_bindings).1.

Example binding_conflicts :
  (put (example_binding 3 "portal.main") first_bindings).2 = Ok (example_binding 1 "portal.main") ∧
  (replace (example_binding 3 "portal.main") first_bindings).2 = Err CredentialBindingConflict ∧
  (replace (example_binding 2 "portal.main") empty_bindings).2 = Err CredentialBindingNotFound ∧
  (put (example_binding 0 "portal.main") empty_bindings).2 = Err InvalidCredentialBinding.
Proof. split_and!; vm_compute; reflexivity. Qed.

Lemma binding_revisions_advance_witness :
  ∃ b', get second_bindings "tenant" "prod" "portal" "booking.submit" = Ok (Some b') ∧ bi_revision b' = 2.
Proof.
  destruct (binding_revisions_advance first_bindings second_bindings "tenant" "prod" "portal"
    "booking.submit" (example_binding 1 "portal.main")) as [(b' & Hb & _) _].
  - apply star_one. apply (step_put (example_binding 1 "portal.main")).
  - apply star_one. apply (step_replace (example_binding 2 "portal.other")).
  - vm_compute. reflexivity.
  - vm_compute. reflexivity.
  - exists b'. split; [exact Hb|]. revert Hb. vm_compute. intros [= <-]. reflexivity.
Defined.

Definition example_lease : SecretLease := {|
  sl_buffers := [("value", [115; 51; 99])]; sl_default_name := "value"; sl_closed := false;
  sl_expires_at := 100 |}.
Definition expired_lease : SecretLease := (read None 100 example_lease).1.

Lemma lease_wiped_for_good_witness :
  sl_buffers expired_lease = [("value", [0; 0; 0])] ∧
  read None 5 expired_lease = (expired_lease, Err SecretLeaseClosed).
Proof.
  destruct (lease_wiped_for_good (OneValue [115; 51; 99]) 100 "value" false 0 example_lease
    expired_lease 5 None) as (_ & Hc & _).
  - reflexivity.
  - apply star_one. apply (use_read None 100).
  - split; [reflexivity|]. exact (proj1 (proj2 (Hc eq_refl))).
Defined.
