(* ===== verification/PolicyPlanning.v ===== *)
(** * Freezing policy into plans (runtime/policy.py)

    [apply_execution_policy] asks the policy provider about every attempt a plan may make,
    copies the credential digests and approval boundaries into the steps, and returns the plan
    that carries the decisions.  The provider is an argument with the interface
    [LawfulProvider]; the credential directory is the [get] of Credentials. *)

From Stdlib Require Import Ascii.
From S2P Require Import Prelude.
From S2P Require Import Contracts.
From S2P Require Import Documents.
From S2P Require Import Routing.
From S2P Require Import Policy.
From S2P Require Import Verification.
From S2P Require Import RuntimeModels.
From S2P Require Import Credentials.

Inductive PlanningError :=
| PolicyPlanningError (code : string) (message : string) (status_code : Z)
| PlanningValueError (message : string).

Definition policy_unavailable (message : string) : PlanningError :=
  PolicyPlanningError "policy_unavailable" message 503.

(** What awaiting [provider.evaluate] gives. *)
Inductive ProviderAnswer :=
| Decided (d : PolicyDecision)
| NotADecision
| ProviderRaised.
Definition PolicyProvider : Type := PolicyInput → ProviderAnswer.

(** [EmbeddedPolicyProvider.evaluate] as a provider. *)
Definition embedded_provider `{Sha256, FloatRepr} (s : PolicySet) : PolicyProvider := λ i,
  match embedded_evaluate s i with Ok d => Decided d | Err _ => ProviderRaised end.

(** [CredentialBindingStore.get]. *)
Definition BindingDirectory : Type :=
  string → string → string → string → result CredentialError (option CredentialBinding).

(** [_PROVIDER_FAILURE_REASONS]. *)
Definition PROVIDER_FAILURE_REASONS : list string :=
  ["policy_provider_error"; "opa_timeout"; "opa_transport_error"; "opa_http_error";
   "opa_redirect_rejected"; "opa_content_type_invalid"; "opa_content_length_invalid";
   "opa_response_too_large"; "opa_response_invalid"].

(** [_binding_digest]. *)
Definition binding_digest (store : option BindingDirectory)
    (tenant_id environment_id adapter capability : string) : result PlanningError (option string) :=
  match store with
  | None => Ok None
  | Some get =>
      match get tenant_id environment_id adapter capability with
      | Ok None => Ok None
      | Ok (Some binding) => Ok (Some (bi_binding_digest binding))
      | Err _ => Err (PolicyPlanningError "credential_directory_unavailable"
                        "Credential metadata is temporarily unavailable" 503)
      end
  end.

Section planning.
Context `{Sha256, FloatRepr}.

Section attempt.
Context (provider : PolicyProvider) (plan : ExecutionPlan).
Context (environment_id principal_ref : string) (evaluated_at : Z).

(** The arguments of [PolicyInput.issue] for an attempt. *)
Definition attempt_input (capability : string) (risk_class : RiskClass) (route adapter : string)
    (channel : ExecutionChannel) : PolicyInput := {|
  pi_tenant_id := pl_tenant_id plan; pi_environment_id := environment_id;
  pi_principal_ref := principal_ref; pi_capability := capability; pi_risk_class := risk_class;
  pi_data_classification := pl_data_classification plan;
  pi_requested_verification_level := pl_verification_level plan; pi_route := route;
  pi_channel := channel; pi_adapter := adapter; pi_evaluated_at := evaluated_at;
  pi_input_digest := "" |}.

(** [_evaluate_attempt]. *)
Definition evaluate_attempt (capability : string) (risk_class : RiskClass)
    (route adapter : string) (channel : ExecutionChannel) : result PlanningError PolicyDecision :=
  let temporarily := "Execution policy is temporarily unavailable" in
  let invalid := "Execution policy returned an invalid decision" in
  match issue_input (attempt_input capability risk_class route adapter channel) with
  | Err _ => Err (policy_unavailable temporarily)
  | Ok policy_input =>
      match provider policy_input with
      | ProviderRaised => Err (policy_unavailable temporarily)
      | NotADecision => Err (policy_unavailable invalid)
      | Decided decision =>
          raise_if (negb (bool_decide (pd_input decision = policy_input))) (policy_unavailable invalid);;
          if is_effect (pd_effect decision) DENY then
            let unavailable :=
              mem (pd_reason_code decision) PROVIDER_FAILURE_REASONS
              || String.prefix "opa_" (pd_reason_code decision)
              || String.prefix "policy_provider_" (pd_reason_code decision) in
            Err (if unavailable then policy_unavailable temporarily
                 else PolicyPlanningError "policy_denied"
                        "Execution policy denied this transaction" 403)
          else Ok decision
      end
  end.

Context (credential_bindings : option BindingDirectory) (default_approval_timeout_seconds : Z).

Definition attempt_digest (adapter capability : string) : result PlanningError (option string) :=
  binding_digest credential_bindings (pl_tenant_id plan) environment_id adapter capability.

(** [fallback.model_copy(update=...)]. *)
Definition with_fallback_digest (f : RouteFallbackSpec) (digest : option string) : RouteFallbackSpec := {|
  rf_candidate_id := rf_candidate_id f; rf_adapter := rf_adapter f; rf_operation := rf_operation f;
  rf_timeout_seconds := rf_timeout_seconds f; rf_retry := rf_retry f;
  rf_fallback_on_error_codes := rf_fallback_on_error_codes f;
  rf_execution_channel := rf_execution_channel f; rf_credential_binding_digest := digest |}.

(** One turn of the loop over [step.route_fallbacks]. *)
Definition freeze_fallback (step : ExecutionStep) (f : RouteFallbackSpec)
    : result PlanningError (RouteFallbackSpec * PolicyDecision) :=
  digest ← attempt_digest (rf_adapter f) (st_capability step);
  decision ← evaluate_attempt (st_capability step) (st_risk_class step) (rf_candidate_id f)
               (rf_adapter f) (rf_execution_channel f);
  Ok (with_fallback_digest f digest, decision).

Definition with_compensation_digest (c : CompensationSpec) (digest : option string) : CompensationSpec := {|
  cp_adapter := cp_adapter c; cp_operation := cp_operation c; cp_capability := cp_capability c;
  cp_risk_class := cp_risk_class c; cp_execution_channel := cp_execution_channel c;
  cp_credential_binding_digest := digest;
  cp_include_effect_reference := cp_include_effect_reference c; cp_input := cp_input c;
  cp_timeout_seconds := cp_timeout_seconds c; cp_retry := cp_retry c |}.

(** The compensation's attempt, when it names a capability. *)
Definition freeze_compensation (compensation : option CompensationSpec)
    : result PlanningError (option CompensationSpec * list PolicyDecision) :=
  match compensation with
  | Some c =>
      match cp_capability c with
      | Some capability =>
          digest ← attempt_digest (cp_adapter c) capability;
          decision ← evaluate_attempt capability (cp_risk_class c) (cp_adapter c) (cp_adapter c)
                       (cp_execution_channel c);
          raise_if (is_effect (pd_effect decision) REQUIRE_APPROVAL)
            (PolicyPlanningError "compensation_approval_unsupported"
               "Compensation policy must allow direct bounded recovery" 403);;
          Ok (Some (with_compensation_digest c digest), [decision])
      | None => Ok (Some c, [])
      end
  | None => Ok (None, [])
  end.

(** [step.approval_timeout_seconds or default_approval_timeout_seconds]. *)
Definition approval_timeout (o : option Z) : Z :=
  match o with
  | Some t => if t =? 0 then default_approval_timeout_seconds else t
  | None => default_approval_timeout_seconds
  end.

(** [step.model_copy(update=updates)]. *)
Definition updated_step (step : ExecutionStep) (digest : option string)
    (fallbacks : list RouteFallbackSpec) (compensation : option CompensationSpec)
    (approval_required : bool) : ExecutionStep := {|
  st_step_id := st_step_id step; st_capability := st_capability step; st_adapter := st_adapter step;
  st_operation := st_operation step; st_risk_class := st_risk_class step; st_input := st_input step;
  st_depends_on := st_depends_on step; st_timeout_seconds := st_timeout_seconds step;
  st_retry := st_retry step;
  st_requires_approval := if approval_required then true else st_requires_approval step;
  st_approval_timeout_seconds :=
    if approval_required then Some (approval_timeout (st_approval_timeout_seconds step))
    else st_approval_timeout_seconds step;
  st_compensation := compensation; st_route_candidate_id := st_route_candidate_id step;
  st_fallback_on_error_codes := st_fallback_on_error_codes step;
  st_unknown_effect_error_codes := st_unknown_effect_error_codes step;
  st_route_fallbacks := fallbacks; st_execution_channel := st_execution_channel step;
  st_credential_binding_digest := digest |}.

(** What one turn of the loop over [plan.steps] appends to its lists. *)
Record Frozen := {
  fz_step : ExecutionStep;
  fz_primary : PolicyDecision;
  fz_fallbacks : list PolicyDecision;
  fz_compensations : list PolicyDecision }.

(** [step.route_candidate_id or step.adapter]. *)
Definition primary_route (step : ExecutionStep) : string :=
  match st_route_candidate_id step with
  | Some i => if bool_decide (i = EmptyString) then st_adapter step else i
  | None => st_adapter step
  end.

Definition freeze_step (step : ExecutionStep) : result PlanningError Frozen :=
  digest ← attempt_digest (st_adapter step) (st_capability step);
  primary ← evaluate_attempt (st_capability step) (st_risk_class step) (primary_route step)
              (st_adapter step) (st_execution_channel step);
  fallbacks ← mapM_result (freeze_fallback step) (st_route_fallbacks step);
  '(compensation, compensations) ← freeze_compensation (st_compensation step);
  let approval_required :=
    is_effect (pd_effect primary) REQUIRE_APPROVAL
    || existsb (λ fd, is_effect (pd_effect fd.2) REQUIRE_APPROVAL) fallbacks in
  Ok {| fz_step := updated_step step digest (map fst fallbacks) compensation approval_required;
        fz_primary := primary; fz_fallbacks := map snd fallbacks;
        fz_compensations := compensations |}.

End attempt.

(** [ExecutionPlan.model_validate(payload)]: the steps and the decisions are instances, which
    pydantic does not validate again; the other parts are. *)
Definition revalidate_plan (p : ExecutionPlan) : result string () :=
  match pl_verification p with Some v => validate_plan v | None => Ok () end;;
  foldM (λ _ d, Routing.validate_decision d) () (pl_routing_decisions p);;
  validate_plan_level p.

Definition frozen_plan (plan : ExecutionPlan) (environment_id : string) (frozen : list Frozen)
    : ExecutionPlan := {|
  pl_transaction_id := pl_transaction_id plan; pl_tenant_id := pl_tenant_id plan;
  pl_environment_id := environment_id; pl_business_digest := pl_business_digest plan;
  pl_risk_class := pl_risk_class plan; pl_verification_level := pl_verification_level plan;
  pl_data_classification := pl_data_classification plan; pl_steps := map fz_step frozen;
  pl_verification := pl_verification plan; pl_routing_decisions := pl_routing_decisions plan;
  pl_policy_decisions := map fz_primary frozen ++ concat (map fz_fallbacks frozen)
                         ++ concat (map fz_compensations frozen) |}.

(** [apply_execution_policy]; [clock] is what the clock reads. *)
Definition apply_execution_policy (plan : ExecutionPlan) (provider : PolicyProvider)
    (environment_id principal_ref : string) (credential_bindings : option BindingDirectory)
    (default_approval_timeout_seconds : Z) (clock : Datetime) : result PlanningError ExecutionPlan :=
  raise_if (negb (between 1 default_approval_timeout_seconds 604800))
    (PlanningValueError "default approval timeout is out of bounds");;
  raise_if (naive clock) (PlanningValueError "policy clock must return a timezone-aware value");;
  frozen ← mapM_result (freeze_step provider plan environment_id principal_ref (instant clock)
                          credential_bindings default_approval_timeout_seconds) (pl_steps plan);
  let p := frozen_plan plan environment_id frozen in
  match revalidate_plan p with
  | Ok _ => Ok p
  | Err _ => Err (PolicyPlanningError "policy_plan_invalid"
                    "Policy result could not be frozen into a valid execution plan" 503)
  end.

End planning.

(** ** The interface of policy providers *)

(** A provider that only returns decisions that validate. *)
Class LawfulProvider `{Sha256, FloatRepr} (provider : PolicyProvider) : Prop :=
  decided_valid i d : provider i = Decided d → Policy.validate_decision d = Ok ().

(** The digests a directory hands out come from validated bindings. *)
Definition lawful_directory (store : option BindingDirectory) : Prop :=
  ∀ get t e a c b, store = Some get → get t e a c = Ok (Some b) → Digest_ok (bi_binding_digest b) = true.

#[export] Instance embedded_lawful `{Sha256, FloatRepr} s : LawfulProvider (embedded_provider s).
Proof.
  intros i d. unfold embedded_provider, embedded_evaluate.
  assert (∀ x y, issue_decision x = Ok y → Policy.validate_decision y = Ok ()) as Hi
    by (intros x y; by intros [_ ?]%issue_decision_inv).
  destruct (evaluate s i) as [d'|] eqn:E.
  - intros [= <-]. unfold evaluate in E. destruct (first_match _ _); by eapply Hi.
  - destruct (provider_deny s i _) as [d'|] eqn:E'; [|done]. intros [= <-]. by eapply Hi.
Qed.

Lemma directory_lawful `{Sha256, FloatRepr} s :
  bindings_reachable s → lawful_directory (Some (get s)).
Proof.
  intros Hs get' t e a c b [= <-] [_ [= Hb]]%raise_if_then.
  destruct (bindings_reachable_valid s Hs _ _ Hb) as [_ Hv]. unfold validate_binding in Hv.
  apply bind_ok in Hv as ([] & _ & Hv). rewrite !raise_if_then in Hv.
  destruct Hv as (_ & _ & Hd & _). by boolify.
Qed.

(** ** Lemmas *)

Section lemmas.
Context `{Sha256, FloatRepr} (provider : PolicyProvider) (plan : ExecutionPlan).
Context (environment_id principal_ref : string) (evaluated_at : Z).
Context (credential_bindings : option BindingDirectory) (default_timeout : Z).

Notation input_of := (attempt_input plan environment_id principal_ref evaluated_at).
Notation evaluate_at := (evaluate_attempt provider plan environment_id principal_ref evaluated_at).
Notation freeze := (freeze_step provider plan environment_id principal_ref evaluated_at
                      credential_bindings default_timeout).

(** The decision [d] permits the attempt [a]: it is the provider's answer to exactly this
    attempt, not a denial, and for a compensation not an approval either. *)
Definition permits (a : Attempt) (d : PolicyDecision) : Prop :=
  issue_input (input_of (at_capability a) (at_risk_class a) (at_route a) (at_adapter a)
                 (at_channel a)) = Ok (pd_input d) ∧
  provider (pd_input d) = Decided d ∧ pd_effect d ≠ DENY ∧
  (at_is_compensation a = true → pd_effect d ≠ REQUIRE_APPROVAL).

Lemma evaluate_attempt_ok capability risk route adapter channel d :
  evaluate_at capability risk route adapter channel = Ok d ↔
  issue_input (input_of capability risk route adapter channel) = Ok (pd_input d) ∧
  provider (pd_input d) = Decided d ∧ pd_effect d ≠ DENY.
Proof.
  unfold evaluate_attempt. destruct (issue_input _) as [i|]; [|naive_solver].
  split.
  - destruct (provider i) as [d'| |] eqn:E; [|done..]. rewrite raise_if_then. intros [Hi Hd].
    boolify. unfold is_effect in Hd. case_bool_decide; [done|]. injection Hd as <-.
    rewrite Hi. by split_and!.
  - intros ([= ->] & -> & Hd). cbn. rewrite bool_decide_eq_true_2 by done. cbn.
    unfold is_effect. by rewrite bool_decide_eq_false_2.
Qed.

Lemma issued_input i i' :
  issue_input i = Ok i' →
  pi_tenant_id i' = pi_tenant_id i ∧ pi_environment_id i' = pi_environment_id i ∧
  pi_capability i' = pi_capability i ∧ pi_risk_class i' = pi_risk_class i ∧
  pi_data_classification i' = pi_data_classification i ∧
  pi_requested_verification_level i' = pi_requested_verification_level i ∧
  pi_route i' = pi_route i ∧ pi_adapter i' = pi_adapter i ∧ pi_channel i' = pi_channel i.
Proof. unfold issue_input. intros ([] & _ & [= <-])%bind_ok. done. Qed.

(** A permitting decision passes the plan's own comparison. *)
Lemma permits_matches p a d :
  pl_tenant_id p = pl_tenant_id plan → pl_environment_id p = environment_id →
  pl_data_classification p = pl_data_classification plan →
  pl_verification_level p = pl_verification_level plan →
  permits a d → policy_matches p a (pd_input d) = true.
Proof.
  intros E1 E2 E3 E4 (Hi%issued_input & _). unfold policy_matches.
  destruct Hi as (-> & -> & -> & -> & -> & -> & -> & -> & ->). cbn. rewrite E1, E2, E3, E4. by rewrite !bool_decide_eq_true_2.
Qed.

Lemma attempt_digest_ok adapter capability digest :
  lawful_directory credential_bindings →
  attempt_digest plan environment_id credential_bindings adapter capability = Ok digest →
  optional_digest_ok digest = true.
Proof.
  unfold attempt_digest, binding_digest. intros Hl. destruct credential_bindings as [get'|]; [|by intros [= <-]].
  destruct (get' _ _ _ _) as [[b|]|] eqn:E; [|by intros [= <-]|done]. intros [= <-].
  by eapply Hl.
Qed.

(** ** One step *)

Lemma freeze_fallback_ok step f f' d :
  freeze_fallback provider plan environment_id principal_ref evaluated_at credential_bindings step f
  = Ok (f', d) →
  (∃ digest, attempt_digest plan environment_id credential_bindings (rf_adapter f) (st_capability step)
     = Ok digest ∧ f' = with_fallback_digest f digest) ∧
  evaluate_at (st_capability step) (st_risk_class step) (rf_candidate_id f) (rf_adapter f)
    (rf_execution_channel f) = Ok d.
Proof.
  unfold freeze_fallback. intros (digest & Hd & (d' & He & [= <- <-])%bind_ok)%bind_ok. eauto.
Qed.

Lemma freeze_fallbacks_ok step l frozen :
  mapM_result (freeze_fallback provider plan environment_id principal_ref evaluated_at
                 credential_bindings step) l = Ok frozen →
  lawful_directory credential_bindings →
  Forall2 permits (map (λ f, {|
      at_step_id := st_step_id step; at_capability := st_capability step;
      at_risk_class := st_risk_class step; at_route := rf_candidate_id f;
      at_adapter := rf_adapter f; at_channel := rf_execution_channel f;
      at_is_compensation := false |}) l) (map snd frozen) ∧
  Forall2 (λ f f', ∃ digest, f' = with_fallback_digest f digest ∧ optional_digest_ok digest = true)
    l (map fst frozen).
Proof.
  intros Hm Hl. apply mapM_result_Forall2 in Hm.
  induction Hm as [|f [f' d] l frozen Hf _ [IH1 IH2]]; cbn; [split; constructor|].
  apply freeze_fallback_ok in Hf as [(digest & Hd & ->) He].
  split; constructor; try done.
  - apply evaluate_attempt_ok in He as (Hi & Hp & Hne). by split_and!.
  - exists digest. split; [done|]. by eapply attempt_digest_ok.
Qed.

Lemma freeze_compensation_ok step_id o o' ds :
  freeze_compensation provider plan environment_id principal_ref evaluated_at credential_bindings o
  = Ok (o', ds) →
  lawful_directory credential_bindings →
  Forall2 permits (match o with
    | Some c => match cp_capability c with
                | Some capability => [{|
                    at_step_id := step_id; at_capability := capability;
                    at_risk_class := cp_risk_class c; at_route := cp_adapter c;
                    at_adapter := cp_adapter c; at_channel := cp_execution_channel c;
                    at_is_compensation := true |}]
                | None => []
                end
    | None => []
    end) ds ∧
  (o' = o ∨ ∃ c digest, o = Some c ∧ is_none (cp_capability c) = false ∧
    o' = Some (with_compensation_digest c digest) ∧ optional_digest_ok digest = true).
Proof.
  unfold freeze_compensation. destruct o as [c|]; [|intros [= <- <-]; split; [constructor|by left]].
  destruct (cp_capability c) as [capability|] eqn:Ec;
    [|intros [= <- <-]; split; [constructor|by left]].
  intros (digest & Hd & (d & He & Hr)%bind_ok)%bind_ok Hl.
  apply raise_if_then in Hr as [Hr [= <- <-]]. unfold is_effect in Hr. boolify.
  apply evaluate_attempt_ok in He as (Hi & Hp & Hne). split.
  - constructor; [|constructor]. by split_and!.
  - right. exists c, digest. rewrite Ec. split_and!; try done. by eapply attempt_digest_ok.
Qed.

(** What freezing may change of a step: its credential digests and its approval boundary,
    which is only ever added. *)
Record strengthened (s s' : ExecutionStep) : Prop := {
  sg_id : st_step_id s' = st_step_id s;
  sg_operation : st_operation s' = st_operation s;
  sg_input : st_input s' = st_input s;
  sg_depends : st_depends_on s' = st_depends_on s;
  sg_risk : st_risk_class s' = st_risk_class s;
  sg_capability : st_capability s' = st_capability s;
  sg_route : st_route_candidate_id s' = st_route_candidate_id s;
  sg_fallbacks : map rf_candidate_id (st_route_fallbacks s') = map rf_candidate_id (st_route_fallbacks s);
  sg_primary : primary_attempt s' = primary_attempt s;
  sg_fallback : fallback_attempts s' = fallback_attempts s;
  sg_compensation : compensation_attempt s' = compensation_attempt s;
  sg_approval : st_requires_approval s = true → st_requires_approval s' = true }.

Lemma fallbacks_same step l l' :
  Forall2 (λ f f', ∃ digest, f' = with_fallback_digest f digest ∧ optional_digest_ok digest = true) l l' →
  map rf_candidate_id l' = map rf_candidate_id l ∧
  map (λ f, {|
    at_step_id := st_step_id step; at_capability := st_capability step;
    at_risk_class := st_risk_class step; at_route := rf_candidate_id f; at_adapter := rf_adapter f;
    at_channel := rf_execution_channel f; at_is_compensation := false |}) l'
  = map (λ f, {|
    at_step_id := st_step_id step; at_capability := st_capability step;
    at_risk_class := st_risk_class step; at_route := rf_candidate_id f; at_adapter := rf_adapter f;
    at_channel := rf_execution_channel f; at_is_compensation := false |}) l ∧
  is_nil l' = is_nil l ∧
  (foldM (λ _ f, validate_fallback f) () l = Ok () → foldM (λ _ f, validate_fallback f) () l' = Ok ()).
Proof.
  induction 1 as [|f f' l l' (digest & -> & Hd) _ (IH1 & IH2 & _ & IH3)]; [done|]. cbn.
  split_and!; [by f_equal|by f_equal|done|]. intros ([] & Hf & Hl)%bind_ok.
  apply bind_ok. exists (). split; [|auto]. unfold validate_fallback in *. cbn in *.
  apply bind_ok in Hf as ([] & Hr & Hf). rewrite Hr. cbn.
  rewrite !raise_if_then, raise_if_ok in Hf. destruct Hf as (-> & -> & _). cbn. by rewrite Hd.
Qed.

Lemma compensation_same o o' :
  (o' = o ∨ ∃ c digest, o = Some c ∧ is_none (cp_capability c) = false ∧
    o' = Some (with_compensation_digest c digest) ∧ optional_digest_ok digest = true) →
  match o with Some c => validate_compensation c | None => Ok () end = Ok () →
  match o' with Some c => validate_compensation c | None => Ok () end = Ok () ∧
  is_none o' = is_none o ∧
  match o' with Some c => has_secret_values (JObj (cp_input c)) | None => false end
  = match o with Some c => has_secret_values (JObj (cp_input c)) | None => false end.
Proof.
  intros [->|(c & digest & -> & Hc & -> & Hd)] Hv; [by split_and!|]. split_and!; [|done..].
  unfold validate_compensation in *. cbn in *. apply bind_ok in Hv as ([] & Hr & Hv).
  rewrite Hr. cbn. rewrite !raise_if_then, raise_if_ok in Hv.
  destruct Hv as (-> & -> & _ & _ & ->). cbn. rewrite Hd, Hc. cbn. by rewrite andb_false_r.
Qed.

Lemma updated_step_valid step digest fallbacks compensation approval :
  validate_step step = Ok () → between 1 default_timeout 604800 = true →
  optional_digest_ok digest = true →
  Forall2 (λ f f', ∃ digest, f' = with_fallback_digest f digest ∧ optional_digest_ok digest = true)
    (st_route_fallbacks step) fallbacks →
  (compensation = st_compensation step ∨ ∃ c digest, st_compensation step = Some c ∧
    is_none (cp_capability c) = false ∧ compensation = Some (with_compensation_digest c digest) ∧
    optional_digest_ok digest = true) →
  validate_step (updated_step default_timeout step digest fallbacks compensation approval) = Ok ().
Proof.
  intros Hs Hdef Hdig (Eids & _ & Enil & Hfb)%(fallbacks_same step) Hc. unfold validate_step in Hs.
  apply bind_ok in Hs as ([] & Hr & Hs). apply bind_ok in Hs as ([] & Hcomp & Hs).
  apply bind_ok in Hs as ([] & Hf & Hs). rewrite !raise_if_then, raise_if_ok in Hs.
  destruct Hs as (F1 & F2 & F3 & F4 & F5 & F6 & F7 & F8 & F9 & F10 & F11 & F12 & F13 & _ & F15 & F16).
  destruct (compensation_same _ _ Hc Hcomp) as (Hcomp' & Hnone & Hsec).
  unfold validate_step, updated_step, step_fields_ok, step_read_only.
  unfold step_fields_ok, step_read_only in F1, F5, F8, F11.
  cbn [st_step_id st_capability st_adapter st_operation st_risk_class st_input st_depends_on
    st_timeout_seconds st_retry st_requires_approval st_approval_timeout_seconds st_compensation
    st_route_candidate_id st_fallback_on_error_codes st_unknown_effect_error_codes
    st_route_fallbacks st_execution_channel st_credential_binding_digest].
  rewrite Hr, Hcomp', (Hfb Hf), F2, F3, F6, F7, F8, F9, Eids, F12, F13, Hnone, F5, F15, Hsec, F16, Hdig.
  rewrite Enil, F10, F11. cbn [mbind result_bind raise_if negb].
  destruct approval; [|by rewrite F1, F4]. apply negb_false_iff in F1. rewrite !andb_true_iff in F1.
  destruct_and! F1. repeat match goal with E : _ = true |- _ => rewrite E; clear E end.
  assert (between 1 (approval_timeout default_timeout (st_approval_timeout_seconds step)) 604800 = true) as Ha.
  { unfold approval_timeout. destruct (st_approval_timeout_seconds step) as [t|]; [|done].
    by destruct (t =? 0). }
  cbn [opt_ok]. rewrite Ha. done.
Qed.

(** The result of one turn of the loop. *)
Record frozen_ok (step : ExecutionStep) (fz : Frozen) : Prop := {
  fo_step : strengthened step (fz_step fz);
  fo_valid : validate_step (fz_step fz) = Ok ();
  fo_primary : permits (primary_attempt step) (fz_primary fz);
  fo_fallbacks : Forall2 permits (fallback_attempts step) (fz_fallbacks fz);
  fo_compensations : Forall2 permits (compensation_attempt step) (fz_compensations fz);
  fo_approval : ∀ d, d = fz_primary fz ∨ d ∈ fz_fallbacks fz → pd_effect d = REQUIRE_APPROVAL →
    st_requires_approval (fz_step fz) = true }.

Lemma primary_route_ok step :
  validate_step step = Ok () → primary_route step = at_route (primary_attempt step).
Proof.
  intros Hs. unfold validate_step in Hs. apply bind_ok in Hs as ([] & _ & Hs).
  apply bind_ok in Hs as ([] & _ & Hs). apply bind_ok in Hs as ([] & _ & Hs).
  apply raise_if_then in Hs as [Hf _]. unfold step_fields_ok in Hf.
  unfold primary_route. cbn. destruct (st_route_candidate_id step) as [i|]; [|done]. cbn.
  case_bool_decide as Hi; [|done]. subst i. cbn in Hf. rewrite andb_false_r in Hf. done.
Qed.

Lemma freeze_step_ok step fz :
  freeze step = Ok fz → lawful_directory credential_bindings → validate_step step = Ok () →
  between 1 default_timeout 604800 = true → frozen_ok step fz.
Proof.
  intros Hz Hl Hs Hdef. unfold freeze_step in Hz.
  apply bind_ok in Hz as (digest & Hd & Hz). apply bind_ok in Hz as (primary & Hp & Hz).
  apply bind_ok in Hz as (fallbacks & Hf & Hz).
  apply bind_ok in Hz as ([compensation ds] & Hc & [= <-]).
  rewrite (primary_route_ok step Hs) in Hp.
  apply freeze_fallbacks_ok in Hf as [Hperm Hfb]; [|done].
  apply (freeze_compensation_ok (st_step_id step)) in Hc as [Hcp Hcs]; [|done].
  apply evaluate_attempt_ok in Hp as (Hi & Hans & Hne).
  pose proof (fallbacks_same step _ _ Hfb) as (Eids & Eatt & _ & _).
  set (approval := is_effect (pd_effect primary) REQUIRE_APPROVAL || _).
  split; cbn [fz_step fz_primary fz_fallbacks fz_compensations].
  - split; cbn; try done.
    + destruct Hcs as [->|(c & digest' & E & _ & -> & _)]; [done|].
      unfold compensation_attempt. rewrite E. done.
    + by destruct approval.
  - apply updated_step_valid; try done. by eapply attempt_digest_ok.
  - by split_and!.
  - exact Hperm.
  - exact Hcp.
  - intros d Hin Hr. cbn. assert (approval = true) as ->; [|done]. unfold approval, is_effect.
    destruct Hin as [->|Hin]; [by rewrite bool_decide_eq_true_2|].
    apply orb_true_iff. right. apply list_elem_of_fmap in Hin as ([f d'] & -> & Hin).
    apply existsb_exists. exists (f, d'). split; [by apply list_elem_of_In|].
    by apply bool_decide_eq_true_2.
Qed.

(** ** The plan *)

Lemma Forall2_concat_map {X Y A B} (P : A → B → Prop) (f : X → list A) (g : Y → list B) l k :
  Forall2 (λ x y, Forall2 P (f x) (g y)) l k → Forall2 P (concat (map f l)) (concat (map g k)).
Proof. induction 1; cbn; [constructor|by apply Forall2_app]. Qed.

Lemma Forall2_elem {A B} (P : A → B → Prop) (l : list A) (k : list B) :
  Forall2 P l k → Forall2 (λ a b, P a b ∧ a ∈ l ∧ b ∈ k) l k.
Proof.
  induction 1 as [|a b l k Hp _ IH]; constructor; [split_and!; [done|left|left]|].
  eapply Forall2_impl; [exact IH|]. intros a' b' (? & ? & ?). split_and!; [done|by right|by right].
Qed.

Lemma frozen_permits steps frozen :
  Forall2 frozen_ok steps frozen →
  Forall2 permits (attempts steps)
    (map fz_primary frozen ++ concat (map fz_fallbacks frozen) ++ concat (map fz_compensations frozen)).
Proof.
  intros HF. unfold attempts. repeat apply Forall2_app.
  - apply Forall2_fmap, (Forall2_impl _ _ _ _ HF). intros ?? []. done.
  - apply Forall2_concat_map, (Forall2_impl _ _ _ _ HF). intros ?? []. done.
  - apply Forall2_concat_map, (Forall2_impl _ _ _ _ HF). intros ?? []. done.
Qed.

Lemma frozen_steps steps frozen :
  Forall2 frozen_ok steps frozen → Forall2 strengthened steps (map fz_step frozen).
Proof.
  intros HF. apply Forall2_fmap_r, (Forall2_impl _ _ _ _ HF). intros ?? []. done.
Qed.

Lemma strengthened_attempts steps steps' :
  Forall2 strengthened steps steps' →
  attempts steps' = attempts steps ∧ map st_step_id steps' = map st_step_id steps.
Proof.
  unfold attempts. intros HF.
  assert (map primary_attempt steps' = map primary_attempt steps ∧
    map fallback_attempts steps' = map fallback_attempts steps ∧
    map compensation_attempt steps' = map compensation_attempt steps ∧
    map st_step_id steps' = map st_step_id steps) as (-> & -> & -> & ->); [|done].
  induction HF as [|s s' l l' [] _ (IH1 & IH2 & IH3 & IH4)]; [done|]. cbn.
  split_and!; by f_equal.
Qed.

End lemmas.

Section freeze.
Context `{Sha256, FloatRepr} (provider : PolicyProvider) (plan : ExecutionPlan).
Context (environment_id principal_ref : string) (clock : Datetime).
Context (credential_bindings : option BindingDirectory) (default_timeout : Z).
Context `{!LawfulProvider provider}.
Hypothesis Hdirectory : lawful_directory credential_bindings.
Hypothesis Hplan : validate_execution_plan plan = Ok ().

Notation permitted := (permits provider plan environment_id principal_ref (instant clock)).
Notation frozen_okay := (frozen_ok provider plan environment_id principal_ref (instant clock)).
Notation freeze := (freeze_step provider plan environment_id principal_ref (instant clock)
                      credential_bindings default_timeout).

Lemma plan_step_valid s : s ∈ pl_steps plan → validate_step s = Ok ().
Proof. apply validate_plan_parts in Hplan as [Hs _]. apply Hs. Qed.

Lemma frozen_all frozen :
  between 1 default_timeout 604800 = true →
  mapM_result freeze (pl_steps plan) = Ok frozen → Forall2 frozen_okay (pl_steps plan) frozen.
Proof.
  intros Hdef Hm%mapM_result_Forall2.
  assert (∀ s, s ∈ pl_steps plan → validate_step s = Ok ()) as Hv by apply plan_step_valid.
  induction Hm as [|s fz l l' Hz _ IH]; constructor.
  - eapply freeze_step_ok; eauto. apply Hv. left.
  - apply IH. intros s' Hs'. apply Hv. by right.
Qed.

(** An approval asked for an attempt is the approval boundary of its step. *)
Definition approval_frozen (steps : list ExecutionStep) (a : Attempt) (d : PolicyDecision) : Prop :=
  pd_effect d = REQUIRE_APPROVAL →
  ∃ s, s ∈ steps ∧ st_step_id s = at_step_id a ∧ st_requires_approval s = true.

Lemma step_approvals s fz (steps : list ExecutionStep) :
  frozen_okay s fz → fz_step fz ∈ steps →
  approval_frozen steps (primary_attempt s) (fz_primary fz) ∧
  Forall2 (approval_frozen steps) (fallback_attempts s) (fz_fallbacks fz) ∧
  Forall2 (approval_frozen steps) (compensation_attempt s) (fz_compensations fz).
Proof.
  intros [Hsg _ Hp Hf Hc Ha] Hin. assert (st_step_id (fz_step fz) = st_step_id s) as Eid by apply Hsg.
  split_and!.
  - intros Hr. exists (fz_step fz). split_and!; [done..|]. apply (Ha (fz_primary fz)); auto.
  - eapply Forall2_impl; [exact (Forall2_elem _ _ _ Hf)|]. intros a d (_ & Hain & Hd) Hr.
    exists (fz_step fz). split_and!; [done| |by apply (Ha d); auto].
    unfold fallback_attempts in Hain. by apply list_elem_of_fmap in Hain as (f & -> & _).
  - eapply Forall2_impl; [exact (Forall2_elem _ _ _ Hc)|]. intros a d ((_ & _ & _ & Hne) & Hain & _) Hr.
    exfalso. apply Hne; [|done]. unfold compensation_attempt in Hain.
    destruct (st_compensation s) as [c|]; [|by apply elem_of_nil in Hain].
    destruct (cp_capability c); [|by apply elem_of_nil in Hain].
    by apply list_elem_of_singleton in Hain as ->.
Qed.

Lemma frozen_approvals steps frozen (all : list ExecutionStep) :
  Forall2 frozen_okay steps frozen → (∀ fz, fz ∈ frozen → fz_step fz ∈ all) →
  Forall2 (approval_frozen all) (attempts steps)
    (map fz_primary frozen ++ concat (map fz_fallbacks frozen) ++ concat (map fz_compensations frozen)).
Proof.
  intros HF Hall. apply Forall2_elem in HF.
  assert (Forall2 (λ s fz, approval_frozen all (primary_attempt s) (fz_primary fz) ∧
    Forall2 (approval_frozen all) (fallback_attempts s) (fz_fallbacks fz) ∧
    Forall2 (approval_frozen all) (compensation_attempt s) (fz_compensations fz)) steps frozen) as HP.
  { eapply Forall2_impl; [exact HF|]. intros s fz (Hok & _ & Hz). by apply step_approvals; auto. }
  unfold attempts. repeat apply Forall2_app.
  - apply Forall2_fmap, (Forall2_impl _ _ _ _ HP). tauto.
  - apply Forall2_concat_map, (Forall2_impl _ _ _ _ HP). tauto.
  - apply Forall2_concat_map, (Forall2_impl _ _ _ _ HP). tauto.
Qed.

Lemma check_attempts_total p l acc :
  Forall (λ ad, policy_matches p ad.1 (pd_input ad.2) = true ∧ pd_effect ad.2 ≠ DENY ∧
    (at_is_compensation ad.1 = true → pd_effect ad.2 ≠ REQUIRE_APPROVAL)) l →
  ∃ acc', foldM (check_attempt p) acc l = Ok acc' ∧
    ∀ x, x ∈ acc' → x ∈ acc ∨
      ∃ a d, (a, d) ∈ l ∧ pd_effect d = REQUIRE_APPROVAL ∧ at_step_id a = x.
Proof.
  intros HF. revert acc. induction HF as [|[a d] l (Hm & Hd & Hc) _ IH]; intros acc; cbn [foldM].
  { exists acc. split; [done|]. auto. }
  cbn [fst snd] in *. unfold check_attempt, is_effect. rewrite Hm. cbn [negb raise_if mbind result_bind].
  rewrite (bool_decide_eq_false_2 (pd_effect d = DENY)) by done. cbn [raise_if mbind result_bind].
  case_bool_decide as Hr.
  - destruct (at_is_compensation a); [by destruct (Hc eq_refl)|]. cbn [raise_if mbind result_bind].
    destruct (IH (at_step_id a :: acc)) as (acc' & Hf & Hin). exists acc'. split; [done|].
    intros x Hx. destruct (Hin x Hx) as [[->|Ha]%elem_of_cons|(a' & d' & ? & ? & ?)].
    + right. exists a, d. split_and!; [left|done..].
    + by left.
    + right. exists a', d'. split_and!; [by right|done..].
  - destruct (IH acc) as (acc' & Hf & Hin). exists acc'. split; [done|].
    intros x Hx. destruct (Hin x Hx) as [Ha|(a' & d' & ? & ? & ?)]; [by left|].
    right. exists a', d'. split_and!; [by right|done..].
Qed.

Lemma strengthened_plan steps steps' p p' ds available m :
  Forall2 strengthened steps steps' → pl_tenant_id p' = pl_tenant_id p →
  dependencies_ok available steps' = dependencies_ok available steps ∧
  foldl (λ m s, if RISK_RANK m <? RISK_RANK (st_risk_class s) then st_risk_class s else m) m steps'
  = foldl (λ m s, if RISK_RANK m <? RISK_RANK (st_risk_class s) then st_risk_class s else m) m steps ∧
  length (List.filter is_routed steps') = length (List.filter is_routed steps) ∧
  forallb (route_matches p') (zip (List.filter is_routed steps') ds)
  = forallb (route_matches p) (zip (List.filter is_routed steps) ds).
Proof.
  intros HF Ht. revert available m ds. induction HF as [|s s' l l' Hs _ IH]; intros available m ds; [done|].
  destruct Hs as [Eid _ _ Edep Erisk Ecap Eroute Efb _ _ _ _]. cbn [dependencies_ok foldl List.filter].
  assert (is_routed s' = is_routed s) as -> by (unfold is_routed; by rewrite Eroute).
  rewrite Eid, Edep, Erisk.
  destruct (IH (st_step_id s :: available)
    (if RISK_RANK m <? RISK_RANK (st_risk_class s) then st_risk_class s else m)
    (if is_routed s then tail ds else ds)) as (-> & -> & El & Em).
  split_and!; [done|done| |]; destruct (is_routed s); [cbn; by f_equal|done| |done].
  destruct ds as [|d ds]; [done|]. cbn in *. rewrite Em. f_equal.
  unfold route_matches. by rewrite Ht, Ecap, Eroute, Efb.
Qed.

Lemma Forall2_zip_Forall {A B} (P : A → B → Prop) (l : list A) (k : list B) :
  Forall2 P l k → Forall (λ ab, P ab.1 ab.2) (zip l k).
Proof. induction 1; cbn; by constructor. Qed.

Lemma frozen_policy_valid frozen :
  Forall2 frozen_okay (pl_steps plan) frozen →
  validate_policy_decisions (frozen_plan plan environment_id frozen) = Ok ().
Proof.
  intros HF. set (p := frozen_plan plan environment_id frozen).
  pose proof (strengthened_attempts _ _ (frozen_steps _ _ _ _ _ _ _ HF)) as [Eatt Eids].
  pose proof (frozen_permits _ _ _ _ _ _ _ HF) as Hperm.
  pose proof (frozen_approvals _ _ (pl_steps p) HF) as Happ.
  unfold validate_policy_decisions. cbv zeta.
  change (pl_policy_decisions p) with (map fz_primary frozen ++ concat (map fz_fallbacks frozen)
    ++ concat (map fz_compensations frozen)).
  change (attempts (pl_steps p)) with (attempts (map fz_step frozen)).
  rewrite Eatt. set (ds := _ ++ _) in *. destruct ds as [|d0 ds']; [done|].
  rewrite (Forall2_length _ _ _ Hperm), Nat.eqb_refl. cbn [negb raise_if mbind result_bind].
  destruct (check_attempts_total p (zip (attempts (pl_steps plan)) (d0 :: ds')) []) as (acc & Hf & Hacc).
  { eapply Forall_impl; [exact (Forall2_zip_Forall _ _ _ Hperm)|]. intros [a d] Hp. cbn in *.
    pose proof Hp as (_ & _ & Hne & Hc). split_and!; [|done..]. by eapply permits_matches. }
  rewrite Hf. cbn [mbind result_bind]. apply raise_if_ok, existsb_elem_false. intros s Hs.
  destruct (mem (st_step_id s) acc) eqn:Hm; [|done]. apply mem_true in Hm.
  destruct (Hacc _ Hm) as [Hx|(a & d & Had & Hr & Eid)]; [by apply elem_of_nil in Hx|].
  assert (approval_frozen (pl_steps p) a d) as Ha.
  { assert (∀ fz, fz ∈ frozen → fz_step fz ∈ pl_steps p) as Hin by (intros fz ?; by apply list_elem_of_fmap_2).
    pose proof (Forall2_zip_Forall _ _ _ (Happ Hin)) as Hall. rewrite Forall_forall in Hall.
    exact (Hall _ Had). }
  destruct (Ha Hr) as (s' & Hs' & Eid' & Hreq).
  assert (s' = s) as ->; [|by rewrite Hreq].
  apply validate_plan_parts in Hplan as (_ & _ & _ & _ & _ & _ & _ & Hn & _).
  rewrite <-Eids in Hn. change (map fz_step frozen) with (pl_steps p) in Hn.
  apply list_elem_of_lookup in Hs as [i Hi]. apply list_elem_of_lookup in Hs' as [j Hj].
  assert (j = i) as ->; [|congruence]. eapply NoDup_lookup; [exact Hn|..].
  - change (map st_step_id (pl_steps p)) with (st_step_id <$> pl_steps p).
    rewrite list_lookup_fmap, Hj. cbn. by rewrite Eid'.
  - change (map st_step_id (pl_steps p)) with (st_step_id <$> pl_steps p).
    rewrite list_lookup_fmap, Hi. cbn. by rewrite Eid.
Qed.

Lemma frozen_plan_level frozen :
  Identifier_ok environment_id = true → Forall2 frozen_okay (pl_steps plan) frozen →
  validate_plan_level (frozen_plan plan environment_id frozen) = Ok ().
Proof.
  intros Henv HF. pose proof (frozen_steps _ _ _ _ _ _ _ HF) as Hsg.
  pose proof (strengthened_attempts _ _ Hsg) as [_ Eids].
  destruct (strengthened_plan _ _ plan (frozen_plan plan environment_id frozen)
    (pl_routing_decisions plan) [] READ_ONLY Hsg eq_refl) as (E1 & E2 & E3 & E4).
  pose proof Hplan as Hp. unfold validate_execution_plan, validate_plan_level in Hp.
  do 4 (apply bind_ok in Hp as ([] & _ & Hp)).
  rewrite !raise_if_then in Hp. destruct Hp as (P1 & P2 & P3 & P4 & P5 & P6 & P7 & P8 & P9 & _).
  unfold validate_plan_level, maximum_step_risk in *.
  cbn [frozen_plan pl_transaction_id pl_tenant_id pl_environment_id pl_business_digest pl_risk_class
    pl_verification_level pl_steps pl_verification pl_routing_decisions] in *.
  rewrite Eids, E1, E2, E3, E4, P2, P4, P5, P6, P7, P8, P9, Henv. cbn [mbind result_bind raise_if].
  rewrite negb_false_iff, !andb_true_iff in P1. destruct P1 as [[-> ->] _].
  assert (is_nil (map fz_step frozen) = false) as ->.
  { destruct HF; [by cbn in P3|done]. }
  cbn [negb andb raise_if mbind result_bind]. by apply frozen_policy_valid.
Qed.

(** Every lookup in the directory returns. *)
Definition directory_answers : Prop :=
  ∀ get, credential_bindings = Some get → ∀ t e a c, ∃ o, get t e a c = Ok o.

Lemma attempt_digest_total adapter capability :
  directory_answers →
  ∃ digest, attempt_digest plan environment_id credential_bindings adapter capability = Ok digest.
Proof.
  intros Ha. unfold attempt_digest, binding_digest. unfold directory_answers in Ha.
  destruct credential_bindings as [get'|]; [|eauto].
  destruct (Ha get' eq_refl (pl_tenant_id plan) environment_id adapter capability) as [[b|] ->]; eauto.
Qed.

Definition attempt_permitted (a : Attempt) : Prop := ∃ d, permitted a d.

Lemma freeze_step_total s :
  validate_step s = Ok () → directory_answers →
  attempt_permitted (primary_attempt s) →
  (∀ a, a ∈ fallback_attempts s → attempt_permitted a) →
  (∀ a, a ∈ compensation_attempt s → attempt_permitted a) → ∃ fz, freeze s = Ok fz.
Proof.
  intros Hs Hdir [d (Hi & Hp & Hne & _)] Hfb Hc. unfold freeze_step.
  destruct (attempt_digest_total (st_adapter s) (st_capability s) Hdir) as [digest ->].
  cbn [mbind result_bind]. rewrite (primary_route_ok s Hs).
  rewrite (proj2 (evaluate_attempt_ok _ _ _ _ _ _ _ _ _ _ d)) by (by split_and!).
  cbn [mbind result_bind].
  destruct (mapM_result_total (freeze_fallback provider plan environment_id principal_ref (instant clock)
    credential_bindings s) (st_route_fallbacks s)) as [fallbacks ->].
  { intros f Hf. unfold freeze_fallback.
    destruct (attempt_digest_total (rf_adapter f) (st_capability s) Hdir) as [fdigest ->].
    cbn [mbind result_bind].
    unfold fallback_attempts in Hfb.
    match type of Hfb with ∀ a, a ∈ map ?g _ → _ =>
      destruct (Hfb (g f) (list_elem_of_fmap_2 g _ _ Hf)) as [fd (Hfi & Hfp & Hfne & _)] end.
    rewrite (proj2 (evaluate_attempt_ok _ _ _ _ _ _ _ _ _ _ fd)) by (by split_and!).
    cbn [mbind result_bind]. eauto. }
  cbn [mbind result_bind]. unfold freeze_compensation. unfold compensation_attempt in Hc.
  destruct (st_compensation s) as [c|]; [|cbn; eauto].
  destruct (cp_capability c) as [capability|]; [|cbn; eauto].
  destruct (attempt_digest_total (cp_adapter c) capability Hdir) as [cdigest ->].
  cbn [mbind result_bind].
  destruct (Hc _ (list_elem_of_here _ _)) as [cd (Hci & Hcp & Hcne & Hcr)].
  rewrite (proj2 (evaluate_attempt_ok _ _ _ _ _ _ _ _ _ _ cd)) by (by split_and!).
  cbn [mbind result_bind]. unfold is_effect.
  rewrite (bool_decide_eq_false_2 (pd_effect cd = REQUIRE_APPROVAL)) by (by apply Hcr).
  cbn. eauto.
Qed.

Lemma apply_policy_ok p' :
  apply_execution_policy plan provider environment_id principal_ref credential_bindings
    default_timeout clock = Ok p' →
  ∃ frozen, mapM_result freeze (pl_steps plan) = Ok frozen ∧
    p' = frozen_plan plan environment_id frozen ∧ revalidate_plan p' = Ok () ∧
    Forall2 frozen_okay (pl_steps plan) frozen.
Proof.
  unfold apply_execution_policy. rewrite !raise_if_then. intros (Hd & _ & (frozen & Hf & Hr)%bind_ok).
  apply negb_false_iff in Hd. destruct (revalidate_plan _) as [[]|] eqn:E; [|done].
  injection Hr as <-. exists frozen. split_and!; try done. by apply frozen_all.
Qed.

(** The plan that is returned is valid and keeps the identity of the given one. *)
Lemma frozen_plan_valid p' :
  apply_execution_policy plan provider environment_id principal_ref credential_bindings
    default_timeout clock = Ok p' →
  validate_execution_plan p' = Ok () ∧
  (pl_transaction_id p', pl_tenant_id p', pl_business_digest p', pl_environment_id p') =
    (pl_transaction_id plan, pl_tenant_id plan, pl_business_digest plan, environment_id).
Proof.
  intros (frozen & _ & -> & Hr & HF)%apply_policy_ok. split; [|done].
  unfold revalidate_plan in Hr. apply bind_ok in Hr as ([] & Hv & Hr).
  apply bind_ok in Hr as ([] & Hrd & Hr). unfold validate_execution_plan.
  rewrite Hv, Hrd, Hr. rewrite (proj2 (foldM_unit_ok validate_step _)).
  - rewrite (proj2 (foldM_unit_ok Policy.validate_decision _)); [done|]. intros d Hd.
    destruct (Forall2_map_in_r _ _ _ _ (frozen_permits _ _ _ _ _ _ _ HF) Hd) as (a & _ & _ & Hp & _).
    by apply (decided_valid (provider := provider)) in Hp.
  - intros s (fz & -> & Hz)%list_elem_of_fmap.
    destruct (Forall2_map_in_r _ _ _ _ HF Hz) as (s & _ & Hok). apply Hok.
Qed.


(** Freezing policy succeeds exactly when policy permits: with an answering directory, an
    aware clock and bounds in range, a plan is returned if and only if the provider permits
    every primary, fallback and compensation attempt of the given plan. *)
Theorem policy_planning_complete :
  between 1 default_timeout 604800 = true → naive clock = false →
  Identifier_ok environment_id = true → directory_answers →
  (∃ p', apply_execution_policy plan provider environment_id principal_ref credential_bindings
           default_timeout clock = Ok p') ↔
  ∀ a, a ∈ attempts (pl_steps plan) → attempt_permitted a.
Proof.
  intros Hdef Hclock Henv Hdir. split.
  - intros [p' (frozen & _ & _ & _ & HF)%apply_policy_ok] a Ha.
    destruct (Forall2_map_in _ _ _ _ (frozen_permits _ _ _ _ _ _ _ HF) Ha) as (d & _ & Hd). by exists d.
  - intros Hall. unfold attempts in Hall.
    destruct (mapM_result_total freeze (pl_steps plan)) as [frozen Hf].
    { intros s Hs. apply freeze_step_total; [by apply plan_step_valid|done|..].
      - apply Hall, elem_of_app. left. by apply list_elem_of_fmap_2.
      - intros a Ha. apply Hall. rewrite !elem_of_app, concat_map_elem. right. left. eauto.
      - intros a Ha. apply Hall. rewrite !elem_of_app, (concat_map_elem compensation_attempt). eauto. }
    pose proof (frozen_all _ Hdef Hf) as HF. exists (frozen_plan plan environment_id frozen).
    unfold apply_execution_policy. rewrite Hdef, Hclock, Hf. cbn [negb raise_if mbind result_bind].
    pose proof Hplan as Hp. unfold validate_execution_plan in Hp.
    apply bind_ok in Hp as ([] & _ & Hp). apply bind_ok in Hp as ([] & Hv & Hp).
    apply bind_ok in Hp as ([] & Hrd & _). unfold revalidate_plan.
    rewrite frozen_plan_level by done. cbn [frozen_plan pl_verification pl_routing_decisions].
    by rewrite Hv, Hrd.
Qed.

End freeze.

(** ** A concrete plan under an embedded policy *)

#[local] Existing Instances example_sha256 example_float_repr example_sha256_laws.

Definition planning_set : PolicySet := {|
  ps_policy_id := "default"; ps_version := "1.0.0";
  ps_rules := [Policy.example_rule "a-confirm" 5 ["confirm"] REQUIRE_APPROVAL (Some "two-person");
               Policy.example_rule "b-rest" 10 [] ALLOW None];
  ps_policy_digest := value_digest JNull |}.
Definition planning_clock : Datetime := {| dt_local := 7200000000; dt_offset := Some 3600000000 |}.
Definition planning_directory : option BindingDirectory := Some (get empty_bindings).
Definition planning_result : result PlanningError ExecutionPlan :=
  apply_execution_policy example_execution_plan (embedded_provider planning_set) "prod" "user"
    planning_directory 600 planning_clock.

(** The approval asked for the last step becomes its approval boundary. *)
Example planning_example :
  (λ p, (pl_environment_id p, map st_requires_approval (pl_steps p),
         map st_approval_timeout_seconds (pl_steps p), map pd_effect (pl_policy_decisions p)))
    <$> planning_result
  = Ok ("prod", [false; true; true], [None; None; Some 600],
        [ALLOW; ALLOW; REQUIRE_APPROVAL; ALLOW; ALLOW]).
Proof. vm_compute. reflexivity. Qed.

(** A denial for want of a matching rule stops planning. *)
Example planning_denied :
  apply_execution_policy example_execution_plan
    (embedded_provider {| ps_policy_id := "default"; ps_version := "1.0.0"; ps_rules := [];
                          ps_policy_digest := value_digest JNull |}) "prod" "user" None 600 planning_clock
  = Err (PolicyPlanningError "policy_denied" "Execution policy denied this transaction" 403).
Proof. vm_compute. reflexivity. Qed.

Lemma planning_directory_lawful : lawful_directory planning_directory.
Proof. apply directory_lawful. apply star_refl. Qed.

Definition frozen_example : ExecutionPlan :=
  match planning_result with Ok p => p | Err _ => example_execution_plan end.


Lemma policy_planning_complete_witness :
  attempt_permitted (embedded_provider planning_set) example_execution_plan "prod" "user" planning_clock
    (primary_attempt (example_step "lookup" READ_ONLY [] false None)).
Proof.
  apply (policy_planning_complete (embedded_provider planning_set) example_execution_plan "prod" "user"
    planning_clock planning_directory 600 planning_directory_lawful example_plan_valid).
  - reflexivity.
  - reflexivity.
  - vm_compute. reflexivity.
  - intros get' [= <-] t e a c. eexists. reflexivity.
  - exists frozen_example. vm_compute. reflexivity.
  - apply list_elem_of_In. left. reflexivity.
Defined.
