(* ===== verification/TransactionService.v ===== *)
(** * The transaction service (application/transactions.py)

    Submission, status, approval and cancellation over the reservation ledger, the planner,
    policy planning and the workflow gateway.  [submit_with_context] is an async method: other
    callers run while it awaits the policy provider or the gateway, so a submission is a call
    that moves through phases, and a world holds the ledger, the workflows Temporal has
    registered and the calls in flight.

    Temporal keeps one workflow per id: [TemporalExecutionGateway.start] asks for
    [REJECT_DUPLICATE] and takes [WorkflowAlreadyStartedError] for success, so a start either
    registers the first plan under an id or changes nothing, and it may fail to answer either
    way. *)

From S2P Require Import Prelude.
From S2P Require Import Contracts.
From S2P Require Import Documents.
From S2P Require Import RuntimeModels.
From S2P Require Import Policy.
From S2P Require Import Planner.
From S2P Require Import PolicyPlanning.
From S2P Require Import Idempotency.

(** What the service raises: its bounded error, or a ledger error it does not catch. *)
Inductive ServiceError :=
| TransactionServiceError (code : string) (message : string) (status_code : Z)
| LedgerError (e : SubmissionError).

Record TransactionSubmission := {
  ts_tenant_id : string;
  ts_transaction_id : string;
  ts_workflow_id : string;
  ts_submission_state : SubmissionState;
  ts_created : bool }.

Record TransactionView := {
  tv_tenant_id : string;
  tv_transaction_id : string;
  tv_workflow_id : string;
  tv_submission_state : SubmissionState;
  tv_start_error_code : option string;
  tv_execution : option ExecutionSnapshot }.

(** The collaborators, each as it behaves at a given time. *)
Record Service := {
  sv_planner : Z → ExecutionPlanner;
  sv_policy_provider : option (Z → PolicyProvider);
  sv_policy_environment_id : string;
  sv_credential_bindings : Z → option BindingDirectory;
  sv_default_approval_timeout_seconds : Z }.

(** [_submission_result]. *)
Definition submission_result (r : SubmissionReservation) (created : bool) : TransactionSubmission := {|
  ts_tenant_id := rv_tenant_id r; ts_transaction_id := rv_transaction_id r;
  ts_workflow_id := rv_workflow_id r; ts_submission_state := rv_state r; ts_created := created |}.

(** [_view]. *)
Definition view (r : SubmissionReservation) (snapshot : option ExecutionSnapshot) : TransactionView := {|
  tv_tenant_id := rv_tenant_id r; tv_transaction_id := rv_transaction_id r;
  tv_workflow_id := rv_workflow_id r; tv_submission_state := rv_state r;
  tv_start_error_code := rv_start_error_code r; tv_execution := snapshot |}.

(** [submit] gives the service's own principal. *)
Definition runtime_principal : string := "runtime.service".

Section service.
Context `{Sha256, FloatRepr}.

(** [_workflow_id]. *)
Definition workflow_id (tenant_id transaction_id : string) : string :=
  "cargomesh-" +:+ String.substring 0 16 (sha256_hex tenant_id) +:+ "-" +:+ transaction_id.

(** ** The parts of [submit_with_context] between two awaits *)

(** The reservation, under a candidate id that [uuid4] just drew. *)
Definition reserve_submission (c : TransactionCommand) (digest key uuid : string) (now : Z)
    (s : SubmissionStore) : SubmissionStore * result ServiceError SubmissionReservation :=
  match reserve (tc_tenant_id c) key uuid (workflow_id (tc_tenant_id c) uuid) digest now s with
  | (s', Ok r) => (s', Ok r)
  | (s', Err IdempotencyConflict) =>
      (s', Err (TransactionServiceError "idempotency_conflict"
                  "Idempotency-Key is already bound to another business request" 409))
  | (s', Err e) => (s', Err (LedgerError e))
  end.

(** [_mark_start_failed]: whatever it raises is dropped. *)
Definition record_failure (r : SubmissionReservation) (error_code : string) (now : Z)
    (s : SubmissionStore) : SubmissionStore :=
  (mark_start_failed (rv_transaction_id r) error_code now s).1.

(** Planning with policy: a plan, or the code recorded and the error raised. *)
Definition plan_submission (sv : Service) (c : TransactionCommand) (principal_ref : string)
    (r : SubmissionReservation) (now : Z) : result (string * ServiceError) ExecutionPlan :=
  let misconfigured :=
    ("planning_failed", TransactionServiceError "runtime_configuration_error"
       "No valid execution plan is configured for this transaction" 503) in
  match sv_planner sv now c (rv_transaction_id r) (rv_business_digest r) with
  | Err _ => Err misconfigured
  | Ok plan =>
      match sv_policy_provider sv with
      | None => Ok plan
      | Some provider =>
          match apply_execution_policy plan (provider now) (sv_policy_environment_id sv)
                  principal_ref (sv_credential_bindings sv now)
                  (sv_default_approval_timeout_seconds sv)
                  {| dt_local := now; dt_offset := Some 0 |} with
          | Ok p => Ok p
          | Err (PolicyPlanningError code message status) =>
              Err (code, TransactionServiceError code message status)
          | Err (PlanningValueError _) => Err misconfigured
          end
      end
  end.

Definition start_unavailable : ServiceError :=
  TransactionServiceError "runtime_unavailable" "Transaction workflow could not be started" 503.

(** After the gateway acknowledged the start. *)
Definition acknowledge (r : SubmissionReservation) (now : Z) (s : SubmissionStore)
    : SubmissionStore * result ServiceError TransactionSubmission :=
  match mark_started (rv_transaction_id r) now s with
  | (s', Ok started) => (s', Ok (submission_result started (rv_created r)))
  | (s', Err e) => (s', Err (LedgerError e))
  end.

(** ** Status, approval and cancellation

    [answer] is what the gateway's query returns, [None] when it raises; a signal is
    [delivered] or raises. *)

Definition status_unavailable (message : string) : ServiceError :=
  TransactionServiceError "runtime_unavailable" message 503.

Definition lift_ledger {A} (r : result SubmissionError A) : result ServiceError A :=
  match r with Ok a => Ok a | Err e => Err (LedgerError e) end.

(** [_lookup]. *)
Definition lookup_reservation (s : SubmissionStore) (transaction_id : string)
    : result ServiceError SubmissionReservation :=
  o ← lift_ledger (lookup_by_transaction_id s transaction_id);
  match o with
  | Some r => Ok r
  | None => Err (TransactionServiceError "transaction_not_found" "Transaction was not found" 404)
  end.

(** [_require_started]. *)
Definition require_started (s : SubmissionStore) (transaction_id : string)
    : result ServiceError SubmissionReservation :=
  r ← lookup_reservation s transaction_id;
  raise_if (negb (bool_decide (rv_state r = STARTED)))
    (TransactionServiceError "transaction_not_started" "Transaction workflow has not started" 409);;
  Ok r.

(** [get]. *)
Definition get_transaction (s : SubmissionStore) (transaction_id : string)
    (answer : option ExecutionSnapshot) : result ServiceError TransactionView :=
  r ← lookup_reservation s transaction_id;
  if bool_decide (rv_state r = STARTED) then
    match answer with
    | Some snapshot => Ok (view r (Some snapshot))
    | None => Err (status_unavailable "Transaction status is temporarily unavailable")
    end
  else Ok (view r None).

(** [approve]; [decision] is what [_approval_decision] makes of the argument, [None] when it
    raises, and the ledger may have moved on to [s'] when the signal returns. *)
Definition approve_transaction (s s' : SubmissionStore) (transaction_id : string)
    (decision : option ApprovalDecision) (delivered : bool) (answer : option ExecutionSnapshot)
    : result ServiceError TransactionView :=
  r ← require_started s transaction_id;
  match decision with
  | None => Err (TransactionServiceError "invalid_approval" "Approval decision is invalid" 422)
  | Some _ =>
      raise_if (negb delivered) (status_unavailable "Approval could not be delivered");;
      get_transaction s' transaction_id answer
  end.

(** [cancel]. *)
Definition cancel_transaction (s s' : SubmissionStore) (transaction_id : string)
    (delivered : bool) (answer : option ExecutionSnapshot) : result ServiceError TransactionView :=
  r ← require_started s transaction_id;
  raise_if (negb delivered) (status_unavailable "Cancellation could not be delivered");;
  get_transaction s' transaction_id answer.

(** ** Calls and worlds *)

(** Where a submission stands: between reservation and plan, awaiting the gateway, past its
    acknowledgement, or over. *)
Inductive Phase :=
| Planning (r : SubmissionReservation)
| Starting (r : SubmissionReservation) (plan : ExecutionPlan)
| Acknowledged (r : SubmissionReservation)
| Finished (outcome : result ServiceError TransactionSubmission).

Record Call := {
  cl_command : TransactionCommand;
  cl_digest : string;
  cl_principal : string;
  cl_phase : Phase }.

Record World := {
  wo_store : SubmissionStore;
  wo_workflows : gmap string ExecutionPlan;
  wo_calls : gmap nat Call }.

Definition empty_world : World := {|
  wo_store := empty_submissions; wo_workflows := ∅; wo_calls := ∅ |}.

Definition put_call (w : World) (s : SubmissionStore) (i : nat) (call : Call) : World := {|
  wo_store := s; wo_workflows := wo_workflows w; wo_calls := <[i := call]> (wo_calls w) |}.
Definition move (call : Call) (phase : Phase) : Call := {|
  cl_command := cl_command call; cl_digest := cl_digest call;
  cl_principal := cl_principal call; cl_phase := phase |}.

(** The phase after the reservation: a started one is returned at once. *)
Definition reserved_phase (r : SubmissionReservation) : Phase :=
  if bool_decide (rv_state r = STARTED) then Finished (Ok (submission_result r (rv_created r)))
  else Planning r.

(** The call up to its first await. *)
Definition begin_call (w : World) (i : nat) (c : TransactionCommand) (digest key principal uuid : string)
    (now : Z) : World :=
  let '(s, outcome) := reserve_submission c digest key uuid now (wo_store w) in
  put_call w s i {|
    cl_command := c; cl_digest := digest; cl_principal := principal;
    cl_phase := match outcome with Ok r => reserved_phase r | Err e => Finished (Err e) end |}.

(** Planning ends: on to the gateway, or the failure is recorded and raised. *)
Definition plan_call (sv : Service) (w : World) (i : nat) (call : Call) (r : SubmissionReservation)
    (now : Z) : World :=
  match plan_submission sv (cl_command call) (cl_principal call) r now with
  | Ok plan => put_call w (wo_store w) i (move call (Starting r plan))
  | Err (code, e) =>
      put_call w (record_failure r code now (wo_store w)) i (move call (Finished (Err e)))
  end.

(** Temporal registers the workflow, unless the id is taken. *)
Definition register (w : World) (r : SubmissionReservation) (plan : ExecutionPlan) : World := {|
  wo_store := wo_store w;
  wo_workflows := match wo_workflows w !! rv_workflow_id r with
                  | Some _ => wo_workflows w
                  | None => <[rv_workflow_id r := plan]> (wo_workflows w)
                  end;
  wo_calls := wo_calls w |}.

(** The gateway raises: the failure is recorded and raised. *)
Definition start_failed (w : World) (i : nat) (call : Call) (r : SubmissionReservation) (now : Z)
    : World :=
  put_call w (record_failure r "workflow_start_failed" now (wo_store w)) i
    (move call (Finished (Err start_unavailable))).

Definition acknowledge_call (w : World) (i : nat) (call : Call) (r : SubmissionReservation) (now : Z)
    : World :=
  let '(s, outcome) := acknowledge r now (wo_store w) in
  put_call w s i (move call (Finished outcome)).

(** The whole of [submit_with_context] when nobody else runs and the gateway is healthy. *)
Definition submit_with_context (sv : Service) (w : World) (i : nat) (c : TransactionCommand)
    (digest key principal uuid : string) (now : Z) : World :=
  let w1 := begin_call w i c digest key principal uuid now in
  match wo_calls w1 !! i with
  | Some call =>
      match cl_phase call with
      | Planning r =>
          let w2 := plan_call sv w1 i call r now in
          match wo_calls w2 !! i with
          | Some call2 =>
              match cl_phase call2 with
              | Starting r plan => acknowledge_call (register w2 r plan) i call2 r now
              | _ => w2
              end
          | None => w2
          end
      | _ => w1
      end
  | None => w1
  end.

(** One step of the world: any caller at any time, in any interleaving, with any reply of
    the gateway; a call may also vanish with its process. *)
Inductive world_step (sv : Service) : World → World → Prop :=
| ws_begin w i c digest key principal uuid now :
    wo_calls w !! i = None → world_step sv w (begin_call w i c digest key principal uuid now)
| ws_plan w i call r now :
    wo_calls w !! i = Some call → cl_phase call = Planning r →
    world_step sv w (plan_call sv w i call r now)
| ws_register w i call r plan :
    wo_calls w !! i = Some call → cl_phase call = Starting r plan →
    world_step sv w (register w r plan)
| ws_reply w i call r plan :
    wo_calls w !! i = Some call → cl_phase call = Starting r plan →
    is_Some (wo_workflows w !! rv_workflow_id r) →
    world_step sv w (put_call w (wo_store w) i (move call (Acknowledged r)))
| ws_fault w i call r plan now :
    wo_calls w !! i = Some call → cl_phase call = Starting r plan →
    world_step sv w (start_failed w i call r now)
| ws_acknowledge w i call r now :
    wo_calls w !! i = Some call → cl_phase call = Acknowledged r →
    world_step sv w (acknowledge_call w i call r now)
| ws_crash w i : world_step sv w {|
    wo_store := wo_store w; wo_workflows := wo_workflows w; wo_calls := delete i (wo_calls w) |}.

Definition world_reachable (sv : Service) (w : World) : Prop := star (world_step sv) empty_world w.

(** ** One caller among others

    The next step of call [i] when the gateway answers it: its plan at the time [planned], the
    registration of its workflow, or the reply when some call has registered it, and the
    acknowledgement. *)
Inductive own_step (sv : Service) (i : nat) (planned : Z) : World → World → Prop :=
| own_plan w call r :
    wo_calls w !! i = Some call → cl_phase call = Planning r →
    own_step sv i planned w (plan_call sv w i call r planned)
| own_register w call r plan :
    wo_calls w !! i = Some call → cl_phase call = Starting r plan →
    wo_workflows w !! rv_workflow_id r = None →
    own_step sv i planned w (register w r plan)
| own_reply w call r plan :
    wo_calls w !! i = Some call → cl_phase call = Starting r plan →
    is_Some (wo_workflows w !! rv_workflow_id r) →
    own_step sv i planned w (put_call w (wo_store w) i (move call (Acknowledged r)))
| own_acknowledge w call r now :
    wo_calls w !! i = Some call → cl_phase call = Acknowledged r →
    own_step sv i planned w (acknowledge_call w i call r now).

(** A step of the rest of the world: any step that leaves call [i] alone and after which the
    row of key [k], if there is one, holds no failed start. *)
Definition peer_step (sv : Service) (i : nat) (k : string * string) (w w' : World) : Prop :=
  world_step sv w w' ∧ wo_calls w' !! i = wo_calls w !! i ∧
  ∀ row, sb_rows (wo_store w') !! k = Some row → rv_state row ≠ START_FAILED.

(** Call [i] gets through: it has returned a started submission whose workflow is registered, or
    whatever its peers do next, for as long as they like, it has a step to take and gets through
    after every such step. *)
Inductive gets_through (sv : Service) (i : nat) (k : string * string) (planned : Z) : World → Prop :=
| gt_done w call sub :
    wo_calls w !! i = Some call → cl_phase call = Finished (Ok sub) →
    ts_submission_state sub = STARTED → is_Some (wo_workflows w !! ts_workflow_id sub) →
    gets_through sv i k planned w
| gt_turn w :
    (∀ v, star (peer_step sv i k) w v →
      (∃ v', own_step sv i planned v v') ∧ ∀ v', own_step sv i planned v v' → gets_through sv i k planned v') →
    gets_through sv i k planned w.

End service.

(** ** The abstract service

    A ticket binds a key to a request, a transaction and a workflow id; a ticket's workflow
    runs at most once, with a valid plan for that request. *)

Record Ticket := { ti_digest : string; ti_transaction_id : string; ti_workflow_id : string }.

Record Spec := {
  sp_tickets : gmap (string * string) Ticket;
  sp_running : gmap string ExecutionPlan }.

Definition spec_init : Spec := {| sp_tickets := ∅; sp_running := ∅ |}.

Section spec.
Context `{Sha256, FloatRepr}.

(** A valid plan for the request of a ticket. *)
Record plan_for (tenant digest transaction_id : string) (plan : ExecutionPlan) : Prop := {
  pf_valid : validate_execution_plan plan = Ok ();
  pf_tenant : pl_tenant_id plan = tenant;
  pf_digest : pl_business_digest plan = digest;
  pf_transaction : pl_transaction_id plan = transaction_id }.

Inductive spec_step : Spec → Spec → Prop :=
| spec_bind sp k t :
    sp_tickets sp !! k = None →
    (∀ k' t', sp_tickets sp !! k' = Some t' →
      ti_transaction_id t' ≠ ti_transaction_id t ∧ ti_workflow_id t' ≠ ti_workflow_id t) →
    spec_step sp {| sp_tickets := <[k := t]> (sp_tickets sp); sp_running := sp_running sp |}
| spec_run sp k t plan :
    sp_tickets sp !! k = Some t → sp_running sp !! ti_workflow_id t = None →
    plan_for k.1 (ti_digest t) (ti_transaction_id t) plan →
    spec_step sp {| sp_tickets := sp_tickets sp;
                    sp_running := <[ti_workflow_id t := plan]> (sp_running sp) |}.

Definition ticket (r : SubmissionReservation) : Ticket := {|
  ti_digest := rv_business_digest r; ti_transaction_id := rv_transaction_id r;
  ti_workflow_id := rv_workflow_id r |}.

Definition abstract (w : World) : Spec := {|
  sp_tickets := ticket <$> sb_rows (wo_store w); sp_running := wo_workflows w |}.

(** ** Lemmas: the ledger under the service *)

(** What the service knows of a reservation: its row is in the ledger, perhaps later. *)
Definition known (rows : Reservations) (r : SubmissionReservation) : Prop :=
  ∃ row, rows !! row_key r = Some row ∧ ticket row = ticket r ∧ row_key row = row_key r.

Lemma ticket_key_le r r' : row_le r r' → ticket r' = ticket r ∧ row_key r' = row_key r.
Proof. intros [E1 E2 E3 E4 _]. unfold ticket. by rewrite E2, E3, E4. Qed.

Lemma known_writes rows rows' r : writes rows rows' → known rows r → known rows' r.
Proof.
  intros Hw (row & Hr & Ht & Hk). destruct (submission_writes_le _ _ _ _ Hw Hr) as (row' & Hr' & Hle).
  apply ticket_key_le in Hle as [E1 E2]. exists row'. split_and!; [done|congruence..].
Qed.

(** A write binds at most one new ticket. *)
Lemma writes_tickets rows rows' :
  rows_ok rows → writes rows rows' →
  ticket <$> rows' = ticket <$> rows ∨
  ∃ r, rows' = <[row_key r := r]> rows ∧ rows !! row_key r = None ∧ rv_state r = RESERVED ∧
    ∀ k r', rows !! k = Some r' →
      rv_transaction_id r' ≠ rv_transaction_id r ∧ rv_workflow_id r' ≠ rv_workflow_id r.
Proof.
  intros Hok [|r Hn _ Hs _ Ht|r r' Hr Hm]; [by left|right|left].
  - exists r. split_and!; try done. by apply identifier_taken_false.
  - rewrite fmap_insert. apply insert_id. rewrite lookup_fmap, Hr. cbn. f_equal.
    symmetry. by apply ticket_key_le, start_move_le.
Qed.

(** The transaction ids the ledger holds pass its own check, and no row turns [STARTED]
    but by [mark_started]. *)
Definition ids_ok (rows : Reservations) : Prop :=
  ∀ k r, rows !! k = Some r → validate_identifier (rv_transaction_id r) = Ok ().
Definition quiet (rows rows' : Reservations) : Prop :=
  ∀ k r, rows' !! k = Some r → rv_state r = STARTED → rows !! k = Some r.

Lemma ids_insert rows k r :
  validate_identifier (rv_transaction_id r) = Ok () → ids_ok rows → ids_ok (<[k := r]> rows).
Proof. intros Hr Hok k' r' [[_ <-]|[_ H']]%lookup_insert_Some; [done|by eapply Hok]. Qed.
Lemma quiet_insert rows k r : rv_state r ≠ STARTED → quiet rows (<[k := r]> rows).
Proof. by intros Hr k' r' [[_ <-]|[_ H']]%lookup_insert_Some Hs. Qed.

Lemma reserve_body_rows t k x w d now rows rows' r :
  rows_ok rows → ids_ok rows → validate_identifier x = Ok () →
  reserve_body t k x w d now rows = Ok (rows', r) → ids_ok rows' ∧ quiet rows rows'.
Proof.
  intros Hok Hids Hx. unfold reserve_body. destruct (rows !! (t, k)) as [r0|] eqn:Hr0.
  - unfold replay_or_retry. intros [_ Hb]%raise_if_then. destruct (negb _); injection Hb as <- <-.
    + split; [done|]. by intros k' r' ? _.
    + split; [|by apply quiet_insert]. apply ids_insert; [|done]. by apply (Hids _ _ Hr0).
  - intros [_ [= <- <-]]%raise_if_then. split; [by apply ids_insert|by apply quiet_insert].
Qed.

Lemma mark_start_failed_rows x code now rows rows' r :
  rows_ok rows → ids_ok rows → mark_start_failed_body x code now rows = Ok (rows', r) →
  ids_ok rows' ∧ quiet rows rows'.
Proof.
  intros Hok Hids. unfold mark_start_failed_body. intros (c & Hc & Hb)%bind_ok.
  apply require_transaction_ok in Hc as [Hx Hr]; [|done]. destruct (_ && _).
  - injection Hb as <- <-. split; [done|]. by intros k' r' ? _.
  - apply raise_if_then in Hb as [_ [= <- <-]].
    split; [|by apply quiet_insert]. apply ids_insert; [|done]. by apply (Hids _ _ Hr).
Qed.

Lemma mark_started_rows x now rows rows' r :
  rows_ok rows → ids_ok rows → mark_started_body x now rows = Ok (rows', r) →
  ids_ok rows' ∧ ∀ k r', rows' !! k = Some r' → rv_state r' = STARTED →
    rows !! k = Some r' ∨ (k = row_key r ∧ r' = r).
Proof.
  intros Hok Hids. unfold mark_started_body. intros (c & Hc & Hb)%bind_ok.
  apply require_transaction_ok in Hc as [Hx Hr]; [|done]. destruct (bool_decide _).
  - injection Hb as <- <-. split; [done|]. by left.
  - apply raise_if_then in Hb as [_ [= <- <-]]. split.
    + apply ids_insert; [|done]. by apply (Hids _ _ Hr).
    + intros k' r' [[<- <-]|[_ H']]%lookup_insert_Some Hs; [by right|by left].
Qed.

(** What a ledger operation of the service keeps. *)
Record ledger_move (rows rows' : Reservations) : Prop := {
  lm_writes : writes rows rows';
  lm_ids : ids_ok rows → ids_ok rows' }.

Lemma ledger_stays rows : ledger_move rows rows.
Proof. split; [constructor|done]. Qed.

Lemma reserve_submission_spec c digest key uuid now s s' o :
  rows_ok (sb_rows s) → ids_ok (sb_rows s) → reserve_submission c digest key uuid now s = (s', o) →
  ledger_move (sb_rows s) (sb_rows s') ∧ quiet (sb_rows s) (sb_rows s') ∧
  ∀ r, o = Ok r → known (sb_rows s') r ∧ row_key r = (tc_tenant_id c, key) ∧
    rv_business_digest r = digest ∧ (rv_state r = STARTED → sb_rows s' !! row_key r = Some r).
Proof.
  intros Hok Hids Hr. unfold reserve_submission in Hr.
  destruct (reserve _ _ _ _ _ _ s) as [s1 [r|e]] eqn:E.
  - injection Hr as <- <-. apply checked_ok in E as (Hc & _ & rows & Hb & ->). cbn [sb_rows].
    unfold reserve_checks in Hc. apply bind_ok in Hc as ([] & _ & Hc).
    apply bind_ok in Hc as ([] & _ & Hc). apply bind_ok in Hc as ([] & Hx & _).
    pose proof (reserve_body_rows _ _ _ _ _ _ _ _ _ Hok Hids Hx Hb) as [Hids' Hq].
    apply reserve_body_cases in Hb as (Hw & Hk & Hd & Hcase); [|done].
    split_and!; [by split|done|]. intros r' [= <-].
    destruct (sb_rows s !! (tc_tenant_id c, key)) as [r0|].
    + destruct Hcase as (_ & _ & _ & Hrow). rewrite Hk. split_and!; try done.
      exists r. by rewrite Hk.
    + destruct Hcase as (Et & Ew & r1 & Hrow & Hle & Et1 & Ew1).
      split_and!; [|done..|].
      * exists r1. rewrite Hk. apply ticket_key_le in Hle as [? Hk']. by rewrite Hk', Hk.
      * intros Hs. rewrite Hk, Hrow. f_equal. by apply Hle.
  - assert (s1 = s) as ->.
    { unfold reserve, checked, session in E. destruct (reserve_checks _ _ _ _ _); [|congruence].
      by apply transact_err in E as [-> _]. }
    assert (s' = s ∧ ∃ e', o = Err e') as [-> [e' ->]] by (destruct e; injection Hr as <- <-; eauto).
    split_and!; [apply ledger_stays|by intros ? ? ? _|done].
Qed.

Lemma record_failure_spec r code now s :
  rows_ok (sb_rows s) → ids_ok (sb_rows s) →
  ledger_move (sb_rows s) (sb_rows (record_failure r code now s)) ∧
  quiet (sb_rows s) (sb_rows (record_failure r code now s)).
Proof.
  intros Hok Hids. unfold record_failure.
  destruct (mark_start_failed _ _ _ s) as [s1 [r1|e]] eqn:E.
  - apply checked_ok in E as (_ & _ & rows & Hb & ->). cbn [sb_rows fst].
    pose proof (mark_start_failed_rows _ _ _ _ _ _ Hok Hids Hb) as [? ?].
    apply mark_start_failed_writes in Hb; [|done]. by split; [split|].
  - assert (s1 = s) as ->.
    { unfold mark_start_failed, checked, session in E. destruct (_ ;; _); [|congruence].
      by apply transact_err in E as [-> _]. }
    split; [apply ledger_stays|by intros ? ? ? _].
Qed.

Lemma acknowledge_spec r now s s' o :
  rows_ok (sb_rows s) → ids_ok (sb_rows s) → known (sb_rows s) r → acknowledge r now s = (s', o) →
  ledger_move (sb_rows s) (sb_rows s') ∧
  (∀ k r', sb_rows s' !! k = Some r' → rv_state r' = STARTED →
    sb_rows s !! k = Some r' ∨ rv_workflow_id r' = rv_workflow_id r) ∧
  ∀ sub, o = Ok sub → ∃ row, sb_rows s' !! row_key r = Some row ∧ rv_state row = STARTED ∧
    ticket row = ticket r ∧ row_key row = row_key r ∧ sub = submission_result row (rv_created r).
Proof.
  intros Hok Hids (row & Hrow & Ht & Hk) Ha. unfold acknowledge in Ha.
  destruct (mark_started _ _ s) as [s1 [r1|e]] eqn:E.
  - injection Ha as <- <-. apply checked_ok in E as (_ & _ & rows & Hb & ->). cbn [sb_rows].
    pose proof (mark_started_rows _ _ _ _ _ Hok Hids Hb) as [Hids' Hq].
    apply mark_started_cases in Hb as (Hw & Hx & Hs & Hr1); [|done].
    destruct (submission_writes_le _ _ _ _ Hw Hrow) as (row' & Hrow' & [Ht' Hk']%ticket_key_le).
    assert (row_key r1 = row_key r) as Ek.
    { eapply (ok_unique _ (submission_writes_ok _ _ Hw Hok)); [done..|left].
      rewrite Hx. rewrite Ht in Ht'. by injection Ht'. }
    rewrite Ek in Hr1. assert (row' = r1) as -> by congruence. split_and!; [by split|..].
    + intros k r' Hr' Hs'. destruct (Hq k r' Hr' Hs') as [?|[-> ->]]; [by left|right].
      rewrite Ht in Ht'. by injection Ht'.
    + intros sub [= <-]. exists r1. split_and!; [done|done|congruence|done|done].
  - injection Ha as <- <-. assert (s1 = s) as ->.
    { unfold mark_started, checked, session in E. destruct (validate_identifier _); [|congruence].
      by apply transact_err in E as [-> _]. }
    split_and!; [apply ledger_stays|by left|done].
Qed.

(** ** The invariant of a world *)

(** What a call knows at its phase. *)
Definition phase_ok (rows : Reservations) (workflows : gmap string ExecutionPlan) (call : Call) : Prop :=
  let mine r := known rows r ∧ rv_tenant_id r = tc_tenant_id (cl_command call)
                ∧ rv_business_digest r = cl_digest call in
  match cl_phase call with
  | Planning r => mine r
  | Starting r plan =>
      mine r ∧ plan_for (rv_tenant_id r) (rv_business_digest r) (rv_transaction_id r) plan
  | Acknowledged r => mine r ∧ is_Some (workflows !! rv_workflow_id r)
  | Finished (Ok sub) => ∃ k row created, rows !! k = Some row ∧ rv_state row = STARTED ∧
      sub = submission_result row created ∧ rv_tenant_id row = tc_tenant_id (cl_command call) ∧
      rv_business_digest row = cl_digest call
  | Finished (Err _) => True
  end.

Record world_ok (w : World) : Prop := {
  wk_rows : rows_ok (sb_rows (wo_store w));
  wk_ids : ids_ok (sb_rows (wo_store w));
  wk_started : ∀ k r, sb_rows (wo_store w) !! k = Some r → rv_state r = STARTED →
    is_Some (wo_workflows w !! rv_workflow_id r);
  wk_running : ∀ wid plan, wo_workflows w !! wid = Some plan →
    ∃ k r, sb_rows (wo_store w) !! k = Some r ∧ rv_workflow_id r = wid ∧
      plan_for (rv_tenant_id r) (rv_business_digest r) (rv_transaction_id r) plan;
  wk_calls : ∀ i call, wo_calls w !! i = Some call →
    phase_ok (sb_rows (wo_store w)) (wo_workflows w) call }.

Lemma phase_ok_mono rows rows' workflows workflows' call :
  writes rows rows' → workflows ⊆ workflows' →
  phase_ok rows workflows call → phase_ok rows' workflows' call.
Proof.
  intros Hw Hsub. unfold phase_ok.
  destruct (cl_phase call) as [r|r plan|r|[sub|e]].
  - intros [? ?]. eauto using known_writes.
  - intros [[? ?] ?]. eauto using known_writes.
  - intros [[? ?] [plan Hp]]. split; [eauto using known_writes|].
    exists plan. by eapply lookup_weaken.
  - intros (k & row & created & Hr & Hs & Hrest). exists k, row, created. split; [|done].
    destruct (submission_writes_le _ _ _ _ Hw Hr) as (row' & Hr' & Hle).
    by rewrite <-(le_started _ _ Hle Hs).
  - done.
Qed.

(** A ledger operation by call [i], which moves to a phase that fits. *)
Lemma world_ok_put w s i call :
  world_ok w → ledger_move (sb_rows (wo_store w)) (sb_rows s) →
  (∀ k r, sb_rows s !! k = Some r → rv_state r = STARTED →
    sb_rows (wo_store w) !! k = Some r ∨ is_Some (wo_workflows w !! rv_workflow_id r)) →
  phase_ok (sb_rows s) (wo_workflows w) call →
  world_ok (put_call w s i call).
Proof.
  intros [Hok Hids Hst Hrun Hcalls] [Hw Hids'] Hq Hp. split; cbn [put_call wo_store wo_workflows wo_calls].
  - by eapply submission_writes_ok.
  - auto.
  - intros k r Hr Hs. destruct (Hq k r Hr Hs) as [?|?]; [by eapply Hst|done].
  - intros wid plan Hp'. destruct (Hrun _ _ Hp') as (k & r & Hr & Ewid & Hplan).
    destruct (submission_writes_le _ _ _ _ Hw Hr) as (r' & Hr' & Hle). exists k, r'.
    destruct Hle as [E1 E2 E3 E4 _]. injection E1 as E1 _. rewrite E1, E2, E3, E4. by split_and!.
  - intros j call' [[_ <-]|[_ Hj]]%lookup_insert_Some; [done|].
    eapply phase_ok_mono; [done|done|]. by eapply Hcalls.
Qed.

Section service_laws.
Context (sv : Service).
Context (Hplanner : ∀ now, LawfulPlanner (sv_planner sv now)).
Context (Hprovider : ∀ f now, sv_policy_provider sv = Some f → LawfulProvider (f now)).
Context (Hdirectory : ∀ now, lawful_directory (sv_credential_bindings sv now)).

(** Planning, with policy or without, gives a valid plan for the reservation. *)
Lemma plan_submission_for c principal r now plan :
  plan_submission sv c principal r now = Ok plan →
  plan_for (tc_tenant_id c) (rv_business_digest r) (rv_transaction_id r) plan.
Proof.
  unfold plan_submission. destruct (sv_planner sv now c _ _) as [p|] eqn:E; [|done].
  pose proof (built_valid (LawfulPlanner := Hplanner now) _ _ _ _ E) as Hv.
  pose proof (built_identity (LawfulPlanner := Hplanner now) _ _ _ _ E) as (E1 & E2 & E3 & _).
  destruct (sv_policy_provider sv) as [f|] eqn:Ef; [|by intros [= <-]].
  destruct (apply_execution_policy _ _ _ _ _ _ _) as [p'|[]] eqn:Ea; [|done|done]. intros [= <-].
  pose proof (Hprovider f now eq_refl) as Hf.
  destruct (frozen_plan_valid _ _ _ _ _ _ _ (Hdirectory now) Hv _ Ea) as [Hv' Hid].
  injection Hid as I1 I2 I3 _. split; congruence.
Qed.

Lemma plan_call_ok w i call r now :
  world_ok w → wo_calls w !! i = Some call → cl_phase call = Planning r →
  world_ok (plan_call sv w i call r now).
Proof.
  intros Hw Hc Hp. pose proof (wk_calls _ Hw _ _ Hc) as Hph. unfold phase_ok in Hph.
  rewrite Hp in Hph. destruct Hph as (Hk & Ht & Hd). unfold plan_call.
  destruct (plan_submission _ _ _ _ _) as [plan|[code e]] eqn:E.
  - apply world_ok_put; [done|apply ledger_stays|by left|]. cbn.
    apply plan_submission_for in E. rewrite Ht. by split_and!.
  - destruct (record_failure_spec r code now (wo_store w)) as [Hm Hq]; [apply Hw..|].
    apply world_ok_put; [done|done|left; by apply Hq|done].
Qed.

Lemma begin_call_ok w i c digest key principal uuid now :
  world_ok w → world_ok (begin_call w i c digest key principal uuid now).
Proof.
  intros Hw. unfold begin_call. destruct (reserve_submission _ _ _ _ _ _) as [s o] eqn:E.
  destruct (reserve_submission_spec _ _ _ _ _ _ _ _ (wk_rows _ Hw) (wk_ids _ Hw) E) as (Hm & Hq & Ho).
  apply world_ok_put; [done|done|by left; apply Hq|].
  unfold phase_ok. cbn [cl_phase cl_command cl_digest]. destruct o as [r|e]; [|done].
  destruct (Ho r eq_refl) as (Hk & Ekey & Ed & Hs). injection Ekey as Et _.
  unfold reserved_phase. case_bool_decide as Est; [|done].
  exists (row_key r), r, (rv_created r). split_and!; auto.
Qed.

Lemma register_ok w i call r plan :
  world_ok w → wo_calls w !! i = Some call → cl_phase call = Starting r plan →
  world_ok (register w r plan).
Proof.
  intros Hw Hc Hp. unfold register. destruct (wo_workflows w !! rv_workflow_id r) eqn:E; [by destruct w|].
  pose proof (wk_calls _ Hw _ _ Hc) as Hph. unfold phase_ok in Hph. rewrite Hp in Hph.
  destruct Hph as (((row & Hrow & Ht & Hk) & _) & Hplan). injection Ht as E1 E2 E3. injection Hk as E4 _.
  assert (wo_workflows w ⊆ <[rv_workflow_id r := plan]> (wo_workflows w)) as Hsub by by apply insert_subseteq.
  destruct Hw as [Hok Hids Hst Hrun Hcalls]. split; cbn [wo_store wo_workflows wo_calls]; [done|done|..].
  - intros k r' Hr' Hs. destruct (Hst _ _ Hr' Hs) as [p ?]. exists p. by eapply lookup_weaken.
  - intros wid p [[<- <-]|[_ Hp']]%lookup_insert_Some; [|by apply Hrun].
    exists (row_key r), row. rewrite E1, E2, E3, E4. by split_and!.
  - intros j call' Hj. eapply phase_ok_mono; [constructor|done|by eapply Hcalls].
Qed.

Lemma acknowledge_call_ok w i call r now :
  world_ok w → wo_calls w !! i = Some call →
  phase_ok (sb_rows (wo_store w)) (wo_workflows w) (move call (Acknowledged r)) →
  world_ok (acknowledge_call w i call r now).
Proof.
  intros Hw Hc ((Hk & Ht & Hd) & Hwf). unfold acknowledge_call.
  destruct (acknowledge _ _ _) as [s o] eqn:E.
  destruct (acknowledge_spec _ _ _ _ _ (wk_rows _ Hw) (wk_ids _ Hw) Hk E) as (Hm & Hq & Ho).
  apply world_ok_put; [done|done|..].
  - intros k r' Hr' Hs. destruct (Hq k r' Hr' Hs) as [?| ->]; [by left|by right].
  - unfold phase_ok. cbn [cl_phase move cl_command cl_digest]. destruct o as [sub|]; [|done].
    destruct (Ho _ eq_refl) as (row & Hrow & Hs & Et & Ek & ->). injection Et as E1 E2 E3.
    injection Ek as E4 _. cbn [move cl_command cl_digest] in *.
    exists (row_key r), row, (rv_created r). split_and!; congruence.
Qed.

Lemma world_step_ok w w' : world_ok w → world_step sv w w' → world_ok w'.
Proof.
  intros Hw Hs. destruct Hs as [w i c digest key principal uuid now _|w i call r now Hc Hp
    |w i call r plan Hc Hp|w i call r plan Hc Hp Hs|w i call r plan now Hc Hp|w i call r now Hc Hp|w i].
  - by apply begin_call_ok.
  - by apply plan_call_ok.
  - by eapply register_ok.
  - pose proof (wk_calls _ Hw _ _ Hc) as Hph. unfold phase_ok in Hph. rewrite Hp in Hph.
    apply world_ok_put; [done|apply ledger_stays|by left|]. by destruct Hph as [? _].
  - destruct (record_failure_spec r "workflow_start_failed" now (wo_store w)) as [Hm Hq]; [apply Hw..|].
    apply world_ok_put; [done|done|left; by apply Hq|done].
  - apply acknowledge_call_ok; [done|done|]. pose proof (wk_calls _ Hw _ _ Hc) as Hph.
    unfold phase_ok in *. by rewrite Hp in Hph.
  - destruct Hw as [Hok Hids Hst Hrun Hcalls]. split; cbn [wo_store wo_workflows wo_calls]; try done.
    intros j call [_ Hj]%lookup_delete_Some. by eapply Hcalls.
Qed.

Lemma world_reachable_ok w : world_reachable sv w → world_ok w.
Proof.
  apply (star_invariant (world_step sv) world_ok); [by intros ? ?; apply world_step_ok|].
  split; cbn [empty_world empty_submissions wo_store wo_workflows wo_calls sb_rows];
    [split|..]; intros ? **; simpl in *; by rewrite ?lookup_empty in *.
Qed.

Lemma world_steps_ok w w' : world_ok w → star (world_step sv) w w' → world_ok w'.
Proof. intros Hw. by apply (star_invariant (world_step sv) world_ok); [intros ? ?; apply world_step_ok|]. Qed.

(** ** Refinement of the abstract service *)

(** A step is a ledger operation, or the registration of a workflow. *)
Lemma step_moves w w' :
  world_ok w → world_step sv w w' →
  ledger_move (sb_rows (wo_store w)) (sb_rows (wo_store w')) ∧
  (wo_workflows w' = wo_workflows w ∨
   ∃ i call r plan, wo_calls w !! i = Some call ∧ cl_phase call = Starting r plan ∧ w' = register w r plan).
Proof.
  intros Hw Hs. pose proof (ledger_stays (sb_rows (wo_store w))) as Hstay.
  destruct Hs as [w i c digest key principal uuid now _|w i call r now Hc Hp
    |w i call r plan Hc Hp|w i call r plan Hc Hp Hs|w i call r plan now Hc Hp|w i call r now Hc Hp|w i];
    (split; [|first [by left|right; by eauto 10|idtac]]); try done.
  - unfold begin_call. destruct (reserve_submission _ _ _ _ _ _) as [s o] eqn:E.
    apply reserve_submission_spec in E as (Hm & _); [done|apply Hw..].
  - unfold begin_call. destruct (reserve_submission _ _ _ _ _ _). by left.
  - unfold plan_call. destruct (plan_submission _ _ _ _ _) as [plan|[code e]]; [done|].
    apply record_failure_spec; apply Hw.
  - unfold plan_call. destruct (plan_submission _ _ _ _ _) as [plan|[code e]]; by left.
  - apply record_failure_spec; apply Hw.
  - unfold acknowledge_call. destruct (acknowledge _ _ _) as [s o] eqn:E.
    pose proof (wk_calls _ Hw _ _ Hc) as Hph. unfold phase_ok in Hph. rewrite Hp in Hph.
    apply acknowledge_spec in E as (Hm & _); [done|apply Hw..|apply Hph].
  - unfold acknowledge_call. destruct (acknowledge _ _ _). by left.
Qed.

Lemma ledger_refines rows rows' running :
  rows_ok rows → writes rows rows' →
  star spec_step {| sp_tickets := ticket <$> rows; sp_running := running |}
                 {| sp_tickets := ticket <$> rows'; sp_running := running |}.
Proof.
  intros Hok [->|(r & -> & Hn & _ & Hu)]%writes_tickets; [done| |done].
  rewrite fmap_insert. apply star_one.
  refine (spec_bind {| sp_tickets := ticket <$> rows; sp_running := running |} (row_key r) (ticket r) _ _);
    cbn [sp_tickets].
  - by rewrite lookup_fmap, Hn.
  - intros k t Ht. apply lookup_fmap_Some in Ht as (r' & <- & Hr'). by apply (Hu k).
Qed.

Lemma register_refines w i call r plan :
  world_ok w → wo_calls w !! i = Some call → cl_phase call = Starting r plan →
  star spec_step (abstract w) (abstract (register w r plan)).
Proof.
  intros Hw Hc Hp. unfold register, abstract. cbn [wo_store wo_workflows].
  destruct (wo_workflows w !! rv_workflow_id r) eqn:E; [done|].
  pose proof (wk_calls _ Hw _ _ Hc) as Hph. unfold phase_ok in Hph. rewrite Hp in Hph.
  destruct Hph as (((row & Hrow & Ht & Hk) & _) & Hplan). apply star_one.
  refine (spec_run (abstract w) (row_key r) (ticket r) plan _ _ _); cbn [abstract sp_tickets sp_running].
  - by rewrite lookup_fmap, Hrow, <-Ht.
  - done.
  - done.
Qed.

Lemma step_refines w w' : world_ok w → world_step sv w w' → star spec_step (abstract w) (abstract w').
Proof.
  intros Hw [[Hm _] [Ewf|(i & call & r & plan & Hc & Hp & ->)]]%step_moves; [| |done].
  - unfold abstract. rewrite Ewf. apply ledger_refines; [apply Hw|done].
  - by eapply register_refines.
Qed.

(** Running workflows stay, and rows only move on. *)
Lemma register_keeps w r plan : wo_workflows w ⊆ wo_workflows (register w r plan).
Proof.
  unfold register. cbn [wo_workflows].
  destruct (wo_workflows w !! rv_workflow_id r) eqn:E; [done|by apply insert_subseteq].
Qed.

Lemma steps_keep w w' :
  world_ok w → star (world_step sv) w w' →
  world_ok w' ∧ wo_workflows w ⊆ wo_workflows w' ∧
  ∀ k r, sb_rows (wo_store w) !! k = Some r → ∃ r', sb_rows (wo_store w') !! k = Some r' ∧ row_le r r'.
Proof.
  intros Hw Hs. split; [by eapply world_steps_ok|]. split.
  - induction Hs as [w|w1 w2 w3 H1 H2 IH]; [done|].
    etrans; [|apply IH; by eapply world_step_ok].
    apply step_moves in H1 as [_ [->|(i & call & r & plan & _ & _ & ->)]]; [done| |done].
    apply register_keeps.
  - intros k r Hr.
    refine (proj2 (star_entries (world_step sv) world_ok (λ w k, sb_rows (wo_store w) !! k) row_le
      world_step_ok _ w w' k r Hw Hs Hr)).
    intros w1 w2 k1 r1 Hw1 [[Hm _] _]%step_moves; [|done]. by apply submission_writes_le.
Qed.

(** ** A submission on its own *)

(** The transaction a key stands for, or will stand for once [uuid] is drawn. *)
Definition bound_transaction (s : SubmissionStore) (tenant_id key uuid : string) : string :=
  match sb_rows s !! (tenant_id, key) with Some row => rv_transaction_id row | None => uuid end.

Lemma reserve_submission_total c digest key uuid now s :
  rows_ok (sb_rows s) → ids_ok (sb_rows s) → sb_closed s = false →
  reserve_checks (tc_tenant_id c) key uuid (workflow_id (tc_tenant_id c) uuid) digest = Ok () →
  match sb_rows s !! (tc_tenant_id c, key) with
  | Some row => rv_business_digest row = digest
  | None => identifier_taken (sb_rows s) uuid (workflow_id (tc_tenant_id c) uuid) = false
  end →
  ∃ rows r row, reserve_submission c digest key uuid now s
      = ({| sb_closed := false; sb_rows := rows |}, Ok r) ∧
    rows !! row_key r = Some row ∧ ticket row = ticket r ∧ rv_state row = rv_state r ∧
    rv_state r ≠ START_FAILED ∧
    rv_transaction_id r = bound_transaction s (tc_tenant_id c) key uuid.
Proof.
  intros Hok Hids Hopen Hc Hrow.
  assert (∃ rows r, reserve_body (tc_tenant_id c) key uuid (workflow_id (tc_tenant_id c) uuid) digest
      now (sb_rows s) = Ok (rows, r) ∧ ∃ row, rows !! (tc_tenant_id c, key) = Some row ∧
      ticket row = ticket r ∧ rv_state row = rv_state r ∧ rv_state r ≠ START_FAILED)
    as (rows & r & Hb & row & Hr & Hrest).
  { unfold reserve_body. destruct (sb_rows s !! (tc_tenant_id c, key)) as [r0|] eqn:E.
    - unfold replay_or_retry. rewrite Hrow, (bool_decide_eq_true_2 (digest = digest)) by done. simpl.
      destruct (bool_decide (rv_state r0 = START_FAILED)) eqn:Es; boolify; do 2 eexists;
        (split; [done|]); eexists.
      + destruct (ok_key _ Hok _ _ E) as [<- _]. by rewrite lookup_insert_eq.
      + by rewrite E.
    - rewrite Hrow. simpl. do 2 eexists. split; [done|]. eexists. by rewrite lookup_insert_eq. }
  exists rows, r, row.
  assert (row_key r = (tc_tenant_id c, key)) as -> by by apply reserve_body_cases in Hb as (_ & ? & _).
  split; [|destruct Hrest as (? & ? & ?); split_and!; try done].
  2:{ apply reserve_body_cases in Hb as (_ & _ & _ & Hb); [|done]. unfold bound_transaction.
      destruct (sb_rows s !! _) as [r0|]; [|by destruct Hb as [-> _]].
      destruct Hb as (_ & _ & [_ -> _ _ _] & _). done. }
  unfold reserve_submission, reserve.
  rewrite (proj2 (checked_ok _ _ s {| sb_closed := false; sb_rows := rows |} r)); [done|].
  split_and!; [done..|eauto].
Qed.

Lemma acknowledge_total r now s row :
  rows_ok (sb_rows s) → ids_ok (sb_rows s) → sb_closed s = false →
  sb_rows s !! row_key r = Some row → ticket row = ticket r → rv_state row ≠ START_FAILED →
  ∃ s' sub, acknowledge r now s = (s', Ok sub).
Proof.
  intros Hok Hids Hopen Hr Ht Hs. injection Ht as _ Ht _. unfold acknowledge, mark_started.
  assert (∃ rows' r', mark_started_body (rv_transaction_id r) now (sb_rows s) = Ok (rows', r'))
    as (rows' & r' & Hb).
  { unfold mark_started_body, require_transaction. rewrite <-Ht.
    rewrite (find_transaction_unique _ _ _ Hok Hr). simpl.
    destruct (rv_state row) eqn:E; [| |done]; simpl; eauto. }
  rewrite (proj2 (checked_ok _ _ s {| sb_closed := false; sb_rows := rows' |} r')); [eauto|].
  split_and!; [|done|eauto]. rewrite <-Ht. by eapply Hids.
Qed.

Lemma acknowledge_after_reply w i call r now :
  acknowledge_call (put_call w (wo_store w) i (move call (Acknowledged r))) i
    (move call (Acknowledged r)) r now = acknowledge_call w i call r now.
Proof.
  unfold acknowledge_call. cbn [put_call wo_store]. destruct (acknowledge _ _ _) as [s o].
  unfold put_call, move. cbn. by rewrite insert_insert_eq.
Qed.

Lemma registered w r plan : is_Some (wo_workflows (register w r plan) !! rv_workflow_id r).
Proof.
  unfold register. cbn [wo_workflows]. destruct (wo_workflows w !! rv_workflow_id r) eqn:E; [done|].
  rewrite lookup_insert_eq. by eexists.
Qed.

(** The tail of a submission whose plan is ready. *)
Lemma start_and_acknowledge w i call r plan now row :
  world_ok w → wo_calls w !! i = Some call → cl_phase call = Starting r plan →
  sb_closed (wo_store w) = false → sb_rows (wo_store w) !! row_key r = Some row →
  ticket row = ticket r → rv_state row ≠ START_FAILED →
  star (world_step sv) w (acknowledge_call (register w r plan) i call r now) ∧
  ∃ sub, wo_calls (acknowledge_call (register w r plan) i call r now) !! i
    = Some (move call (Finished (Ok sub))).
Proof.
  intros Hw Hc Hp Hopen Hr Ht Hs. split.
  - eapply star_step; [by eapply ws_register|]. rewrite <-acknowledge_after_reply.
    eapply star_step; [by eapply ws_reply; [..|apply registered]|].
    apply star_one, ws_acknowledge; [by apply lookup_insert_eq|done].
  - unfold acknowledge_call. cbn [register wo_store].
    destruct (acknowledge_total r now (wo_store w) row) as (s' & sub & ->); [apply Hw..|done|done|done|done|].
    exists sub. cbn [put_call wo_calls]. apply lookup_insert_eq.
Qed.

(** What a finished submission leaves behind. *)
Lemma finished_running w i call sub :
  world_ok w → wo_calls w !! i = Some call → cl_phase call = Finished (Ok sub) →
  ts_submission_state sub = STARTED ∧ ts_tenant_id sub = tc_tenant_id (cl_command call) ∧
  ∃ row plan, find_transaction (sb_rows (wo_store w)) (ts_transaction_id sub) = Some row ∧
    rv_state row = STARTED ∧ rv_workflow_id row = ts_workflow_id sub ∧
    wo_workflows w !! ts_workflow_id sub = Some plan ∧
    plan_for (ts_tenant_id sub) (cl_digest call) (ts_transaction_id sub) plan.
Proof.
  intros Hw Hc Hp. pose proof (wk_calls _ Hw _ _ Hc) as Hph. unfold phase_ok in Hph. rewrite Hp in Hph.
  destruct Hph as (k & row & created & Hr & Hs & -> & Et & Ed).
  cbn [submission_result ts_submission_state ts_tenant_id ts_transaction_id ts_workflow_id].
  split_and!; [done|done|]. destruct (wk_started _ Hw _ _ Hr Hs) as [plan Hplan].
  exists row, plan. split_and!; [by eapply find_transaction_unique; [apply Hw|]|done..|].
  destruct (wk_running _ Hw _ _ Hplan) as (k' & row' & Hr' & Ewid & Hfor).
  assert (k' = k) as -> by (eapply (ok_unique _ (wk_rows _ Hw)); eauto).
  assert (row' = row) as -> by congruence. by rewrite <-Ed.
Qed.

(** A reservation that has been made, with a plan at hand, runs to the end. *)
Lemma submit_finishes w i c digest key principal uuid now :
  world_ok w → wo_calls w !! i = None → sb_closed (wo_store w) = false →
  reserve_checks (tc_tenant_id c) key uuid (workflow_id (tc_tenant_id c) uuid) digest = Ok () →
  match sb_rows (wo_store w) !! (tc_tenant_id c, key) with
  | Some row => rv_business_digest row = digest
  | None => identifier_taken (sb_rows (wo_store w)) uuid (workflow_id (tc_tenant_id c) uuid) = false
  end →
  (∀ r, rv_transaction_id r = bound_transaction (wo_store w) (tc_tenant_id c) key uuid →
    rv_business_digest r = digest → ∃ plan, plan_submission sv c principal r now = Ok plan) →
  let w' := submit_with_context sv w i c digest key principal uuid now in
  star (world_step sv) w w' ∧
  ∃ call sub, wo_calls w' !! i = Some call ∧ cl_phase call = Finished (Ok sub) ∧
    cl_command call = c ∧ cl_digest call = digest.
Proof.
  intros Hw Hi Hopen Hc Hrow Hplan w'.
  destruct (reserve_submission_total c digest key uuid now (wo_store w))
    as (rows & r & row & Er & Hr & Ht & Es & Hs & Hx); [apply Hw..|done|done|done|].
  assert (rv_business_digest r = digest) as Hd.
  { apply reserve_submission_spec in Er as (_ & _ & Ho); [|apply Hw..]. by apply (Ho r). }
  assert (star (world_step sv) w (begin_call w i c digest key principal uuid now)) as Hbegin
    by (apply star_one; by apply ws_begin).
  pose proof (world_steps_ok _ _ Hw Hbegin) as Hw1.
  subst w'. unfold submit_with_context. unfold begin_call in *. rewrite Er in *.
  cbn [put_call wo_calls]. rewrite lookup_insert_eq. cbn [cl_phase]. unfold reserved_phase in *.
  destruct (bool_decide (rv_state r = STARTED)) eqn:Est; cbv iota beta in *.
  { split; [done|]. cbn [put_call wo_calls]. rewrite lookup_insert_eq. by do 2 eexists. }
  destruct (Hplan r Hx Hd) as [plan Hpl]. set (w1 := put_call w _ i _) in *.
  set (call := {| cl_command := c; cl_digest := digest; cl_principal := principal; cl_phase := Planning r |}) in *.
  assert (wo_calls w1 !! i = Some call) as Hc1 by apply lookup_insert_eq.
  assert (world_step sv w1 (plan_call sv w1 i call r now)) as Hstep by by apply ws_plan.
  pose proof (world_step_ok _ _ Hw1 Hstep) as Hw2. unfold plan_call in *.
  change (cl_command call) with c in *. change (cl_principal call) with principal in *.
  rewrite Hpl in *. cbn [put_call wo_calls wo_store] in *. rewrite lookup_insert_eq. cbn [move cl_phase].
  set (w2 := put_call w1 _ i _) in *.
  set (call2 := move call (Starting r plan)) in *.
  assert (wo_calls w2 !! i = Some call2) as Hc2 by apply lookup_insert_eq.
  destruct (start_and_acknowledge w2 i call2 r plan now row Hw2 Hc2) as [Hstar [sub Hsub]]; try done.
  { by rewrite Es. }
  split; [|by do 2 eexists]. eapply star_trans; [exact Hbegin|]. by eapply star_step.
Qed.

(** ** A submission among others *)

Lemma checked_open {A} (checks : result SubmissionError ())
    (body : Reservations → result SubmissionError (Reservations * A)) st :
  sb_closed (checked checks body st).1 = sb_closed st.
Proof.
  destruct (checked checks body st) as [st' [a|e]] eqn:E.
  - by apply checked_ok in E as (_ & -> & rows & _ & ->).
  - unfold checked, session in E. destruct checks; [|by injection E as <-].
    by apply transact_err in E as [-> _].
Qed.

(** No step closes the ledger. *)
Lemma step_open w w' : world_step sv w w' → sb_closed (wo_store w') = sb_closed (wo_store w).
Proof.
  assert (∀ r code now st, sb_closed (record_failure r code now st) = sb_closed st) as Hf
    by (intros; apply checked_open).
  intros Hs. destruct Hs as [w i c digest key principal uuid now _|w i call r now Hc Hp|w i call r plan Hc Hp
    |w i call r plan Hc Hp Hs|w i call r plan now Hc Hp|w i call r now Hc Hp|w i]; try done.
  - unfold begin_call, reserve_submission. pose proof (checked_open
      (reserve_checks (tc_tenant_id c) key uuid (workflow_id (tc_tenant_id c) uuid) digest)
      (reserve_body (tc_tenant_id c) key uuid (workflow_id (tc_tenant_id c) uuid) digest now) (wo_store w)) as Ho.
    unfold reserve. destruct (checked _ _ _) as [st [r|[]]]; exact Ho.
  - unfold plan_call. destruct (plan_submission _ _ _ _ _) as [plan|[code e]]; [done|apply Hf].
  - apply Hf.
  - unfold acknowledge_call, acknowledge.
    pose proof (checked_open (validate_identifier (rv_transaction_id r))
      (mark_started_body (rv_transaction_id r) now) (wo_store w)) as Ho.
    unfold mark_started. destruct (checked _ _ _) as [st [r'|e]]; exact Ho.
Qed.

(** What keeps a call going: its own row, which holds no failed start. *)
Record going (k : string * string) (r : SubmissionReservation) (w : World) : Prop := {
  go_ok : world_ok w;
  go_open : sb_closed (wo_store w) = false;
  go_key : row_key r = k;
  go_row : ∃ row, sb_rows (wo_store w) !! k = Some row ∧ ticket row = ticket r ∧
    rv_state row ≠ START_FAILED }.

Lemma going_step i k r w w' : going k r w → peer_step sv i k w w' → going k r w'.
Proof.
  intros [Hw Ho Hk (row & Hr & Ht & Hs)] (Hstep & _ & Hn).
  destruct (steps_keep w w' Hw (star_one _ _ _ Hstep)) as (Hw' & _ & Hrows). split; [done|..|done|].
  - by rewrite (step_open _ _ Hstep).
  - destruct (Hrows _ _ Hr) as (row' & Hr' & [Ht' _]%ticket_key_le). exists row'.
    split_and!; [done|congruence|by apply Hn].
Qed.

(** Peers leave a call where it is, and its workflow registered. *)
Lemma peers_keep i k r w v :
  going k r w → star (peer_step sv i k) w v →
  going k r v ∧ wo_calls v !! i = wo_calls w !! i ∧ wo_workflows w ⊆ wo_workflows v.
Proof.
  intros Hg Hs. induction Hs as [w|w1 w2 w3 H1 H2 IH]; [done|].
  pose proof (going_step _ _ _ _ _ Hg H1) as Hg2. destruct (IH Hg2) as (Hg3 & Ec & Hsub).
  destruct H1 as (Hstep & Ec1 & _). split_and!; [done|congruence|].
  etrans; [|exact Hsub]. apply (steps_keep w1 w2 (go_ok _ _ _ Hg) (star_one _ _ _ Hstep)).
Qed.

Lemma own_is_step i planned w w' : own_step sv i planned w w' → world_step sv w w'.
Proof. intros [? call r Hc Hp|? call r plan Hc Hp _|? call r plan Hc Hp Hs|? call r now Hc Hp]; eauto using world_step. Qed.

(** The call by its phase: the acknowledgement, the reply, the registration and the plan. *)
Lemma acknowledged_through i k planned r w call :
  going k r w → wo_calls w !! i = Some call → cl_phase call = Acknowledged r → gets_through sv i k planned w.
Proof.
  intros Hg Hc Hp. apply gt_turn. intros v Hv. destruct (peers_keep _ _ _ _ _ Hg Hv) as (Hgv & Ec & _).
  rewrite Hc in Ec. split; [eexists; by eapply (own_acknowledge sv i planned v call r 0)|].
  intros v' Ho. pose proof (world_step_ok _ _ (go_ok _ _ _ Hgv) (own_is_step _ _ _ _ Ho)) as Hw'.
  destruct Ho as [v ? ? Hc' Hp'|v ? ? ? Hc' Hp' _|v ? ? ? Hc' Hp' _|v call' r' now Hc' Hp'];
    rewrite Ec in Hc'; injection Hc' as <-; rewrite Hp in Hp'; try discriminate Hp'.
  injection Hp' as <-. destruct Hgv as [Hwv Hopen Hk (row & Hr & Ht & Hs)]. rewrite <-Hk in Hr.
  destruct (acknowledge_total r now (wo_store v) row) as (s' & sub & Ea); [apply Hwv..|done|done|done|done|].
  unfold acknowledge_call in *. rewrite Ea in *.
  destruct (finished_running _ i (move call (Finished (Ok sub))) sub Hw') as (Es & _ & row' & plan & _ & _ & _ & Hwf & _);
    [apply lookup_insert_eq|done|].
  eapply gt_done; [apply lookup_insert_eq|done|done|by exists plan].
Qed.

Lemma registered_through i k planned r plan w call :
  going k r w → wo_calls w !! i = Some call → cl_phase call = Starting r plan →
  is_Some (wo_workflows w !! rv_workflow_id r) → gets_through sv i k planned w.
Proof.
  intros Hg Hc Hp [p Hwf]. apply gt_turn. intros v Hv. destruct (peers_keep _ _ _ _ _ Hg Hv) as (Hgv & Ec & Hsub).
  rewrite Hc in Ec. pose proof (lookup_weaken _ _ _ _ Hwf Hsub) as Hwv.
  split; [eexists; by eapply (own_reply sv i planned v call r plan)|].
  intros v' Ho. pose proof (world_step_ok _ _ (go_ok _ _ _ Hgv) (own_is_step _ _ _ _ Ho)) as Hw'.
  destruct Ho as [v ? ? Hc' Hp'|v ? ? ? Hc' Hp' Hn|v call' r' plan' Hc' Hp' _|v ? ? ? Hc' Hp'];
    rewrite Ec in Hc'; injection Hc' as <-; rewrite Hp in Hp'; try discriminate Hp'.
  - injection Hp' as <- <-. congruence.
  - injection Hp' as <- <-. eapply (acknowledged_through i k planned r); [|apply lookup_insert_eq|done].
    destruct Hgv as [_ Hopen Hk Hrow]. by split.
Qed.

Lemma starting_through i k planned r plan w call :
  going k r w → wo_calls w !! i = Some call → cl_phase call = Starting r plan → gets_through sv i k planned w.
Proof.
  intros Hg Hc Hp. apply gt_turn. intros v Hv. destruct (peers_keep _ _ _ _ _ Hg Hv) as (Hgv & Ec & _).
  rewrite Hc in Ec. split.
  { destruct (wo_workflows v !! rv_workflow_id r) as [p|] eqn:Ewf.
    - eexists. eapply (own_reply sv i planned v call r plan); [done|done|by exists p].
    - eexists. by eapply (own_register sv i planned v call r plan). }
  intros v' Ho. pose proof (world_step_ok _ _ (go_ok _ _ _ Hgv) (own_is_step _ _ _ _ Ho)) as Hw'.
  destruct Ho as [v ? ? Hc' Hp'|v call' r' plan' Hc' Hp' Hn|v call' r' plan' Hc' Hp' _|v ? ? ? Hc' Hp'];
    rewrite Ec in Hc'; injection Hc' as <-; rewrite Hp in Hp'; try discriminate Hp'; injection Hp' as <- <-.
  - eapply (registered_through i k planned r plan); [|exact Ec|done|apply registered].
    destruct Hgv as [_ Hopen Hk Hrow]. by split.
  - eapply (acknowledged_through i k planned r); [|apply lookup_insert_eq|done].
    destruct Hgv as [_ Hopen Hk Hrow]. by split.
Qed.

Lemma planning_through i k planned r w call :
  going k r w → wo_calls w !! i = Some call → cl_phase call = Planning r →
  (∃ plan, plan_submission sv (cl_command call) (cl_principal call) r planned = Ok plan) →
  gets_through sv i k planned w.
Proof.
  intros Hg Hc Hp Hplan. apply gt_turn. intros v Hv. destruct (peers_keep _ _ _ _ _ Hg Hv) as (Hgv & Ec & _).
  rewrite Hc in Ec. split; [eexists; by eapply (own_plan sv i planned v call r)|].
  intros v' Ho. pose proof (world_step_ok _ _ (go_ok _ _ _ Hgv) (own_is_step _ _ _ _ Ho)) as Hw'.
  destruct Ho as [v call' r' Hc' Hp'|v ? ? ? Hc' Hp' _|v ? ? ? Hc' Hp' _|v ? ? ? Hc' Hp'];
    rewrite Ec in Hc'; injection Hc' as <-; rewrite Hp in Hp'; try discriminate Hp'. injection Hp' as <-.
  destruct Hplan as [plan Hpl]. unfold plan_call in *. rewrite Hpl in *.
  eapply (starting_through i k planned r plan); [|apply lookup_insert_eq|done].
  destruct Hgv as [_ Hopen Hk Hrow]. by split.
Qed.

(** A reservation that has been made gets through. *)
Lemma submission_through w i c digest key principal uuid now planned :
  world_ok w → wo_calls w !! i = None → sb_closed (wo_store w) = false →
  reserve_checks (tc_tenant_id c) key uuid (workflow_id (tc_tenant_id c) uuid) digest = Ok () →
  match sb_rows (wo_store w) !! (tc_tenant_id c, key) with
  | Some row => rv_business_digest row = digest
  | None => identifier_taken (sb_rows (wo_store w)) uuid (workflow_id (tc_tenant_id c) uuid) = false
  end →
  (∀ r, rv_transaction_id r = bound_transaction (wo_store w) (tc_tenant_id c) key uuid →
    rv_business_digest r = digest → ∃ plan, plan_submission sv c principal r planned = Ok plan) →
  gets_through sv i (tc_tenant_id c, key) planned (begin_call w i c digest key principal uuid now).
Proof.
  intros Hw Hi Hopen Hc Hrow Hplan.
  pose proof (begin_call_ok w i c digest key principal uuid now Hw) as Hw1.
  destruct (reserve_submission_total c digest key uuid now (wo_store w))
    as (rows & r & row & Er & Hr & Ht & Es & Hs & Hx); [apply Hw..|done|done|done|].
  destruct (reserve_submission_spec _ _ _ _ _ _ _ _ (wk_rows _ Hw) (wk_ids _ Hw) Er) as (_ & _ & Ho).
  destruct (Ho r eq_refl) as (_ & Hk & Hd & _). unfold begin_call in *. rewrite Er in *. unfold reserved_phase in *.
  destruct (bool_decide (rv_state r = STARTED)) eqn:Est; cbv iota beta in *.
  - destruct (finished_running _ i _ (submission_result r (rv_created r)) Hw1 (lookup_insert_eq _ _ _) eq_refl)
      as (E & _ & row' & plan & _ & _ & _ & Hwf & _).
    eapply gt_done; [apply lookup_insert_eq|done|done|by exists plan].
  - eapply (planning_through i _ planned r); [|apply lookup_insert_eq|done|by apply Hplan].
    split; [done|done|done|]. exists row. rewrite <-Hk. split_and!; [done|done|]. by rewrite Es.
Qed.

(** ** Theorems *)

(** C14. The service refines its abstract specification: starting from nothing, whatever callers
    do, in any interleaving, with any failures and crashes, each step is a series of abstract
    steps, which only bind a fresh key to fresh identifiers or start, once, a valid plan for
    the request of a bound key. *)
Theorem service_refines w w' :
  world_reachable sv w → world_step sv w w' →
  star spec_step spec_init (abstract empty_world) ∧ star spec_step (abstract w) (abstract w').
Proof.
  intros Hw%world_reachable_ok Hs. split; [|by apply step_refines].
  unfold abstract. cbn. by rewrite fmap_empty.
Qed.

(** A submission that reports success is running for good: from then on, whatever happens,
    the workflow it names is registered with a valid plan for the caller's tenant, request and
    transaction, and the ledger says [STARTED]. *)
Theorem submission_running w i call sub w' :
  world_reachable sv w → wo_calls w !! i = Some call → cl_phase call = Finished (Ok sub) →
  star (world_step sv) w w' →
  ts_submission_state sub = STARTED ∧ ts_tenant_id sub = tc_tenant_id (cl_command call) ∧
  ∃ row plan, find_transaction (sb_rows (wo_store w')) (ts_transaction_id sub) = Some row ∧
    rv_state row = STARTED ∧ rv_workflow_id row = ts_workflow_id sub ∧
    wo_workflows w' !! ts_workflow_id sub = Some plan ∧
    plan_for (ts_tenant_id sub) (cl_digest call) (ts_transaction_id sub) plan.
Proof.
  intros Hw%world_reachable_ok Hc Hp Hs. destruct (finished_running _ _ _ _ Hw Hc Hp)
    as (Es & Et & row & plan & Hf & Est & Ewid & Hwf & Hplan).
  destruct (steps_keep _ _ Hw Hs) as (Hw' & Hsub & Hrows). split_and!; [done|done|].
  apply find_transaction_Some in Hf as [Ex [k Hk]]. destruct (Hrows _ _ Hk) as (row' & Hk' & Hle).
  rewrite (le_started _ _ Hle Est) in Hk'. exists row, plan. split_and!; try done.
  - rewrite <-Ex. by eapply find_transaction_unique; [apply Hw'|].
  - by eapply lookup_weaken.
Qed.

(** C15. A submission always gets through in the end: whatever has failed, crashed or is still in
    flight, a caller whose key is free or bound to the same request, with a plan to be had and
    the gateway answering, finishes with success and a running workflow, in a run of its own,
    and also when other callers take any number of steps before, between and after its own, as
    long as none of them records a failed start for this very key. *)
Theorem submission_recovers w i c digest key principal uuid began now :
  world_reachable sv w → wo_calls w !! i = None → sb_closed (wo_store w) = false →
  reserve_checks (tc_tenant_id c) key uuid (workflow_id (tc_tenant_id c) uuid) digest = Ok () →
  match sb_rows (wo_store w) !! (tc_tenant_id c, key) with
  | Some row => rv_business_digest row = digest
  | None => identifier_taken (sb_rows (wo_store w)) uuid (workflow_id (tc_tenant_id c) uuid) = false
  end →
  (∀ r, rv_transaction_id r = bound_transaction (wo_store w) (tc_tenant_id c) key uuid →
    rv_business_digest r = digest → ∃ plan, plan_submission sv c principal r now = Ok plan) →
  gets_through sv i (tc_tenant_id c, key) now (begin_call w i c digest key principal uuid began) ∧
  let w' := submit_with_context sv w i c digest key principal uuid now in
  star (world_step sv) w w' ∧
  ∃ call sub, wo_calls w' !! i = Some call ∧ cl_phase call = Finished (Ok sub) ∧
    ts_submission_state sub = STARTED ∧ is_Some (wo_workflows w' !! ts_workflow_id sub).
Proof.
  intros Hw%world_reachable_ok Hi Hopen Hc Hrow Hplan. split; [by apply submission_through|]. intros w'.
  destruct (submit_finishes w i c digest key principal uuid now Hw Hi Hopen Hc Hrow Hplan)
    as (Hs & call & sub & Hcall & Hp & _ & _). split; [done|]. exists call, sub.
  pose proof (world_steps_ok _ _ Hw Hs) as Hw'.
  destruct (finished_running _ _ _ _ Hw' Hcall Hp) as (Es & _ & row & plan & _ & _ & _ & Hwf & _).
  split_and!; [done..|by exists plan].
Qed.

End service_laws.
End spec.

(** ** A concrete service *)

#[local] Existing Instances example_sha256 example_float_repr example_sha256_laws example_datetime_text.

Definition example_service : Service := {|
  sv_planner := λ _, synthetic_tracking_planner;
  sv_policy_provider := Some (λ _, embedded_provider planning_set);
  sv_policy_environment_id := "prod"; sv_credential_bindings := λ _, None;
  sv_default_approval_timeout_seconds := 600 |}.

Lemma example_planner_lawful : ∀ now, LawfulPlanner (sv_planner example_service now).
Proof. intros now. exact (static_build_lawful synthetic_tracking_bindings None). Qed.
Lemma example_provider_lawful f now :
  sv_policy_provider example_service = Some f → LawfulProvider (f now).
Proof. intros [= <-]. apply embedded_lawful. Qed.
Lemma example_directory_lawful now : lawful_directory (sv_credential_bindings example_service now).
Proof. by intros ? ? ? ? ? ? [=]. Qed.

Definition submitted_world : World :=
  submit_with_context example_service empty_world 0 planned_command planned_digest "key" "user" "tx-1" 0.
Definition submitted : TransactionSubmission := {|
  ts_tenant_id := "tenant"; ts_transaction_id := "tx-1"; ts_workflow_id := workflow_id "tenant" "tx-1";
  ts_submission_state := STARTED; ts_created := true |}.
Definition submitted_call : Call := {|
  cl_command := planned_command; cl_digest := planned_digest; cl_principal := "user";
  cl_phase := Finished (Ok submitted) |}.

Example submit_example : wo_calls submitted_world !! 0%nat = Some submitted_call.
Proof. vm_compute. reflexivity. Qed.

Lemma example_plan_ready r :
  rv_transaction_id r = "tx-1" → rv_business_digest r = planned_digest →
  ∃ plan, plan_submission example_service planned_command "user" r 0 = Ok plan.
Proof.
  unfold plan_submission. intros -> ->. eexists. vm_compute. reflexivity.
Qed.

Lemma submission_recovers_witness :
  gets_through example_service 0 ("tenant", "key") 0
    (begin_call empty_world 0 planned_command planned_digest "key" "user" "tx-1" 0) ∧
  star (world_step example_service) empty_world submitted_world ∧
  ∃ call sub, wo_calls submitted_world !! 0%nat = Some call ∧ cl_phase call = Finished (Ok sub) ∧
    ts_submission_state sub = STARTED ∧ is_Some (wo_workflows submitted_world !! ts_workflow_id sub).
Proof.
  apply (submission_recovers example_service example_planner_lawful example_provider_lawful
    example_directory_lawful empty_world 0 planned_command planned_digest "key" "user" "tx-1" 0 0).
  - apply star_refl.
  - reflexivity.
  - reflexivity.
  - vm_compute. reflexivity.
  - reflexivity.
  - exact example_plan_ready.
Defined.

Lemma submitted_reachable : world_reachable example_service submitted_world.
Proof.
  apply (submit_finishes example_service example_planner_lawful example_provider_lawful
    example_directory_lawful empty_world 0 planned_command planned_digest "key" "user" "tx-1" 0).
  - apply world_reachable_ok with (sv := example_service); [exact example_planner_lawful
      |exact example_provider_lawful|exact example_directory_lawful|apply star_refl].
  - reflexivity.
  - reflexivity.
  - vm_compute. reflexivity.
  - reflexivity.
  - exact example_plan_ready.
Qed.

Lemma submission_running_witness :
  ∃ plan, wo_workflows submitted_world !! workflow_id "tenant" "tx-1" = Some plan ∧
    plan_for "tenant" planned_digest "tx-1" plan.
Proof.
  destruct (submission_running example_service example_planner_lawful example_provider_lawful
    example_directory_lawful submitted_world 0 submitted_call submitted submitted_world)
    as (_ & _ & row & plan & _ & _ & _ & Hw & Hp).
  - exact submitted_reachable.
  - vm_compute. reflexivity.
  - reflexivity.
  - apply star_refl.
  - exists plan. split; [exact Hw|exact Hp].
Defined.

(** Two callers of one key, where the second one's start fails after the first one's has
    registered the workflow and before its acknowledgement is recorded. *)
Definition overlap_begun : World :=
  begin_call (begin_call empty_world 0 planned_command planned_digest "key" "user" "tx-1" 0)
    1 planned_command planned_digest "key" "user" "tx-2" 1.

Lemma service_refines_witness :
  star spec_step (abstract empty_world)
    (abstract (begin_call empty_world 0 planned_command planned_digest "key" "user" "tx-1" 0)).
Proof.
  apply (service_refines example_service example_planner_lawful example_provider_lawful
    example_directory_lawful empty_world
    (begin_call empty_world 0 planned_command planned_digest "key" "user" "tx-1" 0)).
  - apply star_refl.
  - apply ws_begin. reflexivity.
Defined.

Definition run_call (w : World) (i : nat) (f : World → nat → Call → SubmissionReservation → World) : World :=
  match wo_calls w !! i with
  | Some call => match cl_phase call with
                 | Planning r | Starting r _ | Acknowledged r => f w i call r
                 | Finished _ => w
                 end
  | None => w
  end.
Definition register_call (w : World) (i : nat) (call : Call) (r : SubmissionReservation) : World :=
  match cl_phase call with Starting r plan => register w r plan | _ => w end.
Definition overlap_world : World :=
  let planned := λ w i, run_call w i (λ w i call r, plan_call example_service w i call r 2) in
  let w := run_call (planned (planned overlap_begun 0%nat) 1%nat) 0 register_call in
  let w := run_call w 1 (λ w i call r, start_failed w i call r 3) in
  run_call w 0 (λ w i call r, acknowledge_call w i call r 4).

(** The first caller gets an uncaught ledger error though its workflow runs; status says
    [START_FAILED] and approval and cancellation are refused. *)
Example overlapping_start :
  (cl_phase <$> wo_calls overlap_world !! 0%nat,
   is_none (wo_workflows overlap_world !! workflow_id "tenant" "tx-1"),
   tv_submission_state <$> get_transaction (wo_store overlap_world) "tx-1" None,
   rv_transaction_id <$> require_started (wo_store overlap_world) "tx-1")
  = (Some (Finished (Err (LedgerError (InvalidSubmissionState START_FAILED)))), false, Ok START_FAILED,
     Err (TransactionServiceError "transaction_not_started" "Transaction workflow has not started" 409)).
Proof. vm_compute. reflexivity. Qed.
