(* ===== verification/RepairModels.v ===== *)
(** * Repair contracts (repair/models.py)

    Requests, budgets and usage with their bounds, the allowlist of repair paths, and the
    documents of the later repair stages (candidates, validation reports, proposals, approvals,
    canary and release results, transitions), each with its validator and its digest.
    Timestamps are timezone-aware. *)

From stdpp Require Import options.
From Stdlib Require Import Ascii String.
From S2P Require Import Prelude.
From S2P Require Import Contracts.

(** ** Paths *)

(** [[A-Za-z0-9]] and [[A-Za-z0-9._/-]]. *)
Definition path_start (c : ascii) : bool := is_alnum c || is_upper c.
Definition path_char (c : ascii) : bool := path_start c || is_sep c || (code c =? 47).

Definition starts_with (prefix s : string) : bool := String.prefix prefix s.

(** [path.split("/")]. *)
Fixpoint split_slash (s : string) : list string :=
  match s with
  | EmptyString => [EmptyString]
  | String c s' =>
      if code c =? 47 then EmptyString :: split_slash s'
      else match split_slash s' with
           | part :: parts => String c part :: parts
           | [] => [String c EmptyString]
           end
  end.

(** [_PATH_RE.fullmatch]: a start character, path characters and [.json]. *)
Definition path_re (s : string) : bool :=
  match s with
  | EmptyString => false
  | String c s' => path_start c && forall_chars path_char s' && ends_with ".json" s'
  end.

(** [_validate_json_path] accepts. *)
Definition json_path_ok (path : string) : bool :=
  let parts := split_slash path in
  path_re path && negb (starts_with "/" path) && negb (starts_with "." path)
  && forall_chars (λ c, negb (code c =? 92)) path
  && negb (existsb (λ p, mem p [""; "."; ".."]) parts)
  && negb (existsb (starts_with ".") parts)
  && negb (existsb (ends_with ".json") (removelast parts))
  && negb (existsb (λ e, ends_with e path) [".py"; ".js"; ".ts"]).

(** ** Requests *)

Record RepairRequest := {
  rq_tenant_id : string;
  rq_environment_id : string;
  rq_job_id : string;
  rq_drift_report_digest : string;
  rq_base_package_digest : string;
  rq_sanitized_fixture_digest : string;
  rq_allowed_paths : list string;
  rq_request_digest : string }.

Definition request_json (r : RepairRequest) : json := JObj [
  ("tenant_id", JStr (rq_tenant_id r)); ("environment_id", JStr (rq_environment_id r));
  ("job_id", JStr (rq_job_id r)); ("drift_report_digest", JStr (rq_drift_report_digest r));
  ("base_package_digest", JStr (rq_base_package_digest r));
  ("sanitized_fixture_digest", JStr (rq_sanitized_fixture_digest r));
  ("allowed_paths", json_strs (rq_allowed_paths r))].

(** The bytes of [json.dumps] with its default [ensure_ascii=True]: every character that is
    not printable ASCII becomes a six-byte escape. *)
Fixpoint ascii_len (s : string) : Z :=
  match s with
  | EmptyString => 0
  | String c s' => (if code c <? 127 then 1 else 6) + ascii_len s'
  end.

Definition MAX_REPAIR_PATHS : Z := 128.
Definition MAX_REPAIR_METADATA_BYTES : Z := 65536.

(** [validate_request], after the field constraints. *)
Definition validate_request `{Sha256, FloatRepr} (r : RepairRequest) : result string () :=
  raise_if (negb (Identifier_ok (rq_tenant_id r) && Identifier_ok (rq_environment_id r)
                  && Identifier_ok (rq_job_id r) && Digest_ok (rq_drift_report_digest r)
                  && Digest_ok (rq_base_package_digest r)
                  && Digest_ok (rq_sanitized_fixture_digest r)
                  && between 1 (Z.of_nat (length (rq_allowed_paths r))) MAX_REPAIR_PATHS
                  && Digest_ok (rq_request_digest r))) "field constraint";;
  raise_if (has_duplicates (rq_allowed_paths r)) "repair paths must be unique";;
  raise_if (negb (forallb json_path_ok (rq_allowed_paths r)))
    "repair path must be an allowlisted relative JSON file";;
  raise_if (MAX_REPAIR_METADATA_BYTES <? ascii_len (json_dumps (request_json r)))
    "repair request metadata exceeds size limit";;
  raise_if (negb (bool_decide (rq_request_digest r = value_digest (request_json r))))
    "repair request digest does not match metadata".

(** ** Budgets and usage

    Both have the same seven quantities; the lists are in field order. *)

Record RepairBudget := {
  max_model_calls : Z;
  max_input_tokens : Z;
  max_output_tokens : Z;
  max_cost_units : Z;
  max_files : Z;
  max_candidate_bytes : Z;
  max_validation_seconds : Z;
  budget_digest : string }.

Record RepairUsage := {
  model_calls : Z;
  input_tokens : Z;
  output_tokens : Z;
  cost_units : Z;
  files : Z;
  candidate_bytes : Z;
  validation_seconds : Z }.

#[export] Instance RepairUsage_eq_dec : EqDecision RepairUsage.
Proof. solve_decision. Defined.

Definition limits (b : RepairBudget) : list Z :=
  [max_model_calls b; max_input_tokens b; max_output_tokens b; max_cost_units b; max_files b;
   max_candidate_bytes b; max_validation_seconds b].
Definition quantities (u : RepairUsage) : list Z :=
  [model_calls u; input_tokens u; output_tokens u; cost_units u; files u; candidate_bytes u;
   validation_seconds u].

(** The upper bounds of the field constraints, the same for a budget and a usage. *)
Definition field_maxima : list Z :=
  [10000; 100000000; 100000000; 2 ^ 63 - 1; 10000; 2 ^ 31 - 1; 86400].

Definition all_leq (xs ys : list Z) : bool := forallb (λ p, p.1 <=? p.2) (zip xs ys).

Definition budget_json (b : RepairBudget) : json := JObj [
  ("max_model_calls", JInt (max_model_calls b)); ("max_input_tokens", JInt (max_input_tokens b));
  ("max_output_tokens", JInt (max_output_tokens b)); ("max_cost_units", JInt (max_cost_units b));
  ("max_files", JInt (max_files b)); ("max_candidate_bytes", JInt (max_candidate_bytes b));
  ("max_validation_seconds", JInt (max_validation_seconds b))].

(** [validate_budget_digest], after the field constraints. *)
Definition validate_budget `{Sha256, FloatRepr} (b : RepairBudget) : result string () :=
  raise_if (negb (forallb (Z.leb 1) (limits b) && all_leq (limits b) field_maxima
                  && Digest_ok (budget_digest b))) "field constraint";;
  raise_if (negb (bool_decide (budget_digest b = value_digest (budget_json b))))
    "repair budget digest does not match metadata".

Definition validate_usage (u : RepairUsage) : result string () :=
  raise_if (negb (forallb (Z.leb 0) (quantities u) && all_leq (quantities u) field_maxima))
    "field constraint".

Definition usage_json (u : RepairUsage) : json := JObj [
  ("model_calls", JInt (model_calls u)); ("input_tokens", JInt (input_tokens u));
  ("output_tokens", JInt (output_tokens u)); ("cost_units", JInt (cost_units u));
  ("files", JInt (files u)); ("candidate_bytes", JInt (candidate_bytes u));
  ("validation_seconds", JInt (validation_seconds u))].

(** ** The later stages *)

(** [SafeCode] and [RepairName] are [Name_ok]. *)
Record RepairCandidate := {
  cd_job_id : string;
  cd_request_digest : string;
  cd_base_package_digest : string;
  cd_candidate_package_digest : string;
  cd_changed_paths : list string;
  cd_usage : RepairUsage;
  cd_result_code : string;
  cd_candidate_digest : string }.

Record ValidationReport := {
  vr_candidate_digest : string;
  vr_tck_report_digest : string;
  vr_security_report_digest : string;
  vr_passed : bool;
  vr_check_codes : list string;
  vr_violation_codes : list string;
  vr_duration_seconds : Z;
  vr_report_digest : string }.

Record RepairProposal := {
  pp_request_digest : string;
  pp_candidate_digest : string;
  pp_validation_report_digest : string;
  pp_result_code : string;
  pp_created_at : Z;
  pp_expires_at : Z;
  pp_proposal_digest : string }.

Record RepairApproval := {
  ra_proposal_digest : string;
  ra_principal_digest : string;
  ra_approval_attestation_digest : string;
  ra_approved : bool;
  ra_decision_code : string;
  ra_approval_digest : string }.

Record CanaryResult := {
  ca_proposal_digest : string;
  ca_passed : bool;
  ca_observation_codes : list string;
  ca_safety_violation_codes : list string;
  ca_canary_digest : string }.

Record ReleaseResult := {
  rl_previous_package_digest : string;
  rl_candidate_package_digest : string;
  rl_released : bool;
  rl_result_code : string;
  rl_release_digest : string }.

Record RepairTransition := {
  tn_tenant_id : string;
  tn_environment_id : string;
  tn_job_id : string;
  tn_request_digest : string;
  tn_subject_digest : string;
  tn_from_state : string;
  tn_to_state : string;
  tn_event_code : string;
  tn_previous_transition_digest : option string;
  tn_occurred_at : Z;
  tn_transition_digest : string }.

(** [model_dump] without the digest. *)
Definition candidate_json (c : RepairCandidate) : json := JObj [
  ("job_id", JStr (cd_job_id c)); ("request_digest", JStr (cd_request_digest c));
  ("base_package_digest", JStr (cd_base_package_digest c));
  ("candidate_package_digest", JStr (cd_candidate_package_digest c));
  ("changed_paths", json_strs (cd_changed_paths c)); ("usage", usage_json (cd_usage c));
  ("result_code", JStr (cd_result_code c))].
Definition report_json (r : ValidationReport) : json := JObj [
  ("candidate_digest", JStr (vr_candidate_digest r));
  ("tck_report_digest", JStr (vr_tck_report_digest r));
  ("security_report_digest", JStr (vr_security_report_digest r)); ("passed", JBool (vr_passed r));
  ("check_codes", json_strs (vr_check_codes r)); ("violation_codes", json_strs (vr_violation_codes r));
  ("duration_seconds", JInt (vr_duration_seconds r))].
Definition proposal_json (p : RepairProposal) : json := JObj [
  ("request_digest", JStr (pp_request_digest p)); ("candidate_digest", JStr (pp_candidate_digest p));
  ("validation_report_digest", JStr (pp_validation_report_digest p));
  ("result_code", JStr (pp_result_code p)); ("created_at", JStr (isoformat (pp_created_at p)));
  ("expires_at", JStr (isoformat (pp_expires_at p)))].
Definition approval_json (a : RepairApproval) : json := JObj [
  ("proposal_digest", JStr (ra_proposal_digest a)); ("principal_digest", JStr (ra_principal_digest a));
  ("approval_attestation_digest", JStr (ra_approval_attestation_digest a));
  ("approved", JBool (ra_approved a)); ("decision_code", JStr (ra_decision_code a))].
Definition canary_json (c : CanaryResult) : json := JObj [
  ("proposal_digest", JStr (ca_proposal_digest c)); ("passed", JBool (ca_passed c));
  ("observation_codes", json_strs (ca_observation_codes c));
  ("safety_violation_codes", json_strs (ca_safety_violation_codes c))].
Definition release_json (r : ReleaseResult) : json := JObj [
  ("previous_package_digest", JStr (rl_previous_package_digest r));
  ("candidate_package_digest", JStr (rl_candidate_package_digest r));
  ("released", JBool (rl_released r)); ("result_code", JStr (rl_result_code r))].
Definition transition_json (t : RepairTransition) : json := JObj [
  ("tenant_id", JStr (tn_tenant_id t)); ("environment_id", JStr (tn_environment_id t));
  ("job_id", JStr (tn_job_id t)); ("request_digest", JStr (tn_request_digest t));
  ("subject_digest", JStr (tn_subject_digest t)); ("from_state", JStr (tn_from_state t));
  ("to_state", JStr (tn_to_state t)); ("event_code", JStr (tn_event_code t));
  ("previous_transition_digest", json_opt JStr (tn_previous_transition_digest t));
  ("occurred_at", JStr (isoformat (tn_occurred_at t)))].

Section stages.
Context `{Sha256, FloatRepr}.

(** Each validator after its field constraints, and each [issue]. *)
Definition validate_candidate (c : RepairCandidate) : result string () :=
  raise_if (negb (Identifier_ok (cd_job_id c) && Digest_ok (cd_request_digest c)
                  && Digest_ok (cd_base_package_digest c) && Digest_ok (cd_candidate_package_digest c)
                  && between 1 (Z.of_nat (length (cd_changed_paths c))) MAX_REPAIR_PATHS
                  && Name_ok (cd_result_code c) && Digest_ok (cd_candidate_digest c)))
    "field constraint";;
  validate_usage (cd_usage c);;
  raise_if (negb (forallb json_path_ok (cd_changed_paths c)))
    "repair path must be an allowlisted relative JSON file";;
  raise_if (has_duplicates (cd_changed_paths c)) "candidate paths must be unique";;
  raise_if (negb (bool_decide (cd_candidate_digest c = value_digest (candidate_json c))))
    "candidate digest does not match metadata".

Definition validate_report (r : ValidationReport) : result string () :=
  raise_if (negb (Digest_ok (vr_candidate_digest r) && Digest_ok (vr_tck_report_digest r)
                  && Digest_ok (vr_security_report_digest r)
                  && between 1 (Z.of_nat (length (vr_check_codes r))) 128
                  && forallb Name_ok (vr_check_codes r) && max_length 64 (vr_violation_codes r)
                  && forallb Name_ok (vr_violation_codes r) && between 0 (vr_duration_seconds r) 86400
                  && Digest_ok (vr_report_digest r))) "field constraint";;
  raise_if (vr_passed r && negb (bool_decide (vr_violation_codes r = [])))
    "passing validation cannot contain violations";;
  raise_if (negb (bool_decide (vr_report_digest r = value_digest (report_json r))))
    "validation report digest does not match metadata".

Definition validate_proposal (p : RepairProposal) : result string () :=
  raise_if (negb (Digest_ok (pp_request_digest p) && Digest_ok (pp_candidate_digest p)
                  && Digest_ok (pp_validation_report_digest p) && Name_ok (pp_result_code p)
                  && Digest_ok (pp_proposal_digest p))) "field constraint";;
  raise_if (pp_expires_at p <=? pp_created_at p) "repair proposal must expire after creation";;
  raise_if (negb (bool_decide (pp_proposal_digest p = value_digest (proposal_json p))))
    "repair proposal digest does not match metadata".

Definition validate_approval (a : RepairApproval) : result string () :=
  raise_if (negb (Digest_ok (ra_proposal_digest a) && Digest_ok (ra_principal_digest a)
                  && Digest_ok (ra_approval_attestation_digest a) && Name_ok (ra_decision_code a)
                  && Digest_ok (ra_approval_digest a))) "field constraint";;
  raise_if (negb (bool_decide (ra_approval_digest a = value_digest (approval_json a))))
    "repair approval digest does not match metadata".

Definition validate_canary (c : CanaryResult) : result string () :=
  raise_if (negb (Digest_ok (ca_proposal_digest c)
                  && between 1 (Z.of_nat (length (ca_observation_codes c))) 64
                  && forallb Name_ok (ca_observation_codes c)
                  && max_length 64 (ca_safety_violation_codes c)
                  && forallb Name_ok (ca_safety_violation_codes c) && Digest_ok (ca_canary_digest c)))
    "field constraint";;
  raise_if (ca_passed c && negb (bool_decide (ca_safety_violation_codes c = [])))
    "passing canary cannot contain safety violations";;
  raise_if (negb (bool_decide (ca_canary_digest c = value_digest (canary_json c))))
    "canary digest does not match metadata".

Definition validate_release (r : ReleaseResult) : result string () :=
  raise_if (negb (Digest_ok (rl_previous_package_digest r) && Digest_ok (rl_candidate_package_digest r)
                  && Name_ok (rl_result_code r) && Digest_ok (rl_release_digest r))) "field constraint";;
  raise_if (negb (bool_decide (rl_release_digest r = value_digest (release_json r))))
    "release digest does not match metadata".

Definition validate_transition (t : RepairTransition) : result string () :=
  raise_if (negb (Identifier_ok (tn_tenant_id t) && Identifier_ok (tn_environment_id t)
                  && Identifier_ok (tn_job_id t) && Digest_ok (tn_request_digest t)
                  && Digest_ok (tn_subject_digest t) && Name_ok (tn_from_state t)
                  && Name_ok (tn_to_state t) && Name_ok (tn_event_code t)
                  && optional_digest_ok (tn_previous_transition_digest t)
                  && Digest_ok (tn_transition_digest t))) "field constraint";;
  raise_if (negb (bool_decide (tn_transition_digest t = value_digest (transition_json t))))
    "transition digest does not match metadata".

Definition issue_release (previous candidate : string) (released : bool) (code : string)
    : result string ReleaseResult :=
  let unsigned digest := {| rl_previous_package_digest := previous;
    rl_candidate_package_digest := candidate; rl_released := released; rl_result_code := code;
    rl_release_digest := digest |} in
  let r := unsigned (value_digest (release_json (unsigned EmptyString))) in
  validate_release r;; Ok r.

Definition issue_transition (t : RepairTransition) : result string RepairTransition :=
  let t' := {| tn_tenant_id := tn_tenant_id t; tn_environment_id := tn_environment_id t;
    tn_job_id := tn_job_id t; tn_request_digest := tn_request_digest t;
    tn_subject_digest := tn_subject_digest t; tn_from_state := tn_from_state t;
    tn_to_state := tn_to_state t; tn_event_code := tn_event_code t;
    tn_previous_transition_digest := tn_previous_transition_digest t;
    tn_occurred_at := tn_occurred_at t; tn_transition_digest := value_digest (transition_json t) |} in
  validate_transition t';; Ok t'.

End stages.

(** ** Lemmas *)

Lemma all_leq_spec xs ys :
  all_leq xs ys = true ↔ ∀ i x y, xs !! i = Some x → ys !! i = Some y → x ≤ y.
Proof.
  unfold all_leq. rewrite forallb_elem. split.
  - intros Hall i x y Hx Hy. apply Z.leb_le, (Hall (x, y)).
    apply list_elem_of_lookup. exists i. apply lookup_zip_Some. done.
  - intros Hall [x y] Hxy. apply list_elem_of_lookup in Hxy as [i [Hx Hy]%lookup_zip_Some].
    by apply Z.leb_le, (Hall i).
Qed.

Lemma quantities_length u : length (quantities u) = 7%nat.
Proof. done. Qed.

Lemma limits_length b : length (limits b) = 7%nat.
Proof. done. Qed.

Example path_examples :
  map json_path_ok ["a.json"; "maps/a.json"; "a.json/b.json"; "../a.json"; "a.py"; "/a.json";
                    "a//b.json"; ".a.json"; "x/.b.json"]
  = [true; true; false; false; false; false; false; false; false].
Proof. vm_compute. reflexivity. Qed.
