(* ===== verification/BudgetLedger.v ===== *)
(** * Repair budget ledger (repair/budget.py)

    Reserve-before-use accounting of repair jobs: a reservation per request, the usage of a
    (tenant, environment, job) scope and the finalization with the actual usage.  Rows are
    in insertion order and keep the budget they were reserved under ([budget_json]); JSON
    columns are read back as the values written, so the [budget_record_invalid] errors, which
    need a database written by someone else, do not arise. *)

From S2P Require Import Prelude.
From S2P Require Import Contracts.
From S2P Require Import Sqlite.
From S2P Require Import RepairModels.

(** ** Reservations *)

Inductive ReservationStatus := RESERVED | FINALIZED.

#[export] Instance ReservationStatus_eq_dec : EqDecision ReservationStatus.
Proof. solve_decision. Defined.

Definition ReservationStatus_value (s : ReservationStatus) : string :=
  match s with RESERVED => "RESERVED" | FINALIZED => "FINALIZED" end.

Record BudgetReservation := {
  br_reservation_id : string;
  br_tenant_id : string;
  br_environment_id : string;
  br_job_id : string;
  br_request_digest : string;
  br_budget_digest : string;
  br_reserved : RepairUsage;
  br_status : ReservationStatus;
  br_actual : option RepairUsage;
  br_reserved_at : Z;
  br_reservation_digest : string }.

Inductive BudgetError :=
| RepairBudgetError (code : string)
| BudgetConflict
| BudgetExceeded
| BudgetNotFound
| ValidationError (message : string).

(** The subclasses of [RepairBudgetError] are what the handlers roll back. *)
Definition handled (e : BudgetError) : bool :=
  match e with ValidationError _ => false | _ => true end.

(** [_usage_leq], against a usage and against a budget. *)
Definition usage_leq (left right : RepairUsage) : bool :=
  all_leq (quantities left) (quantities right).
Definition usage_within (usage : RepairUsage) (budget : RepairBudget) : bool :=
  all_leq (quantities usage) (limits budget).

Definition reservation_json (r : BudgetReservation) : json := JObj [
  ("reservation_id", JStr (br_reservation_id r)); ("tenant_id", JStr (br_tenant_id r));
  ("environment_id", JStr (br_environment_id r)); ("job_id", JStr (br_job_id r));
  ("request_digest", JStr (br_request_digest r)); ("budget_digest", JStr (br_budget_digest r));
  ("reserved", usage_json (br_reserved r));
  ("status", JStr (ReservationStatus_value (br_status r)));
  ("actual", json_opt usage_json (br_actual r));
  ("reserved_at", JStr (isoformat (br_reserved_at r)))].

Definition reservation_fields_ok (r : BudgetReservation) : bool :=
  Identifier_ok (br_reservation_id r) && Identifier_ok (br_tenant_id r)
  && Identifier_ok (br_environment_id r) && Identifier_ok (br_job_id r)
  && Digest_ok (br_request_digest r) && Digest_ok (br_budget_digest r)
  && is_ok (validate_usage (br_reserved r)) && opt_ok (λ u, is_ok (validate_usage u)) (br_actual r).

(** [validate_reservation], after the field constraints. *)
Definition validate_reservation `{Sha256, FloatRepr} (r : BudgetReservation) : result string () :=
  raise_if (negb (reservation_fields_ok r)) "field constraint";;
  raise_if (bool_decide (br_status r = RESERVED) && negb (is_none (br_actual r)))
    "reserved budget cannot contain actual usage";;
  raise_if (bool_decide (br_status r = FINALIZED) && is_none (br_actual r))
    "finalized budget requires actual usage";;
  raise_if (negb (opt_ok (λ u, usage_leq u (br_reserved r)) (br_actual r)))
    "actual usage cannot exceed reserved usage";;
  raise_if (negb (bool_decide (br_reservation_digest r = value_digest (reservation_json r))))
    "budget reservation digest does not match metadata".

(** [BudgetReservation.issue]. *)
Definition issue_reservation `{Sha256, FloatRepr}
    (id tenant environment job request_digest budget_digest : string) (reserved : RepairUsage)
    (status : ReservationStatus) (actual : option RepairUsage) (reserved_at : Z)
    : result string BudgetReservation :=
  let r digest := {| br_reservation_id := id; br_tenant_id := tenant;
    br_environment_id := environment; br_job_id := job; br_request_digest := request_digest;
    br_budget_digest := budget_digest; br_reserved := reserved; br_status := status;
    br_actual := actual; br_reserved_at := reserved_at; br_reservation_digest := digest |} in
  let issued := r (value_digest (reservation_json (r ""))) in
  validate_reservation issued;; Ok issued.

(** ** The ledger *)

(** A row of [repair_budget_reservations]. *)
Record LedgerRow := { lr_reservation : BudgetReservation; lr_budget : RepairBudget }.

Notation BudgetLedger := (Connection (list LedgerRow)).

(** [WHERE tenant_id=? AND environment_id=? AND job_id=?]. *)
Definition Scope : Type := string * string * string.
Definition row_scope (row : LedgerRow) : Scope :=
  let r := lr_reservation row in (br_tenant_id r, br_environment_id r, br_job_id r).
Definition request_scope (q : RepairRequest) : Scope :=
  (rq_tenant_id q, rq_environment_id q, rq_job_id q).
Definition in_scope (scope : Scope) (row : LedgerRow) : bool := bool_decide (row_scope row = scope).
Definition scope_rows (scope : Scope) (rows : list LedgerRow) : list LedgerRow :=
  List.filter (in_scope scope) rows.

(** [WHERE reservation_id=?]. *)
Definition has_id (id : string) (row : LedgerRow) : bool :=
  bool_decide (br_reservation_id (lr_reservation row) = id).
Definition find_reservation (id : string) (rows : list LedgerRow) : option LedgerRow :=
  List.find (has_id id) rows.

(** [_scope_usage]: the actual usage of finalized reservations, the reserved usage of the
    others, summed field by field. *)
Definition no_usage : list Z := [0; 0; 0; 0; 0; 0; 0].
Definition used (row : LedgerRow) : list Z :=
  let r := lr_reservation row in
  match br_status r, br_actual r with
  | FINALIZED, Some actual => quantities actual
  | _, _ => quantities (br_reserved r)
  end.
Definition scope_usage (scope : Scope) (rows : list LedgerRow) : list Z :=
  foldl (λ totals row, zip_with Z.add totals (used row)) no_usage (scope_rows scope rows).

(** [_usage_fits_sum]. *)
Definition usage_fits_sum (current : list Z) (requested : RepairUsage) (budget : RepairBudget)
    : bool := all_leq (zip_with Z.add current (quantities requested)) (limits budget).

(** The comparison of a replayed reservation with the request. *)
Definition same_reservation (r : BudgetReservation) (q : RepairRequest) (b : RepairBudget)
    (usage : RepairUsage) : bool :=
  bool_decide ((br_tenant_id r, br_environment_id r, br_job_id r) = request_scope q)
  && bool_decide (br_request_digest r = rq_request_digest q)
  && bool_decide (br_budget_digest r = budget_digest b) && bool_decide (br_reserved r = usage).

(** The scope is already bound to another budget or request. *)
Definition scope_bound_elsewhere (rows : list LedgerRow) (q : RepairRequest) (b : RepairBudget)
    : bool :=
  match scope_rows (request_scope q) rows with
  | row :: _ =>
      negb (bool_decide (br_budget_digest (lr_reservation row) = budget_digest b))
      || negb (bool_decide (br_request_digest (lr_reservation row) = rq_request_digest q))
  | [] => false
  end.

(** [reservation_id or request.request_digest]. *)
Definition reservation_key (q : RepairRequest) (reservation_id : option string) : string :=
  match reservation_id with
  | Some id => if bool_decide (id = "") then rq_request_digest q else id
  | None => rq_request_digest q
  end.

Section ledger.
Context `{Sha256, FloatRepr}.

(** [reserve] and [reserve_before_use]; [now] is the clock [issue] reads. *)
Definition reserve_checks (q : RepairRequest) (b : RepairBudget) (usage : RepairUsage)
    : result BudgetError () :=
  escaping ValidationError (validate_request q);;
  escaping ValidationError (validate_budget b);;
  escaping ValidationError (validate_usage usage);;
  raise_if (negb (usage_within usage b)) BudgetExceeded.
Definition reserve_body (q : RepairRequest) (b : RepairBudget) (usage : RepairUsage)
    (reservation_id : option string) (now : Z) (rows : list LedgerRow)
    : result BudgetError (list LedgerRow * BudgetReservation) :=
  let key := reservation_key q reservation_id in
  match find_reservation key rows with
  | Some row =>
      raise_if (negb (same_reservation (lr_reservation row) q b usage)) BudgetConflict;;
      Ok (rows, lr_reservation row)
  | None =>
      raise_if (scope_bound_elsewhere rows q b) BudgetConflict;;
      raise_if (negb (usage_fits_sum (scope_usage (request_scope q) rows) usage b)) BudgetExceeded;;
      r ← escaping ValidationError
            (issue_reservation key (rq_tenant_id q) (rq_environment_id q) (rq_job_id q)
               (rq_request_digest q) (budget_digest b) usage RESERVED None now);
      Ok (rows ++ [{| lr_reservation := r; lr_budget := b |}], r)
  end.
Definition operation {A} : result BudgetError () →
    (list LedgerRow → result BudgetError (list LedgerRow * A)) →
    BudgetLedger → BudgetLedger * result BudgetError A :=
  Sqlite.operation handled (RepairBudgetError "budget_store_closed")
    (RepairBudgetError "budget_store_unavailable").
Definition reserve (q : RepairRequest) (b : RepairBudget) (usage : RepairUsage)
    (reservation_id : option string) (now : Z)
    : BudgetLedger → BudgetLedger * result BudgetError BudgetReservation :=
  operation (reserve_checks q b usage) (reserve_body q b usage reservation_id now).

(** [UPDATE ... WHERE reservation_id=?]. *)
Definition update_row (r : BudgetReservation) (rows : list LedgerRow) : list LedgerRow :=
  map (λ row, if has_id (br_reservation_id r) row
              then {| lr_reservation := r; lr_budget := lr_budget row |} else row) rows.

(** [finalize]. *)
Definition other_scope (existing reservation : BudgetReservation) : bool :=
  negb (bool_decide (br_tenant_id existing = br_tenant_id reservation)
        && bool_decide (br_environment_id existing = br_environment_id reservation)
        && bool_decide (br_job_id existing = br_job_id reservation)
        && bool_decide (br_request_digest existing = br_request_digest reservation)).
Definition finalize_body (reservation : BudgetReservation) (actual : RepairUsage)
    (rows : list LedgerRow) : result BudgetError (list LedgerRow * BudgetReservation) :=
  match find_reservation (br_reservation_id reservation) rows with
  | None => Err BudgetNotFound
  | Some row =>
      let existing := lr_reservation row in
      raise_if (other_scope existing reservation) BudgetConflict;;
      if bool_decide (br_status existing = FINALIZED) then
        raise_if (negb (bool_decide (br_actual existing = Some actual))) BudgetConflict;;
        Ok (rows, existing)
      else
        raise_if (negb (bool_decide (budget_digest (lr_budget row) = br_budget_digest existing)))
          (RepairBudgetError "budget_record_invalid");;
        raise_if (negb (usage_leq actual (br_reserved existing))
                  || negb (usage_within actual (lr_budget row))) BudgetExceeded;;
        finalized ← escaping ValidationError
          (issue_reservation (br_reservation_id existing) (br_tenant_id existing)
             (br_environment_id existing) (br_job_id existing) (br_request_digest existing)
             (br_budget_digest existing) (br_reserved existing) FINALIZED (Some actual)
             (br_reserved_at existing));
        Ok (update_row finalized rows, finalized)
  end.
Definition finalize (reservation : BudgetReservation) (actual : RepairUsage)
    : BudgetLedger → BudgetLedger * result BudgetError BudgetReservation :=
  operation (escaping ValidationError (validate_usage actual)) (finalize_body reservation actual).

(** [get]. *)
Definition get (c : BudgetLedger) (id : string) (scope : Scope)
    : result BudgetError (option BudgetReservation) :=
  ensure_open (RepairBudgetError "budget_store_closed") c;;
  Ok (lr_reservation <$> List.find (λ row, has_id id row && in_scope scope row) (cn_data c)).

(** ** Histories *)

Inductive step : BudgetLedger → BudgetLedger → Prop :=
| step_reserve q b usage id now c : step c (reserve q b usage id now c).1
| step_finalize r actual c : step c (finalize r actual c).1
| step_close c : step c (close c).

Definition reachable (c : BudgetLedger) : Prop := star step (connect []) c.

(** A row between its insertion and its finalization. *)
Record row_le (row row' : LedgerRow) : Prop := {
  le_scope : row_scope row' = row_scope row;
  le_budget : lr_budget row' = lr_budget row;
  le_id : br_reservation_id (lr_reservation row') = br_reservation_id (lr_reservation row);
  le_request : br_request_digest (lr_reservation row') = br_request_digest (lr_reservation row);
  le_budget_digest : br_budget_digest (lr_reservation row') = br_budget_digest (lr_reservation row);
  le_reserved : br_reserved (lr_reservation row') = br_reserved (lr_reservation row);
  le_final : br_status (lr_reservation row) = FINALIZED → row' = row }.

#[export] Instance row_le_preorder : PreOrder row_le.
Proof.
  split; [by split|]. intros r1 r2 r3 [A1 A2 A3 A4 A5 A6 A7] [B1 B2 B3 B4 B5 B6 B7].
  split; try congruence. intros Hf. pose proof (A7 Hf). subst. auto.
Qed.

(** What an operation does to the rows: nothing, a new reservation its scope has room for, or
    the finalization of one row with no more than it reserved. *)
Inductive writes (rows : list LedgerRow) : list LedgerRow → Prop :=
| wr_none : writes rows rows
| wr_reserve row q : find_reservation (br_reservation_id (lr_reservation row)) rows = None →
    row_scope row = request_scope q → br_status (lr_reservation row) = RESERVED →
    br_budget_digest (lr_reservation row) = budget_digest (lr_budget row) →
    br_request_digest (lr_reservation row) = rq_request_digest q →
    scope_bound_elsewhere rows q (lr_budget row) = false →
    usage_fits_sum (scope_usage (request_scope q) rows) (br_reserved (lr_reservation row))
      (lr_budget row) = true →
    writes rows (rows ++ [row])
| wr_finalize r row actual : find_reservation (br_reservation_id r) rows = Some row →
    br_status (lr_reservation row) = RESERVED →
    row_le row {| lr_reservation := r; lr_budget := lr_budget row |} →
    br_status r = FINALIZED → br_actual r = Some actual →
    usage_leq actual (br_reserved (lr_reservation row)) = true →
    writes rows (update_row r rows).

Lemma issue_reservation_ok id t e j rd bd u st a now r :
  issue_reservation id t e j rd bd u st a now = Ok r →
  br_reservation_id r = id ∧ (br_tenant_id r, br_environment_id r, br_job_id r) = (t, e, j) ∧
  br_request_digest r = rd ∧ br_budget_digest r = bd ∧ br_reserved r = u ∧ br_status r = st ∧
  br_actual r = a.
Proof. unfold issue_reservation. intros ([] & _ & [= <-])%bind_ok. done. Qed.

Lemma find_reservation_Some id rows row :
  find_reservation id rows = Some row →
  row ∈ rows ∧ br_reservation_id (lr_reservation row) = id.
Proof.
  intros [Hin Hid]%find_some. unfold has_id in Hid. boolify. split; [|done].
  by apply list_elem_of_In.
Qed.

Lemma reserve_writes q b usage id now rows rows' r :
  reserve_body q b usage id now rows = Ok (rows', r) → writes rows rows'.
Proof.
  unfold reserve_body. destruct (find_reservation _ _) as [row|] eqn:Hf.
  - rewrite raise_if_then. intros [_ [= <- <-]]. constructor.
  - rewrite !raise_if_then. intros (Hb & Hu & (r' & Hr%escaping_ok & [= <- <-])%bind_ok). boolify.
    apply issue_reservation_ok in Hr as (E1 & E2 & E3 & E4 & E5 & E6 & _).
    apply (wr_reserve rows {| lr_reservation := r'; lr_budget := b |} q); cbn [lr_reservation lr_budget];
      try done; [by rewrite E1|by rewrite E5].
Qed.

Lemma finalize_cases r actual rows rows' f :
  finalize_body r actual rows = Ok (rows', f) →
  writes rows rows' ∧ br_status f = FINALIZED ∧ br_actual f = Some actual ∧
  br_reservation_id f = br_reservation_id r ∧ other_scope f r = false ∧
  ∃ budget, find_reservation (br_reservation_id f) rows'
    = Some {| lr_reservation := f; lr_budget := budget |}.
Proof.
  unfold finalize_body. destruct (find_reservation _ _) as [[e budget]|] eqn:Hf; [|done].
  pose proof (find_reservation_Some _ _ _ Hf) as [_ Hid]. cbn [lr_reservation lr_budget] in *.
  rewrite raise_if_then. intros [Ho Hb]. case_bool_decide as Hs.
  - apply raise_if_then in Hb as [Ha [= <- <-]]. boolify. split_and!; try done; [constructor|].
    exists budget. by rewrite Hid.
  - rewrite !raise_if_then in Hb. destruct Hb as (_ & Hu & (f' & Hi%escaping_ok & [= <- <-])%bind_ok).
    boolify. apply issue_reservation_ok in Hi as (E1 & E2 & E3 & E4 & E5 & E6 & E7).
    assert (br_status e = RESERVED) as Hres by (by destruct (br_status e)).
    split_and!; try done.
    + apply (wr_finalize _ _ {| lr_reservation := e; lr_budget := budget |} actual); try done.
      by rewrite E1, Hid.
    + congruence.
    + unfold other_scope in *. injection E2 as -> -> ->. by rewrite E3.
    + exists budget. rewrite E1, Hid. unfold find_reservation, update_row in *.
      rewrite E1, Hid. clear -Hf E1 Hid. revert Hf.
      induction rows as [|row rows IH]; cbn [map List.find]; [done|].
      destruct (has_id (br_reservation_id r) row) eqn:Hr.
      * intros [= ->]. cbn [lr_budget]. unfold has_id at 1. cbn [lr_reservation].
        by rewrite bool_decide_eq_true_2 by congruence.
      * rewrite Hr. done.
Qed.

Lemma ledger_step_writes c c' : step c c' → writes (cn_data c) (cn_data c').
Proof.
  intros [q b usage id now c1|r actual c1|c1].
  - destruct (reserve q b usage id now c1) as [c2 x] eqn:E. cbn [fst].
    apply operation_cases in E as [(-> & _)|(rows & a & _ & _ & Hb & -> & _)]; [constructor|].
    by eapply reserve_writes.
  - destruct (finalize r actual c1) as [c2 x] eqn:E. cbn [fst].
    apply operation_cases in E as [(-> & _)|(rows & a & _ & _ & Hb & -> & _)]; [constructor|].
    by eapply finalize_cases.
  - unfold close. destruct (cn_closed c1); constructor.
Qed.

(** *** Sums *)

Definition at_ (i : nat) (l : list Z) : Z := nth i l 0.
Definition total (i : nat) (rows : list LedgerRow) : Z := foldr Z.add 0 (map (λ r, at_ i (used r)) rows).

Lemma at_zip_add i xs ys :
  length xs = length ys → at_ i (zip_with Z.add xs ys) = at_ i xs + at_ i ys.
Proof.
  unfold at_. revert xs ys. induction i as [|i IH]; intros [|x xs] [|y ys] Hl; simpl in *; try lia.
  rewrite IH by lia. done.
Qed.

Lemma all_leq_at xs ys :
  length xs = length ys → all_leq xs ys = true ↔ ∀ i, at_ i xs ≤ at_ i ys.
Proof.
  intros Hl. rewrite all_leq_spec. unfold at_. split.
  - intros Hall i. destruct (xs !! i) as [x|] eqn:Hx.
    + assert (i < length ys)%nat as Hi by (rewrite <-Hl; by eapply lookup_lt_Some).
      apply lookup_lt_is_Some in Hi as [y Hy]. rewrite (nth_lookup_Some _ _ _ _ Hx).
      rewrite (nth_lookup_Some _ _ _ _ Hy). eauto.
    + apply lookup_ge_None in Hx. rewrite !nth_overflow by lia. lia.
  - intros Hall i x y Hx Hy. specialize (Hall i).
    by rewrite (nth_lookup_Some _ _ _ _ Hx), (nth_lookup_Some _ _ _ _ Hy) in Hall.
Qed.

Lemma used_length row : length (used row) = 7%nat.
Proof. unfold used. by destruct (br_status (lr_reservation row)), (br_actual (lr_reservation row)). Qed.

Lemma scope_usage_length_at scope rows i :
  length (scope_usage scope rows) = 7%nat ∧
  at_ i (scope_usage scope rows) = total i (scope_rows scope rows).
Proof.
  unfold scope_usage. generalize (scope_rows scope rows) as l. clear rows.
  assert (∀ l acc, length acc = 7%nat →
    length (foldl (λ totals row, zip_with Z.add totals (used row)) acc l) = 7%nat ∧
    at_ i (foldl (λ totals row, zip_with Z.add totals (used row)) acc l) = at_ i acc + total i l)
    as Hgen.
  { induction l as [|row l IH]; intros acc Ha; cbn [foldl total map foldr]; [split; [done|lia]|].
    destruct (IH (zip_with Z.add acc (used row))) as [H1 H2].
    - by rewrite length_zip_with_l_eq; rewrite ?used_length.
    - split; [done|]. rewrite H2, at_zip_add by by rewrite used_length. unfold total. lia. }
  intros l. destruct (Hgen l no_usage) as [H1 H2]; [done|]. split; [done|]. rewrite H2.
  replace (at_ i no_usage) with 0; [lia|].
  unfold at_, no_usage. by do 7 (destruct i as [|i]; [done|]); destruct i.
Qed.

Lemma total_app i l1 l2 : total i (l1 ++ l2) = total i l1 + total i l2.
Proof. unfold total. induction l1 as [|row l1 IH]; cbn [app map foldr]; lia. Qed.

Lemma total_mono i f l :
  (∀ row, row ∈ l → at_ i (used (f row)) ≤ at_ i (used row)) → total i (map f l) ≤ total i l.
Proof.
  unfold total. induction l as [|row l IH]; intros Hf; cbn [map foldr]; [lia|].
  pose proof (Hf row ltac:(left)). enough (foldr Z.add 0 (map (λ r, at_ i (used r)) (map f l))
    ≤ foldr Z.add 0 (map (λ r, at_ i (used r)) l)) by lia.
  apply IH. intros row' Hr. apply Hf. by right.
Qed.

(** *** The invariant *)

(** The reservations of a scope share their request and budget, and their total usage is
    within the limits of the budget of the latest one. *)
Definition scope_ok (rows : list LedgerRow) : Prop :=
  (∀ row, row ∈ rows → br_status (lr_reservation row) = RESERVED ∨
     ∃ a, br_status (lr_reservation row) = FINALIZED ∧ br_actual (lr_reservation row) = Some a ∧
       usage_leq a (br_reserved (lr_reservation row)) = true) ∧
  NoDup (map (λ row, br_reservation_id (lr_reservation row)) rows) ∧
  ∀ row row', row ∈ rows → row' ∈ rows → row_scope row = row_scope row' →
    br_budget_digest (lr_reservation row) = br_budget_digest (lr_reservation row') ∧
    br_request_digest (lr_reservation row) = br_request_digest (lr_reservation row').

Definition within_budget (rows : list LedgerRow) : Prop :=
  ∀ scope row, last (scope_rows scope rows) = Some row →
    all_leq (scope_usage scope rows) (limits (lr_budget row)) = true.

Lemma scope_rows_app scope rows row :
  scope_rows scope (rows ++ [row]) =
    scope_rows scope rows ++ if in_scope scope row then [row] else [].
Proof. unfold scope_rows. rewrite List.filter_app. simpl. by destruct (in_scope scope row). Qed.

Lemma scope_rows_elem scope rows row :
  row ∈ scope_rows scope rows ↔ row ∈ rows ∧ row_scope row = scope.
Proof. unfold scope_rows, in_scope. by rewrite list_filter_elem, bool_decide_eq_true. Qed.

(** The row an update leaves in place of [row]. *)
Definition updated (r : BudgetReservation) (row : LedgerRow) : LedgerRow :=
  if has_id (br_reservation_id r) row
  then {| lr_reservation := r; lr_budget := lr_budget row |} else row.

Lemma updated_id r row :
  br_reservation_id (lr_reservation (updated r row)) = br_reservation_id (lr_reservation row).
Proof. unfold updated, has_id. case_bool_decide; [done|done]. Qed.

Lemma find_reservation_None id rows row :
  find_reservation id rows = None → row ∈ rows → br_reservation_id (lr_reservation row) ≠ id.
Proof.
  intros Hf Hr E. eapply find_none in Hf; [|by apply list_elem_of_In].
  unfold has_id in Hf. boolify. done.
Qed.

Lemma find_reservation_unique rows row :
  NoDup (map (λ row, br_reservation_id (lr_reservation row)) rows) → row ∈ rows →
  find_reservation (br_reservation_id (lr_reservation row)) rows = Some row.
Proof.
  unfold find_reservation. induction rows as [|row0 rows IH]; intros Hn Hr; [by apply elem_of_nil in Hr|].
  cbn [map] in Hn. apply NoDup_cons in Hn as [Hn0 Hn]. cbn [List.find]. unfold has_id at 1.
  apply elem_of_cons in Hr as [->|Hr]; [by rewrite bool_decide_eq_true_2|].
  rewrite bool_decide_eq_false_2; [by apply IH|]. intros E. apply Hn0. rewrite E.
  by apply (list_elem_of_fmap_2 (λ row, br_reservation_id (lr_reservation row))).
Qed.

(** The only row an update changes is the one found. *)
Lemma updated_cases r rows row row' :
  scope_ok rows → find_reservation (br_reservation_id r) rows = Some row → row' ∈ rows →
  updated r row' = row' ∨ (row' = row ∧ updated r row' = {| lr_reservation := r; lr_budget := lr_budget row |}).
Proof.
  intros (_ & Hn & _) Hf Hr'. unfold updated, has_id. case_bool_decide as E; [right|by left].
  apply (find_reservation_unique _ _ Hn) in Hr'. rewrite E in Hr'. by simplify_eq.
Qed.

Lemma scope_rows_map f scope rows :
  (∀ row, row ∈ rows → row_scope (f row) = row_scope row) →
  scope_rows scope (map f rows) = map f (scope_rows scope rows).
Proof.
  unfold scope_rows, in_scope. induction rows as [|row rows IH]; intros Hf; [done|].
  cbn [map List.filter]. rewrite Hf by left. rewrite IH by (intros; apply Hf; by right).
  by destruct (bool_decide _).
Qed.

Lemma reserve_scope_ok rows row q :
  scope_ok rows → find_reservation (br_reservation_id (lr_reservation row)) rows = None →
  row_scope row = request_scope q → br_status (lr_reservation row) = RESERVED →
  br_budget_digest (lr_reservation row) = budget_digest (lr_budget row) →
  br_request_digest (lr_reservation row) = rq_request_digest q →
  scope_bound_elsewhere rows q (lr_budget row) = false → scope_ok (rows ++ [row]).
Proof.
  intros (Hst & Hn & Hsame) Hf Hs Hr Hb Hq Hbound.
  assert (∀ row', row' ∈ rows → row_scope row' = row_scope row →
    br_budget_digest (lr_reservation row') = br_budget_digest (lr_reservation row) ∧
    br_request_digest (lr_reservation row') = br_request_digest (lr_reservation row)) as Hnew.
  { intros row' Hr' Es. unfold scope_bound_elsewhere in Hbound.
    destruct (scope_rows (request_scope q) rows) as [|row0 l] eqn:E.
    - assert (row' ∈ scope_rows (request_scope q) rows) as Hin
        by (apply scope_rows_elem; split; congruence).
      rewrite E in Hin. by apply elem_of_nil in Hin.
    - assert (row0 ∈ scope_rows (request_scope q) rows) as [Hr0 Hs0]%scope_rows_elem
        by (rewrite E; left).
      boolify. destruct (Hsame row' row0 Hr' Hr0) as [E1 E2]; [congruence|].
      split; congruence. }
  split_and!.
  - intros row' [Hr'| ->%list_elem_of_singleton]%elem_of_app; auto.
  - rewrite map_app. apply NoDup_app. split_and!; [done| |apply NoDup_singleton].
    intros id (row' & -> & Hr')%list_elem_of_fmap E%list_elem_of_singleton.
    by eapply find_reservation_None.
  - intros row1 row2 [H1| ->%list_elem_of_singleton]%elem_of_app
      [H2| ->%list_elem_of_singleton]%elem_of_app E; auto.
    destruct (Hnew row2); auto.
Qed.

Lemma finalize_scope_ok r rows row actual :
  scope_ok rows → find_reservation (br_reservation_id r) rows = Some row →
  row_le row {| lr_reservation := r; lr_budget := lr_budget row |} →
  br_status r = FINALIZED → br_actual r = Some actual →
  usage_leq actual (br_reserved (lr_reservation row)) = true → scope_ok (update_row r rows).
Proof.
  intros Hok Hf [L1 _ _ L4 L5 L6 _] Hs Ha Hu. change (update_row r rows) with (map (updated r) rows).
  cbn [lr_reservation] in *.
  assert (∀ row', row' ∈ rows →
    row_scope (updated r row') = row_scope row' ∧
    br_budget_digest (lr_reservation (updated r row')) = br_budget_digest (lr_reservation row') ∧
    br_request_digest (lr_reservation (updated r row')) = br_request_digest (lr_reservation row'))
    as Hsame'.
  { intros row' Hr'. by destruct (updated_cases _ _ _ _ Hok Hf Hr') as [->|[-> ->]]. }
  pose proof Hok as (Hst & Hn & Hsame). split_and!.
  - intros row' (row1 & -> & H1)%list_elem_of_fmap.
    destruct (updated_cases _ _ _ _ Hok Hf H1) as [->|[-> ->]]; [by apply Hst|right].
    exists actual. cbn [lr_reservation]. by rewrite L6.
  - rewrite map_map. erewrite map_ext; [exact Hn|]. intros row'. apply updated_id.
  - intros row1' row2' (row1 & -> & H1)%list_elem_of_fmap (row2 & -> & H2)%list_elem_of_fmap.
    destruct (Hsame' _ H1) as (-> & -> & ->), (Hsame' _ H2) as (-> & -> & ->). auto.
Qed.

Lemma writes_scope_ok rows rows' : writes rows rows' → scope_ok rows → scope_ok rows'.
Proof.
  intros [|row q|r row actual] Hok; [done|by eapply reserve_scope_ok|by eapply finalize_scope_ok].
Qed.

Lemma writes_within rows rows' :
  writes rows rows' → scope_ok rows → within_budget rows → within_budget rows'.
Proof.
  intros [|row q Hf Hs Hr Hb Hq Hbound Hfit|r row actual Hf Hst Hle Hs Ha Hu] Hok Hw; [done|..].
  - intros scope row'. rewrite scope_rows_app. unfold in_scope. case_bool_decide as E.
    + rewrite last_snoc. intros [= <-]. unfold usage_fits_sum in Hfit. subst scope. rewrite Hs.
      apply all_leq_at; [by destruct (scope_usage_length_at (request_scope q) (rows ++ [row]) 0)|].
      intros i. destruct (scope_usage_length_at (request_scope q) (rows ++ [row]) i) as [_ ->].
      rewrite scope_rows_app. unfold in_scope. rewrite bool_decide_eq_true_2 by done.
      rewrite total_app. destruct (scope_usage_length_at (request_scope q) rows i) as [Hl <-].
      assert (length (zip_with Z.add (scope_usage (request_scope q) rows)
        (quantities (br_reserved (lr_reservation row)))) = 7%nat) as Hl'
        by (rewrite length_zip_with_l_eq; done).
      rewrite all_leq_at in Hfit by done. specialize (Hfit i). rewrite at_zip_add in Hfit by done.
      unfold total. cbn [map foldr]. unfold used at 1. rewrite Hr. lia.
    + rewrite app_nil_r. intros Hl. specialize (Hw scope row' Hl). unfold scope_usage in *.
      rewrite scope_rows_app. unfold in_scope. by rewrite bool_decide_eq_false_2, app_nil_r.
  - change (update_row r rows) with (map (updated r) rows). intros scope row'.
    assert (∀ row0, row0 ∈ rows → row_scope (updated r row0) = row_scope row0) as Hsc.
    { intros row0 Hr0. destruct (updated_cases _ _ _ _ Hok Hf Hr0) as [->|[-> ->]]; [done|apply Hle]. }
    rewrite scope_rows_map by done.
    change (map (updated r)) with (@fmap list _ _ _ (updated r)). rewrite fmap_last.
    destruct (last (scope_rows scope rows)) as [row0|] eqn:Hlast; [|done]. intros [= <-].
    specialize (Hw _ _ Hlast).
    assert (lr_budget (updated r row0) = lr_budget row0) as -> by (unfold updated; by destruct (has_id _ _)).
    destruct (scope_usage_length_at scope (map (updated r) rows) 0) as [Hl1 _].
    destruct (scope_usage_length_at scope rows 0) as [Hl2 _].
    rewrite all_leq_at in Hw |- * by done. intros i. specialize (Hw i).
    destruct (scope_usage_length_at scope rows i) as [_ E2]. rewrite E2 in Hw.
    etrans; [|exact Hw].
    change (updated r <$> rows) with (map (updated r) rows).
    destruct (scope_usage_length_at scope (map (updated r) rows) i) as [_ ->].
    rewrite scope_rows_map by done. apply total_mono. intros row1 [Hr1 _]%scope_rows_elem.
    destruct (updated_cases _ _ _ _ Hok Hf Hr1) as [->|[-> ->]]; [lia|].
    unfold used. cbn [lr_reservation]. rewrite Hs, Ha, Hst.
    by apply all_leq_at.
Qed.

Lemma ledger_reachable_ok c : reachable c → scope_ok (cn_data c) ∧ within_budget (cn_data c).
Proof.
  apply (star_invariant step (λ c, scope_ok (cn_data c) ∧ within_budget (cn_data c))).
  - intros c1 c2 [H1 H2] Hw%ledger_step_writes.
    split; [by eapply writes_scope_ok|by eapply writes_within].
  - split; [split_and!|]; cbn.
    + by intros row ?%elem_of_nil.
    + constructor.
    + by intros row row' ?%elem_of_nil.
    + done.
Qed.

(** C13. The budget is never overspent: in every ledger a program can get to, the reservations of
    a job's scope were all made for the same request under the same budget, reservation ids
    are unique, every finalized usage is at most what was reserved, and in each of the seven
    quantities the usage of the scope (actual where finalized, reserved otherwise) is within
    the limits of the budget it was last reserved under. *)
Theorem budget_never_overspent c scope :
  reachable c →
  NoDup (map (λ row, br_reservation_id (lr_reservation row)) (cn_data c)) ∧
  (∀ row row', row ∈ scope_rows scope (cn_data c) → row' ∈ scope_rows scope (cn_data c) →
    br_request_digest (lr_reservation row) = br_request_digest (lr_reservation row') ∧
    br_budget_digest (lr_reservation row) = br_budget_digest (lr_reservation row')) ∧
  (∀ row a, row ∈ cn_data c → br_actual (lr_reservation row) = Some a →
    br_status (lr_reservation row) = FINALIZED → usage_leq a (br_reserved (lr_reservation row)) = true) ∧
  (∀ row, last (scope_rows scope (cn_data c)) = Some row →
    all_leq (scope_usage scope (cn_data c)) (limits (lr_budget row)) = true).
Proof.
  intros [(Hst & Hn & Hsame) Hw]%ledger_reachable_ok. split_and!; [done|..|apply Hw].
  - intros row row' [H1 E1]%scope_rows_elem [H2 E2]%scope_rows_elem.
    destruct (Hsame row row'); congruence || auto.
  - intros row a Hr Ha Hf. destruct (Hst row Hr) as [?|(a' & _ & Ha' & Hu)]; congruence.
Qed.

Lemma find_updated id r rows :
  find_reservation id (map (updated r) rows) = updated r <$> find_reservation id rows.
Proof.
  unfold find_reservation. induction rows as [|row rows IH]; [done|]. cbn [map List.find].
  unfold has_id at 1 3. rewrite updated_id. case_bool_decide; [done|exact IH].
Qed.

Lemma writes_find rows rows' id row :
  writes rows rows' → scope_ok rows → find_reservation id rows = Some row →
  ∃ row', find_reservation id rows' = Some row' ∧ row_le row row'.
Proof.
  intros [|row0 q Hf0|r row0 actual Hf0 Hst Hle Hs Ha Hu] Hok Hf; [by exists row|..].
  - exists row. split; [|done]. unfold find_reservation in *. clear -Hf.
    induction rows as [|row1 rows IH]; [done|]. cbn [List.app List.find] in *.
    destruct (has_id id row1); auto.
  - change (update_row r rows) with (map (updated r) rows). rewrite find_updated, Hf. cbn.
    eexists. split; [done|].
    destruct (find_reservation_Some _ _ _ Hf) as [Hr _].
    destruct (updated_cases _ _ _ _ Hok Hf0 Hr) as [->|[-> ->]]; [done|exact Hle].
Qed.

Lemma star_find c c' id row :
  star step c c' → scope_ok (cn_data c) → find_reservation id (cn_data c) = Some row →
  ∃ row', find_reservation id (cn_data c') = Some row' ∧ row_le row row'.
Proof.
  intros Hs Hok Hf.
  eapply (star_entries step (λ c, scope_ok (cn_data c)) (λ c k, find_reservation k (cn_data c)) row_le);
    [..|exact Hok|exact Hs|exact Hf].
  - intros c1 c2 Hok1 Hw%ledger_step_writes. by eapply writes_scope_ok.
  - intros c1 c2 k r Hok1 Hw%ledger_step_writes. by eapply writes_find.
Qed.

(** Usage is settled once: after a reservation has been finalized, whatever calls follow,
    finalizing it again with the same usage and repeating the request that reserved it both
    return the finalized reservation, finalizing with another usage or asking for the same
    reservation with another amount is a conflict, and none of these changes the ledger. *)
Theorem finalized_usage_settled r a c c1 f c2 :
  reachable c → finalize r a c = (c1, Ok f) → star step c1 c2 →
  cn_closed c2 = false → cn_in_transaction c2 = false →
  br_status f = FINALIZED ∧ br_actual f = Some a ∧
  (∀ a', validate_usage a' = Ok () →
    finalize r a' c2 = (c2, if decide (a' = a) then Ok f else Err BudgetConflict)) ∧
  (∀ q b usage id now, reserve_checks q b usage = Ok () →
    reservation_key q id = br_reservation_id f →
    reserve q b usage id now c2 =
      (c2, if same_reservation f q b usage then Ok f else Err BudgetConflict)).
Proof.
  intros Hre Hfin Hs Hopen Hidle. pose proof (ledger_reachable_ok _ Hre) as [Hok _].
  pose proof Hfin as (_ & _ & _ & rows & Hb & ->)%operation_ok.
  apply finalize_cases in Hb as (Hw & Hst & Ha & Hid & Ho & budget & Hf).
  destruct (star_find (with_data c rows) c2 _ _ Hs (writes_scope_ok _ _ Hw Hok) Hf)
    as (row & Hrow & Hle).
  rewrite (le_final _ _ Hle Hst) in Hrow.
  split_and!; [done|done|..].
  - intros a' Hv. assert (escaping ValidationError (validate_usage a') = Ok ()) as Hv'
      by (by apply escaping_ok).
    unfold finalize, operation. destruct (decide (a' = a)) as [->|Hne];
      [apply operation_unchanged; try done|apply operation_handled; try done];
      unfold finalize_body; rewrite <-Hid, Hrow; cbn [lr_reservation];
      rewrite Ho, (bool_decide_eq_true_2 (br_status f = FINALIZED)) by done; rewrite Ha.
    + by rewrite bool_decide_eq_true_2.
    + by rewrite (bool_decide_eq_false_2 (Some a = Some a')) by congruence.
  - intros q b usage id now Hc Hk. unfold reserve, operation.
    destruct (same_reservation f q b usage) eqn:Hsame;
      [apply operation_unchanged; try done|apply operation_handled; try done];
      unfold reserve_body; rewrite Hk, Hrow; cbn [lr_reservation]; by rewrite Hsame.
Qed.

End ledger.

(** ** A concrete run *)

#[local] Existing Instances example_sha256 example_float_repr.

Definition example_budget : RepairBudget := {|
  max_model_calls := 3; max_input_tokens := 1000; max_output_tokens := 1000;
  max_cost_units := 50; max_files := 4; max_candidate_bytes := 4096;
  max_validation_seconds := 60; budget_digest := value_digest JNull |}.
Definition example_usage (calls : Z) : RepairUsage := {|
  model_calls := calls; input_tokens := 100; output_tokens := 100; cost_units := 5; files := 1;
  candidate_bytes := 512; validation_seconds := 10 |}.
Definition repair_request : RepairRequest := {|
  rq_tenant_id := "tenant"; rq_environment_id := "prod"; rq_job_id := "job-1";
  rq_drift_report_digest := value_digest JNull; rq_base_package_digest := value_digest JNull;
  rq_sanitized_fixture_digest := value_digest JNull; rq_allowed_paths := ["maps/a.json"];
  rq_request_digest := value_digest JNull |}.
Definition example_reservation (id : string) (calls : Z) (actual : option RepairUsage)
    : BudgetReservation := {|
  br_reservation_id := id; br_tenant_id := "tenant"; br_environment_id := "prod";
  br_job_id := "job-1"; br_request_digest := value_digest JNull;
  br_budget_digest := value_digest JNull; br_reserved := example_usage calls;
  br_status := match actual with Some _ => FINALIZED | None => RESERVED end;
  br_actual := actual; br_reserved_at := 0; br_reservation_digest := value_digest JNull |}.

Definition reserved_ledger : BudgetLedger :=
  (reserve repair_request example_budget (example_usage 2) (Some "first") 0 (connect [])).1.
Definition settled_ledger : BudgetLedger :=
  (finalize (example_reservation "first" 2 None) (example_usage 1) reserved_ledger).1.

(** Two calls reserved of three leave room for one; settling at one call frees the other. *)
Example ledger_results :
  (reserve repair_request example_budget (example_usage 2) (Some "first") 0 (connect [])).2
    = Ok (example_reservation "first" 2 None) ∧
  (reserve repair_request example_budget (example_usage 2) (Some "second") 0 reserved_ledger).2
    = Err BudgetExceeded ∧
  (finalize (example_reservation "first" 2 None) (example_usage 3) reserved_ledger).2
    = Err BudgetExceeded ∧
  (reserve repair_request example_budget (example_usage 2) (Some "second") 0 settled_ledger).2
    = Ok (example_reservation "second" 2 None) ∧
  scope_usage (request_scope repair_request) (cn_data settled_ledger) = [1; 100; 100; 5; 1; 512; 10].
Proof. vm_compute. split_and!; reflexivity. Qed.

Lemma reserved_ledger_reachable : reachable reserved_ledger.
Proof. apply star_one. apply step_reserve. Qed.

Lemma settled_ledger_reachable : reachable settled_ledger.
Proof. eapply star_trans; [exact reserved_ledger_reachable|]. apply star_one. apply step_finalize. Qed.

Lemma budget_never_overspent_witness :
  all_leq (scope_usage (request_scope repair_request) (cn_data settled_ledger))
    (limits example_budget) = true.
Proof.
  destruct (budget_never_overspent settled_ledger (request_scope repair_request)
    settled_ledger_reachable) as (_ & _ & _ & Hw).
  apply (Hw {| lr_reservation := example_reservation "first" 2 (Some (example_usage 1));
               lr_budget := example_budget |}).
  vm_compute. reflexivity.
Defined.

Lemma finalized_usage_settled_witness :
  finalize (example_reservation "first" 2 None) (example_usage 2) settled_ledger
  = (settled_ledger, Err BudgetConflict).
Proof.
  destruct (finalized_usage_settled (example_reservation "first" 2 None) (example_usage 1)
    reserved_ledger settled_ledger (example_reservation "first" 2 (Some (example_usage 1)))
    settled_ledger) as (_ & _ & Hf & _).
  - exact reserved_ledger_reachable.
  - vm_compute. reflexivity.
  - apply star_refl.
  - reflexivity.
  - reflexivity.
  - apply (Hf (example_usage 2)). vm_compute. reflexivity.
Defined.

(** A reservation id that is no identifier makes [reserve] raise a validation error inside its
    transaction, and the next call, whoever makes it, fails. *)
Lemma reserve_validation_error_leaves_transaction :
  let c := (reserve repair_request example_budget (example_usage 2) (Some " id") 0 (connect [])).1 in
  (reserve repair_request example_budget (example_usage 2) (Some " id") 0 (connect [])).2
    = Err (ValidationError "field constraint") ∧
  cn_in_transaction c = true ∧
  (reserve repair_request example_budget (example_usage 2) (Some "first") 0 c).2
    = Err (RepairBudgetError "budget_store_unavailable").
Proof. vm_compute. split_and!; reflexivity. Qed.
