(* ===== verification/HumanTasks.v ===== *)
(** * Attended human tasks (channels/human.py)

    The task, lease and record contracts and the SQLite store with its fenced claim and
    one-time completion.  A row keeps the decoded record, so the integrity errors of a
    database written by someone else do not arise.  Timestamps are timezone-aware, in
    microseconds since the epoch.

    [claim] and [complete] open a transaction; an exception their handlers do not name, a
    pydantic [ValidationError], leaves it open on the shared connection.  [create] writes
    outside [BEGIN], so a task created meanwhile belongs to the open transaction and goes
    when the next operation's failing [BEGIN] rolls it back: the store keeps what an open
    transaction would roll back to. *)

From Stdlib Require Import Ascii.
From S2P Require Import Prelude.
From S2P Require Import Contracts.
From S2P Require Import Verification.

(** ** Bounded content *)

(** The words of [_SECRET_RE] and [_OUTPUT_CONTENT_RE], both delimited as the secret words
    of Contracts are. *)
Definition human_secret_words : list string :=
  ["authorization"; "cookie"; "credential"; "password"; "secret"; "token"; "apikey"; "api_key"; "api-key"].
Definition content_words : list string :=
  ["attachment"; "body"; "content"; "document"; "payload"; "raw"].
Definition secret_like (s : string) : bool := secret_search human_secret_words true s.
Definition content_like (s : string) : bool := secret_search content_words true s.

Notation Claims := (list (string * ClaimScalar)).

(** [_safe_claims], per item. *)
Definition safe_claim (kv : string * ClaimScalar) : bool :=
  name_pattern is_sep kv.1 && negb (secret_like kv.1) && negb (content_like kv.1)
  && match kv.2 with
     | SStr s => len s <=? 1024
     | SFloat f => sf_is_finite f
     | _ => true
     end.
Definition safe_claims (claims : Claims) : bool := forallb safe_claim claims.

(** [_safe_instruction_value]. *)
Fixpoint safe_instruction_value (depth : Z) (value : json) : bool :=
  (depth <=? 8) &&
  match value with
  | JObj fields =>
      max_length 32 fields
      && forallb (λ kv, negb (secret_like kv.1) && safe_instruction_value (depth + 1) kv.2) fields
  | JList l => max_length 64 l && forallb (safe_instruction_value (depth + 1)) l
  | JStr s => len s <=? 2048
  | _ => true
  end.

(** What pydantic's [str_strip_whitespace] makes of a claim already stripped: itself. *)
Definition claim_stripped (kv : string * ClaimScalar) : bool :=
  Name_ok kv.1 && match kv.2 with SStr s => bool_decide (strip s = s) | _ => true end.

Definition claims_json (claims : Claims) : json :=
  JObj (map (λ kv, (kv.1, scalar_json kv.2)) claims).

(** ** Contracts *)

Inductive AttendedTaskStatus := PENDING | CLAIMED | COMPLETED | REJECTED.

#[export] Instance AttendedTaskStatus_eq_dec : EqDecision AttendedTaskStatus.
Proof. solve_decision. Defined.

Definition AttendedTaskStatus_value (s : AttendedTaskStatus) : string :=
  match s with
  | PENDING => "PENDING" | CLAIMED => "CLAIMED" | COMPLETED => "COMPLETED" | REJECTED => "REJECTED"
  end.

(** [status in {COMPLETED, REJECTED}]. *)
Definition terminal (s : AttendedTaskStatus) : bool :=
  match s with COMPLETED | REJECTED => true | _ => false end.

(** The [status] of a task is always [PENDING]. *)
Record AttendedTask := {
  ht_task_id : string;
  ht_tenant_id : string;
  ht_environment_id : string;
  ht_transaction_id : string;
  ht_step_id : string;
  ht_capability : string;
  ht_instructions : list (string * json);
  ht_required_claim_names : list string;
  ht_created_at : Z;
  ht_task_digest : string }.

Record HumanTaskLease := {
  hl_task_id : string;
  hl_tenant_id : string;
  hl_environment_id : string;
  hl_principal_ref : string;
  hl_fencing_token : Z;
  hl_acquired_at : Z;
  hl_expires_at : Z;
  hl_lease_digest : string }.

Record AttendedTaskRecord := {
  ar_task : AttendedTask;
  ar_status : AttendedTaskStatus;
  ar_fencing_token : Z;
  ar_principal_ref : option string;
  ar_lease_expires_at : option Z;
  ar_claims : option Claims;
  ar_note_digest : option string;
  ar_completion_digest : option string;
  ar_updated_at : Z;
  ar_record_digest : string }.

Definition task_fields (t : AttendedTask) : list (string * json) := [
  ("schema_version", JStr "cargomesh.attended-task/v1"); ("task_id", JStr (ht_task_id t));
  ("tenant_id", JStr (ht_tenant_id t)); ("environment_id", JStr (ht_environment_id t));
  ("transaction_id", JStr (ht_transaction_id t)); ("step_id", JStr (ht_step_id t));
  ("capability", JStr (ht_capability t)); ("instructions", JObj (ht_instructions t));
  ("required_claim_names", json_strs (ht_required_claim_names t)); ("status", JStr "PENDING");
  ("created_at", JStr (isoformat (ht_created_at t)))].

Definition human_lease_json (l : HumanTaskLease) : json := JObj [
  ("task_id", JStr (hl_task_id l)); ("tenant_id", JStr (hl_tenant_id l));
  ("environment_id", JStr (hl_environment_id l)); ("principal_ref", JStr (hl_principal_ref l));
  ("fencing_token", JInt (hl_fencing_token l)); ("acquired_at", JStr (isoformat (hl_acquired_at l)));
  ("expires_at", JStr (isoformat (hl_expires_at l)))].

Definition record_json (r : AttendedTaskRecord) : json := JObj [
  ("task", JObj (task_fields (ar_task r) ++ [("task_digest", JStr (ht_task_digest (ar_task r)))]));
  ("status", JStr (AttendedTaskStatus_value (ar_status r)));
  ("fencing_token", JInt (ar_fencing_token r));
  ("principal_ref", json_opt JStr (ar_principal_ref r));
  ("lease_expires_at", json_opt (λ t, JStr (isoformat t)) (ar_lease_expires_at r));
  ("claims", json_opt claims_json (ar_claims r)); ("note_digest", json_opt JStr (ar_note_digest r));
  ("completion_digest", json_opt JStr (ar_completion_digest r));
  ("updated_at", JStr (isoformat (ar_updated_at r)))].

(** [AttendedTaskError] with its code, or a pydantic [ValidationError]. *)
Inductive HumanError :=
| AttendedTaskError (code : string)
| HumanValidationError (message : string).

(** [except AttendedTaskError]. *)
Definition human_handled (e : HumanError) : bool :=
  match e with AttendedTaskError _ => true | HumanValidationError _ => false end.

(** [_validate_principal_ref]. *)
Definition validate_principal_ref (value : string) : result HumanError () :=
  raise_if (bool_decide (value = EmptyString) || (256 <? len value) || secret_like value)
    (AttendedTaskError "attended_task_principal_invalid").

Section contracts.
Context `{Sha256, FloatRepr}.

(** The fields and [validate_task]; [json.dumps] refuses non-finite numbers. *)
Definition validate_attended_task (t : AttendedTask) : result string () :=
  raise_if (negb (Identifier_ok (ht_task_id t) && Identifier_ok (ht_tenant_id t)
                  && Identifier_ok (ht_environment_id t) && Identifier_ok (ht_transaction_id t)
                  && Name_ok (ht_step_id t) && Name_ok (ht_capability t)
                  && max_length 16 (ht_instructions t) && forallb (λ kv, Name_ok kv.1) (ht_instructions t)
                  && between 1 (Z.of_nat (length (ht_required_claim_names t))) 32
                  && forallb Name_ok (ht_required_claim_names t)
                  && Digest_ok (ht_task_digest t))) "field constraint";;
  raise_if (negb (safe_instruction_value 0 (JObj (ht_instructions t)))) "unsafe instructions";;
  raise_if (has_duplicates (ht_required_claim_names t)) "required claim names must be unique";;
  raise_if (negb (json_finite (JObj (task_fields t)))) "Out of range float values are not JSON compliant";;
  raise_if (negb (bool_decide (ht_task_digest t = value_digest (JObj (task_fields t)))))
    "attended task digest does not match".

(** The fields and [validate_lease]. *)
Definition human_lease_ok (l : HumanTaskLease) : result HumanError () :=
  raise_if (negb (Identifier_ok (hl_task_id l) && Identifier_ok (hl_tenant_id l)
                  && Identifier_ok (hl_environment_id l) && Identifier_ok (hl_principal_ref l)
                  && between 1 (hl_fencing_token l) (2 ^ 63 - 1) && Digest_ok (hl_lease_digest l)))
    (HumanValidationError "field constraint");;
  raise_if (hl_expires_at l <=? hl_acquired_at l)
    (HumanValidationError "attended task lease has invalid lifetime");;
  validate_principal_ref (hl_principal_ref l);;
  raise_if (negb (bool_decide (hl_lease_digest l = value_digest (human_lease_json l))))
    (HumanValidationError "attended task lease digest does not match").

(** [HumanTaskLease.issue]. *)
Definition issue_human_lease (task_id tenant_id environment_id principal_ref : string)
    (token acquired expires : Z) : result HumanError HumanTaskLease :=
  let unsigned digest := {| hl_task_id := task_id; hl_tenant_id := tenant_id;
    hl_environment_id := environment_id; hl_principal_ref := principal_ref; hl_fencing_token := token;
    hl_acquired_at := acquired; hl_expires_at := expires; hl_lease_digest := digest |} in
  let l := unsigned (value_digest (human_lease_json (unsigned EmptyString))) in
  human_lease_ok l;; Ok l.

(** The fields and [validate_record], for the record of a valid task. *)
Definition validate_record (r : AttendedTaskRecord) : result HumanError () :=
  raise_if (negb (between 0 (ar_fencing_token r) (2 ^ 63 - 1) && opt_ok Identifier_ok (ar_principal_ref r)
                  && opt_ok (forallb claim_stripped) (ar_claims r)
                  && optional_digest_ok (ar_note_digest r) && optional_digest_ok (ar_completion_digest r)))
    (HumanValidationError "field constraint");;
  raise_if (bool_decide (ar_status r = CLAIMED)
            && (is_none (ar_principal_ref r) || is_none (ar_lease_expires_at r)))
    (HumanValidationError "claimed attended task requires a lease");;
  raise_if (terminal (ar_status r) && (is_none (ar_claims r) || is_none (ar_completion_digest r)))
    (HumanValidationError "terminal attended task requires a bounded result");;
  raise_if (negb (opt_ok safe_claims (ar_claims r))) (HumanValidationError "unsafe claims");;
  raise_if (negb (bool_decide (ar_record_digest r = value_digest (record_json r))))
    (HumanValidationError "attended task record digest does not match").

(** [AttendedTaskRecord.issue]. *)
Definition with_record_digest (r : AttendedTaskRecord) (digest : string) : AttendedTaskRecord := {|
  ar_task := ar_task r; ar_status := ar_status r; ar_fencing_token := ar_fencing_token r;
  ar_principal_ref := ar_principal_ref r; ar_lease_expires_at := ar_lease_expires_at r;
  ar_claims := ar_claims r; ar_note_digest := ar_note_digest r;
  ar_completion_digest := ar_completion_digest r; ar_updated_at := ar_updated_at r;
  ar_record_digest := digest |}.
Definition issue_record (r : AttendedTaskRecord) : result HumanError AttendedTaskRecord :=
  let r' := with_record_digest r (value_digest (record_json r)) in
  validate_record r';; Ok r'.

End contracts.

(** ** The store *)

Notation Records := (gmap string AttendedTaskRecord).

(** [as_saved] is the committed data while a transaction is open. *)
Record AttendedStore := {
  as_closed : bool;
  as_saved : option Records;
  as_rows : Records }.

Definition empty_attended : AttendedStore := {| as_closed := false; as_saved := None; as_rows := ∅ |}.

Definition unavailable : HumanError := AttendedTaskError "attended_task_unavailable".

(** [_ensure_open] and the [try] block of [claim] and [complete]. *)
Definition attended_session {A} (body : Records → result HumanError (Records * A)) (s : AttendedStore)
    : AttendedStore * result HumanError A :=
  if as_closed s then (s, Err unavailable)
  else
    match as_saved s with
    | Some rows => ({| as_closed := false; as_saved := None; as_rows := rows |}, Err unavailable)
    | None =>
        match body (as_rows s) with
        | Ok (rows, a) => ({| as_closed := false; as_saved := None; as_rows := rows |}, Ok a)
        | Err e =>
            ({| as_closed := false; as_saved := if human_handled e then None else Some (as_rows s);
                as_rows := as_rows s |}, Err e)
        end
    end.

(** The checks before the lock. *)
Definition attended_operation {A B} (checks : result HumanError B)
    (body : B → Records → result HumanError (Records * A)) (s : AttendedStore)
    : AttendedStore * result HumanError A :=
  match checks with
  | Ok b => attended_session (body b) s
  | Err e => (s, Err e)
  end.

(** [_load_scoped_record]. *)
Definition load_scoped (rows : Records) (task_id tenant_id environment_id : string)
    : option AttendedTaskRecord :=
  r ← rows !! task_id;
  if bool_decide (ht_tenant_id (ar_task r) = tenant_id)
     && bool_decide (ht_environment_id (ar_task r) = environment_id) then Some r else None.
Definition require_scoped (rows : Records) (task_id tenant_id environment_id : string)
    : result HumanError AttendedTaskRecord :=
  match load_scoped rows task_id tenant_id environment_id with
  | Some r => Ok r
  | None => Err (AttendedTaskError "attended_task_not_found")
  end.

(** [_save]. *)
Definition save (rows : Records) (r : AttendedTaskRecord) : Records :=
  <[ht_task_id (ar_task r) := r]> rows.

(** [_active_lease]. *)
Definition active_lease (r : AttendedTaskRecord) (now : Z) : bool :=
  bool_decide (ar_status r = CLAIMED)
  && match ar_lease_expires_at r with Some e => now <? e | None => false end.

(** [_validate_current_lease]. *)
Definition validate_current_lease (r : AttendedTaskRecord) (l : HumanTaskLease) (now : Z)
    : result HumanError () :=
  raise_if (negb (bool_decide (ar_status r = CLAIMED))
            || negb (bool_decide (ar_principal_ref r = Some (hl_principal_ref l)))
            || negb (ar_fencing_token r =? hl_fencing_token l))
    (AttendedTaskError "attended_task_stale_lease");;
  raise_if (match ar_lease_expires_at r with Some e => e <=? now | None => true end)
    (AttendedTaskError "attended_task_lease_expired").

(** [_is_same_completion]. *)
Definition is_same_completion (r : AttendedTaskRecord) (l : HumanTaskLease) (completion_digest : string)
    : bool :=
  (ar_fencing_token r =? hl_fencing_token l)
  && bool_decide (ar_principal_ref r = Some (hl_principal_ref l))
  && bool_decide (ar_completion_digest r = Some completion_digest).

(** [_claim_values] and [_require_exact_claims]; the keys of a dict are distinct. *)
Definition claim_values (claims : Claims) : result HumanError Claims :=
  raise_if ((32 <? Z.of_nat (length claims)) || negb (safe_claims claims))
    (AttendedTaskError "attended_task_claims_invalid");;
  Ok claims.
Definition require_exact_claims (claims : Claims) (required : list string) : result HumanError () :=
  raise_if (negb (bool_decide (merge_sort String.le (map fst claims) = merge_sort String.le required)))
    (AttendedTaskError "attended_task_claims_invalid").

Section store.
Context `{Sha256, FloatRepr}.

(** [_note_digest]. *)
Definition note_digest (note : option string) : result HumanError (option string) :=
  match note with
  | None => Ok None
  | Some s =>
      raise_if ((1024 <? len s) || secret_like s) (AttendedTaskError "attended_task_note_invalid");;
      Ok (Some (value_digest (JStr s)))
  end.

(** [_completion_digest]. *)
Definition completion_digest (claims : Claims) (note : option string) (rejected : bool)
    (l : HumanTaskLease) : string :=
  value_digest (JObj [
    ("claims", claims_json claims); ("note_digest", json_opt JStr note); ("rejected", JBool rejected);
    ("fencing_token", JInt (hl_fencing_token l)); ("principal_ref", JStr (hl_principal_ref l))]).

(** [create]: no transaction of its own. *)
Definition pending_record (t : AttendedTask) : AttendedTaskRecord := {|
  ar_task := t; ar_status := PENDING; ar_fencing_token := 0; ar_principal_ref := None;
  ar_lease_expires_at := None; ar_claims := None; ar_note_digest := None; ar_completion_digest := None;
  ar_updated_at := ht_created_at t; ar_record_digest := EmptyString |}.
Definition create_checks (t : AttendedTask) : result HumanError AttendedTaskRecord :=
  match validate_attended_task t with
  | Ok _ => issue_record (pending_record t)
  | Err _ => Err (AttendedTaskError "attended_task_invalid")
  end.
Definition create (t : AttendedTask) (s : AttendedStore)
    : AttendedStore * result HumanError AttendedTaskRecord :=
  match create_checks t with
  | Err e => (s, Err e)
  | Ok r =>
      if as_closed s then (s, Err unavailable)
      else
        match as_rows s !! ht_task_id t with
        | Some existing =>
            (s, if bool_decide (ht_task_digest (ar_task existing) = ht_task_digest t) then Ok existing
                else Err (AttendedTaskError "attended_task_conflict"))
        | None => ({| as_closed := false; as_saved := as_saved s; as_rows := save (as_rows s) r |}, Ok r)
        end
  end.

(** [get]. *)
Definition get_record (s : AttendedStore) (task_id tenant_id environment_id : string)
    : result HumanError (option AttendedTaskRecord) :=
  raise_if (as_closed s) unavailable;; Ok (load_scoped (as_rows s) task_id tenant_id environment_id).

(** [claim]; [lease_seconds] is the store's. *)
Definition claimed_record (r : AttendedTaskRecord) (l : HumanTaskLease) (now : Z) : AttendedTaskRecord := {|
  ar_task := ar_task r; ar_status := CLAIMED; ar_fencing_token := hl_fencing_token l;
  ar_principal_ref := Some (hl_principal_ref l); ar_lease_expires_at := Some (hl_expires_at l);
  ar_claims := None; ar_note_digest := None; ar_completion_digest := None; ar_updated_at := now;
  ar_record_digest := EmptyString |}.
Definition claim_body (task_id tenant_id environment_id principal_ref : string) (lease_seconds now : Z)
    (rows : Records) : result HumanError (Records * HumanTaskLease) :=
  r ← require_scoped rows task_id tenant_id environment_id;
  raise_if (terminal (ar_status r)) (AttendedTaskError "attended_task_terminal");;
  raise_if (active_lease r now) (AttendedTaskError "attended_task_claimed");;
  l ← issue_human_lease task_id tenant_id environment_id principal_ref (ar_fencing_token r + 1) now
        (now + seconds lease_seconds);
  updated ← issue_record (claimed_record r l now);
  Ok (save rows updated, l).
Definition claim (task_id tenant_id environment_id principal_ref : string) (lease_seconds now : Z)
    : AttendedStore → AttendedStore * result HumanError HumanTaskLease :=
  attended_operation (validate_principal_ref principal_ref)
    (λ _, claim_body task_id tenant_id environment_id principal_ref lease_seconds now).

(** [complete]; [reject] is a call of it with [rejected]. *)
Definition completed_record (r : AttendedTaskRecord) (l : HumanTaskLease) (claims : Claims)
    (note : option string) (digest : string) (rejected : bool) (now : Z) : AttendedTaskRecord := {|
  ar_task := ar_task r; ar_status := if rejected then REJECTED else COMPLETED;
  ar_fencing_token := hl_fencing_token l; ar_principal_ref := Some (hl_principal_ref l);
  ar_lease_expires_at := None; ar_claims := Some claims; ar_note_digest := note;
  ar_completion_digest := Some digest; ar_updated_at := now; ar_record_digest := EmptyString |}.
Definition complete_body (l : HumanTaskLease) (rejected : bool) (now : Z) (given : Claims * option string)
    (rows : Records) : result HumanError (Records * AttendedTaskRecord) :=
  let '(claims, note) := given in
  current ← require_scoped rows (hl_task_id l) (hl_tenant_id l) (hl_environment_id l);
  require_exact_claims claims (ht_required_claim_names (ar_task current));;
  let digest := completion_digest claims note rejected l in
  if terminal (ar_status current) then
    raise_if (negb (is_same_completion current l digest))
      (AttendedTaskError "attended_task_completion_conflict");;
    Ok (rows, current)
  else
    validate_current_lease current l now;;
    updated ← issue_record (completed_record current l claims note digest rejected now);
    Ok (save rows updated, updated).
Definition complete_checks (l : HumanTaskLease) (claims : Claims) (note : option string)
    : result HumanError (Claims * option string) :=
  match human_lease_ok l with
  | Err _ => Err (AttendedTaskError "attended_task_lease_invalid")
  | Ok _ =>
      values ← claim_values claims;
      digest ← note_digest note;
      Ok (values, digest)
  end.
Definition complete (l : HumanTaskLease) (claims : Claims) (rejected : bool) (note : option string)
    (now : Z) : AttendedStore → AttendedStore * result HumanError AttendedTaskRecord :=
  attended_operation (complete_checks l claims note) (complete_body l rejected now).

(** [close] rolls an open transaction back. *)
Definition close_attended (s : AttendedStore) : AttendedStore :=
  if as_closed s then s
  else {| as_closed := true; as_saved := None; as_rows := default (as_rows s) (as_saved s) |}.

(** [to_evidence_observation]. *)
Definition evidence_of (r : AttendedTaskRecord) (claims : Claims) (evidence_id collector_id : string)
    (collection_id : option string) (digest : string) : EvidenceObservation := {|
  ob_evidence_id := evidence_id; ob_tenant_id := ht_tenant_id (ar_task r);
  ob_transaction_id := ht_transaction_id (ar_task r); ob_source_record_id := ht_task_id (ar_task r);
  ob_source_system := "attended.human"; ob_channel := CH_SYSTEM_RECORD; ob_collector_id := collector_id;
  ob_collection_id := match collection_id with
                      | Some EmptyString | None => ht_task_id (ar_task r)
                      | Some c => c
                      end;
  ob_observed_at := ar_updated_at r; ob_expires_at := None; ob_claims := claims; ob_synthetic := true;
  ob_content_digest := digest |}.
Definition to_evidence_observation (r : AttendedTaskRecord) (evidence_id collector_id : string)
    (collection_id : option string) : result HumanError EvidenceObservation :=
  let incomplete := Err (AttendedTaskError "attended_task_not_completed") in
  if negb (bool_decide (ar_status r = COMPLETED)) then incomplete
  else
    match ar_claims r with
    | None => incomplete
    | Some claims =>
        let unsigned := evidence_of r claims evidence_id collector_id collection_id in
        let o := unsigned (value_digest (observation_json (unsigned EmptyString))) in
        match validate_observation o with
        | Ok _ => Ok o
        | Err m => Err (HumanValidationError m)
        end
    end.

(** ** Histories *)

(** One call, by anyone with any arguments at any time, whatever it returns. *)
Inductive attended_step : AttendedStore → AttendedStore → Prop :=
| hs_create t s : attended_step s (create t s).1
| hs_claim task tenant environment principal lease_seconds now s :
    attended_step s (claim task tenant environment principal lease_seconds now s).1
| hs_complete l claims rejected note now s :
    attended_step s (complete l claims rejected note now s).1
| hs_close s : attended_step s (close_attended s).

Definition attended_reachable (s : AttendedStore) : Prop := star attended_step empty_attended s.

End store.

(** ** The invariant *)

Section invariant.
Context `{Sha256, FloatRepr}.

Record record_ok (task_id : string) (r : AttendedTaskRecord) : Prop := {
  ro_id : ht_task_id (ar_task r) = task_id;
  ro_task : validate_attended_task (ar_task r) = Ok ();
  ro_record : validate_record r = Ok () }.

(** An open transaction holds nothing but created tasks. *)
Record attended_ok (s : AttendedStore) : Prop := {
  ao_rows : map_Forall record_ok (as_rows s);
  ao_saved : ∀ saved k r, as_saved s = Some saved → as_rows s !! k = Some r →
    saved !! k = Some r ∨ (saved !! k = None ∧ ar_status r = PENDING);
  ao_kept : ∀ saved, as_saved s = Some saved → saved ⊆ as_rows s }.

(** [r'] is a later state of a record that has been claimed. *)
Record record_le (r r' : AttendedTaskRecord) : Prop := {
  rl_task : ar_task r' = ar_task r;
  rl_token : ar_fencing_token r ≤ ar_fencing_token r';
  rl_terminal : terminal (ar_status r) = true → r' = r;
  rl_claimed : ar_status r' ≠ PENDING }.

(** What an operation does to the rows. *)
Inductive attended_write (rows : Records) : Records → Prop :=
| aw_none : attended_write rows rows
| aw_create r : rows !! ht_task_id (ar_task r) = None → ar_status r = PENDING →
    record_ok (ht_task_id (ar_task r)) r → attended_write rows (save rows r)
| aw_move r r' : rows !! ht_task_id (ar_task r) = Some r → terminal (ar_status r) = false →
    ar_task r' = ar_task r → ar_fencing_token r ≤ ar_fencing_token r' → ar_status r' ≠ PENDING →
    record_ok (ht_task_id (ar_task r)) r' → attended_write rows (save rows r').

Lemma issue_record_ok r r' :
  issue_record r = Ok r' → r' = with_record_digest r (value_digest (record_json r)) ∧ validate_record r' = Ok ().
Proof. unfold issue_record. by intros ([] & Hv & [= <-])%bind_ok. Qed.

Lemma issue_human_lease_ok task tenant environment principal token acquired expires l :
  issue_human_lease task tenant environment principal token acquired expires = Ok l →
  human_lease_ok l = Ok () ∧ hl_task_id l = task ∧ hl_tenant_id l = tenant ∧
  hl_environment_id l = environment ∧ hl_principal_ref l = principal ∧ hl_fencing_token l = token ∧
  hl_acquired_at l = acquired ∧ hl_expires_at l = expires.
Proof. unfold issue_human_lease. by intros ([] & Hv & [= <-])%bind_ok. Qed.

Lemma require_scoped_ok rows task tenant environment r :
  require_scoped rows task tenant environment = Ok r →
  rows !! task = Some r ∧ ht_tenant_id (ar_task r) = tenant ∧ ht_environment_id (ar_task r) = environment.
Proof.
  unfold require_scoped, load_scoped. destruct (rows !! task) as [r'|]; cbn; [|done].
  destruct (_ && _) eqn:E; [|done]. intros [= <-]. boolify. by split_and!.
Qed.

Lemma claim_body_ok task tenant environment principal lease now rows rows' l :
  map_Forall record_ok rows →
  claim_body task tenant environment principal lease now rows = Ok (rows', l) →
  attended_write rows rows' ∧
  ∃ r r', rows !! task = Some r ∧ terminal (ar_status r) = false ∧ active_lease r now = false ∧
    hl_task_id l = task ∧ hl_fencing_token l = ar_fencing_token r + 1 ∧ hl_principal_ref l = principal ∧
    rows' !! task = Some r' ∧ ar_status r' = CLAIMED ∧ ar_fencing_token r' = hl_fencing_token l.
Proof.
  intros Hok. unfold claim_body. intros (r & Hr & Hb)%bind_ok. rewrite !raise_if_then in Hb.
  destruct Hb as (Ht & Ha & (l' & Hl & (u & Hu & [= <- <-])%bind_ok)%bind_ok).
  apply require_scoped_ok in Hr as (Hr & _). apply issue_record_ok in Hu as [-> Hv].
  apply issue_human_lease_ok in Hl as (_ & E1 & _ & _ & E2 & E3 & _).
  destruct (Hok _ _ Hr) as [Eid Htask _].
  split.
  - apply (aw_move _ r); cbn; try done; [by rewrite Eid|lia].
  - exists r. eexists (with_record_digest (claimed_record r l' now) _). split_and!; try done.
    unfold save. cbn. rewrite Eid. apply lookup_insert_eq.
Qed.

Lemma complete_body_ok l rejected now claims note rows rows' r :
  map_Forall record_ok rows →
  complete_body l rejected now (claims, note) rows = Ok (rows', r) →
  attended_write rows rows' ∧ rows' !! hl_task_id l = Some r ∧ terminal (ar_status r) = true ∧
  ar_fencing_token r = hl_fencing_token l ∧ ar_principal_ref r = Some (hl_principal_ref l) ∧
  ar_completion_digest r = Some (completion_digest claims note rejected l) ∧
  merge_sort String.le (map fst claims) = merge_sort String.le (ht_required_claim_names (ar_task r)) ∧
  (rows !! hl_task_id l = Some r ∨
   ∃ r0 e, rows !! hl_task_id l = Some r0 ∧ ar_status r0 = CLAIMED ∧ ar_lease_expires_at r0 = Some e ∧
     now < e ∧ ar_fencing_token r0 = hl_fencing_token l ∧
     ar_principal_ref r0 = Some (hl_principal_ref l) ∧ ar_claims r = Some claims ∧
     ar_status r = if rejected then REJECTED else COMPLETED).
Proof.
  intros Hok. unfold complete_body. intros (r0 & Hr & Hb)%bind_ok.
  apply bind_ok in Hb as ([] & Hc & Hb). unfold require_exact_claims in Hc.
  apply raise_if_ok in Hc. boolify. apply require_scoped_ok in Hr as (Hr & _).
  destruct (Hok _ _ Hr) as [Eid Htask _]. destruct (terminal (ar_status r0)) eqn:Et.
  - apply raise_if_then in Hb as [Hsame [= <- <-]]. apply negb_false_iff in Hsame.
    unfold is_same_completion in Hsame. boolify. split_and!; try done; [constructor|by left].
  - apply bind_ok in Hb as ([] & Hl & (u & Hu & [= <- <-])%bind_ok).
    apply issue_record_ok in Hu as [-> Hv]. unfold validate_current_lease in Hl.
    rewrite raise_if_then, raise_if_ok in Hl. destruct Hl as [Hl He]. boolify.
    destruct (ar_lease_expires_at r0) as [e|] eqn:Ee; [|done]. boolify.
    split_and!; try done.
    + apply (aw_move _ r0); cbn; try done; [by rewrite Eid|lia|by destruct rejected].
    + unfold save. cbn. rewrite Eid. apply lookup_insert_eq.
    + by destruct rejected.
    + right. exists r0, e. by split_and!.
Qed.

(** ** Steps *)

Lemma attended_write_ok rows rows' :
  attended_write rows rows' → map_Forall record_ok rows → map_Forall record_ok rows'.
Proof.
  intros [|r Hn Hp Hr|r r' Hr Ht Etask _ _ Hr'] Hok; [done|..]; apply map_Forall_insert_2; try done.
  by rewrite Etask.
Qed.

(** The record under a key, once it has been claimed. *)
Definition engaged (s : AttendedStore) (k : string) : option AttendedTaskRecord :=
  r ← as_rows s !! k; if bool_decide (ar_status r = PENDING) then None else Some r.

Lemma engaged_Some s k r : engaged s k = Some r ↔ as_rows s !! k = Some r ∧ ar_status r ≠ PENDING.
Proof.
  unfold engaged. destruct (as_rows s !! k) as [r'|]; cbn; [|naive_solver].
  case_bool_decide; naive_solver.
Qed.

#[export] Instance record_le_preorder : PreOrder (λ r r', ar_status r ≠ PENDING → record_le r r').
Proof.
  split; [intros r Hr; by split|]. intros r1 r2 r3 H12 H23 Hr1.
  destruct (H12 Hr1) as [A1 A2 A3 A4]. destruct (H23 A4) as [B1 B2 B3 B4].
  split; [congruence|lia| |done]. intros Ht. pose proof (A3 Ht). subst. auto.
Qed.

Lemma attended_write_le rows rows' k r :
  attended_write rows rows' → rows !! k = Some r → ar_status r ≠ PENDING → map_Forall record_ok rows →
  ∃ r', rows' !! k = Some r' ∧ record_le r r'.
Proof.
  intros [|r1 Hn Hp Hr1|r1 r1' Hr1 Ht Etask Htok Hs Hr'] Hr Hrs Hok.
  - exists r. split; [done|]. by split.
  - exists r. split; [|by split]. unfold save. rewrite lookup_insert_ne; congruence.
  - unfold save. rewrite Etask. destruct (decide (ht_task_id (ar_task r1) = k)) as [<-|Hne].
    + rewrite lookup_insert_eq. exists r1'. split; [done|]. assert (r1 = r) as -> by congruence.
      split; try done. by rewrite Ht.
    + rewrite lookup_insert_ne by done. exists r. split; [done|]. by split.
Qed.

(** What a call does to the store. *)
Inductive attended_effect (s : AttendedStore) : AttendedStore → Prop :=
| ae_write rows : as_saved s = None → attended_write (as_rows s) rows →
    attended_effect s {| as_closed := as_closed s; as_saved := None; as_rows := rows |}
| ae_open : as_saved s = None →
    attended_effect s {| as_closed := as_closed s; as_saved := Some (as_rows s); as_rows := as_rows s |}
| ae_created r : as_rows s !! ht_task_id (ar_task r) = None → ar_status r = PENDING →
    record_ok (ht_task_id (ar_task r)) r →
    attended_effect s {| as_closed := as_closed s; as_saved := as_saved s; as_rows := save (as_rows s) r |}
| ae_back closed rows : as_saved s = Some rows →
    attended_effect s {| as_closed := closed; as_saved := None; as_rows := rows |}
| ae_closed closed : attended_effect s {| as_closed := closed; as_saved := as_saved s; as_rows := as_rows s |}.

Lemma effect_none s : attended_effect s s.
Proof. destruct s as [c sv rows]. apply (ae_closed {| as_closed := c; as_saved := sv; as_rows := rows |} c). Qed.

Lemma operation_effect {A B} (checks : result HumanError B) (body : B → Records → result HumanError (Records * A)) s :
  (∀ b rows a, checks = Ok b → body b (as_rows s) = Ok (rows, a) → attended_write (as_rows s) rows) →
  attended_effect s (attended_operation checks body s).1.
Proof.
  intros Hw. unfold attended_operation, attended_session. destruct checks as [b|e]; [|apply effect_none].
  destruct s as [c sv rows]. cbn [as_closed as_saved as_rows] in *. destruct c; [apply effect_none|].
  destruct sv as [saved|]; [by eapply (ae_back {| as_closed := false |})|].
  destruct (body b rows) as [[rows' a]|e] eqn:E; cbn [fst].
  - apply (ae_write {| as_closed := false; as_saved := None |}); [done|]. by eapply Hw.
  - destruct (human_handled e); [apply effect_none|].
    by apply (ae_open {| as_closed := false; as_saved := None; as_rows := rows |}).
Qed.

Lemma create_effect t s : attended_effect s (create t s).1.
Proof.
  unfold create, create_checks. destruct (validate_attended_task t) as [[]|] eqn:Ht; [|apply effect_none].
  destruct (issue_record _) as [r|] eqn:Er; [|apply effect_none].
  apply issue_record_ok in Er as [-> Hr]. destruct s as [c sv rows].
  cbn [as_closed as_saved as_rows]. destruct c; [apply effect_none|].
  destruct (rows !! ht_task_id t) eqn:E; [apply effect_none|].
  by apply (ae_created {| as_closed := false; as_saved := sv; as_rows := rows |}).
Qed.

Lemma attended_step_effect s s' : map_Forall record_ok (as_rows s) → attended_step s s' → attended_effect s s'.
Proof.
  intros Hok Hs. revert Hok. destruct Hs as [t s|task tenant environment principal lease now s
    |l claims rejected note now s|s]; intros Hok.
  - apply create_effect.
  - apply operation_effect. intros [] rows a _ Hb. by eapply claim_body_ok.
  - apply operation_effect. intros [claims' note'] rows a _ Hb. by eapply complete_body_ok.
  - unfold close_attended. destruct s as [c [rows'|] rows]; destruct c; cbn; try apply effect_none.
    + by apply (ae_back {| as_closed := false; as_saved := Some rows'; as_rows := rows |}).
    + by apply (ae_closed {| as_closed := false; as_saved := None; as_rows := rows |}).
Qed.

Lemma attended_step_ok s s' : attended_ok s → attended_step s s' → attended_ok s'.
Proof.
  intros [Hok Hsv Hkept] Hs. apply attended_step_effect in Hs; [|done].
  destruct Hs as [rows E Hw|E|r Hn Hp Hr|closed rows E|closed]; split; cbn [as_rows as_saved] in *; try done.
  - by eapply attended_write_ok.
  - intros saved k r [= <-]. by left.
  - by intros saved [= <-].
  - by apply map_Forall_insert_2.
  - intros saved k r' Es. unfold save. intros [[<- <-]|[Hne Hr']]%lookup_insert_Some; [|by eapply Hsv].
    right. split; [|done]. eapply lookup_weaken_None; [done|by apply Hkept].
  - intros saved Es. etrans; [by apply Hkept|]. by apply insert_subseteq.
  - intros k r Hk. apply Hok. by eapply lookup_weaken; [|apply Hkept].
Qed.

Lemma attended_step_le s s' k r :
  attended_ok s → attended_step s s' → engaged s k = Some r →
  ∃ r', engaged s' k = Some r' ∧ (ar_status r ≠ PENDING → record_le r r').
Proof.
  intros [Hok Hsv Hkept] Hs [Hr Hp]%engaged_Some. apply attended_step_effect in Hs; [|done].
  assert (∀ rows', (∃ r', rows' !! k = Some r' ∧ record_le r r') → ∀ c sv,
    ∃ r', engaged {| as_closed := c; as_saved := sv; as_rows := rows' |} k = Some r' ∧
          (ar_status r ≠ PENDING → record_le r r')) as Hdone.
  { intros rows' (r' & Hr' & Hle) c sv. exists r'. split; [|done]. apply engaged_Some.
    split; [done|apply Hle]. }
  destruct Hs as [rows E Hw|E|r1 Hn Hp1 Hr1|closed rows E|closed]; apply Hdone.
  - by eapply attended_write_le.
  - exists r. split; [done|by split].
  - exists r. split; [|by split]. unfold save. rewrite lookup_insert_ne; congruence.
  - exists r. split; [|by split]. by destruct (Hsv _ _ _ E Hr) as [?|[_ ?]].
  - exists r. split; [done|by split].
Qed.

Lemma attended_reachable_ok s : attended_reachable s → attended_ok s.
Proof.
  apply (star_invariant attended_step attended_ok); [by intros ? ?; apply attended_step_ok|].
  by split; cbn; [apply map_Forall_empty|..].
Qed.

Lemma attended_entries s s' k r :
  attended_ok s → star attended_step s s' → as_rows s !! k = Some r → ar_status r ≠ PENDING →
  attended_ok s' ∧ ∃ r', as_rows s' !! k = Some r' ∧ record_le r r'.
Proof.
  intros Hok Hs Hr Hp. destruct (star_entries attended_step attended_ok engaged
    (λ r r', ar_status r ≠ PENDING → record_le r r') attended_step_ok attended_step_le s s' k r Hok Hs)
    as (Hok' & r' & Hr' & Hle).
  - by apply engaged_Some.
  - split; [done|]. exists r'. apply engaged_Some in Hr' as [? _]. by split; [|apply Hle].
Qed.

Lemma attended_operation_ok {A B} (checks : result HumanError B)
    (body : B → Records → result HumanError (Records * A)) s s' a :
  attended_operation checks body s = (s', Ok a) ↔
  as_closed s = false ∧ as_saved s = None ∧ ∃ b rows, checks = Ok b ∧ body b (as_rows s) = Ok (rows, a) ∧
    s' = {| as_closed := false; as_saved := None; as_rows := rows |}.
Proof.
  unfold attended_operation, attended_session. destruct checks as [b|e];
    [|by split; [|intros (_ & _ & ? & ? & ? & _)]].
  destruct (as_closed s); [by split; [|intros (? & _)]|].
  destruct (as_saved s); [by split; [|intros (_ & ? & _)]|].
  destruct (body b _) as [[rows a']|e] eqn:E;
    [|by split; [|intros (_ & _ & b' & rows' & [= <-] & E' & _); rewrite E in E']].
  split.
  - intros [= <- <-]. split_and!; [done..|]. by exists b, rows.
  - intros (_ & _ & b' & rows' & [= <-] & E' & ->). rewrite E in E'. by injection E' as -> ->.
Qed.

(** ** Theorems *)

(** A completion is fenced, exact and final: the record it returns carries the lease's
    principal and token, the digest of what was given and exactly the required claims; it was
    there already or the lease was current and unexpired; and whatever follows, the task keeps
    that record, later completions return it or fail, and claims fail. *)
Theorem attended_completion_final l claims rejected note now s0 s1 r s2 :
  attended_reachable s0 → complete l claims rejected note now s0 = (s1, Ok r) → star attended_step s1 s2 →
  terminal (ar_status r) = true ∧
  merge_sort String.le (map fst claims) = merge_sort String.le (ht_required_claim_names (ar_task r)) ∧
  ar_fencing_token r = hl_fencing_token l ∧ ar_principal_ref r = Some (hl_principal_ref l) ∧
  (as_rows s0 !! hl_task_id l = Some r ∨
   ∃ r0 e, as_rows s0 !! hl_task_id l = Some r0 ∧ ar_status r0 = CLAIMED ∧
     ar_fencing_token r0 = hl_fencing_token l ∧ ar_principal_ref r0 = Some (hl_principal_ref l) ∧
     ar_lease_expires_at r0 = Some e ∧ now < e ∧ ar_claims r = Some claims ∧
     ar_status r = if rejected then REJECTED else COMPLETED) ∧
  as_rows s2 !! hl_task_id l = Some r ∧
  (∀ l' claims' rejected' note' now' s3 r', hl_task_id l' = hl_task_id l →
    complete l' claims' rejected' note' now' s2 = (s3, Ok r') → r' = r) ∧
  (∀ tenant environment principal lease now' s3 l',
    claim (hl_task_id l) tenant environment principal lease now' s2 ≠ (s3, Ok l')).
Proof.
  intros Hre (_ & _ & [claims' note'] & rows & Hc & Hb & ->)%attended_operation_ok Hs.
  pose proof (attended_reachable_ok _ Hre) as Hok.
  unfold complete_checks in Hc. destruct (human_lease_ok l); [|done].
  apply bind_ok in Hc as (v & Hv & (d & Hd & [= -> ->])%bind_ok).
  unfold claim_values in Hv. apply raise_if_then in Hv as [_ [= <-]].
  pose proof Hb as (Hw & Hr & Ht & Htok & Hp & _ & Hreq & Hcase)%complete_body_ok; [|apply Hok].
  assert (attended_ok {| as_closed := false; as_saved := None; as_rows := rows |}) as Hok1.
  { split; cbn; [|done..]. eapply attended_write_ok; [done|apply Hok]. }
  assert (ar_status r ≠ PENDING) as Hnp by (by intros E; rewrite E in Ht).
  destruct (attended_entries _ s2 _ r Hok1 Hs Hr Hnp) as (Hok2 & r' & Hr' & Hle).
  rewrite (rl_terminal _ _ Hle Ht) in Hr'. split_and!; try done.
  - destruct Hcase as [?|(r0 & e & ?)]; [by left|right]. exists r0, e. naive_solver.
  - intros l' claims'' rejected' note'' now' s3 r'' El
      (_ & _ & [c n] & rows3 & _ & Hb3 & _)%attended_operation_ok.
    apply complete_body_ok in Hb3 as (_ & Hr3 & _ & _ & _ & _ & _ & Hcase3); [|apply Hok2].
    rewrite El, Hr' in Hcase3. destruct Hcase3 as [[= ->]|(r0 & e & [= <-] & Hs0 & _)]; [done|].
    by rewrite Hs0 in Ht.
  - intros tenant environment principal lease now' s3 l'
      (_ & _ & [] & rows3 & _ & Hb3 & _)%attended_operation_ok.
    apply claim_body_ok in Hb3 as (_ & r0 & _ & Hr0 & Ht0 & _); [|apply Hok2].
    rewrite Hr' in Hr0. injection Hr0 as <-. by rewrite Ht in Ht0.
Qed.

(** Leases are fenced: once a task has been claimed again, the earlier lease has the smaller
    token and can never complete the task. *)
Theorem attended_lease_fenced task t1 e1 p1 d1 now1 s0 s1 l1 s2 t2 e2 p2 d2 now2 s3 l2 s4 :
  attended_reachable s0 → claim task t1 e1 p1 d1 now1 s0 = (s1, Ok l1) → star attended_step s1 s2 →
  claim task t2 e2 p2 d2 now2 s2 = (s3, Ok l2) → star attended_step s3 s4 →
  hl_fencing_token l1 < hl_fencing_token l2 ∧
  ∀ claims rejected note now s5 r, complete l1 claims rejected note now s4 ≠ (s5, Ok r).
Proof.
  intros Hre (_ & _ & [] & rows1 & _ & Hb1 & ->)%attended_operation_ok Hs12
    (_ & _ & [] & rows3 & _ & Hb3 & ->)%attended_operation_ok Hs34.
  pose proof (attended_reachable_ok _ Hre) as Hok0.
  apply claim_body_ok in Hb1 as (Hw1 & _ & r1 & _ & _ & _ & Eid1 & _ & _ & Hr1 & Hs1 & Ht1); [|apply Hok0].
  assert (attended_ok {| as_closed := false; as_saved := None; as_rows := rows1 |}) as Hok1.
  { split; cbn; [|done..]. eapply attended_write_ok; [done|apply Hok0]. }
  destruct (attended_entries _ s2 task r1 Hok1 Hs12 Hr1) as (Hok2 & r2 & Hr2 & Hle2); [by rewrite Hs1|].
  apply claim_body_ok in Hb3 as (Hw3 & r2' & r3 & Hr2' & _ & _ & Eid2 & Htok & _ & Hr3 & Hs3 & Ht3);
    [|apply Hok2].
  rewrite Hr2 in Hr2'. injection Hr2' as <-.
  assert (attended_ok {| as_closed := false; as_saved := None; as_rows := rows3 |}) as Hok3.
  { split; cbn; [|done..]. eapply attended_write_ok; [done|apply Hok2]. }
  destruct (attended_entries _ s4 task r3 Hok3 Hs34 Hr3) as (Hok4 & r4 & Hr4 & Hle4); [by rewrite Hs3|].
  pose proof (rl_token _ _ Hle2). pose proof (rl_token _ _ Hle4).
  split; [lia|]. intros claims rejected note now s5 r (_ & _ & [c n] & rows5 & _ & Hb5 & _)%attended_operation_ok.
  apply complete_body_ok in Hb5 as (_ & _ & _ & Htok5 & _ & _ & _ & Hcase); [|apply Hok4].
  rewrite Eid1, Hr4 in Hcase.
  destruct Hcase as [[= <-]|(r0 & e & [= <-] & _ & _ & _ & Htok0 & _)]; lia.
Qed.

End invariant.

(** ** Concrete runs *)

#[local] Existing Instances example_sha256 example_float_repr.

Definition example_task (task_id : string) : AttendedTask := {|
  ht_task_id := task_id; ht_tenant_id := "tenant"; ht_environment_id := "prod";
  ht_transaction_id := "tx-1"; ht_step_id := "confirm"; ht_capability := "booking.submit";
  ht_instructions := [("summary", JStr "call the carrier")];
  ht_required_claim_names := ["booking.number"; "confirmed"]; ht_created_at := 0;
  ht_task_digest := value_digest JNull |}.
Definition created_store : AttendedStore := (create (example_task "task-1") empty_attended).1.
Definition claim_task (principal : string) (now : Z) (s : AttendedStore) :=
  claim "task-1" "tenant" "prod" principal 300 now s.
Definition claimed_store : AttendedStore :=
  (claim "task-1" "tenant" "prod" "user:alice" 300 10 created_store).1.
Definition no_lease : HumanTaskLease := {|
  hl_task_id := ""; hl_tenant_id := ""; hl_environment_id := ""; hl_principal_ref := "";
  hl_fencing_token := 0; hl_acquired_at := 0; hl_expires_at := 0; hl_lease_digest := "" |}.
Definition lease_of {A} (x : A * result HumanError HumanTaskLease) : HumanTaskLease :=
  match x.2 with Ok l => l | Err _ => no_lease end.
Definition alice_lease : HumanTaskLease := lease_of (claim_task "user:alice" 10 created_store).
Definition task_claims (number : string) : Claims :=
  [("confirmed", SBool true); ("booking.number", SStr number)].
Definition completed_store : AttendedStore :=
  (complete alice_lease (task_claims "B1") false (Some "done") 20 claimed_store).1.
Definition completed_example : AttendedTaskRecord :=
  match as_rows completed_store !! "task-1" with Some r => r | None => pending_record (example_task "task-1") end.

Example human_task_example :
  (ar_status completed_example, ar_claims completed_example,
   (claim_task "user:bob" 30 completed_store).2,
   match to_evidence_observation completed_example "evidence-1" "attended.human" None with
   | Ok o => Some (ob_source_record_id o, ob_synthetic o)
   | Err _ => None
   end)
  = (COMPLETED, Some (task_claims "B1"), Err (AttendedTaskError "attended_task_terminal"),
     Some ("task-1", true)).
Proof. vm_compute. reflexivity. Qed.

(** A claim value with surrounding white space passes the bounded checks, but the record is
    signed before it is stripped: the validation error escapes with the transaction open, a
    task created meanwhile is acknowledged, and the next operation rolls it back. *)
Definition wedged : AttendedStore * result HumanError AttendedTaskRecord :=
  complete alice_lease (task_claims " B1") false None 20 claimed_store.
Definition wedged_created : AttendedStore * result HumanError AttendedTaskRecord :=
  create (example_task "task-2") wedged.1.
Example acknowledged_task_lost :
  (wedged.2, match wedged_created.2 with Ok r => Some (ht_task_id (ar_task r)) | Err _ => None end,
   (claim_task "user:alice" 30 wedged_created.1).2,
   get_record (claim_task "user:alice" 30 wedged_created.1).1 "task-2" "tenant" "prod")
  = (Err (HumanValidationError "field constraint"), Some "task-2",
     Err (AttendedTaskError "attended_task_unavailable"), Ok None).
Proof. vm_compute. reflexivity. Qed.

Lemma claimed_reachable : attended_reachable claimed_store.
Proof.
  apply (star_step _ _ created_store); [apply hs_create|].
  apply star_one. unfold claimed_store. apply hs_claim.
Qed.

Lemma attended_completion_final_witness :
  terminal (ar_status completed_example) = true ∧ as_rows completed_store !! "task-1" = Some completed_example.
Proof.
  destruct (attended_completion_final alice_lease (task_claims "B1") false (Some "done") 20 claimed_store
    completed_store completed_example completed_store) as (Ht & _ & _ & _ & _ & Hr & _).
  - exact claimed_reachable.
  - vm_compute. reflexivity.
  - apply star_refl.
  - split; [exact Ht|exact Hr].
Defined.

Definition bob_time : Z := 10 + seconds 300.
Definition reclaimed_store : AttendedStore := (claim_task "user:bob" bob_time claimed_store).1.
Definition bob_lease : HumanTaskLease := lease_of (claim_task "user:bob" bob_time claimed_store).

Lemma attended_lease_fenced_witness :
  hl_fencing_token alice_lease < hl_fencing_token bob_lease ∧
  complete alice_lease (task_claims "B1") false None 20 reclaimed_store ≠ (reclaimed_store, Ok completed_example).
Proof.
  destruct (attended_lease_fenced "task-1" "tenant" "prod" "user:alice" 300 10 created_store claimed_store
    alice_lease claimed_store "tenant" "prod" "user:bob" 300 bob_time reclaimed_store bob_lease
    reclaimed_store) as [Hlt Hno].
  - apply star_one. apply (hs_create (example_task "task-1")).
  - vm_compute. reflexivity.
  - apply star_refl.
  - vm_compute. reflexivity.
  - apply star_refl.
  - split; [exact Hlt|apply Hno].
Defined.
