(* ===== verification/RepairLifecycle.v ===== *)
(** * Repair lifecycle (repair/lifecycle.py)

    The append-only chain of digest-linked transitions of a repair request, and the
    coordinator that takes a repair through validation, approval, canary and release with its
    injected collaborators.  What a collaborator does in a call is an argument of the
    operation; the calls made to the deployment boundary are recorded, in order.

    The rows are in [rowid] order on a connection whose open transaction is part of the state
    ([Sqlite]); a row keeps the decoded transition, so decoding errors do not arise. *)

From S2P Require Import Prelude.
From S2P Require Import Contracts.
From S2P Require Import Sqlite.
From S2P Require Import RepairModels.

Inductive RepairLifecycleState :=
| GENERATED | VALIDATED | PROPOSED | APPROVED | CANARY | PROMOTED | ROLLED_BACK | REJECTED | FAILED.

#[export] Instance RepairLifecycleState_eq_dec : EqDecision RepairLifecycleState.
Proof. solve_decision. Defined.

Definition state_value (s : RepairLifecycleState) : string :=
  match s with
  | GENERATED => "generated" | VALIDATED => "validated" | PROPOSED => "proposed"
  | APPROVED => "approved" | CANARY => "canary" | PROMOTED => "promoted"
  | ROLLED_BACK => "rolled_back" | REJECTED => "rejected" | FAILED => "failed"
  end.

(** [RepairLifecycleState(value)]. *)
Definition state_of (value : string) : option RepairLifecycleState :=
  List.find (λ s, bool_decide (state_value s = value))
    [GENERATED; VALIDATED; PROPOSED; APPROVED; CANARY; PROMOTED; ROLLED_BACK; REJECTED; FAILED].

Definition STATE_NONE : string := "none".

Definition ALLOWED_TRANSITIONS : list (string * list string) := [
  (STATE_NONE, [state_value GENERATED]);
  (state_value GENERATED, [state_value VALIDATED; state_value REJECTED]);
  (state_value VALIDATED, [state_value PROPOSED]);
  (state_value PROPOSED, [state_value APPROVED]);
  (state_value APPROVED, [state_value CANARY]);
  (state_value CANARY, [state_value PROMOTED; state_value ROLLED_BACK; state_value FAILED])].
Definition allowed (from_state to_state : string) : bool :=
  mem to_state (default [] (assoc from_state ALLOWED_TRANSITIONS)).

Inductive LifecycleError :=
| RepairLifecycleError (code : string)
| LifecycleValidationError (message : string).

Definition lifecycle_handled (e : LifecycleError) : bool :=
  match e with RepairLifecycleError _ => true | LifecycleValidationError _ => false end.
Definition lifecycle_unavailable : LifecycleError := RepairLifecycleError "repair_lifecycle_unavailable".

(** ** The canary contracts *)

Record CanaryThresholds := {
  th_minimum_observations : Z;
  th_minimum_success_ppm : Z;
  th_thresholds_digest : string }.

Record VerifiedCanaryEvidence := {
  ev_proposal_digest : string;
  ev_evidence_source : string;
  ev_source_record_digest : string;
  ev_observation_count : Z;
  ev_success_count : Z;
  ev_invariant_violation_count : Z;
  ev_verified : bool;
  ev_evidence_digest : string }.

Record CanaryDecision := {
  cn_proposal_digest : string;
  cn_evidence_digest : string;
  cn_thresholds_digest : string;
  cn_passed : bool;
  cn_decision_digest : string }.

Definition thresholds_json (t : CanaryThresholds) : json := JObj [
  ("schema_version", JStr "cargomesh.repair-canary-thresholds/v1");
  ("minimum_observations", JInt (th_minimum_observations t));
  ("minimum_success_ppm", JInt (th_minimum_success_ppm t))].
Definition evidence_json (e : VerifiedCanaryEvidence) : json := JObj [
  ("schema_version", JStr "cargomesh.repair-canary-evidence/v1");
  ("proposal_digest", JStr (ev_proposal_digest e)); ("evidence_source", JStr (ev_evidence_source e));
  ("source_record_digest", JStr (ev_source_record_digest e));
  ("observation_count", JInt (ev_observation_count e)); ("success_count", JInt (ev_success_count e));
  ("invariant_violation_count", JInt (ev_invariant_violation_count e));
  ("verified", JBool (ev_verified e))].
Definition decision_json (d : CanaryDecision) : json := JObj [
  ("proposal_digest", JStr (cn_proposal_digest d)); ("evidence_digest", JStr (cn_evidence_digest d));
  ("thresholds_digest", JStr (cn_thresholds_digest d)); ("passed", JBool (cn_passed d))].

Notation Transitions := (list RepairTransition).

Section contracts.
Context `{Sha256, FloatRepr}.

Definition validate_thresholds (t : CanaryThresholds) : result string () :=
  raise_if (negb (between 1 (th_minimum_observations t) 1000000
                  && between 0 (th_minimum_success_ppm t) 1000000
                  && Digest_ok (th_thresholds_digest t))) "field constraint";;
  raise_if (negb (bool_decide (th_thresholds_digest t = value_digest (thresholds_json t))))
    "canary thresholds digest does not match".

Definition validate_evidence (e : VerifiedCanaryEvidence) : result string () :=
  raise_if (negb (Digest_ok (ev_proposal_digest e) && Name_ok (ev_evidence_source e)
                  && Digest_ok (ev_source_record_digest e) && between 0 (ev_observation_count e) 1000000
                  && between 0 (ev_success_count e) 1000000
                  && between 0 (ev_invariant_violation_count e) 1000000
                  && Digest_ok (ev_evidence_digest e))) "field constraint";;
  raise_if (ev_observation_count e <? ev_success_count e)
    "canary successes cannot exceed observations";;
  raise_if (negb (bool_decide (ev_evidence_digest e = value_digest (evidence_json e))))
    "canary evidence digest does not match".

Definition validate_canary_decision (d : CanaryDecision) : result string () :=
  raise_if (negb (Digest_ok (cn_proposal_digest d) && Digest_ok (cn_evidence_digest d)
                  && Digest_ok (cn_thresholds_digest d) && Digest_ok (cn_decision_digest d)))
    "field constraint";;
  raise_if (negb (bool_decide (cn_decision_digest d = value_digest (decision_json d))))
    "canary decision digest does not match".

(** [CanaryDecision.issue]. *)
Definition issue_decision (proposal evidence thresholds : string) (passed : bool)
    : result string CanaryDecision :=
  let unsigned digest := {| cn_proposal_digest := proposal; cn_evidence_digest := evidence;
    cn_thresholds_digest := thresholds; cn_passed := passed; cn_decision_digest := digest |} in
  let d := unsigned (value_digest (decision_json (unsigned EmptyString))) in
  validate_canary_decision d;; Ok d.

(** [_evaluate_canary]. *)
Definition success_ppm (e : VerifiedCanaryEvidence) : Z :=
  if ev_observation_count e =? 0 then 0 else ev_success_count e * 1000000 / ev_observation_count e.
Definition evaluate_canary (proposal : RepairProposal) (evidence : VerifiedCanaryEvidence)
    (thresholds : CanaryThresholds) : result LifecycleError CanaryDecision :=
  raise_if (negb (bool_decide (ev_proposal_digest evidence = pp_proposal_digest proposal)))
    (RepairLifecycleError "repair_canary_mismatch");;
  let passed := ev_verified evidence
    && (th_minimum_observations thresholds <=? ev_observation_count evidence)
    && (th_minimum_success_ppm thresholds <=? success_ppm evidence)
    && (ev_invariant_violation_count evidence =? 0) in
  escaping LifecycleValidationError
    (issue_decision (pp_proposal_digest proposal) (ev_evidence_digest evidence)
       (th_thresholds_digest thresholds) passed).

(** ** The transition store *)

(** [WHERE tenant_id = ? AND environment_id = ? AND job_id = ? AND request_digest = ?]. *)
Definition of_request (request : RepairRequest) (t : RepairTransition) : Prop :=
  (tn_tenant_id t, tn_environment_id t, tn_job_id t, tn_request_digest t)
  = (rq_tenant_id request, rq_environment_id request, rq_job_id request, rq_request_digest request).
#[export] Instance of_request_dec request t : Decision (of_request request t).
Proof. unfold of_request. solve_decision. Defined.

(** The checks of [_load_chain]. *)
Fixpoint chain_linked (digest : option string) (state : string) (chain : Transitions) : bool :=
  match chain with
  | [] => true
  | t :: chain' =>
      bool_decide (tn_previous_transition_digest t = digest) && bool_decide (tn_from_state t = state)
      && chain_linked (Some (tn_transition_digest t)) (tn_to_state t) chain'
  end.
Definition load_chain (rows : Transitions) (request : RepairRequest) : result LifecycleError Transitions :=
  let chain := filter (of_request request) rows in
  raise_if (negb (chain_linked None STATE_NONE chain)) (RepairLifecycleError "repair_lifecycle_invalid");;
  Ok chain.

(** [append]. *)
Definition append_body (request : RepairRequest) (subject_digest : string)
    (to_state : RepairLifecycleState) (event_code : string) (occurred_at : Z) (rows : Transitions)
    : result LifecycleError (Transitions * RepairTransition) :=
  chain ← load_chain rows request;
  let latest := last chain in
  let from_state := default STATE_NONE (tn_to_state <$> latest) in
  raise_if (negb (allowed from_state (state_value to_state)))
    (RepairLifecycleError "repair_transition_invalid");;
  t ← escaping LifecycleValidationError (issue_transition {|
        tn_tenant_id := rq_tenant_id request; tn_environment_id := rq_environment_id request;
        tn_job_id := rq_job_id request; tn_request_digest := rq_request_digest request;
        tn_subject_digest := subject_digest; tn_from_state := from_state;
        tn_to_state := state_value to_state; tn_event_code := event_code;
        tn_previous_transition_digest := tn_transition_digest <$> latest;
        tn_occurred_at := occurred_at; tn_transition_digest := EmptyString |});
  raise_if (mem (tn_transition_digest t) (map tn_transition_digest rows)) lifecycle_unavailable;;
  Ok (rows ++ [t], t).
Definition append (request : RepairRequest) (subject_digest : string) (to_state : RepairLifecycleState)
    (event_code : string) (occurred_at : Z)
    : Connection Transitions → Connection Transitions * result LifecycleError RepairTransition :=
  operation lifecycle_handled lifecycle_unavailable lifecycle_unavailable (Ok ())
    (append_body request subject_digest to_state event_code occurred_at).

(** [transitions] and [state]. *)
Definition transitions (s : Connection Transitions) (request : RepairRequest)
    : result LifecycleError Transitions :=
  ensure_open lifecycle_unavailable s;; load_chain (cn_data s) request.
Definition state (s : Connection Transitions) (request : RepairRequest)
    : result LifecycleError (option RepairLifecycleState) :=
  chain ← transitions s request;
  match last chain with
  | None => Ok None
  | Some t =>
      match state_of (tn_to_state t) with
      | Some st => Ok (Some st)
      | None => Err (LifecycleValidationError "not a valid RepairLifecycleState")
      end
  end.

End contracts.

(** ** The coordinator *)

(** The calls the deployment boundary has received. *)
Inductive DeployCall :=
| DeployPromote (candidate_package_digest previous_package_digest : string)
| DeployRollback (previous_package_digest : string).

Record Life := { lf_store : Connection Transitions; lf_calls : list DeployCall }.

Definition empty_life : Life := {| lf_store := connect []; lf_calls := [] |}.

(** A state and error monad: an exception keeps what has been done. *)
Definition LM (A : Type) : Type := Life → Life * result LifecycleError A.
Definition lret {A} (a : A) : LM A := λ s, (s, Ok a).
Definition lfail {A} (e : LifecycleError) : LM A := λ s, (s, Err e).
Definition lbind {A B} (m : LM A) (k : A → LM B) : LM B :=
  λ s, match m s with (s', Ok a) => k a s' | (s', Err e) => (s', Err e) end.
Definition lift {A} (r : result LifecycleError A) : LM A := λ s, (s, r).
Definition guard_raise (b : bool) (code : string) : LM () := lift (raise_if b (RepairLifecycleError code)).
Notation "x <~ m ;; k" := (lbind m (λ x, k)) (at level 100, m at level 99, k at level 200, right associativity).
Notation "m ~> k" := (lbind m (λ _, k)) (at level 100, k at level 200, right associativity).

Definition on_store {A} (op : Connection Transitions → Connection Transitions * result LifecycleError A)
    : LM A := λ s, let '(c, r) := op (lf_store s) in ({| lf_store := c; lf_calls := lf_calls s |}, r).
Definition call (d : DeployCall) : LM () :=
  λ s, ({| lf_store := lf_store s; lf_calls := lf_calls s ++ [d] |}, Ok ()).

Section coordinator.
Context `{Sha256, FloatRepr}.

Definition append_m (request : RepairRequest) (subject : string) (to_state : RepairLifecycleState)
    (event_code : string) (at_ : Z) : LM RepairTransition :=
  on_store (append request subject to_state event_code at_).

(** [record_candidate]. *)
Definition record_candidate (request : RepairRequest) (c : RepairCandidate) (at_ : Z) : LM RepairTransition :=
  guard_raise (negb (bool_decide (cd_request_digest c = rq_request_digest request)
                     && bool_decide (cd_job_id c = rq_job_id request)
                     && bool_decide (cd_base_package_digest c = rq_base_package_digest request)))
    "repair_candidate_mismatch" ~>
  append_m request (cd_candidate_digest c) GENERATED "candidate_generated" at_.

(** [record_validation]. *)
Definition record_validation (request : RepairRequest) (c : RepairCandidate) (report : ValidationReport)
    (at_ : Z) : LM RepairTransition :=
  guard_raise (negb (bool_decide (cd_request_digest c = rq_request_digest request)
                     && bool_decide (vr_candidate_digest report = cd_candidate_digest c)))
    "repair_validation_mismatch" ~>
  append_m request (vr_report_digest report) (if vr_passed report then VALIDATED else REJECTED)
    (if vr_passed report then "validation_passed" else "validation_failed") at_.

(** [record_proposal]. *)
Definition record_proposal (request : RepairRequest) (c : RepairCandidate) (report : ValidationReport)
    (p : RepairProposal) (at_ : Z) : LM RepairTransition :=
  guard_raise (negb (vr_passed report && bool_decide (cd_request_digest c = rq_request_digest request)
                     && bool_decide (cd_job_id c = rq_job_id request)
                     && bool_decide (cd_base_package_digest c = rq_base_package_digest request)
                     && bool_decide (pp_request_digest p = rq_request_digest request)
                     && bool_decide (pp_candidate_digest p = cd_candidate_digest c)
                     && bool_decide (pp_validation_report_digest p = vr_report_digest report)))
    "repair_proposal_invalid" ~>
  append_m request (pp_proposal_digest p) PROPOSED "proposal_created" at_.

(** [approve]; [verified] is what the approval verifier answers, [None] when it raises. *)
Definition approve (request : RepairRequest) (p : RepairProposal) (a : RepairApproval)
    (verified : option bool) (now at_ : Z) : LM RepairTransition :=
  guard_raise (negb (bool_decide (pp_request_digest p = rq_request_digest request)
                     && bool_decide (ra_proposal_digest a = pp_proposal_digest p)))
    "repair_approval_mismatch" ~>
  guard_raise (pp_expires_at p <=? now) "repair_proposal_expired" ~>
  guard_raise (negb (ra_approved a && bool_decide (verified = Some true))) "repair_approval_unverified" ~>
  append_m request (ra_approval_digest a) APPROVED "proposal_approved" at_.

(** [_require_artifact_scope]. *)
Definition require_artifact_scope (request : RepairRequest) (c : RepairCandidate) (p : RepairProposal)
    : LM () :=
  guard_raise (negb (bool_decide (cd_job_id c = rq_job_id request)
                     && bool_decide (cd_request_digest c = rq_request_digest request)
                     && bool_decide (cd_base_package_digest c = rq_base_package_digest request)
                     && bool_decide (pp_request_digest p = rq_request_digest request)
                     && bool_decide (pp_candidate_digest p = cd_candidate_digest c)))
    "repair_artifact_mismatch".

(** [_rollback_release]; [rolled_back] tells that the deployment does not raise. *)
Definition release_result (c : RepairCandidate) (released : bool) (code : string) : LM ReleaseResult :=
  lift (escaping LifecycleValidationError
          (issue_release (cd_base_package_digest c) (cd_candidate_package_digest c) released code)).
Definition rollback_release (request : RepairRequest) (c : RepairCandidate) (code : string)
    (rolled_back : bool) (at_ : Z) : LM ReleaseResult :=
  call (DeployRollback (cd_base_package_digest c)) ~>
  let code := if rolled_back then code else "rollback_failed" in
  append_m request (cd_base_package_digest c) (if rolled_back then ROLLED_BACK else FAILED) code at_ ~>
  release_result c false code.

Definition empty_digest : string :=
  "sha256:0000000000000000000000000000000000000000000000000000000000000000".

(** [canary]: what the executor and the evidence verifier return, [None] when they raise. *)
Definition canary_outcome (p : RepairProposal) (thresholds : CanaryThresholds)
    (ran : option CanaryResult) (evidence : option VerifiedCanaryEvidence) : option CanaryDecision :=
  result ← ran;
  guard (ca_proposal_digest result = pp_proposal_digest p);;
  e ← evidence;
  match evaluate_canary p e thresholds with Ok d => Some d | Err _ => None end.
Definition canary (request : RepairRequest) (c : RepairCandidate) (p : RepairProposal)
    (thresholds : CanaryThresholds) (ran : option CanaryResult) (evidence : option VerifiedCanaryEvidence)
    (rolled_back : bool) (now at_ at2 : Z) : LM (CanaryDecision * option ReleaseResult) :=
  require_artifact_scope request c p ~>
  guard_raise (pp_expires_at p <=? now) "repair_proposal_expired" ~>
  append_m request (pp_proposal_digest p) CANARY "canary_started" at_ ~>
  match canary_outcome p thresholds ran evidence with
  | None =>
      d <~ lift (escaping LifecycleValidationError
                   (issue_decision (pp_proposal_digest p) empty_digest (th_thresholds_digest thresholds) false));;
      r <~ rollback_release request c "canary_unavailable" rolled_back at2;;
      lret (d, Some r)
  | Some d =>
      if cn_passed d then lret (d, None)
      else r <~ rollback_release request c "canary_failed" rolled_back at2;; lret (d, Some r)
  end.

(** [promote]; [promoted] is what the deployment answers, [None] when it raises. *)
Definition promote (request : RepairRequest) (c : RepairCandidate) (p : RepairProposal)
    (thresholds : CanaryThresholds) (d : CanaryDecision) (promoted : option bool) (rolled_back : bool)
    (at_ : Z) : LM ReleaseResult :=
  require_artifact_scope request c p ~>
  guard_raise (negb (bool_decide (cn_proposal_digest d = pp_proposal_digest p)
                     && bool_decide (cn_thresholds_digest d = th_thresholds_digest thresholds)))
    "repair_canary_mismatch" ~>
  st <~ (λ s, (s, state (lf_store s) request));;
  guard_raise (negb (bool_decide (st = Some CANARY))) "repair_transition_invalid" ~>
  if cn_passed d then
    call (DeployPromote (cd_candidate_package_digest c) (cd_base_package_digest c)) ~>
    if bool_decide (promoted = Some true) then
      append_m request (cn_decision_digest d) PROMOTED "promoted" at_ ~>
      release_result c true "promoted"
    else rollback_release request c "promotion_failed" rolled_back at_
  else rollback_release request c "canary_failed" rolled_back at_.

(** [close] on the store. *)
Definition close_life (s : Life) : Life :=
  {| lf_store := Sqlite.close (lf_store s); lf_calls := lf_calls s |}.

(** One call, by anyone with any arguments and any behaviour of the collaborators. *)
Inductive life_step (s : Life) : Life → Prop :=
| fs_append request subject to_state code at_ : life_step s (append_m request subject to_state code at_ s).1
| fs_candidate request c at_ : life_step s (record_candidate request c at_ s).1
| fs_validation request c report at_ : life_step s (record_validation request c report at_ s).1
| fs_proposal request c report p at_ : life_step s (record_proposal request c report p at_ s).1
| fs_approve request p a verified now at_ : life_step s (approve request p a verified now at_ s).1
| fs_canary request c p thresholds ran evidence rolled_back now at_ at2 :
    life_step s (canary request c p thresholds ran evidence rolled_back now at_ at2 s).1
| fs_promote request c p thresholds d promoted rolled_back at_ :
    life_step s (promote request c p thresholds d promoted rolled_back at_ s).1
| fs_close : life_step s (close_life s).

Definition life_reachable (s : Life) : Prop := star life_step empty_life s.

End coordinator.

(** ** The chain of a request *)

(** The histories a request can have. *)
Definition to_canary : list RepairLifecycleState := [GENERATED; VALIDATED; PROPOSED; APPROVED; CANARY].
Definition HISTORIES : list (list RepairLifecycleState) :=
  [[]; [GENERATED]; [GENERATED; REJECTED]; [GENERATED; VALIDATED]; [GENERATED; VALIDATED; PROPOSED];
   [GENERATED; VALIDATED; PROPOSED; APPROVED]; to_canary; to_canary ++ [PROMOTED];
   to_canary ++ [ROLLED_BACK]; to_canary ++ [FAILED]].
Definition states_of (chain : Transitions) : list string := map tn_to_state chain.
Definition history_ok (chain : Transitions) : Prop :=
  states_of chain ∈ map (map state_value) HISTORIES.

Fixpoint allowed_path (state : string) (chain : Transitions) : bool :=
  match chain with
  | [] => true
  | t :: chain' => allowed state (tn_to_state t) && allowed_path (tn_to_state t) chain'
  end.

Definition after (digest : option string) (state : string) (chain : Transitions) : option string * string :=
  match last chain with
  | Some t => (Some (tn_transition_digest t), tn_to_state t)
  | None => (digest, state)
  end.

Lemma after_cons t chain digest state :
  after digest state (t :: chain) = after (Some (tn_transition_digest t)) (tn_to_state t) chain.
Proof. unfold after. rewrite last_cons. by destruct (last chain). Qed.

Lemma chain_linked_app digest state chain t :
  chain_linked digest state (chain ++ [t]) = true ↔
  chain_linked digest state chain = true ∧
  (tn_previous_transition_digest t, tn_from_state t) = after digest state chain.
Proof.
  revert digest state. induction chain as [|u chain IH]; intros digest state; cbn [chain_linked app].
  - unfold after. cbn. rewrite andb_true_r, andb_true_iff, !bool_decide_eq_true.
    split; [intros [-> ->]; done|intros [_ [= -> ->]]; done].
  - rewrite after_cons, !andb_true_iff, IH. tauto.
Qed.

Lemma allowed_path_app state chain t :
  allowed_path state (chain ++ [t]) = true ↔
  allowed_path state chain = true ∧ allowed (after None state chain).2 (tn_to_state t) = true.
Proof.
  revert state. induction chain as [|u chain IH]; intros state; cbn [allowed_path app].
  - unfold after. cbn. rewrite andb_true_r. tauto.
  - rewrite andb_true_iff, IH, andb_true_iff.
    assert ((after None state (u :: chain)).2 = (after None (tn_to_state u) chain).2) as ->; [|tauto].
    rewrite after_cons. unfold after. by destruct (last chain).
Qed.

Definition PAIRS : list (string * string) :=
  concat (map (λ e : string * list string, map (pair e.1) e.2) ALLOWED_TRANSITIONS).
Lemma allowed_pairs from to : allowed from to = true → (from, to) ∈ PAIRS.
Proof.
  unfold allowed, PAIRS. generalize ALLOWED_TRANSITIONS. intros l. rewrite mem_true.
  induction l as [|[f ts] l IH]; cbn; [by intros ?%elem_of_nil|].
  rewrite elem_of_app. destruct (decide (f = from)) as [->|]; cbn.
  - intros Hin. left. by apply list_elem_of_fmap_2.
  - intros Hin. right. by apply IH.
Qed.

Lemma PAIRS_eq : PAIRS =
  [("none", "generated"); ("generated", "validated"); ("generated", "rejected");
   ("validated", "proposed"); ("proposed", "approved"); ("approved", "canary");
   ("canary", "promoted"); ("canary", "rolled_back"); ("canary", "failed")].
Proof. reflexivity. Qed.

(** Follow the next transition of a chain. *)
Ltac next_transition chain Ha :=
  let t := fresh "t" in
  destruct chain as [|t chain]; [by apply (bool_decide_unpack _)|];
  let H := fresh in
  cbn [allowed_path map] in Ha |- *; apply andb_true_iff in Ha as [H Ha];
  apply allowed_pairs in H; rewrite PAIRS_eq in H;
  repeat (apply elem_of_cons in H as [H|H]; [first [discriminate H|injection H as H; rewrite H in *; clear H]|]);
  try (by apply elem_of_nil in H).

Lemma allowed_history chain : allowed_path STATE_NONE chain = true → history_ok chain.
Proof.
  unfold history_ok, states_of. intros Ha.
  do 7 (next_transition chain Ha; try discriminate Ha).
Qed.

Section invariant.
Context `{Sha256, FloatRepr}.

Record rows_ok (rows : Transitions) : Prop := {
  rk_linked : ∀ request, chain_linked None STATE_NONE (filter (of_request request) rows) = true;
  rk_allowed : ∀ request, allowed_path STATE_NONE (filter (of_request request) rows) = true;
  rk_unique : NoDup (map tn_transition_digest rows);
  rk_valid : Forall (λ t, validate_transition t = Ok ()) rows }.

Lemma load_chain_ok rows request :
  rows_ok rows → load_chain rows request = Ok (filter (of_request request) rows).
Proof. intros Hok. unfold load_chain. by rewrite (rk_linked _ Hok). Qed.

Lemma load_chain_filter rows request chain :
  load_chain rows request = Ok chain → chain = filter (of_request request) rows.
Proof. unfold load_chain. by intros [_ [= <-]]%raise_if_then. Qed.

Lemma issue_transition_ok t t' :
  issue_transition t = Ok t' → validate_transition t' = Ok () ∧ t' = {|
    tn_tenant_id := tn_tenant_id t; tn_environment_id := tn_environment_id t;
    tn_job_id := tn_job_id t; tn_request_digest := tn_request_digest t;
    tn_subject_digest := tn_subject_digest t; tn_from_state := tn_from_state t;
    tn_to_state := tn_to_state t; tn_event_code := tn_event_code t;
    tn_previous_transition_digest := tn_previous_transition_digest t;
    tn_occurred_at := tn_occurred_at t; tn_transition_digest := value_digest (transition_json t) |}.
Proof. unfold issue_transition. by intros ([] & Hv & [= <-])%bind_ok. Qed.

(** What [append] adds. *)
Lemma append_body_ok request subject to_state code at_ rows rows' t :
  append_body request subject to_state code at_ rows = Ok (rows', t) →
  rows' = rows ++ [t] ∧ of_request request t ∧ validate_transition t = Ok () ∧
  tn_transition_digest t ∉ map tn_transition_digest rows ∧
  tn_to_state t = state_value to_state ∧ tn_subject_digest t = subject ∧
  (tn_previous_transition_digest t, tn_from_state t)
    = after None STATE_NONE (filter (of_request request) rows) ∧
  allowed (tn_from_state t) (tn_to_state t) = true.
Proof.
  unfold append_body. intros (chain & ->%load_chain_filter & Hb)%bind_ok.
  rewrite raise_if_then in Hb. destruct Hb as [Ha Hb]. apply negb_false_iff in Ha.
  apply bind_ok in Hb as (t' & Ht & Hb). apply escaping_ok, issue_transition_ok in Ht as [Hv Ht].
  apply raise_if_then in Hb as [Hu [= <- <-]]. apply mem_false in Hu.
  split_and!; try done; rewrite Ht; try done.
  cbn. unfold after. by destruct (last _).
Qed.

Lemma of_request_same request request' t u :
  of_request request t → of_request request' t → of_request request' u ↔ of_request request u.
Proof. unfold of_request. intros -> ->. done. Qed.

Lemma rows_ok_append request subject to_state code at_ rows rows' t :
  rows_ok rows → append_body request subject to_state code at_ rows = Ok (rows', t) → rows_ok rows'.
Proof.
  intros [Hl Ha Hu Hv] (-> & Ht & Hvt & Hn & _ & _ & Hafter & Hal)%append_body_ok.
  assert (∀ request', of_request request' t →
    filter (of_request request') rows = filter (of_request request) rows) as Hsame.
  { intros request' Ht'. apply list_filter_iff. intros u. by apply (of_request_same _ _ t). }
  split.
  - intros request'. rewrite filter_app. destruct (decide (of_request request' t)) as [Ht'|Ht'].
    + rewrite (filter_cons_True _ t), filter_nil by done. apply chain_linked_app.
      split; [apply Hl|]. by rewrite Hsame.
    + rewrite (filter_cons_False _ t), filter_nil, app_nil_r by done. apply Hl.
  - intros request'. rewrite filter_app. destruct (decide (of_request request' t)) as [Ht'|Ht'].
    + rewrite (filter_cons_True _ t), filter_nil by done. apply allowed_path_app.
      split; [apply Ha|]. rewrite Hsame by done. by rewrite <-Hafter.
    + rewrite (filter_cons_False _ t), filter_nil, app_nil_r by done. apply Ha.
  - rewrite map_app. apply NoDup_app. split_and!; [done| |apply NoDup_singleton].
    intros x Hx ->%list_elem_of_singleton. done.
  - apply Forall_app. by rewrite Forall_singleton.
Qed.

(** A store operation of the coordinator, or none, and calls made. *)
Definition data (s : Life) : Transitions := cn_data (lf_store s).

Lemma append_m_cases request subject to_state code at_ s s' r :
  append_m request subject to_state code at_ s = (s', r) →
  lf_calls s' = lf_calls s ∧
  match r with
  | Ok t => append_body request subject to_state code at_ (data s) = Ok (data s', t)
  | Err _ => data s' = data s
  end.
Proof.
  unfold append_m, on_store, append, data. destruct (operation _ _ _ _ _ _) as [c x] eqn:E.
  intros [= <- <-]. cbn. split; [done|].
  apply operation_cases in E as [(Ed & e & ->)|(rows & a & -> & _ & Hb & -> & _)]; [done|].
  by rewrite Hb.
Qed.

(** What keeps the invariant: every operation, whatever it returns. *)
Definition extends (s s' : Life) : Prop :=
  rows_ok (data s) → rows_ok (data s') ∧ data s `prefix_of` data s'.

#[export] Instance extends_preorder : PreOrder extends.
Proof.
  split; [by intros s Hs|]. intros s1 s2 s3 H12 H23 Hs. destruct (H12 Hs) as [Hs2 P12].
  destruct (H23 Hs2) as [Hs3 P23]. split; [done|by etrans].
Qed.

Definition extending {A} (m : LM A) : Prop := ∀ s, extends s (m s).1.

Lemma extending_bind {A B} (m : LM A) (k : A → LM B) :
  extending m → (∀ a, extending (k a)) → extending (lbind m k).
Proof.
  intros Hm Hk s. unfold lbind. specialize (Hm s). destruct (m s) as [s1 [a|e]]; [|done].
  cbn in Hm. etrans; [exact Hm|apply Hk].
Qed.
Lemma extending_lift {A} (r : result LifecycleError A) : extending (lift r).
Proof. by intros s Hs. Qed.
Lemma extending_ret {A} (a : A) : extending (lret a).
Proof. by intros s Hs. Qed.
Lemma extending_read {A} (f : Life → result LifecycleError A) : extending (λ s, (s, f s)).
Proof. by intros s Hs. Qed.
Lemma extending_call d : extending (call d).
Proof. by intros s Hs. Qed.
Lemma extending_append request subject to_state code at_ :
  extending (append_m request subject to_state code at_).
Proof.
  intros s Hs. destruct (append_m _ _ _ _ _ s) as [s' [t|e]] eqn:E; apply append_m_cases in E as [_ Hb].
  - cbn. split; [by eapply rows_ok_append|]. apply append_body_ok in Hb as (-> & _). by eexists.
  - cbn. by rewrite Hb.
Qed.

Create HintDb extending.
#[local] Hint Resolve extending_bind extending_lift extending_ret extending_read extending_call
  extending_append : extending.
Ltac extending := repeat (apply extending_bind; [|intros ?]); eauto with extending.

Lemma extending_rollback request c code rolled_back at_ : extending (rollback_release request c code rolled_back at_).
Proof. unfold rollback_release, release_result. extending. Qed.
#[local] Hint Resolve extending_rollback : extending.

Lemma extending_canary request c p thresholds ran evidence rolled_back now at_ at2 :
  extending (canary request c p thresholds ran evidence rolled_back now at_ at2).
Proof.
  unfold canary, require_artifact_scope, guard_raise. extending.
  destruct (canary_outcome _ _ _ _) as [d|]; [destruct (cn_passed d)|]; extending.
Qed.
Lemma extending_promote request c p thresholds d promoted rolled_back at_ :
  extending (promote request c p thresholds d promoted rolled_back at_).
Proof.
  unfold promote, require_artifact_scope, guard_raise, release_result. extending.
  destruct (cn_passed d); [|extending]. destruct (bool_decide (promoted = _)); extending.
Qed.

Lemma life_step_extends s s' : life_step s s' → extends s s'.
Proof.
  intros []; try (apply extending_canary || apply extending_promote || apply extending_append).
  all: try match goal with |- extends _ (?m _).1 => assert (extending m) as Hm; [|apply Hm] end.
  all: unfold record_candidate, record_validation, record_proposal, approve, guard_raise; try by extending.
  unfold close_life, Sqlite.close, extends, data. cbn. by destruct (cn_closed _).
Qed.

Lemma life_reachable_ok s : life_reachable s → rows_ok (data s).
Proof.
  apply (star_invariant life_step (λ s, rows_ok (data s))).
  - intros s1 s2 Hok Hs. by apply life_step_extends in Hs as [? _].
  - split; cbn; [done|done|apply NoDup_nil_2|constructor].
Qed.

Lemma life_steps_extend s s' : star life_step s s' → extends s s'.
Proof. induction 1 as [|s1 s2 s3 H1 _ IH]; [done|]. by etrans; [apply life_step_extends|]. Qed.

Lemma life_history s request :
  rows_ok (data s) → history_ok (filter (of_request request) (data s)).
Proof. intros Hok. apply allowed_history, Hok. Qed.

(** ** Theorems *)

(** The lifecycle of a request is sound: in every reachable store its transitions load, link
    to one another by digest, follow one of the ten histories of the state machine, are valid
    and carry distinct digests; and whatever follows, the store only grows at its end. *)
Theorem lifecycle_chain_sound s s' request :
  life_reachable s → star life_step s s' → cn_closed (lf_store s) = false →
  ∃ chain, transitions (lf_store s) request = Ok chain ∧
    chain_linked None STATE_NONE chain = true ∧
    states_of chain ∈ map (map state_value) HISTORIES ∧
    Forall (λ t, of_request request t ∧ validate_transition t = Ok ()) chain ∧
    NoDup (map tn_transition_digest chain) ∧
    data s `prefix_of` data s' ∧ chain `prefix_of` filter (of_request request) (data s').
Proof.
  intros Hok%life_reachable_ok Hs Ho. pose proof (life_steps_extend _ _ Hs Hok) as [_ Hpre].
  exists (filter (of_request request) (data s)). split_and!.
  - unfold transitions, ensure_open. rewrite Ho. by apply load_chain_ok.
  - apply Hok.
  - by apply life_history.
  - apply Forall_forall. intros t [Ht Hin]%list_elem_of_filter. split; [done|].
    pose proof (rk_valid _ Hok) as Hv. rewrite Forall_forall in Hv. by apply Hv.
  - eapply sublist_NoDup; [apply (rk_unique _ Hok)|]. apply fmap_sublist, sublist_filter.
  - done.
  - destruct Hpre as [l ->]. rewrite filter_app. by eexists.
Qed.

(** ** Promotion *)

Lemma state_of_Some value st : state_of value = Some st → value = state_value st.
Proof. unfold state_of. intros [_ Hb]%List.find_some. by apply bool_decide_eq_true in Hb. Qed.

(** Only one history ends in a canary, and only one continues a promotion. *)
Lemma canary_history l :
  l ∈ map (map state_value) HISTORIES → last l = Some (state_value CANARY) → l = map state_value to_canary.
Proof.
  intros Hl Hlast. apply list_elem_of_fmap in Hl as (h & -> & Hh).
  unfold HISTORIES in Hh. repeat (apply elem_of_cons in Hh as [->|Hh]; [first [done|discriminate Hlast]|]).
  by apply elem_of_nil in Hh.
Qed.

Lemma promoted_history l :
  l ∈ map (map state_value) HISTORIES → map state_value (to_canary ++ [PROMOTED]) `prefix_of` l →
  last l = Some (state_value PROMOTED).
Proof.
  intros Hl [k ->]. apply list_elem_of_fmap in Hl as (h & Eh & Hh).
  unfold HISTORIES in Hh. repeat (apply elem_of_cons in Hh as [->|Hh];
    [first [discriminate Eh|injection Eh as ->; reflexivity]|]).
  by apply elem_of_nil in Hh.
Qed.

Lemma state_canary s request :
  rows_ok (data s) → state (lf_store s) request = Ok (Some CANARY) →
  states_of (filter (of_request request) (data s)) = map state_value to_canary.
Proof.
  intros Hok. unfold state, transitions. intros (chain & (_ & _ & ->%load_chain_filter)%bind_ok & Hst)%bind_ok.
  apply canary_history; [by apply life_history|]. unfold states_of.
  change (map tn_to_state ?l) with (tn_to_state <$> l). rewrite fmap_last.
  fold (data s) in Hst. destruct (last _) as [t|] eqn:E; [|done]. cbn.
  destruct (state_of _) as [st|] eqn:Es; [|done]. injection Hst as ->. by apply state_of_Some in Es as ->.
Qed.

Lemma guard_raise_ok b code s s' a : guard_raise b code s = (s', Ok a) → s' = s ∧ b = false.
Proof. unfold guard_raise, lift. by destruct b; intros [= <- _]. Qed.

Lemma rollback_calls request c code rolled_back at_ s :
  lf_calls (rollback_release request c code rolled_back at_ s).1
  = lf_calls s ++ [DeployRollback (cd_base_package_digest c)].
Proof.
  unfold rollback_release, lbind, call. cbn [fst snd].
  destruct (append_m _ _ _ _ _ _) as [s1 [t|e]] eqn:E;
    apply append_m_cases in E as [Ec _]; cbn; by rewrite Ec.
Qed.

Lemma rollback_not_released request c code rolled_back at_ s s' r :
  rollback_release request c code rolled_back at_ s = (s', Ok r) → rl_released r = false.
Proof.
  unfold rollback_release, lbind, call. destruct (append_m _ _ _ _ _ _) as [s1 [t|e]]; [|done].
  unfold release_result, lift, issue_release. intros [= _ Hr].
  by apply escaping_ok, bind_ok in Hr as ([] & _ & [= <-]).
Qed.

Definition decision_matches (p : RepairProposal) (thresholds : CanaryThresholds) (d : CanaryDecision) : Prop :=
  cn_proposal_digest d = pp_proposal_digest p ∧ cn_thresholds_digest d = th_thresholds_digest thresholds.

(** What promotion does once it is past its guards. *)
Definition release (request : RepairRequest) (c : RepairCandidate) (d : CanaryDecision)
    (promoted : option bool) (rolled_back : bool) (at_ : Z) : LM ReleaseResult :=
  if cn_passed d then
    call (DeployPromote (cd_candidate_package_digest c) (cd_base_package_digest c)) ~>
    if bool_decide (promoted = Some true) then
      append_m request (cn_decision_digest d) PROMOTED "promoted" at_ ~>
      release_result c true "promoted"
    else rollback_release request c "promotion_failed" rolled_back at_
  else rollback_release request c "canary_failed" rolled_back at_.

Lemma guard_bind b code s {A} (k : LM A) x :
  lbind (guard_raise b code) (λ _, k) s = x → (∃ e, x = (s, Err e)) ∨ (b = false ∧ k s = x).
Proof. unfold lbind, guard_raise, lift. destruct b; cbn; [intros <-; left; eauto|by right]. Qed.

Lemma promote_cases request c p thresholds d promoted rolled_back at_ s x :
  promote request c p thresholds d promoted rolled_back at_ s = x →
  (∃ e, x = (s, Err e)) ∨
  state (lf_store s) request = Ok (Some CANARY) ∧ decision_matches p thresholds d ∧
  release request c d promoted rolled_back at_ s = x.
Proof.
  unfold promote, require_artifact_scope. fold (release request c d promoted rolled_back at_).
  intros [?|[_ Hx]]%guard_bind; [by left|]. apply guard_bind in Hx as [?|[Hm Hx]]; [by left|].
  unfold lbind at 1 in Hx. destruct (state (lf_store s) request) as [st|e] eqn:Es; [|left; eauto].
  apply guard_bind in Hx as [?|[Hc Hx]]; [by left|]. right. boolify. by subst.
Qed.

Lemma release_calls request c d promoted rolled_back at_ s :
  ∃ l, lf_calls (release request c d promoted rolled_back at_ s).1 = lf_calls s ++ l ∧
    (∀ x b, DeployPromote x b ∈ l → cn_passed d = true ∧ x = cd_candidate_package_digest c ∧
      b = cd_base_package_digest c).
Proof.
  unfold release. destruct (cn_passed d) eqn:Ep.
  - unfold lbind at 1, call. destruct (bool_decide _).
    + exists [DeployPromote (cd_candidate_package_digest c) (cd_base_package_digest c)]. split.
      * unfold lbind. destruct (append_m _ _ _ _ _ _) as [s1 [t|e]] eqn:E;
          apply append_m_cases in E as [Ec _]; cbn; by rewrite Ec.
      * by intros x b [= -> ->]%list_elem_of_singleton.
    + eexists. rewrite rollback_calls. cbn [lf_calls]. rewrite <-app_assoc. split; [done|].
      cbn. intros x b [[= -> ->]|[=]%list_elem_of_singleton]%elem_of_cons. done.
  - eexists. rewrite rollback_calls. split; [done|]. by intros x b [=]%list_elem_of_singleton.
Qed.

Lemma release_released request c d promoted rolled_back at_ s s' r :
  release request c d promoted rolled_back at_ s = (s', Ok r) → rl_released r = true →
  cn_passed d = true ∧ promoted = Some true ∧
  ∃ t, append_body request (cn_decision_digest d) PROMOTED "promoted" at_ (data s) = Ok (data s', t).
Proof.
  unfold release. destruct (cn_passed d).
  - unfold lbind at 1, call. case_bool_decide as Hp.
    + unfold lbind. destruct (append_m _ _ _ _ _ _) as [s1 [t|e]] eqn:E; [|done].
      apply append_m_cases in E as [_ Hb]. intros [= <- _] _. split_and!; try done. by exists t.
    + intros Hr%rollback_not_released. by rewrite Hr.
  - intros Hr%rollback_not_released. by rewrite Hr.
Qed.

(** C21. Promotion is gated and happens once: the deployment is asked to promote a package only
    for a request whose recorded history is generation, validation, proposal, approval and
    canary, with a passing decision for the proposal and thresholds at hand; a release that is
    reported has been deployed and recorded; and from then on no promotion of the request
    reaches the deployment again. *)
Theorem promotion_gated request c p thresholds d promoted rolled_back at_ s s' r :
  life_reachable s → promote request c p thresholds d promoted rolled_back at_ s = (s', r) →
  (∃ l, lf_calls s' = lf_calls s ++ l ∧ ∀ x b, DeployPromote x b ∈ l →
     x = cd_candidate_package_digest c ∧ b = cd_base_package_digest c ∧
     cn_passed d = true ∧ decision_matches p thresholds d ∧
     states_of (filter (of_request request) (data s)) = map state_value to_canary) ∧
  (∀ result, r = Ok result → rl_released result = true →
     promoted = Some true ∧
     states_of (filter (of_request request) (data s')) = map state_value (to_canary ++ [PROMOTED]) ∧
     ∀ s2 c2 p2 thresholds2 d2 promoted2 rolled_back2 at2, star life_step s' s2 →
       (promote request c2 p2 thresholds2 d2 promoted2 rolled_back2 at2 s2).1 = s2).
Proof.
  intros Hok%life_reachable_ok Hp.
  destruct (promote_cases _ _ _ _ _ _ _ _ _ _ Hp) as [[e [= -> ->]]|(Hst & Hd & Hrel)].
  { split; [|done]. exists []. rewrite app_nil_r.
    split; [done|]. by intros x b ?%elem_of_nil. }
  clear Hp. rename Hrel into Hp. pose proof (state_canary _ _ Hok Hst) as Hcan. split.
  - destruct (release_calls request c d promoted rolled_back at_ s) as (l & El & Hl).
    rewrite Hp in El. exists l. split; [done|]. intros x b Hin. destruct (Hl _ _ Hin) as (? & ? & ?).
    by split_and!.
  - intros result -> Hr. destruct (release_released _ _ _ _ _ _ _ _ _ Hp Hr) as (_ & Hpro & t & Hb).
    pose proof (rows_ok_append _ _ _ _ _ _ _ _ Hok Hb) as Hok'.
    apply append_body_ok in Hb as (Ed & Hreq & _ & _ & Eto & _).
    assert (states_of (filter (of_request request) (data s')) = map state_value (to_canary ++ [PROMOTED]))
      as Hstates.
    { rewrite Ed, filter_app, (filter_cons_True _ t), filter_nil by done. unfold states_of in *.
      by rewrite map_app, Hcan, map_app; cbn; rewrite Eto. }
    split_and!; [done|done|]. intros s2 c2 p2 th2 d2 pro2 rb2 at2 Hs2.
    destruct (promote_cases request c2 p2 th2 d2 pro2 rb2 at2 s2 _ eq_refl) as [[e ->]|(Hst2 & _)];
      [done|exfalso].
    destruct (life_steps_extend _ _ Hs2 Hok') as [Hok2 [k Hk]].
    pose proof (state_canary _ _ Hok2 Hst2) as Hcan2.
    rewrite Hk, filter_app in Hcan2. unfold states_of in Hcan2, Hstates.
    rewrite map_app, Hstates in Hcan2. discriminate Hcan2.
Qed.

(** The canary passes exactly when its verified evidence meets the thresholds: enough
    observations, the required share of successes counted in exact arithmetic, and no
    violation of an invariant. *)
Theorem canary_passes_iff p e thresholds d :
  validate_thresholds thresholds = Ok () → validate_evidence e = Ok () →
  evaluate_canary p e thresholds = Ok d →
  cn_passed d = true ↔
  ev_verified e = true ∧ th_minimum_observations thresholds ≤ ev_observation_count e ∧
  th_minimum_success_ppm thresholds * ev_observation_count e ≤ ev_success_count e * 1000000 ∧
  ev_invariant_violation_count e = 0.
Proof.
  unfold validate_thresholds, validate_evidence, evaluate_canary.
  rewrite !raise_if_then. intros [Ht _] [He _] [_ Hd].
  apply escaping_ok, bind_ok in Hd as ([] & _ & [= <-]). cbn [cn_passed]. unfold between in *. boolify.
  rewrite !andb_true_iff, !Z.leb_le, Z.eqb_eq. unfold success_ppm.
  destruct (ev_observation_count e =? 0) eqn:E0; boolify; [lia|].
  assert (th_minimum_success_ppm thresholds ≤ ev_success_count e * 1000000 / ev_observation_count e ↔
    th_minimum_success_ppm thresholds * ev_observation_count e ≤ ev_success_count e * 1000000) as ->; [|tauto].
  split; intros Hle.
  - etrans; [apply Z.mul_le_mono_nonneg_r; [lia|exact Hle]|].
    rewrite Z.mul_comm. apply Z.mul_div_le. lia.
  - apply Z.div_le_lower_bound; lia.
Qed.

End invariant.

(** ** Concrete repairs *)

#[local] Existing Instances distinct_sha256 example_float_repr.

Definition digest_of (s : string) : string := value_digest (JStr s).
Definition example_request : RepairRequest := {|
  rq_tenant_id := "tenant"; rq_environment_id := "prod"; rq_job_id := "job-1";
  rq_drift_report_digest := digest_of "drift"; rq_base_package_digest := digest_of "base";
  rq_sanitized_fixture_digest := digest_of "fixture"; rq_allowed_paths := ["maps/a.json"];
  rq_request_digest := digest_of "request" |}.
Definition no_usage : RepairUsage := {| model_calls := 0; input_tokens := 0; output_tokens := 0;
  cost_units := 0; files := 0; candidate_bytes := 0; validation_seconds := 0 |}.
Definition example_candidate (package : string) : RepairCandidate :=
  let unsigned digest := {| cd_job_id := "job-1"; cd_request_digest := rq_request_digest example_request;
    cd_base_package_digest := rq_base_package_digest example_request;
    cd_candidate_package_digest := digest_of package; cd_changed_paths := ["maps/a.json"];
    cd_usage := no_usage; cd_result_code := "generated"; cd_candidate_digest := digest |} in
  unsigned (value_digest (candidate_json (unsigned EmptyString))).
Definition example_report (package : string) : ValidationReport :=
  let unsigned digest := {| vr_candidate_digest := cd_candidate_digest (example_candidate package);
    vr_tck_report_digest := digest_of "tck"; vr_security_report_digest := digest_of "security";
    vr_passed := true; vr_check_codes := ["tck"]; vr_violation_codes := []; vr_duration_seconds := 1;
    vr_report_digest := digest |} in
  unsigned (value_digest (report_json (unsigned EmptyString))).
Definition example_proposal (package : string) : RepairProposal :=
  let unsigned digest := {| pp_request_digest := rq_request_digest example_request;
    pp_candidate_digest := cd_candidate_digest (example_candidate package);
    pp_validation_report_digest := vr_report_digest (example_report package);
    pp_result_code := "proposed"; pp_created_at := 0; pp_expires_at := 1000; pp_proposal_digest := digest |} in
  unsigned (value_digest (proposal_json (unsigned EmptyString))).
Definition example_approval (package : string) : RepairApproval :=
  let unsigned digest := {| ra_proposal_digest := pp_proposal_digest (example_proposal package);
    ra_principal_digest := digest_of "principal"; ra_approval_attestation_digest := digest_of "attestation";
    ra_approved := true; ra_decision_code := "approved"; ra_approval_digest := digest |} in
  unsigned (value_digest (approval_json (unsigned EmptyString))).
Definition example_thresholds : CanaryThresholds :=
  let unsigned digest := {| th_minimum_observations := 3; th_minimum_success_ppm := 666666;
    th_thresholds_digest := digest |} in
  unsigned (value_digest (thresholds_json (unsigned EmptyString))).
Definition example_evidence (package : string) : VerifiedCanaryEvidence :=
  let unsigned digest := {| ev_proposal_digest := pp_proposal_digest (example_proposal package);
    ev_evidence_source := "monitor"; ev_source_record_digest := digest_of "record";
    ev_observation_count := 3; ev_success_count := 2; ev_invariant_violation_count := 0;
    ev_verified := true; ev_evidence_digest := digest |} in
  unsigned (value_digest (evidence_json (unsigned EmptyString))).
Definition example_canary (package : string) : CanaryResult :=
  let unsigned digest := {| ca_proposal_digest := pp_proposal_digest (example_proposal package);
    ca_passed := true; ca_observation_codes := ["ok"]; ca_safety_violation_codes := [];
    ca_canary_digest := digest |} in
  unsigned (value_digest (canary_json (unsigned EmptyString))).
Definition example_decision (package : string) : CanaryDecision :=
  match evaluate_canary (example_proposal package) (example_evidence package) example_thresholds with
  | Ok d => d
  | Err _ => {| cn_proposal_digest := ""; cn_evidence_digest := ""; cn_thresholds_digest := "";
                cn_passed := false; cn_decision_digest := "" |}
  end.

(** Candidate "a" is generated, validated, proposed and approved. *)
Definition approved_life : Life :=
  let a := example_candidate "a" in
  let s := (record_candidate example_request a 1 empty_life).1 in
  let s := (record_validation example_request a (example_report "a") 2 s).1 in
  let s := (record_proposal example_request a (example_report "a") (example_proposal "a") 3 s).1 in
  (approve example_request (example_proposal "a") (example_approval "a") (Some true) 4 4 s).1.
Definition canary_life (package : string) : Life :=
  (canary example_request (example_candidate package) (example_proposal package) example_thresholds
     (Some (example_canary package)) (Some (example_evidence package)) true 5 5 6 approved_life).1.
Definition promotion (package : string) : Life * result LifecycleError ReleaseResult :=
  promote example_request (example_candidate package) (example_proposal package) example_thresholds
    (example_decision package) (Some true) true 7 (canary_life package).

Example lifecycle_example :
  (states_of (data (promotion "a").1), lf_calls (promotion "a").1, rl_released <$> (promotion "a").2)
  = (map state_value (to_canary ++ [PROMOTED]), [DeployPromote (digest_of "a") (digest_of "base")], Ok true).
Proof. vm_compute. reflexivity. Qed.

(** The stages are not bound to one another: with candidate "a" approved, another candidate of
    the same request, which was never recorded, validated or approved, goes through the canary
    and is promoted. *)
Example unapproved_candidate_promoted :
  (states_of (data (promotion "b").1), lf_calls (promotion "b").1, rl_released <$> (promotion "b").2,
   existsb (λ t, bool_decide (tn_subject_digest t = cd_candidate_digest (example_candidate "b")
                              ∨ tn_subject_digest t = ra_approval_digest (example_approval "b")
                              ∨ tn_subject_digest t = vr_report_digest (example_report "b")))
     (data (promotion "b").1))
  = (map state_value (to_canary ++ [PROMOTED]), [DeployPromote (digest_of "b") (digest_of "base")], Ok true, false).
Proof. vm_compute. reflexivity. Qed.

Lemma life_snoc s1 s2 s3 : star life_step s1 s2 → life_step s2 s3 → star life_step s1 s3.
Proof. intros H1 H2. eapply star_trans; [exact H1|by apply star_one]. Qed.

Lemma approved_reachable : life_reachable approved_life.
Proof.
  unfold approved_life. cbv zeta. eapply life_snoc; [|apply fs_approve].
  eapply life_snoc; [|apply fs_proposal]. eapply life_snoc; [|apply fs_validation].
  eapply life_snoc; [apply star_refl|apply fs_candidate].
Qed.

Lemma canary_reachable package : life_reachable (canary_life package).
Proof. unfold canary_life. refine (life_snoc _ approved_life _ approved_reachable _). apply fs_canary. Qed.

Lemma promoted_reachable package : life_reachable (promotion package).1.
Proof.
  unfold promotion. refine (life_snoc _ (canary_life package) _ (canary_reachable package) _).
  apply fs_promote.
Qed.

Lemma lifecycle_chain_sound_witness :
  ∃ chain, transitions (lf_store (promotion "a").1) example_request = Ok chain ∧
    NoDup (map tn_transition_digest chain).
Proof.
  destruct (lifecycle_chain_sound (promotion "a").1 (promotion "a").1 example_request)
    as (chain & Hc & _ & _ & _ & Hn & _).
  - exact (promoted_reachable "a").
  - apply star_refl.
  - vm_compute. reflexivity.
  - exists chain. split; [exact Hc|exact Hn].
Defined.

Definition no_release : ReleaseResult := {|
  rl_previous_package_digest := ""; rl_candidate_package_digest := ""; rl_released := false;
  rl_result_code := ""; rl_release_digest := "" |}.
Definition release_of (x : Life * result LifecycleError ReleaseResult) : ReleaseResult :=
  match x.2 with Ok r => r | Err _ => no_release end.
Definition promoted_release : ReleaseResult := release_of (promotion "a").

Lemma release_of_ok x : rl_released <$> x.2 = Ok true → x = (x.1, Ok (release_of x)) ∧ rl_released (release_of x) = true.
Proof. destruct x as [s [r|e]]; [|done]. cbn. by intros [= ->]. Qed.
Lemma promotion_eq package :
  promotion package =
  promote example_request (example_candidate package) (example_proposal package) example_thresholds
    (example_decision package) (Some true) true 7 (canary_life package).
Proof. reflexivity. Qed.
Lemma promotion_release :
  promotion "a" = ((promotion "a").1, Ok promoted_release) ∧ rl_released promoted_release = true.
Proof. apply release_of_ok. generalize lifecycle_example. generalize (promotion "a"). congruence. Qed.

Lemma promotion_gated_witness :
  states_of (filter (of_request example_request) (data (promotion "a").1))
    = map state_value (to_canary ++ [PROMOTED]).
Proof.
  destruct (promotion_gated example_request (example_candidate "a") (example_proposal "a") example_thresholds
    (example_decision "a") (Some true) true 7 (canary_life "a") (promotion "a").1 (Ok promoted_release))
    as [_ Hrel].
  - exact (canary_reachable "a").
  - rewrite <-(promotion_eq "a"). exact (proj1 promotion_release).
  - destruct (Hrel promoted_release) as (_ & Hs & _); [reflexivity|exact (proj2 promotion_release)|exact Hs].
Defined.

Lemma canary_passes_iff_witness :
  cn_passed (example_decision "a") = true ↔
  true = true ∧ 3 ≤ 3 ∧ 666666 * 3 ≤ 2 * 1000000 ∧ 0 = 0.
Proof.
  apply (canary_passes_iff (example_proposal "a") (example_evidence "a") example_thresholds (example_decision "a")).
  - vm_compute. reflexivity.
  - vm_compute. reflexivity.
  - vm_compute. reflexivity.
Defined.
