(* ===== verification/ControlModels.v ===== *)
(** * Access and audit contracts (controlplane/models.py)

    Principals, tenant memberships, authorization requests and decisions, audit events and
    records, with their validators and digest-bound constructors.  Timestamps are timezone-
    aware, in microseconds since the epoch. *)

From Stdlib Require Import Ascii.
From S2P Require Import Prelude.
From S2P Require Import Contracts.

(** ** Vocabulary *)

Inductive PrincipalType := HUMAN | SERVICE_ACCOUNT.
Inductive MembershipRole :=
| TENANT_ADMIN | OPERATOR | APPROVER | ADAPTER_DEVELOPER | AUDITOR | VIEWER | SERVICE_ACCOUNT_ROLE.
Inductive MembershipStatus := ACTIVE | DISABLED.
Inductive AccessAction :=
| TRANSACTION_CREATE | TRANSACTION_READ | TRANSACTION_APPROVE | TRANSACTION_CANCEL | AUDIT_READ
| MEMBERSHIP_MANAGE.
Inductive AuditResult := ALLOWED | DENIED | ERROR.

#[export] Instance PrincipalType_eq_dec : EqDecision PrincipalType.
Proof. solve_decision. Defined.
#[export] Instance MembershipRole_eq_dec : EqDecision MembershipRole.
Proof. solve_decision. Defined.
#[export] Instance MembershipStatus_eq_dec : EqDecision MembershipStatus.
Proof. solve_decision. Defined.
#[export] Instance AccessAction_eq_dec : EqDecision AccessAction.
Proof. solve_decision. Defined.
#[export] Instance AuditResult_eq_dec : EqDecision AuditResult.
Proof. solve_decision. Defined.

Definition PrincipalType_value (t : PrincipalType) : string :=
  match t with HUMAN => "HUMAN" | SERVICE_ACCOUNT => "SERVICE_ACCOUNT" end.
Definition MembershipRole_value (r : MembershipRole) : string :=
  match r with
  | TENANT_ADMIN => "tenant_admin" | OPERATOR => "operator" | APPROVER => "approver"
  | ADAPTER_DEVELOPER => "adapter_developer" | AUDITOR => "auditor" | VIEWER => "viewer"
  | SERVICE_ACCOUNT_ROLE => "service_account"
  end.
Definition MembershipStatus_value (s : MembershipStatus) : string :=
  match s with ACTIVE => "ACTIVE" | DISABLED => "DISABLED" end.
Definition AccessAction_value (a : AccessAction) : string :=
  match a with
  | TRANSACTION_CREATE => "transaction.create" | TRANSACTION_READ => "transaction.read"
  | TRANSACTION_APPROVE => "transaction.approve" | TRANSACTION_CANCEL => "transaction.cancel"
  | AUDIT_READ => "audit.read" | MEMBERSHIP_MANAGE => "membership.manage"
  end.
Definition AuditResult_value (r : AuditResult) : string :=
  match r with ALLOWED => "ALLOWED" | DENIED => "DENIED" | ERROR => "ERROR" end.

#[export] Instance MembershipRole_value_inj : Inj (=) (=) MembershipRole_value.
Proof. by intros [] []. Qed.

(** [ControlIssuer]; [ControlIdentifier] is [Identifier_ok] and [ControlName] is [Name_ok]. *)
Definition ControlIssuer_ok (s : string) : bool := bool_decide (strip s = s) && between 1 (len s) 2048.

(** ** Sensitive material *)

(** [_SECRET_KEY_RE]. *)
Definition control_secret_words : list string :=
  ["authorization"; "cookie"; "credential"; "password"; "secret"; "token"; "apikey"; "api_key"; "api-key"].
Definition secret_key (key : string) : bool := secret_search control_secret_words true key.

(** [\w] on the characters a string holds. *)
Definition word_char (c : ascii) : bool :=
  let z := code c in
  is_alnum c || is_upper c || (z =? 95) || (z =? 170) || (z =? 178) || (z =? 179) || (z =? 181)
  || (z =? 185) || (z =? 186) || between 188 z 190 || (between 192 z 255 && negb (z =? 215) && negb (z =? 247)).

Fixpoint skip_spaces (s : string) : string :=
  match s with
  | EmptyString => EmptyString
  | String c s' => if py_space c then skip_spaces s' else s
  end.
(** The rest of [s] after [word], ignoring case. *)
Fixpoint after_word (word s : string) : option string :=
  match word, s with
  | EmptyString, _ => Some s
  | String w word', String c s' => if bool_decide (to_lower c = w) then after_word word' s' else None
  | String _ _, EmptyString => None
  end.

(** [bearer\s+] or a secret word followed by [\s*[=:]]. *)
Definition assigned_words : list string :=
  ["password"; "secret"; "token"; "cookie"; "apikey"; "api_key"; "api-key"].
Definition secret_assignment_here (s : string) : bool :=
  match after_word "bearer" s with Some (String c _) => py_space c | _ => false end
  || existsb (λ w, match option_map skip_spaces (after_word w s) with
                   | Some (String c _) => (code c =? 61) || (code c =? 58)
                   | _ => false
                   end) assigned_words.
Fixpoint secret_assignment (after_word_char : bool) (s : string) : bool :=
  (negb after_word_char && secret_assignment_here s)
  || match s with String c s' => secret_assignment (word_char c) s' | EmptyString => false end.

(** [^eyJ[A-Za-z0-9_-]{12,}\.]. *)
Fixpoint token_run (n : nat) (s : string) : bool :=
  match s with
  | EmptyString => false
  | String c s' =>
      if is_alnum c || is_upper c || is_dash c then token_run (S n) s'
      else (12 <=? n)%nat && (code c =? 46)
  end.

(** [_SECRET_VALUE_RE.search]. *)
Definition secret_value (s : string) : bool :=
  secret_assignment false s
  || match after_word "eyj" s with Some s' => token_run 0 s' | None => false end
  || match s with
     | String c (String d (String e _)) =>
         (is_lower c || is_upper c) && (code d =? 58) && ((code e =? 92) || (code e =? 47))
     | _ => false
     end
  || match s with String c _ => code c =? 47 | EmptyString => false end.

Example secret_value_examples :
  map secret_value ["Bearer abc"; "api_key = x"; "mytoken: x"; "token: x"; "/etc/passwd"; "C:/x"; "a:b";
                    "eyJabcdefghijkl.x"; "eyJabc.x"; "forbearer x"]
  = [true; true; false; true; true; true; false; true; false; false].
Proof. reflexivity. Qed.

(** [AuditScalar = str | int | bool | None]. *)
Inductive AuditScalar := ANone | ABool (b : bool) | AInt (z : Z) | AStr (s : string).

#[export] Instance AuditScalar_eq_dec : EqDecision AuditScalar.
Proof. solve_decision. Defined.

Definition audit_scalar_json (v : AuditScalar) : json :=
  match v with ANone => JNull | ABool b => JBool b | AInt z => JInt z | AStr s => JStr s end.

(** [reject_sensitive_details], per item, with the key's own constraint. *)
Definition detail_ok (kv : string * AuditScalar) : bool :=
  Name_ok kv.1 && negb (secret_key kv.1)
  && match kv.2 with
     | AStr s => bool_decide (strip s = s) && (len s <=? 512) && negb (secret_value s)
     | _ => true
     end.

(** ** Contracts *)

Record Principal := {
  pc_issuer : string;
  pc_subject : string;
  pc_principal_type : PrincipalType;
  pc_audiences : list string;
  pc_client_id : option string;
  pc_token_id_digest : string;
  pc_issued_at : Z;
  pc_expires_at : Z;
  pc_authenticated_at : Z }.

Record TenantMembership := {
  mb_membership_id : string;
  mb_issuer : string;
  mb_subject : string;
  mb_principal_type : PrincipalType;
  mb_tenant_id : string;
  mb_environment_id : string;
  mb_role : MembershipRole;
  mb_status : MembershipStatus;
  mb_revision : Z;
  mb_created_at : Z;
  mb_updated_at : Z;
  mb_membership_digest : string }.

Record AuthorizationRequest := {
  az_principal : Principal;
  az_tenant_id : string;
  az_environment_id : string;
  az_action : AccessAction;
  az_resource_type : string;
  az_resource_id : option string;
  az_evaluated_at : Z }.

Record AuthorizationDecision := {
  ad_request : AuthorizationRequest;
  ad_allowed : bool;
  ad_reason_code : string;
  ad_matched_roles : list MembershipRole;
  ad_membership_revision : option Z;
  ad_decision_digest : string }.

Record AuditEvent := {
  au_event_id : string;
  au_tenant_id : string;
  au_environment_id : string;
  au_actor_issuer : string;
  au_actor_subject : string;
  au_actor_type : PrincipalType;
  au_action : AccessAction;
  au_resource_type : string;
  au_resource_id : option string;
  au_result : AuditResult;
  au_reason_code : string;
  au_request_id : string;
  au_authorization_decision_digest : option string;
  au_before_digest : option string;
  au_after_digest : option string;
  au_details : list (string * AuditScalar);
  au_occurred_at : Z;
  au_event_digest : string }.

Record AuditRecord := {
  rc_sequence : Z;
  rc_event : AuditEvent;
  rc_previous_record_digest : option string;
  rc_record_digest : string }.

#[export] Instance Principal_eq_dec : EqDecision Principal.
Proof. solve_decision. Defined.
#[export] Instance AuthorizationRequest_eq_dec : EqDecision AuthorizationRequest.
Proof. solve_decision. Defined.
#[export] Instance TenantMembership_eq_dec : EqDecision TenantMembership.
Proof. solve_decision. Defined.
#[export] Instance AuditEvent_eq_dec : EqDecision AuditEvent.
Proof. solve_decision. Defined.

(** ** Dumps, without the digest *)

Definition time_json (t : Z) : json := JStr (isoformat t).

Definition principal_json (p : Principal) : json := JObj [
  ("schema_version", JStr "cargomesh.principal/v1"); ("issuer", JStr (pc_issuer p));
  ("subject", JStr (pc_subject p)); ("principal_type", JStr (PrincipalType_value (pc_principal_type p)));
  ("audiences", json_strs (pc_audiences p)); ("client_id", json_opt JStr (pc_client_id p));
  ("token_id_digest", JStr (pc_token_id_digest p)); ("issued_at", time_json (pc_issued_at p));
  ("expires_at", time_json (pc_expires_at p)); ("authenticated_at", time_json (pc_authenticated_at p))].

Definition membership_json (m : TenantMembership) : json := JObj [
  ("schema_version", JStr "cargomesh.membership/v1"); ("membership_id", JStr (mb_membership_id m));
  ("issuer", JStr (mb_issuer m)); ("subject", JStr (mb_subject m));
  ("principal_type", JStr (PrincipalType_value (mb_principal_type m)));
  ("tenant_id", JStr (mb_tenant_id m)); ("environment_id", JStr (mb_environment_id m));
  ("role", JStr (MembershipRole_value (mb_role m)));
  ("status", JStr (MembershipStatus_value (mb_status m))); ("revision", JInt (mb_revision m));
  ("created_at", time_json (mb_created_at m)); ("updated_at", time_json (mb_updated_at m))].

Definition authorization_request_json (r : AuthorizationRequest) : json := JObj [
  ("principal", principal_json (az_principal r)); ("tenant_id", JStr (az_tenant_id r));
  ("environment_id", JStr (az_environment_id r)); ("action", JStr (AccessAction_value (az_action r)));
  ("resource_type", JStr (az_resource_type r)); ("resource_id", json_opt JStr (az_resource_id r));
  ("evaluated_at", time_json (az_evaluated_at r))].

Definition authorization_decision_json (d : AuthorizationDecision) : json := JObj [
  ("schema_version", JStr "cargomesh.authorization-decision/v1");
  ("request", authorization_request_json (ad_request d)); ("allowed", JBool (ad_allowed d));
  ("reason_code", JStr (ad_reason_code d));
  ("matched_roles", json_strs (map MembershipRole_value (ad_matched_roles d)));
  ("membership_revision", json_opt JInt (ad_membership_revision d))].

Definition event_fields (e : AuditEvent) : list (string * json) := [
  ("schema_version", JStr "cargomesh.audit-event/v1"); ("event_id", JStr (au_event_id e));
  ("tenant_id", JStr (au_tenant_id e)); ("environment_id", JStr (au_environment_id e));
  ("actor_issuer", JStr (au_actor_issuer e)); ("actor_subject", JStr (au_actor_subject e));
  ("actor_type", JStr (PrincipalType_value (au_actor_type e)));
  ("action", JStr (AccessAction_value (au_action e))); ("resource_type", JStr (au_resource_type e));
  ("resource_id", json_opt JStr (au_resource_id e)); ("result", JStr (AuditResult_value (au_result e)));
  ("reason_code", JStr (au_reason_code e)); ("request_id", JStr (au_request_id e));
  ("authorization_decision_digest", json_opt JStr (au_authorization_decision_digest e));
  ("before_digest", json_opt JStr (au_before_digest e));
  ("after_digest", json_opt JStr (au_after_digest e));
  ("details", JObj (map (λ kv, (kv.1, audit_scalar_json kv.2)) (au_details e)));
  ("occurred_at", time_json (au_occurred_at e))].

Definition record_json (r : AuditRecord) : json := JObj [
  ("schema_version", JStr "cargomesh.audit-record/v1"); ("sequence", JInt (rc_sequence r));
  ("event", JObj (event_fields (rc_event r) ++ [("event_digest", JStr (au_event_digest (rc_event r)))]));
  ("previous_record_digest", json_opt JStr (rc_previous_record_digest r))].

(** ** Validators and [issue] *)

Definition max_revision : Z := 2 ^ 63 - 1.

(** [validate_principal], after the fields. *)
Definition validate_principal (p : Principal) : result string () :=
  raise_if (negb (ControlIssuer_ok (pc_issuer p) && Identifier_ok (pc_subject p)
                  && between 1 (Z.of_nat (length (pc_audiences p))) 8
                  && forallb Identifier_ok (pc_audiences p) && opt_ok Identifier_ok (pc_client_id p)
                  && Digest_ok (pc_token_id_digest p))) "field constraint";;
  raise_if (has_duplicates (pc_audiences p)) "principal audiences must be unique";;
  raise_if (pc_expires_at p <=? pc_issued_at p) "principal expiry must be after issue time";;
  raise_if (negb ((pc_issued_at p <=? pc_authenticated_at p) && (pc_authenticated_at p <? pc_expires_at p)))
    "authentication time must be inside token lifetime".

Definition validate_authorization_request (r : AuthorizationRequest) : result string () :=
  validate_principal (az_principal r);;
  raise_if (negb (Identifier_ok (az_tenant_id r) && Identifier_ok (az_environment_id r)
                  && Name_ok (az_resource_type r) && opt_ok Identifier_ok (az_resource_id r)))
    "field constraint".

Section digests.
Context `{Sha256, FloatRepr}.

(** [validate_membership]. *)
Definition validate_membership (m : TenantMembership) : result string () :=
  raise_if (negb (Identifier_ok (mb_membership_id m) && ControlIssuer_ok (mb_issuer m)
                  && Identifier_ok (mb_subject m) && Identifier_ok (mb_tenant_id m)
                  && Identifier_ok (mb_environment_id m) && between 1 (mb_revision m) max_revision
                  && Digest_ok (mb_membership_digest m))) "field constraint";;
  raise_if (mb_updated_at m <? mb_created_at m) "membership update time cannot precede creation";;
  raise_if (negb (bool_decide (mb_membership_digest m = value_digest (membership_json m))))
    "membership digest does not match".

Definition with_membership_digest (m : TenantMembership) (digest : string) : TenantMembership := {|
  mb_membership_id := mb_membership_id m; mb_issuer := mb_issuer m; mb_subject := mb_subject m;
  mb_principal_type := mb_principal_type m; mb_tenant_id := mb_tenant_id m;
  mb_environment_id := mb_environment_id m; mb_role := mb_role m; mb_status := mb_status m;
  mb_revision := mb_revision m; mb_created_at := mb_created_at m; mb_updated_at := mb_updated_at m;
  mb_membership_digest := digest |}.
(** [TenantMembership.issue]; the digest given is ignored. *)
Definition issue_membership (m : TenantMembership) : result string TenantMembership :=
  let m' := with_membership_digest m (value_digest (membership_json m)) in
  validate_membership m';; Ok m'.

(** [validate_decision]. *)
Definition validate_decision (d : AuthorizationDecision) : result string () :=
  raise_if (negb (Name_ok (ad_reason_code d) && max_length 7 (ad_matched_roles d)
                  && opt_ok (λ r, between 1 r max_revision) (ad_membership_revision d)
                  && Digest_ok (ad_decision_digest d))) "field constraint";;
  raise_if (has_duplicates (ad_matched_roles d)) "authorization roles must be unique";;
  raise_if (negb (bool_decide (sorted_by MembershipRole_value String.le (ad_matched_roles d)
                               = ad_matched_roles d))) "authorization roles must be sorted";;
  raise_if (ad_allowed d && (bool_decide (ad_matched_roles d = []) || is_none (ad_membership_revision d)))
    "allowed authorization requires matching membership";;
  raise_if (negb (bool_decide (ad_decision_digest d = value_digest (authorization_decision_json d))))
    "authorization decision digest does not match".

(** [AuthorizationDecision.issue]. *)
Definition issue_decision (request : AuthorizationRequest) (allowed : bool) (reason : string)
    (roles : list MembershipRole) (revision : option Z) : result string AuthorizationDecision :=
  let unsigned digest := {| ad_request := request; ad_allowed := allowed; ad_reason_code := reason;
    ad_matched_roles := roles; ad_membership_revision := revision; ad_decision_digest := digest |} in
  let d := unsigned (value_digest (authorization_decision_json (unsigned EmptyString))) in
  validate_decision d;; Ok d.

(** [validate_event], after the fields. *)
Definition validate_event (e : AuditEvent) : result string () :=
  raise_if (negb (Identifier_ok (au_event_id e) && Identifier_ok (au_tenant_id e)
                  && Identifier_ok (au_environment_id e) && ControlIssuer_ok (au_actor_issuer e)
                  && Identifier_ok (au_actor_subject e) && Name_ok (au_resource_type e)
                  && opt_ok Identifier_ok (au_resource_id e) && Name_ok (au_reason_code e)
                  && Identifier_ok (au_request_id e)
                  && optional_digest_ok (au_authorization_decision_digest e)
                  && optional_digest_ok (au_before_digest e) && optional_digest_ok (au_after_digest e)
                  && max_length 16 (au_details e) && Digest_ok (au_event_digest e))) "field constraint";;
  raise_if (negb (forallb detail_ok (au_details e))) "audit details contain secret-like material";;
  raise_if (negb (bool_decide (au_event_digest e = value_digest (JObj (event_fields e)))))
    "audit event digest does not match".

Definition with_event_digest (e : AuditEvent) (digest : string) : AuditEvent := {|
  au_event_id := au_event_id e; au_tenant_id := au_tenant_id e; au_environment_id := au_environment_id e;
  au_actor_issuer := au_actor_issuer e; au_actor_subject := au_actor_subject e;
  au_actor_type := au_actor_type e; au_action := au_action e; au_resource_type := au_resource_type e;
  au_resource_id := au_resource_id e; au_result := au_result e; au_reason_code := au_reason_code e;
  au_request_id := au_request_id e;
  au_authorization_decision_digest := au_authorization_decision_digest e;
  au_before_digest := au_before_digest e; au_after_digest := au_after_digest e;
  au_details := au_details e; au_occurred_at := au_occurred_at e; au_event_digest := digest |}.
(** [AuditEvent.issue]. *)
Definition issue_event (e : AuditEvent) : result string AuditEvent :=
  let e' := with_event_digest e (value_digest (JObj (event_fields e))) in
  validate_event e';; Ok e'.

(** [validate_record], with the event's own validation. *)
Definition validate_record (r : AuditRecord) : result string () :=
  validate_event (rc_event r);;
  raise_if (negb (between 1 (rc_sequence r) max_revision && optional_digest_ok (rc_previous_record_digest r)
                  && Digest_ok (rc_record_digest r))) "field constraint";;
  raise_if ((rc_sequence r =? 1) && negb (is_none (rc_previous_record_digest r)))
    "first audit record cannot have a previous digest";;
  raise_if ((1 <? rc_sequence r) && is_none (rc_previous_record_digest r))
    "later audit records require a previous digest";;
  raise_if (negb (bool_decide (rc_record_digest r = value_digest (record_json r))))
    "audit record digest does not match".

(** [AuditRecord.issue]. *)
Definition issue_record (sequence : Z) (event : AuditEvent) (previous : option string)
    : result string AuditRecord :=
  let unsigned digest := {| rc_sequence := sequence; rc_event := event;
    rc_previous_record_digest := previous; rc_record_digest := digest |} in
  let r := unsigned (value_digest (record_json (unsigned EmptyString))) in
  validate_record r;; Ok r.

(** ** Lemmas *)

Lemma issue_membership_inv m m' :
  issue_membership m = Ok m' →
  validate_membership m' = Ok () ∧ m' = with_membership_digest m (value_digest (membership_json m)).
Proof. unfold issue_membership. by intros ([] & Hv & [= <-])%bind_ok. Qed.

Lemma issue_record_inv sequence event previous r :
  issue_record sequence event previous = Ok r →
  validate_record r = Ok () ∧ rc_sequence r = sequence ∧ rc_event r = event ∧
  rc_previous_record_digest r = previous ∧ rc_record_digest r = value_digest (record_json r).
Proof. unfold issue_record. by intros ([] & Hv & [= <-])%bind_ok. Qed.

Lemma issue_event_inv e e' :
  issue_event e = Ok e' → validate_event e' = Ok () ∧ e' = with_event_digest e (value_digest (JObj (event_fields e))).
Proof. unfold issue_event. by intros ([] & Hv & [= <-])%bind_ok. Qed.

End digests.
