(* ===== verification/AuditChain.v ===== *)
(** * Audit hash chains (controlplane/audit.py)

    The append-only ledger of audit events, one digest-linked chain per tenant, and the
    verification of a chain.  A row keeps its columns and what its two JSON columns parse to
    ([None] when they do not parse), so that verification is defined on any database, not only
    on one the store has written.  Rows are in insertion order. *)

From Stdlib Require Import Ascii SpecFloat.
From S2P Require Import Prelude.
From S2P Require Import Contracts.
From S2P Require Import Documents.
From S2P Require Import JsonText.
From S2P Require Import Sqlite.
From S2P Require Import ControlModels.

Inductive AuditError :=
| AuditConflict
| AuditStoreError (code : string).

Record AuditRow := {
  aw_tenant_id : string;
  aw_sequence : Z;
  aw_event_id : string;
  aw_event_digest : string;
  aw_previous_record_digest : option string;
  aw_record_digest : string;
  aw_event : option AuditEvent;
  aw_record : option AuditRecord }.

Notation AuditStore := (Connection (list AuditRow)).

Definition empty_audit : AuditStore := connect [].
Definition store_closed : AuditError := AuditStoreError "store_closed".
Definition audit_unavailable : AuditError := AuditStoreError "audit_store_unavailable".
Definition integrity_error : AuditError := AuditStoreError "audit_integrity_error".

(** [ChainVerification]. *)
Record ChainVerification := {
  cv_valid : bool;
  cv_checked_count : nat;
  cv_first_broken_sequence : option Z;
  cv_reason : option string }.

Section store.
Context `{Sha256, FloatRepr}.

(** [_decode_record] and [_decode_event]. *)
Definition decode_record (row : AuditRow) : result AuditError AuditRecord :=
  match aw_record row with
  | None => Err integrity_error
  | Some r =>
      match validate_record r with
      | Err _ => Err integrity_error
      | Ok _ => raise_if (negb (bool_decide (rc_record_digest r = aw_record_digest row))) integrity_error;; Ok r
      end
  end.
Definition decode_event (row : AuditRow) : result AuditError AuditEvent :=
  match aw_event row with
  | None => Err integrity_error
  | Some e =>
      match validate_event e with
      | Err _ => Err integrity_error
      | Ok _ => raise_if (negb (bool_decide (au_event_digest e = aw_event_digest row))) integrity_error;; Ok e
      end
  end.

(** [WHERE tenant_id=? ORDER BY sequence ASC]. *)
Definition tenant_rows (rows : list AuditRow) (tenant_id : string) : list AuditRow :=
  filter (λ r, aw_tenant_id r = tenant_id) rows.
Definition chain_rows (rows : list AuditRow) (tenant_id : string) : list AuditRow :=
  sorted_by aw_sequence Z.le (tenant_rows rows tenant_id).

(** [WHERE tenant_id=? AND event_id=?], [fetchone]. *)
Definition find_event (rows : list AuditRow) (tenant_id event_id : string) : option AuditRow :=
  List.find (λ r, bool_decide (aw_tenant_id r = tenant_id) && bool_decide (aw_event_id r = event_id)) rows.

(** [append]. *)
Definition row_of (r : AuditRecord) : AuditRow := {|
  aw_tenant_id := au_tenant_id (rc_event r); aw_sequence := rc_sequence r;
  aw_event_id := au_event_id (rc_event r); aw_event_digest := au_event_digest (rc_event r);
  aw_previous_record_digest := rc_previous_record_digest r; aw_record_digest := rc_record_digest r;
  aw_event := Some (rc_event r); aw_record := Some r |}.
Definition append_body (value : AuditEvent) (rows : list AuditRow)
    : result AuditError (list AuditRow * AuditRecord) :=
  match find_event rows (au_tenant_id value) (au_event_id value) with
  | Some row =>
      old ← decode_record row;
      old_event ← decode_event row;
      raise_if (negb (bool_decide (au_event_id (rc_event old) = au_event_id value))
                || negb (bool_decide (au_event_digest (rc_event old) = au_event_digest old_event))
                || negb (bool_decide (au_event_digest (rc_event old) = au_event_digest value)))
        AuditConflict;;
      Ok (rows, old)
  | None =>
      let latest := last (chain_rows rows (au_tenant_id value)) in
      match issue_record (default 0 (aw_sequence <$> latest) + 1) value (aw_record_digest <$> latest) with
      | Err _ => Err (AuditStoreError "invalid_audit_event")
      | Ok r => Ok (rows ++ [row_of r], r)
      end
  end.
Definition append (event : AuditEvent) : AuditStore → AuditStore * result AuditError AuditRecord :=
  operation (λ _, true) store_closed audit_unavailable
    (revalidate (validate_event event) (AuditStoreError "invalid_audit_event")) (append_body event).

(** [get]. *)
Definition get (s : AuditStore) (tenant_id event_id : string) : result AuditError (option AuditRecord) :=
  ensure_open store_closed s;;
  match find_event (cn_data s) tenant_id event_id with
  | None => Ok None
  | Some row => r ← decode_record row; Ok (Some r)
  end.

(** [list], with its keyword arguments; the environment is read from the event's JSON. *)
Definition environment_is (environment_id : option string) (row : AuditRow) : bool :=
  match environment_id with
  | None => true
  | Some e => match aw_event row with
              | Some ev => bool_decide (au_environment_id ev = e)
              | None => false
              end
  end.
Definition list_records (s : AuditStore) (tenant_id : string) (environment_id : option string) (limit : Z)
    : result AuditError (list AuditRecord) :=
  ensure_open store_closed s;;
  raise_if (negb (between 0 limit 1000)) (AuditStoreError "invalid_limit");;
  mapM_result decode_record
    (take (Z.to_nat limit) (List.filter (environment_is environment_id) (chain_rows (cn_data s) tenant_id))).

(** [verify_chain]: the loop over the rows. *)
Definition broken (index : nat) (sequence : Z) (reason : string) : ChainVerification := {|
  cv_valid := false; cv_checked_count := index; cv_first_broken_sequence := Some sequence;
  cv_reason := Some reason |}.
Definition error_code (e : AuditError) : string :=
  match e with AuditConflict => "audit_conflict" | AuditStoreError code => code end.
Fixpoint verify_rows (tenant_id : string) (index : nat) (expected : Z) (previous : option string)
    (rows : list AuditRow) : ChainVerification :=
  match rows with
  | [] => {| cv_valid := true; cv_checked_count := index; cv_first_broken_sequence := None; cv_reason := None |}
  | row :: rows' =>
      let sequence := aw_sequence row in
      if negb (sequence =? expected) then broken index sequence "sequence_gap"
      else
        match decode_record row with
        | Err e => broken index sequence (error_code e)
        | Ok r =>
            match decode_event row with
            | Err e => broken index sequence (error_code e)
            | Ok event =>
                if negb (rc_sequence r =? sequence)
                   || negb (bool_decide (au_event_digest (rc_event r) = aw_event_digest row))
                   || negb (bool_decide (aw_event_id row = au_event_id (rc_event r)))
                   || negb (bool_decide (event = rc_event r))
                   || negb (bool_decide (aw_previous_record_digest row = rc_previous_record_digest r))
                then broken index sequence "stored_fields_mismatch"
                else if negb (bool_decide (rc_previous_record_digest r = previous))
                then broken index sequence "previous_digest_mismatch"
                else if negb (bool_decide (au_tenant_id (rc_event r) = tenant_id))
                then broken index sequence "tenant_mismatch"
                else verify_rows tenant_id (S index) (expected + 1) (Some (rc_record_digest r)) rows'
            end
        end
  end.
Definition verify_chain (s : AuditStore) (tenant_id : string) : result AuditError ChainVerification :=
  ensure_open store_closed s;;
  Ok (verify_rows tenant_id 0 1 None (chain_rows (cn_data s) tenant_id)).

(** ** Histories *)

Inductive audit_step (s : AuditStore) : AuditStore → Prop :=
| as_append event : audit_step s (append event s).1
| as_close : audit_step s (close s).

Definition audit_reachable (s : AuditStore) : Prop := star audit_step empty_audit s.

(** ** A verified chain *)

(** What the loop accepts: the records, numbered and linked. *)
Inductive chain_of (tenant_id : string) : Z → option string → list AuditRow → list AuditRecord → Prop :=
| chain_nil expected previous : chain_of tenant_id expected previous [] []
| chain_cons expected previous row rows r records :
    aw_sequence row = expected → decode_record row = Ok r → decode_event row = Ok (rc_event r) →
    rc_sequence r = expected → aw_event_id row = au_event_id (rc_event r) →
    aw_previous_record_digest row = rc_previous_record_digest r →
    rc_previous_record_digest r = previous → au_tenant_id (rc_event r) = tenant_id →
    chain_of tenant_id (expected + 1) (Some (rc_record_digest r)) rows records →
    chain_of tenant_id expected previous (row :: rows) (r :: records).

Lemma decode_record_ok row r :
  decode_record row = Ok r ↔
  aw_record row = Some r ∧ validate_record r = Ok () ∧ rc_record_digest r = aw_record_digest row.
Proof.
  unfold decode_record. destruct (aw_record row) as [r'|]; [|by split; [|intros [? _]]].
  destruct (validate_record r') as [[]|e] eqn:E;
    [|by split; [|intros ([= <-] & Hv & _); rewrite E in Hv]].
  rewrite raise_if_then, negb_false_iff, bool_decide_eq_true. split.
  - by intros [Hd [= <-]].
  - by intros ([= <-] & _ & Hd).
Qed.

Lemma decode_event_ok row e :
  decode_event row = Ok e ↔
  aw_event row = Some e ∧ validate_event e = Ok () ∧ au_event_digest e = aw_event_digest row.
Proof.
  unfold decode_event. destruct (aw_event row) as [e'|]; [|by split; [|intros [? _]]].
  destruct (validate_event e') as [[]|m] eqn:E;
    [|by split; [|intros ([= <-] & Hv & _); rewrite E in Hv]].
  rewrite raise_if_then, negb_false_iff, bool_decide_eq_true. split.
  - by intros [Hd [= <-]].
  - by intros ([= <-] & _ & Hd).
Qed.

Lemma verify_rows_count tenant_id index expected previous rows :
  cv_valid (verify_rows tenant_id index expected previous rows) = true →
  cv_checked_count (verify_rows tenant_id index expected previous rows) = (index + length rows)%nat.
Proof.
  revert index expected previous. induction rows as [|row rows IH]; intros index expected previous;
    cbn [verify_rows length]; [intros _; cbn; lia|].
  destruct (negb _); [done|]. destruct (decode_record row); [|done]. destruct (decode_event row); [|done].
  destruct (_ || _); [done|]. destruct (negb _); [done|]. destruct (negb _); [done|].
  intros Hv. rewrite IH by done. lia.
Qed.

Lemma verify_rows_valid tenant_id index expected previous rows :
  cv_valid (verify_rows tenant_id index expected previous rows) = true ↔
  ∃ records, chain_of tenant_id expected previous rows records.
Proof.
  revert index expected previous. induction rows as [|row rows IH]; intros index expected previous.
  - split; [|done]. intros _. exists []. constructor.
  - cbn [verify_rows]. split.
    + destruct (negb _) eqn:E1; [done|]. destruct (decode_record row) as [r|] eqn:Er; [|done].
      destruct (decode_event row) as [e|] eqn:Ee; [|done]. destruct (_ || _) eqn:E2; [done|].
      destruct (negb (bool_decide (rc_previous_record_digest r = previous))) eqn:E3; [done|].
      destruct (negb (bool_decide (au_tenant_id (rc_event r) = tenant_id))) eqn:E4; [done|].
      intros [records Hc]%IH. boolify. exists (r :: records). subst e.
      constructor; first [done|congruence].
    + intros [records Hc]. inversion Hc as [|? ? ? ? r records' Eq Er Ee Es Eid Ep Eprev Et Hrest]; subst.
      rewrite Er, Ee. apply decode_record_ok in Er as (_ & _ & Er). apply decode_event_ok in Ee as (_ & _ & Ee).
      rewrite Es, Eid, Ep, Ee, !Z.eqb_refl, !bool_decide_eq_true_2 by done. cbn [negb orb].
      apply IH. eauto.
Qed.

(** ** The invariant of the store's own database *)

Definition tenant_event (row : AuditRow) : string * string := (aw_tenant_id row, aw_event_id row).

Record ledger_ok (rows : list AuditRow) : Prop := {
  lo_rows : ∀ row, row ∈ rows → ∃ r, row = row_of r ∧ validate_record r = Ok ();
  lo_chain : ∀ tenant_id, ∃ records, chain_of tenant_id 1 None (tenant_rows rows tenant_id) records;
  lo_events : NoDup (map tenant_event rows) }.

Lemma chain_sequences tenant_id expected previous rows records :
  chain_of tenant_id expected previous rows records →
  aw_sequence <$> rows = seqZ expected (Z.of_nat (length rows)) ∧ length records = length rows.
Proof.
  induction 1 as [|expected previous row rows r records Eq _ _ _ _ _ _ _ _ [IH1 IH2]]; [done|].
  rewrite fmap_cons, IH1, Eq. cbn [length]. rewrite IH2, (seqZ_cons expected) by lia.
  split; [|done]. f_equal. f_equal; lia.
Qed.

Lemma seqZ_sorted m n : StronglySorted Z.le (seqZ m n).
Proof.
  unfold seqZ. generalize (Z.to_nat n). intros k. clear n. revert m.
  assert (∀ i m, StronglySorted Z.le ((λ j, Z.add j m) ∘ Z.of_nat <$> seq i k)) as Hall.
  { induction k as [|k IH]; intros i m; [constructor|]. cbn [seq]. rewrite fmap_cons. constructor; [apply IH|].
    apply Forall_forall. intros z (x & -> & Hx)%list_elem_of_fmap. apply elem_of_seq in Hx. cbn. lia. }
  intros m. apply (Hall 0%nat).
Qed.

(** Rows in sequence order are what [ORDER BY sequence] returns. *)
Lemma sorted_rows tenant_id expected previous rows records :
  chain_of tenant_id expected previous rows records → sorted_by aw_sequence Z.le rows = rows.
Proof.
  intros [Eseq _]%chain_sequences. apply (sorted_by_strong aw_sequence Z.le); [rewrite Eseq; apply NoDup_seqZ|done|].
  clear -Eseq. pose proof (seqZ_sorted expected (Z.of_nat (length rows))) as Hs. rewrite <-Eseq in Hs.
  clear Eseq. induction rows as [|row rows IH]; [constructor|]. rewrite fmap_cons in Hs.
  apply StronglySorted_cons in Hs as [Hall Hs]. constructor; [by apply IH|].
  rewrite Forall_fmap in Hall. exact Hall.
Qed.

(** ** Appending *)

Lemma row_of_decodes r :
  validate_record r = Ok () → decode_record (row_of r) = Ok r ∧ decode_event (row_of r) = Ok (rc_event r).
Proof.
  intros Hv. split; [by apply decode_record_ok|]. apply decode_event_ok.
  unfold validate_record in Hv. apply bind_ok in Hv as ([] & He & _). done.
Qed.

Lemma chain_snoc tenant_id expected previous rows records r :
  chain_of tenant_id expected previous rows records → validate_record r = Ok () →
  au_tenant_id (rc_event r) = tenant_id →
  rc_sequence r = default (expected - 1) (aw_sequence <$> last rows) + 1 →
  rc_previous_record_digest r = match last rows with Some w => Some (aw_record_digest w) | None => previous end →
  chain_of tenant_id expected previous (rows ++ [row_of r]) (records ++ [r]).
Proof.
  intros Hc Hv Ht. destruct (row_of_decodes r Hv) as [Hr He].
  induction Hc as [expected previous|expected previous row rows r0 records Eq Er Ee Es Eid Ep Eprev Et _ IH];
    cbn [last fmap option_fmap option_map default app].
  - intros Eseq Eprev. constructor; try done; cbn; [lia..|constructor].
  - intros Eseq Epr. constructor; try done. apply decode_record_ok in Er as (_ & _ & Er). apply IH.
    + rewrite Eseq. destruct rows as [|row1 rows]; [cbn; lia|]. rewrite last_cons_cons.
      destruct (last (row1 :: rows)) eqn:El; [done|by apply last_None in El].
    + rewrite Epr. destruct rows as [|row1 rows]; [by rewrite Er|]. rewrite last_cons_cons.
      destruct (last (row1 :: rows)) eqn:El; [done|by apply last_None in El].
Qed.

Lemma find_event_Some rows tenant_id event_id row :
  find_event rows tenant_id event_id = Some row → row ∈ rows ∧ tenant_event row = (tenant_id, event_id).
Proof.
  unfold find_event. intros [Hin Hb]%List.find_some. rewrite <-list_elem_of_In in Hin. boolify.
  unfold tenant_event. split; [done|congruence].
Qed.

Lemma find_event_None rows tenant_id event_id :
  find_event rows tenant_id event_id = None → (tenant_id, event_id) ∉ map tenant_event rows.
Proof.
  unfold find_event. intros Hn (row & E & Hin)%list_elem_of_fmap.
  apply list_elem_of_In in Hin. pose proof (List.find_none _ _ Hn _ Hin) as Hb.
  unfold tenant_event in E. injection E as -> ->. by rewrite !bool_decide_eq_true_2 in Hb.
Qed.

Lemma find_event_unique rows row :
  NoDup (map tenant_event rows) → row ∈ rows →
  find_event rows (aw_tenant_id row) (aw_event_id row) = Some row.
Proof.
  intros Hn Hin. destruct (find_event rows _ _) as [row'|] eqn:E.
  - apply find_event_Some in E as [Hin' E]. f_equal.
    apply list_elem_of_lookup in Hin as [i Hi]. apply list_elem_of_lookup in Hin' as [j Hj].
    assert (i = j) as <-; [|congruence].
    eapply NoDup_lookup; [exact Hn|..]; rewrite list_lookup_fmap; [by rewrite Hi|by rewrite Hj; cbn; rewrite E].
  - apply find_event_None in E as []. apply list_elem_of_fmap. by exists row.
Qed.

Lemma audit_append_ok value rows rows' r :
  ledger_ok rows → append_body value rows = Ok (rows', r) →
  validate_record r = Ok () ∧ au_tenant_id (rc_event r) = au_tenant_id value ∧
  au_event_id (rc_event r) = au_event_id value ∧ au_event_digest (rc_event r) = au_event_digest value ∧
  row_of r ∈ rows' ∧ rows `prefix_of` rows' ∧ ledger_ok rows'.
Proof.
  intros Hok. pose proof Hok as [Hrows Hchain Hev]. unfold append_body.
  destruct (find_event _ _ _) as [row|] eqn:Ef.
  - apply find_event_Some in Ef as [Hin Ek]. destruct (Hrows _ Hin) as (r0 & -> & Hv).
    destruct (row_of_decodes r0 Hv) as [-> ->]. cbn [mbind result_bind].
    rewrite raise_if_then. intros [Hc [= <- <-]]. boolify. injection Ek as Et Ei. by split_and!.
  - destruct (Hchain (au_tenant_id value)) as [records Hc].
    unfold chain_rows. rewrite (sorted_rows _ _ _ _ _ Hc).
    destruct (issue_record _ _ _) as [r0|] eqn:Ei; [|done]. intros [= <- <-].
    apply issue_record_inv in Ei as (Hv & Eseq & Eev & Eprev & _). rewrite Eev.
    assert (row_of r0 ∈ rows ++ [row_of r0]) as Hin by (apply elem_of_app; right; by left).
    split_and!; try done; [by eexists|]. split.
    + intros row [Hr| ->%list_elem_of_singleton]%elem_of_app; [by apply Hrows|eauto].
    + intros tenant_id. unfold tenant_rows. rewrite filter_app.
      destruct (decide (aw_tenant_id (row_of r0) = tenant_id)) as [<-|Hne].
      * rewrite (filter_cons_True _ (row_of r0)), filter_nil by done. cbn [row_of aw_tenant_id]. rewrite Eev.
        exists (records ++ [r0]). apply chain_snoc; [done|done|by rewrite Eev|done|].
        rewrite Eprev. unfold tenant_rows. by destruct (last _).
      * rewrite (filter_cons_False _ (row_of r0)), filter_nil, app_nil_r by done. apply Hchain.
    + rewrite map_app. apply NoDup_app. split_and!; [done| |apply NoDup_singleton].
      intros k Hk ->%list_elem_of_singleton. apply find_event_None in Ef. apply Ef.
      revert Hk. unfold tenant_event. cbn. by rewrite Eev.
Qed.

Lemma chain_last tenant_id expected previous rows records row :
  chain_of tenant_id expected previous rows records → last rows = Some row →
  aw_sequence row = expected + Z.of_nat (length rows) - 1 ∧ Digest_ok (aw_record_digest row) = true.
Proof.
  intros Hc. revert row. induction Hc as [|expected previous row rows r records Eq Er Ee Es Eid Ep Eprev Et Hc IH];
    [done|]. intros row' Hl. cbn [length]. destruct rows as [|row1 rows].
  - injection Hl as <-. split; [cbn; lia|]. apply decode_record_ok in Er as (_ & Hv & <-).
    unfold validate_record in Hv. apply bind_ok in Hv as ([] & _ & Hv). apply raise_if_then in Hv as [Hf _].
    boolify. done.
  - rewrite last_cons_cons in Hl. apply IH in Hl as [-> ?]. split; [lia|done].
Qed.

(** A valid event with a new id extends its tenant's chain. *)
Lemma append_body_new `{!Sha256Laws} value rows :
  ledger_ok rows → find_event rows (au_tenant_id value) (au_event_id value) = None →
  validate_event value = Ok () → Z.of_nat (length (tenant_rows rows (au_tenant_id value))) < max_revision →
  ∃ r, append_body value rows = Ok (rows ++ [row_of r], r) ∧ rc_event r = value.
Proof.
  intros [_ Hchain _] Hf Hv Hlen. unfold append_body. rewrite Hf.
  destruct (Hchain (au_tenant_id value)) as [records Hc]. unfold chain_rows. rewrite (sorted_rows _ _ _ _ _ Hc).
  destruct (issue_record _ _ _) as [r|m] eqn:Ei; [exists r; by apply issue_record_inv in Ei as (_ & _ & -> & _)|].
  exfalso. revert Ei. unfold issue_record, validate_record. cbn [rc_event rc_sequence rc_previous_record_digest
    rc_record_digest]. rewrite Hv, value_digest_ok. cbn [mbind result_bind].
  destruct (last _) as [row|] eqn:El; cbn [fmap option_fmap option_map default id is_none optional_digest_ok].
  - destruct (chain_last _ _ _ _ _ _ Hc El) as [Es Hd]. rewrite Hd.
    assert (length (tenant_rows rows (au_tenant_id value)) ≠ 0%nat) as Hn by (by destruct (tenant_rows _ _)).
    replace (between 1 (aw_sequence row + 1) max_revision) with true by (unfold between; lia).
    replace (aw_sequence row + 1 =? 1) with false by lia.
    cbn. by rewrite andb_false_r, bool_decide_true by done.
  - cbn. by rewrite bool_decide_true by done.
Qed.

Lemma audit_step_ok s s' :
  ledger_ok (cn_data s) → audit_step s s' → ledger_ok (cn_data s') ∧ cn_data s `prefix_of` cn_data s'.
Proof.
  intros Hok []; [|unfold close; by destruct (cn_closed s)].
  unfold append. destruct (operation _ _ _ _ _ s) as [s1 x] eqn:E. cbn.
  apply operation_cases in E as [[-> _]|(rows & r & _ & _ & Hb & -> & _)]; [done|].
  by apply audit_append_ok in Hb as (_ & _ & _ & _ & _ & ? & ?).
Qed.

Lemma audit_steps_ok s s' :
  star audit_step s s' → ledger_ok (cn_data s) → ledger_ok (cn_data s') ∧ cn_data s `prefix_of` cn_data s'.
Proof.
  induction 1 as [|s1 s2 s3 H1 _ IH]; intros Hok; [done|].
  destruct (audit_step_ok _ _ Hok H1) as [Hok2 P12]. destruct (IH Hok2) as [Hok3 P23].
  split; [done|by etrans].
Qed.

Lemma audit_reachable_ok s : audit_reachable s → ledger_ok (cn_data s).
Proof.
  intros Hs. apply (audit_steps_ok _ _ Hs). split; cbn.
  - by intros row ?%elem_of_nil.
  - intros tenant_id. exists []. constructor.
  - apply NoDup_nil_2.
Qed.

(** ** Tamper evidence *)

(** Two texts with the same hash. *)
Definition sha256_collision : Prop := ∃ x y : string, x ≠ y ∧ sha256_hex x = sha256_hex y.

Lemma value_digest_same j j' :
  value_digest j = value_digest j' → sha256_collision ∨ json_dumps j = json_dumps j'.
Proof.
  unfold value_digest. intros E. destruct (decide (json_dumps j = json_dumps j')) as [|Hne]; [by right|].
  left. exists (json_dumps j), (json_dumps j'). split; [done|]. by injection E.
Qed.

(** Two events that say the same: they agree in every field, up to the order of the details,
    and in their times as printed. *)
Record same_event (e e' : AuditEvent) : Prop := {
  se_id : au_event_id e = au_event_id e';
  se_scope : (au_tenant_id e, au_environment_id e) = (au_tenant_id e', au_environment_id e');
  se_actor : (au_actor_issuer e, au_actor_subject e, au_actor_type e)
             = (au_actor_issuer e', au_actor_subject e', au_actor_type e');
  se_action : au_action e = au_action e';
  se_resource : (au_resource_type e, au_resource_id e) = (au_resource_type e', au_resource_id e');
  se_result : (au_result e, au_reason_code e) = (au_result e', au_reason_code e');
  se_request : au_request_id e = au_request_id e';
  se_digests : (au_authorization_decision_digest e, au_before_digest e, au_after_digest e, au_event_digest e)
               = (au_authorization_decision_digest e', au_before_digest e', au_after_digest e', au_event_digest e');
  se_details : au_details e ≡ₚ au_details e';
  se_time : isoformat (au_occurred_at e) = isoformat (au_occurred_at e') }.

Record same_record (r r' : AuditRecord) : Prop := {
  sr_sequence : rc_sequence r = rc_sequence r';
  sr_event : same_event (rc_event r) (rc_event r');
  sr_previous : rc_previous_record_digest r = rc_previous_record_digest r';
  sr_digest : rc_record_digest r = rc_record_digest r' }.

(** The documents of audit records hold no floats. *)
Definition no_float (f : spec_float) : Prop := False.
Lemma no_float_texts : float_texts no_float.
Proof. by split. Qed.

Lemma event_no_floats e : Forall (λ kv, floats_ok no_float kv.2) (event_fields e).
Proof.
  unfold event_fields. repeat apply Forall_cons_2; try apply Forall_nil_2; cbn [snd]; try done;
    try by match goal with |- floats_ok _ (json_opt _ ?o) => destruct o end.
  apply floats_obj, Forall_map, Forall_forall. by intros [k []] _.
Qed.

Lemma record_no_floats r : floats_ok no_float (record_json r).
Proof.
  apply floats_obj. repeat apply Forall_cons_2; try apply Forall_nil_2; cbn [snd]; try done.
  - apply floats_obj, Forall_app. split; [apply event_no_floats|by repeat constructor].
  - by destruct (rc_previous_record_digest r).
Qed.

#[export] Instance audit_scalar_json_inj : Inj (=) (=) audit_scalar_json.
Proof. intros [] [] E; by simplify_eq/=. Qed.
#[export] Instance AccessAction_value_inj : Inj (=) (=) AccessAction_value.
Proof. by intros [] []. Qed.
#[export] Instance AuditResult_value_inj : Inj (=) (=) AuditResult_value.
Proof. by intros [] []. Qed.
#[export] Instance PrincipalType_value_inj : Inj (=) (=) PrincipalType_value.
Proof. by intros [] []. Qed.

Lemma details_same (l l' : list (string * AuditScalar)) :
  let dump := map (λ kv, (kv.1, audit_scalar_json kv.2)) in
  normalize (JObj (dump l)) = normalize (JObj (dump l')) → l ≡ₚ l'.
Proof.
  cbn [normalize]. intros [= E].
  assert (∀ l : list (string * AuditScalar), map (λ kv, (kv.1, normalize kv.2)) (map (λ kv, (kv.1, audit_scalar_json kv.2)) l)
    = map (λ kv, (kv.1, audit_scalar_json kv.2)) l) as Hid.
  { intros k. rewrite map_map. apply map_ext. by intros [? []]. }
  rewrite !Hid in E.
  assert (map (λ kv, (kv.1, audit_scalar_json kv.2)) l ≡ₚ map (λ kv, (kv.1, audit_scalar_json kv.2)) l') as HP.
  { etrans; [symmetry; apply (sorted_by_perm fst String.le)|]. rewrite E. apply sorted_by_perm. }
  apply Permutation_map_inv in HP as (l3 & E3 & HP). rewrite HP. clear -E3.
  assert (l = l3) as ->; [|done]. revert l3 E3.
  induction l as [|[k v] l IH]; intros [|[k3 v3] l3] E3; try done. cbn in E3. injection E3 as -> Ev E3.
  apply (inj audit_scalar_json) in Ev as ->. by rewrite (IH l3 E3).
Qed.

Lemma json_opt_same o o' : normalize (json_opt JStr o) = normalize (json_opt JStr o') → o = o'.
Proof. by destruct o, o'; intros [=]; subst. Qed.

Lemma event_text_same e e' :
  let document e := JObj (event_fields e ++ [("event_digest", JStr (au_event_digest e))]) in
  normalize (document e) = normalize (document e') → same_event e e'.
Proof.
  cbn zeta. unfold event_fields. cbn [app]. intros E.
  apply object_fields in E; [|done|apply (bool_decide_unpack (NoDup _)); vm_compute; exact I].
  cbn [map norm_field fst snd] in E.
  remember (isoformat (au_occurred_at e)) as t eqn:Et. remember (isoformat (au_occurred_at e')) as t' eqn:Et'.
  unfold time_json in E. rewrite <-Et, <-Et' in E.
  injection E as Eevent Etenant Eenv Eissuer Esubject Eactor Eaction Etype Eid Eresult Ereason Erequest
    Edecision Ebefore Eafter Edetails Etime Edigest.
  apply json_opt_same in Eafter, Ebefore, Edecision, Eid.
  apply (inj AuditResult_value) in Eresult. apply (inj AccessAction_value) in Eaction.
  apply (inj PrincipalType_value) in Eactor. split; try congruence.
  apply details_same. cbn [normalize]. by rewrite Edetails.
Qed.

(** Records with the same text say the same. *)
Lemma record_text_same r r' :
  rc_record_digest r = rc_record_digest r' → json_dumps (record_json r) = json_dumps (record_json r') → same_record r r'.
Proof.
  intros Hd E. apply (json_text_inj _ no_float_texts) in E; [|apply record_no_floats..].
  unfold record_json in E. apply object_fields in E; [|done|apply (bool_decide_unpack (NoDup _)); vm_compute; exact I].
  cbn [map] in E. unfold norm_field in E. cbn [fst snd] in E.
  pose proof (event_text_same (rc_event r) (rc_event r')) as He. cbv beta zeta in He.
  remember (normalize (JObj (event_fields (rc_event r) ++ _))) as d eqn:Ed in E, He.
  remember (normalize (JObj (event_fields (rc_event r') ++ _))) as d' eqn:Ed' in E, He.
  injection E as Es Ee Ep. apply json_opt_same in Ep. split; [done|by apply He|done|done].
Qed.

Lemma verify_rows_result tenant_id index expected previous rows n :
  cv_valid (verify_rows tenant_id index expected previous rows) = true →
  cv_checked_count (verify_rows tenant_id index expected previous rows) = n →
  verify_rows tenant_id index expected previous rows = {| cv_valid := true; cv_checked_count := n;
    cv_first_broken_sequence := None; cv_reason := None |}.
Proof.
  intros Hv <-. revert index expected previous Hv.
  induction rows as [|row rows IH]; intros index expected previous; cbn [verify_rows]; [done|].
  destruct (negb _); [done|]. destruct (decode_record row); [|done]. destruct (decode_event row); [|done].
  destruct (_ || _); [done|]. destruct (negb _); [done|]. destruct (negb _); [done|]. apply IH.
Qed.

Lemma chain_decodes tenant_id expected previous rows records :
  chain_of tenant_id expected previous rows records → mapM_result decode_record rows = Ok records.
Proof. induction 1 as [|? ? ? ? ? ? _ Er _ _ _ _ _ _ _ IH]; cbn; [done|]. by rewrite Er, IH. Qed.

Lemma verified_chain s tenant_id n records :
  verify_chain s tenant_id = Ok {| cv_valid := true; cv_checked_count := n;
    cv_first_broken_sequence := None; cv_reason := None |} →
  mapM_result decode_record (chain_rows (cn_data s) tenant_id) = Ok records →
  chain_of tenant_id 1 None (chain_rows (cn_data s) tenant_id) records ∧ length records = n.
Proof.
  unfold verify_chain. intros ([] & _ & [= Hv])%bind_ok Hr.
  assert (cv_valid (verify_rows tenant_id 0 1 None (chain_rows (cn_data s) tenant_id)) = true) as Hvalid
    by by rewrite Hv.
  pose proof (verify_rows_count _ _ _ _ _ Hvalid) as Hcount. rewrite Hv in Hcount. cbn in Hcount.
  apply verify_rows_valid in Hvalid as [records' Hc]. pose proof (chain_decodes _ _ _ _ _ Hc) as Hd.
  rewrite Hr in Hd. injection Hd as <-. split; [done|].
  apply chain_sequences in Hc as [_ El]. by rewrite El.
Qed.

Lemma validate_record_digest r : validate_record r = Ok () → rc_record_digest r = value_digest (record_json r).
Proof.
  unfold validate_record. intros (? & _ & Hv)%bind_ok. do 3 apply raise_if_then in Hv as [_ Hv].
  destruct (bool_decide _) eqn:E in Hv; [by boolify|done].
Qed.

(** The place of a record in a chain. *)
Lemma chain_lookup tenant_id expected previous rows records i r :
  chain_of tenant_id expected previous rows records → records !! i = Some r →
  rc_sequence r = expected + Z.of_nat i ∧ rc_record_digest r = value_digest (record_json r) ∧
  match i with
  | O => rc_previous_record_digest r = previous
  | S k => ∃ r0, records !! k = Some r0 ∧ rc_previous_record_digest r = Some (rc_record_digest r0)
  end.
Proof.
  intros Hc. revert i. induction Hc as [|expected previous row rows r0 records Eq Er Ee Es Eid Ep Eprev Et Hc IH];
    intros i Hi; [done|]. destruct i as [|i]; cbn in Hi.
  - injection Hi as ->. split_and!; [lia| |done]. apply decode_record_ok in Er as (_ & Hv & _).
    by apply validate_record_digest.
  - apply IH in Hi as (Eseq & Ed & Hprev). split_and!; [lia|done|].
    destruct i as [|i]; [by exists r0|exact Hprev].
Qed.

(** Records with the same digest, at any places of two chains. *)
Lemma chains_match tenant_id rows rows' records records' i : ∀ j r r',
  chain_of tenant_id 1 None rows records → chain_of tenant_id 1 None rows' records' →
  records !! i = Some r → records' !! j = Some r' → rc_record_digest r = rc_record_digest r' →
  sha256_collision ∨ i = j ∧ Forall2 same_record (take (S i) records) (take (S j) records').
Proof.
  induction i as [|i IH]; intros j r r' Hc Hc' Hr Hr' Ed;
    destruct (chain_lookup _ _ _ _ _ _ _ Hc Hr) as (Es & Edr & Hp);
    destruct (chain_lookup _ _ _ _ _ _ _ Hc' Hr') as (Es' & Edr' & Hp');
    destruct (value_digest_same (record_json r) (record_json r')) as [?|Htext]; [congruence|by left| |congruence|by left|];
    pose proof (record_text_same _ _ Ed Htext) as Hsame; pose proof (sr_sequence _ _ Hsame).
  - assert (j = 0)%nat as -> by lia. right. split; [done|].
    rewrite (take_S_r _ _ _ Hr), (take_S_r _ _ _ Hr'). rewrite !take_0. by apply Forall2_cons_2.
  - assert (j = S i) as -> by lia. destruct Hp as (r0 & Hr0 & Ep), Hp' as (r0' & Hr0' & Ep').
    destruct (IH i r0 r0') as [?|[_ Hall]]; try done; [|by left|].
    + apply (inj Some). rewrite <-Ep, <-Ep'. by apply sr_previous.
    + right. split; [done|]. rewrite (take_S_r _ _ _ Hr), (take_S_r _ _ _ Hr').
      apply Forall2_app; [done|by apply Forall2_cons_2].
Qed.

(** ** Theorems *)

(** The store's own chains verify, and what is appended stays: in every reachable store each
    tenant's chain is found valid from end to end; an accepted event is recorded under its id
    with its digest, and whatever follows, the record is returned for the event, the ledger
    only grows at its end, and the event is never recorded twice. *)
Theorem audit_ledger_sound e s s1 r s2 :
  audit_reachable s → append e s = (s1, Ok r) → star audit_step s1 s2 → cn_closed s2 = false →
  (∀ tenant_id, ∃ n, verify_chain s2 tenant_id = Ok {| cv_valid := true; cv_checked_count := n;
     cv_first_broken_sequence := None; cv_reason := None |} ∧ n = length (tenant_rows (cn_data s2) tenant_id)) ∧
  au_event_digest (rc_event r) = au_event_digest e ∧ au_event_id (rc_event r) = au_event_id e ∧
  get s2 (au_tenant_id e) (au_event_id e) = Ok (Some r) ∧
  cn_data s1 `prefix_of` cn_data s2 ∧ NoDup (map tenant_event (cn_data s2)).
Proof.
  intros Hok%audit_reachable_ok (_ & _ & _ & rows & Hb & ->)%operation_ok Hs Ho.
  destruct (audit_append_ok _ _ _ _ Hok Hb) as (Hv & Et & Ei & Ed & Hin & _ & Hok1).
  destruct (audit_steps_ok _ _ Hs Hok1) as [Hok2 Hpre]. split_and!; try done; [| |apply Hok2].
  - intros tenant_id. destruct (lo_chain _ Hok2 tenant_id) as [records Hc].
    exists (length (tenant_rows (cn_data s2) tenant_id)). split; [|done].
    unfold verify_chain, ensure_open, chain_rows. rewrite Ho, (sorted_rows _ _ _ _ _ Hc). cbn. f_equal.
    pose proof (proj2 (verify_rows_valid tenant_id 0 1 None _) (ex_intro _ _ Hc)) as Hvalid.
    pose proof (verify_rows_count _ _ _ _ _ Hvalid) as Hcount. apply verify_rows_result; done.
  - unfold get, ensure_open. rewrite Ho. cbn. rewrite <-Et, <-Ei.
    assert (row_of r ∈ cn_data s2) as Hin2 by (destruct Hpre as [k ->]; apply elem_of_app; by left).
    pose proof (find_event_unique _ _ (lo_events _ Hok2) Hin2) as Hf. cbn [row_of aw_tenant_id aw_event_id] in Hf.
    rewrite Hf. by destruct (row_of_decodes r Hv) as [-> _].
Qed.

(** C20. Any record digest kept outside the database is evidence of tampering: whatever two
    databases hold, if both verify for a tenant and a record of one has the digest of a record
    of the other, then the two are at the same position and all records up to it agree pairwise,
    in every field of the record and of its event (the order of an event's details apart, and
    times as their ISO text), or SHA-256 has a collision.  The chains may differ in length and
    in what follows the position. *)
Theorem audit_tamper_evident s s' tenant_id n n' records records' i j r r' :
  verify_chain s tenant_id = Ok {| cv_valid := true; cv_checked_count := n;
    cv_first_broken_sequence := None; cv_reason := None |} →
  verify_chain s' tenant_id = Ok {| cv_valid := true; cv_checked_count := n';
    cv_first_broken_sequence := None; cv_reason := None |} →
  mapM_result decode_record (chain_rows (cn_data s) tenant_id) = Ok records →
  mapM_result decode_record (chain_rows (cn_data s') tenant_id) = Ok records' →
  records !! i = Some r → records' !! j = Some r' → rc_record_digest r = rc_record_digest r' →
  sha256_collision ∨ i = j ∧ Forall2 same_record (take (S i) records) (take (S j) records').
Proof.
  intros Hv Hv' Hr Hr'. destruct (verified_chain _ _ _ _ Hv Hr) as [Hc _].
  destruct (verified_chain _ _ _ _ Hv' Hr') as [Hc' _]. intros. by eapply chains_match.
Qed.

End store.

(** ** A concrete chain *)

#[local] Existing Instances distinct_sha256 example_float_repr.

Definition example_event (event_id tenant_id : string) : AuditEvent :=
  let unsigned := {| au_event_id := event_id; au_tenant_id := tenant_id; au_environment_id := "prod";
    au_actor_issuer := "https://issuer"; au_actor_subject := "user-1"; au_actor_type := HUMAN;
    au_action := TRANSACTION_APPROVE; au_resource_type := "transaction"; au_resource_id := Some "tx-1";
    au_result := ALLOWED; au_reason_code := "allowed"; au_request_id := "request-1";
    au_authorization_decision_digest := None; au_before_digest := None; au_after_digest := None;
    au_details := [("phase", AStr "authorization")]; au_occurred_at := 1000000; au_event_digest := "" |} in
  with_event_digest unsigned (value_digest (JObj (event_fields unsigned))).
Definition first_append : AuditStore := (append (example_event "event-1" "tenant") empty_audit).1.
Definition second_append : AuditStore := (append (example_event "event-2" "tenant") first_append).1.
Definition no_record : AuditRecord := {| rc_sequence := 0; rc_event := example_event "" "";
  rc_previous_record_digest := None; rc_record_digest := "" |}.
Definition record_of (x : AuditStore * result AuditError AuditRecord) : AuditRecord :=
  match x.2 with Ok r => r | Err _ => no_record end.
Definition first_record : AuditRecord := record_of (append (example_event "event-1" "tenant") empty_audit).
Definition second_record : AuditRecord := record_of (append (example_event "event-2" "tenant") first_append).

(** An event rewritten in place, with its own digests recomputed, breaks the chain after it. *)
Definition forged : AuditRecord :=
  match issue_record 1 (example_event "event-9" "tenant") None with Ok r => r | Err _ => no_record end.
Example audit_examples :
  (verify_chain second_append "tenant",
   (append (example_event "event-1" "tenant") second_append).2,
   verify_chain (connect [row_of forged; row_of second_record]) "tenant")
  = (Ok {| cv_valid := true; cv_checked_count := 2; cv_first_broken_sequence := None; cv_reason := None |},
     Ok first_record,
     Ok {| cv_valid := false; cv_checked_count := 1; cv_first_broken_sequence := Some 2;
           cv_reason := Some "previous_digest_mismatch" |}).
Proof. vm_compute. reflexivity. Qed.

Lemma audit_ledger_sound_witness :
  get second_append "tenant" "event-1" = Ok (Some first_record).
Proof.
  destruct (audit_ledger_sound (example_event "event-1" "tenant") empty_audit first_append first_record
    second_append) as (_ & _ & _ & Hg & _).
  - apply star_refl.
  - vm_compute. reflexivity.
  - apply star_one. unfold second_append. apply as_append.
  - vm_compute. reflexivity.
  - exact Hg.
Defined.

(** Two databases that part after their second record, at the checkpoint of that record. *)
Definition third_append (event_id : string) : AuditStore := (append (example_event event_id "tenant") second_append).1.
Definition third_record (event_id : string) : AuditRecord :=
  record_of (append (example_event event_id "tenant") second_append).

Lemma audit_tamper_evident_witness :
  third_record "event-3" ≠ third_record "event-4" ∧
  (sha256_collision ∨ 1%nat = 1%nat ∧
   Forall2 same_record (take 2 [first_record; second_record; third_record "event-3"])
     (take 2 [first_record; second_record; third_record "event-4"])).
Proof.
  split; [intros E; apply (f_equal (au_event_id ∘ rc_event)) in E; vm_compute in E; discriminate|].
  apply (audit_tamper_evident (third_append "event-3") (third_append "event-4") "tenant" 3 3 _ _ 1 1
    second_record second_record); vm_compute; reflexivity.
Defined.
