(* ===== verification/Membership.v ===== *)
(** * Membership directory (controlplane/membership.py)

    The SQLite directory of tenant memberships: provisioning, revisioned replacement and the
    lookups authorization uses.  A row keeps the decoded membership under its primary key, so
    the integrity errors of a database written by someone else do not arise; the open
    transaction an uncaught validation error leaves behind is part of the state ([Sqlite]). *)

From S2P Require Import Prelude.
From S2P Require Import Contracts.
From S2P Require Import Sqlite.
From S2P Require Import ControlModels.

Inductive MembershipError :=
| MembershipConflict
| MembershipNotFound
| MembershipStoreError (code : string)
| MembershipValidationError (message : string).

(** The exceptions the handlers roll back. *)
Definition membership_handled (e : MembershipError) : bool :=
  match e with MembershipValidationError _ => false | _ => true end.

Notation Memberships := (gmap string TenantMembership).
Notation MembershipStore := (Connection Memberships).

Definition empty_memberships : MembershipStore := connect ∅.
Definition directory_closed : MembershipError := MembershipStoreError "store_closed".
Definition directory_unavailable : MembershipError := MembershipStoreError "membership_store_unavailable".

(** [_identity_key], the [UNIQUE] columns. *)
Definition identity_key (m : TenantMembership) : string * string * string * string * MembershipRole :=
  (mb_issuer m, mb_subject m, mb_tenant_id m, mb_environment_id m, mb_role m).

(** [SELECT ... WHERE issuer=? AND ... AND role=?], but for one membership id. *)
Definition other_with_identity (rows : Memberships) (m : TenantMembership) (but : option string)
    : option TenantMembership :=
  head (filter (λ m', identity_key m' = identity_key m ∧ Some (mb_membership_id m') ≠ but)
          (map_to_list rows).*2).

Section store.
Context `{Sha256, FloatRepr}.

Definition membership_operation {A} : result MembershipError () →
    (Memberships → result MembershipError (Memberships * A)) →
    MembershipStore → MembershipStore * result MembershipError A :=
  operation membership_handled directory_closed directory_unavailable.

(** [_validate_membership]. *)
Definition membership_checks (m : TenantMembership) : result MembershipError () :=
  revalidate (validate_membership m) (MembershipStoreError "invalid_membership").

(** [provision]. *)
Definition provision_body (m : TenantMembership) (rows : Memberships)
    : result MembershipError (Memberships * TenantMembership) :=
  match other_with_identity rows m None with
  | Some row =>
      raise_if (negb (bool_decide (mb_membership_digest row = mb_membership_digest m)))
        MembershipConflict;;
      Ok (rows, row)
  | None =>
      raise_if (negb (is_none (rows !! mb_membership_id m))) MembershipConflict;;
      Ok (<[mb_membership_id m := m]> rows, m)
  end.
Definition provision (m : TenantMembership)
    : MembershipStore → MembershipStore * result MembershipError TenantMembership :=
  membership_operation (membership_checks m) (provision_body m).

(** [replace] with a membership: the store chooses the revision. *)
Definition same_identity (current value : TenantMembership) : bool :=
  bool_decide (mb_issuer current = mb_issuer value) && bool_decide (mb_subject current = mb_subject value)
  && bool_decide (mb_tenant_id current = mb_tenant_id value)
  && bool_decide (mb_environment_id current = mb_environment_id value)
  && bool_decide (mb_principal_type current = mb_principal_type value).
Definition replacement (current value : TenantMembership) : TenantMembership := {|
  mb_membership_id := mb_membership_id current; mb_issuer := mb_issuer current;
  mb_subject := mb_subject current; mb_principal_type := mb_principal_type current;
  mb_tenant_id := mb_tenant_id current; mb_environment_id := mb_environment_id current;
  mb_role := mb_role value; mb_status := mb_status value; mb_revision := mb_revision current + 1;
  mb_created_at := mb_created_at current; mb_updated_at := mb_updated_at value;
  mb_membership_digest := EmptyString |}.
Definition replace_body (value : TenantMembership) (rows : Memberships)
    : result MembershipError (Memberships * TenantMembership) :=
  match rows !! mb_membership_id value with
  | None => Err MembershipNotFound
  | Some current =>
      raise_if (negb (same_identity current value)) MembershipConflict;;
      raise_if (mb_updated_at value <? mb_updated_at current) MembershipConflict;;
      m ← escaping MembershipValidationError (issue_membership (replacement current value));
      raise_if (negb (is_none (other_with_identity rows m (Some (mb_membership_id m)))))
        MembershipConflict;;
      Ok (<[mb_membership_id m := m]> rows, m)
  end.
Definition replace (value : TenantMembership)
    : MembershipStore → MembershipStore * result MembershipError TenantMembership :=
  membership_operation (membership_checks value) (replace_body value).

(** [get]. *)
Definition get_membership (s : MembershipStore) (membership_id : string)
    : result MembershipError (option TenantMembership) :=
  ensure_open directory_closed s;; Ok (cn_data s !! membership_id).

(** [replace] with an id and changes to the current payload. *)
Definition replace_by_id (membership_id : string) (changes : TenantMembership → TenantMembership)
    (s : MembershipStore) : MembershipStore * result MembershipError TenantMembership :=
  match get_membership s membership_id with
  | Err e => (s, Err e)
  | Ok None => (s, Err MembershipNotFound)
  | Ok (Some current) =>
      match issue_membership (changes current) with
      | Err m => (s, Err (MembershipValidationError m))
      | Ok m => replace m s
      end
  end.

(** [get_memberships] and its aliases. *)
Definition held_by (p : Principal) (tenant_id environment_id : string) (m : TenantMembership) : bool :=
  bool_decide (mb_issuer m = pc_issuer p) && bool_decide (mb_subject m = pc_subject p)
  && bool_decide (mb_principal_type m = pc_principal_type p) && bool_decide (mb_tenant_id m = tenant_id)
  && bool_decide (mb_environment_id m = environment_id).
Definition role_text (m : TenantMembership) : string := MembershipRole_value (mb_role m).
Definition get_memberships (s : MembershipStore) (p : Principal) (tenant_id environment_id : string)
    : result MembershipError (list TenantMembership) :=
  ensure_open directory_closed s;;
  Ok (sorted_by role_text String.le
        (List.filter (held_by p tenant_id environment_id) (map_to_list (cn_data s)).*2)).

(** [list]: [ORDER BY environment_id,issuer,subject,role]. *)
Definition directory_key (m : TenantMembership) : string * (string * (string * string)) :=
  (mb_environment_id m, (mb_issuer m, (mb_subject m, role_text m))).
Definition directory_order : relation (string * (string * (string * string))) :=
  lex String.le (lex String.le (lex String.le String.le)).
#[export] Instance directory_order_dec : RelDecision directory_order.
Proof. unfold directory_order. apply _. Defined.
Definition list_memberships (s : MembershipStore) (tenant_id : string) (environment_id : option string)
    : result MembershipError (list TenantMembership) :=
  ensure_open directory_closed s;;
  Ok (sorted_by directory_key directory_order
        (List.filter (λ m, bool_decide (mb_tenant_id m = tenant_id)
             && opt_ok (λ e, bool_decide (mb_environment_id m = e)) environment_id)
          (map_to_list (cn_data s)).*2)).

(** ** Histories *)

Inductive membership_step (s : MembershipStore) : MembershipStore → Prop :=
| ms_provision m : membership_step s (provision m s).1
| ms_replace m : membership_step s (replace m s).1
| ms_replace_by_id membership_id changes : membership_step s (replace_by_id membership_id changes s).1
| ms_close : membership_step s (close s).

Definition memberships_reachable (s : MembershipStore) : Prop := star membership_step empty_memberships s.

(** Memberships are valid, sit under their id, and hold distinct identities. *)
Record directory_ok (rows : Memberships) : Prop := {
  dr_id : ∀ k m, rows !! k = Some m → mb_membership_id m = k ∧ validate_membership m = Ok ();
  dr_unique : ∀ k1 k2 m1 m2, rows !! k1 = Some m1 → rows !! k2 = Some m2 →
    identity_key m1 = identity_key m2 → k1 = k2 }.

(** What an operation does to the rows. *)
Inductive membership_write (rows : Memberships) : Memberships → Prop :=
| mw_none : membership_write rows rows
| mw_put m : validate_membership m = Ok () →
    (∀ k m', rows !! k = Some m' → identity_key m' = identity_key m → k = mb_membership_id m) →
    (∀ m0, rows !! mb_membership_id m = Some m0 →
      (mb_issuer m, mb_subject m, mb_principal_type m, mb_tenant_id m, mb_environment_id m, mb_created_at m)
      = (mb_issuer m0, mb_subject m0, mb_principal_type m0, mb_tenant_id m0, mb_environment_id m0,
         mb_created_at m0) ∧
      mb_revision m = mb_revision m0 + 1 ∧ mb_updated_at m0 ≤ mb_updated_at m) →
    membership_write rows (<[mb_membership_id m := m]> rows).

Lemma other_None rows m but :
  directory_ok rows → other_with_identity rows m but = None →
  ∀ k m', rows !! k = Some m' → identity_key m' = identity_key m → Some k = but.
Proof.
  unfold other_with_identity. intros Hok Hn%head_None k m' Hm Hk.
  destruct (decide (Some k = but)) as [|Hne]; [done|exfalso].
  assert (m' ∈ filter (λ m', identity_key m' = identity_key m ∧ Some (mb_membership_id m') ≠ but)
    (map_to_list rows).*2) as Hin; [|rewrite Hn in Hin; by apply elem_of_nil in Hin].
  apply list_elem_of_filter. destruct (dr_id _ Hok _ _ Hm) as [-> _]. split; [done|].
  apply list_elem_of_fmap. exists (k, m'). split; [done|]. by apply elem_of_map_to_list.
Qed.

Lemma provision_write m rows rows' a :
  directory_ok rows → validate_membership m = Ok () →
  provision_body m rows = Ok (rows', a) → membership_write rows rows'.
Proof.
  intros Hok Hv. unfold provision_body. destruct (other_with_identity rows m None) eqn:E.
  - intros [_ [= <- _]]%raise_if_then. constructor.
  - intros [Hn [= <- _]]%raise_if_then. apply negb_false_iff in Hn.
    destruct (rows !! mb_membership_id m) eqn:Em; [done|]. apply mw_put; [done| |by rewrite Em].
    intros k m' Hm' Hk. by pose proof (other_None _ _ _ Hok E _ _ Hm' Hk).
Qed.

Lemma replace_write m rows rows' a :
  directory_ok rows → replace_body m rows = Ok (rows', a) →
  membership_write rows rows' ∧ ∃ current, rows !! mb_membership_id m = Some current ∧
    mb_revision a = mb_revision current + 1 ∧ mb_role a = mb_role m ∧ mb_status a = mb_status m ∧
    rows' !! mb_membership_id m = Some a.
Proof.
  intros Hok. unfold replace_body. destruct (rows !! mb_membership_id m) as [current|] eqn:Em; [|done].
  rewrite !raise_if_then. intros (_ & Ht & (m' & Hi & Hb)%bind_ok).
  apply escaping_ok, issue_membership_inv in Hi as [Hv ->].
  apply raise_if_then in Hb as [Ho [= <- <-]]. apply negb_false_iff in Ho.
  destruct (other_with_identity _ _ _) eqn:E; [done|].
  destruct (dr_id _ Hok _ _ Em) as [Eid _]. boolify. split.
  - match type of E with other_with_identity _ ?m' _ = _ => apply (mw_put rows m') end; [done|..].
    + intros k m2 Hm2 Hk. pose proof (other_None _ _ _ Hok E _ _ Hm2 Hk) as Ek. congruence.
    + cbn. rewrite Eid, Em. by intros m0 [= <-].
  - exists current. cbn. rewrite Eid, lookup_insert_eq. by split_and!.
Qed.

Lemma membership_write_ok rows rows' : membership_write rows rows' → directory_ok rows → directory_ok rows'.
Proof.
  intros [|m Hv Hu Hm] Hok; [done|]. destruct Hok as [Hid Hun]. split.
  - intros k m' [[<- <-]|[_ Hm']]%lookup_insert_Some; [done|by apply Hid].
  - intros k1 k2 m1 m2 [[<- <-]|[N1 H1]]%lookup_insert_Some [[<- <-]|[N2 H2]]%lookup_insert_Some E;
      [done|..|by eapply Hun].
    + symmetry. by eapply Hu.
    + by eapply Hu.
Qed.

Lemma membership_step_write s s' :
  directory_ok (cn_data s) → membership_step s s' → membership_write (cn_data s) (cn_data s').
Proof.
  intros Hok Hs.
  assert (∀ m, membership_write (cn_data s) (cn_data (replace m s).1)) as Hrep.
  { intros m. unfold replace, membership_operation. destruct (operation _ _ _ _ _ s) as [s1 x] eqn:E. cbn.
    apply operation_cases in E as [[-> _]|(rows & a & _ & _ & Hb & -> & _)]; [constructor|].
    by apply replace_write in Hb as [? _]. }
  destruct Hs as [m|m|membership_id changes|].
  - unfold provision, membership_operation. destruct (operation _ _ _ _ _ s) as [s1 x] eqn:E. cbn.
    apply operation_cases in E as [[-> _]|(rows & a & _ & Hc & Hb & -> & _)]; [constructor|].
    apply revalidate_ok in Hc. by eapply provision_write.
  - apply Hrep.
  - unfold replace_by_id. destruct (get_membership _ _) as [[current|]|]; [|constructor..].
    destruct (issue_membership _); [apply Hrep|constructor].
  - unfold close. destruct (cn_closed s); constructor.
Qed.

Lemma memberships_reachable_ok s : memberships_reachable s → directory_ok (cn_data s).
Proof.
  apply (star_invariant membership_step (λ s, directory_ok (cn_data s))).
  - intros s1 s2 Hok Hs. eapply membership_write_ok; [by apply membership_step_write|done].
  - split; cbn; intros k **; by rewrite lookup_empty in *.
Qed.

(** A membership is replaced by its own later revisions. *)
Record membership_le (m m' : TenantMembership) : Prop := {
  ml_same : (mb_membership_id m', mb_issuer m', mb_subject m', mb_principal_type m', mb_tenant_id m',
             mb_environment_id m', mb_created_at m')
          = (mb_membership_id m, mb_issuer m, mb_subject m, mb_principal_type m, mb_tenant_id m,
             mb_environment_id m, mb_created_at m);
  ml_revision : mb_revision m ≤ mb_revision m';
  ml_updated : mb_updated_at m ≤ mb_updated_at m';
  ml_once : mb_revision m' = mb_revision m → m' = m }.

#[export] Instance membership_le_preorder : PreOrder membership_le.
Proof.
  split; [by intros m; split|]. intros m1 m2 m3 [A1 A2 A3 A4] [B1 B2 B3 B4].
  split; [congruence|lia|lia|]. intros E. assert (mb_revision m2 = mb_revision m1) as E2 by lia.
  rewrite <-(A4 E2). apply B4. lia.
Qed.

Lemma membership_write_le (rows rows' : Memberships) k m :
  directory_ok rows → membership_write rows rows' → rows !! k = Some m →
  ∃ m', rows' !! k = Some m' ∧ membership_le m m'.
Proof.
  intros Hok [|m0 Hv Hu Hm0] Hm; [by exists m|].
  destruct (decide (mb_membership_id m0 = k)) as [<-|Hne].
  - rewrite lookup_insert_eq. exists m0. split; [done|]. destruct (Hm0 _ Hm) as ([= ? ? ? ? ? ?] & Er & Eu).
    destruct (dr_id _ Hok _ _ Hm) as [Eid _]. split; [congruence|lia|done|lia].
  - rewrite lookup_insert_ne by done. by exists m.
Qed.

(** ** Theorems *)

(** Memberships only advance: once provisioned or replaced, a membership stays under its id
    with its identity and creation time, valid and unique for its principal, scope and role;
    each change is a later revision, and one revision has one content. *)
Theorem memberships_advance s s' k m :
  memberships_reachable s → star membership_step s s' → cn_data s !! k = Some m →
  ∃ m', cn_data s' !! k = Some m' ∧ membership_le m m' ∧ mb_membership_id m' = k ∧
    validate_membership m' = Ok () ∧
    ∀ k2 m2, cn_data s' !! k2 = Some m2 → identity_key m2 = identity_key m' → k2 = k.
Proof.
  intros Hok%memberships_reachable_ok Hs Hm.
  assert (directory_ok (cn_data s') ∧ ∃ m', cn_data s' !! k = Some m' ∧ membership_le m m')
    as (Hok' & m' & Hm' & Hle).
  { revert Hok Hs Hm. apply (star_entries membership_step (λ s, directory_ok (cn_data s))
      (λ s k, cn_data s !! k) membership_le).
    - intros s1 s2 Hok Hs. eapply membership_write_ok; [by apply membership_step_write|done].
    - intros s1 s2 k1 m1 Hok Hs. apply membership_write_le; [done|by apply membership_step_write]. }
  exists m'. destruct (dr_id _ Hok' _ _ Hm') as [? ?]. split_and!; try done.
  intros k2 m2 Hm2 Ek. by eapply (dr_unique _ Hok').
Qed.

End store.

(** ** A membership and its first revision *)

#[local] Existing Instances distinct_sha256 example_float_repr.

Definition example_membership (role : MembershipRole) (status : MembershipStatus) (updated_at : Z)
    : TenantMembership :=
  let unsigned := {| mb_membership_id := "member-1"; mb_issuer := "https://issuer";
    mb_subject := "user-1"; mb_principal_type := HUMAN; mb_tenant_id := "tenant";
    mb_environment_id := "prod"; mb_role := role; mb_status := status; mb_revision := 1;
    mb_created_at := 1000000; mb_updated_at := updated_at; mb_membership_digest := EmptyString |} in
  with_membership_digest unsigned (value_digest (membership_json unsigned)).
Definition provisioned : MembershipStore := (provision (example_membership OPERATOR ACTIVE 1000000) empty_memberships).1.
Definition disabled : MembershipStore := (replace (example_membership OPERATOR DISABLED 2000000) provisioned).1.

Lemma provisioned_reachable : memberships_reachable provisioned.
Proof. apply star_one. unfold provisioned. apply ms_provision. Qed.

(** The second revision; a first revision that lost its identity's slot; a stale update. *)
Example membership_examples :
  (option_map (λ m, (mb_revision m, mb_status m)) (cn_data disabled !! "member-1"),
   (provision (example_membership OPERATOR DISABLED 1000000) disabled).2,
   (replace (example_membership OPERATOR ACTIVE 1500000) disabled).2)
  = (Some (2, DISABLED), Err MembershipConflict, Err MembershipConflict).
Proof. vm_compute. reflexivity. Qed.

Lemma memberships_advance_witness :
  ∃ m', cn_data disabled !! "member-1" = Some m' ∧
    membership_le (example_membership OPERATOR ACTIVE 1000000) m' ∧ mb_membership_id m' = "member-1" ∧
    validate_membership m' = Ok () ∧
    ∀ k2 m2, cn_data disabled !! k2 = Some m2 → identity_key m2 = identity_key m' → k2 = "member-1".
Proof.
  apply (memberships_advance provisioned).
  - exact provisioned_reachable.
  - apply star_one. unfold disabled. apply ms_replace.
  - vm_compute. reflexivity.
Defined.
