(* ===== verification/Authorization.v ===== *)
(** * Role-based authorization (controlplane/authorization.py)

    The pure evaluator over the memberships a provider returns, and the authorizer that reads
    them from the membership directory.  A provider is what its call gave: the memberships, or
    an exception. *)

From S2P Require Import Prelude.
From S2P Require Import Contracts.
From S2P Require Import Sqlite.
From S2P Require Import ControlModels.
From S2P Require Import Membership.

Definition all_actions : list AccessAction :=
  [TRANSACTION_CREATE; TRANSACTION_READ; TRANSACTION_APPROVE; TRANSACTION_CANCEL; AUDIT_READ; MEMBERSHIP_MANAGE].
Definition all_roles : list MembershipRole :=
  [TENANT_ADMIN; OPERATOR; APPROVER; ADAPTER_DEVELOPER; AUDITOR; VIEWER; SERVICE_ACCOUNT_ROLE].

Definition ROLE_ACTIONS (role : MembershipRole) : list AccessAction :=
  match role with
  | TENANT_ADMIN => all_actions
  | OPERATOR => [TRANSACTION_CREATE; TRANSACTION_READ; TRANSACTION_CANCEL]
  | APPROVER => [TRANSACTION_READ; TRANSACTION_APPROVE]
  | ADAPTER_DEVELOPER => [TRANSACTION_READ]
  | AUDITOR => [TRANSACTION_READ; AUDIT_READ]
  | VIEWER => [TRANSACTION_READ]
  | SERVICE_ACCOUNT_ROLE => [TRANSACTION_CREATE; TRANSACTION_READ]
  end.

(** The complete scope, enforced on every membership of the provider. *)
Definition in_scope (request : AuthorizationRequest) (m : TenantMembership) : bool :=
  held_by (az_principal request) (az_tenant_id request) (az_environment_id request) m
  && bool_decide (mb_status m = ACTIVE).
Definition matched_memberships (request : AuthorizationRequest) (memberships : list TenantMembership)
    : list TenantMembership :=
  sorted_by role_text String.le (List.filter (in_scope request) memberships).

(** [max(..., default=None)]. *)
Definition max_of (l : list Z) : option Z :=
  match l with [] => None | z :: l' => Some (fold_left Z.max l' z) end.

Definition permits (request : AuthorizationRequest) (m : TenantMembership) : bool :=
  mem (az_action request) (ROLE_ACTIONS (mb_role m)).

Section evaluator.
Context `{Sha256, FloatRepr}.

(** [_evaluate_memberships]; every action is one of the enumeration. *)
Definition evaluate_memberships (request : AuthorizationRequest) (memberships : list TenantMembership)
    : result string AuthorizationDecision :=
  let matched := matched_memberships request memberships in
  let roles := map mb_role matched in
  let revision := max_of (map mb_revision matched) in
  match matched with
  | [] => issue_decision request false "tenant_membership_missing" [] None
  | _ =>
      if negb (existsb (permits request) matched)
      then issue_decision request false "action_not_permitted" roles revision
      else issue_decision request true "allowed" roles revision
  end.

(** [evaluate]: a failing provider, or a decision that cannot be issued, denies. *)
Definition evaluate {E} (request : AuthorizationRequest) (values : result E (list TenantMembership))
    : result string AuthorizationDecision :=
  let denied := issue_decision request false "membership_provider_error" [] None in
  match values with
  | Err _ => denied
  | Ok memberships =>
      match evaluate_memberships request memberships with
      | Err _ => denied
      | Ok d => Ok d
      end
  end.

(** [MembershipAuthorizer.authorize] on the SQLite directory. *)
Definition authorize (s : MembershipStore) (request : AuthorizationRequest)
    : result string AuthorizationDecision :=
  evaluate request
    (get_memberships s (az_principal request) (az_tenant_id request) (az_environment_id request)).

(** ** Lemmas *)

Lemma in_scope_spec request m :
  in_scope request m = true ↔
  mb_issuer m = pc_issuer (az_principal request) ∧ mb_subject m = pc_subject (az_principal request) ∧
  mb_principal_type m = pc_principal_type (az_principal request) ∧
  mb_tenant_id m = az_tenant_id request ∧ mb_environment_id m = az_environment_id request ∧
  mb_status m = ACTIVE.
Proof. unfold in_scope, held_by. rewrite !andb_true_iff, !bool_decide_eq_true. tauto. Qed.

Lemma matched_elem request memberships m :
  m ∈ matched_memberships request memberships ↔ m ∈ memberships ∧ in_scope request m = true.
Proof. unfold matched_memberships. rewrite sorted_by_elem. apply list_filter_elem. Qed.

Lemma matched_sorted request memberships :
  let roles := map mb_role (matched_memberships request memberships) in
  sorted_by MembershipRole_value String.le roles = roles.
Proof.
  intros roles.
  assert (StronglySorted (by_key MembershipRole_value String.le) roles) as Hs.
  { unfold roles. pose proof (sorted_by_sorted role_text String.le
      (List.filter (in_scope request) memberships)) as Hs.
    fold (matched_memberships request memberships) in Hs. revert Hs.
    generalize (matched_memberships request memberships).
    induction 1 as [|m l Hs IH Hall]; [constructor|]. cbn. constructor; [done|].
    apply Forall_map. eapply Forall_impl; [exact Hall|done]. }
  eapply StronglySorted_unique_strong; [|apply (sorted_by_sorted MembershipRole_value String.le)|exact Hs|].
  - intros x y _ _ H1 H2. apply (inj MembershipRole_value). by apply (anti_symm String.le).
  - apply sorted_by_perm.
Qed.

Lemma fold_max_bounds l z lo hi :
  lo ≤ z ≤ hi → (∀ x, x ∈ l → x ≤ hi) → lo ≤ fold_left Z.max l z ≤ hi.
Proof.
  revert z. induction l as [|x l IH]; cbn; [done|]. intros z Hz Hl. apply IH.
  - specialize (Hl x ltac:(set_solver)). lia.
  - intros y Hy. apply Hl. set_solver.
Qed.

Lemma max_of_bounds l z lo hi :
  (∀ x, x ∈ l → lo ≤ x ≤ hi) → max_of l = Some z → lo ≤ z ≤ hi.
Proof.
  destruct l as [|x l]; [done|]. cbn. intros Hl [= <-]. apply fold_max_bounds.
  - apply Hl. set_solver.
  - intros y Hy. apply (Hl y). set_solver.
Qed.

Lemma authorization_decision_inv request allowed reason roles revision d :
  issue_decision request allowed reason roles revision = Ok d →
  validate_decision d = Ok () ∧ ad_request d = request ∧ ad_allowed d = allowed ∧
  ad_reason_code d = reason ∧ ad_matched_roles d = roles ∧ ad_membership_revision d = revision.
Proof. unfold issue_decision. by intros ([] & Hv & [= <-])%bind_ok. Qed.

Lemma issue_decision_total `{!Sha256Laws} request allowed reason roles revision :
  Name_ok reason = true → max_length 7 roles = true → NoDup roles →
  opt_ok (λ r, between 1 r max_revision) revision = true →
  sorted_by MembershipRole_value String.le roles = roles →
  (allowed = true → roles ≠ [] ∧ revision ≠ None) →
  ∃ d, issue_decision request allowed reason roles revision = Ok d.
Proof.
  intros Hn Hl Hd Hr Hs Ha. unfold issue_decision.
  match goal with |- context [validate_decision ?d] => assert (validate_decision d = Ok ()) as ->; [|by eexists] end.
  unfold validate_decision. cbn [ad_reason_code ad_matched_roles ad_membership_revision ad_decision_digest ad_allowed].
  rewrite Hn, Hl, Hr, value_digest_ok. cbn [raise_if negb andb].
  rewrite (proj2 (has_duplicates_false roles) Hd), Hs. cbn [raise_if negb].
  destruct allowed; cbn [andb].
  - destruct (Ha eq_refl) as [? ?]. rewrite (bool_decide_false (roles = [])) by done.
    destruct revision; [|done]. cbn [is_none orb]. by rewrite !bool_decide_true by done.
  - by rewrite !bool_decide_true by done.
Qed.

Lemma denied_total `{!Sha256Laws} request :
  ∃ d, issue_decision request false "membership_provider_error" [] None = Ok d.
Proof. apply issue_decision_total; [done|done|constructor|done|done|done]. Qed.

Lemma evaluate_memberships_inv request memberships d :
  evaluate_memberships request memberships = Ok d →
  validate_decision d = Ok () ∧ ad_request d = request ∧
  ad_reason_code d ≠ "membership_provider_error" ∧
  (ad_allowed d = true ↔
    ∃ m, m ∈ memberships ∧ in_scope request m = true ∧ az_action request ∈ ROLE_ACTIONS (mb_role m)).
Proof.
  unfold evaluate_memberships.
  assert (∀ m, m ∈ matched_memberships request memberships ∧ permits request m = true ↔
    m ∈ memberships ∧ in_scope request m = true ∧ az_action request ∈ ROLE_ACTIONS (mb_role m)) as Hp.
  { intros m. unfold permits. rewrite matched_elem, mem_true. tauto. }
  setoid_rewrite <-Hp. destruct (matched_memberships _ _) as [|m0 l] eqn:E.
  - intros (? & ? & -> & -> & _)%authorization_decision_inv. split_and!; try done. split; [done|].
    intros (m & Hm & _). by apply elem_of_nil in Hm.
  - rewrite <-E. clear E. destruct (existsb _ _) eqn:Ex; cbn [negb];
      intros (? & ? & -> & -> & _)%authorization_decision_inv; split_and!; try done.
    + split; [|done]. intros _. apply existsb_exists in Ex as (m & Hm & ?).
      exists m. by rewrite list_elem_of_In.
    + split; [done|]. intros (m & Hm & Hpm). rewrite existsb_elem_false in Ex.
      by rewrite (Ex _ Hm) in Hpm.
Qed.

Lemma evaluate_memberships_reason request memberships d :
  evaluate_memberships request memberships = Ok d →
  ∃ in_tenant : bool, (in_tenant = true ↔ ∃ m, m ∈ memberships ∧ in_scope request m = true) ∧
    ad_reason_code d = if ad_allowed d then "allowed"
                       else if in_tenant then "action_not_permitted" else "tenant_membership_missing".
Proof.
  unfold evaluate_memberships. setoid_rewrite <-(matched_elem request memberships).
  destruct (matched_memberships _ _) as [|m0 l].
  - intros (_ & _ & -> & -> & _)%authorization_decision_inv. exists false. split; [|done].
    split; [done|]. by intros (m & Hm%elem_of_nil).
  - destruct (negb _); intros (_ & _ & -> & -> & _)%authorization_decision_inv; exists true; (split; [|done]);
      (split; [|done]); intros _; exists m0; by left.
Qed.

(** What the evaluator returns, whatever the provider did. *)
Lemma evaluate_inv `{!Sha256Laws} {E} request (values : result E (list TenantMembership)) :
  ∃ d, evaluate request values = Ok d ∧ validate_decision d = Ok () ∧ ad_request d = request ∧
    (ad_allowed d = true → ∃ memberships m, values = Ok memberships ∧ m ∈ memberships ∧
       in_scope request m = true ∧ az_action request ∈ ROLE_ACTIONS (mb_role m)).
Proof.
  destruct (denied_total request) as [d0 Hd0].
  pose proof (authorization_decision_inv _ _ _ _ _ _ Hd0) as (Hv & Hr & Ha & _).
  unfold evaluate. rewrite Hd0.
  destruct values as [memberships|]; [destruct (evaluate_memberships _ _) as [d|] eqn:Ed|];
    [|exists d0; by rewrite Ha..].
  exists d. apply evaluate_memberships_inv in Ed as (? & ? & _ & Hd). split_and!; try done.
  intros (m & ?)%Hd. by exists memberships, m.
Qed.

Lemma evaluate_memberships_total `{!Sha256Laws} request memberships :
  NoDup (map mb_role (matched_memberships request memberships)) →
  (∀ m, m ∈ memberships → 1 ≤ mb_revision m ≤ max_revision) →
  ∃ d, evaluate_memberships request memberships = Ok d.
Proof.
  intros Hn Hrev. unfold evaluate_memberships. pose proof (matched_sorted request memberships) as Hs.
  set (matched := matched_memberships request memberships) in *.
  assert (max_length 7 (map mb_role matched) = true) as Hl.
  { apply Z.leb_le. assert (length (map mb_role matched) ≤ length all_roles)%nat; [|cbn in *; lia].
    apply submseteq_length, NoDup_submseteq; [done|]. intros [] _; unfold all_roles; set_solver. }
  assert (opt_ok (λ r, between 1 r max_revision) (max_of (map mb_revision matched)) = true) as Hr.
  { destruct (max_of _) as [z|] eqn:Ez; [|done]. cbn.
    apply (max_of_bounds _ _ 1 max_revision) in Ez; [unfold between; lia|].
    intros x (m & -> & Hm)%list_elem_of_fmap. apply Hrev. by apply matched_elem in Hm as [? _]. }
  destruct matched as [|m0 l]; [by apply issue_decision_total|].
  destruct (negb _); by apply issue_decision_total.
Qed.

(** The directory holds at most one membership per role in a scope. *)
Lemma directory_roles_NoDup (rows : Memberships) request l :
  directory_ok rows → NoDup l →
  (∀ m, m ∈ l → rows !! mb_membership_id m = Some m ∧ in_scope request m = true) →
  NoDup (map mb_role l).
Proof.
  intros Hok Hn Hl. apply NoDup_fmap_2_strong; [|done].
  intros m1 m2 [H1 S1]%Hl [H2 S2]%Hl Er.
  apply in_scope_spec in S1 as (? & ? & _ & ? & ? & _), S2 as (? & ? & _ & ? & ? & _).
  assert (mb_membership_id m1 = mb_membership_id m2); [|congruence].
  eapply (dr_unique _ Hok); [done..|]. unfold identity_key. congruence.
Qed.

Lemma list_filter_NoDup {A} (p : A → bool) (l : list A) : NoDup l → NoDup (List.filter p l).
Proof. rewrite !NoDup_ListNoDup. apply List.NoDup_filter. Qed.

Lemma directory_values_NoDup (rows : Memberships) : directory_ok rows → NoDup (map_to_list rows).*2.
Proof.
  intros Hok. apply NoDup_fmap_2_strong, NoDup_map_to_list.
  intros [k1 m1] [k2 m2] H1%elem_of_map_to_list H2%elem_of_map_to_list Em. cbn in *. subst m2.
  destruct (dr_id _ Hok _ _ H1) as [<- _], (dr_id _ Hok _ _ H2) as [<- _]. done.
Qed.

Lemma validate_membership_revision m : validate_membership m = Ok () → 1 ≤ mb_revision m ≤ max_revision.
Proof.
  unfold validate_membership. rewrite raise_if_then. intros [Hf _].
  apply negb_false_iff in Hf. rewrite !andb_true_iff in Hf. unfold between in Hf. lia.
Qed.

Lemma directory_memberships s request memberships :
  get_memberships s (az_principal request) (az_tenant_id request) (az_environment_id request) = Ok memberships →
  memberships ≡ₚ List.filter (held_by (az_principal request) (az_tenant_id request) (az_environment_id request))
    (map_to_list (cn_data s)).*2.
Proof.
  unfold get_memberships. intros ([] & _ & [= <-])%bind_ok. apply sorted_by_perm.
Qed.

(** An active membership of the directory, of the principal in the tenant and environment. *)
Definition member (s : MembershipStore) (request : AuthorizationRequest) (m : TenantMembership) : Prop :=
  cn_data s !! mb_membership_id m = Some m ∧
  mb_issuer m = pc_issuer (az_principal request) ∧ mb_subject m = pc_subject (az_principal request) ∧
  mb_principal_type m = pc_principal_type (az_principal request) ∧
  mb_tenant_id m = az_tenant_id request ∧ mb_environment_id m = az_environment_id request ∧
  mb_status m = ACTIVE.

Lemma directory_member s request memberships m :
  memberships_reachable s →
  get_memberships s (az_principal request) (az_tenant_id request) (az_environment_id request) = Ok memberships →
  m ∈ memberships ∧ in_scope request m = true ↔ member s request m.
Proof.
  intros Hok%memberships_reachable_ok HP%directory_memberships. unfold member. rewrite <-in_scope_spec.
  rewrite HP, list_filter_elem, list_elem_of_fmap. split.
  - intros [[([k m'] & -> & Hk%elem_of_map_to_list) _] ?]. cbn.
    by destruct (dr_id _ Hok _ _ Hk) as [-> _].
  - intros [Hk Hs]. split_and!; [|by apply andb_true_iff in Hs as [? _]|done].
    exists (mb_membership_id m, m). by rewrite elem_of_map_to_list.
Qed.

(** On an open directory the evaluator decides on its memberships. *)
Lemma authorize_decides `{!Sha256Laws} s request :
  memberships_reachable s → cn_closed s = false →
  ∃ d (in_tenant : bool), authorize s request = Ok d ∧ validate_decision d = Ok () ∧ ad_request d = request ∧
    (ad_allowed d = true ↔ ∃ m, member s request m ∧ az_action request ∈ ROLE_ACTIONS (mb_role m)) ∧
    (in_tenant = true ↔ ∃ m, member s request m) ∧
    ad_reason_code d = if ad_allowed d then "allowed"
                       else if in_tenant then "action_not_permitted" else "tenant_membership_missing".
Proof.
  intros Hs Hc. pose proof (memberships_reachable_ok s Hs) as Hok. unfold authorize.
  destruct (get_memberships _ _ _ _) as [memberships|e] eqn:Eg;
    [|by unfold get_memberships, ensure_open in Eg; rewrite Hc in Eg].
  pose proof (λ m, directory_member s request memberships m Hs Eg) as Hm.
  pose proof (directory_memberships _ _ _ Eg) as HP.
  destruct (evaluate_memberships_total request memberships) as [d Hd].
  - apply (directory_roles_NoDup (cn_data s) request); [done| |intros m [Hk ?]%matched_elem%Hm; by rewrite in_scope_spec].
    unfold matched_memberships. rewrite sorted_by_perm. apply list_filter_NoDup. rewrite HP.
    by apply list_filter_NoDup, directory_values_NoDup.
  - intros m Hin. apply validate_membership_revision.
    rewrite HP, list_filter_elem, list_elem_of_fmap in Hin.
    destruct Hin as [([k m'] & -> & Hk%elem_of_map_to_list) _]. by apply (dr_id _ Hok) in Hk as [_ ?].
  - cbn. rewrite Hd. destruct (evaluate_memberships_reason _ _ _ Hd) as (b & Hb & Hr).
    apply evaluate_memberships_inv in Hd as (? & ? & _ & Ha).
    exists d, b. split_and!; try done.
    + rewrite Ha. split; intros (m & ?); exists m; specialize (Hm m); tauto.
    + rewrite Hb. split; intros (m & ?); exists m; specialize (Hm m); tauto.
Qed.

(** ** Theorems *)

(** Authorization fails closed: whatever the membership provider returns or raises, the
    evaluator issues a valid, digest-bound decision about exactly the request it was given, and
    the decision allows only when the provider returned an active membership of the principal
    in the request's tenant and environment whose role permits the action. *)
Theorem authorization_fail_closed `{!Sha256Laws} {E} request (values : result E (list TenantMembership)) :
  ∃ d, evaluate request values = Ok d ∧ validate_decision d = Ok () ∧ ad_request d = request ∧
    (ad_allowed d = true → ∃ memberships m, values = Ok memberships ∧ m ∈ memberships ∧
       in_scope request m = true ∧ az_action request ∈ ROLE_ACTIONS (mb_role m)).
Proof. apply evaluate_inv. Qed.

(** On an open directory with any history the authorizer decides exactly: it always issues
    a decision, the decision allows if and only if the directory holds an active membership of
    the principal (issuer, subject and type) in the tenant and environment whose role permits
    the action, and it is never the provider-error denial. *)
Theorem authorization_exact `{!Sha256Laws} s request :
  memberships_reachable s → cn_closed s = false →
  ∃ d, authorize s request = Ok d ∧ validate_decision d = Ok () ∧ ad_request d = request ∧
    ad_reason_code d ≠ "membership_provider_error" ∧
    (ad_allowed d = true ↔
      ∃ m, member s request m ∧ az_action request ∈ ROLE_ACTIONS (mb_role m)).
Proof.
  intros Hs Hc. destruct (authorize_decides s request Hs Hc) as (d & b & ? & ? & ? & ? & _ & Hr).
  exists d. rewrite Hr. split_and!; try done. by destruct (ad_allowed d), b.
Qed.

End evaluator.

(** ** Decisions on the example directory *)

#[local] Existing Instances distinct_sha256 distinct_sha256_laws example_float_repr.

Definition example_principal : Principal := {| pc_issuer := "https://issuer"; pc_subject := "user-1";
  pc_principal_type := HUMAN; pc_audiences := ["cargomesh"]; pc_client_id := None;
  pc_token_id_digest := value_digest (JStr "token"); pc_issued_at := 0; pc_expires_at := 9000000;
  pc_authenticated_at := 1000000 |}.
Definition example_request (action : AccessAction) : AuthorizationRequest := {|
  az_principal := example_principal; az_tenant_id := "tenant"; az_environment_id := "prod";
  az_action := action; az_resource_type := "transaction"; az_resource_id := Some "tx-1";
  az_evaluated_at := 3000000 |}.
Definition outcome_of (d : result string AuthorizationDecision) : option (bool * string) :=
  match d with Ok d => Some (ad_allowed d, ad_reason_code d) | Err _ => None end.

(** An operator creates but does not approve; once disabled it does neither; a provider that
    lists a membership twice, or fails, denies. *)
Example authorization_examples :
  map outcome_of [
    authorize provisioned (example_request TRANSACTION_CREATE);
    authorize provisioned (example_request TRANSACTION_APPROVE);
    authorize disabled (example_request TRANSACTION_CREATE);
    authorize (close provisioned) (example_request TRANSACTION_CREATE);
    evaluate (E := string) (example_request TRANSACTION_CREATE)
      (Ok [example_membership OPERATOR ACTIVE 1000000; example_membership OPERATOR ACTIVE 1000000])]
  = [Some (true, "allowed"); Some (false, "action_not_permitted"); Some (false, "tenant_membership_missing");
     Some (false, "membership_provider_error"); Some (false, "membership_provider_error")].
Proof. vm_compute. reflexivity. Qed.

Lemma authorization_fail_closed_witness :
  ∃ d, evaluate (E := string) (example_request TRANSACTION_CREATE) (Err "down") = Ok d ∧
    validate_decision d = Ok () ∧ ad_request d = example_request TRANSACTION_CREATE ∧
    (ad_allowed d = true → ∃ memberships m, @Err string (list TenantMembership) "down" = Ok memberships ∧ m ∈ memberships ∧
       in_scope (example_request TRANSACTION_CREATE) m = true ∧
       az_action (example_request TRANSACTION_CREATE) ∈ ROLE_ACTIONS (mb_role m)).
Proof. apply authorization_fail_closed. Defined.

Lemma authorization_exact_witness :
  ∃ d, authorize provisioned (example_request TRANSACTION_CREATE) = Ok d ∧ validate_decision d = Ok () ∧
    ad_request d = example_request TRANSACTION_CREATE ∧
    ad_reason_code d ≠ "membership_provider_error" ∧
    (ad_allowed d = true ↔ ∃ m, member provisioned (example_request TRANSACTION_CREATE) m ∧
       az_action (example_request TRANSACTION_CREATE) ∈ ROLE_ACTIONS (mb_role m)).
Proof. apply authorization_exact; [exact provisioned_reachable|reflexivity]. Defined.
