(* ===== verification/AccessControl.v ===== *)
(** * Access control (controlplane/access.py)

    The orchestration of authentication, authorization and audit for one request.  The
    authenticator and the authorizer are arguments; the audit writer is an interface with laws,
    which the SQLite ledger of [AuditChain] implements.  Times are timezone-aware, in
    microseconds; the event id [uuid4] draws is an argument. *)

From Stdlib Require Import Ascii.
From S2P Require Import Prelude.
From S2P Require Import Contracts.
From S2P Require Import Sqlite.
From S2P Require Import ControlModels.
From S2P Require Import AuditChain.
From S2P Require Import Membership.
From S2P Require Import Authorization.

(** [AccessControlError], or a [ValidationError] of a contract built here. *)
Inductive AccessError :=
| AccessControlError (code message : string) (status_code : Z) (authenticate_header : bool)
| AccessValidationError (message : string).

Definition authentication_required : AccessError := AccessControlError "authentication_required" "Bearer authentication is required" 401 true.
Definition invalid_credentials : AccessError := AccessControlError "invalid_credentials" "Bearer credentials are invalid" 401 true.
Definition access_control_unavailable : AccessError := AccessControlError "access_control_unavailable" "Access control is unavailable" 503 false.
Definition security_audit_unavailable : AccessError := AccessControlError "audit_unavailable" "Security audit is unavailable" 503 false.
Definition transaction_not_found : AccessError := AccessControlError "transaction_not_found" "Transaction was not found" 404 false.
Definition authorization_denied : AccessError := AccessControlError "authorization_denied" "The authenticated principal is not authorized for this action" 403 false.

Record AccessGrant := {
  gr_principal : Principal;
  gr_decision : AuthorizationDecision;
  gr_request_id : string }.

(** ** The audit writer *)

(** What [AuditWriter] implementations do. *)
Class AuditWriter (S : Type) := write_event : AuditEvent → S → S * option AuditRecord.

(** What they promise: a record returned is kept, for the event given when its id is new to
    its tenant, and records are never dropped. *)
Class AuditWriterLaws (S : Type) `{AuditWriter S} := {
  writer_ok : S → Prop;
  recorded : S → AuditRecord → Prop;
  write_keeps s e s' x : writer_ok s → write_event e s = (s', x) →
    writer_ok s' ∧ ∀ r, recorded s r → recorded s' r;
  write_records s e s' r : writer_ok s → write_event e s = (s', Some r) →
    recorded s' r ∧
    ((∀ r0, recorded s r0 → (au_tenant_id (rc_event r0), au_event_id (rc_event r0))
                            ≠ (au_tenant_id e, au_event_id e)) → rc_event r = e) }.

(** ** Bearer headers *)

(** [authorization.partition(" ")]: [None] when there is no separator. *)
Fixpoint partition_space (s : string) : option (string * string) :=
  match s with
  | EmptyString => None
  | String c s' =>
      if code c =? 32 then Some (EmptyString, s')
      else match partition_space s' with
           | None => None
           | Some (scheme, token) => Some (String c scheme, token)
           end
  end.
Definition bearer_token (authorization : string) : option string :=
  match partition_space authorization with
  | None => None
  | Some (scheme, token) =>
      if negb (bool_decide (lower scheme = "bearer")) || bool_decide (token = "")
         || negb (stripped token) || negb (forall_chars (λ c, negb (code c =? 32)) token)
      then None else Some token
  end.

(** What the authenticator raises. *)
Inductive AuthenticatorError := RaisesAccess (e : AccessError) | RaisesOther.

(** [authenticate]. *)
Definition authenticate (authenticator : string → Z → result AuthenticatorError Principal)
    (authorization : option string) (now : Z) : result AccessError Principal :=
  match authorization with
  | None => Err authentication_required
  | Some text =>
      match bearer_token text with
      | None => Err invalid_credentials
      | Some token =>
          match authenticator token now with
          | Ok p => Ok p
          | Err (RaisesAccess e) => Err e
          | Err RaisesOther => Err invalid_credentials
          end
      end
  end.

(** [dict.update]. *)
Fixpoint set_detail (key : string) (v : AuditScalar) (d : list (string * AuditScalar))
    : list (string * AuditScalar) :=
  match d with
  | [] => [(key, v)]
  | (k, w) :: d' => if bool_decide (k = key) then (k, v) :: d' else (k, w) :: set_detail key v d'
  end.
Definition bounded_details (phase : string) (details : list (string * AuditScalar))
    : list (string * AuditScalar) :=
  fold_left (λ d kv, set_detail kv.1 kv.2 d) details [("phase", AStr phase)].

Section controller.
Context `{Sha256, FloatRepr} {S : Type} `{AuditWriter S}.
Context (authorizer : AuthorizationRequest → result string AuthorizationDecision) (environment_id : string).

(** [_write_audit]. *)
Definition access_event (event_id : string) (grant : AccessGrant) (outcome : AuditResult)
    (reason_code phase : string) (details : list (string * AuditScalar)) (occurred_at : Z) : AuditEvent :=
  let request := ad_request (gr_decision grant) in {|
  au_event_id := event_id; au_tenant_id := az_tenant_id request;
  au_environment_id := az_environment_id request; au_actor_issuer := pc_issuer (gr_principal grant);
  au_actor_subject := pc_subject (gr_principal grant);
  au_actor_type := pc_principal_type (gr_principal grant); au_action := az_action request;
  au_resource_type := az_resource_type request; au_resource_id := az_resource_id request;
  au_result := outcome; au_reason_code := reason_code; au_request_id := gr_request_id grant;
  au_authorization_decision_digest := Some (ad_decision_digest (gr_decision grant));
  au_before_digest := None; au_after_digest := None;
  au_details := bounded_details phase details; au_occurred_at := occurred_at;
  au_event_digest := EmptyString |}.
Definition write_audit (event_id : string) (grant : AccessGrant) (outcome : AuditResult)
    (reason_code phase : string) (details : list (string * AuditScalar)) (occurred_at : Z) (s : S)
    : S * result AccessError AuditRecord :=
  match issue_event (access_event event_id grant outcome reason_code phase details occurred_at) with
  | Err m => (s, Err (AccessValidationError m))
  | Ok event =>
      match write_event event s with
      | (s', Some r) => (s', Ok r)
      | (s', None) => (s', Err security_audit_unavailable)
      end
  end.

(** [require]. *)
Definition access_request (principal : Principal) (action : AccessAction) (tenant_id resource_type : string)
    (resource_id : option string) (now : Z) : AuthorizationRequest := {|
  az_principal := principal; az_tenant_id := tenant_id; az_environment_id := environment_id;
  az_action := action; az_resource_type := resource_type; az_resource_id := resource_id;
  az_evaluated_at := now |}.
Definition denial (reason : string) : AccessError :=
  if bool_decide (reason = "membership_provider_error") then access_control_unavailable
  else if mem reason ["tenant_membership_missing"; "environment_scope_mismatch"] then transaction_not_found
  else authorization_denied.
Definition require (event_id : string) (principal : Principal) (action : AccessAction)
    (tenant_id resource_type : string) (resource_id : option string) (request_id : string) (now : Z) (s : S)
    : S * result AccessError AccessGrant :=
  let request := access_request principal action tenant_id resource_type resource_id now in
  match validate_authorization_request request with
  | Err m => (s, Err (AccessValidationError m))
  | Ok _ =>
      match authorizer request with
      | Err _ => (s, Err access_control_unavailable)
      | Ok decision =>
          if negb (bool_decide (ad_request decision = request)) then (s, Err access_control_unavailable)
          else
            let grant := {| gr_principal := principal; gr_decision := decision; gr_request_id := request_id |} in
            match write_audit event_id grant (if ad_allowed decision then ALLOWED else DENIED)
                    (ad_reason_code decision) "authorization" [] now s with
            | (s', Err e) => (s', Err e)
            | (s', Ok _) =>
                if ad_allowed decision then (s', Ok grant)
                else (s', Err (denial (ad_reason_code decision)))
            end
      end
  end.

(** [record_outcome]. *)
Definition record_outcome (event_id : string) (grant : AccessGrant) (succeeded : bool) (reason_code : string)
    (details : list (string * AuditScalar)) (now : Z) (s : S) : S * result AccessError AuditRecord :=
  write_audit event_id grant (if succeeded then ALLOWED else ERROR) reason_code "outcome" details now s.

(** ** Lemmas *)

(** The event an access writes. *)
Definition event_for (event_id : string) (grant : AccessGrant) (outcome : AuditResult)
    (reason_code phase : string) (details : list (string * AuditScalar)) (occurred_at : Z) : AuditEvent :=
  let e := access_event event_id grant outcome reason_code phase details occurred_at in
  with_event_digest e (value_digest (JObj (event_fields e))).

(** An event id new to its tenant. *)
Definition unused `{!AuditWriterLaws S} (s : S) (tenant_id event_id : string) : Prop :=
  ∀ r, recorded s r → (au_tenant_id (rc_event r), au_event_id (rc_event r)) ≠ (tenant_id, event_id).

Lemma write_audit_inv `{!AuditWriterLaws S} event_id grant outcome reason phase details now s s' x :
  writer_ok s → write_audit event_id grant outcome reason phase details now s = (s', x) →
  writer_ok s' ∧ (∀ r, recorded s r → recorded s' r) ∧
  match x with
  | Ok r => recorded s' r ∧ (unused s (az_tenant_id (ad_request (gr_decision grant))) event_id →
              rc_event r = event_for event_id grant outcome reason phase details now)
  | Err e => e = security_audit_unavailable ∨ ∃ m, e = AccessValidationError m
  end.
Proof.
  intros Hok. unfold write_audit. destruct (issue_event _) as [e|m] eqn:Ei; [|intros [= <- <-]; eauto].
  apply issue_event_inv in Ei as [_ ->]. destruct (write_event _ s) as [s1 [r|]] eqn:Ew;
    intros [= <- <-]; pose proof (write_keeps _ _ _ _ Hok Ew) as [? ?]; [|by auto].
  destruct (write_records _ _ _ _ Hok Ew) as [Hr Hu]. split_and!; try done.
Qed.

Lemma require_inv `{!AuditWriterLaws S} event_id principal action tenant_id resource_type resource_id
    request_id now s s' x :
  let request := access_request principal action tenant_id resource_type resource_id now in
  writer_ok s → unused s tenant_id event_id →
  require event_id principal action tenant_id resource_type resource_id request_id now s = (s', x) →
  writer_ok s' ∧ (∀ r, recorded s r → recorded s' r) ∧
  ((s' = s ∧ validate_authorization_request request ≠ Ok () ∧ ∃ m, x = Err (AccessValidationError m)) ∨
   x = Err access_control_unavailable ∨ x = Err security_audit_unavailable ∨
   (∃ m, x = Err (AccessValidationError m)) ∨
   ∃ d r, authorizer request = Ok d ∧ ad_request d = request ∧ recorded s' r ∧
     let grant := {| gr_principal := principal; gr_decision := d; gr_request_id := request_id |} in
     rc_event r = event_for event_id grant (if ad_allowed d then ALLOWED else DENIED) (ad_reason_code d)
       "authorization" [] now ∧
     x = if ad_allowed d then Ok grant else Err (denial (ad_reason_code d))).
Proof.
  intros request Hok Hu. unfold require. fold request.
  destruct (validate_authorization_request request) as [[]|m]; [|intros [= <- <-]; eauto 10].
  destruct (authorizer request) as [d|] eqn:Ea; [|intros [= <- <-]; eauto 10].
  destruct (negb _) eqn:Er; [intros [= <- <-]; eauto 10|]. boolify.
  destruct (write_audit _ _ _ _ _ _ _ _) as [s1 y] eqn:Ew.
  apply write_audit_inv in Ew as (? & ? & Hy); [|done]. cbn [gr_decision] in Hy.
  destruct y as [r|e].
  - destruct Hy as [Hr Hy]. intros Hx.
    assert (s1 = s' ∧ x = if ad_allowed d then Ok {| gr_principal := principal; gr_decision := d;
      gr_request_id := request_id |} else Err (denial (ad_reason_code d))) as [<- ->]
      by (destruct (ad_allowed d); by injection Hx as <- <-).
    split; [done|]. split; [done|]. do 4 right. exists d, r. split_and!; try done.
    apply Hy. by rewrite Er.
  - intros [= <- <-]. destruct Hy as [->|[m ->]]; eauto 10.
Qed.

End controller.

(** ** The SQLite ledger as audit writer *)

Section ledger.
Context `{Sha256, FloatRepr}.

#[export] Instance audit_ledger : AuditWriter AuditStore := λ e s,
  match append e s with (s', Ok r) => (s', Some r) | (s', Err _) => (s', None) end.

#[export, refine] Instance audit_ledger_laws : AuditWriterLaws AuditStore := {|
  writer_ok s := ledger_ok (cn_data s);
  recorded s r := row_of r ∈ cn_data s |}.
Proof.
  - intros s e s' x Hok Hw. assert (s' = (append e s).1) as ->.
    { unfold write_event, audit_ledger in Hw. destruct (append e s) as [s1 []]; by injection Hw. }
    destruct (audit_step_ok s (append e s).1 Hok (as_append s e)) as [Hok2 [k Ek]].
    split; [done|]. rewrite Ek. intros r Hr. apply elem_of_app. by left.
  - intros s e s' r Hok. unfold write_event, audit_ledger.
    destruct (append e s) as [s1 [r1|]] eqn:Ea; [intros [= <- <-]|done].
    unfold append in Ea. apply operation_ok in Ea as (_ & _ & _ & rows & Hb & ->). cbn.
    split; [by apply audit_append_ok in Hb as (_ & _ & _ & _ & ? & _)|].
    intros Hn. unfold append_body in Hb. destruct (find_event _ _ _) as [row|] eqn:Ef.
    + apply find_event_Some in Ef as [Hin Ek]. destruct (lo_rows _ Hok _ Hin) as (r0 & -> & _).
      by destruct (Hn _ Hin).
    + destruct (issue_record _ _ _) as [r0|] eqn:Ei; [|done]. injection Hb as <- <-.
      by apply issue_record_inv in Ei as (_ & _ & -> & _).
Defined.

Lemma audit_step_transaction s s' :
  audit_step s s' → cn_in_transaction s = false → cn_in_transaction s' = false.
Proof.
  intros [] Ht; [|unfold close; by destruct (cn_closed s)].
  unfold append, operation, session. rewrite Ht. destruct (ensure_open _ _;; _); [|done].
  by destruct (append_body _ _) as [[]|].
Qed.

Lemma audit_idle s : audit_reachable s → cn_in_transaction s = false.
Proof.
  intros Hs. apply (star_invariant audit_step (λ s, cn_in_transaction s = false) empty_audit s); [|done|exact Hs].
  intros s1 s2 H1 Hs1. by eapply audit_step_transaction.
Qed.

Lemma validate_decision_fields d :
  validate_decision d = Ok () → Name_ok (ad_reason_code d) = true ∧ Digest_ok (ad_decision_digest d) = true.
Proof. unfold validate_decision. intros [Hf _]%raise_if_then. apply negb_false_iff in Hf. rewrite !andb_true_iff in Hf. tauto. Qed.

(** The authorization event of a valid request and decision is valid. *)
Lemma access_event_valid `{!Sha256Laws} event_id grant outcome now :
  validate_authorization_request (ad_request (gr_decision grant)) = Ok () →
  az_principal (ad_request (gr_decision grant)) = gr_principal grant →
  validate_decision (gr_decision grant) = Ok () →
  Identifier_ok event_id = true → Identifier_ok (gr_request_id grant) = true →
  validate_event (event_for event_id grant outcome (ad_reason_code (gr_decision grant)) "authorization" [] now)
  = Ok ().
Proof.
  intros Hr Hp [Hn Hd]%validate_decision_fields He Hq. unfold validate_authorization_request in Hr.
  apply bind_ok in Hr as ([] & Hpr & Hr%raise_if_ok). unfold validate_principal in Hpr.
  apply raise_if_then in Hpr as [Hpf _]. apply negb_false_iff in Hr, Hpf. rewrite !andb_true_iff in Hr. rewrite !andb_true_iff in Hpf.
  destruct Hr as (((Ht & Hv) & Hn') & Hi), Hpf as [[[[[Hpi Hps] _] _] _] _].
  rewrite Hp in Hpi, Hps. unfold validate_event, event_for. cbn -[value_digest event_fields Identifier_ok Name_ok ControlIssuer_ok forallb].
  rewrite He, Ht, Hv, Hpi, Hps, Hn', Hi, Hn, Hq, Hd, value_digest_ok. cbn -[value_digest event_fields forallb].
  rewrite bool_decide_true by done. reflexivity.
Qed.

Lemma write_audit_new `{!Sha256Laws} event_id grant outcome reason details phase now (s : AuditStore) :
  let e := event_for event_id grant outcome reason phase details now in
  audit_reachable s → cn_closed s = false → validate_event e = Ok () →
  unused s (au_tenant_id e) event_id →
  Z.of_nat (length (tenant_rows (cn_data s) (au_tenant_id e))) < max_revision →
  ∃ r, write_audit event_id grant outcome reason phase details now s
       = (with_data s (cn_data s ++ [row_of r]), Ok r) ∧ rc_event r = e.
Proof.
  intros e Hs Hc Hv Hu Hlen. pose proof (audit_reachable_ok s Hs) as Hok.
  assert (find_event (cn_data s) (au_tenant_id e) (au_event_id e) = None) as Hf.
  { destruct (find_event _ _ _) as [row|] eqn:Ef; [exfalso|done]. apply find_event_Some in Ef as [Hin Ek].
    destruct (lo_rows _ Hok _ Hin) as (r & -> & _). by destruct (Hu r Hin). }
  destruct (append_body_new e (cn_data s) Hok Hf Hv Hlen) as (r & Hb & Hr).
  exists r. split; [|done]. unfold write_audit, issue_event. fold (event_for event_id grant outcome reason phase details now).
  fold e. cbn zeta. change (with_event_digest _ _) with e. rewrite Hv. cbn [mbind result_bind].
  unfold write_event, audit_ledger, append.
  rewrite operation_run; [by rewrite Hb|by rewrite Hv|done|by apply audit_idle].
Qed.

(** ** Theorems *)

(** C19. Access fails closed and is audited, whatever the authorizer and for any audit writer that
    keeps its promises: a grant is returned only for an allowing decision of the authorizer
    about exactly this request, and its ALLOWED event is already recorded; a 403 or a 404 is
    answered only for a denial about this request whose DENIED event is recorded; and no record
    written before is lost. *)
Theorem access_fails_closed {S} `{AuditWriter S, !AuditWriterLaws S} authorizer environment_id event_id
    principal action tenant_id resource_type resource_id request_id now (s s' : S) x :
  let request := access_request environment_id principal action tenant_id resource_type resource_id now in
  writer_ok s → unused s tenant_id event_id →
  require authorizer environment_id event_id principal action tenant_id resource_type resource_id request_id
    now s = (s', x) →
  (∀ r, recorded s r → recorded s' r) ∧
  match x with
  | Ok grant =>
      gr_principal grant = principal ∧ gr_request_id grant = request_id ∧
      authorizer request = Ok (gr_decision grant) ∧ ad_request (gr_decision grant) = request ∧
      ad_allowed (gr_decision grant) = true ∧
      ∃ r, recorded s' r ∧ rc_event r = event_for event_id grant ALLOWED
        (ad_reason_code (gr_decision grant)) "authorization" [] now
  | Err e =>
      e = authorization_denied ∨ e = transaction_not_found →
      ∃ d r, authorizer request = Ok d ∧ ad_request d = request ∧ ad_allowed d = false ∧ recorded s' r ∧
        rc_event r = event_for event_id {| gr_principal := principal; gr_decision := d;
          gr_request_id := request_id |} DENIED (ad_reason_code d) "authorization" [] now
  end.
Proof.
  intros request Hok Hu Hr. pose proof (require_inv _ _ _ _ _ _ _ _ _ _ _ _ _ Hok Hu Hr) as (_ & Hk & Hx).
  split; [done|].
  destruct Hx as [(_ & _ & m & ->)|[->|[->|[(m & ->)|(d & r & Ha & Hd & Hrec & He & ->)]]]]; [naive_solver..|].
  destruct (ad_allowed d) eqn:Ed; cbn; [|intros _; by exists d, r].
  split_and!; try done. by exists r.
Qed.

(** C18. With the membership directory and the SQLite ledger, a well-formed request is decided
    exactly: the grant is given if and only if the directory holds an active membership of the
    principal in the request's tenant and environment whose role permits the action; otherwise
    the answer is 403 when the principal is a member of the tenant and 404 when it is not, and
    in each case one record, of that verdict, is appended to the ledger. *)
Theorem access_decides `{!Sha256Laws} directory ledger environment_id event_id principal action tenant_id
    resource_type resource_id request_id now :
  let request := access_request environment_id principal action tenant_id resource_type resource_id now in
  memberships_reachable directory → cn_closed directory = false →
  audit_reachable ledger → cn_closed ledger = false → unused ledger tenant_id event_id →
  Z.of_nat (length (tenant_rows (cn_data ledger) tenant_id)) < max_revision →
  validate_authorization_request request = Ok () → Identifier_ok event_id = true →
  Identifier_ok request_id = true →
  ∃ x r,
    require (authorize directory) environment_id event_id principal action tenant_id resource_type resource_id
      request_id now ledger = (with_data ledger (cn_data ledger ++ [row_of r]), x) ∧
    match x with
    | Ok grant => ad_request (gr_decision grant) = request ∧ au_result (rc_event r) = ALLOWED ∧
        ∃ m, member directory request m ∧ action ∈ ROLE_ACTIONS (mb_role m)
    | Err e => au_result (rc_event r) = DENIED ∧
        (¬ ∃ m, member directory request m ∧ action ∈ ROLE_ACTIONS (mb_role m)) ∧
        ((e = authorization_denied ∧ ∃ m, member directory request m) ∨
         (e = transaction_not_found ∧ ¬ ∃ m, member directory request m))
    end.
Proof.
  intros request Hd Hdo Ha Hao Hu Hlen Hv He Hq.
  destruct (authorize_decides directory request Hd Hdo) as (d & b & Hdec & Hvd & Hreq & Hal & Hb & Hreason).
  set (grant := {| gr_principal := principal; gr_decision := d; gr_request_id := request_id |}).
  destruct (write_audit_new event_id grant (if ad_allowed d then ALLOWED else DENIED) (ad_reason_code d) []
    "authorization" now ledger) as (r & Hw & Hr); try done.
  - apply (access_event_valid event_id grant); cbn; by rewrite ?Hreq.
  - cbn. by rewrite Hreq.
  - cbn. by rewrite Hreq.
  - unfold require. fold request. rewrite Hv, Hdec, bool_decide_true by done. cbn [negb].
    fold grant. rewrite Hw. cbn [az_action] in Hal. destruct (ad_allowed d).
    + exists (Ok grant), r. rewrite Hr. split_and!; try done. by apply Hal.
    + exists (Err (denial (ad_reason_code d))), r. rewrite Hr, Hreason.
      assert (¬ ∃ m, member directory request m ∧ action ∈ ROLE_ACTIONS (mb_role m)) as Hn by by intros ?%Hal.
      split_and!; try done. destruct b; [left|right]; (split; [done|]); [by apply Hb|].
      by intros ?%Hb.
Qed.

End ledger.

(** ** Requests on the example directory *)

#[local] Existing Instances distinct_sha256 distinct_sha256_laws example_float_repr.

Definition example_access (action : AccessAction) (tenant_id : string) : AuditStore * result AccessError AccessGrant :=
  require (authorize provisioned) "prod" "event-1" example_principal action tenant_id "transaction"
    (Some "tx-1") "request-1" 3000000 empty_audit.
Definition access_code (x : result AccessError AccessGrant) : Z :=
  match x with Ok _ => 200 | Err (AccessControlError _ _ status _) => status | Err _ => 500 end.
Definition audited (s : AuditStore) : list (option AuditResult) :=
  map (λ row, option_map (λ r, au_result (rc_event r)) (aw_record row)) (cn_data s).

(** The verdicts, with what the ledger holds after them; without a ledger nothing is granted. *)
Example access_examples :
  (map (λ x, (access_code x.2, audited x.1))
     [example_access TRANSACTION_CREATE "tenant"; example_access TRANSACTION_APPROVE "tenant";
      example_access TRANSACTION_CREATE "other"],
   access_code (require (authorize provisioned) "prod" "event-1" example_principal TRANSACTION_CREATE "tenant"
     "transaction" None "request-1" 3000000 (close empty_audit)).2,
   map bearer_token ["Bearer abc"; "bEARER abc"; "Bearer"; "Bearer  abc"; "Bearer a b"; "Basic abc"])
  = ([(200, [Some ALLOWED]); (403, [Some DENIED]); (404, [Some DENIED])], 503,
     [Some "abc"; Some "abc"; None; None; None; None]).
Proof. vm_compute. reflexivity. Qed.

Definition granted (x : result AccessError AccessGrant) : AccessGrant :=
  match x with
  | Ok grant => grant
  | Err _ => {| gr_principal := example_principal; gr_request_id := ""; gr_decision := {|
      ad_request := example_request TRANSACTION_READ; ad_allowed := false; ad_reason_code := "";
      ad_matched_roles := []; ad_membership_revision := None; ad_decision_digest := "" |} |}
  end.
Definition example_grant : AccessGrant := granted (example_access TRANSACTION_CREATE "tenant").2.

Lemma empty_unused tenant_id event_id : unused empty_audit tenant_id event_id.
Proof. by intros r ?%elem_of_nil. Qed.

Lemma access_fails_closed_witness :
  ad_allowed (gr_decision example_grant) = true ∧
  ∃ r, recorded (example_access TRANSACTION_CREATE "tenant").1 r ∧
    rc_event r = event_for "event-1" example_grant ALLOWED "allowed" "authorization" [] 3000000.
Proof.
  destruct (access_fails_closed (authorize provisioned) "prod" "event-1" example_principal TRANSACTION_CREATE
    "tenant" "transaction" (Some "tx-1") "request-1" 3000000 empty_audit
    (example_access TRANSACTION_CREATE "tenant").1 (Ok example_grant)) as (_ & _ & _ & _ & _ & Ha & Hr).
  - apply (audit_reachable_ok empty_audit). apply star_refl.
  - apply empty_unused.
  - vm_compute. reflexivity.
  - split; [exact Ha|exact Hr].
Defined.

Lemma access_decides_witness :
  ∃ x r, example_access TRANSACTION_CREATE "tenant" = (with_data empty_audit [row_of r], x) ∧
    match x with
    | Ok grant => ad_request (gr_decision grant) = example_request TRANSACTION_CREATE ∧
        au_result (rc_event r) = ALLOWED ∧
        ∃ m, member provisioned (example_request TRANSACTION_CREATE) m ∧
          TRANSACTION_CREATE ∈ ROLE_ACTIONS (mb_role m)
    | Err e => au_result (rc_event r) = DENIED ∧
        (¬ ∃ m, member provisioned (example_request TRANSACTION_CREATE) m ∧
           TRANSACTION_CREATE ∈ ROLE_ACTIONS (mb_role m)) ∧
        ((e = authorization_denied ∧ ∃ m, member provisioned (example_request TRANSACTION_CREATE) m) ∨
         (e = transaction_not_found ∧ ¬ ∃ m, member provisioned (example_request TRANSACTION_CREATE) m))
    end.
Proof.
  apply (access_decides provisioned empty_audit "prod" "event-1" example_principal TRANSACTION_CREATE "tenant"
    "transaction" (Some "tx-1") "request-1" 3000000).
  - exact provisioned_reachable.
  - reflexivity.
  - apply star_refl.
  - reflexivity.
  - apply empty_unused.
  - reflexivity.
  - vm_compute. reflexivity.
  - reflexivity.
  - reflexivity.
Defined.
