(* ===== verification/RunnerIdentity.v ===== *)
(** * Runner identities (runner/identity.py)

    Enrollment challenges and tokens, pinned runner identities and runner records, with their
    validators and digest-bound constructors.  Times are timezone-aware, in microseconds. *)

From Stdlib Require Import Ascii.
From S2P Require Import Prelude.
From S2P Require Import Contracts.

Inductive RunnerHealth := ONLINE | OFFLINE | REVOKED.
#[export] Instance RunnerHealth_eq_dec : EqDecision RunnerHealth.
Proof. solve_decision. Defined.
Definition RunnerHealth_value (h : RunnerHealth) : string :=
  match h with ONLINE => "ONLINE" | OFFLINE => "OFFLINE" | REVOKED => "REVOKED" end.

(** ** Constrained strings *)

Definition url_char (c : ascii) : bool := is_alnum c || is_upper c || is_dash c.
(** [^<prefix>_[A-Za-z0-9_-]{32,96}$], for [QueueId], [ChallengeId] and [RunnerId]. *)
Definition prefixed_id (prefix s : string) : bool :=
  let n := String.length prefix in
  bool_decide (String.substring 0 n s = prefix)
  && forall_chars url_char (String.substring n (String.length s - n) s)
  && between 32 (len s - Z.of_nat n) 96.
Definition ChallengeId_ok (s : string) : bool := prefixed_id "enroll_" s.
Definition RunnerId_ok (s : string) : bool := prefixed_id "runner_" s.
Definition QueueId_ok (s : string) : bool := prefixed_id "queue_" s.

(** [RunnerVersion]: three numbers without leading zeros.  The counter says how many numbers
    follow; the state where in the current one the scan is. *)
Inductive NumberState := NumberStart | NumberZero | NumberMore.
Fixpoint version_scan (left : nat) (st : NumberState) (s : string) : bool :=
  match s with
  | EmptyString => match st with NumberStart => false | _ => (left =? 0)%nat end
  | String c s' =>
      match st with
      | NumberStart => is_digit c && version_scan left (if code c =? 48 then NumberZero else NumberMore) s'
      | NumberZero | NumberMore =>
          if code c =? 46 then match left with O => false | S left' => version_scan left' NumberStart s' end
          else match st with NumberMore => is_digit c && version_scan left NumberMore s' | _ => false end
      end
  end.
Definition RunnerVersion_ok (s : string) : bool := version_scan 2 NumberStart s.

Example runner_strings :
  (map RunnerVersion_ok ["1.20.0"; "01.2.3"; "1.2"; "1.2.3.4"; "1..2"; "0.0.0"; "1.2.x"; ""],
   map RunnerId_ok ["runner_abcdefghijklmnopqrstuvwxyz_-0123"; "runner_short"; "queue_abcdefghijklmnopqrstuvwxyz_-0123";
                    "runner_abcdefghijklmnopqrstuvwxyz.-0123"])
  = ([true; false; false; false; false; true; false; false], [true; false; false; false]).
Proof. reflexivity. Qed.

(** ** Contracts *)

Record EnrollmentChallenge := {
  ec_challenge_id : string;
  ec_tenant_id : string;
  ec_environment_id : string;
  ec_runner_pool : string;
  ec_issued_at : Z;
  ec_expires_at : Z }.

Record RunnerIdentity := {
  ri_runner_id : string;
  ri_tenant_id : string;
  ri_environment_id : string;
  ri_runner_pool : string;
  ri_task_queue_id : string;
  ri_public_key_digest : string;
  ri_capabilities : list string;
  ri_platform : string;
  ri_version : string;
  ri_enrolled_at : Z;
  ri_identity_digest : string }.

Record RunnerRecord := {
  rr_identity : RunnerIdentity;
  rr_health : RunnerHealth;
  rr_last_heartbeat_at : option Z;
  rr_revoked_at : option Z;
  rr_record_digest : string }.

(** [EnrollmentToken]: the buffer, [None] once cleared. *)
Definition EnrollmentToken : Type := option string.
Definition take (token : EnrollmentToken) : EnrollmentToken * result string string :=
  match token with
  | None => (None, Err "Enrollment token is no longer available")
  | Some text => (None, Ok text)
  end.

(** [canonical_value] of the dumps. *)
Definition timestamp_json (t : Z) : json := JStr (isoformat t).
Definition identity_fields (i : RunnerIdentity) : list (string * json) := [
  ("schema_version", JStr "cargomesh.runner-identity/v1"); ("runner_id", JStr (ri_runner_id i));
  ("tenant_id", JStr (ri_tenant_id i)); ("environment_id", JStr (ri_environment_id i));
  ("runner_pool", JStr (ri_runner_pool i)); ("task_queue_id", JStr (ri_task_queue_id i));
  ("public_key_digest", JStr (ri_public_key_digest i)); ("capabilities", json_strs (ri_capabilities i));
  ("platform", JStr (ri_platform i)); ("version", JStr (ri_version i));
  ("enrolled_at", timestamp_json (ri_enrolled_at i))].
Definition identity_json (i : RunnerIdentity) : json := JObj (identity_fields i).
Definition runner_record_json (r : RunnerRecord) : json := JObj [
  ("schema_version", JStr "cargomesh.runner-record/v1");
  ("identity", JObj (identity_fields (rr_identity r)
                     ++ [("identity_digest", JStr (ri_identity_digest (rr_identity r)))]));
  ("health", JStr (RunnerHealth_value (rr_health r)));
  ("last_heartbeat_at", json_opt timestamp_json (rr_last_heartbeat_at r));
  ("revoked_at", json_opt timestamp_json (rr_revoked_at r))].

(** [EnrollmentChallenge(...)], whose identifiers are stripped. *)
Definition make_challenge (challenge_id tenant_id environment_id runner_pool : string) (issued_at expires_at : Z)
    : result string EnrollmentChallenge :=
  let c := {| ec_challenge_id := strip challenge_id; ec_tenant_id := strip tenant_id;
    ec_environment_id := strip environment_id; ec_runner_pool := strip runner_pool;
    ec_issued_at := issued_at; ec_expires_at := expires_at |} in
  raise_if (negb (ChallengeId_ok (ec_challenge_id c) && Identifier_ok (ec_tenant_id c)
                  && Identifier_ok (ec_environment_id c) && Name_ok (ec_runner_pool c))) "field constraint";;
  raise_if (expires_at <=? issued_at) "enrollment expiry must be after issue time";;
  Ok c.

Section digests.
Context `{Sha256, FloatRepr}.

(** [sha256_digest]. *)
Definition sha256_digest (value : string) : string := "sha256:" +:+ sha256_hex value.

(** [validate_identity], after the fields. *)
Definition validate_identity (i : RunnerIdentity) : result string () :=
  raise_if (negb (RunnerId_ok (ri_runner_id i) && Identifier_ok (ri_tenant_id i)
                  && Identifier_ok (ri_environment_id i) && Name_ok (ri_runner_pool i)
                  && QueueId_ok (ri_task_queue_id i) && Digest_ok (ri_public_key_digest i)
                  && between 1 (Z.of_nat (length (ri_capabilities i))) 64
                  && forallb Name_ok (ri_capabilities i) && Name_ok (ri_platform i)
                  && RunnerVersion_ok (ri_version i) && Digest_ok (ri_identity_digest i))) "field constraint";;
  raise_if (has_duplicates (ri_capabilities i)) "runner capabilities must be unique";;
  raise_if (negb (bool_decide (ri_identity_digest i = value_digest (identity_json i))))
    "runner identity digest does not match".

Definition with_identity_digest (i : RunnerIdentity) (digest : string) : RunnerIdentity := {|
  ri_runner_id := ri_runner_id i; ri_tenant_id := ri_tenant_id i;
  ri_environment_id := ri_environment_id i; ri_runner_pool := ri_runner_pool i;
  ri_task_queue_id := ri_task_queue_id i; ri_public_key_digest := ri_public_key_digest i;
  ri_capabilities := ri_capabilities i; ri_platform := ri_platform i; ri_version := ri_version i;
  ri_enrolled_at := ri_enrolled_at i; ri_identity_digest := digest |}.
(** [RunnerIdentity.issue]; the digest given is ignored. *)
Definition issue_identity (i : RunnerIdentity) : result string RunnerIdentity :=
  let i' := with_identity_digest i (value_digest (identity_json i)) in
  validate_identity i';; Ok i'.

(** [validate_record], with the identity's own validation. *)
Definition validate_runner_record (r : RunnerRecord) : result string () :=
  validate_identity (rr_identity r);;
  raise_if (negb (Digest_ok (rr_record_digest r))) "field constraint";;
  raise_if (bool_decide (rr_health r = REVOKED) && is_none (rr_revoked_at r))
    "revoked runner requires revocation time";;
  raise_if (negb (bool_decide (rr_health r = REVOKED)) && negb (is_none (rr_revoked_at r)))
    "only revoked runners carry revocation time";;
  raise_if (match rr_last_heartbeat_at r with
            | Some t => t <? ri_enrolled_at (rr_identity r)
            | None => false
            end) "runner heartbeat cannot precede enrollment";;
  raise_if (negb (bool_decide (rr_record_digest r = value_digest (runner_record_json r))))
    "runner record digest does not match".

(** [RunnerRecord.issue]. *)
Definition issue_runner_record (identity : RunnerIdentity) (health : RunnerHealth)
    (last_heartbeat_at revoked_at : option Z) : result string RunnerRecord :=
  let unsigned digest := {| rr_identity := identity; rr_health := health;
    rr_last_heartbeat_at := last_heartbeat_at; rr_revoked_at := revoked_at; rr_record_digest := digest |} in
  let r := unsigned (value_digest (runner_record_json (unsigned EmptyString))) in
  validate_runner_record r;; Ok r.

(** ** Lemmas *)

Lemma issue_identity_inv i i' :
  issue_identity i = Ok i' →
  validate_identity i' = Ok () ∧ i' = with_identity_digest i (value_digest (identity_json i)).
Proof. unfold issue_identity. by intros ([] & Hv & [= <-])%bind_ok. Qed.

Lemma issue_runner_record_inv identity health heartbeat revoked r :
  issue_runner_record identity health heartbeat revoked = Ok r →
  validate_runner_record r = Ok () ∧ rr_identity r = identity ∧ rr_health r = health ∧
  rr_last_heartbeat_at r = heartbeat ∧ rr_revoked_at r = revoked.
Proof. unfold issue_runner_record. by intros ([] & Hv & [= <-])%bind_ok. Qed.

End digests.
