(* ===== verification/RunnerRegistry.v ===== *)
(** * Runner registry (runner/registry.py)

    The SQLite registry of enrollment challenges and enrolled runners.  Rows keep the decoded
    record under its runner id, so the integrity errors of a database written by someone else
    do not arise.  Challenges are inserted in autocommit mode, so the transaction an uncaught
    validation error leaves open matters ([Database]).  All callers share one connection, and
    [enroll] rolls a failure back after it has released the lock: its locked statements and its
    rollback are separate steps, and the rollback of one caller may fall between the statements
    of another.  Ids and tokens drawn by [secrets] are arguments. *)

From S2P Require Import Prelude.
From S2P Require Import Contracts.
From S2P Require Import Sqlite.
From S2P Require Import RunnerTasks.
From S2P Require Import TaskStore.
From S2P Require Import RunnerIdentity.

Inductive RegistryError :=
| RunnerEnrollmentError (code : string)
| RunnerRegistryError (code : string)
| RegistryValueError (message : string).

Definition registry_unavailable : RegistryError := RunnerRegistryError "runner_registry_unavailable".
Definition registry_closed : RegistryError := RunnerRegistryError "runner_registry_closed".

(** A row of [enrollment_challenges]. *)
Record ChallengeRow := {
  er_challenge : EnrollmentChallenge;
  er_token_digest : string;
  er_consumed_at : option Z }.

Record RegistryData := {
  rg_challenges : gmap string ChallengeRow;
  rg_runners : gmap string RunnerRecord }.
Notation Registry := (Database RegistryData).

Definition empty_registry : Registry := open_database {| rg_challenges := ∅; rg_runners := ∅ |}.
Definition registry_open (s : Registry) : result RegistryError () := raise_if (db_closed s) registry_closed.

(** Whether a row is in the scope of a call. *)
Definition challenge_in_scope (c : EnrollmentChallenge) (tenant_id environment_id runner_pool : string) : bool :=
  bool_decide (ec_tenant_id c = tenant_id) && bool_decide (ec_environment_id c = environment_id)
  && bool_decide (ec_runner_pool c = runner_pool).
Definition runner_in_scope (i : RunnerIdentity) (tenant_id environment_id runner_pool : string) : bool :=
  bool_decide (ri_tenant_id i = tenant_id) && bool_decide (ri_environment_id i = environment_id)
  && bool_decide (ri_runner_pool i = runner_pool).

Section registry.
Context `{Sha256, FloatRepr}.

(** ** Challenges *)

(** [issue_challenge], with the id and token drawn. *)
Definition put_challenge (row : ChallengeRow) (d : RegistryData) : RegistryData :=
  {| rg_challenges := <[ec_challenge_id (er_challenge row) := row]> (rg_challenges d);
     rg_runners := rg_runners d |}.
Definition issue_challenge (challenge_id token tenant_id environment_id runner_pool : string)
    (ttl_seconds now : Z) (s : Registry) : Registry * result RegistryError (EnrollmentChallenge * EnrollmentToken) :=
  match (registry_open s;;
         raise_if (negb (between 1 ttl_seconds 3600))
           (RegistryValueError "enrollment ttl must be between 1 and 3600 seconds");;
         escaping RegistryValueError
           (make_challenge challenge_id tenant_id environment_id runner_pool now (now + seconds ttl_seconds))) with
  | Err e => (s, Err e)
  | Ok c =>
      match rg_challenges (db_data s) !! ec_challenge_id c with
      | Some _ => (s, Err registry_unavailable)
      | None =>
          (write (put_challenge {| er_challenge := c; er_token_digest := sha256_digest token;
                                   er_consumed_at := None |}) s, Ok (c, Some token))
      end
  end.

(** ** Enrollment *)

(** [_take_token] on a string; an [EnrollmentToken] is taken by the caller. *)
Definition take_token (token : string) : result RegistryError string :=
  raise_if (negb (between 1 (len token) 512)) (RunnerEnrollmentError "enrollment_token_invalid");; Ok token.

(** The checks on the challenge. *)
Definition check_challenge (d : RegistryData) (challenge_id tenant_id environment_id runner_pool token : string)
    (now : Z) : result RegistryError ChallengeRow :=
  match rg_challenges d !! challenge_id with
  | None => Err (RunnerEnrollmentError "enrollment_challenge_unknown")
  | Some row =>
      raise_if (negb (challenge_in_scope (er_challenge row) tenant_id environment_id runner_pool))
        (RunnerEnrollmentError "enrollment_scope_mismatch");;
      raise_if (negb (is_none (er_consumed_at row))) (RunnerEnrollmentError "enrollment_token_used");;
      raise_if (ec_expires_at (er_challenge row) <=? now) (RunnerEnrollmentError "enrollment_token_expired");;
      raise_if (negb (bool_decide (er_token_digest row = sha256_digest token)))
        (RunnerEnrollmentError "enrollment_token_invalid");;
      Ok row
  end.

(** The [UPDATE] of the challenge and the [INSERT] of the runner. *)
Definition consumed (row : ChallengeRow) (now : Z) : ChallengeRow :=
  {| er_challenge := er_challenge row; er_token_digest := er_token_digest row; er_consumed_at := Some now |}.
Definition put_runner (r : RunnerRecord) (d : RegistryData) : RegistryData :=
  {| rg_challenges := rg_challenges d; rg_runners := <[ri_runner_id (rr_identity r) := r]> (rg_runners d) |}.
Definition consume_challenge (challenge_id : string) (now : Z) (d : RegistryData) : RegistryData :=
  {| rg_challenges := alter (λ row, consumed row now) challenge_id (rg_challenges d);
     rg_runners := rg_runners d |}.

(** What [enroll] is given besides the challenge and the token; the ids are the ones given or
    drawn. *)
Definition requested_identity (runner_id queue_id tenant_id environment_id runner_pool public_key_digest : string)
    (capabilities : list string) (platform version : string) (now : Z) : RunnerIdentity := {|
  ri_runner_id := runner_id; ri_tenant_id := tenant_id; ri_environment_id := environment_id;
  ri_runner_pool := runner_pool; ri_task_queue_id := queue_id; ri_public_key_digest := public_key_digest;
  ri_capabilities := capabilities; ri_platform := platform; ri_version := version; ri_enrolled_at := now;
  ri_identity_digest := EmptyString |}.

(** The statements of [enroll] up to the [INSERT], with the record inserted. *)
Definition new_runner (challenge_id token : string) (identity : RunnerIdentity) (d : RegistryData)
    : result RegistryError RunnerRecord :=
  let now := ri_enrolled_at identity in
  check_challenge d challenge_id (ri_tenant_id identity) (ri_environment_id identity)
    (ri_runner_pool identity) token now;;
  match (i ← issue_identity identity; issue_runner_record i ONLINE None None) with
  | Err _ => Err (RunnerEnrollmentError "runner_identity_invalid")
  | Ok r =>
      raise_if (negb (is_none (rg_runners d !! ri_runner_id (rr_identity r))))
        (RunnerEnrollmentError "runner_identity_conflict");;
      Ok r
  end.

(** Where the rollback of another caller's failed enrollment may fall between the statements of
    this one. *)
Inductive Interruption := BeforeInsert | BeforeUpdate | BeforeCommit.
#[export] Instance Interruption_eq_dec : EqDecision Interruption.
Proof. solve_decision. Defined.
Definition interrupted (here : Interruption) (cut : option Interruption) (s : Registry) : Registry :=
  if bool_decide (cut = Some here) then rollback s else s.

(** The statements of [enroll] under the lock; a failure leaves its transaction open. *)
Definition enroll_locked (cut : option Interruption) (challenge_id token : string) (identity : RunnerIdentity)
    (s : Registry) : Registry * result RegistryError RunnerIdentity :=
  match begin s with
  | None => (s, Err registry_unavailable)
  | Some s1 =>
      match new_runner challenge_id token identity (db_data s1) with
      | Err e => (s1, Err e)
      | Ok r =>
          let s2 := write (put_runner r) (interrupted BeforeInsert cut s1) in
          let s3 := write (consume_challenge challenge_id (ri_enrolled_at identity)) (interrupted BeforeUpdate cut s2) in
          (commit (interrupted BeforeCommit cut s3), Ok (rr_identity r))
      end
  end.

(** [enroll] until it releases the lock. *)
Definition enroll_until_release (cut : option Interruption) (challenge_id token : string) (identity : RunnerIdentity)
    (s : Registry) : Registry * result RegistryError RunnerIdentity :=
  match (registry_open s;; take_token token) with
  | Err e => (s, Err e)
  | Ok text => enroll_locked cut challenge_id text identity s
  end.

(** [enroll] with nobody else about: the handlers roll back at once. *)
Definition enroll (challenge_id token : string) (identity : RunnerIdentity) (s : Registry)
    : Registry * result RegistryError RunnerIdentity :=
  match (registry_open s;; take_token token) with
  | Err e => (s, Err e)
  | Ok text =>
      match enroll_locked None challenge_id text identity s with
      | (s', Ok i) => (s', Ok i)
      | (s', Err e) => (rollback s', Err e)
      end
  end.

(** ** Lookups *)

(** [get]. *)
Definition find_runner (d : RegistryData) (runner_id tenant_id environment_id runner_pool : string)
    : option RunnerRecord :=
  r ← rg_runners d !! runner_id;
  if runner_in_scope (rr_identity r) tenant_id environment_id runner_pool then Some r else None.
Definition get_runner (s : Registry) (runner_id tenant_id environment_id runner_pool : string)
    : result RegistryError (option RunnerRecord) :=
  registry_open s;; Ok (find_runner (db_data s) runner_id tenant_id environment_id runner_pool).

(** [list]: [ORDER BY runner_id]. *)
Definition list_runners (s : Registry) (tenant_id environment_id runner_pool : string)
    : result RegistryError (list RunnerRecord) :=
  registry_open s;;
  Ok (sorted_by (λ r, ri_runner_id (rr_identity r)) String.le
        (List.filter (λ r, runner_in_scope (rr_identity r) tenant_id environment_id runner_pool)
          (map_to_list (rg_runners (db_data s))).*2)).

(** [authorize]. *)
Definition is_authorized (r : option RunnerRecord) (capability : string) : bool :=
  match r with
  | Some r => bool_decide (rr_health r = ONLINE) && mem capability (ri_capabilities (rr_identity r))
  | None => false
  end.
Definition authorize_runner (s : Registry) (runner_id tenant_id environment_id runner_pool capability : string)
    : result RegistryError bool :=
  r ← get_runner s runner_id tenant_id environment_id runner_pool;
  Ok (is_authorized r capability).

(** ** Health *)

(** [_set_health]. *)
Definition registry_handled (e : RegistryError) : bool :=
  match e with RunnerRegistryError _ => true | _ => false end.
Definition set_health_body (runner_id tenant_id environment_id runner_pool : string) (health : RunnerHealth)
    (now : Z) (d : RegistryData) : result RegistryError (RegistryData * RunnerRecord) :=
  match find_runner d runner_id tenant_id environment_id runner_pool with
  | None => Err (RunnerRegistryError "runner_not_found")
  | Some current =>
      raise_if (bool_decide (rr_health current = REVOKED) && negb (bool_decide (health = REVOKED)))
        (RunnerRegistryError "runner_revoked");;
      if bool_decide (health = REVOKED) && bool_decide (rr_health current = REVOKED) then Ok (d, current)
      else
        r ← escaping RegistryValueError
              (issue_runner_record (rr_identity current) health
                 (match health with ONLINE => Some now | _ => rr_last_heartbeat_at current end)
                 (match health with REVOKED => Some now | _ => None end));
        Ok ({| rg_challenges := rg_challenges d; rg_runners := <[runner_id := r]> (rg_runners d) |}, r)
  end.
Definition set_health (health : RunnerHealth) (runner_id tenant_id environment_id runner_pool : string) (now : Z)
    (s : Registry) : Registry * result RegistryError RunnerRecord :=
  match registry_open s with
  | Err e => (s, Err e)
  | Ok _ => transaction registry_handled registry_unavailable
              (set_health_body runner_id tenant_id environment_id runner_pool health now) s
  end.
Definition revoke := set_health REVOKED.
Definition heartbeat := set_health ONLINE.
Definition mark_offline := set_health OFFLINE.

(** ** Histories *)

(** One step of the callers: a whole call other than an enrollment, an enrollment until it
    releases the lock, wherever it is interrupted, and the rollback of a failed one, at any later
    time.  The rollback is also what is left of a change of health that it interrupts before the
    commit. *)
Inductive registry_step (s : Registry) : Registry → Prop :=
| rs_challenge challenge_id token tenant_id environment_id runner_pool ttl now :
    registry_step s (issue_challenge challenge_id token tenant_id environment_id runner_pool ttl now s).1
| rs_enroll cut challenge_id token identity :
    registry_step s (enroll_until_release cut challenge_id token identity s).1
| rs_rollback : registry_step s (rollback s)
| rs_health health runner_id tenant_id environment_id runner_pool now :
    registry_step s (set_health health runner_id tenant_id environment_id runner_pool now s).1
| rs_close : registry_step s (close_database s).

Definition registry_reachable (s : Registry) : Prop := star registry_step empty_registry s.

(** The registry as the task store's authorizer. *)
Definition registry_authorizer (s : Registry) : Authorizer :=
  λ runner_id tenant_id environment_id runner_pool capability,
    match authorize_runner s runner_id tenant_id environment_id runner_pool capability with
    | Ok b => Answers b
    | Err _ => Raises
    end.

(** ** What operations do to the data *)

(** A stored runner: under its id, valid, enrolled by a challenge of its scope consumed then. *)
Definition enrolled (d : RegistryData) (k : string) (r : RunnerRecord) : Prop :=
  ri_runner_id (rr_identity r) = k ∧ validate_runner_record r = Ok () ∧
  ∃ challenge_id row, rg_challenges d !! challenge_id = Some row ∧
    er_consumed_at row = Some (ri_enrolled_at (rr_identity r)) ∧
    challenge_in_scope (er_challenge row) (ri_tenant_id (rr_identity r)) (ri_environment_id (rr_identity r))
      (ri_runner_pool (rr_identity r)) = true.

Definition consumed_row (d : RegistryData) (k : string) : option ChallengeRow :=
  row ← rg_challenges d !! k; if is_none (er_consumed_at row) then None else Some row.

Lemma consumed_row_Some d k row :
  consumed_row d k = Some row ↔ rg_challenges d !! k = Some row ∧ er_consumed_at row ≠ None.
Proof.
  unfold consumed_row. destruct (rg_challenges d !! k) as [row'|]; cbn; [|naive_solver].
  destruct (er_consumed_at row') as [t|] eqn:E; cbn; split; naive_solver congruence.
Qed.

(** The committed writes: an enrollment, its challenge alone, a change of health. *)
Inductive registry_write (d : RegistryData) : RegistryData → Prop :=
| rw_none : registry_write d d
| rw_enroll challenge_id row r now :
    rg_challenges d !! challenge_id = Some row → er_consumed_at row = None →
    rg_runners d !! ri_runner_id (rr_identity r) = None → validate_runner_record r = Ok () →
    ri_enrolled_at (rr_identity r) = now →
    challenge_in_scope (er_challenge row) (ri_tenant_id (rr_identity r)) (ri_environment_id (rr_identity r))
      (ri_runner_pool (rr_identity r)) = true →
    registry_write d {| rg_challenges := <[challenge_id := consumed row now]> (rg_challenges d);
                        rg_runners := <[ri_runner_id (rr_identity r) := r]> (rg_runners d) |}
| rw_consume challenge_id row now :
    rg_challenges d !! challenge_id = Some row → er_consumed_at row = None →
    registry_write d {| rg_challenges := <[challenge_id := consumed row now]> (rg_challenges d);
                        rg_runners := rg_runners d |}
| rw_health runner_id current r :
    rg_runners d !! runner_id = Some current → rr_health current ≠ REVOKED →
    rr_identity r = rr_identity current → validate_runner_record r = Ok () →
    registry_write d {| rg_challenges := rg_challenges d; rg_runners := <[runner_id := r]> (rg_runners d) |}.

Lemma new_runner_ok challenge_id token identity d r :
  new_runner challenge_id token identity d = Ok r →
  (∃ row, rg_challenges d !! challenge_id = Some row ∧ er_consumed_at row = None ∧
     challenge_in_scope (er_challenge row) (ri_tenant_id identity) (ri_environment_id identity)
       (ri_runner_pool identity) = true ∧
     ri_enrolled_at identity < ec_expires_at (er_challenge row) ∧ er_token_digest row = sha256_digest token) ∧
  rr_identity r = with_identity_digest identity (value_digest (identity_json identity)) ∧
  rr_health r = ONLINE ∧ validate_runner_record r = Ok () ∧
  rg_runners d !! ri_runner_id identity = None.
Proof.
  unfold new_runner, check_challenge. intros (row & Hc & Hr)%bind_ok.
  destruct (rg_challenges d !! challenge_id) as [row'|]; [|done]. rewrite !raise_if_then in Hc.
  destruct Hc as (Hs & Hu & He & Ht & [= ->]).
  destruct (issue_identity identity) as [i|] eqn:Ei; cbn in Hr; [|done].
  destruct (issue_runner_record i _ _ _) as [r'|] eqn:Er; [|done].
  apply raise_if_then in Hr as [Hn [= ->]]. apply issue_identity_inv in Ei as [_ ->].
  apply issue_runner_record_inv in Er as (Hv & Hi & Hh & _). rewrite Hi in *. boolify.
  split_and!; try done.
  - exists row. destruct (er_consumed_at row); [done|]. split_and!; try done.
  - cbn in Hn. by destruct (rg_runners d !! ri_runner_id identity).
Qed.

Lemma consume_row challenge_id now d row :
  rg_challenges d !! challenge_id = Some row →
  consume_challenge challenge_id now d
  = {| rg_challenges := <[challenge_id := consumed row now]> (rg_challenges d); rg_runners := rg_runners d |}.
Proof.
  intros Hr. unfold consume_challenge. f_equal. apply map_eq. intros k.
  destruct (decide (k = challenge_id)) as [->|Hne].
  - by rewrite lookup_alter_eq, lookup_insert_eq, Hr.
  - by rewrite lookup_alter_ne, lookup_insert_ne by done.
Qed.

(** What a successful enrollment commits: the runner and its challenge, the challenge alone when
    it is interrupted after the [INSERT], and nothing when it is before the commit. *)
Definition committed_enrollment (cut : option Interruption) (challenge_id : string) (r : RunnerRecord) (d : RegistryData)
    : RegistryData :=
  let now := ri_enrolled_at (rr_identity r) in
  match cut with
  | None | Some BeforeInsert => consume_challenge challenge_id now (put_runner r d)
  | Some BeforeUpdate => consume_challenge challenge_id now d
  | Some BeforeCommit => d
  end.

Lemma enroll_locked_ok cut challenge_id token identity s s' i :
  enroll_locked cut challenge_id token identity s = (s', Ok i) →
  db_saved s = None ∧ ∃ r, new_runner challenge_id token identity (db_data s) = Ok r ∧ i = rr_identity r ∧
    s' = Build_Database (db_closed s) None (committed_enrollment cut challenge_id r (db_data s)).
Proof.
  unfold enroll_locked, begin. destruct (db_saved s) as [d|] eqn:Es; [done|]. cbn [db_data].
  destruct (new_runner _ _ _ _) as [r|] eqn:Er; [|done]. intros [= <- <-]. split; [done|]. exists r.
  split; [done|]. split; [done|]. pose proof (new_runner_ok _ _ _ _ _ Er) as (_ & Hi & _).
  assert (ri_enrolled_at (rr_identity r) = ri_enrolled_at identity) as Hnow by by rewrite Hi.
  unfold committed_enrollment. rewrite Hnow. by destruct cut as [[]|].
Qed.

Lemma committed_enrollment_write cut challenge_id token identity d r :
  new_runner challenge_id token identity d = Ok r → registry_write d (committed_enrollment cut challenge_id r d).
Proof.
  intros ((row & Hc & Hu & Hs & _) & Hi & _ & Hv & Hn)%new_runner_ok.
  assert (registry_write d (consume_challenge challenge_id (ri_enrolled_at (rr_identity r)) (put_runner r d))) as Hw.
  { rewrite (consume_row _ _ (put_runner r d) row) by done.
    apply (rw_enroll d challenge_id row r (ri_enrolled_at (rr_identity r))); rewrite ?Hi; done. }
  destruct cut as [[]|]; cbn; try done; [|constructor]. rewrite (consume_row _ _ d row) by done. by apply rw_consume.
Qed.

Lemma enroll_locked_err cut challenge_id token identity s s' e :
  enroll_locked cut challenge_id token identity s = (s', Err e) →
  (∃ d, db_saved s = Some d ∧ s' = s) ∨
  (db_saved s = None ∧ s' = Build_Database (db_closed s) (Some (db_data s)) (db_data s)).
Proof.
  unfold enroll_locked, begin. destruct (db_saved s) as [d|] eqn:Es; [intros [= <- _]; left; by exists d|].
  cbn [db_data]. destruct (new_runner _ _ _ _); [done|]. intros [= <- _]. by right.
Qed.

Lemma find_runner_Some d runner_id tenant_id environment_id runner_pool r :
  find_runner d runner_id tenant_id environment_id runner_pool = Some r ↔
  rg_runners d !! runner_id = Some r ∧
  runner_in_scope (rr_identity r) tenant_id environment_id runner_pool = true.
Proof.
  unfold find_runner. destruct (rg_runners d !! runner_id) as [r'|]; cbn; [|naive_solver].
  destruct (runner_in_scope _ _ _ _) eqn:E; split; [intros [= <-]; done|by intros [[= <-] _]|done|].
  intros [[= <-] ?]. congruence.
Qed.

Lemma set_health_body_ok runner_id tenant_id environment_id runner_pool health now d d' r :
  set_health_body runner_id tenant_id environment_id runner_pool health now d = Ok (d', r) →
  registry_write d d' ∧ rr_health r = health ∧ rg_runners d' !! runner_id = Some r.
Proof.
  unfold set_health_body. destruct (find_runner _ _ _ _ _) as [current|] eqn:Ef; [|done].
  apply find_runner_Some in Ef as [Hc _]. intros [Hr Hb]%raise_if_then.
  destruct (bool_decide (health = REVOKED) && bool_decide (rr_health current = REVOKED)) eqn:E.
  - injection Hb as <- <-. boolify. split; [constructor|]. split; [congruence|done].
  - apply bind_ok in Hb as (r' & Hi & [= <- <-]). apply escaping_ok in Hi.
    apply issue_runner_record_inv in Hi as (Hv & Hid & Hh & _).
    split; [|split; [done|apply lookup_insert_eq]].
    apply (rw_health d runner_id current); try done. intros Hrev. rewrite Hrev in *.
    destruct health; cbn in *; done.
Qed.

(** ** What a step does *)

Inductive registry_effect (s : Registry) : Registry → Prop :=
| re_write closed d : db_saved s = None → registry_write (db_data s) d →
    registry_effect s (Build_Database closed None d)
| re_open closed : db_saved s = None →
    registry_effect s (Build_Database closed (Some (db_data s)) (db_data s))
| re_issue closed row : rg_challenges (db_data s) !! ec_challenge_id (er_challenge row) = None →
    er_consumed_at row = None →
    registry_effect s (Build_Database closed (db_saved s) (put_challenge row (db_data s)))
| re_back closed d : db_saved s = Some d → registry_effect s (Build_Database closed None d)
| re_none closed : registry_effect s (Build_Database closed (db_saved s) (db_data s)).

Lemma effect_same s : registry_effect s s.
Proof. destruct s as [c saved d]. apply (re_none (Build_Database c saved d) c). Qed.

Lemma effect_transaction {A} handled (body : RegistryData → result RegistryError (RegistryData * A)) s :
  (∀ d a, body (db_data s) = Ok (d, a) → registry_write (db_data s) d) →
  registry_effect s (transaction handled registry_unavailable body s).1.
Proof.
  intros Hw. destruct (transaction _ _ _ _) as [s' x] eqn:E. apply transaction_cases in E as [_ Hx].
  cbn. destruct s' as [c saved d]. cbn in *.
  destruct Hx as [(a & -> & Hs & -> & Hb)|(_ & [[-> ->]|(Hs & -> & ->)])].
  - apply re_write; [done|]. by eapply Hw.
  - unfold committed. destruct (db_saved s) as [d|] eqn:Es; cbn; [by apply re_back|].
    apply re_write; [done|constructor].
  - by apply re_open.
Qed.

Lemma registry_step_effect s s' : registry_step s s' → registry_effect s s'.
Proof.
  intros [challenge_id token tenant_id environment_id runner_pool ttl now
         |cut challenge_id token identity| |health runner_id tenant_id environment_id runner_pool now|].
  - unfold issue_challenge. destruct (registry_open s;; _) as [c|e]; [|apply effect_same].
    destruct (rg_challenges (db_data s) !! ec_challenge_id c) eqn:E; [apply effect_same|].
    cbn. by apply re_issue.
  - unfold enroll_until_release. destruct (registry_open s;; _) as [text|e]; [|apply effect_same].
    destruct (enroll_locked _ _ _ _ _) as [s1 [i|e]] eqn:E; cbn.
    + apply enroll_locked_ok in E as (Hs & r & Hr & _ & ->). apply re_write; [done|].
      by eapply committed_enrollment_write.
    + apply enroll_locked_err in E as [(d & _ & ->)|[Hs ->]]; [apply effect_same|by apply re_open].
  - unfold rollback, committed. destruct (db_saved s) as [d|] eqn:Es; cbn; [by apply re_back|].
    apply re_write; [done|constructor].
  - unfold set_health. destruct (registry_open s) as [[]|e]; [|apply effect_same].
    apply effect_transaction. by intros d r [? _]%set_health_body_ok.
  - unfold close_database, committed. destruct (db_closed s); [apply effect_same|].
    destruct (db_saved s) as [d|] eqn:Es; cbn; [by apply re_back|]. apply re_write; [done|constructor].
Qed.

(** ** The invariant *)

(** Stored runners are enrolled; an open transaction holds only unconsumed challenges more. *)
Record registry_ok (s : Registry) : Prop := {
  ro_runners : ∀ k r, rg_runners (db_data s) !! k = Some r → enrolled (db_data s) k r;
  ro_saved : ∀ d, db_saved s = Some d → rg_runners d = rg_runners (db_data s) ∧
    ∀ k row, rg_challenges (db_data s) !! k = Some row → er_consumed_at row ≠ None →
      rg_challenges d !! k = Some row }.

Lemma enrolled_challenges d d' k r :
  (∀ c row, rg_challenges d !! c = Some row → er_consumed_at row ≠ None → rg_challenges d' !! c = Some row) →
  enrolled d k r → enrolled d' k r.
Proof.
  intros Hc (Hk & Hv & c & row & Hr & Ht & Hs). split; [done|]. split; [done|].
  exists c, row. split; [|done]. apply Hc; [done|by rewrite Ht].
Qed.

Lemma write_challenges d d' c row :
  registry_write d d' → rg_challenges d !! c = Some row → er_consumed_at row ≠ None →
  rg_challenges d' !! c = Some row.
Proof.
  intros [|c' row' r now Hr Hu|c' row' now Hr Hu|]; try done; intros Hc Hn; cbn;
    (rewrite lookup_insert_ne; [done|]); intros ->; congruence.
Qed.

Lemma put_challenges d c row new :
  rg_challenges d !! ec_challenge_id (er_challenge new) = None →
  rg_challenges d !! c = Some row → rg_challenges (put_challenge new d) !! c = Some row.
Proof. intros Hn Hc. cbn. rewrite lookup_insert_ne; [done|]. intros <-. congruence. Qed.

Lemma write_enrolled d d' k r :
  (∀ k r, rg_runners d !! k = Some r → enrolled d k r) → registry_write d d' →
  rg_runners d' !! k = Some r → enrolled d' k r.
Proof.
  intros Hok Hw Hr.
  assert (∀ r, enrolled d k r → enrolled d' k r) as Hmono.
  { intros r'. apply enrolled_challenges. intros c row. by apply write_challenges. }
  destruct Hw as [|c row r' now Hc Hu Hn Hv He Hs|c row now Hc Hu|k' current r' Hk Hh Hi Hv]; [by apply Hok| |by apply Hmono, Hok|].
  - cbn in Hr. apply lookup_insert_Some in Hr as [[<- <-]|[_ Hr]]; [|by apply Hmono, Hok].
    split; [done|]. split; [done|]. exists c, (consumed row now). cbn. rewrite lookup_insert_eq, He. done.
  - cbn in Hr. apply lookup_insert_Some in Hr as [[<- <-]|[_ Hr]]; [|by apply Hmono, Hok].
    destruct (Hmono _ (Hok _ _ Hk)) as (Hid & _ & He). unfold enrolled. by rewrite Hi.
Qed.

Lemma registry_effect_ok s s' : registry_ok s → registry_effect s s' → registry_ok s'.
Proof.
  intros [Hr Hs] [closed d E Hw|closed E|closed row Hn Hu|closed d E|closed]; split; cbn.
  - intros k r. by apply (write_enrolled (db_data s)).
  - done.
  - exact Hr.
  - intros d [= <-]. done.
  - intros k r Hk. eapply enrolled_challenges; [|by apply Hr]. intros c row' Hc _. by apply put_challenges.
  - intros d Hd. destruct (Hs _ Hd) as [Er Hc]. split; [done|]. intros k row' Hk Hcon. apply Hc; [|done].
    apply lookup_insert_Some in Hk as [[_ <-]|[_ Hk]]; [done|exact Hk].
  - destruct (Hs _ E) as [Er Hc]. rewrite Er. intros k r Hk. eapply enrolled_challenges; [|by apply Hr]. exact Hc.
  - done.
  - exact Hr.
  - exact Hs.
Qed.

Lemma registry_reachable_ok s : registry_reachable s → registry_ok s.
Proof.
  apply (star_invariant registry_step registry_ok).
  - intros s1 s2 Hok Hs%registry_step_effect. by eapply registry_effect_ok.
  - split; [|done]. intros k r Hk. cbn in Hk. by rewrite lookup_empty in Hk.
Qed.

(** ** Progress of entries *)

(** A runner keeps its identity, and once revoked its record. *)
Record runner_le (r r' : RunnerRecord) : Prop := {
  rl_identity : rr_identity r' = rr_identity r;
  rl_revoked : rr_health r = REVOKED → r' = r }.

#[export] Instance runner_le_preorder : PreOrder runner_le.
Proof.
  split; [done|]. intros r1 r2 r3 [A1 A2] [B1 B2]. split; [congruence|].
  intros H1. rewrite <-(A2 H1). apply B2. by rewrite (A2 H1).
Qed.

Lemma registry_effect_runner s s' k r :
  registry_ok s → registry_effect s s' → rg_runners (db_data s) !! k = Some r →
  ∃ r', rg_runners (db_data s') !! k = Some r' ∧ runner_le r r'.
Proof.
  intros [_ Hs] [closed d E Hw|closed E|closed row Hn Hu|closed d E|closed] Hk; cbn; try (by exists r).
  - destruct Hw as [|c row r' now Hc Hu Hn|c row now Hc Hu|k' current r' Hk' Hh Hi Hv]; cbn; [by exists r| |by exists r|].
    + exists r. split; [|done]. rewrite lookup_insert_ne; [done|]. intros <-. congruence.
    + destruct (decide (k' = k)) as [->|Hne]; [|exists r; by rewrite lookup_insert_ne].
      exists r'. rewrite lookup_insert_eq. split; [done|]. rewrite Hk' in Hk. injection Hk as ->. by split.
  - destruct (Hs _ E) as [-> _]. by exists r.
Qed.

Lemma registry_runner s s' k r :
  registry_reachable s → star registry_step s s' → rg_runners (db_data s) !! k = Some r →
  registry_ok s' ∧ ∃ r', rg_runners (db_data s') !! k = Some r' ∧ runner_le r r'.
Proof.
  intros Hok%registry_reachable_ok. revert Hok.
  apply (star_entries registry_step registry_ok (λ s k, rg_runners (db_data s) !! k) runner_le).
  - intros s1 s2 Hok Hs%registry_step_effect. by eapply registry_effect_ok.
  - intros s1 s2 k1 r1 Hok Hs%registry_step_effect. by apply registry_effect_runner.
Qed.

Lemma registry_effect_consumed s s' k row :
  registry_ok s → registry_effect s s' → consumed_row (db_data s) k = Some row →
  consumed_row (db_data s') k = Some row.
Proof.
  rewrite !consumed_row_Some. intros [_ Hs] He [Hk Hc]. split; [|done].
  destruct He as [closed d E Hw|closed E|closed row' Hn Hu|closed d E|closed]; cbn; try done.
  - by eapply write_challenges.
  - by apply put_challenges.
  - destruct (Hs _ E) as [_ Hall]. by apply Hall.
Qed.

Lemma registry_consumed s s' k row :
  registry_reachable s → star registry_step s s' → consumed_row (db_data s) k = Some row →
  consumed_row (db_data s') k = Some row.
Proof.
  intros Hok%registry_reachable_ok Hs Hk.
  destruct (star_entries registry_step registry_ok (λ s k, consumed_row (db_data s) k) eq) with s s' k row
    as (_ & row' & ? & <-); try done.
  - intros s1 s2 Hok1 Hs1%registry_step_effect. by eapply registry_effect_ok.
  - intros s1 s2 k1 r1 Hok1 Hs1%registry_step_effect Hk1. exists r1. split; [|done].
    by eapply registry_effect_consumed.
Qed.

Definition challenge_scope (c : EnrollmentChallenge) : string * string * string :=
  (ec_tenant_id c, ec_environment_id c, ec_runner_pool c).
Lemma challenge_in_scope_spec c tenant_id environment_id runner_pool :
  challenge_in_scope c tenant_id environment_id runner_pool = true ↔
  challenge_scope c = (tenant_id, environment_id, runner_pool).
Proof.
  unfold challenge_in_scope, challenge_scope. rewrite !andb_true_iff, !bool_decide_eq_true. naive_solver.
Qed.

(** ** Theorems *)

Lemma enroll_until_release_ok cut challenge_id token identity s s' i :
  enroll_until_release cut challenge_id token identity s = (s', Ok i) →
  ∃ r, new_runner challenge_id token identity (db_data s) = Ok r ∧ i = rr_identity r ∧
    db_data s' = committed_enrollment cut challenge_id r (db_data s).
Proof.
  unfold enroll_until_release, registry_open. destruct (db_closed s) eqn:Ec; cbn; [done|].
  destruct (take_token token) as [text|e] eqn:Et; [|done]. cbn.
  assert (text = token) as -> by (unfold take_token in Et; by apply raise_if_then in Et as [_ [= <-]]).
  intros (_ & r & Hr & Hi & ->)%enroll_locked_ok. by exists r.
Qed.

(** Alone, a call is its locked part and, on failure, its rollback. *)
Lemma enroll_alone challenge_id token identity s s' i :
  enroll challenge_id token identity s = (s', Ok i) ↔ enroll_until_release None challenge_id token identity s = (s', Ok i).
Proof.
  unfold enroll, enroll_until_release. destruct (registry_open s;; _) as [text|e]; [|done].
  destruct (enroll_locked _ _ _ _ _) as [s1 [i1|e]]; [done|]. by split.
Qed.

Lemma set_health_ok health runner_id tenant_id environment_id runner_pool now s s' r :
  set_health health runner_id tenant_id environment_id runner_pool now s = (s', Ok r) →
  rr_health r = health ∧ rg_runners (db_data s') !! runner_id = Some r.
Proof.
  unfold set_health. destruct (registry_open s); [|done].
  intros [_ [(a1 & [= <-] & _ & _ & Hb)|([e He] & _)]]%transaction_cases; [|discriminate].
  by apply set_health_body_ok in Hb as (_ & ? & ?).
Qed.

Lemma authorize_runner_ok s runner_id tenant_id environment_id runner_pool capability :
  authorize_runner s runner_id tenant_id environment_id runner_pool capability = Ok true →
  ∃ r, rg_runners (db_data s) !! runner_id = Some r ∧
    runner_in_scope (rr_identity r) tenant_id environment_id runner_pool = true ∧
    rr_health r = ONLINE ∧ capability ∈ ri_capabilities (rr_identity r).
Proof.
  unfold authorize_runner, get_runner. intros (x & ([] & _ & [= <-])%bind_ok & [= Ha])%bind_ok.
  destruct (find_runner _ _ _ _ _) as [r|] eqn:Ef; [|done]. apply find_runner_Some in Ef as [? ?].
  cbn in Ha. apply andb_true_iff in Ha as [?%bool_decide_eq_true ?%mem_true]. by exists r.
Qed.

Lemma registry_acquire s lease runner_id now ts ts' l :
  acquire (Some (registry_authorizer s)) lease runner_id now ts = (ts', Ok (Some l)) →
  ∃ row, cn_data ts !! ls_task_id l = Some row ∧ ls_runner_id l = runner_id ∧
    authorize_runner s runner_id (tk_tenant_id (tr_task row)) (tk_environment_id (tr_task row))
      (tk_runner_pool (tr_task row)) (tk_capability (tr_task row)) = Ok true.
Proof.
  intros (row & Hr & _ & _ & Hid & Ha & _)%acquire_ok. exists row. split; [done|]. split; [done|].
  unfold authorize, registry_authorizer in Ha. destruct (authorize_runner _ _ _ _ _ _) as [b|]; [|done].
  apply raise_if_ok in Ha. by apply negb_false_iff in Ha as ->.
Qed.

(** C24. An enrollment token enrolls one runner: an enrollment succeeds only against an issued,
    unused, unexpired challenge of the runner's tenant, environment and pool, with its token,
    under a runner id not in use, even when the rollback of another caller's failed enrollment
    falls between its statements; unless that rollback falls after the runner's [INSERT], the
    runner is registered for good with the identity returned, and unless it falls between the
    challenge's [UPDATE] and the commit, the challenge enrolls nothing again, whatever calls and
    late rollbacks follow, interrupted or not. *)
Theorem enrollment_single_use cut challenge_id token identity s0 s1 i s2 :
  registry_reachable s0 → enroll_until_release cut challenge_id token identity s0 = (s1, Ok i) →
  star registry_step s1 s2 →
  (∃ row, rg_challenges (db_data s0) !! challenge_id = Some row ∧ er_consumed_at row = None ∧
     er_token_digest row = sha256_digest token ∧ ri_enrolled_at i < ec_expires_at (er_challenge row) ∧
     challenge_scope (er_challenge row) = (ri_tenant_id i, ri_environment_id i, ri_runner_pool i)) ∧
  rg_runners (db_data s0) !! ri_runner_id i = None ∧
  (cut ∈ [None; Some BeforeInsert] → ∃ r, rg_runners (db_data s2) !! ri_runner_id i = Some r ∧ rr_identity r = i) ∧
  (cut ≠ Some BeforeCommit →
     ∀ cut' token' identity' s3 i', enroll_until_release cut' challenge_id token' identity' s2 ≠ (s3, Ok i')).
Proof.
  intros Hre He Hs. pose proof (rs_enroll s0 cut challenge_id token identity) as Hst. rewrite He in Hst. cbn in Hst.
  assert (registry_reachable s1) as Hre1 by (eapply star_trans; [exact Hre|by apply star_one]).
  apply enroll_until_release_ok in He as (r & Hn & -> & Hd).
  apply new_runner_ok in Hn as ((row & Hc & Hu & Hsc & Hx & Ht) & Hi & _ & _ & Hf). split_and!.
  - apply challenge_in_scope_spec in Hsc. exists row. rewrite Hi. by split_and!.
  - by rewrite Hi.
  - intros Hcut. destruct (registry_runner s1 s2 (ri_runner_id (rr_identity r)) r) as (_ & r' & ? & Hle); [done|done| |].
    + rewrite Hd. rewrite !elem_of_cons, elem_of_nil in Hcut. destruct Hcut as [->|[->|[]]]; apply lookup_insert_eq.
    + exists r'. split; [done|apply (rl_identity _ _ Hle)].
  - intros Hcut cut' token' identity' s3 i' (r' & ((row' & Hc' & Hu' & _) & _)%new_runner_ok & _)%enroll_until_release_ok.
    assert (consumed_row (db_data s2) challenge_id = Some (consumed row (ri_enrolled_at (rr_identity r)))) as Hcr.
    { apply (registry_consumed s1); [done..|]. rewrite Hd. apply consumed_row_Some. cbn [committed_enrollment].
      assert (∀ d now, rg_challenges d !! challenge_id = Some row →
        rg_challenges (consume_challenge challenge_id now d) !! challenge_id = Some (consumed row now)) as Hrow
        by (intros d now Hd'; rewrite (consume_row _ _ _ _ Hd'); apply lookup_insert_eq).
      split; [|done]. by destruct cut as [[]|]; try done; apply Hrow. }
    apply consumed_row_Some in Hcr as [Hcr Hne]. congruence.
Qed.

(** Revocation is final, across the registry and the task store: once a runner is revoked,
    whatever registry calls follow, its record stays as it was returned, the registry never
    authorizes it, and no task store that asks this registry leases it a task. *)
Theorem revocation_final runner_id tenant_id environment_id runner_pool now s0 s1 r s2 :
  registry_reachable s0 → revoke runner_id tenant_id environment_id runner_pool now s0 = (s1, Ok r) →
  star registry_step s1 s2 →
  rg_runners (db_data s2) !! runner_id = Some r ∧ rr_health r = REVOKED ∧
  (∀ tenant environment pool capability,
     authorize_runner s2 runner_id tenant environment pool capability ≠ Ok true) ∧
  ∀ lease now' ts ts' l, acquire (Some (registry_authorizer s2)) lease runner_id now' ts ≠ (ts', Ok (Some l)).
Proof.
  intros Hre Hr Hs.
  pose proof (rs_health s0 REVOKED runner_id tenant_id environment_id runner_pool now) as Hst.
  fold revoke in Hst. rewrite Hr in Hst. cbn in Hst.
  apply set_health_ok in Hr as [Hh Hk].
  destruct (registry_runner s1 s2 runner_id r) as (_ & r' & Hk' & Hle); [|done..|].
  { eapply star_trans; [exact Hre|by apply star_one]. }
  assert (r' = r) as -> by by apply (rl_revoked _ _ Hle).
  assert (∀ tenant environment pool capability,
    authorize_runner s2 runner_id tenant environment pool capability ≠ Ok true) as Hno.
  { intros t e p c (r2 & Hr2 & _ & Hon & _)%authorize_runner_ok. congruence. }
  split_and!; try done. intros lease now' ts ts' l (row & _ & _ & Ha)%registry_acquire. by apply Hno in Ha.
Qed.

(** Work reaches only enrolled runners: a lease granted by a task store that asks the
    registry goes to a runner that is online, offers the task's capability, and was enrolled
    with a challenge for the task's tenant, environment and pool. *)
Theorem leases_go_to_enrolled_runners s lease runner_id now ts ts' l :
  registry_reachable s →
  acquire (Some (registry_authorizer s)) lease runner_id now ts = (ts', Ok (Some l)) →
  ls_runner_id l = runner_id ∧
  ∃ row r challenge_id c, cn_data ts !! ls_task_id l = Some row ∧
    rg_runners (db_data s) !! runner_id = Some r ∧ rr_health r = ONLINE ∧
    tk_capability (tr_task row) ∈ ri_capabilities (rr_identity r) ∧
    validate_identity (rr_identity r) = Ok () ∧ ri_runner_id (rr_identity r) = runner_id ∧
    rg_challenges (db_data s) !! challenge_id = Some c ∧
    er_consumed_at c = Some (ri_enrolled_at (rr_identity r)) ∧
    challenge_scope (er_challenge c)
    = (tk_tenant_id (tr_task row), tk_environment_id (tr_task row), tk_runner_pool (tr_task row)).
Proof.
  intros Hok%registry_reachable_ok (row & Hr & Hid & (r & Hk & Hsc & Hon & Hcap)%authorize_runner_ok)%registry_acquire.
  split; [done|]. destruct (ro_runners _ Hok _ _ Hk) as (Eid & Hv & c & ch & Hc & Ht & Hcs).
  apply challenge_in_scope_spec in Hcs. exists row, r, c, ch. unfold validate_runner_record in Hv. apply bind_ok in Hv as ([] & Hv & _).
  unfold runner_in_scope in Hsc. rewrite !andb_true_iff, !bool_decide_eq_true in Hsc.
  destruct Hsc as [[<- <-] <-]. by split_and!.
Qed.

End registry.

(** ** Runners on a concrete registry *)

#[local] Existing Instances distinct_sha256 example_float_repr.

Definition challenge_1 : string := "enroll_aaaaaaaaaaaaaaaaaaaaaaaaaaaaaaaa".
Definition runner_1 : string := "runner_bbbbbbbbbbbbbbbbbbbbbbbbbbbbbbbb".
Definition example_identity (runner_id : string) : RunnerIdentity :=
  requested_identity runner_id "queue_cccccccccccccccccccccccccccccccc" "tenant" "prod" "pool"
    (sha256_digest "key") ["booking.submit"] "linux" "1.0.0" 5000000.
Definition challenged : Registry :=
  (issue_challenge challenge_1 "token" "tenant" "prod" "pool" 600 1000000 empty_registry).1.
Definition example_enrollment : Registry * result RegistryError RunnerIdentity :=
  enroll challenge_1 "token" (example_identity runner_1) challenged.
Definition enrolled_registry : Registry := example_enrollment.1.
Definition issued (x : result RegistryError RunnerIdentity) : RunnerIdentity :=
  match x with Ok i => i | Err _ => example_identity runner_1 end.
Definition identity_1 : RunnerIdentity := issued example_enrollment.2.
Definition health_of (s : Registry) (runner_id : string) : option RunnerHealth :=
  rr_health <$> rg_runners (db_data s) !! runner_id.

Lemma challenged_reachable : registry_reachable challenged.
Proof. apply star_one. unfold challenged. apply rs_challenge. Qed.
Lemma enrolled_reachable : registry_reachable enrolled_registry.
Proof.
  eapply star_trans; [exact challenged_reachable|]. apply star_one.
  assert (enrolled_registry = (enroll_until_release None challenge_1 "token" (example_identity runner_1) challenged).1)
    as -> by (vm_compute; reflexivity). apply rs_enroll.
Qed.

(** A wrong token, another pool, a second use, an expired challenge; health until revocation. *)
Example registry_examples :
  ((enroll challenge_1 "other" (example_identity runner_1) challenged).2,
   (enroll challenge_1 "token" (example_identity "runner") challenged).2,
   (enroll challenge_1 "token" (example_identity runner_1) enrolled_registry).2,
   health_of enrolled_registry runner_1,
   map (λ capability, authorize_runner enrolled_registry runner_1 "tenant" "prod" "pool" capability)
     ["booking.submit"; "other"],
   health_of (mark_offline runner_1 "tenant" "prod" "pool" 6000000 enrolled_registry).1 runner_1,
   option_map (const ()) (match (heartbeat runner_1 "tenant" "prod" "pool" 8000000
     (revoke runner_1 "tenant" "prod" "pool" 7000000 enrolled_registry).1).2 with
     | Err (RunnerRegistryError "runner_revoked") => Some () | _ => None end))
  = (Err (RunnerEnrollmentError "enrollment_token_invalid"),
     Err (RunnerEnrollmentError "runner_identity_invalid"),
     Err (RunnerEnrollmentError "enrollment_token_used"), Some ONLINE, [Ok true; Ok false], Some OFFLINE,
     Some ()).
Proof. vm_compute. reflexivity. Qed.

(** A heartbeat with a clock before the enrollment escapes with the transaction open: a challenge
    issued then is acknowledged, and lost when the next enrollment is refused. *)
Definition challenge_2 : string := "enroll_dddddddddddddddddddddddddddddddd".
Definition skewed : Registry * result RegistryError RunnerRecord :=
  heartbeat runner_1 "tenant" "prod" "pool" 4000000 enrolled_registry.
Definition acknowledged : Registry * result RegistryError (EnrollmentChallenge * EnrollmentToken) :=
  issue_challenge challenge_2 "token" "tenant" "prod" "pool" 600 6000000 skewed.1.
Definition refused : Registry * result RegistryError RunnerIdentity :=
  enroll challenge_2 "token" (example_identity "runner_eeeeeeeeeeeeeeeeeeeeeeeeeeeeeeee") acknowledged.1.
Example early_heartbeat_loses_challenge :
  (skewed.2, is_ok acknowledged.2, refused.2, is_none (rg_challenges (db_data refused.1) !! challenge_2))
  = (Err (RegistryValueError "runner heartbeat cannot precede enrollment"), true, Err registry_unavailable, true).
Proof. vm_compute. reflexivity. Qed.

(** When the rollback of a failed enrollment falls between the statements and the commit of
    another, the identity is returned but nothing is stored: the same token enrolls a second
    runner.  A rollback before the commit of a revocation undoes it in the same way. *)
Example token_enrolls_two_runners :
  let '(s1, first) :=
    enroll_until_release (Some BeforeCommit) challenge_1 "token" (example_identity runner_1) challenged in
  let '(s2, second) := enroll challenge_1 "token" (example_identity "runner_eeeeeeeeeeeeeeeeeeeeeeeeeeeeeeee") s1 in
  (is_ok first, is_ok second, health_of s2 runner_1) = (true, true, None).
Proof. vm_compute. reflexivity. Qed.

(** The late rollback of a failed enrollment changes nothing. *)
Lemma enrollment_single_use_witness :
  (∃ r, rg_runners (db_data (rollback enrolled_registry)) !! ri_runner_id identity_1 = Some r ∧ rr_identity r = identity_1) ∧
  ∀ cut' token' identity' s3 i',
    enroll_until_release cut' challenge_1 token' identity' (rollback enrolled_registry) ≠ (s3, Ok i').
Proof.
  destruct (enrollment_single_use None challenge_1 "token" (example_identity runner_1) challenged enrolled_registry
    identity_1 (rollback enrolled_registry)) as (_ & _ & Hr & Hn).
  - exact challenged_reachable.
  - vm_compute. reflexivity.
  - apply star_one, rs_rollback.
  - split; [apply Hr; left|apply Hn; discriminate].
Defined.

Definition example_revocation : Registry * result RegistryError RunnerRecord :=
  revoke runner_1 "tenant" "prod" "pool" 7000000 enrolled_registry.
Definition record_1 : RunnerRecord :=
  match example_revocation.2 with
  | Ok r => r
  | Err _ => {| rr_identity := identity_1; rr_health := ONLINE; rr_last_heartbeat_at := None;
                rr_revoked_at := None; rr_record_digest := EmptyString |}
  end.
Lemma revocation_final_witness :
  rg_runners (db_data example_revocation.1) !! runner_1 = Some record_1 ∧ rr_health record_1 = REVOKED.
Proof.
  destruct (revocation_final runner_1 "tenant" "prod" "pool" 7000000 enrolled_registry
    example_revocation.1 record_1 example_revocation.1) as (Hr & Hh & _).
  - exact enrolled_reachable.
  - vm_compute. reflexivity.
  - apply star_refl.
  - split; [exact Hr|exact Hh].
Defined.

Definition leased : TaskStore * result TaskError (option TaskLease) :=
  acquire (Some (registry_authorizer enrolled_registry)) (seconds 30) runner_1 0 queued_store.
Definition lease_1 : TaskLease :=
  match leased.2 with Ok (Some l) => l | _ => example_lease "" 0 0 0 end.
Lemma leases_go_to_enrolled_runners_witness :
  ls_runner_id lease_1 = runner_1 ∧
  ∃ row r challenge_id c, cn_data queued_store !! ls_task_id lease_1 = Some row ∧
    rg_runners (db_data enrolled_registry) !! runner_1 = Some r ∧ rr_health r = ONLINE ∧
    tk_capability (tr_task row) ∈ ri_capabilities (rr_identity r) ∧
    validate_identity (rr_identity r) = Ok () ∧ ri_runner_id (rr_identity r) = runner_1 ∧
    rg_challenges (db_data enrolled_registry) !! challenge_id = Some c ∧
    er_consumed_at c = Some (ri_enrolled_at (rr_identity r)) ∧
    challenge_scope (er_challenge c)
    = (tk_tenant_id (tr_task row), tk_environment_id (tr_task row), tk_runner_pool (tr_task row)).
Proof.
  apply (leases_go_to_enrolled_runners enrolled_registry (seconds 30) runner_1 0 queued_store leased.1 lease_1).
  - exact enrolled_reachable.
  - vm_compute. reflexivity.
Defined.
