(* ===== verification/Edifact.v ===== *)
(** * EDIFACT interchanges (channels/edi.py)

    The bounded parser of one interchange: separators, segments with release characters, the
    message and interchange envelopes, and the metadata it returns.  A document is the string
    of its bytes; a [str] that is not ASCII is refused the same way. *)

From Stdlib Require Import Ascii.
From S2P Require Import Prelude.
From S2P Require Import Contracts.
From S2P Require Import Sqlite.

(** What is raised: [EDIParseError], or a [ValidationError] of a metadata model. *)
Inductive EdiError :=
| EDIParseError (code : string)
| EDIValidationError (message : string).

Definition MAX_EDI_BYTES : Z := 262144.
Definition MAX_EDI_SEGMENTS : Z := 4096.
Definition MAX_EDI_ELEMENTS : Z := 128.
Definition MAX_EDI_ELEMENT_BYTES : Z := 4096.

(** ** Metadata *)

(** The tag pattern [[A-Z][A-Z0-9]{1,9}], also of [EDIName]. *)
Definition tag_char (c : ascii) : bool := is_upper c || is_digit c.
Definition tag_ok (s : string) : bool :=
  match s with
  | String c s' => is_upper c && forall_chars tag_char s' && between 1 (len s') 9
  | EmptyString => false
  end.
Definition EDIReference_ok (s : string) : bool := bool_decide (strip s = s) && between 1 (len s) 70.

Record EDISegment := {
  sg_tag : string;
  sg_element_count : Z;
  sg_element_lengths : list Z;
  sg_byte_length : Z;
  sg_digest : string }.

Record EDIMessage := {
  me_message_reference : string;
  me_message_type : string;
  me_segment_count : Z;
  me_segments : list EDISegment;
  me_digest : string }.

Record EDIEnvelope := {
  en_syntax_identifier : string;
  en_interchange_control_reference : string;
  en_source_digest : string;
  en_message_count : Z;
  en_segment_count : Z;
  en_messages : list EDIMessage;
  en_digest : string }.

Definition segment_fields (s : EDISegment) : list (string * json) := [
  ("tag", JStr (sg_tag s)); ("element_count", JInt (sg_element_count s));
  ("element_lengths", JList (map JInt (sg_element_lengths s))); ("byte_length", JInt (sg_byte_length s))].
Definition message_fields (m : EDIMessage) : list (string * json) := [
  ("message_reference", JStr (me_message_reference m)); ("message_type", JStr (me_message_type m));
  ("segment_count", JInt (me_segment_count m));
  ("segments", JList (map (λ s, JObj (segment_fields s ++ [("digest", JStr (sg_digest s))])) (me_segments m)))].
Definition envelope_fields (e : EDIEnvelope) : list (string * json) := [
  ("syntax_identifier", JStr (en_syntax_identifier e));
  ("interchange_control_reference", JStr (en_interchange_control_reference e));
  ("source_digest", JStr (en_source_digest e)); ("message_count", JInt (en_message_count e));
  ("segment_count", JInt (en_segment_count e));
  ("messages", JList (map (λ m, JObj (message_fields m ++ [("digest", JStr (me_digest m))])) (en_messages e)))].

Definition sum_segments (messages : list EDIMessage) : Z :=
  fold_right (λ m n, me_segment_count m + n) 0 messages.

Section metadata.
Context `{Sha256, FloatRepr}.

(** [validate_segment], [validate_message] and [validate_envelope], after the fields. *)
Definition validate_segment (s : EDISegment) : result string () :=
  raise_if (negb (tag_ok (sg_tag s) && between 0 (sg_element_count s) MAX_EDI_ELEMENTS
                  && max_length MAX_EDI_ELEMENTS (sg_element_lengths s)
                  && between 3 (sg_byte_length s) MAX_EDI_BYTES)) "field constraint";;
  raise_if (negb (Z.of_nat (length (sg_element_lengths s)) =? sg_element_count s))
    "segment element metadata is inconsistent";;
  raise_if (negb (forallb (λ n, between 0 n MAX_EDI_ELEMENT_BYTES) (sg_element_lengths s)))
    "segment element metadata is out of bounds";;
  raise_if (negb (Digest_ok (sg_digest s))) "segment digest is invalid";;
  raise_if (negb (bool_decide (sg_digest s = value_digest (JObj (segment_fields s)))))
    "segment digest does not match metadata".

Definition envelope_tags (segments : list EDISegment) : bool :=
  match segments, last segments with
  | first :: _, Some final => bool_decide (sg_tag first = "UNH") && bool_decide (sg_tag final = "UNT")
  | _, _ => false
  end.
Definition validate_message (m : EDIMessage) : result string () :=
  raise_if (negb (EDIReference_ok (me_message_reference m) && tag_ok (me_message_type m)
                  && between 2 (me_segment_count m) MAX_EDI_SEGMENTS
                  && between 2 (Z.of_nat (length (me_segments m))) MAX_EDI_SEGMENTS)) "field constraint";;
  raise_if (negb (me_segment_count m =? Z.of_nat (length (me_segments m))))
    "message segment metadata is inconsistent";;
  raise_if (negb (envelope_tags (me_segments m))) "message envelope is unbalanced";;
  raise_if (negb (Digest_ok (me_digest m))) "message digest is invalid";;
  raise_if (negb (bool_decide (me_digest m = value_digest (JObj (message_fields m)))))
    "message digest does not match metadata".

Definition validate_envelope (e : EDIEnvelope) : result string () :=
  raise_if (negb (EDIReference_ok (en_syntax_identifier e)
                  && EDIReference_ok (en_interchange_control_reference e)
                  && between 1 (en_message_count e) MAX_EDI_SEGMENTS
                  && between 4 (en_segment_count e) MAX_EDI_SEGMENTS
                  && between 1 (Z.of_nat (length (en_messages e))) MAX_EDI_SEGMENTS)) "field constraint";;
  raise_if (negb (en_message_count e =? Z.of_nat (length (en_messages e))))
    "interchange message count is inconsistent";;
  raise_if (negb (en_segment_count e =? 2 + sum_segments (en_messages e) + 1))
    "interchange segment count is inconsistent";;
  raise_if (has_duplicates (map me_message_reference (en_messages e))) "message references must be unique";;
  raise_if (negb (Digest_ok (en_source_digest e))) "interchange source digest is invalid";;
  raise_if (negb (Digest_ok (en_digest e))) "envelope digest is invalid";;
  raise_if (negb (bool_decide (en_digest e = value_digest (JObj (envelope_fields e)))))
    "envelope digest does not match metadata".

(** The three [issue] constructors. *)
Definition issue_segment (tag : string) (element_lengths : list Z) (byte_length : Z) : result string EDISegment :=
  let unsigned digest := {| sg_tag := tag; sg_element_count := Z.of_nat (length element_lengths);
    sg_element_lengths := element_lengths; sg_byte_length := byte_length; sg_digest := digest |} in
  let s := unsigned (value_digest (JObj (segment_fields (unsigned EmptyString)))) in
  validate_segment s;; Ok s.
Definition issue_message (reference type : string) (segments : list EDISegment) : result string EDIMessage :=
  let unsigned digest := {| me_message_reference := reference; me_message_type := type;
    me_segment_count := Z.of_nat (length segments); me_segments := segments; me_digest := digest |} in
  let m := unsigned (value_digest (JObj (message_fields (unsigned EmptyString)))) in
  validate_message m;; Ok m.
Definition issue_envelope (syntax control source_digest : string) (messages : list EDIMessage)
    : result string EDIEnvelope :=
  let unsigned digest := {| en_syntax_identifier := syntax; en_interchange_control_reference := control;
    en_source_digest := source_digest; en_message_count := Z.of_nat (length messages);
    en_segment_count := 3 + sum_segments messages; en_messages := messages; en_digest := digest |} in
  let e := unsigned (value_digest (JObj (envelope_fields (unsigned EmptyString)))) in
  validate_envelope e;; Ok e.

End metadata.

(** ** Characters and separators *)

Definition newline (c : ascii) : bool := (code c =? 10) || (code c =? 13).
(** [_as_ascii_bytes]. *)
Definition edi_char (c : ascii) : bool :=
  (code c <? 128) && (negb (code c <? 32) || newline c) && negb (code c =? 127).
Definition as_ascii_bytes (data : string) : result EdiError string :=
  raise_if (negb (forall_chars edi_char data)) (EDIParseError "edi_charset_invalid");; Ok data.

Record Separators := {
  sp_component : ascii;
  sp_element : ascii;
  sp_decimal : ascii;
  sp_release : ascii;
  sp_terminator : ascii }.
Definition separator_list (sp : Separators) : list ascii :=
  [sp_component sp; sp_element sp; sp_decimal sp; sp_release sp; sp_terminator sp].
Definition default_separators : Separators := {|
  sp_component := ":"; sp_element := "+"; sp_decimal := "."; sp_release := "?"; sp_terminator := "'" |}%char.

(** [_separators]. *)
Definition separators (data : string) : result EdiError (Separators * string) :=
  match data with
  | String "U" (String "N" (String "A" rest)) =>
      match rest with
      | String component (String element (String decimal (String release (String reserved
          (String terminator body))))) =>
          let sp := {| sp_component := component; sp_element := element; sp_decimal := decimal;
                       sp_release := release; sp_terminator := terminator |} in
          raise_if (negb (code reserved =? 32) || has_duplicates (separator_list sp))
            (EDIParseError "edi_separator_invalid");;
          Ok (sp, body)
      | _ => Err (EDIParseError "edi_truncated")
      end
  | _ => Ok (default_separators, data)
  end.

(** ** Segments *)

(** [_split_elements]. *)
Fixpoint split_elements (separator release : ascii) (raw current : list ascii) (escaped : bool)
    : result EdiError (list string) :=
  match raw with
  | [] => if escaped then Err (EDIParseError "edi_truncated") else Ok [String.string_of_list_ascii current]
  | c :: raw' =>
      if escaped then split_elements separator release raw' (current ++ [c]) false
      else if bool_decide (c = release) then split_elements separator release raw' current true
      else if bool_decide (c = separator)
      then values ← split_elements separator release raw' [] false;
           Ok (String.string_of_list_ascii current :: values)
      else split_elements separator release raw' (current ++ [c]) false
  end.

(** The scan of [_split_segments]: the raw segments, and what is left over. *)
Fixpoint scan_segments (release terminator : ascii) (text current : list ascii) (escaped : bool)
    : list (list ascii) * (list ascii * bool) :=
  match text with
  | [] => ([], (current, escaped))
  | c :: text' =>
      if bool_decide (current = []) && newline c then scan_segments release terminator text' current escaped
      else if escaped then scan_segments release terminator text' (current ++ [c]) false
      else if bool_decide (c = release) then scan_segments release terminator text' (current ++ [c]) true
      else if bool_decide (c = terminator)
      then let '(raws, rest) := scan_segments release terminator text' [] false in (current :: raws, rest)
      else scan_segments release terminator text' (current ++ [c]) false
  end.

(** A segment: tag, element values and length on the wire. *)
Record Segment := {
  sm_tag : string;
  sm_elements : list string;
  sm_size : Z }.

Definition control_tags : list string := ["UNB"; "UNH"; "UNT"; "UNZ"].
Definition starts_with_chars (prefix : list ascii) (raw : list ascii) : bool :=
  bool_decide (take (length prefix) raw = prefix).
Definition read_segment (sp : Separators) (raw : list ascii) : result EdiError Segment :=
  elements ← split_elements (sp_element sp) (sp_release sp) raw [] false;
  match elements with
  | [] => Err (EDIParseError "edi_segment_invalid")
  | tag :: values =>
      raise_if (negb (tag_ok tag)) (EDIParseError "edi_segment_invalid");;
      raise_if (negb (mem tag control_tags || starts_with_chars ["U"; "N"; "A"]%char raw)
                && negb (bool_decide (raw = []))
                && starts_with_chars ["U"; "N"]%char (String.list_ascii_of_string tag))
        (EDIParseError "edi_unknown_envelope_segment");;
      raise_if (negb (max_length MAX_EDI_ELEMENTS values)) (EDIParseError "edi_too_many_elements");;
      raise_if (negb (forallb (λ v, len v <=? MAX_EDI_ELEMENT_BYTES) values))
        (EDIParseError "edi_element_too_large");;
      Ok {| sm_tag := tag; sm_elements := values; sm_size := Z.of_nat (length raw) + 1 |}
  end.

(** [text.rstrip]. *)
Fixpoint drop_newlines (l : list ascii) : list ascii :=
  match l with
  | [] => []
  | c :: l' => if newline c then drop_newlines l' else l
  end.
Definition strip_newlines (text : list ascii) : list ascii := rev (drop_newlines (rev text)).

(** [_split_segments]. *)
Definition split_segments (sp : Separators) (body : string) : result EdiError (list Segment) :=
  let text := strip_newlines (String.list_ascii_of_string body) in
  raise_if (negb (bool_decide (last text = Some (sp_terminator sp)))) (EDIParseError "edi_truncated");;
  let '(raws, (current, escaped)) := scan_segments (sp_release sp) (sp_terminator sp) text [] false in
  raise_if (escaped || negb (bool_decide (current = []))) (EDIParseError "edi_truncated");;
  mapM_result (read_segment sp) raws.

(** ** The interchange *)

(** [_integer]. *)
Fixpoint digits_value (acc : Z) (s : string) : Z :=
  match s with
  | EmptyString => acc
  | String c s' => digits_value (10 * acc + (code c - 48)) s'
  end.
Definition integer (value : string) : result EdiError Z :=
  raise_if (negb (forall_chars is_digit value && between 1 (len value) 9)) (EDIParseError "edi_count_invalid");;
  Ok (digits_value 0 value).

(** [value.split(component, 1)[0]]. *)
Fixpoint first_component (component : ascii) (s : string) : string :=
  match s with
  | EmptyString => EmptyString
  | String c s' => if bool_decide (c = component) then EmptyString else String c (first_component component s')
  end.

Section parser.
Context `{Sha256, FloatRepr}.

(** The loop that issues the segment metadata. *)
Definition segment_model (s : Segment) : result EdiError (Segment * EDISegment) :=
  raise_if (negb (mem (sm_tag s) ["UNB"; "UNZ"] || max_length MAX_EDI_ELEMENTS (sm_elements s)))
    (EDIParseError "edi_too_many_elements");;
  m ← escaping EDIValidationError (issue_segment (sm_tag s) (map len (sm_elements s)) (sm_size s));
  Ok (s, m).

(** The end of a message: its [UNH] and [UNT] segments, and all of them. *)
Definition close_message (component : ascii) (segments : list (Segment * EDISegment)) (unh unt : Segment)
    (seen : list string) : result EdiError EDIMessage :=
  match sm_elements unh, sm_elements unt with
  | reference :: type :: _, count :: unt_reference :: _ =>
      raise_if (negb (bool_decide (reference = unt_reference)))
        (EDIParseError "edi_message_reference_mismatch");;
      raise_if (mem reference seen) (EDIParseError "edi_duplicate_reference");;
      n ← integer count;
      raise_if (negb (n =? Z.of_nat (length segments))) (EDIParseError "edi_segment_count_mismatch");;
      escaping EDIValidationError
        (issue_message reference (first_component component type) (map snd segments))
  | _, _ => Err (EDIParseError "edi_message_invalid")
  end.

(** The loops over the segments between the envelope; [opened] holds the message being read. *)
Fixpoint parse_messages (component : ascii) (segments opened : list (Segment * EDISegment))
    (seen : list string) : result EdiError (list EDIMessage) :=
  match segments with
  | [] => match opened with [] => Ok [] | _ => Err (EDIParseError "edi_truncated") end
  | s :: segments' =>
      let tag := sm_tag s.1 in
      match opened with
      | [] =>
          raise_if (negb (bool_decide (tag = "UNH"))) (EDIParseError "edi_message_unbalanced");;
          parse_messages component segments' [s] seen
      | unh :: _ =>
          if bool_decide (tag = "UNT") then
            m ← close_message component (opened ++ [s]) unh.1 s.1 seen;
            messages ← parse_messages component segments' [] (me_message_reference m :: seen);
            Ok (m :: messages)
          else
            raise_if (bool_decide (tag = "UNH")) (EDIParseError "edi_nested_message");;
            parse_messages component segments' (opened ++ [s]) seen
      end
  end.

(** [parse_edifact]. *)
Definition wire_digest (data : string) : string := "sha256:" +:+ sha256_hex data.
Definition parse_edifact (document : string) : result EdiError EDIEnvelope :=
  data ← as_ascii_bytes document;
  raise_if (MAX_EDI_BYTES <? len data) (EDIParseError "edi_too_large");;
  x ← separators data;
  let '(sp, body) := x in
  segments ← split_segments sp body;
  raise_if (MAX_EDI_SEGMENTS <? Z.of_nat (length segments)) (EDIParseError "edi_too_many_segments");;
  match segments, last segments with
  | unb :: inner, Some unz =>
      raise_if (negb (bool_decide (sm_tag unb = "UNB")) || negb (bool_decide (sm_tag unz = "UNZ")))
        (EDIParseError "edi_envelope_invalid");;
      raise_if (existsb (λ s, mem (sm_tag s) ["UNB"; "UNZ"]) (removelast inner))
        (EDIParseError "edi_nested_envelope");;
      match sm_elements unb, sm_elements unz with
      | syntax :: _ :: _ :: _ :: control :: _, count :: unz_control :: _ =>
          raise_if (bool_decide (first_component (sp_component sp) syntax = ""))
            (EDIParseError "edi_envelope_invalid");;
          raise_if (negb (bool_decide (unz_control = control)))
            (EDIParseError "edi_control_reference_mismatch");;
          message_count ← integer count;
          models ← mapM_result segment_model segments;
          messages ← parse_messages (sp_component sp) (removelast (tail models)) [] [];
          raise_if (bool_decide (messages = [])) (EDIParseError "edi_message_missing");;
          raise_if (negb (message_count =? Z.of_nat (length messages)))
            (EDIParseError "edi_message_count_mismatch");;
          escaping EDIValidationError (issue_envelope syntax control (wire_digest data) messages)
      | _, _ => Err (EDIParseError "edi_envelope_invalid")
      end
  | _, _ => Err (EDIParseError "edi_envelope_invalid")
  end.

End parser.

(** ** Writing segments *)

(** An element with its special characters released. *)
Definition special (sp : Separators) (c : ascii) : bool :=
  bool_decide (c = sp_release sp) || bool_decide (c = sp_element sp) || bool_decide (c = sp_terminator sp).
Definition escape (sp : Separators) (e : list ascii) : list ascii :=
  concat (map (λ c, if special sp c then [sp_release sp; c] else [c]) e).

(** The text of a segment up to its terminator, and of segments followed by line breaks. *)
Definition raw_of (sp : Separators) (s : string * list string) : list ascii :=
  String.list_ascii_of_string s.1
  ++ concat (map (λ e, sp_element sp :: escape sp (String.list_ascii_of_string e)) s.2).
Definition render (sp : Separators) (gap : list ascii) (segments : list (string * list string)) : string :=
  String.string_of_list_ascii (concat (map (λ s, raw_of sp s ++ [sp_terminator sp] ++ gap) segments)).

(** The separators are told apart and occur in no tag; the terminator is no line break. *)
Definition separators_ok (sp : Separators) : bool :=
  negb (bool_decide (sp_release sp = sp_element sp)) && negb (bool_decide (sp_release sp = sp_terminator sp))
  && negb (bool_decide (sp_element sp = sp_terminator sp))
  && negb (tag_char (sp_release sp)) && negb (tag_char (sp_element sp)) && negb (tag_char (sp_terminator sp))
  && negb (newline (sp_terminator sp)).
Definition writable (s : string * list string) : bool :=
  tag_ok s.1
  && (mem s.1 control_tags || negb (starts_with_chars ["U"; "N"]%char (String.list_ascii_of_string s.1)))
  && max_length MAX_EDI_ELEMENTS s.2 && forallb (λ v, len v <=? MAX_EDI_ELEMENT_BYTES) s.2.
Definition segment_of (sp : Separators) (s : string * list string) : Segment := {|
  sm_tag := s.1; sm_elements := s.2; sm_size := Z.of_nat (length (raw_of sp s)) + 1 |}.

(** ** Lemmas on the lexer *)

Lemma separators_ok_spec sp :
  separators_ok sp = true ↔
  sp_release sp ≠ sp_element sp ∧ sp_release sp ≠ sp_terminator sp ∧ sp_element sp ≠ sp_terminator sp ∧
  tag_char (sp_release sp) = false ∧ tag_char (sp_element sp) = false ∧
  tag_char (sp_terminator sp) = false ∧ newline (sp_terminator sp) = false.
Proof.
  unfold separators_ok. rewrite !andb_true_iff, !negb_true_iff, !bool_decide_eq_false. tauto.
Qed.

Lemma tag_ok_chars tag : tag_ok tag = true → tag ≠ "" ∧ Forall (λ c, tag_char c = true) (String.list_ascii_of_string tag).
Proof.
  destruct tag as [|c s]; [done|]. cbn [tag_ok]. rewrite !andb_true_iff. intros [[Hc Hs] _]. split; [done|].
  cbn. constructor; [by unfold tag_char; rewrite Hc|].
  clear Hc. induction s as [|d s IH]; cbn in *; [constructor|]. apply andb_true_iff in Hs as [Hd Hs].
  constructor; [done|by apply IH].
Qed.

Lemma tag_char_not_newline c : tag_char c = true → newline c = false.
Proof. unfold tag_char, newline, is_upper, is_digit. lia. Qed.

(** Characters other than the separators are kept. *)
Lemma split_plain sp c raw current :
  bool_decide (c = sp_release sp) = false → bool_decide (c = sp_element sp) = false →
  split_elements (sp_element sp) (sp_release sp) (c :: raw) current false
  = split_elements (sp_element sp) (sp_release sp) raw (current ++ [c]) false.
Proof. intros H1 H2. cbn [split_elements]. by rewrite H1, H2. Qed.

Lemma split_escape sp e raw current :
  separators_ok sp = true →
  split_elements (sp_element sp) (sp_release sp) (escape sp e ++ raw) current false
  = split_elements (sp_element sp) (sp_release sp) raw (current ++ e) false.
Proof.
  intros Hsp. unfold escape. revert current. induction e as [|c e IH]; intros current; [by rewrite app_nil_r|].
  cbn [map concat]. rewrite <-app_assoc. destruct (special sp c) eqn:Es.
  - change ([sp_release sp; c] ++ ?l) with (sp_release sp :: c :: l). cbn [split_elements].
    rewrite bool_decide_true by done. rewrite IH, <-app_assoc. done.
  - unfold special in Es. rewrite !orb_false_iff in Es. destruct Es as [[H1 H2] _].
    change ([c] ++ ?l) with (c :: l). rewrite split_plain, IH, <-app_assoc by done. done.
Qed.

Lemma split_tag sp tag raw current :
  separators_ok sp = true → Forall (λ c, tag_char c = true) tag →
  split_elements (sp_element sp) (sp_release sp) (tag ++ raw) current false
  = split_elements (sp_element sp) (sp_release sp) raw (current ++ tag) false.
Proof.
  intros Hsp%separators_ok_spec Ht. destruct Hsp as (_ & _ & _ & Hr & He & _).
  revert current. induction Ht as [|c tag Hc _ IH]; intros current; [by rewrite app_nil_r|].
  rewrite <-app_comm_cons, split_plain, IH, <-app_assoc; [done|..]; apply bool_decide_eq_false; congruence.
Qed.

Lemma split_rendered sp elements current :
  separators_ok sp = true →
  split_elements (sp_element sp) (sp_release sp)
    (concat (map (λ e, sp_element sp :: escape sp (String.list_ascii_of_string e)) elements)) current false
  = Ok (String.string_of_list_ascii current :: elements).
Proof.
  intros Hsp. revert current. induction elements as [|e elements IH]; intros current; [done|].
  cbn [map concat]. rewrite <-app_comm_cons. cbn [split_elements].
  assert (sp_element sp ≠ sp_release sp) as Hne by (apply separators_ok_spec in Hsp; intros E; by destruct Hsp).
  rewrite bool_decide_false, bool_decide_true by done.
  rewrite split_escape, IH by done. cbn. by rewrite String.string_of_list_ascii_of_string.
Qed.

Lemma split_raw sp s :
  separators_ok sp = true → tag_ok s.1 = true →
  split_elements (sp_element sp) (sp_release sp) (raw_of sp s) [] false = Ok (s.1 :: s.2).
Proof.
  intros Hsp [_ Ht]%tag_ok_chars. unfold raw_of. rewrite split_tag, split_rendered by done.
  cbn. by rewrite String.string_of_list_ascii_of_string.
Qed.

(** The scan finds the same segments. *)
Lemma scan_newlines release terminator gap text :
  Forall (λ c, newline c = true) gap →
  scan_segments release terminator (gap ++ text) [] false = scan_segments release terminator text [] false.
Proof. induction 1 as [|c gap Hc _ IH]; [done|]. cbn. by rewrite Hc. Qed.

Lemma scan_plain sp c text current :
  (current ≠ [] ∨ newline c = false) → c ≠ sp_release sp → c ≠ sp_terminator sp →
  scan_segments (sp_release sp) (sp_terminator sp) (c :: text) current false
  = scan_segments (sp_release sp) (sp_terminator sp) text (current ++ [c]) false.
Proof.
  intros Hn H1 H2. cbn [scan_segments]. rewrite (bool_decide_false (c = _)), (bool_decide_false (c = _)) by done.
  destruct Hn as [Hn|Hn]; [by rewrite bool_decide_false|by rewrite Hn, andb_false_r].
Qed.

Lemma scan_tag sp tag text current :
  separators_ok sp = true → Forall (λ c, tag_char c = true) tag →
  scan_segments (sp_release sp) (sp_terminator sp) (tag ++ text) current false
  = scan_segments (sp_release sp) (sp_terminator sp) text (current ++ tag) false.
Proof.
  intros Hsp%separators_ok_spec Ht. destruct Hsp as (_ & _ & _ & Hr & _ & He & _).
  revert current. induction Ht as [|c tag Hc _ IH]; intros current; [by rewrite app_nil_r|].
  rewrite <-app_comm_cons, scan_plain, IH, <-app_assoc; [done|right; by apply tag_char_not_newline|congruence..].
Qed.

Lemma scan_escape sp e text current :
  current ≠ [] →
  scan_segments (sp_release sp) (sp_terminator sp) (escape sp e ++ text) current false
  = scan_segments (sp_release sp) (sp_terminator sp) text (current ++ escape sp e) false.
Proof.
  unfold escape. revert current. induction e as [|c e IH]; intros current Hc; [by rewrite app_nil_r|].
  cbn [map concat]. rewrite <-app_assoc. destruct (special sp c) eqn:Es.
  - change ([sp_release sp; c] ++ ?l) with (sp_release sp :: c :: l). cbn [scan_segments].
    rewrite (bool_decide_false (current = [])), (bool_decide_true (sp_release sp = _)) by done. cbn [andb].
    rewrite bool_decide_false by (by destruct current). cbn [andb].
    rewrite IH by (by destruct current). f_equal. by rewrite <-!app_assoc.
  - unfold special in Es. rewrite !orb_false_iff, !bool_decide_eq_false in Es. destruct Es as [[H1 H2] H3].
    change ([c] ++ ?l) with (c :: l). rewrite scan_plain by auto.
    rewrite IH by (by destruct current). by rewrite <-app_assoc.
Qed.

Lemma scan_elements sp elements text current :
  separators_ok sp = true → current ≠ [] →
  scan_segments (sp_release sp) (sp_terminator sp)
    (concat (map (λ e, sp_element sp :: escape sp (String.list_ascii_of_string e)) elements) ++ text) current false
  = scan_segments (sp_release sp) (sp_terminator sp) text
      (current ++ concat (map (λ e, sp_element sp :: escape sp (String.list_ascii_of_string e)) elements)) false.
Proof.
  intros Hsp. pose proof Hsp as (H1 & _ & H2 & _)%separators_ok_spec.
  revert current. induction elements as [|e elements IH]; intros current Hc; [by rewrite app_nil_r|].
  cbn [map concat]. rewrite <-app_assoc, <-app_comm_cons, scan_plain by auto.
  rewrite scan_escape, IH by (by destruct current). f_equal. by rewrite <-!app_assoc.
Qed.

Lemma raw_of_nonempty sp s : tag_ok s.1 = true → raw_of sp s ≠ [].
Proof. intros [Ht _]%tag_ok_chars. unfold raw_of. by destruct s.1. Qed.

Lemma scan_raw sp s text :
  separators_ok sp = true → tag_ok s.1 = true →
  scan_segments (sp_release sp) (sp_terminator sp) (raw_of sp s ++ sp_terminator sp :: text) [] false
  = let '(raws, rest) := scan_segments (sp_release sp) (sp_terminator sp) text [] false in
    (raw_of sp s :: raws, rest).
Proof.
  intros Hsp Ht. pose proof (raw_of_nonempty sp s Ht) as Hne. apply tag_ok_chars in Ht as [Hn Ht].
  pose proof Hsp as (_ & H1 & _)%separators_ok_spec.
  unfold raw_of at 1. rewrite <-app_assoc, scan_tag by done. cbn [app].
  rewrite scan_elements; [|done|by destruct s.1]. fold (raw_of sp s). cbn [scan_segments].
  by rewrite (bool_decide_false (raw_of sp s = [])), (bool_decide_false (sp_terminator sp = sp_release sp)),
    (bool_decide_true (sp_terminator sp = _)) by done.
Qed.

Lemma scan_rendered sp gap segments text :
  separators_ok sp = true → Forall (λ c, newline c = true) gap → Forall (λ s, tag_ok s.1 = true) segments →
  scan_segments (sp_release sp) (sp_terminator sp)
    (concat (map (λ s, raw_of sp s ++ [sp_terminator sp] ++ gap) segments) ++ text) [] false
  = let '(raws, rest) := scan_segments (sp_release sp) (sp_terminator sp) text [] false in
    (map (raw_of sp) segments ++ raws, rest).
Proof.
  intros Hsp Hg. induction 1 as [|s segments Hs _ IH]; [cbn [map concat app]; by destruct (scan_segments _ _ text _ _)|].
  cbn [map concat]. rewrite <-!app_assoc. change ([?c] ++ ?l) with (c :: l).
  rewrite scan_raw, scan_newlines, IH by done. by destruct (scan_segments _ _ text _ _).
Qed.

(** Line breaks at the end change nothing. *)
Lemma drop_newlines_gap gap l :
  Forall (λ c, newline c = true) gap → drop_newlines (gap ++ l) = drop_newlines l.
Proof. induction 1 as [|c gap Hc _ IH]; [done|]. cbn. by rewrite Hc. Qed.

Lemma strip_newlines_gap text c gap :
  newline c = false → Forall (λ c, newline c = true) gap →
  strip_newlines (text ++ [c] ++ gap) = text ++ [c].
Proof.
  intros Hc Hg. unfold strip_newlines. rewrite app_assoc, (rev_app_distr _ gap), drop_newlines_gap.
  - rewrite rev_app_distr. cbn. rewrite Hc. cbn. by rewrite rev_involutive.
  - apply Forall_forall. intros x Hx. rewrite Forall_forall in Hg. apply Hg.
    rewrite list_elem_of_In in *. by apply in_rev.
Qed.

Lemma read_raw sp s :
  separators_ok sp = true → writable s = true → read_segment sp (raw_of sp s) = Ok (segment_of sp s).
Proof.
  intros Hsp Hw. unfold writable in Hw. rewrite !andb_true_iff in Hw. destruct Hw as [[[Ht Hu] Hm] Hl].
  unfold read_segment. rewrite split_raw by done. cbn [mbind result_bind]. rewrite Ht, Hm, Hl. cbn [negb raise_if].
  replace (negb (mem s.1 control_tags || _) && _ && _) with false; [done|symmetry].
  apply orb_true_iff in Hu as [-> | ->%negb_true_iff]; [done|by rewrite andb_false_r].
Qed.

Lemma mapM_result_map {E A B C} (f : B → result E C) (g : A → B) (h : A → C) l :
  Forall (λ a, f (g a) = Ok (h a)) l → mapM_result f (map g l) = Ok (map h l).
Proof. induction 1 as [|a l Ha _ IH]; [done|]. cbn. rewrite Ha. cbn. by rewrite IH. Qed.

(** Reading what was written gives the segments back. *)
Lemma split_render sp gap segments :
  separators_ok sp = true → Forall (λ c, newline c = true) gap → segments ≠ [] →
  Forall (λ s, writable s = true) segments →
  split_segments sp (render sp gap segments) = Ok (map (segment_of sp) segments).
Proof.
  intros Hsp Hg Hne Hw. unfold split_segments, render. rewrite String.list_ascii_of_string_of_list_ascii.
  pose proof Hsp as (_ & _ & _ & _ & _ & _ & Hnl)%separators_ok_spec.
  assert (Forall (λ s, tag_ok s.1 = true) segments) as Ht.
  { eapply Forall_impl; [exact Hw|]. intros s. unfold writable. rewrite !andb_true_iff. tauto. }
  destruct (exists_last Hne) as (front & s & ->). rewrite map_app, concat_app. cbn [map concat].
  rewrite app_nil_r, (app_assoc (raw_of sp s)), (app_assoc (concat _)), app_assoc, <-app_assoc.
  set (text := concat _ ++ raw_of sp s).
  assert (scan_segments (sp_release sp) (sp_terminator sp) (text ++ [sp_terminator sp]) [] false
    = (map (raw_of sp) (front ++ [s]), ([], false))) as Hscan.
  { unfold text. apply Forall_app in Ht as [Hf Hs]. apply Forall_cons_1 in Hs as [Hs _].
    rewrite <-app_assoc, scan_rendered, (scan_raw sp s []), map_app by done. done. }
  rewrite strip_newlines_gap by done. rewrite last_snoc, bool_decide_true, Hscan by done. cbn.
  apply (mapM_result_map (read_segment sp) (raw_of sp) (segment_of sp)).
  eapply Forall_impl; [exact Hw|]. intros s' Hs'. by apply read_raw.
Qed.


(** ** The grammar of interchanges *)

Section grammar.
Context `{Sha256, FloatRepr}.

(** The segments of one message, with their metadata, and the message they make. *)
Inductive message_of (component : ascii) (group : list (Segment * EDISegment)) (m : EDIMessage) : Prop :=
| message_of_intro unh body unt reference type more count more' :
    group = unh :: body ++ [unt] → sm_tag unh.1 = "UNH" → sm_tag unt.1 = "UNT" →
    Forall (λ s, sm_tag s.1 ≠ "UNH" ∧ sm_tag s.1 ≠ "UNT") body →
    sm_elements unh.1 = reference :: type :: more → sm_elements unt.1 = count :: reference :: more' →
    integer count = Ok (Z.of_nat (length group)) →
    issue_message reference (first_component component type) (map snd group) = Ok m →
    message_of component group m.

(** The segments of an interchange and the envelope they make: counts and references agree. *)
Inductive interchange (sp : Separators) (segments : list Segment) (digest : string) (e : EDIEnvelope) : Prop :=
| interchange_intro unb inner unz syntax sender recipient prepared control more count more' groups messages :
    segments = unb :: inner ++ [unz] → sm_tag unb = "UNB" → sm_tag unz = "UNZ" →
    Forall (λ s, sm_tag s ≠ "UNB" ∧ sm_tag s ≠ "UNZ") inner →
    sm_elements unb = syntax :: sender :: recipient :: prepared :: control :: more →
    first_component (sp_component sp) syntax ≠ "" →
    sm_elements unz = count :: control :: more' → integer count = Ok (Z.of_nat (length messages)) →
    Forall2 (λ s x, segment_model s = Ok x) inner (concat groups) →
    Forall2 (message_of (sp_component sp)) groups messages → messages ≠ [] →
    NoDup (map me_message_reference messages) →
    issue_envelope syntax control digest messages = Ok e → interchange sp segments digest e.

(** ** Lemmas on messages *)

Lemma issue_message_inv reference type segments m :
  issue_message reference type segments = Ok m →
  me_message_reference m = reference ∧ me_message_type m = type ∧ me_segments m = segments ∧
  validate_message m = Ok ().
Proof. unfold issue_message. by intros ([] & Hv & [= <-])%bind_ok. Qed.

Lemma close_message_ok component group unh unt seen m :
  close_message component group unh unt seen = Ok m ↔
  ∃ reference type more count more',
    sm_elements unh = reference :: type :: more ∧ sm_elements unt = count :: reference :: more' ∧
    reference ∉ seen ∧ integer count = Ok (Z.of_nat (length group)) ∧
    issue_message reference (first_component component type) (map snd group) = Ok m.
Proof.
  unfold close_message. split.
  - destruct (sm_elements unh) as [|reference [|type more]]; [done..|].
    destruct (sm_elements unt) as [|count [|reference' more']]; [done..|]. rewrite !raise_if_then.
    intros (Hr & Hs & (n & Hn & [Hc Hi]%raise_if_then)%bind_ok). boolify. apply escaping_ok in Hi.
    subst reference' n. apply mem_false in Hs. exists reference, type, more, count, more'. by split_and!.
  - intros (reference & type & more & count & more' & -> & -> & Hs & Hn & Hi).
    rewrite bool_decide_true, (proj2 (mem_false _ _) Hs), Hn by done. cbn.
    by rewrite Z.eqb_refl, Hi.
Qed.

(** Reading on inside a message ends at its [UNT]. *)
Lemma parse_opened component segments unh opened seen messages :
  parse_messages component segments (unh :: opened) seen = Ok messages ↔
  ∃ body unt rest m messages', segments = body ++ unt :: rest ∧
    Forall (λ s, sm_tag s.1 ≠ "UNH" ∧ sm_tag s.1 ≠ "UNT") body ∧ sm_tag unt.1 = "UNT" ∧
    close_message component (unh :: opened ++ body ++ [unt]) unh.1 unt.1 seen = Ok m ∧
    parse_messages component rest [] (me_message_reference m :: seen) = Ok messages' ∧
    messages = m :: messages'.
Proof.
  revert opened. induction segments as [|s segments IH]; intros opened; cbn [parse_messages].
  { split; [done|]. by intros ([] & ? & ? & ? & ? & ? & _). }
  destruct (decide (sm_tag s.1 = "UNT")) as [Et|Et].
  - rewrite bool_decide_true by done. split.
    + intros (m & Hm & (messages' & Hr & [= <-])%bind_ok)%bind_ok.
      exists [], s, segments, m, messages'. by split_and!.
    + intros (body & unt & rest & m & messages' & Es & Hb & _ & Hm & Hr & ->).
      destruct body as [|b body]; cbn in Es; injection Es as -> ->; [|by apply Forall_cons in Hb as [[_ ?] _]].
      cbn in Hm |- *. rewrite Hm. cbn. by rewrite Hr.
  - rewrite bool_decide_false by done. destruct (decide (sm_tag s.1 = "UNH")) as [Eh|Eh].
    + rewrite bool_decide_true by done. split; [done|].
      intros (body & unt & rest & m & messages' & Es & Hb & Hu & _).
      destruct body as [|b body]; cbn in Es; injection Es as -> ->; [congruence|].
      by apply Forall_cons in Hb as [[? _] _].
    + rewrite bool_decide_false by done. cbn [raise_if mbind result_bind].
      change (parse_messages component segments ((unh :: opened) ++ [s]) seen)
        with (parse_messages component segments (unh :: (opened ++ [s])) seen).
      rewrite IH. split.
      * intros (body & unt & rest & m & messages' & -> & Hb & Hu & Hm & Hr & ->).
        exists (s :: body), unt, rest, m, messages'. split_and!; try done; [by constructor|].
        rewrite <-app_assoc in Hm. exact Hm.
      * intros (body & unt & rest & m & messages' & Es & Hb & Hu & Hm & Hr & ->).
        destruct body as [|b body]; cbn in Es; injection Es as -> ->; [congruence|].
        apply Forall_cons in Hb as [_ Hb]. exists body, unt, rest, m, messages'. split_and!; try done.
        rewrite <-app_assoc. exact Hm.
Qed.

Lemma parse_messages_ok component segments seen messages :
  parse_messages component segments [] seen = Ok messages ↔
  ∃ groups, segments = concat groups ∧ Forall2 (message_of component) groups messages ∧
    NoDup (map me_message_reference messages) ∧
    ∀ m, m ∈ messages → me_message_reference m ∉ seen.
Proof.
  remember (length segments) as n eqn:En. revert segments seen messages En.
  induction n as [n IH] using lt_wf_ind. intros [|s segments] seen messages En; cbn [parse_messages].
  { split.
    - intros [= <-]. exists []. split_and!; [done|constructor|apply NoDup_nil_2|]. by intros m ?%elem_of_nil.
    - intros ([|g groups] & Es & HF & _); inversion HF as [|? m ? ? Hg]; subst; [done|].
      destruct Hg as [??? ???? ? ->]. done. }
  rewrite raise_if_then, negb_false_iff, bool_decide_eq_true, parse_opened. split.
  - intros (Hs & body & unt & rest & m & messages' & -> & Hb & Hu & Hm & Hr & ->).
    apply (IH (length rest)) in Hr as (groups & -> & HF & Hn & Hseen); [|subst n; cbn; rewrite length_app; cbn; lia|done].
    apply close_message_ok in Hm as (reference & type & more & count & more' & E1 & E2 & Hns & Hc & Hi).
    pose proof (issue_message_inv _ _ _ _ Hi) as (Eref & _).
    exists ((s :: body ++ [unt]) :: groups). split_and!.
    + cbn. by rewrite <-app_assoc.
    + constructor; [|done]. by eapply message_of_intro.
    + cbn. apply NoDup_cons. split; [|done]. intros (m' & E & Hm')%list_elem_of_fmap.
      apply (Hseen m' Hm'). rewrite E. by left.
    + intros m' [->|Hm']%elem_of_cons; [by rewrite Eref|]. intros Hin. apply (Hseen m' Hm'). by right.
  - intros (groups & Es & HF & Hn & Hseen). destruct HF as [|g m groups messages' Hg HF]; [done|].
    destruct Hg as [unh body unt reference type more count more' -> Hu Ht Hb E1 E2 Hc Hi].
    cbn in Es. injection Es as -> Es. rewrite <-app_assoc in Es. cbn in Es. split; [done|].
    apply NoDup_cons in Hn as [Hnm Hn]. pose proof (issue_message_inv _ _ _ _ Hi) as (Eref & _).
    exists body, unt, (concat groups), m, messages'. split_and!; try done.
    + apply close_message_ok. exists reference, type, more, count, more'. split_and!; try done.
      rewrite <-Eref. apply Hseen. by left.
    + apply (IH (length (concat groups))); [subst n; rewrite Es; cbn; rewrite length_app; cbn; lia|done|].
      exists groups. split_and!; try done. intros m' Hm' [E|Hin]%elem_of_cons.
      * apply Hnm. apply list_elem_of_fmap. by exists m'.
      * by apply (Hseen m'); [right|].
Qed.

(** ** Segment metadata is always issued *)

Lemma string_of_list_length l : String.length (String.string_of_list_ascii l) = length l.
Proof. induction l as [|c l IH]; [done|]. cbn. by rewrite IH. Qed.

Lemma scan_sizes release terminator text current escaped raws rest :
  scan_segments release terminator text current escaped = (raws, rest) →
  Forall (λ raw, (length raw < length current + length text)%nat) raws.
Proof.
  revert current escaped raws rest. induction text as [|c text IH]; intros current escaped raws rest;
    cbn [scan_segments length]; [intros [= <- <-]; constructor|].
  assert (∀ current' escaped' raws', (length current' ≤ S (length current))%nat →
    scan_segments release terminator text current' escaped' = (raws', rest) →
    Forall (λ raw, (length raw < length current + S (length text))%nat) raws') as Hrec.
  { intros current' escaped' raws' Hl Hs. eapply Forall_impl; [by eapply IH|]. cbn. lia. }
  assert (length (current ++ [c]) = S (length current)) as Hl by (rewrite length_app; cbn; lia).
  destruct (_ && _); [intros Hs; eapply Hrec; [|exact Hs]; lia|].
  destruct escaped; [intros Hs; eapply Hrec; [|exact Hs]; lia|].
  destruct (bool_decide (c = release)); [intros Hs; eapply Hrec; [|exact Hs]; lia|].
  destruct (bool_decide (c = terminator)); [|intros Hs; eapply Hrec; [|exact Hs]; lia].
  destruct (scan_segments _ _ text [] false) as [raws' rest'] eqn:E. intros [= <- ->].
  constructor; [lia|]. eapply Hrec; [|exact E]. cbn. lia.
Qed.

Lemma split_elements_size separator release raw current escaped elements e :
  split_elements separator release raw current escaped = Ok elements → e ∈ elements →
  len e ≤ Z.of_nat (length current + length raw).
Proof.
  revert current escaped elements. induction raw as [|c raw IH]; intros current escaped elements;
    cbn [split_elements length].
  { destruct escaped; [done|]. intros [= <-] ->%list_elem_of_singleton.
    unfold len. rewrite string_of_list_length. lia. }
  assert (length (current ++ [c]) = S (length current)) as Hl by (rewrite length_app; cbn; lia).
  destruct escaped; [intros Hs He; pose proof (IH _ _ _ Hs He); lia|].
  destruct (bool_decide (c = release)); [intros Hs He; pose proof (IH _ _ _ Hs He); lia|].
  destruct (bool_decide (c = separator)); [|intros Hs He; pose proof (IH _ _ _ Hs He); lia].
  intros (values & Hs & [= <-])%bind_ok [->|He]%elem_of_cons.
  - unfold len. rewrite string_of_list_length. lia.
  - pose proof (IH _ _ _ Hs He). cbn in *. lia.
Qed.

Lemma strip_newlines_length l : (length (strip_newlines l) ≤ length l)%nat.
Proof.
  unfold strip_newlines. rewrite length_rev. rewrite <-(length_rev l). generalize (rev l). clear l.
  intros l. induction l as [|c l IH]; [done|]. cbn. destruct (newline c); cbn; lia.
Qed.

Lemma read_segment_model `{!Sha256Laws} sp raw s :
  read_segment sp raw = Ok s → Z.of_nat (length raw) < MAX_EDI_BYTES → ∃ m, segment_model s = Ok (s, m).
Proof.
  unfold read_segment. intros ([|tag values] & Hs & Hr)%bind_ok Hlen; [done|].
  rewrite !raise_if_then, !negb_false_iff in Hr. destruct Hr as (Ht & _ & Hm & Hl & [= <-]).
  unfold segment_model. cbn [sm_tag sm_elements sm_size]. rewrite Hm, orb_true_r. cbn [negb raise_if mbind result_bind].
  pose proof (split_elements_size _ _ _ _ _ _ tag Hs ltac:(by left)) as Htag. cbn in Htag.
  assert (2 ≤ len tag).
  { destruct tag as [|c tag]; [done|]. cbn in Ht. rewrite !andb_true_iff in Ht. destruct Ht as [_ Ht].
    unfold between, len in *. cbn. lia. }
  unfold issue_segment. match goal with |- context [validate_segment ?m] =>
    assert (validate_segment m = Ok ()) as ->; [|by eexists] end.
  unfold validate_segment. cbn [sg_tag sg_element_count sg_element_lengths sg_byte_length sg_digest].
  rewrite Ht, value_digest_ok, Z.eqb_refl. unfold max_length, between in *. rewrite length_map.
  rewrite (bool_decide_true (value_digest _ = _)) by done.
  replace (forallb _ (map len values)) with true.
  - cbn [negb]. unfold raise_if.
    rewrite Hm, !(proj2 (Z.leb_le _ _)) by lia. done.
  - symmetry. rewrite forallb_forall in *. intros n (v & <- & Hv)%in_map_iff. specialize (Hl v Hv). cbn beta in *.
    rewrite Hl, andb_true_r. apply Z.leb_le. unfold len. lia.
Qed.

Lemma split_segments_models `{!Sha256Laws} sp body segments :
  split_segments sp body = Ok segments → len body ≤ MAX_EDI_BYTES →
  Forall (λ s, ∃ m, segment_model s = Ok (s, m)) segments.
Proof.
  unfold split_segments. intros [_ Hs]%raise_if_then Hlen.
  destruct (scan_segments _ _ _ _ _) as [raws [current escaped]] eqn:E.
  apply raise_if_then in Hs as [_ Hs]. apply scan_sizes in E.
  pose proof (strip_newlines_length (String.list_ascii_of_string body)) as Hl.
  assert (length (String.list_ascii_of_string body) = String.length body) as Hb.
  { rewrite <-string_of_list_length. by rewrite String.string_of_list_ascii_of_string. }
  apply mapM_result_Forall2 in Hs. induction Hs as [|raw s raws segments Hr Hs IH]; [constructor|].
  apply Forall_cons in E as [Hraw E]. constructor; [|by apply IH].
  eapply read_segment_model; [exact Hr|]. cbn in Hraw. unfold len in Hlen. lia.
Qed.

Lemma separators_body data sp body : separators data = Ok (sp, body) → len body ≤ len data.
Proof.
  assert (∀ c s, len s ≤ len (String c s)) as Hs by (intros; unfold len; cbn; lia).
  unfold separators. repeat match goal with |- context [match ?x with _ => _ end] => destruct x end;
    rewrite ?raise_if_then; try done; try (by intros [= <- <-]).
  intros [_ [= <- <-]]. do 9 (etrans; [|apply Hs]). done.
Qed.

(** The models of all segments, given those between the envelope. *)
Lemma models_inner unb inner unz models :
  Forall (λ s, ∃ m, segment_model s = Ok (s, m)) (unb :: inner ++ [unz]) →
  (∃ all, mapM_result segment_model (unb :: inner ++ [unz]) = Ok all ∧ removelast (tail all) = models) ↔
  Forall2 (λ s x, segment_model s = Ok x) inner models.
Proof.
  intros Hall. split.
  - intros (all & Hm & <-). apply mapM_result_Forall2 in Hm.
    inversion Hm as [|? x ? all' _ Hin]; subst. cbn [tail].
    apply Forall2_app_inv_l in Hin as (l1 & l2 & Hin & Hl & ->).
    inversion Hl as [|? y ? l3 _ H3]; subst. inversion H3; subst. by rewrite removelast_last.
  - intros Hin. apply Forall_cons in Hall as [(m1 & H1) [_ H2]%Forall_app].
    apply Forall_cons in H2 as [(m2 & H2) _].
    exists ((unb, m1) :: models ++ [(unz, m2)]). split; [|cbn [tail]; by rewrite removelast_last].
    apply mapM_result_Forall2. constructor; [done|]. apply Forall2_app; [done|]. by repeat constructor.
Qed.

(** Past the lexer the parser accepts exactly the grammar. *)
Lemma parse_edifact_ok `{!Sha256Laws} data e :
  parse_edifact data = Ok e ↔
  forall_chars edi_char data = true ∧ len data ≤ MAX_EDI_BYTES ∧
  ∃ sp body segments, separators data = Ok (sp, body) ∧ split_segments sp body = Ok segments ∧
    Z.of_nat (length segments) ≤ MAX_EDI_SEGMENTS ∧ interchange sp segments (wire_digest data) e.
Proof.
  unfold parse_edifact, as_ascii_bytes. split.
  - intros (data' & [Hc [= <-]]%raise_if_then & [Hl ([sp body] & Hsp & Hp)%bind_ok]%raise_if_then)%bind_ok.
    apply bind_ok in Hp as (segments & Hs & [Hn Hp]%raise_if_then).
    apply negb_false_iff in Hc. split; [done|]. split; [lia|]. exists sp, body, segments.
    split_and!; try done; [lia|].
    pose proof (split_segments_models sp body segments Hs) as Hall.
    specialize (Hall ltac:(apply separators_body in Hsp; lia)).
    destruct segments as [|unb inner]; [done|]. destruct (last (unb :: inner)) as [unz|] eqn:El; [|done].
    rewrite !raise_if_then, orb_false_iff, !negb_false_iff, !bool_decide_eq_true in Hp.
    destruct Hp as ((Hb & Hz) & Hin & Hp).
    destruct inner as [|s inner'] using rev_ind; [injection El as ->; congruence|].
    rewrite app_comm_cons, last_snoc in El. injection El as ->. clear IHinner'.
    rewrite removelast_last in Hin.
    destruct (sm_elements unb) as [|syntax [|sender [|recipient [|prepared [|control more]]]]] eqn:Eb; try done.
    destruct (sm_elements unz) as [|count [|control' more']] eqn:Ez; try done.
    rewrite !raise_if_then, bool_decide_eq_false, negb_false_iff, bool_decide_eq_true in Hp.
    destruct Hp as (Hf & -> & (n & Hcount & (all & Hm & (messages & Hg & Hp)%bind_ok)%bind_ok)%bind_ok).
    rewrite !raise_if_then, bool_decide_eq_false, negb_false_iff in Hp. destruct Hp as (Hne & Hnm & Hi%escaping_ok).
    apply Z.eqb_eq in Hnm. subst n.
    apply parse_messages_ok in Hg as (groups & Hgr & HF & Hnd & _).
    eapply interchange_intro; try done.
    + apply Forall_forall. intros t Ht. rewrite existsb_elem_false in Hin. specialize (Hin t Ht).
      apply mem_false in Hin. split; intros E; apply Hin; rewrite E; set_solver.
    + apply (models_inner unb inner' unz); [done|]. by exists all.
  - intros (Hc & Hl & sp & body & segments & Hsp & Hs & Hn & Hi).
    pose proof (split_segments_models sp body segments Hs) as Hall.
    specialize (Hall ltac:(apply separators_body in Hsp; lia)).
    destruct Hi as [unb inner unz syntax sender recipient prepared control more count more' groups messages
      -> Hb Hz Hin Eb Hf Ez Hcount Hm HF Hne Hnd Hi].
    apply (models_inner unb inner unz) in Hm as (all & Hm & Hgr); [|done].
    rewrite Hc. cbn [negb raise_if mbind result_bind]. replace (MAX_EDI_BYTES <? len data) with false by lia.
    cbn [negb raise_if mbind result_bind]. rewrite Hsp. cbn [mbind result_bind]. rewrite Hs. cbn [mbind result_bind].
    replace (MAX_EDI_SEGMENTS <? _) with false by lia. cbn [raise_if mbind result_bind].
    rewrite (app_comm_cons inner [unz] unb), last_snoc, (removelast_last inner unz).
    rewrite (bool_decide_true (sm_tag unb = _)), (bool_decide_true (sm_tag unz = _)) by done.
    replace (existsb _ inner) with false; [|symmetry; apply existsb_elem_false; intros t Ht;
      rewrite Forall_forall in Hin; apply mem_false; destruct (Hin t Ht); set_solver].
    cbn [negb orb raise_if mbind result_bind]. rewrite Eb, Ez, (bool_decide_false (first_component _ _ = _)) by done.
    rewrite (bool_decide_true (control = control)), Hcount by done. cbn [negb raise_if mbind result_bind].
    cbn [app] in Hm |- *. rewrite Hm. cbn [mbind result_bind].
    assert (parse_messages (sp_component sp) (removelast (tail all)) [] [] = Ok messages) as Hg.
    { apply parse_messages_ok. exists groups. split_and!; try done. by intros m _ ?%elem_of_nil. }
    rewrite Hg. cbn [mbind result_bind]. rewrite (bool_decide_false (messages = [])), Z.eqb_refl by done.
    cbn [negb raise_if mbind result_bind]. by rewrite Hi.
Qed.

(** ** Properties *)

(** C25. A document is accepted, with envelope [e], exactly when its bytes are allowed and within
    the size limit and its segments, at most 4096 after the separators of its own UNA, form one
    interchange whose envelope is [e]: a UNB and UNZ with one control reference, well-formed UNH
    to UNT groups with unique references, and counts that agree with what is there. *)
Theorem edifact_accepts `{!Sha256Laws} data e :
  parse_edifact data = Ok e ↔
  forall_chars edi_char data = true ∧ len data ≤ MAX_EDI_BYTES ∧
  ∃ sp body segments, separators data = Ok (sp, body) ∧ split_segments sp body = Ok segments ∧
    Z.of_nat (length segments) ≤ MAX_EDI_SEGMENTS ∧ interchange sp segments (wire_digest data) e.
Proof. apply parse_edifact_ok. Qed.

(** C26. Writing an interchange and parsing it loses nothing: for any segments the parser's limits
    allow, whatever the separators announced, the characters escaped and the line breaks between
    segments, the written document is accepted with envelope [e] iff those very segments form
    the interchange of [e]. *)
Theorem edifact_roundtrip `{!Sha256Laws} sp gap segments data e :
  separators_ok sp = true → Forall (λ c, newline c = true) gap → segments ≠ [] →
  Forall (λ s, writable s = true) segments →
  separators data = Ok (sp, render sp gap segments) → forall_chars edi_char data = true →
  len data ≤ MAX_EDI_BYTES → Z.of_nat (length segments) ≤ MAX_EDI_SEGMENTS →
  parse_edifact data = Ok e ↔ interchange sp (map (segment_of sp) segments) (wire_digest data) e.
Proof.
  intros Hsp Hg Hne Hw Hs Hc Hl Hn. pose proof (split_render sp gap segments Hsp Hg Hne Hw) as Hr.
  rewrite parse_edifact_ok. split.
  - intros (_ & _ & sp' & body & segments' & Hs' & Hr' & _ & Hi).
    rewrite Hs in Hs'. injection Hs' as <- <-. rewrite Hr in Hr'. by injection Hr' as <-.
  - intros Hi. split_and!; [done..|]. exists sp, (render sp gap segments), (map (segment_of sp) segments).
    by rewrite length_map.
Qed.

End grammar.

(** ** Witnesses *)

#[local] Existing Instances distinct_sha256 distinct_sha256_laws example_float_repr.

Definition example_segments : list (string * list string) := [
  ("UNB", ["UNOA:1"; "S"; "R"; "240101:1200"; "REF"]); ("UNH", ["1"; "IFTMIN:D"]);
  ("BGM", ["340+B?"; "it's"]); ("UNT", ["3"; "1"]); ("UNZ", ["1"; "REF"])].
Definition example_interchange : string := render default_separators [ascii_of_nat 10] example_segments.
Definition example_envelope : EDIEnvelope :=
  match parse_edifact example_interchange with
  | Ok e => e
  | Err _ => {| en_syntax_identifier := EmptyString; en_interchange_control_reference := EmptyString;
      en_source_digest := EmptyString; en_message_count := 0; en_segment_count := 0; en_messages := [];
      en_digest := EmptyString |}
  end.

Example example_text : example_interchange
  = String.string_of_list_ascii (concat (map (λ s, String.list_ascii_of_string s ++ [ascii_of_nat 10])
      ["UNB+UNOA:1+S+R+240101:1200+REF'"; "UNH+1+IFTMIN:D'"; "BGM+340?+B??+it?'s'"; "UNT+3+1'"; "UNZ+1+REF'"])).
Proof. reflexivity. Qed.

Lemma edifact_roundtrip_witness :
  parse_edifact example_interchange = Ok example_envelope ∧
  interchange default_separators (map (segment_of default_separators) example_segments)
    (wire_digest example_interchange) example_envelope.
Proof.
  assert (parse_edifact example_interchange = Ok example_envelope) as Hp by (vm_compute; reflexivity).
  split; [exact Hp|].
  apply (edifact_roundtrip default_separators [ascii_of_nat 10] example_segments example_interchange);
    [reflexivity|by repeat constructor|done|by repeat constructor|reflexivity|reflexivity| | |exact Hp].
  - vm_compute. discriminate.
  - vm_compute. discriminate.
Defined.

Lemma edifact_accepts_witness :
  ∃ sp body segments, separators example_interchange = Ok (sp, body) ∧
    split_segments sp body = Ok segments ∧ interchange sp segments (wire_digest example_interchange) example_envelope.
Proof.
  assert (parse_edifact example_interchange = Ok example_envelope) as Hp by (vm_compute; reflexivity).
  destruct (proj1 (edifact_accepts example_interchange example_envelope) Hp)
    as (_ & _ & sp & body & segments & H1 & H2 & _ & H3).
  exists sp, body, segments. exact (conj H1 (conj H2 H3)).
Defined.

(** Refusals: a wrong count, a reference used twice, a dangling release, an unknown control segment. *)
Example count_mismatch :
  parse_edifact "UNB+UNOA:1+S+R+D+REF'UNH+1+IFTMIN'UNT+3+1'UNZ+1+REF'"
  = Err (EDIParseError "edi_segment_count_mismatch").
Proof. vm_compute. reflexivity. Qed.
Example duplicate_reference :
  parse_edifact "UNB+UNOA:1+S+R+D+REF'UNH+1+IFTMIN'UNT+2+1'UNH+1+IFTMIN'UNT+2+1'UNZ+2+REF'"
  = Err (EDIParseError "edi_duplicate_reference").
Proof. vm_compute. reflexivity. Qed.
Example dangling_release : parse_edifact "UNB+UNOA:1+S+R+D+REF?'" = Err (EDIParseError "edi_truncated").
Proof. vm_compute. reflexivity. Qed.
Example unknown_control : parse_edifact "UNB+A'UNG+1'UNZ+1'" = Err (EDIParseError "edi_unknown_envelope_segment").
Proof. vm_compute. reflexivity. Qed.

(** A message type the metadata model does not allow escapes the parser's own error: pydantic's
    [ValidationError], which carries the value, is raised instead of [EDIParseError]. *)
Example message_type_escapes :
  ∃ message, parse_edifact "UNB+UNOA:1+S+R+D+REF'UNH+1+iftmin'UNT+2+1'UNZ+1+REF'" = Err (EDIValidationError message).
Proof. eexists. vm_compute. reflexivity. Qed.
