(* ===== verification/Mapping.v ===== *)
(** * DCSA track and trace mapping (mapping/models.py, mapping/registry.py, mapping/dcsa_tnt_v2.py)

    Mapping diagnostics and results, the registry of mappers, the supported DCSA TNT 2.3
    query and the mapper between it and tracking commands, in both directions.  A literal
    code list is a list of strings; text is taken already stripped. *)

From Stdlib Require Import Ascii.
From S2P Require Import Prelude.
From S2P Require Import Contracts.
From S2P Require Import Documents.

(** ** Diagnostics *)

Inductive MappingFidelity := EXACT | NORMALIZED | DEFAULTED | PARTIAL | UNSUPPORTED.

#[export] Instance MappingFidelity_eq_dec : EqDecision MappingFidelity.
Proof. solve_decision. Defined.

Record MappingDiagnostic := {
  md_source_path : string;
  md_target_path : option string;
  md_fidelity : MappingFidelity;
  md_code : string;
  md_message : string;
  md_blocking : bool }.

Record MappingResult (T : Type) := {
  mr_value : T;
  mr_source_schema_version : string;
  mr_target_schema_version : string;
  mr_diagnostics : list MappingDiagnostic }.
Arguments mr_value {_} _.
Arguments mr_source_schema_version {_} _.
Arguments mr_target_schema_version {_} _.
Arguments mr_diagnostics {_} _.
Arguments Build_MappingResult {_} _ _ _ _.

(** What a mapper raises: [MappingError] with its diagnostics, or a validation failure. *)
Inductive MapFailure :=
| MappingError (diagnostics : list MappingDiagnostic)
| MapValueError (message : string).

Definition validated {A} (r : result string A) : result MapFailure A :=
  match r with Ok a => Ok a | Err message => Err (MapValueError message) end.

Definition has_blocking_diagnostics {T} (r : MappingResult T) : bool := existsb md_blocking (mr_diagnostics r).

Definition require_supported {T} (r : MappingResult T) : result MapFailure T :=
  raise_if (has_blocking_diagnostics r) (MappingError (mr_diagnostics r));;
  Ok (mr_value r).

(** ** The registry

    A dict from keys to factories; a factory is called at every [resolve]. *)

Record MappingKey := {
  mk_source_schema_version : string;
  mk_target_schema_version : string;
  mk_capability : string }.

#[export] Instance MappingKey_eq_dec : EqDecision MappingKey.
Proof. solve_decision. Defined.

Inductive RegistryFailure := AlreadyRegistered (key : MappingKey) | MappingNotFoundError (key : MappingKey).

Definition MappingRegistry (Mapper : Type) : Type := list (MappingKey * Mapper).

Section registry.
Context {Mapper : Type}.
Implicit Types r : MappingRegistry Mapper.

Definition find_mapper r (key : MappingKey) : option Mapper :=
  match List.find (λ entry, bool_decide (entry.1 = key)) r with Some entry => Some entry.2 | None => None end.

Definition register (key : MappingKey) (factory : Mapper) r : result RegistryFailure (MappingRegistry Mapper) :=
  match find_mapper r key with
  | Some _ => Err (AlreadyRegistered key)
  | None => Ok (r ++ [(key, factory)])
  end.

Definition resolve r (key : MappingKey) : result RegistryFailure Mapper :=
  match find_mapper r key with Some mapper => Ok mapper | None => Err (MappingNotFoundError key) end.

(** The order of the dataclass. *)
Definition key_tuple (key : MappingKey) : string * (string * string) :=
  (mk_source_schema_version key, (mk_target_schema_version key, mk_capability key)).
Definition supported r : list MappingKey :=
  sorted_by key_tuple (lex String.le (lex String.le String.le)) (map fst r).

End registry.

(** ** The query *)

Definition IR_SCHEMA_VERSION : string := "cargomesh.transaction/v1".
Definition DCSA_TNT_QUERY_VERSION : string := "dcsa.tnt.query/v2.3".

Definition SHIPMENT_EVENT_TYPE_CODES : list string :=
  ["RECE"; "DRFT"; "PENA"; "PENU"; "PENC"; "CONF"; "REJE"; "APPR"; "ISSU"; "SURR"; "SUBM"; "VOID"; "REQS";
   "CMPL"; "HOLD"; "RELS"; "CANC"].
Definition DOCUMENT_TYPE_CODES : list string :=
  ["CBR"; "BKG"; "SHI"; "SRM"; "TRD"; "ARN"; "VGM"; "CAS"; "CUS"; "DGD"; "OOG"].
Definition TRANSPORT_EVENT_TYPE_CODES : list string := ["ARRI"; "DEPA"].
Definition EQUIPMENT_EVENT_TYPE_CODES : list string :=
  ["LOAD"; "DISC"; "GTIN"; "GTOT"; "STUF"; "STRP"; "PICK"; "DROP"; "INSP"; "RSEA"; "RMVD"].

Record DCSATNTQueryV2 := {
  q_event_type : list EventType;
  q_shipment_event_type_code : list string;
  q_document_type_code : list string;
  q_carrier_booking_reference : option string;
  q_booking_reference : option string;
  q_transport_document_id : option string;
  q_transport_document_reference : option string;
  q_transport_event_type_code : list string;
  q_schedule_id : option string;
  q_transport_call_id : option string;
  q_vessel_imo_number : option string;
  q_carrier_voyage_number : option string;
  q_export_voyage_number : option string;
  q_carrier_service_code : option string;
  q_un_location_code : option string;
  q_equipment_event_type_code : list string;
  q_equipment_reference : option string;
  q_event_created_date_time : option Datetime;
  q_event_created_date_time_eq : option Datetime;
  q_event_created_date_time_gt : option Datetime;
  q_event_created_date_time_gte : option Datetime;
  q_event_created_date_time_lt : option Datetime;
  q_event_created_date_time_lte : option Datetime;
  q_limit : option Z;
  q_cursor : option string;
  q_sort : option string }.

Definition QueryValue_ok (s : string) : bool := text_ok 1 256 s.
Definition QueryCode_ok (s : string) : bool := text_ok 1 64 s.

(** [value.split(",")], the parts stripped and the empty ones dropped; other values pass. *)
Definition py_strip (s : list ascii) : string :=
  let drop := fix drop (l : list ascii) := match l with
    | c :: l' => if py_space c then drop l' else l
    | [] => []
    end in
  String.string_of_list_ascii (rev (drop (rev (drop s)))).
Definition accept_comma_separated_values (value : json) : json :=
  match value with
  | JStr s =>
      json_strs (List.filter (λ part, negb (bool_decide (part = EmptyString)))
        (map py_strip (split_at 44 [] (String.list_ascii_of_string s))))
  | _ => value
  end.

(** [a or b]. *)
Definition or_else {A} (a b : option A) : option A := match a with Some x => Some x | None => b end.

Definition to_date_time_filter (q : DCSATNTQueryV2) : result string (option DateTimeFilter) :=
  let f := {| df_eq := or_else (q_event_created_date_time q) (q_event_created_date_time_eq q);
              df_gt := q_event_created_date_time_gt q; df_gte := q_event_created_date_time_gte q;
              df_lt := q_event_created_date_time_lt q; df_lte := q_event_created_date_time_lte q |} in
  if negb (existsb is_some [df_eq f; df_gt f; df_gte f; df_lt f; df_lte f]) then Ok None
  else
    raise_if (is_some (q_event_created_date_time q) && is_some (q_event_created_date_time_eq q))
      "eventCreatedDateTime and eventCreatedDateTime:eq are equivalent";;
    validate_filter f;;
    Ok (Some f).

Definition query_references (q : DCSATNTQueryV2) : list (option string) :=
  [q_carrier_booking_reference q; q_booking_reference q; q_transport_document_id q;
   q_transport_document_reference q; q_equipment_reference q; q_schedule_id q; q_transport_call_id q].

(** The fields, then [require_subject_reference] and [validate_date_time_predicates]. *)
Definition validate_query (q : DCSATNTQueryV2) : result string () :=
  raise_if (negb (forallb (λ c, mem c SHIPMENT_EVENT_TYPE_CODES) (q_shipment_event_type_code q)
                  && forallb (λ c, mem c DOCUMENT_TYPE_CODES) (q_document_type_code q)
                  && forallb (λ c, mem c TRANSPORT_EVENT_TYPE_CODES) (q_transport_event_type_code q)
                  && forallb (λ c, mem c EQUIPMENT_EVENT_TYPE_CODES) (q_equipment_event_type_code q)
                  && forallb (opt_ok QueryValue_ok) (query_references q)
                  && forallb (opt_ok QueryCode_ok)
                       [q_vessel_imo_number q; q_carrier_voyage_number q; q_export_voyage_number q;
                        q_carrier_service_code q; q_un_location_code q]
                  && opt_ok (λ l, between 1 l 1000) (q_limit q)
                  && opt_ok QueryValue_ok (q_cursor q) && opt_ok QueryValue_ok (q_sort q)))
    "field constraint";;
  raise_if (negb (existsb truthy (query_references q))) "DCSA TNT compilation requires at least one reference";;
  to_date_time_filter q;;
  Ok ().

Record MappingContext := {
  mx_tenant_id : string;
  mx_external_reference : option string;
  mx_transaction_id : option string;
  mx_requested_at : Datetime }.

Definition validate_context (x : MappingContext) : result string () :=
  raise_if (negb (QueryValue_ok (mx_tenant_id x) && opt_ok QueryValue_ok (mx_external_reference x)
                  && opt_ok QueryValue_ok (mx_transaction_id x))) "field constraint";;
  raise_if (naive (mx_requested_at x)) "requested_at must include a timezone".

(** ** From a query to a command *)

(** [next((c for c in candidates if c), None)]. *)
Definition default_external_reference (q : DCSATNTQueryV2) : result MapFailure string :=
  match List.find truthy
    [q_carrier_booking_reference q; q_transport_document_reference q; q_equipment_reference q;
     q_booking_reference q; q_transport_call_id q; q_transport_document_id q; q_schedule_id q]
  with
  | Some (Some reference) => Ok reference
  | _ => Err (MapValueError "query does not contain a usable external reference")
  end.

Definition nonempty {A} (l : list A) : bool := match l with [] => false | _ => true end.

(** The mapped fields in the order of [paths]: alias, target and truth of the value; a limit
    of a validated query is at least 1. *)
Definition paths (q : DCSATNTQueryV2) : list (string * string * bool) := [
  ("eventType", "parameters.event_types", nonempty (q_event_type q));
  ("shipmentEventTypeCode", "parameters.shipment_event_type_codes", nonempty (q_shipment_event_type_code q));
  ("documentTypeCode", "parameters.document_type_codes", nonempty (q_document_type_code q));
  ("carrierBookingReference", "subject.carrier_booking_reference", truthy (q_carrier_booking_reference q));
  ("bookingReference", "subject.booking_reference", truthy (q_booking_reference q));
  ("transportDocumentID", "subject.transport_document_id", truthy (q_transport_document_id q));
  ("transportDocumentReference", "subject.transport_document_reference", truthy (q_transport_document_reference q));
  ("transportEventTypeCode", "parameters.transport_event_type_codes", nonempty (q_transport_event_type_code q));
  ("scheduleID", "subject.schedule_id", truthy (q_schedule_id q));
  ("transportCallID", "subject.transport_call_id", truthy (q_transport_call_id q));
  ("vesselIMONumber", "parameters.vessel_imo_number", truthy (q_vessel_imo_number q));
  ("carrierVoyageNumber", "parameters.carrier_voyage_number", truthy (q_carrier_voyage_number q));
  ("exportVoyageNumber", "parameters.export_voyage_number", truthy (q_export_voyage_number q));
  ("carrierServiceCode", "parameters.carrier_service_code", truthy (q_carrier_service_code q));
  ("UNLocationCode", "parameters.un_location_code", truthy (q_un_location_code q));
  ("equipmentEventTypeCode", "parameters.equipment_event_type_codes", nonempty (q_equipment_event_type_code q));
  ("equipmentReference", "subject.equipment_reference", truthy (q_equipment_reference q));
  ("limit", "parameters.limit", match q_limit q with Some l => negb (l =? 0) | None => false end);
  ("cursor", "parameters.cursor", truthy (q_cursor q));
  ("sort", "parameters.sort", truthy (q_sort q))].

Definition diagnostic (source target : string) (fidelity : MappingFidelity) (code message : string)
    : MappingDiagnostic := {|
  md_source_path := source; md_target_path := Some target; md_fidelity := fidelity; md_code := code;
  md_message := message; md_blocking := false |}.

Definition exact_mapping_diagnostics (q : DCSATNTQueryV2) : result string (list MappingDiagnostic) :=
  created ← to_date_time_filter q;
  Ok (map (λ p, diagnostic p.1.1 p.1.2 EXACT "FIELD_MAPPED_EXACTLY"
                  "DCSA query field maps without semantic loss") (List.filter snd (paths q))
      ++ (if is_some created then
            [diagnostic "eventCreatedDateTime[:operator]" "parameters.event_created_date_time" NORMALIZED
               "DATE_TIME_PREDICATE_NORMALIZED"
               "DCSA parameter-name operators were normalized into a typed predicate"]
          else [])).

Definition query_subject (q : DCSATNTQueryV2) : ShipmentSubject := {|
  ss_carrier_booking_reference := q_carrier_booking_reference q;
  ss_booking_reference := q_booking_reference q;
  ss_transport_document_id := q_transport_document_id q;
  ss_transport_document_reference := q_transport_document_reference q;
  ss_equipment_reference := q_equipment_reference q;
  ss_schedule_id := q_schedule_id q;
  ss_transport_call_id := q_transport_call_id q |}.

Definition query_filters (q : DCSATNTQueryV2) (created : option DateTimeFilter) : TrackFilters := {|
  tf_event_types := q_event_type q;
  tf_shipment_event_type_codes := q_shipment_event_type_code q;
  tf_document_type_codes := q_document_type_code q;
  tf_transport_event_type_codes := q_transport_event_type_code q;
  tf_equipment_event_type_codes := q_equipment_event_type_code q;
  tf_vessel_imo_number := q_vessel_imo_number q;
  tf_carrier_voyage_number := q_carrier_voyage_number q;
  tf_export_voyage_number := q_export_voyage_number q;
  tf_carrier_service_code := q_carrier_service_code q;
  tf_un_location_code := q_un_location_code q;
  tf_event_created_date_time := created;
  tf_limit := q_limit q; tf_cursor := q_cursor q; tf_sort := q_sort q |}.

(** [TransactionCommand(...)] with the defaults of the model for what is not passed. *)
Definition query_command (q : DCSATNTQueryV2) (x : MappingContext) (external_reference : string)
    (created : option DateTimeFilter) : TransactionCommand := {|
  tc_transaction_id := mx_transaction_id x; tc_tenant_id := mx_tenant_id x;
  tc_transaction_type := SHIPMENT_TRACK; tc_external_reference := external_reference;
  tc_requested_at := mx_requested_at x; tc_subject := SShipment (query_subject q);
  tc_parameters := PTrack (query_filters q created);
  tc_requested_effects := [LATEST_TRANSPORT_EVENTS_RETURNED]; tc_minimum_independence_level := L1;
  tc_risk_class := READ_ONLY; tc_required_capabilities := [SHIPMENT_TRACK_READ]; tc_extensions := [] |}.

(** [to_ir]; building the models validates them. *)
Definition to_ir (q : DCSATNTQueryV2) (x : MappingContext) : result MapFailure (MappingResult TransactionCommand) :=
  diagnostics ← validated (exact_mapping_diagnostics q);
  selected ←
    match mx_external_reference x with
    | Some reference => Ok (reference, diagnostics)
    | None =>
        reference ← default_external_reference q;
        Ok (reference, diagnostics ++
          [diagnostic "query" "external_reference" DEFAULTED "EXTERNAL_REFERENCE_SELECTED"
             "external_reference was deterministically selected from the query"])
    end;
  let '(external_reference, diagnostics) := selected in
  created ← validated (to_date_time_filter q);
  let command := query_command q x external_reference created in
  validated (validate_command command);;
  Ok (Build_MappingResult command DCSA_TNT_QUERY_VERSION IR_SCHEMA_VERSION
    (diagnostics ++
      [diagnostic "query" "verification_requirements.minimum_independence_level" DEFAULTED
         "VERIFICATION_LEVEL_DEFAULTED" "read-only tracking uses the CargoMesh L1 verification default";
       diagnostic "query" "risk_class" DEFAULTED "RISK_CLASS_DEFAULTED"
         "shipment tracking is classified as READ_ONLY"])).

(** ** From a command to a query *)

Definition blocking_diagnostic (source : string) (fidelity : MappingFidelity) (code message : string)
    : MappingDiagnostic := {|
  md_source_path := source; md_target_path := None; md_fidelity := fidelity; md_code := code;
  md_message := message; md_blocking := true |}.

Definition code_sets (f : TrackFilters) : list (string * list string * list string) := [
  ("parameters.shipment_event_type_codes", tf_shipment_event_type_codes f, SHIPMENT_EVENT_TYPE_CODES);
  ("parameters.document_type_codes", tf_document_type_codes f, DOCUMENT_TYPE_CODES);
  ("parameters.transport_event_type_codes", tf_transport_event_type_codes f, TRANSPORT_EVENT_TYPE_CODES);
  ("parameters.equipment_event_type_codes", tf_equipment_event_type_codes f, EQUIPMENT_EVENT_TYPE_CODES)].

Definition known (allowed values : list string) : list string := List.filter (λ v, mem v allowed) values.

Definition code_diagnostics (f : TrackFilters) : list MappingDiagnostic :=
  map (λ s, blocking_diagnostic s.1.1 UNSUPPORTED "CODE_NOT_IN_DCSA_TNT_2_3"
              "IR contains codes outside the pinned DCSA TNT 2.3 code list")
    (List.filter (λ s, existsb (λ v, negb (mem v s.2)) s.1.2) (code_sets f)).

Definition extension_diagnostics (extensions : list (string * json)) : list MappingDiagnostic :=
  if nonempty extensions then
    [blocking_diagnostic "extensions" PARTIAL "EXTENSIONS_NOT_REPRESENTABLE"
       "CargoMesh namespaced extensions are not representable in TNT 2.3 query"]
  else [].

Definition created_field (f : TrackFilters) (field : DateTimeFilter → option Datetime) : option Datetime :=
  match tf_event_created_date_time f with Some created => field created | None => None end.

Definition track_query (s : ShipmentSubject) (f : TrackFilters) : DCSATNTQueryV2 := {|
  q_event_type := tf_event_types f;
  q_shipment_event_type_code := known SHIPMENT_EVENT_TYPE_CODES (tf_shipment_event_type_codes f);
  q_document_type_code := known DOCUMENT_TYPE_CODES (tf_document_type_codes f);
  q_carrier_booking_reference := ss_carrier_booking_reference s;
  q_booking_reference := ss_booking_reference s;
  q_transport_document_id := ss_transport_document_id s;
  q_transport_document_reference := ss_transport_document_reference s;
  q_transport_event_type_code := known TRANSPORT_EVENT_TYPE_CODES (tf_transport_event_type_codes f);
  q_schedule_id := ss_schedule_id s;
  q_transport_call_id := ss_transport_call_id s;
  q_vessel_imo_number := tf_vessel_imo_number f;
  q_carrier_voyage_number := tf_carrier_voyage_number f;
  q_export_voyage_number := tf_export_voyage_number f;
  q_carrier_service_code := tf_carrier_service_code f;
  q_un_location_code := tf_un_location_code f;
  q_equipment_event_type_code := known EQUIPMENT_EVENT_TYPE_CODES (tf_equipment_event_type_codes f);
  q_equipment_reference := ss_equipment_reference s;
  q_event_created_date_time := created_field f df_eq;
  q_event_created_date_time_eq := None;
  q_event_created_date_time_gt := created_field f df_gt;
  q_event_created_date_time_gte := created_field f df_gte;
  q_event_created_date_time_lt := created_field f df_lt;
  q_event_created_date_time_lte := created_field f df_lte;
  q_limit := tf_limit f; q_cursor := tf_cursor f; q_sort := tf_sort f |}.

Definition from_ir (c : TransactionCommand) : result MapFailure (MappingResult DCSATNTQueryV2) :=
  match tc_subject c, tc_parameters c with
  | SShipment s, PTrack f =>
      let q := track_query s f in
      validated (validate_query q);;
      Ok (Build_MappingResult q IR_SCHEMA_VERSION DCSA_TNT_QUERY_VERSION
        (extension_diagnostics (tc_extensions c) ++ code_diagnostics f))
  | _, _ =>
      Err (MappingError [blocking_diagnostic "transaction_type" UNSUPPORTED "TRANSACTION_TYPE_NOT_SUPPORTED"
        "DCSA TNT mapping only accepts shipment.track transactions"])
  end.

(** [DCSATNTV2Mapper] in the production registry, with what [to_ir] is used for. *)
Definition Mapper : Type := DCSATNTQueryV2 → MappingContext → result MapFailure (MappingResult TransactionCommand).
Definition tracking_key : MappingKey := {|
  mk_source_schema_version := DCSA_TNT_QUERY_VERSION; mk_target_schema_version := IR_SCHEMA_VERSION;
  mk_capability := "shipment.track.read" |}.
Definition default_mapping_registry : result RegistryFailure (MappingRegistry Mapper) :=
  register tracking_key to_ir [].

(** ** Specification *)

(** A query with its two spellings of equality merged. *)
Definition normalized (q : DCSATNTQueryV2) : DCSATNTQueryV2 := {|
  q_event_type := q_event_type q; q_shipment_event_type_code := q_shipment_event_type_code q;
  q_document_type_code := q_document_type_code q; q_carrier_booking_reference := q_carrier_booking_reference q;
  q_booking_reference := q_booking_reference q; q_transport_document_id := q_transport_document_id q;
  q_transport_document_reference := q_transport_document_reference q;
  q_transport_event_type_code := q_transport_event_type_code q; q_schedule_id := q_schedule_id q;
  q_transport_call_id := q_transport_call_id q; q_vessel_imo_number := q_vessel_imo_number q;
  q_carrier_voyage_number := q_carrier_voyage_number q; q_export_voyage_number := q_export_voyage_number q;
  q_carrier_service_code := q_carrier_service_code q; q_un_location_code := q_un_location_code q;
  q_equipment_event_type_code := q_equipment_event_type_code q; q_equipment_reference := q_equipment_reference q;
  q_event_created_date_time := or_else (q_event_created_date_time q) (q_event_created_date_time_eq q);
  q_event_created_date_time_eq := None;
  q_event_created_date_time_gt := q_event_created_date_time_gt q;
  q_event_created_date_time_gte := q_event_created_date_time_gte q;
  q_event_created_date_time_lt := q_event_created_date_time_lt q;
  q_event_created_date_time_lte := q_event_created_date_time_lte q;
  q_limit := q_limit q; q_cursor := q_cursor q; q_sort := q_sort q |}.

(** No filter of the query lists a value twice. *)
Definition distinct_filters (q : DCSATNTQueryV2) : Prop :=
  NoDup (q_event_type q) ∧ NoDup (q_shipment_event_type_code q) ∧ NoDup (q_document_type_code q) ∧
  NoDup (q_transport_event_type_code q) ∧ NoDup (q_equipment_event_type_code q).

(** The codes of a command that TNT 2.3 has. *)
Definition representable (c : TransactionCommand) : Prop :=
  tc_extensions c = [] ∧
  match tc_parameters c with
  | PTrack f => Forall (λ s, ∀ v, v ∈ s.1.2 → v ∈ s.2) (code_sets f)
  | PBooking _ => False
  end.

(** What a mapping back is given, and the command it returns. *)
Definition context_of (c : TransactionCommand) : MappingContext := {|
  mx_tenant_id := tc_tenant_id c; mx_external_reference := Some (tc_external_reference c);
  mx_transaction_id := tc_transaction_id c; mx_requested_at := tc_requested_at c |}.
Definition at_level (level : VerificationLevel) (c : TransactionCommand) : TransactionCommand := {|
  tc_transaction_id := tc_transaction_id c; tc_tenant_id := tc_tenant_id c;
  tc_transaction_type := tc_transaction_type c; tc_external_reference := tc_external_reference c;
  tc_requested_at := tc_requested_at c; tc_subject := tc_subject c; tc_parameters := tc_parameters c;
  tc_requested_effects := tc_requested_effects c; tc_minimum_independence_level := level;
  tc_risk_class := tc_risk_class c; tc_required_capabilities := tc_required_capabilities c;
  tc_extensions := tc_extensions c |}.

(** ** Lemmas *)

Lemma validated_ok {A} (r : result string A) a : validated r = Ok a ↔ r = Ok a.
Proof. unfold validated. destruct r; naive_solver. Qed.

Lemma known_all allowed values : forallb (λ v, mem v allowed) values = true → known allowed values = values.
Proof. intros H. apply list_filter_all. by apply forallb_elem. Qed.

Lemma known_allowed allowed values : forallb (λ v, mem v allowed) (known allowed values) = true.
Proof. unfold known. induction values as [|v values IH]; [done|]. cbn. destruct (mem v allowed) eqn:E; cbn; by rewrite ?E. Qed.

(** The filter of a query is made of its operators. *)
Lemma filter_created q created :
  to_date_time_filter q = Ok created →
  (created = None ∧ q_event_created_date_time q = None ∧ q_event_created_date_time_eq q = None ∧
   q_event_created_date_time_gt q = None ∧ q_event_created_date_time_gte q = None ∧
   q_event_created_date_time_lt q = None ∧ q_event_created_date_time_lte q = None) ∨
  (∃ f, created = Some f ∧ validate_filter f = Ok () ∧
   df_eq f = or_else (q_event_created_date_time q) (q_event_created_date_time_eq q) ∧
   df_gt f = q_event_created_date_time_gt q ∧ df_gte f = q_event_created_date_time_gte q ∧
   df_lt f = q_event_created_date_time_lt q ∧ df_lte f = q_event_created_date_time_lte q).
Proof.
  unfold to_date_time_filter. cbn [df_eq df_gt df_gte df_lt df_lte].
  destruct (negb _) eqn:En.
  - intros [= <-]. left. apply negb_true_iff in En. cbn in En. rewrite !orb_false_iff in En.
    destruct En as (H1 & H2 & H3 & H4 & H5 & _).
    destruct (q_event_created_date_time q), (q_event_created_date_time_eq q), (q_event_created_date_time_gt q),
      (q_event_created_date_time_gte q), (q_event_created_date_time_lt q), (q_event_created_date_time_lte q); done.
  - rewrite raise_if_then. intros (_ & ([] & Hv & [= <-])%bind_ok). right. by eexists.
Qed.

(** A filter read off a query with a single equality. *)
Lemma created_filter q f :
  validate_filter f = Ok () → q_event_created_date_time_eq q = None →
  q_event_created_date_time q = df_eq f → q_event_created_date_time_gt q = df_gt f →
  q_event_created_date_time_gte q = df_gte f → q_event_created_date_time_lt q = df_lt f →
  q_event_created_date_time_lte q = df_lte f → to_date_time_filter q = Ok (Some f).
Proof.
  intros Hv H1 H2 H3 H4 H5 H6. unfold to_date_time_filter. rewrite H1, H2, H3, H4, H5, H6.
  assert (or_else (df_eq f) None = df_eq f) as -> by (by destruct (df_eq f)).
  assert (existsb is_some [df_eq f; df_gt f; df_gte f; df_lt f; df_lte f] = true) as Hs.
  { unfold validate_filter in Hv. rewrite raise_if_then in Hv. destruct Hv as [Hs _]. by apply negb_false_iff in Hs. }
  cbn [df_eq df_gt df_gte df_lt df_lte]. rewrite Hs, andb_false_r. destruct f. cbn in *. by rewrite Hv.
Qed.

Lemma no_filter q :
  q_event_created_date_time q = None → q_event_created_date_time_eq q = None →
  q_event_created_date_time_gt q = None → q_event_created_date_time_gte q = None →
  q_event_created_date_time_lt q = None → q_event_created_date_time_lte q = None →
  to_date_time_filter q = Ok None.
Proof. intros H1 H2 H3 H4 H5 H6. unfold to_date_time_filter. by rewrite H1, H2, H3, H4, H5, H6. Qed.

Lemma track_query_filter s f :
  match tf_event_created_date_time f with Some d => validate_filter d | None => Ok () end = Ok () →
  to_date_time_filter (track_query s f) = Ok (tf_event_created_date_time f).
Proof.
  intros Hv. destruct (tf_event_created_date_time f) as [d|] eqn:E.
  - by apply created_filter; [exact Hv|..]; cbn; unfold created_field; rewrite ?E.
  - by apply no_filter; cbn; unfold created_field; rewrite ?E.
Qed.

(** The query of a valid command is valid. *)
Lemma track_query_valid s f :
  validate_shipment s = Ok () → validate_track f = Ok () → validate_query (track_query s f) = Ok ().
Proof.
  unfold validate_shipment, validate_track, validate_query. rewrite !raise_if_then, raise_if_ok.
  intros [Hs Hb] [Hf ([] & Hc & _)%bind_ok]. rewrite (track_query_filter s f Hc). cbn [mbind result_bind].
  rewrite negb_false_iff in Hs, Hf. rewrite !andb_true_iff in Hf.
  destruct Hf as [[[[[[[_ _] _] _] Hq] Hl] Hcur] Hsort].
  unfold query_references. cbn [track_query q_shipment_event_type_code q_document_type_code
    q_transport_event_type_code q_equipment_event_type_code q_carrier_booking_reference q_booking_reference
    q_transport_document_id q_transport_document_reference q_equipment_reference q_schedule_id
    q_transport_call_id q_vessel_imo_number q_carrier_voyage_number q_export_voyage_number
    q_carrier_service_code q_un_location_code q_limit q_cursor q_sort].
  rewrite !known_allowed. change QueryCode_ok with ShortCode_ok. unfold shipment_identifiers in Hs, Hb.
  assert (∀ o, opt_ok QueryValue_ok o = opt_ok Identifier_ok o) as Hid.
  { intros [v|]; [|done]. unfold opt_ok, QueryValue_ok, text_ok, Identifier_ok, between. by rewrite andb_assoc. }
  rewrite !Hid, Hq, Hl, Hcur, Hsort.
  replace (forallb (opt_ok QueryValue_ok) _) with true; [|symmetry; rewrite <-Hs; cbn; by rewrite !Hid].
  cbn [negb andb raise_if mbind result_bind]. by rewrite Hb.
Qed.

(** [to_ir] as one command. *)
Definition reference_for (q : DCSATNTQueryV2) (x : MappingContext) : result MapFailure string :=
  match mx_external_reference x with Some reference => Ok reference | None => default_external_reference q end.

Lemma unblocking_list (f : string * string * bool → MappingDiagnostic) l more :
  (∀ p, md_blocking (f p) = false) → existsb md_blocking more = false → existsb md_blocking (map f l ++ more) = false.
Proof. intros Hf Hm. rewrite existsb_app, Hm, orb_false_r. induction l as [|p l IH]; [done|]. cbn. by rewrite Hf. Qed.

Lemma exact_not_blocking q diagnostics :
  exact_mapping_diagnostics q = Ok diagnostics → existsb md_blocking diagnostics = false.
Proof.
  unfold exact_mapping_diagnostics. destruct (to_date_time_filter q) as [created|]; [|done]. cbn [mbind result_bind].
  generalize (List.filter snd (paths q)). intros l Hd. apply Ok_inj in Hd. subst diagnostics.
  apply unblocking_list; [done|]. by destruct (is_some created).
Qed.

Lemma to_ir_ok q x r :
  to_ir q x = Ok r ↔
  ∃ created reference, to_date_time_filter q = Ok created ∧ reference_for q x = Ok reference ∧
    validate_command (query_command q x reference created) = Ok () ∧
    mr_value r = query_command q x reference created ∧ to_ir q x = Ok r ∧ has_blocking_diagnostics r = false.
Proof.
  split; [|by intros (?&?&?&?&?&?&?&?)]. intros Hr. pose proof Hr as Hr'. unfold to_ir in Hr'.
  apply bind_ok in Hr' as (ds & Hds%validated_ok & Hr').
  apply bind_ok in Hr' as ([reference ds'] & Hsel & Hr').
  apply bind_ok in Hr' as (created & Hc%validated_ok & Hr').
  apply bind_ok in Hr' as ([] & Hv%validated_ok & Hr'%Ok_inj).
  apply exact_not_blocking in Hds.
  assert (reference_for q x = Ok reference ∧ existsb md_blocking ds' = false) as [Href Hb].
  { unfold reference_for. destruct (mx_external_reference x).
    - by apply Ok_inj in Hsel as [= <- <-].
    - apply bind_ok in Hsel as (? & Hd & [= <- <-]%Ok_inj). by rewrite existsb_app, Hds, Hd. }
  exists created, reference. subst r. split_and!; try done.
  unfold has_blocking_diagnostics. cbn [mr_diagnostics]. by rewrite existsb_app, Hb.
Qed.

Lemma default_reference_ok q :
  validate_query q = Ok () → ∃ reference, default_external_reference q = Ok reference ∧ QueryValue_ok reference = true.
Proof.
  unfold validate_query, default_external_reference. rewrite !raise_if_then, !negb_false_iff.
  intros (Hf & Hb & _). rewrite !andb_true_iff in Hf. destruct Hf as [[[[[_ Hq] _] _] _] _].
  destruct (List.find truthy _) as [o|] eqn:E.
  - apply find_some in E as [Hin Ht]. destruct o as [reference|]; [|done]. exists reference. split; [done|].
    rewrite forallb_forall in Hq. apply (Hq (Some reference)). cbn in *. intuition congruence.
  - exfalso. apply existsb_exists in Hb as (o & Hin & Ht).
    apply (find_none _ _) with (x := o) in E; [congruence|]. cbn in *. intuition congruence.
Qed.

Lemma distinct_spec {A} `{EqDecision A} (l : list A) : has_duplicates l = false ↔ NoDup l.
Proof. apply has_duplicates_false. Qed.

Lemma codes_short allowed l :
  forallb ShortCode_ok allowed = true → forallb (λ c, mem c allowed) l = true → forallb ShortCode_ok l = true.
Proof.
  rewrite !forallb_elem. intros Ha Hl c Hc. apply Ha. by apply mem_true, Hl.
Qed.

(** The command of a valid query is valid exactly when no filter repeats a value. *)
Lemma query_command_valid q x reference created :
  validate_query q = Ok () → validate_context x = Ok () → to_date_time_filter q = Ok created →
  QueryValue_ok reference = true →
  validate_command (query_command q x reference created) = Ok () ↔ distinct_filters q.
Proof.
  assert (∀ v, QueryValue_ok v = Identifier_ok v) as Hid.
  { intros v. unfold QueryValue_ok, text_ok, Identifier_ok, between. by rewrite andb_assoc. }
  assert (∀ o, opt_ok QueryValue_ok o = opt_ok Identifier_ok o) as Hopt by (intros [v|]; [apply Hid|done]).
  unfold validate_query, validate_context. rewrite !raise_if_then, raise_if_ok, !negb_false_iff.
  intros (Hf & Hb & _) [Hx Hn] Hc Hr. rewrite !andb_true_iff in Hf. rewrite !andb_true_iff in Hx.
  destruct Hf as [[[[[[[[Hs Hd] Ht] He] Hq] Hcodes] Hl] Hcur] Hsort]. destruct Hx as [[Hxt Hxe] Hxi].
  rewrite Hopt in Hxi, Hcur, Hsort. rewrite Hid in Hxt, Hr.
  unfold validate_command. cbn [query_command tc_transaction_id tc_tenant_id tc_external_reference tc_subject
    tc_parameters tc_requested_effects tc_required_capabilities tc_extensions tc_requested_at
    tc_transaction_type tc_risk_class]. rewrite Hxi, Hxt, Hr, Hn.
  assert (validate_shipment (query_subject q) = Ok ()) as Hship.
  { unfold validate_shipment. change (shipment_identifiers (query_subject q)) with (query_references q).
    rewrite Hb. replace (forallb (opt_ok Identifier_ok) (query_references q)) with true; [done|].
    symmetry. rewrite forallb_elem in *. intros o Ho. rewrite <-Hopt. by apply Hq. }
  cbn [validate_subject validate_parameters]. rewrite Hship.
  cbn [negb andb raise_if mbind result_bind].
  assert (validate_track (query_filters q created) = Ok () ↔ distinct_filters q) as <-.
  - unfold validate_track. cbn [query_filters tf_shipment_event_type_codes tf_document_type_codes
      tf_transport_event_type_codes tf_equipment_event_type_codes tf_vessel_imo_number tf_carrier_voyage_number
      tf_export_voyage_number tf_carrier_service_code tf_un_location_code tf_limit tf_cursor tf_sort
      tf_event_created_date_time tf_event_types].
    rewrite !(codes_short SHIPMENT_EVENT_TYPE_CODES), (codes_short DOCUMENT_TYPE_CODES),
      (codes_short TRANSPORT_EVENT_TYPE_CODES), (codes_short EQUIPMENT_EVENT_TYPE_CODES) by done.
    change (forallb (opt_ok ShortCode_ok)) with (forallb (opt_ok QueryCode_ok)). rewrite Hcodes, Hl, Hcur, Hsort.
    assert (match created with Some f => validate_filter f | None => Ok () end = Ok ()) as ->.
    { apply filter_created in Hc as [(-> & _)|(f & -> & Hv & _)]; done. }
    cbn [negb andb raise_if mbind result_bind]. rewrite !raise_if_then, raise_if_ok, !distinct_spec.
    unfold distinct_filters. tauto.
  - destruct (validate_track _) as [[]|]; cbn; done.
Qed.

Lemma query_filter_ok q : validate_query q = Ok () → ∃ created, to_date_time_filter q = Ok created.
Proof.
  unfold validate_query. rewrite !raise_if_then. intros (_ & _ & (created & Hc & _)%bind_ok). by exists created.
Qed.

Lemma to_ir_total q x :
  validate_query q = Ok () → validate_context x = Ok () →
  ∃ created reference, to_date_time_filter q = Ok created ∧ QueryValue_ok reference = true ∧
    reference_for q x = Ok reference ∧
    (is_ok (to_ir q x) = true ↔ validate_command (query_command q x reference created) = Ok ()).
Proof.
  intros Hq Hx. destruct (query_filter_ok q Hq) as [created Hc].
  assert (∃ reference, reference_for q x = Ok reference ∧ QueryValue_ok reference = true) as (reference & Hr & Hv).
  { unfold reference_for. destruct (mx_external_reference x) as [reference|] eqn:E; [|by apply default_reference_ok].
    exists reference. split; [done|]. unfold validate_context in Hx. rewrite raise_if_then in Hx. destruct Hx as [Hx _].
    rewrite negb_false_iff, E in Hx. by boolify. }
  exists created, reference. split_and!; [done..|]. split.
  - destruct (to_ir q x) as [r|] eqn:E; [|done]. intros _.
    apply to_ir_ok in E as (created' & reference' & Hc' & Hr' & Hv' & _).
    rewrite Hc in Hc'. rewrite Hr in Hr'. apply Ok_inj in Hc', Hr'. by subst.
  - intros Hok. unfold to_ir, exact_mapping_diagnostics. rewrite Hc. cbn [mbind result_bind validated].
    unfold reference_for in Hr. destruct (mx_external_reference x) as [reference'|].
    + apply Ok_inj in Hr. subst. cbn [mbind result_bind]. by rewrite Hok.
    + rewrite Hr. cbn [mbind result_bind]. by rewrite Hok.
Qed.

(** The codes of a valid query are all known. *)
Lemma query_codes q :
  validate_query q = Ok () →
  Forall (λ s, ∀ v, v ∈ s.1.2 → v ∈ s.2) (code_sets (query_filters q None)).
Proof.
  unfold validate_query. rewrite raise_if_then, negb_false_iff, !andb_true_iff.
  intros [[[[[[[[[Hs Hd] Ht] He] _] _] _] _] _] _].
  unfold code_sets. rewrite !Forall_cons. split_and!; [..|by apply Forall_nil_2]; intros v Hv; apply mem_true.
  - by apply (proj1 (forallb_elem _ _) Hs).
  - by apply (proj1 (forallb_elem _ _) Hd).
  - by apply (proj1 (forallb_elem _ _) Ht).
  - by apply (proj1 (forallb_elem _ _) He).
Qed.

Lemma known_in allowed values : (∀ v, v ∈ values → v ∈ allowed) → known allowed values = values.
Proof. intros H. apply known_all, forallb_elem. intros v Hv. by apply mem_true, H. Qed.

Lemma code_diagnostics_nil f :
  code_diagnostics f = [] ↔ Forall (λ s, ∀ v, v ∈ s.1.2 → v ∈ s.2) (code_sets f).
Proof.
  unfold code_diagnostics. rewrite Forall_forall. split.
  - intros Hn s Hs v Hv. apply map_eq_nil in Hn. rewrite list_filter_nil in Hn.
    apply mem_true, not_false_iff_true. intros Hm. apply Hn. exists s. split; [done|].
    apply existsb_exists. exists v. rewrite <-list_elem_of_In, Hm. done.
  - intros Hs. replace (List.filter _ _) with (@nil (string * list string * list string)); [done|symmetry].
    apply list_filter_nil. intros (s & Hin & (v & Hv & Hm)%existsb_exists).
    apply negb_true_iff, mem_false in Hm. apply Hm. apply list_elem_of_In in Hv. by eapply Hs.
Qed.

Lemma track_query_known s f :
  Forall (λ s, ∀ v, v ∈ s.1.2 → v ∈ s.2) (code_sets f) →
  q_shipment_event_type_code (track_query s f) = tf_shipment_event_type_codes f ∧
  q_document_type_code (track_query s f) = tf_document_type_codes f ∧
  q_transport_event_type_code (track_query s f) = tf_transport_event_type_codes f ∧
  q_equipment_event_type_code (track_query s f) = tf_equipment_event_type_codes f.
Proof.
  intros (H1 & (H2 & (H3 & (H4 & _)%Forall_cons)%Forall_cons)%Forall_cons)%Forall_cons.
  split_and!; cbn [track_query q_shipment_event_type_code q_document_type_code q_transport_event_type_code
    q_equipment_event_type_code]; by apply known_in.
Qed.

(** Mapping the command of a query back. *)
Lemma query_back q created :
  validate_query q = Ok () → to_date_time_filter q = Ok created →
  track_query (query_subject q) (query_filters q created) = normalized q.
Proof.
  intros Hq Hc.
  destruct (track_query_known (query_subject q) (query_filters q created) (query_codes q Hq)) as (H1 & H2 & H3 & H4).
  unfold track_query, normalized in *. cbn in H1, H2, H3, H4. unfold created_field. cbn.
  rewrite H1, H2, H3, H4.
  apply filter_created in Hc as [(-> & E1 & E2 & E3 & E4 & E5 & E6)|(f & -> & _ & E1 & E2 & E3 & E4 & E5)].
  - by rewrite E1, E2, E3, E4, E5, E6.
  - by rewrite E1, E2, E3, E4, E5.
Qed.

Lemma from_query_command q x reference created :
  validate_query q = Ok () → to_date_time_filter q = Ok created →
  validate_command (query_command q x reference created) = Ok () →
  ∃ r', from_ir (query_command q x reference created) = Ok r' ∧ mr_value r' = normalized q ∧ mr_diagnostics r' = [].
Proof.
  intros Hq Hc Hv. unfold from_ir. cbn [query_command tc_subject tc_parameters tc_extensions].
  unfold validate_command in Hv. rewrite raise_if_then in Hv.
  destruct Hv as (_ & ([] & Hs & ([] & Ht & _)%bind_ok)%bind_ok).
  rewrite (track_query_valid _ _ Hs Ht). cbn [validated mbind result_bind].
  eexists. split; [done|]. cbn [mr_value mr_diagnostics]. rewrite (query_back q created Hq Hc). split; [done|].
  cbn [extension_diagnostics nonempty app]. apply code_diagnostics_nil. apply (query_codes q Hq).
Qed.

(** A tracking command in one piece. *)
Lemma tracking_command c :
  validate_command c = Ok () → tc_transaction_type c = SHIPMENT_TRACK →
  ∃ s f, tc_subject c = SShipment s ∧ tc_parameters c = PTrack f ∧
    validate_shipment s = Ok () ∧ validate_track f = Ok () ∧ validate_context (context_of c) = Ok () ∧
    (tc_extensions c = [] → at_level L1 c = {|
      tc_transaction_id := tc_transaction_id c; tc_tenant_id := tc_tenant_id c;
      tc_transaction_type := SHIPMENT_TRACK; tc_external_reference := tc_external_reference c;
      tc_requested_at := tc_requested_at c; tc_subject := SShipment s; tc_parameters := PTrack f;
      tc_requested_effects := [LATEST_TRANSPORT_EVENTS_RETURNED]; tc_minimum_independence_level := L1;
      tc_risk_class := READ_ONLY; tc_required_capabilities := [SHIPMENT_TRACK_READ]; tc_extensions := [] |}).
Proof.
  unfold validate_command. intros Hv Ht. rewrite Ht in Hv. rewrite raise_if_then in Hv.
  destruct Hv as (Hf & ([] & Hs & ([] & Hp & Hv)%bind_ok)%bind_ok). rewrite !raise_if_then, raise_if_ok in Hv.
  destruct Hv as (_ & _ & _ & _ & Hn & Hk & Hr & Hcap & Heff).
  destruct (tc_subject c) as [s|] eqn:Es, (tc_parameters c) as [f|] eqn:Ep; try done.
  exists s, f. unfold is_read_only in Hr. boolify. split_and!; try done.
  - unfold validate_context, context_of. cbn [mx_tenant_id mx_external_reference mx_transaction_id mx_requested_at].
    rewrite Hn. assert (∀ v, QueryValue_ok v = Identifier_ok v) as Hid.
    { intros v. unfold QueryValue_ok, text_ok, Identifier_ok, between. by rewrite andb_assoc. }
    assert (∀ o, opt_ok QueryValue_ok o = opt_ok Identifier_ok o) as Hopt by (intros [v|]; [apply Hid|done]).
    rewrite Hid, !Hopt. cbn [opt_ok]. by rewrite H, H0, H1.
  - intros Hext. unfold at_level. by rewrite Ht, Hr, Hcap, Heff, Hext, Es, Ep.
Qed.

Lemma extension_diagnostics_nil extensions : extension_diagnostics extensions = [] ↔ extensions = [].
Proof. by destruct extensions. Qed.

Lemma from_ir_supported c :
  validate_command c = Ok () → tc_transaction_type c = SHIPMENT_TRACK →
  ∃ r, from_ir c = Ok r ∧ validate_query (mr_value r) = Ok () ∧
    (is_ok (require_supported r) = true ↔ representable c) ∧
    (representable c → ∃ r', to_ir (mr_value r) (context_of c) = Ok r' ∧ mr_value r' = at_level L1 c).
Proof.
  intros Hv Ht. destruct (tracking_command c Hv Ht) as (s & f & Es & Ep & Hs & Hf & Hx & Hc).
  pose proof (track_query_valid s f Hs Hf) as Hq. unfold from_ir, representable. rewrite Es, Ep, Hq.
  cbn [validated mbind result_bind]. eexists. split; [done|]. cbn [mr_value]. split; [done|]. split.
  - rewrite <-extension_diagnostics_nil, <-code_diagnostics_nil.
    assert (∀ l : list MappingDiagnostic, (∀ d, d ∈ l → md_blocking d = true) →
      is_ok (require_supported (Build_MappingResult (track_query s f) IR_SCHEMA_VERSION DCSA_TNT_QUERY_VERSION l)) = true
      ↔ l = []) as Hall.
    { intros [|d l] Hl; [done|]. unfold require_supported, has_blocking_diagnostics. cbn. by rewrite Hl by set_solver. }
    rewrite Hall; [by rewrite app_nil|]. intros d [Hd|Hd]%elem_of_app.
    + unfold extension_diagnostics in Hd. destruct (nonempty _); [apply list_elem_of_singleton in Hd as ->|set_solver]; done.
    + by apply list_elem_of_fmap in Hd as (? & -> & _).
  - intros [Hext Hcodes]. destruct (track_query_known s f Hcodes) as (H1 & H2 & H3 & H4).
    assert (validate_track f = Ok ()) as Hf' by done. unfold validate_track in Hf'. rewrite raise_if_then in Hf'.
    destruct Hf' as (_ & ([] & Hd & Hn)%bind_ok). rewrite !raise_if_then, raise_if_ok, !distinct_spec in Hn.
    pose proof (track_query_filter s f Hd) as Hfil.
    destruct (to_ir_total _ _ Hq Hx) as (created & reference & Hc' & Hr & Href & Hok).
    rewrite Hfil in Hc'. apply Ok_inj in Hc'. apply Ok_inj in Href. subst created reference.
    assert (distinct_filters (track_query s f)) as Hdist.
    { unfold distinct_filters. rewrite H1, H2, H3, H4. cbn. tauto. }
    pose proof (proj2 (query_command_valid _ _ _ _ Hq Hx Hfil Hr) Hdist) as Hvc. apply Hok in Hvc.
    destruct (to_ir (track_query s f) (context_of c)) as [r'|] eqn:E; [|done]. exists r'. split; [done|].
    apply to_ir_ok in E as (created & reference & Hc' & Href & _ & -> & _).
    rewrite Hfil in Hc'. apply Ok_inj in Hc', Href. subst created reference.
    rewrite Hc by done. unfold query_command. f_equal; [by destruct s|].
    unfold query_filters. rewrite H1, H2, H3, H4. by destruct f.
Qed.

(** ** Properties *)

(** A valid query under a valid context becomes a command exactly when none of its filters
    repeats a value, and mapping that command back, without any blocking diagnostic, gives the
    query again with its two spellings of equality merged. *)
Theorem tracking_query_roundtrip q x :
  validate_query q = Ok () → validate_context x = Ok () →
  (is_ok (to_ir q x) = true ↔ distinct_filters q) ∧
  ∀ r, to_ir q x = Ok r →
    has_blocking_diagnostics r = false ∧ validate_command (mr_value r) = Ok () ∧
    ∃ r', from_ir (mr_value r) = Ok r' ∧ mr_value r' = normalized q ∧ mr_diagnostics r' = [].
Proof.
  intros Hq Hx. destruct (to_ir_total q x Hq Hx) as (created & reference & Hc & Hr & _ & Hok).
  split; [rewrite Hok; by apply query_command_valid|].
  intros r (created' & reference' & Hc' & Hr' & Hv & Hm & _ & Hb)%to_ir_ok.
  split; [done|]. rewrite Hm. split; [done|]. by apply from_query_command.
Qed.

(** A valid tracking command always maps to a query; the result is supported exactly when
    the command has no extensions and only codes of TNT 2.3, and then mapping the query back
    under the command's own context returns the command, at verification level L1: everything
    but the level survives. *)
Theorem tracking_command_roundtrip c :
  validate_command c = Ok () → tc_transaction_type c = SHIPMENT_TRACK →
  ∃ r, from_ir c = Ok r ∧ validate_query (mr_value r) = Ok () ∧
    (is_ok (require_supported r) = true ↔ representable c) ∧
    (representable c → ∃ r', to_ir (mr_value r) (context_of c) = Ok r' ∧ mr_value r' = at_level L1 c).
Proof. apply from_ir_supported. Qed.

(** ** Witnesses *)

Definition example_query : DCSATNTQueryV2 := {|
  q_event_type := [TRANSPORT]; q_shipment_event_type_code := []; q_document_type_code := ["BKG"];
  q_carrier_booking_reference := None; q_booking_reference := Some "B-1"; q_transport_document_id := None;
  q_transport_document_reference := None; q_transport_event_type_code := ["ARRI"; "DEPA"]; q_schedule_id := None;
  q_transport_call_id := None; q_vessel_imo_number := Some "9321483"; q_carrier_voyage_number := None;
  q_export_voyage_number := None; q_carrier_service_code := None; q_un_location_code := None;
  q_equipment_event_type_code := []; q_equipment_reference := None; q_event_created_date_time := None;
  q_event_created_date_time_eq := Some {| dt_local := 5; dt_offset := Some 0 |};
  q_event_created_date_time_gt := None; q_event_created_date_time_gte := None;
  q_event_created_date_time_lt := None; q_event_created_date_time_lte := None;
  q_limit := Some 20; q_cursor := None; q_sort := None |}.
Definition example_context : MappingContext := {|
  mx_tenant_id := "tenant"; mx_external_reference := None; mx_transaction_id := None;
  mx_requested_at := {| dt_local := 0; dt_offset := Some 0 |} |}.
Definition example_mapped : MappingResult TransactionCommand :=
  match to_ir example_query example_context with
  | Ok r => r
  | Err _ => Build_MappingResult (example_command None 0 None) EmptyString EmptyString []
  end.

Example comma_separated :
  accept_comma_separated_values (JStr " ARRI, ,DEPA,") = json_strs ["ARRI"; "DEPA"].
Proof. vm_compute. reflexivity. Qed.

Example example_diagnostics :
  map md_source_path (mr_diagnostics example_mapped)
  = ["eventType"; "documentTypeCode"; "bookingReference"; "transportEventTypeCode"; "vesselIMONumber"; "limit";
     "eventCreatedDateTime[:operator]"; "query"; "query"; "query"].
Proof. vm_compute. reflexivity. Qed.

Lemma tracking_query_roundtrip_witness :
  ∃ r', from_ir (mr_value example_mapped) = Ok r' ∧ mr_value r' = normalized example_query ∧ mr_diagnostics r' = [].
Proof.
  destruct (tracking_query_roundtrip example_query example_context) as [_ H].
  - vm_compute. reflexivity.
  - vm_compute. reflexivity.
  - apply (H example_mapped). vm_compute. reflexivity.
Defined.

Definition plain_command (level : VerificationLevel) : TransactionCommand := at_level level (mr_value example_mapped).

Lemma tracking_command_roundtrip_witness :
  representable (plain_command L1) ∧
  ∃ r, from_ir (plain_command L1) = Ok r ∧
    (is_ok (require_supported r) = true ↔ representable (plain_command L1)).
Proof.
  assert (representable (plain_command L1)) as Hr.
  { split; [vm_compute; reflexivity|]. cbv beta iota delta [plain_command at_level tc_parameters].
    apply code_diagnostics_nil. vm_compute. reflexivity. }
  split; [exact Hr|].
  destruct (tracking_command_roundtrip (plain_command L1)) as (r & H1 & _ & H2 & _).
  - vm_compute. reflexivity.
  - reflexivity.
  - exists r. exact (conj H1 H2).
Defined.

(** A stricter verification level is lost without any diagnostic: the query of a command that
    requires L3 is supported, and maps back to a command that requires L1. *)
Example level_lost_silently :
  match from_ir (plain_command L3) with
  | Ok r => mr_diagnostics r = [] ∧
      match to_ir (mr_value r) (context_of (plain_command L3)) with
      | Ok r' => mr_value r' = plain_command L1
      | Err _ => False
      end
  | Err _ => False
  end.
Proof. vm_compute. split; reflexivity. Qed.
