(* ===== verification/Compile.v ===== *)
(** * Compilation of source payloads (application/compile.py)

    The compile service with its mapper and mapper registry.  Reading a payload into a model
    is pydantic's and comes with the hypothesis that what it returns has passed the model's
    validators ([PayloadReader]).  A mapper returns mapping results of the library's own
    type. *)

From Stdlib Require Import Ascii.
From S2P Require Import Prelude.
From S2P Require Import Contracts.
From S2P Require Import Documents.
From S2P Require Import JsonText.
From S2P Require Import Mapping.

(** [model_validate] of the three models on JSON values. *)
Class PayloadReader := {
  read_command : json → result string TransactionCommand;
  read_query : json → result string DCSATNTQueryV2;
  read_context : json → result string MappingContext;
  read_command_valid j c : read_command j = Ok c → validate_command c = Ok ();
  read_query_valid j q : read_query j = Ok q → validate_query q = Ok ();
  read_context_valid j x : read_context j = Ok x → validate_context x = Ok () }.

Record CompilationError := { ce_code : string; ce_diagnostics : list MappingDiagnostic }.

Definition compilation_error (code : string) : CompilationError := {| ce_code := code; ce_diagnostics := [] |}.

Record CompilationResult := {
  cr_command : TransactionCommand;
  cr_canonical_json : string;
  cr_digest : string;
  cr_diagnostics : list MappingDiagnostic;
  cr_source_schema_version : string }.

(** The mapping context of a call. *)
Inductive Context :=
| NoContext
| ContextDict (value : json)
| ContextModel (x : MappingContext).

Definition SUPPORTED_SOURCE_VERSIONS : list string := [IR_SCHEMA_VERSION; DCSA_TNT_QUERY_VERSION].

Definition is_object (j : json) : bool := match j with JObj _ => true | _ => false end.

(** [_has_critical_mapping_diagnostic]. *)
Definition critical (d : MappingDiagnostic) : bool :=
  (bool_decide (md_fidelity d = PARTIAL) || bool_decide (md_fidelity d = UNSUPPORTED)) && md_blocking d.
Definition has_critical_mapping_diagnostic (diagnostics : list MappingDiagnostic) : bool :=
  existsb critical diagnostics.

(** [try: ... except Exception as exc: raise CompilationError(code)]. *)
Definition guarded {E A} (code : string) (r : result E A) : result CompilationError A :=
  match r with Ok a => Ok a | Err _ => Err (compilation_error code) end.

Section service.
Context `{PayloadReader, Sha256, FloatRepr}.

(** [CompileService(mapper, registry)]. *)
Context (mapper : option Mapper) (registry : option (MappingRegistry Mapper)).

Definition validate_ir (payload : json) : result CompilationError TransactionCommand :=
  raise_if (negb (is_object payload)) (compilation_error "invalid_payload");;
  guarded "invalid_ir" (read_command payload).

(** The mapper used; a registry without the key raises what [compile] turns into
    [invalid_source]. *)
Definition resolve_mapper : result CompilationError Mapper :=
  match mapper with
  | Some m => Ok m
  | None =>
      match registry with
      | Some r => guarded "invalid_source" (resolve r tracking_key)
      | None => guarded "invalid_source" (r ← default_mapping_registry; resolve r tracking_key)
      end
  end.

Definition mapping_context (context : Context) : result CompilationError MappingContext :=
  match context with
  | NoContext => Err (compilation_error "missing_mapping_context")
  | ContextDict value => guarded "invalid_mapping_context" (read_context value)
  | ContextModel x => Ok x
  end.

Definition map_tnt (payload : json) (context : Context)
    : result CompilationError (TransactionCommand * list MappingDiagnostic) :=
  raise_if (negb (is_object payload)) (compilation_error "invalid_payload");;
  query ← guarded "invalid_tnt_query" (read_query payload);
  m ← resolve_mapper;
  x ← mapping_context context;
  mapped ←
    match m query x with
    | Ok mapped => Ok mapped
    | Err (MappingError diagnostics) => Err {| ce_code := "mapping_rejected"; ce_diagnostics := diagnostics |}
    | Err (MapValueError _) => Err (compilation_error "mapping_failed")
    end;
  raise_if (has_critical_mapping_diagnostic (mr_diagnostics mapped))
    {| ce_code := "mapping_rejected"; ce_diagnostics := mr_diagnostics mapped |};;
  Ok (mr_value mapped, mr_diagnostics mapped).

Definition canonicalize (command : TransactionCommand) : result CompilationError (string * string) :=
  guarded "canonicalization_failed"
    (canonical ← canonical_business_json command;
     digest ← business_digest command;
     Ok (canonical, digest)).

Definition compile (source_schema_version : string) (payload : json) (context : Context)
    : result CompilationError CompilationResult :=
  raise_if (negb (mem source_schema_version SUPPORTED_SOURCE_VERSIONS))
    (compilation_error "unsupported_source_schema");;
  compiled ←
    (if bool_decide (source_schema_version = IR_SCHEMA_VERSION)
     then command ← validate_ir payload; Ok (command, [])
     else map_tnt payload context);
  let '(command, diagnostics) := compiled in
  texts ← canonicalize command;
  let '(canonical_json, digest) := texts in
  Ok {| cr_command := command; cr_canonical_json := canonical_json; cr_digest := digest;
        cr_diagnostics := diagnostics; cr_source_schema_version := source_schema_version |}.

End service.

(** ** Specification *)

Section spec.
Context `{PayloadReader, Sha256, FloatRepr}.

(** The context a call supplies, read. *)
Inductive supplies : Context → MappingContext → Prop :=
| supplies_dict value x : read_context value = Ok x → supplies (ContextDict value) x
| supplies_model x : supplies (ContextModel x) x.

(** The mapper a service is configured with: the injected one, or the registered one, or the
    library's own. *)
Inductive configured : option Mapper → option (MappingRegistry Mapper) → Mapper → Prop :=
| configured_injected m registry : configured (Some m) registry m
| configured_registered r m : find_mapper r tracking_key = Some m → configured None (Some r) m
| configured_default : configured None None to_ir.

(** A diagnostic of a loss that must not pass. *)
Definition critical_loss (d : MappingDiagnostic) : Prop :=
  md_blocking d = true ∧ (md_fidelity d = PARTIAL ∨ md_fidelity d = UNSUPPORTED).

(** The command and diagnostics a payload stands for. *)
Inductive compiles_to (mapper : option Mapper) (registry : option (MappingRegistry Mapper)) (payload : json)
    (context : Context) : string → TransactionCommand → list MappingDiagnostic → Prop :=
| compiles_ir c : read_command payload = Ok c → compiles_to mapper registry payload context IR_SCHEMA_VERSION c []
| compiles_tnt q x f m :
    read_query payload = Ok q → supplies context x → configured mapper registry f → f q x = Ok m →
    (∀ d, d ∈ mr_diagnostics m → ¬ critical_loss d) →
    compiles_to mapper registry payload context DCSA_TNT_QUERY_VERSION (mr_value m) (mr_diagnostics m).

(** ** Lemmas *)

Lemma guarded_ok {E A} code (r : result E A) a : guarded code r = Ok a ↔ r = Ok a.
Proof. unfold guarded. destruct r; naive_solver. Qed.

Lemma mapping_context_ok context x : mapping_context context = Ok x ↔ supplies context x.
Proof.
  unfold mapping_context. destruct context as [|value|x'].
  - split; [done|]. intros Hs. inversion Hs.
  - rewrite guarded_ok. split; [by constructor|]. intros Hs. by inversion Hs.
  - split; [intros Hx%Ok_inj; subst; constructor|]. intros Hs. by inversion Hs.
Qed.

Lemma not_critical diagnostics :
  existsb md_blocking diagnostics = false → has_critical_mapping_diagnostic diagnostics = false.
Proof.
  unfold has_critical_mapping_diagnostic. rewrite !existsb_elem_false. intros Hb d Hd. unfold critical.
  by rewrite Hb, andb_false_r.
Qed.

Lemma canonicalize_ok command canonical digest :
  canonicalize command = Ok (canonical, digest) ↔
  canonical_business_json command = Ok canonical ∧ business_digest command = Ok digest.
Proof.
  unfold canonicalize. rewrite guarded_ok. split.
  - by intros (? & -> & (? & -> & [= -> ->]%Ok_inj)%bind_ok)%bind_ok.
  - by intros [-> ->].
Qed.

(** The digest is that of the canonical text. *)
Lemma digest_of_canonical command canonical digest :
  canonical_business_json command = Ok canonical →
  business_digest command = Ok digest ↔ digest = "sha256:" +:+ sha256_hex canonical.
Proof. unfold business_digest. intros ->. cbn [mbind result_bind]. split; [by intros <-%Ok_inj|by intros ->]. Qed.

Lemma resolve_mapper_ok mapper registry f :
  resolve_mapper mapper registry = Ok f ↔ configured mapper registry f.
Proof.
  unfold resolve_mapper. destruct mapper as [m|]; [|destruct registry as [r|]].
  - split; [intros <-%Ok_inj; constructor|]. intros Hc. by inversion Hc.
  - rewrite guarded_ok. unfold resolve. destruct (find_mapper r tracking_key) as [m|] eqn:E.
    + split; [intros <-%Ok_inj; by constructor|]. intros Hc. inversion Hc. congruence.
    + split; [done|]. intros Hc. inversion Hc. congruence.
  - change (Ok (E:=CompilationError) to_ir = Ok f ↔ configured None None f).
    split; [intros <-%Ok_inj; constructor|]. intros Hc. by inversion Hc.
Qed.

Lemma critical_spec d : critical d = true ↔ critical_loss d.
Proof. unfold critical, critical_loss. rewrite andb_true_iff, orb_true_iff, !bool_decide_eq_true. tauto. Qed.

Lemma no_critical_loss diagnostics :
  has_critical_mapping_diagnostic diagnostics = false ↔ ∀ d, d ∈ diagnostics → ¬ critical_loss d.
Proof.
  unfold has_critical_mapping_diagnostic. rewrite existsb_elem_false. setoid_rewrite <-critical_spec.
  by setoid_rewrite not_true_iff_false.
Qed.

Lemma map_tnt_ok mapper registry payload context command diagnostics :
  is_object payload = true →
  map_tnt mapper registry payload context = Ok (command, diagnostics) ↔
  ∃ q x f m, read_query payload = Ok q ∧ supplies context x ∧ configured mapper registry f ∧ f q x = Ok m ∧
    (∀ d, d ∈ mr_diagnostics m → ¬ critical_loss d) ∧ command = mr_value m ∧ diagnostics = mr_diagnostics m.
Proof.
  intros Ho. unfold map_tnt. rewrite Ho. cbn [negb raise_if mbind result_bind]. split.
  - intros (q & Hq%guarded_ok & (f & Hf%resolve_mapper_ok & (x & Hx%mapping_context_ok & (m & Hm & [Hc Hr]%raise_if_then)%bind_ok)%bind_ok)%bind_ok)%bind_ok.
    apply Ok_inj in Hr as [= <- <-]. pose proof (proj1 (no_critical_loss _) Hc) as Hl. exists q, x, f, m.
    destruct (f q x) as [m'|[|]] eqn:E; [|done..]. apply Ok_inj in Hm. by subst.
  - intros (q & x & f & m & -> & Hx%mapping_context_ok & Hf%resolve_mapper_ok & Hm & Hc%(no_critical_loss (mr_diagnostics m)) & -> & ->).
    cbn [guarded mbind result_bind]. rewrite Hf. cbn [mbind result_bind]. rewrite Hx. cbn [mbind result_bind].
    rewrite Hm. cbn [mbind result_bind]. by rewrite Hc.
Qed.

(** A critical loss is answered with its diagnostics. *)
Lemma map_tnt_lossy mapper registry payload context q x f m d :
  is_object payload = true → read_query payload = Ok q → supplies context x → configured mapper registry f →
  f q x = Ok m → d ∈ mr_diagnostics m → critical_loss d →
  map_tnt mapper registry payload context = Err {| ce_code := "mapping_rejected"; ce_diagnostics := mr_diagnostics m |}.
Proof.
  intros Ho Hq Hx%mapping_context_ok Hf%resolve_mapper_ok Hm Hd Hc. unfold map_tnt. rewrite Ho, Hq.
  cbn [negb raise_if guarded mbind result_bind]. rewrite Hf. cbn [mbind result_bind]. rewrite Hx.
  cbn [mbind result_bind]. rewrite Hm. cbn [mbind result_bind].
  destruct (has_critical_mapping_diagnostic (mr_diagnostics m)) eqn:E; [done|].
  by destruct (proj1 (no_critical_loss _) E d Hd).
Qed.

Lemma compile_ok mapper registry version payload context r :
  is_object payload = true →
  compile mapper registry version payload context = Ok r ↔
  compiles_to mapper registry payload context version (cr_command r) (cr_diagnostics r) ∧
  canonical_business_json (cr_command r) = Ok (cr_canonical_json r) ∧
  cr_digest r = "sha256:" +:+ sha256_hex (cr_canonical_json r) ∧ cr_source_schema_version r = version.
Proof.
  intros Ho. unfold compile. rewrite raise_if_then, negb_false_iff, mem_true. split.
  - intros (Hv & ([command diagnostics] & Hc & ([canonical digest] & [Hj Hd]%canonicalize_ok & Hr)%bind_ok)%bind_ok).
    apply Ok_inj in Hr. subst r. cbn [cr_command cr_diagnostics cr_canonical_json cr_digest cr_source_schema_version].
    apply (digest_of_canonical _ _ _ Hj) in Hd. split_and!; try done.
    case_bool_decide as Hir.
    + apply bind_ok in Hc as (c & Hc & [= <- <-]%Ok_inj). unfold validate_ir in Hc. rewrite Ho in Hc.
      apply guarded_ok in Hc. subst version. by constructor.
    + apply map_tnt_ok in Hc as (q & x & f & m & Hq & Hx & Hf & Hm & Hl & -> & ->); [|done].
      apply elem_of_cons in Hv as [Hv|Hv]; [done|]. apply list_elem_of_singleton in Hv as ->. by econstructor.
  - intros (Hc & Hj & Hd & Hs). pose proof (proj2 (digest_of_canonical _ _ _ Hj) Hd) as Hd'.
    destruct r as [command canonical digest diagnostics version'].
    cbn [cr_command cr_diagnostics cr_canonical_json cr_digest cr_source_schema_version] in *. subst version'.
    pose proof (proj2 (canonicalize_ok _ _ _) (conj Hj Hd')) as Hcan.
    inversion Hc as [c Hr|q x f m Hq Hx Hf Hm Hl]; subst.
    + split; [by left|]. rewrite bool_decide_true by done. unfold validate_ir. rewrite Ho, Hr.
      cbn [negb raise_if guarded mbind result_bind]. by rewrite Hcan.
    + split; [by right; left|]. rewrite bool_decide_false by done.
      assert (map_tnt mapper registry payload context = Ok (mr_value m, mr_diagnostics m)) as ->.
      { apply map_tnt_ok; [done|]. by exists q, x, f, m. }
      cbn [mbind result_bind]. by rewrite Hcan.
Qed.

(** The library's own mapper never loses anything critical. *)
Lemma to_ir_lossless q x m : to_ir q x = Ok m → ∀ d, d ∈ mr_diagnostics m → ¬ critical_loss d.
Proof. intros (? & ? & _ & _ & _ & _ & _ & Hb)%to_ir_ok. by apply no_critical_loss, not_critical. Qed.

Lemma compiled_tracking payload context c diagnostics :
  compiles_to None None payload context DCSA_TNT_QUERY_VERSION c diagnostics →
  ∃ q x m, read_query payload = Ok q ∧ supplies context x ∧ to_ir q x = Ok m ∧ c = mr_value m ∧
    diagnostics = mr_diagnostics m.
Proof.
  intros Hc. inversion Hc as [|q x f m Hq Hx Hf Hm _]; subst. inversion Hf; subst.
  by exists q, x, m.
Qed.

(** A mapped command has no floats. *)
Lemma model_finite b fields : forallb (λ kv, json_finite kv.2) fields = true → json_finite (model_obj b fields) = true.
Proof.
  unfold model_obj. cbn [json_finite]. destruct b; [|done]. rewrite !forallb_elem.
  intros Hf kv [Hkv _]%list_filter_elem. by apply Hf.
Qed.

Lemma opt_finite {A} (f : A → json) o : (∀ a, json_finite (f a) = true) → json_finite (json_opt f o) = true.
Proof. intros Hf. destruct o; [apply Hf|done]. Qed.

Lemma strs_finite l : json_finite (json_strs l) = true.
Proof. induction l as [|s l IH]; done. Qed.

(** So it always has a canonical text. *)
Lemma query_command_text q x reference created :
  ∃ canonical, canonical_business_json (query_command q x reference created) = Ok canonical.
Proof.
  unfold canonical_business_json. exists (json_dumps (canonical_business_dict (query_command q x reference created))).
  assert (json_finite (canonical_business_dict (query_command q x reference created)) = true) as ->; [|done].
  unfold canonical_business_dict. rewrite normalize_finite. apply model_finite.
  cbn [forallb snd query_command tc_subject tc_parameters tc_extensions subject_json parameters_json json_finite].
  assert (json_finite (shipment_json true (query_subject q)) = true) as ->.
  { apply model_finite. cbn [forallb snd]. by rewrite !opt_finite. }
  assert (json_finite (track_json true canonical_time (query_filters q created)) = true) as ->.
  { apply model_finite. cbn [forallb snd]. rewrite !strs_finite, !opt_finite; try done.
    intros f. apply model_finite. cbn [forallb snd]. by rewrite !opt_finite. }
  rewrite !strs_finite. by rewrite model_finite.
Qed.

(** The context of a call is a valid one; a model has been validated when it was built. *)
Definition context_valid (context : Context) : Prop :=
  match context with ContextModel x => validate_context x = Ok () | _ => True end.

Lemma supplied_valid context x : context_valid context → supplies context x → validate_context x = Ok ().
Proof. intros Hc Hs. inversion Hs; subst; [by eapply read_context_valid|done]. Qed.

(** ** Properties *)

(** C27. Compilation is exact for any mapper the service is configured with: it succeeds with
    exactly the command a payload stands for, the command an IR payload reads as or the mapping
    of a TNT query under the given context, with the canonical text of that command and the
    digest of that text, and never with a critical loss, which is answered with its
    diagnostics.  With the library's own mapper the command is valid and maps back to the query
    that was read, with nothing lost, under the tenant, transaction and time of the context. *)
Theorem compile_exact mapper registry version payload context :
  is_object payload = true →
  (∀ r, compile mapper registry version payload context = Ok r ↔
     compiles_to mapper registry payload context version (cr_command r) (cr_diagnostics r) ∧
     canonical_business_json (cr_command r) = Ok (cr_canonical_json r) ∧
     cr_digest r = "sha256:" +:+ sha256_hex (cr_canonical_json r) ∧ cr_source_schema_version r = version) ∧
  (∀ q x f m d, version = DCSA_TNT_QUERY_VERSION → read_query payload = Ok q → supplies context x →
     configured mapper registry f → f q x = Ok m → d ∈ mr_diagnostics m → critical_loss d →
     compile mapper registry version payload context
     = Err {| ce_code := "mapping_rejected"; ce_diagnostics := mr_diagnostics m |}) ∧
  (∀ r, mapper = None → registry = None → version = DCSA_TNT_QUERY_VERSION →
     compile mapper registry version payload context = Ok r →
     validate_command (cr_command r) = Ok () ∧
     ∃ q x back, read_query payload = Ok q ∧ supplies context x ∧ from_ir (cr_command r) = Ok back ∧
       mr_value back = normalized q ∧ mr_diagnostics back = [] ∧ tc_tenant_id (cr_command r) = mx_tenant_id x ∧
       tc_transaction_id (cr_command r) = mx_transaction_id x ∧ tc_requested_at (cr_command r) = mx_requested_at x).
Proof.
  intros Ho. split; [intros r; by apply compile_ok|]. split.
  - intros q x f m d -> Hq Hx Hf Hm Hd Hl. unfold compile.
    change (negb (mem DCSA_TNT_QUERY_VERSION SUPPORTED_SOURCE_VERSIONS)) with false.
    rewrite bool_decide_false by done. by rewrite (map_tnt_lossy _ _ _ _ _ _ _ _ _ Ho Hq Hx Hf Hm Hd Hl).
  - intros r -> -> -> (Hc & _)%compile_ok; [|done].
    apply compiled_tracking in Hc as (q & x & m & Hq & Hx & Hm & -> & _).
    apply to_ir_ok in Hm as (created & reference & Hcr & Hr & Hv & Hval & _). rewrite Hval.
    split; [done|]. destruct (from_query_command q x reference created) as (back & Hb & Hn & Hd);
      [by eapply read_query_valid|done|done|]. by exists q, x, back.
Qed.

(** A track and trace query that pydantic reads compiles, under a valid context, exactly
    when none of its filters repeats a value. *)
Theorem compile_query_total payload context q x :
  is_object payload = true → read_query payload = Ok q → supplies context x → context_valid context →
  is_ok (compile None None DCSA_TNT_QUERY_VERSION payload context) = true ↔ distinct_filters q.
Proof.
  intros Ho Hq Hx Hv. pose proof (read_query_valid _ _ Hq) as Hqv. pose proof (supplied_valid _ _ Hv Hx) as Hxv.
  destruct (to_ir_total q x Hqv Hxv) as (created & reference & Hf & Hr & _ & Hok).
  rewrite <-(query_command_valid q x reference created Hqv Hxv Hf Hr), <-Hok. split.
  - destruct (compile _ _ _ _ _) as [r|] eqn:E; [|done]. intros _. apply compile_ok in E as [Hc _]; [|done].
    apply compiled_tracking in Hc as (q' & x' & m & Hq' & Hx' & Hm & _). rewrite Hq in Hq'. apply Ok_inj in Hq'. subst q'.
    assert (x' = x) as ->; [|by rewrite Hm].
    destruct Hx; inversion Hx'; subst; congruence.
  - destruct (to_ir q x) as [m|] eqn:Em; [|done]. intros _. pose proof Em as Hm.
    apply to_ir_ok in Em as (created' & reference' & _ & _ & _ & Hval & _).
    destruct (query_command_text q x reference' created') as [canonical Hcan]. rewrite <-Hval in Hcan.
    assert (compile None None DCSA_TNT_QUERY_VERSION payload context = Ok {|
      cr_command := mr_value m; cr_canonical_json := canonical; cr_digest := "sha256:" +:+ sha256_hex canonical;
      cr_diagnostics := mr_diagnostics m; cr_source_schema_version := DCSA_TNT_QUERY_VERSION |}) as ->; [|done].
    apply compile_ok; [done|]. split_and!; try done.
    econstructor; [exact Hq|exact Hx|constructor|exact Hm|by apply (to_ir_lossless q x)].
Qed.

End spec.

(** ** Witnesses *)

#[local] Existing Instances distinct_sha256 distinct_sha256_laws example_float_repr.

(** A reader of payloads that give a booking reference, and of no other models. *)
Definition read_booking_reference (j : json) : result string DCSATNTQueryV2 :=
  match j with
  | JObj [("bookingReference", JStr reference)] =>
      let q := {|
        q_event_type := []; q_shipment_event_type_code := []; q_document_type_code := [];
        q_carrier_booking_reference := None; q_booking_reference := Some reference; q_transport_document_id := None;
        q_transport_document_reference := None; q_transport_event_type_code := []; q_schedule_id := None;
        q_transport_call_id := None; q_vessel_imo_number := None; q_carrier_voyage_number := None;
        q_export_voyage_number := None; q_carrier_service_code := None; q_un_location_code := None;
        q_equipment_event_type_code := []; q_equipment_reference := None; q_event_created_date_time := None;
        q_event_created_date_time_eq := None; q_event_created_date_time_gt := None;
        q_event_created_date_time_gte := None; q_event_created_date_time_lt := None;
        q_event_created_date_time_lte := None; q_limit := None; q_cursor := None; q_sort := None |} in
      validate_query q;; Ok q
  | _ => Err "unsupported payload"
  end.

#[local] Instance example_reader : PayloadReader.
Proof.
  refine {| read_command := λ _, Err "unsupported payload"; read_query := read_booking_reference;
            read_context := λ _, Err "unsupported payload" |}; try done.
  intros j q. unfold read_booking_reference. intros Hq.
  repeat match type of Hq with context [match ?v with _ => _ end] => is_var v; destruct v; try done end.
  by apply bind_ok in Hq as ([] & Hv & <-%Ok_inj).
Defined.

Definition example_payload : json := JObj [("bookingReference", JStr "B-1")].
Definition example_compiled : result CompilationError CompilationResult :=
  compile None None DCSA_TNT_QUERY_VERSION example_payload (ContextModel example_context).
Definition example_result : CompilationResult :=
  match example_compiled with
  | Ok r => r
  | Err _ => {| cr_command := example_command None 0 None; cr_canonical_json := EmptyString;
      cr_digest := EmptyString; cr_diagnostics := []; cr_source_schema_version := EmptyString |}
  end.

Example missing_context :
  compile None None DCSA_TNT_QUERY_VERSION example_payload NoContext
  = Err (compilation_error "missing_mapping_context").
Proof. vm_compute. reflexivity. Qed.
Example unregistered_mapper :
  compile None (Some []) DCSA_TNT_QUERY_VERSION example_payload (ContextModel example_context)
  = Err (compilation_error "invalid_source").
Proof. vm_compute. reflexivity. Qed.
(** An injected mapper's losses are refused. *)
Example lossy_mapper :
  compile (Some (λ q x, Ok (Build_MappingResult (example_command None 0 None) EmptyString EmptyString
      [blocking_diagnostic "extensions" PARTIAL "LOSS" "lost"]))) None
    DCSA_TNT_QUERY_VERSION example_payload (ContextModel example_context)
  = Err {| ce_code := "mapping_rejected";
           ce_diagnostics := [blocking_diagnostic "extensions" PARTIAL "LOSS" "lost"] |}.
Proof. vm_compute. reflexivity. Qed.

Lemma compile_exact_witness :
  example_compiled = Ok example_result ∧ validate_command (cr_command example_result) = Ok ().
Proof.
  assert (example_compiled = Ok example_result) as Hc by (vm_compute; reflexivity).
  split; [exact Hc|].
  destruct (compile_exact None None DCSA_TNT_QUERY_VERSION example_payload (ContextModel example_context) eq_refl)
    as (_ & _ & Hown).
  destruct (Hown example_result eq_refl eq_refl eq_refl Hc) as [Hv _]. exact Hv.
Defined.

Lemma compile_query_total_witness :
  ∃ q, read_query example_payload = Ok q ∧
    (is_ok example_compiled = true ↔ distinct_filters q).
Proof.
  destruct (read_query example_payload) as [q|] eqn:E; [|exfalso; vm_compute in E; discriminate E].
  exists q. split; [reflexivity|].
  apply (compile_query_total example_payload (ContextModel example_context) q example_context).
  - reflexivity.
  - exact E.
  - constructor.
  - vm_compute. reflexivity.
Defined.
