(* ===== verification/Telemetry.v ===== *)
(** * Telemetry and service levels (platform/telemetry.py)

    Telemetry records with their allowlists, the emitter with its injected exporter, and the
    integer arithmetic of service-level reports and alerts.  Timestamps are [Datetime]s; an
    argument that is not an integer is [None]. *)

From Stdlib Require Import Ascii.
From S2P Require Import Prelude.
From S2P Require Import Contracts.
From S2P Require Import Documents.
From S2P Require Import ControlModels.

(** ** Vocabulary *)

Inductive TelemetrySignal := SPAN | METRIC | LOG.

#[export] Instance TelemetrySignal_eq_dec : EqDecision TelemetrySignal.
Proof. solve_decision. Defined.

Definition TelemetrySignal_value (s : TelemetrySignal) : string :=
  match s with SPAN => "span" | METRIC => "metric" | LOG => "log" end.

Definition MetricName : list string :=
  ["cargomesh.transaction.total"; "cargomesh.transaction.success"; "cargomesh.transaction.verified";
   "cargomesh.transaction.latency_ms"; "cargomesh.adapter.outcome.total"; "cargomesh.adapter.outcome.failure"].
Definition SpanName : list string :=
  ["cargomesh.transaction.compile"; "cargomesh.transaction.execute"; "cargomesh.verification";
   "cargomesh.adapter.call"].
Definition LogName : list string := ["cargomesh.security.event"; "cargomesh.lifecycle.event"].

Definition RESOURCE_ATTRIBUTE_ALLOWLIST : list string :=
  ["service.name"; "service.version"; "deployment.environment.name"; "telemetry.sdk.name";
   "telemetry.sdk.version"].
Definition SPAN_ATTRIBUTE_ALLOWLIST : list string :=
  ["tenant.id"; "environment.id"; "transaction.id"; "operation.name"; "transaction.state";
   "verification.status"; "adapter.id"; "adapter.version"; "route.candidate.id"; "result"; "error.code"].
Definition METRIC_ATTRIBUTE_ALLOWLIST : list string :=
  ["tenant.id"; "environment.id"; "operation.name"; "adapter.id"; "adapter.version"; "route.candidate.id";
   "result"; "verification.status"; "slo.name"; "window.id"].
Definition ATTRIBUTE_ALLOWLIST : list string :=
  RESOURCE_ATTRIBUTE_ALLOWLIST ++ SPAN_ATTRIBUTE_ALLOWLIST ++ METRIC_ATTRIBUTE_ALLOWLIST.

(** ** Text checks *)

Definition identifier_start (c : ascii) : bool := is_lower c || is_upper c || is_digit c.
(** [[a-zA-Z0-9._:-]]. *)
Definition identifier_char (c : ascii) : bool := identifier_start c || is_sep c || (code c =? 58).
(** [[a-zA-Z0-9][a-zA-Z0-9._:-]{0,127}]. *)
Definition identifier_pattern (s : string) : bool :=
  match s with
  | String c s' => identifier_start c && forall_chars identifier_char s' && (len s' <=? 127)
  | EmptyString => false
  end.

(** [re.search] of words, ignoring case. *)
Fixpoint search_words (words : list string) (s : string) : bool :=
  existsb (λ w, negb (is_none (after_word w s))) words
  || match s with String _ s' => search_words words s' | EmptyString => false end.

Definition unsafe_words : list string :=
  ["authorization"; "cookie"; "credential"; "password"; "secret"; "token"; "apikey"; "api_key"; "api-key";
   "payload"; "body"; "claim"; "evidence"; "exception"; "url"; "path"].
(** [_SAFE_KEY_RE.search(key)]. *)
Definition unsafe_key (key : string) : bool := search_words unsafe_words key.
(** [_SECRET_VALUE_RE.search(value)], the pattern the control plane's contracts share. *)
Definition secret_value (value : string) : bool := secret_assignment false value.

(** The [Identifier] of this module, already stripped. *)
Definition TelemetryIdentifier_ok (s : string) : bool := bool_decide (strip s = s) && identifier_pattern s.

Definition valid_scalar_string (value : string) : bool := Digest_ok value || identifier_pattern value.

Definition INT_MAX : Z := 2 ^ 63 - 1.
Definition bounded_int (value : Z) : bool := between (- 2 ^ 63) value INT_MAX.

(** ** Records *)

Inductive TelemetryScalar := TStr (s : string) | TInt (z : Z) | TBool (b : bool).

Definition telemetry_json (v : TelemetryScalar) : json :=
  match v with TStr s => JStr s | TInt z => JInt z | TBool b => JBool b end.

Definition scalar_ok (v : TelemetryScalar) : bool :=
  match v with
  | TStr s => valid_scalar_string s && negb (secret_value s)
  | TInt z => bounded_int z
  | TBool _ => true
  end.

(** [_validate_attribute_values]. *)
Fixpoint validate_attribute_values (allowed : list string) (value : list (string * TelemetryScalar))
    : result string () :=
  match value with
  | [] => Ok ()
  | (key, item) :: value' =>
      raise_if (negb (mem key allowed) || unsafe_key key) "telemetry attribute is not allowlisted";;
      raise_if (negb (scalar_ok item)) "telemetry attribute value is not bounded";;
      validate_attribute_values allowed value'
  end.

(** [value] is an [int], a [bool] or [None]. *)
Record TelemetryRecord := {
  te_signal : TelemetrySignal;
  te_name : string;
  te_resource_attributes : list (string * TelemetryScalar);
  te_attributes : list (string * TelemetryScalar);
  te_value : option (Z + bool);
  te_occurred_at : Datetime;
  te_record_digest : string }.

Definition attributes_json (l : list (string * TelemetryScalar)) : json :=
  JObj (map (λ kv, (kv.1, telemetry_json kv.2)) l).
Definition telemetry_record_json (r : TelemetryRecord) : json := JObj [
  ("schema_version", JStr "cargomesh.telemetry/v1"); ("signal", JStr (TelemetrySignal_value (te_signal r)));
  ("name", JStr (te_name r)); ("resource_attributes", attributes_json (te_resource_attributes r));
  ("attributes", attributes_json (te_attributes r));
  ("value", json_opt (λ v, match v with inl z => JInt z | inr b => JBool b end) (te_value r));
  ("occurred_at", JStr (isoformat (instant (te_occurred_at r))))].

Definition signal_attributes (s : TelemetrySignal) : list string :=
  match s with METRIC => METRIC_ATTRIBUTE_ALLOWLIST | SPAN | LOG => SPAN_ATTRIBUTE_ALLOWLIST end.
Definition signal_names (s : TelemetrySignal) : list string :=
  match s with METRIC => MetricName | SPAN => SpanName | LOG => LogName end.

(** [astimezone(UTC)]. *)
Definition utc (d : Datetime) : Datetime := {| dt_local := instant d; dt_offset := Some 0 |}.

Section records.
Context `{Sha256, FloatRepr}.

(** The field constraints and validators in their order. *)
Definition validate_record (r : TelemetryRecord) : result string () :=
  raise_if (negb (TelemetryIdentifier_ok (te_name r)
                  && forallb (λ kv, TelemetryIdentifier_ok kv.1) (te_resource_attributes r)
                  && max_length 16 (te_resource_attributes r)
                  && forallb (λ kv, TelemetryIdentifier_ok kv.1) (te_attributes r)
                  && max_length 16 (te_attributes r)
                  && Digest_ok (te_record_digest r))) "field constraint";;
  raise_if (naive (te_occurred_at r)) "telemetry timestamp must include a timezone";;
  validate_attribute_values ATTRIBUTE_ALLOWLIST (te_attributes r);;
  validate_attribute_values RESOURCE_ATTRIBUTE_ALLOWLIST (te_resource_attributes r);;
  raise_if (existsb (λ kv, negb (mem kv.1 (signal_attributes (te_signal r)))) (te_attributes r))
    "telemetry attribute is not valid for signal";;
  raise_if (negb (mem (te_name r) (signal_names (te_signal r)))) "name is not allowlisted";;
  raise_if (match te_value r with Some (inl z) => negb (bounded_int z) | _ => false end)
    "telemetry value integer is not bounded";;
  raise_if (negb (bool_decide (te_record_digest r = value_digest (telemetry_record_json r))))
    "telemetry record digest does not match".

Definition with_record_digest (r : TelemetryRecord) (digest : string) : TelemetryRecord := {|
  te_signal := te_signal r; te_name := te_name r; te_resource_attributes := te_resource_attributes r;
  te_attributes := te_attributes r; te_value := te_value r; te_occurred_at := te_occurred_at r;
  te_record_digest := digest |}.
Definition in_utc (r : TelemetryRecord) : TelemetryRecord := {|
  te_signal := te_signal r; te_name := te_name r; te_resource_attributes := te_resource_attributes r;
  te_attributes := te_attributes r; te_value := te_value r; te_occurred_at := utc (te_occurred_at r);
  te_record_digest := te_record_digest r |}.

(** [TelemetryRecord.issue]. *)
Definition issue_record (r : TelemetryRecord) : result string TelemetryRecord :=
  let signed := with_record_digest r (value_digest (telemetry_record_json r)) in
  validate_record signed;; Ok (in_utc signed).

(** ** The emitter

    A raised exception: its text, the exception it was raised from, the one being handled when
    it was raised, and whether [from] suppresses the latter. *)
Inductive PyException :=
| PyExc (text : string) (cause context : option PyException) (suppress_context : bool).

(** The texts a traceback shows, the first one first: those of the cause, or of the context unless
    it is suppressed, and then its own. *)
Fixpoint shown (e : PyException) : list string :=
  match e with
  | PyExc text cause context suppress_context =>
      match cause with
      | Some c => shown c
      | None =>
          if suppress_context then []
          else match context with Some c => shown c | None => [] end
      end ++ [text]
  end.

(** [TelemetryError] and its subclass [TelemetryExportError]. *)
Record TelemetryError := { fl_code : string; fl_exception : PyException }.

(** [raise TelemetryError(code, message) from None] while [handled] is being handled. *)
Definition raise_from_none (code message : string) (handled : PyException) : TelemetryError :=
  {| fl_code := code; fl_exception := PyExc message None (Some handled) true |}.

(** [emit]: [export] is the injected exporter, with the exception it raises, if any; the first
    component is what it was given. *)
Definition emit (export : TelemetryRecord → option PyException) (signal : TelemetrySignal) (name : string)
    (attributes resource_attributes : option (list (string * TelemetryScalar))) (value : option (Z + bool))
    (occurred_at : Datetime) : list TelemetryRecord * result TelemetryError TelemetryRecord :=
  match issue_record {| te_signal := signal; te_name := name;
    te_resource_attributes := default [] resource_attributes; te_attributes := default [] attributes;
    te_value := value; te_occurred_at := occurred_at; te_record_digest := EmptyString |} with
  | Err text =>
      ([], Err (raise_from_none "invalid_telemetry" "Telemetry record is invalid" (PyExc text None None false)))
  | Ok record =>
      ([record], match export record with
                 | None => Ok record
                 | Some exc => Err (raise_from_none "telemetry_export_failed" "Telemetry export failed" exc)
                 end)
  end.

End records.

(** ** Service levels *)

Record SLOWindow := {
  sw_window_id : string;
  sw_event_count : Z;
  sw_success_count : Z;
  sw_verified_count : Z;
  sw_latency_compliant_count : Z;
  sw_latency_sample_count : Z;
  sw_latency_total_ms : Z;
  sw_window_seconds : Z }.

Definition validate_window (w : SLOWindow) : result string () :=
  raise_if (negb (TelemetryIdentifier_ok (sw_window_id w)
                  && forallb (λ n, between 0 n INT_MAX)
                       [sw_event_count w; sw_success_count w; sw_verified_count w; sw_latency_compliant_count w;
                        sw_latency_sample_count w; sw_latency_total_ms w]
                  && between 1 (sw_window_seconds w) INT_MAX)) "field constraint";;
  raise_if (sw_event_count w <? sw_success_count w) "success count exceeds event count";;
  raise_if (sw_event_count w <? sw_verified_count w) "verified count exceeds event count";;
  raise_if (sw_event_count w <? sw_latency_compliant_count w) "latency count exceeds event count";;
  raise_if (sw_event_count w <? sw_latency_sample_count w) "latency sample count exceeds event count";;
  raise_if (sw_latency_sample_count w <? sw_latency_compliant_count w) "compliant count exceeds latency samples".

Definition rate (numerator denominator : Z) : Z :=
  if denominator =? 0 then 0 else numerator * 1000000 / denominator.

Definition burn (observed_ppm target_ppm : Z) : Z :=
  let budget := 1000000 - target_ppm in
  if budget <=? 0 then (if target_ppm <=? observed_ppm then 0 else INT_MAX)
  else Z.max 0 (1000000 - observed_ppm) * 1000000 / budget.

Record SLOReport := {
  sr_window : SLOWindow;
  sr_availability_ppm : Z;
  sr_verified_rate_ppm : Z;
  sr_latency_compliance_ppm : Z;
  sr_availability_burn_rate_ppm : Z;
  sr_verified_rate_burn_rate_ppm : Z;
  sr_latency_burn_rate_ppm : Z;
  sr_target_availability_ppm : Z;
  sr_target_verified_rate_ppm : Z;
  sr_target_latency_compliance_ppm : Z }.

Definition validate_slo_report (r : SLOReport) : result string () :=
  let w := sr_window r in
  raise_if (negb (forallb (λ n, between 0 n 1000000)
                    [sr_availability_ppm r; sr_verified_rate_ppm r; sr_latency_compliance_ppm r;
                     sr_target_availability_ppm r; sr_target_verified_rate_ppm r;
                     sr_target_latency_compliance_ppm r]
                  && forallb (λ n, between 0 n INT_MAX)
                       [sr_availability_burn_rate_ppm r; sr_verified_rate_burn_rate_ppm r;
                        sr_latency_burn_rate_ppm r])) "field constraint";;
  let availability := rate (sw_success_count w) (sw_event_count w) in
  let verified := rate (sw_verified_count w) (sw_event_count w) in
  let latency := rate (sw_latency_compliant_count w) (sw_event_count w) in
  raise_if (negb (bool_decide
      ((sr_availability_ppm r, sr_verified_rate_ppm r, sr_latency_compliance_ppm r)
       = (availability, verified, latency))
    && bool_decide
      ((burn availability (sr_target_availability_ppm r), burn verified (sr_target_verified_rate_ppm r),
        burn latency (sr_target_latency_compliance_ppm r))
       = (sr_availability_burn_rate_ppm r, sr_verified_rate_burn_rate_ppm r, sr_latency_burn_rate_ppm r))))
    "SLO report does not match its window and targets".

Definition validate_target (value : Z) : result string () :=
  raise_if (negb (between 0 value 1000000)) "SLO target must be an integer ppm".

(** The window is a validated model. *)
Definition calculate_slo (w : SLOWindow) (target_availability target_verified target_latency : Z)
    : result string SLOReport :=
  validate_target target_availability;;
  validate_target target_verified;;
  validate_target target_latency;;
  let availability := rate (sw_success_count w) (sw_event_count w) in
  let verified := rate (sw_verified_count w) (sw_event_count w) in
  let latency := rate (sw_latency_compliant_count w) (sw_event_count w) in
  let r := {| sr_window := w; sr_availability_ppm := availability; sr_verified_rate_ppm := verified;
    sr_latency_compliance_ppm := latency; sr_availability_burn_rate_ppm := burn availability target_availability;
    sr_verified_rate_burn_rate_ppm := burn verified target_verified;
    sr_latency_burn_rate_ppm := burn latency target_latency;
    sr_target_availability_ppm := target_availability; sr_target_verified_rate_ppm := target_verified;
    sr_target_latency_compliance_ppm := target_latency |} in
  validate_slo_report r;; Ok r.

(** ** Alerts *)

Inductive AlertReason := WITHIN_BUDGET | BURN_RATE_EXCEEDED | INSUFFICIENT_SAMPLES | INVALID_WINDOW.

#[export] Instance AlertReason_eq_dec : EqDecision AlertReason.
Proof. solve_decision. Defined.

Definition AlertReason_value (r : AlertReason) : string :=
  match r with
  | WITHIN_BUDGET => "within_budget" | BURN_RATE_EXCEEDED => "burn_rate_exceeded"
  | INSUFFICIENT_SAMPLES => "insufficient_samples" | INVALID_WINDOW => "invalid_window"
  end.

Record SLOAlertDecision := {
  sd_slo_name : string;
  sd_alert : bool;
  sd_reason_code : AlertReason;
  sd_short_window_id : string;
  sd_long_window_id : string;
  sd_burn_rate_ppm : Z;
  sd_threshold_ppm : Z;
  sd_decision_digest : string }.

Definition alert_json (d : SLOAlertDecision) : json := JObj [
  ("schema_version", JStr "cargomesh.slo-alert/v1"); ("slo_name", JStr (sd_slo_name d));
  ("alert", JBool (sd_alert d)); ("reason_code", JStr (AlertReason_value (sd_reason_code d)));
  ("short_window_id", JStr (sd_short_window_id d)); ("long_window_id", JStr (sd_long_window_id d));
  ("burn_rate_ppm", JInt (sd_burn_rate_ppm d)); ("threshold_ppm", JInt (sd_threshold_ppm d))].

Definition within_budget (r : AlertReason) : bool := bool_decide (r = WITHIN_BUDGET).
Definition worst_burn (r : SLOReport) : Z :=
  Z.max (Z.max (sr_availability_burn_rate_ppm r) (sr_verified_rate_burn_rate_ppm r)) (sr_latency_burn_rate_ppm r).
Definition calculate_multi_window_burn_rate (short long : SLOReport) : Z := Z.min (worst_burn short) (worst_burn long).

Section alerts.
Context `{Sha256, FloatRepr}.

Definition validate_alert (d : SLOAlertDecision) : result string () :=
  raise_if (negb (TelemetryIdentifier_ok (sd_slo_name d) && TelemetryIdentifier_ok (sd_short_window_id d)
                  && TelemetryIdentifier_ok (sd_long_window_id d) && between 0 (sd_burn_rate_ppm d) INT_MAX
                  && between 0 (sd_threshold_ppm d) INT_MAX && Digest_ok (sd_decision_digest d)))
    "field constraint";;
  raise_if (negb (within_budget (sd_reason_code d)) && negb (sd_alert d)) "unsafe SLO decisions must alert";;
  raise_if (within_budget (sd_reason_code d) && sd_alert d) "within-budget SLO decision cannot alert";;
  raise_if (bool_decide (sd_reason_code d = BURN_RATE_EXCEEDED) && (sd_burn_rate_ppm d <? sd_threshold_ppm d))
    "burn-rate alert is below its threshold";;
  raise_if (negb (bool_decide (sd_decision_digest d = value_digest (alert_json d))))
    "SLO alert decision digest does not match".

Definition issue_alert (slo_name : string) (alert : bool) (reason : AlertReason) (short_id long_id : string)
    (burn_rate threshold : Z) : result string SLOAlertDecision :=
  let unsigned digest := {| sd_slo_name := slo_name; sd_alert := alert; sd_reason_code := reason;
    sd_short_window_id := short_id; sd_long_window_id := long_id; sd_burn_rate_ppm := burn_rate;
    sd_threshold_ppm := threshold; sd_decision_digest := digest |} in
  let d := unsigned (value_digest (alert_json (unsigned EmptyString))) in
  validate_alert d;; Ok d.

(** [min(2**63 - 1, max(0, ...))]. *)
Definition safe_threshold (threshold : option Z) : Z := Z.min INT_MAX (Z.max 0 (default 0 threshold)).

Definition evaluate_slo_alert (slo_name : string) (short long : SLOReport) (threshold_ppm minimum_events : option Z)
    : result string SLOAlertDecision :=
  let short_id := sw_window_id (sr_window short) in
  let long_id := sw_window_id (sr_window long) in
  let invalid := issue_alert "invalid" true INVALID_WINDOW short_id long_id INT_MAX (safe_threshold threshold_ppm) in
  match threshold_ppm, minimum_events with
  | Some threshold, Some minimum =>
      if negb (identifier_pattern slo_name && between 0 threshold INT_MAX && between 0 minimum INT_MAX)
      then invalid
      else if (sw_event_count (sr_window short) <? minimum) || (sw_event_count (sr_window long) <? minimum)
      then issue_alert slo_name true INSUFFICIENT_SAMPLES short_id long_id
             (calculate_multi_window_burn_rate short long) threshold
      else
        let alert := (threshold <=? worst_burn short) && (threshold <=? worst_burn long) in
        issue_alert slo_name alert (if alert then BURN_RATE_EXCEEDED else WITHIN_BUDGET) short_id long_id
          (Z.min (worst_burn short) (worst_burn long)) threshold
  | _, _ => invalid
  end.

End alerts.

(** ** Specification *)

(** The judgement of one objective in exact arithmetic: its error rate, against its budget,
    has reached the threshold (both in parts per million). *)
Definition exceeded (threshold good total target : Z) : Prop :=
  if decide (target = 1000000) then rate good total < 1000000 ∨ threshold = 0
  else threshold * (1000000 - target) ≤ (1000000 - rate good total) * 1000000.

Definition breached (threshold : Z) (r : SLOReport) : Prop :=
  let w := sr_window r in
  exceeded threshold (sw_success_count w) (sw_event_count w) (sr_target_availability_ppm r) ∨
  exceeded threshold (sw_verified_count w) (sw_event_count w) (sr_target_verified_rate_ppm r) ∨
  exceeded threshold (sw_latency_compliant_count w) (sw_event_count w) (sr_target_latency_compliance_ppm r).

(** A report computed for a valid window. *)
Definition computed (r : SLOReport) : Prop :=
  validate_window (sr_window r) = Ok () ∧
  calculate_slo (sr_window r) (sr_target_availability_ppm r) (sr_target_verified_rate_ppm r)
    (sr_target_latency_compliance_ppm r) = Ok r.

(** ** Lemmas on rates *)

Lemma rate_bounds good total : 0 ≤ good ≤ total → 0 ≤ rate good total ≤ 1000000.
Proof.
  intros Hg. unfold rate. destruct (total =? 0) eqn:E; [lia|]. apply Z.eqb_neq in E. split.
  - apply Z.div_pos; lia.
  - apply Z.div_le_upper_bound; nia.
Qed.

Lemma rate_exact good total :
  0 ≤ good ≤ total → total ≠ 0 → rate good total * total ≤ good * 1000000 < (rate good total + 1) * total.
Proof.
  intros Hg Ht. unfold rate. rewrite (proj2 (Z.eqb_neq _ _)) by done.
  pose proof (Z.div_mod (good * 1000000) total ltac:(lia)). pose proof (Z.mod_pos_bound (good * 1000000) total ltac:(lia)).
  nia.
Qed.

Lemma INT_MAX_value : INT_MAX = 9223372036854775807.
Proof. reflexivity. Qed.

Lemma burn_bounds observed target : 0 ≤ observed ≤ 1000000 → 0 ≤ target ≤ 1000000 → 0 ≤ burn observed target ≤ INT_MAX.
Proof.
  intros Ho Ht. unfold burn. rewrite INT_MAX_value. cbv zeta. destruct (1000000 - target <=? 0) eqn:E.
  { destruct (target <=? observed); lia. }
  apply Z.leb_gt in E. split; [apply Z.div_pos; lia|].
  transitivity (1000000 * 1000000); [|lia]. apply Z.div_le_upper_bound; nia.
Qed.

(** The integer burn rate loses nothing in the comparison with a threshold. *)
Lemma burn_exceeded threshold good total target :
  0 ≤ good ≤ total → 0 ≤ target ≤ 1000000 → 0 ≤ threshold ≤ INT_MAX →
  threshold ≤ burn (rate good total) target ↔ exceeded threshold good total target.
Proof.
  intros Hg Ht Hth. pose proof (rate_bounds good total Hg) as Hr. unfold burn, exceeded. rewrite INT_MAX_value in *. case_decide as Heq.
  - subst. replace (1000000 - 1000000 <=? 0) with true by done.
    destruct (1000000 <=? rate good total) eqn:E; [apply Z.leb_le in E|apply Z.leb_gt in E]; lia.
  - destruct (1000000 - target <=? 0) eqn:E; [apply Z.leb_le in E; lia|]. apply Z.leb_gt in E.
    rewrite Z.max_r by lia. split; intros H.
    + pose proof (Z.mul_div_le ((1000000 - rate good total) * 1000000) (1000000 - target) ltac:(lia)). nia.
    + apply Z.div_le_lower_bound; lia.
Qed.

Lemma window_counts w :
  validate_window w = Ok () →
  TelemetryIdentifier_ok (sw_window_id w) = true ∧ 0 ≤ sw_event_count w ∧
  0 ≤ sw_success_count w ≤ sw_event_count w ∧ 0 ≤ sw_verified_count w ≤ sw_event_count w ∧
  0 ≤ sw_latency_compliant_count w ≤ sw_event_count w ∧ sw_latency_compliant_count w ≤ sw_latency_sample_count w.
Proof.
  unfold validate_window. rewrite !raise_if_then, raise_if_ok. cbn [forallb]. unfold between.
  intros (Hf & H1 & H2 & H3 & H4 & H5). boolify. split_and!; first [done|lia].
Qed.

(** The report of a window, in one piece. *)
Definition report_of (w : SLOWindow) (ta tv tl : Z) : SLOReport := {|
  sr_window := w; sr_availability_ppm := rate (sw_success_count w) (sw_event_count w);
  sr_verified_rate_ppm := rate (sw_verified_count w) (sw_event_count w);
  sr_latency_compliance_ppm := rate (sw_latency_compliant_count w) (sw_event_count w);
  sr_availability_burn_rate_ppm := burn (rate (sw_success_count w) (sw_event_count w)) ta;
  sr_verified_rate_burn_rate_ppm := burn (rate (sw_verified_count w) (sw_event_count w)) tv;
  sr_latency_burn_rate_ppm := burn (rate (sw_latency_compliant_count w) (sw_event_count w)) tl;
  sr_target_availability_ppm := ta; sr_target_verified_rate_ppm := tv; sr_target_latency_compliance_ppm := tl |}.

Lemma calculate_ok w ta tv tl :
  validate_window w = Ok () →
  is_ok (calculate_slo w ta tv tl) = true ↔ (0 ≤ ta ≤ 1000000 ∧ 0 ≤ tv ≤ 1000000 ∧ 0 ≤ tl ≤ 1000000).
Proof.
  intros (_ & _ & Hs & Hv & Hl & _)%window_counts. unfold calculate_slo, validate_target, between.
  destruct ((0 <=? ta) && (ta <=? 1000000)) eqn:Ea; [|split; [done|lia]].
  cbn [negb raise_if mbind result_bind].
  destruct ((0 <=? tv) && (tv <=? 1000000)) eqn:Ev; [|split; [done|lia]].
  cbn [negb raise_if mbind result_bind].
  destruct ((0 <=? tl) && (tl <=? 1000000)) eqn:El; [|split; [done|lia]].
  cbn [negb raise_if mbind result_bind].
  split; [lia|]. intros (Hta & Htv & Htl).
  pose proof (rate_bounds _ _ Hs) as Rs. pose proof (rate_bounds _ _ Hv) as Rv. pose proof (rate_bounds _ _ Hl) as Rl.
  pose proof (burn_bounds _ _ Rs Hta). pose proof (burn_bounds _ _ Rv Htv). pose proof (burn_bounds _ _ Rl Htl).
  unfold validate_slo_report. cbn [sr_window sr_availability_ppm sr_verified_rate_ppm sr_latency_compliance_ppm
    sr_availability_burn_rate_ppm sr_verified_rate_burn_rate_ppm sr_latency_burn_rate_ppm sr_target_availability_ppm
    sr_target_verified_rate_ppm sr_target_latency_compliance_ppm forallb]. unfold between.
  rewrite !bool_decide_true by done. rewrite !(proj2 (Z.leb_le _ _)) by lia. done.
Qed.

Lemma calculate_report w ta tv tl r : calculate_slo w ta tv tl = Ok r → r = report_of w ta tv tl.
Proof.
  unfold calculate_slo. by intros ([] & _ & ([] & _ & ([] & _ & ([] & _ & [= <-])%bind_ok)%bind_ok)%bind_ok)%bind_ok.
Qed.

Lemma computed_report r :
  computed r →
  0 ≤ worst_burn r ≤ INT_MAX ∧ TelemetryIdentifier_ok (sw_window_id (sr_window r)) = true ∧
  ∀ threshold, 0 ≤ threshold ≤ INT_MAX → threshold ≤ worst_burn r ↔ breached threshold r.
Proof.
  intros [Hw Hc]. pose proof (f_equal is_ok Hc) as Hok. apply (calculate_ok _ _ _ _ Hw) in Hok as (Ha & Hv & Hl).
  apply calculate_report in Hc. pose proof (window_counts _ Hw) as (Hid & _ & Cs & Cv & Cl & _).
  unfold breached. rewrite Hc. cbn [report_of sr_window sr_target_availability_ppm sr_target_verified_rate_ppm
    sr_target_latency_compliance_ppm]. unfold worst_burn. cbn [report_of sr_availability_burn_rate_ppm
    sr_verified_rate_burn_rate_ppm sr_latency_burn_rate_ppm].
  pose proof (burn_bounds _ _ (rate_bounds _ _ Cs) Ha). pose proof (burn_bounds _ _ (rate_bounds _ _ Cv) Hv).
  pose proof (burn_bounds _ _ (rate_bounds _ _ Cl) Hl). split; [lia|]. split; [done|]. intros threshold Hth.
  rewrite <-!burn_exceeded by done. lia.
Qed.

(** ** Lemmas on text *)

Lemma identifier_start_char c : identifier_start c = true → identifier_char c = true.
Proof. unfold identifier_char. by intros ->. Qed.

Lemma identifier_no_space c : identifier_char c = true → is_space c = false.
Proof.
  unfold identifier_char, identifier_start, is_lower, is_upper, is_digit, is_sep, is_space.
  destruct c as [[] [] [] [] [] [] [] []]; vm_compute; done.
Qed.

Lemma identifier_chars s : identifier_pattern s = true → forall_chars identifier_char s = true ∧ 1 ≤ len s ≤ 128.
Proof.
  destruct s as [|c s]; [done|]. cbn [identifier_pattern forall_chars]. rewrite !andb_true_iff.
  intros [[Hc Hs] Hl]. rewrite Hs, identifier_start_char by done. unfold len in *. cbn [String.length]. lia.
Qed.

Lemma pattern_identifier s : identifier_pattern s = true → TelemetryIdentifier_ok s = true.
Proof.
  intros Hs. unfold TelemetryIdentifier_ok. rewrite Hs, bool_decide_true; [done|].
  apply strip_plain. eapply forall_chars_impl; [|by apply identifier_chars]. intros c Hc.
  by rewrite identifier_no_space.
Qed.

Lemma hex_identifier c : is_hex c = true → identifier_char c = true.
Proof. destruct c as [[] [] [] [] [] [] [] []]; vm_compute; done. Qed.

Lemma digest_identifier s : Digest_ok s = true → identifier_pattern s = true.
Proof.
  intros (h & -> & Hn & Hh)%digest_shape. unfold identifier_pattern. change ("sha256:" +:+ h) with (String "s" ("ha256:" +:+ h)).
  rewrite !andb_true_iff. split_and!; [done| |apply Z.leb_le; unfold len; rewrite length_append, Hn; vm_compute; discriminate].
  change (forall_chars identifier_char h = true). by rewrite (forall_chars_impl is_hex identifier_char h hex_identifier Hh).
Qed.

(** ** What leaves the process *)

(** Whether the character before the rest of a text is a word character. *)
Fixpoint after_word_char (before : bool) (pre : string) : bool :=
  match pre with
  | EmptyString => before
  | String c pre' => after_word_char (word_char c) pre'
  end.

Definition credential_words : list string :=
  ["password"; "secret"; "token"; "cookie"; "apikey"; "api_key"; "api-key"].

(** A text that names a credential: one of the words, in any letter case and not inside a longer
    word, with a colon after it. *)
Definition names_credential (s : string) : Prop :=
  ∃ pre word rest, s = pre +:+ word +:+ String ":" rest ∧ lower word ∈ credential_words ∧
    after_word_char false pre = false.

Definition bounded_scalar (v : TelemetryScalar) : Prop :=
  match v with
  | TStr s => forall_chars identifier_char s = true ∧ 1 ≤ len s ≤ 128 ∧ ¬ names_credential s
  | TInt z => - 2 ^ 63 ≤ z ≤ INT_MAX
  | TBool _ => True
  end.

(** No part of a key is a word of a secret or of a payload, in any letter case. *)
Definition harmless_key (key : string) : Prop := ∀ w, w ∈ unsafe_words → contains w (lower key) = false.

Definition bounded_attributes (allowed : list string) (l : list (string * TelemetryScalar)) : Prop :=
  (length l ≤ 16)%nat ∧ ∀ k v, (k, v) ∈ l → k ∈ allowed ∧ harmless_key k ∧ bounded_scalar v.

Record payload_free (r : TelemetryRecord) : Prop := {
  pf_name : te_name r ∈ signal_names (te_signal r);
  pf_attributes : bounded_attributes (signal_attributes (te_signal r)) (te_attributes r);
  pf_resource : bounded_attributes RESOURCE_ATTRIBUTE_ALLOWLIST (te_resource_attributes r);
  pf_value : ∀ z, te_value r = Some (inl z) → - 2 ^ 63 ≤ z ≤ INT_MAX;
  pf_utc : dt_offset (te_occurred_at r) = Some 0 }.

Lemma after_word_app word rest : after_word (lower word) (word +:+ rest) = Some rest.
Proof.
  induction word as [|c word IH]; [by destruct rest|].
  change ((if bool_decide (to_lower c = to_lower c) then after_word (lower word) (word +:+ rest) else None) = Some rest).
  by rewrite bool_decide_true.
Qed.

Lemma secret_assignment_first s : secret_assignment_here s = true → secret_assignment false s = true.
Proof.
  intros Hh. assert (secret_assignment false s = (negb false && secret_assignment_here s)
    || match s with String c s' => secret_assignment (word_char c) s' | EmptyString => false end) as -> by by destruct s.
  by rewrite Hh.
Qed.

(** The pattern finds every credential. *)
Lemma secret_assignment_finds pre word rest before :
  lower word ∈ credential_words → after_word_char before pre = false →
  secret_assignment before (pre +:+ word +:+ String ":" rest) = true.
Proof.
  intros Hw. revert before. induction pre as [|c pre IH]; intros before; cbn [after_word_char String.append].
  - intros ->. assert (secret_assignment_here (word +:+ String ":" rest) = true) as Hh.
    { unfold secret_assignment_here. apply orb_true_iff. right. apply existsb_exists. exists (lower word).
      split; [by apply list_elem_of_In|]. by rewrite after_word_app. }
    change (secret_assignment false (word +:+ String ":" rest) = true). by apply secret_assignment_first.
  - intros Ha. cbn [secret_assignment]. apply orb_true_iff. right. by apply IH.
Qed.

Lemma no_credential s : secret_value s = false → ¬ names_credential s.
Proof.
  intros Hs (pre & word & rest & -> & Hw & Hp). unfold secret_value in Hs.
  by rewrite secret_assignment_finds in Hs.
Qed.

Lemma scalar_bounded v : scalar_ok v = true → bounded_scalar v.
Proof.
  destruct v as [s|z|b]; cbn [scalar_ok bounded_scalar]; [| |done].
  - intros [Hv Hs%negb_true_iff]%andb_true_iff. unfold valid_scalar_string in Hv.
    assert (identifier_pattern s = true) as Hi
      by (apply orb_true_iff in Hv as [Hv|Hv]; [by apply digest_identifier|done]).
    apply identifier_chars in Hi as [? ?]. split_and!; [done|lia|lia|by apply no_credential].
  - unfold bounded_int, between. intros Hz. boolify. split; assumption.
Qed.

(** The words do not occur in a key the pattern lets pass. *)
Lemma prefix_after_word w s : String.prefix w (lower s) = negb (is_none (after_word w s)).
Proof.
  revert s. induction w as [|a w IH]; intros s; [by destruct s|]. destruct s as [|c s]; [done|].
  cbn [lower String.prefix after_word]. destruct (ascii_dec a (to_lower c)) as [<-|Hne].
  - by rewrite bool_decide_true.
  - by rewrite bool_decide_false by congruence.
Qed.

Lemma safe_key_harmless key : unsafe_key key = false → harmless_key key.
Proof.
  unfold unsafe_key, harmless_key. generalize unsafe_words as words. intros words Hk w Hw.
  induction key as [|c key IH]; cbn [search_words lower contains] in *.
  - apply orb_false_iff in Hk as [Hk _]. rewrite existsb_elem_false in Hk. specialize (Hk _ Hw).
    by rewrite <-prefix_after_word in Hk; cbn [lower] in Hk; rewrite Hk.
  - apply orb_false_iff in Hk as [Hk Hrest]. rewrite existsb_elem_false in Hk. specialize (Hk _ Hw). cbv beta in Hk.
    rewrite <-prefix_after_word in Hk. cbn [lower] in Hk. rewrite Hk. by apply IH.
Qed.

(** No allowlisted key is one the pattern refuses: the allowlists alone keep such keys out. *)
Lemma allowlisted_keys_safe : forallb (λ k, negb (unsafe_key k)) ATTRIBUTE_ALLOWLIST = true.
Proof. vm_compute. reflexivity. Qed.

Lemma validate_values_ok allowed l :
  validate_attribute_values allowed l = Ok () → ∀ k v, (k, v) ∈ l → k ∈ allowed ∧ harmless_key k ∧ bounded_scalar v.
Proof.
  induction l as [|[key item] l IH]; [by intros _ k v ?%elem_of_nil|]. cbn [validate_attribute_values].
  rewrite !raise_if_then. intros (Hk & Hi & Hl) k v [[= -> ->]|Hin]%elem_of_cons; [|by apply IH].
  apply orb_false_iff in Hk as [Hk Hu]. apply negb_false_iff in Hk, Hi.
  split_and!; [by apply mem_true|by apply safe_key_harmless|by apply scalar_bounded].
Qed.

Lemma instant_utc d : instant (utc d) = instant d.
Proof. unfold instant at 1, utc. cbn [dt_local dt_offset default]. apply Z.sub_0_r. Qed.

Section emitted.
Context `{Sha256, FloatRepr}.

Lemma validated_free r : validate_record r = Ok () → payload_free (in_utc r).
Proof.
  unfold validate_record. rewrite !raise_if_then. intros (Hf & Hn & ([] & Ha & ([] & Hr & Hrest)%bind_ok)%bind_ok).
  rewrite !raise_if_then in Hrest. destruct Hrest as (Hs & Hname & Hv & _).
  pose proof (validate_values_ok _ _ Ha) as Ha'. pose proof (validate_values_ok _ _ Hr) as Hr'.
  unfold max_length in Hf. rewrite existsb_elem_false in Hs. boolify.
  split; cbn [in_utc te_signal te_name te_attributes te_resource_attributes te_value te_occurred_at utc dt_offset].
  - by apply mem_true.
  - split; [lia|]. intros k v Hkv. split; [|by apply (Ha' k)]. specialize (Hs _ Hkv).
    apply negb_false_iff in Hs. by apply mem_true.
  - split; [lia|]. apply Hr'.
  - intros z Hz. rewrite Hz in Hv. unfold bounded_int, between in Hv. boolify. split; assumption.
  - done.
Qed.

Lemma in_utc_valid r : validate_record r = Ok () → validate_record (in_utc r) = Ok ().
Proof.
  unfold validate_record. rewrite !raise_if_then. intros (Hf & Hn & Hrest).
  cbn [in_utc te_signal te_name te_attributes te_resource_attributes te_value te_occurred_at te_record_digest].
  split_and!; [exact Hf|done|].
  assert (telemetry_record_json (in_utc r) = telemetry_record_json r) as ->; [|exact Hrest].
  unfold telemetry_record_json. cbn [in_utc te_signal te_name te_attributes te_resource_attributes te_value te_occurred_at].
  by rewrite instant_utc.
Qed.

(** ** Properties *)

(** C28. Whatever attributes, name and value a caller passes, the exporter gets at most one
    record, a valid one in UTC, that carries a fixed signal name, at most 16 attributes of each
    kind, each allowlisted for its signal (and so under harmless keys, [allowlisted_keys_safe]),
    and only booleans, 64-bit integers and short identifier-like strings in which no credential
    word stands by itself before a colon (one joined to a longer word passes,
    [joined_credentials_pass]); a refused call exports nothing, and what a traceback of an error
    shows is its fixed text alone, whatever the validator or the exporter raised. *)
Theorem telemetry_payload_free export signal name attributes resources value occurred_at given outcome :
  emit export signal name attributes resources value occurred_at = (given, outcome) →
  (given = [] ∧ ∃ e, outcome = Err e ∧ fl_code e = "invalid_telemetry" ∧
     shown (fl_exception e) = ["Telemetry record is invalid"]) ∨
  (∃ record, given = [record] ∧ validate_record record = Ok () ∧ payload_free record ∧ te_signal record = signal ∧
     te_name record = name ∧ instant (te_occurred_at record) = instant occurred_at ∧
     match export record with
     | None => outcome = Ok record
     | Some _ => ∃ e, outcome = Err e ∧ fl_code e = "telemetry_export_failed" ∧
         shown (fl_exception e) = ["Telemetry export failed"]
     end).
Proof.
  unfold emit. destruct (issue_record _) as [record|] eqn:Hi; intros [= <- <-]; [|left; split; [done|by eexists]].
  right. exists record. unfold issue_record in Hi. apply bind_ok in Hi as ([] & Hv & <-%Ok_inj).
  split_and!; try done; [by apply in_utc_valid|by apply validated_free|apply instant_utc|].
  destruct (export _); [by eexists|done].
Qed.

(** C29. A report exists for every valid window and every target up to one million, whatever
    the 64-bit counts; its rates are the exact proportions rounded down, zero for an empty
    window, and its burn rates stay within 64 bits. *)
Theorem slo_report_bounds w ta tv tl :
  validate_window w = Ok () →
  (is_ok (calculate_slo w ta tv tl) = true ↔ (0 ≤ ta ≤ 1000000 ∧ 0 ≤ tv ≤ 1000000 ∧ 0 ≤ tl ≤ 1000000)) ∧
  ∀ r, calculate_slo w ta tv tl = Ok r →
    0 ≤ worst_burn r ≤ INT_MAX ∧
    Forall (λ p : Z * Z, 0 ≤ p.1 ≤ 1000000 ∧
      (sw_event_count w = 0 → p.1 = 0) ∧
      (sw_event_count w ≠ 0 → p.1 * sw_event_count w ≤ p.2 * 1000000 < (p.1 + 1) * sw_event_count w))
      [(sr_availability_ppm r, sw_success_count w); (sr_verified_rate_ppm r, sw_verified_count w);
       (sr_latency_compliance_ppm r, sw_latency_compliant_count w)].
Proof.
  intros Hw. split; [by apply calculate_ok|]. intros r Hr. pose proof (calculate_report _ _ _ _ _ Hr) as ->.
  destruct (computed_report (report_of w ta tv tl) (conj Hw Hr)) as [Hb _]. split; [done|].
  pose proof (window_counts _ Hw) as (_ & _ & Cs & Cv & Cl & _).
  assert (∀ good, 0 ≤ good ≤ sw_event_count w →
    0 ≤ rate good (sw_event_count w) ≤ 1000000 ∧ (sw_event_count w = 0 → rate good (sw_event_count w) = 0) ∧
    (sw_event_count w ≠ 0 → rate good (sw_event_count w) * sw_event_count w ≤ good * 1000000
       < (rate good (sw_event_count w) + 1) * sw_event_count w)) as Hrate.
  { intros good Hg. split_and!; [by apply rate_bounds..| |by apply rate_exact]. by intros ->. }
  rewrite !Forall_cons. cbn [fst snd]. split_and!; try by apply Hrate. by apply Forall_nil_2.
Qed.

Lemma issue_alert_ok `{!Sha256Laws} name alert reason short long b threshold :
  TelemetryIdentifier_ok name = true → TelemetryIdentifier_ok short = true → TelemetryIdentifier_ok long = true →
  0 ≤ b ≤ INT_MAX → 0 ≤ threshold ≤ INT_MAX → alert = negb (within_budget reason) →
  (reason = BURN_RATE_EXCEEDED → threshold ≤ b) →
  ∃ d, issue_alert name alert reason short long b threshold = Ok d ∧ sd_alert d = alert ∧ sd_reason_code d = reason ∧
    sd_slo_name d = name ∧ sd_threshold_ppm d = threshold ∧ sd_burn_rate_ppm d = b ∧ validate_alert d = Ok ().
Proof.
  intros Hn Hs Hl Hb Ht Ha Hr. unfold issue_alert.
  match goal with |- context [validate_alert ?m] => assert (validate_alert m = Ok ()) as Hv end.
  { unfold validate_alert. cbn [sd_slo_name sd_alert sd_reason_code sd_short_window_id sd_long_window_id
      sd_burn_rate_ppm sd_threshold_ppm sd_decision_digest]. unfold between.
    rewrite Hn, Hs, Hl, value_digest_ok, Ha. rewrite !(proj2 (Z.leb_le _ _)) by lia.
    rewrite (bool_decide_true (value_digest _ = _)) by done. cbn [negb andb raise_if mbind result_bind].
    rewrite negb_involutive. replace (negb _ && within_budget reason) with false by (by destruct (within_budget reason)).
    replace (within_budget reason && negb _) with false by (by destruct (within_budget reason)).
    cbn [raise_if mbind result_bind]. destruct (bool_decide _) eqn:E; [|done]. apply bool_decide_eq_true in E.
    by rewrite (proj2 (Z.ltb_ge _ _)) by auto. }
  rewrite Hv. by eexists.
Qed.

(** The range checks of an alert. *)
Definition alert_inputs_ok (name : string) (threshold minimum : option Z) : bool :=
  match threshold, minimum with
  | Some t, Some m => identifier_pattern name && between 0 t INT_MAX && between 0 m INT_MAX
  | _, _ => false
  end.

Lemma alert_inputs_spec name threshold minimum :
  (identifier_pattern name = true ∧
   ∃ t m, threshold = Some t ∧ minimum = Some m ∧ 0 ≤ t ≤ INT_MAX ∧ 0 ≤ m ≤ INT_MAX) ↔
  alert_inputs_ok name threshold minimum = true.
Proof.
  unfold alert_inputs_ok, between. split.
  - intros (-> & t & m & -> & -> & Ht & Hm). rewrite !(proj2 (Z.leb_le _ _)) by lia. done.
  - destruct threshold as [t|]; [|done]. destruct minimum as [m|]; [|done]. intros Hb. boolify.
    split; [done|]. exists t, m. split_and!; done || lia.
Qed.

Lemma evaluate_invalid name short long threshold minimum :
  alert_inputs_ok name threshold minimum = false →
  evaluate_slo_alert name short long threshold minimum
  = issue_alert "invalid" true INVALID_WINDOW (sw_window_id (sr_window short)) (sw_window_id (sr_window long))
      INT_MAX (safe_threshold threshold).
Proof.
  unfold evaluate_slo_alert, alert_inputs_ok. destruct threshold as [t|]; [|done]. destruct minimum as [m|]; [|done].
  by intros ->.
Qed.

Lemma evaluate_valid name short long t m :
  alert_inputs_ok name (Some t) (Some m) = true →
  evaluate_slo_alert name short long (Some t) (Some m)
  = (let short_id := sw_window_id (sr_window short) in
     let long_id := sw_window_id (sr_window long) in
     let b := calculate_multi_window_burn_rate short long in
     if (sw_event_count (sr_window short) <? m) || (sw_event_count (sr_window long) <? m)
     then issue_alert name true INSUFFICIENT_SAMPLES short_id long_id b t
     else if (t <=? worst_burn short) && (t <=? worst_burn long)
     then issue_alert name true BURN_RATE_EXCEEDED short_id long_id b t
     else issue_alert name false WITHIN_BUDGET short_id long_id b t).
Proof. unfold evaluate_slo_alert, alert_inputs_ok. intros ->. cbn [negb].
  destruct (_ || _); [done|]. by destruct (_ && _). Qed.

(** The alert decision always exists for computed reports, and it alerts exactly when the
    inputs are out of range, when a window has too few events, or when both windows are over
    the threshold in exact arithmetic; the reason says which, and nothing else is quiet. *)
Theorem slo_alert_exact `{!Sha256Laws} name short long threshold minimum :
  computed short → computed long →
  let in_range := identifier_pattern name = true ∧ ∃ t m, threshold = Some t ∧ minimum = Some m ∧
    0 ≤ t ≤ INT_MAX ∧ 0 ≤ m ≤ INT_MAX in
  let sampled := ∀ m, minimum = Some m →
    m ≤ sw_event_count (sr_window short) ∧ m ≤ sw_event_count (sr_window long) in
  let both := ∀ t, threshold = Some t → breached t short ∧ breached t long in
  ∃ d, evaluate_slo_alert name short long threshold minimum = Ok d ∧ validate_alert d = Ok () ∧
    (sd_reason_code d = INVALID_WINDOW ↔ ¬ in_range) ∧
    (sd_reason_code d = INSUFFICIENT_SAMPLES ↔ in_range ∧ ¬ sampled) ∧
    (sd_reason_code d = BURN_RATE_EXCEEDED ↔ in_range ∧ sampled ∧ both) ∧
    (sd_alert d = false ↔ in_range ∧ sampled ∧ ¬ both).
Proof.
  intros Hs Hl in_range sampled both.
  pose proof (computed_report _ Hs) as (Bs & Is & Es). pose proof (computed_report _ Hl) as (Bl & Il & El).
  assert (0 ≤ safe_threshold threshold ≤ INT_MAX) as Hsafe.
  { unfold safe_threshold. rewrite INT_MAX_value. lia. }
  assert (in_range ↔ alert_inputs_ok name threshold minimum = true) as Hr by apply alert_inputs_spec.
  clearbody in_range. setoid_rewrite Hr. clear Hr in_range. destruct (alert_inputs_ok name threshold minimum) eqn:Hin.
  2: { rewrite evaluate_invalid by done.
       destruct (issue_alert_ok "invalid" true INVALID_WINDOW (sw_window_id (sr_window short))
         (sw_window_id (sr_window long)) INT_MAX (safe_threshold threshold)) as (d & -> & Ha & Hc & _ & _ & _ & Hv);
         try done. exists d. rewrite Ha, Hc. split_and!; try done; intuition congruence. }
  apply alert_inputs_spec in Hin as Hb. destruct Hb as (Hn & t & m & -> & -> & Ht & Hm).
  assert (sampled ↔ m ≤ sw_event_count (sr_window short) ∧ m ≤ sw_event_count (sr_window long)) as Hsam.
  { unfold sampled. split; [by intros H2; apply H2|]. by intros H2 ? [= <-]. }
  assert (both ↔ t ≤ worst_burn short ∧ t ≤ worst_burn long) as Hboth.
  { rewrite Es, El by done. unfold both. split; [by intros H2; apply H2|]. by intros H2 ? [= <-]. }
  clearbody sampled both. setoid_rewrite Hsam. setoid_rewrite Hboth. clear Hsam Hboth sampled both. rewrite evaluate_valid by done. cbv zeta.
  assert (0 ≤ calculate_multi_window_burn_rate short long ≤ INT_MAX) as Hmin
    by (unfold calculate_multi_window_burn_rate; lia).
  pose proof (pattern_identifier _ Hn) as Hid.
  destruct (_ || _) eqn:Esam.
  { apply orb_true_iff in Esam. rewrite !Z.ltb_lt in Esam.
    destruct (issue_alert_ok name true INSUFFICIENT_SAMPLES (sw_window_id (sr_window short))
      (sw_window_id (sr_window long)) (calculate_multi_window_burn_rate short long) t)
      as (d & -> & Ha & Hc & _ & _ & _ & Hv); try done.
    exists d. rewrite Ha, Hc. split_and!; try done; intuition (congruence || lia). }
  apply orb_false_iff in Esam. rewrite !Z.ltb_ge in Esam.
  destruct (_ && _) eqn:Ebr.
  - apply andb_true_iff in Ebr. rewrite !Z.leb_le in Ebr.
    destruct (issue_alert_ok name true BURN_RATE_EXCEEDED (sw_window_id (sr_window short))
      (sw_window_id (sr_window long)) (calculate_multi_window_burn_rate short long) t)
      as (d & -> & Ha & Hc & _ & _ & _ & Hv); try done.
    { intros _. unfold calculate_multi_window_burn_rate. lia. }
    exists d. rewrite Ha, Hc. split_and!; try done; intuition (congruence || lia).
  - apply andb_false_iff in Ebr. rewrite !Z.leb_gt in Ebr.
    destruct (issue_alert_ok name false WITHIN_BUDGET (sw_window_id (sr_window short))
      (sw_window_id (sr_window long)) (calculate_multi_window_burn_rate short long) t)
      as (d & -> & Ha & Hc & _ & _ & _ & Hv); try done.
    exists d. rewrite Ha, Hc. split_and!; try done; intuition (congruence || lia).
Qed.

End emitted.

(** ** Witnesses *)

#[local] Existing Instances distinct_sha256 distinct_sha256_laws example_float_repr.

Definition example_window (id : string) (events success : Z) : SLOWindow := {|
  sw_window_id := id; sw_event_count := events; sw_success_count := success; sw_verified_count := success;
  sw_latency_compliant_count := success; sw_latency_sample_count := success; sw_latency_total_ms := 12;
  sw_window_seconds := 300 |}.
Definition example_report (id : string) (events success target : Z) : SLOReport :=
  report_of (example_window id events success) target target target.

Lemma example_computed :
  computed (example_report "short" 1000 990 999000) ∧ computed (example_report "long" 10000 9990 999000).
Proof. repeat split; vm_compute; reflexivity. Qed.

Lemma slo_report_bounds_witness :
  0 ≤ worst_burn (example_report "short" 1000 990 999000) ≤ INT_MAX ∧
  worst_burn (example_report "short" 1000 990 999000) = 10000000.
Proof.
  split; [|vm_compute; reflexivity].
  destruct (slo_report_bounds (example_window "short" 1000 990) 999000 999000 999000) as [_ H].
  - vm_compute. reflexivity.
  - apply (H (example_report "short" 1000 990 999000)). vm_compute. reflexivity.
Defined.

Lemma slo_alert_exact_witness :
  ∃ d, evaluate_slo_alert "tracking" (example_report "short" 1000 990 999000)
         (example_report "long" 10000 9990 999000) (Some 2000000) (Some 1) = Ok d ∧ validate_alert d = Ok () ∧
    sd_alert d = false.
Proof.
  destruct (slo_alert_exact "tracking" (example_report "short" 1000 990 999000)
    (example_report "long" 10000 9990 999000) (Some 2000000) (Some 1)) as (d & Hd & Hv & _).
  - apply example_computed.
  - apply example_computed.
  - exists d. split; [exact Hd|]. split; [exact Hv|]. vm_compute in Hd. apply Ok_inj in Hd. rewrite <-Hd. reflexivity.
Defined.

Definition midnight : Datetime := {| dt_local := 3600000000; dt_offset := Some 3600000000 |}.
Definition example_emission (v : string) : list TelemetryRecord * result TelemetryError TelemetryRecord :=
  emit (λ _, None) METRIC "cargomesh.transaction.total" (Some [("tenant.id", TStr v)]) None (Some (inl 1)) midnight.

(** An exporter whose exception quotes what it was doing. *)
Definition talkative (record : TelemetryRecord) : option PyException :=
  Some (PyExc "POST https://collector/v1 failed" (Some (PyExc "token: abc" None None false)) None false).
Definition failing_emission : list TelemetryRecord * result TelemetryError TelemetryRecord :=
  emit talkative METRIC "cargomesh.transaction.total" (Some [("tenant.id", TStr "tenant-1")]) None (Some (inl 1)) midnight.

Lemma telemetry_payload_free_witness :
  ∃ record e, failing_emission.1 = [record] ∧ payload_free record ∧ failing_emission.2 = Err e ∧
    shown (fl_exception e) = ["Telemetry export failed"].
Proof.
  destruct (telemetry_payload_free talkative METRIC "cargomesh.transaction.total" (Some [("tenant.id", TStr "tenant-1")])
    None (Some (inl 1)) midnight failing_emission.1 failing_emission.2)
    as [[H _]|(record & Hg & _ & Hp & _ & _ & _ & e & He & _ & Hs)].
  - vm_compute. reflexivity.
  - exfalso. vm_compute in H. discriminate H.
  - exists record, e. exact (conj Hg (conj Hp (conj He Hs))).
Defined.

(** [from None] only suppresses the display: the exporter's exception stays reachable as the
    context of the error. *)
Example exporter_details_attached :
  match failing_emission.2 with
  | Err e => match fl_exception e with PyExc _ _ context _ => option_map shown context end
             = Some ["token: abc"; "POST https://collector/v1 failed"]
  | Ok _ => False
  end.
Proof. vm_compute. reflexivity. Qed.

Example refused_values :
  map (λ v, is_ok (example_emission v).2) ["token:abc"; "bearer"; "https://carrier.example"; "two words"; "a=b"]
  = [false; true; false; false; false].
Proof. vm_compute. reflexivity. Qed.

(** The word boundary of the secret pattern does not fall between an underscore and a word, so
    a credential named like that passes where [token:abc] is refused. *)
Example joined_credentials_pass :
  map (λ v, is_ok (example_emission v).2) ["access_token:abc"; "client_secret:abc"; "x_api_key:abc"]
  = [true; true; true].
Proof. vm_compute. reflexivity. Qed.

(** With no minimum of events, windows without a single event are within budget when the
    targets leave a budget of more than half. *)
Example empty_windows_quiet :
  match evaluate_slo_alert "tracking" (example_report "short" 0 0 400000) (example_report "long" 0 0 400000)
          (Some 2000000) (Some 0) with
  | Ok d => sd_alert d = false ∧ sd_reason_code d = WITHIN_BUDGET
  | Err _ => False
  end.
Proof. vm_compute. split; reflexivity. Qed.
