(* ===== verification/Usage.v ===== *)
(** * Usage metering (platform/usage.py)

    Meter records and the SQLite meter that turns verified reports into them.  A row keeps the
    decoded record under its primary key; rows of a database written by someone else are not
    modelled.  Every exception of an operation is handled and rolls back, so an operation
    either commits or changes nothing. *)

From S2P Require Import Prelude.
From S2P Require Import Contracts.
From S2P Require Import Verification.
From S2P Require Import Sqlite.

Inductive UsageError :=
| UsageErr (code : string)
| UsageConflict.

Record MeterRecord := {
  mt_tenant_id : string;
  mt_environment_id : string;
  mt_transaction_id : string;
  mt_capability_digest : string;
  mt_verification_report_digest : string;
  mt_units : Z;
  mt_meter_digest : string }.

#[export] Instance MeterRecord_eq_dec : EqDecision MeterRecord.
Proof. solve_decision. Defined.

Definition meter_json (m : MeterRecord) : json := JObj [
  ("tenant_id", JStr (mt_tenant_id m)); ("environment_id", JStr (mt_environment_id m));
  ("transaction_id", JStr (mt_transaction_id m)); ("capability_digest", JStr (mt_capability_digest m));
  ("verification_report_digest", JStr (mt_verification_report_digest m)); ("units", JInt (mt_units m))].

Definition meter_scope (m : MeterRecord) : string * string * string :=
  (mt_tenant_id m, mt_environment_id m, mt_transaction_id m).

Record UsageMeter := {
  um_closed : bool;
  um_rows : gmap (string * string * string) MeterRecord }.
Definition empty_meter : UsageMeter := {| um_closed := false; um_rows := ∅ |}.

Section meter.
Context `{Sha256, FloatRepr}.

(** The fields and [validate_digest]; [units] is a strict integer. *)
Definition validate_meter (m : MeterRecord) : result string () :=
  raise_if (negb (Identifier_ok (mt_tenant_id m) && Identifier_ok (mt_environment_id m)
                  && Identifier_ok (mt_transaction_id m) && Digest_ok (mt_capability_digest m)
                  && Digest_ok (mt_verification_report_digest m) && between 1 (mt_units m) (2 ^ 63 - 1)
                  && Digest_ok (mt_meter_digest m))) "field constraint";;
  raise_if (negb (bool_decide (mt_meter_digest m = value_digest (meter_json m))))
    "usage meter digest does not match".

(** [MeterRecord.issue]. *)
Definition issue_meter (tenant_id environment_id transaction_id capability_digest report_digest : string)
    (units : Z) : result string MeterRecord :=
  let unsigned digest := {| mt_tenant_id := tenant_id; mt_environment_id := environment_id;
    mt_transaction_id := transaction_id; mt_capability_digest := capability_digest;
    mt_verification_report_digest := report_digest; mt_units := units; mt_meter_digest := digest |} in
  let m := unsigned (value_digest (meter_json (unsigned EmptyString))) in
  validate_meter m;; Ok m.

Definition ensure_open (u : UsageMeter) : result UsageError () := raise_if (um_closed u) (UsageErr "usage_store_closed").

(** The checks of [record] before its transaction; the report is validated again. *)
Definition billable (report : VerificationReport) (transaction_id : string) : result UsageError () :=
  revalidate (validate_report report) (UsageErr "verification_report_invalid");;
  raise_if (negb (is_verdict (rp_verdict report) VERIFIED)) (UsageErr "usage_not_verified");;
  raise_if (rp_synthetic report || existsb rs_synthetic (rp_evidence report)) (UsageErr "usage_synthetic_not_billable");;
  raise_if (negb (bool_decide (rp_transaction_id report = transaction_id))) (UsageErr "usage_scope_mismatch").

(** [SELECT ... WHERE verification_report_digest=?], a [UNIQUE] column. *)
Definition row_of_report (rows : gmap (string * string * string) MeterRecord) (digest : string) : option MeterRecord :=
  head (filter (λ m, mt_verification_report_digest m = digest) (map_to_list rows).*2).

(** The transaction of [record]. *)
Definition record_body (m : MeterRecord) (rows : gmap (string * string * string) MeterRecord)
    : result UsageError (gmap (string * string * string) MeterRecord * MeterRecord) :=
  match row_of_report rows (mt_verification_report_digest m) with
  | Some existing => raise_if (negb (bool_decide (existing = m))) UsageConflict;; Ok (rows, existing)
  | None =>
      match rows !! meter_scope m with
      | Some existing => raise_if (negb (bool_decide (existing = m))) UsageConflict;; Ok (rows, existing)
      | None => Ok (<[meter_scope m := m]> rows, m)
      end
  end.

(** [record]. *)
Definition record_usage (report : VerificationReport)
    (tenant_id environment_id transaction_id capability_digest : string) (units : Z) (u : UsageMeter)
    : UsageMeter * result UsageError MeterRecord :=
  match
    ensure_open u;;
    billable report transaction_id;;
    escaping (λ _, UsageErr "usage_meter_invalid")
      (issue_meter tenant_id environment_id transaction_id capability_digest (rp_report_digest report) units)
  with
  | Err e => (u, Err e)
  | Ok m =>
      match record_body m (um_rows u) with
      | Ok (rows, m') => ({| um_closed := um_closed u; um_rows := rows |}, Ok m')
      | Err e => (u, Err e)
      end
  end.

(** [get]. *)
Definition get_usage (tenant_id environment_id transaction_id : string) (u : UsageMeter)
    : result UsageError (option MeterRecord) :=
  ensure_open u;; Ok (um_rows u !! (tenant_id, environment_id, transaction_id)).

(** [close]. *)
Definition close_meter (u : UsageMeter) : UsageMeter := {| um_closed := true; um_rows := um_rows u |}.

(** ** Histories of calls *)

Inductive meter_step : UsageMeter → UsageMeter → Prop :=
| step_record report tenant_id environment_id transaction_id capability_digest units u u' x :
    record_usage report tenant_id environment_id transaction_id capability_digest units u = (u', x) → meter_step u u'
| step_close u : meter_step u (close_meter u).

Definition meter_reachable (u : UsageMeter) : Prop := star meter_step empty_meter u.

(** What justifies a meter record: a valid report of its transaction with nothing synthetic,
    in which every claim matched at the required level, on evidence. *)
Definition justified (m : MeterRecord) (report : VerificationReport) : Prop :=
  validate_report report = Ok () ∧ rp_verdict report = VERIFIED ∧
  rp_transaction_id report = mt_transaction_id m ∧ rp_report_digest report = mt_verification_report_digest m ∧
  rp_synthetic report = false ∧ (∀ e, e ∈ rp_evidence report → rs_synthetic e = false) ∧
  rp_evidence report ≠ [] ∧ (∀ c, c ∈ rp_claims report → cl_outcome c = MATCH) ∧
  VERIFICATION_RANK (rp_required_level report) ≤ VERIFICATION_RANK (rp_achieved_level report).

Record meter_inv (rows : gmap (string * string * string) MeterRecord) : Prop := {
  mi_scope k m : rows !! k = Some m → k = meter_scope m ∧ validate_meter m = Ok () ∧ ∃ report, justified m report;
  mi_unique k k' m m' : rows !! k = Some m → rows !! k' = Some m' →
    mt_verification_report_digest m = mt_verification_report_digest m' → k = k' }.

(** ** Lemmas *)

Lemma row_of_report_some rows digest m :
  row_of_report rows digest = Some m → mt_verification_report_digest m = digest ∧ ∃ k, rows !! k = Some m.
Proof.
  unfold row_of_report. intros Hh%head_Some_elem_of. apply list_elem_of_filter in Hh as [Hd Hm].
  split; [done|]. apply list_elem_of_fmap in Hm as ([k m'] & -> & Hin). exists k. by apply elem_of_map_to_list.
Qed.

Lemma row_of_report_none rows digest k m :
  row_of_report rows digest = None → rows !! k = Some m → mt_verification_report_digest m ≠ digest.
Proof.
  unfold row_of_report. intros Hh Hm Hd. apply head_None in Hh.
  assert (m ∈ filter (λ m, mt_verification_report_digest m = digest) (map_to_list rows).*2) as Hin; [|by rewrite Hh in Hin; apply elem_of_nil in Hin].
  apply list_elem_of_filter. split; [done|]. apply list_elem_of_fmap. exists (k, m). split; [done|].
  by apply elem_of_map_to_list.
Qed.

Lemma issue_meter_ok tenant environment transaction capability digest units m :
  issue_meter tenant environment transaction capability digest units = Ok m →
  validate_meter m = Ok () ∧ meter_scope m = (tenant, environment, transaction) ∧
  mt_verification_report_digest m = digest ∧ mt_units m = units ∧ mt_capability_digest m = capability.
Proof. unfold issue_meter. by intros ([] & Hv & <-%Ok_inj)%bind_ok. Qed.

Lemma verified_report r :
  validate_report r = Ok () → rp_verdict r = VERIFIED →
  rp_evidence r ≠ [] ∧ (∀ c, c ∈ rp_claims r → cl_outcome c = MATCH) ∧
  VERIFICATION_RANK (rp_required_level r) ≤ VERIFICATION_RANK (rp_achieved_level r).
Proof.
  unfold validate_report. cbv zeta. rewrite !raise_if_then. intros (_ & _ & _ & ([] & Hv & _)%bind_ok) Hver.
  unfold is_verdict in Hv. rewrite Hver, bool_decide_true in Hv by done. rewrite !raise_if_then, raise_if_ok in Hv.
  destruct Hv as (Hr & Hc & He). boolify. split_and!; [done| |lia]. intros c Hc'.
  assert (forallb (is_outcome MATCH) (map cl_outcome (rp_claims r)) = true) as Hall by done.
  rewrite forallb_elem in Hall. specialize (Hall (cl_outcome c)). unfold is_outcome in Hall.
  specialize (Hall ltac:(by apply list_elem_of_fmap_2)). boolify. done.
Qed.

Lemma billable_justified report m transaction :
  billable report transaction = Ok () → mt_transaction_id m = transaction →
  mt_verification_report_digest m = rp_report_digest report → justified m report.
Proof.
  unfold billable. intros ([] & Hv%revalidate_ok & Hb)%bind_ok Ht Hd. rewrite !raise_if_then, raise_if_ok in Hb.
  destruct Hb as (Hver & Hsyn & Htx). unfold is_verdict in Hver. boolify.
  destruct (verified_report report Hv ltac:(done)) as (He & Hc & Hr).
  split_and!; try done; [congruence|]. by apply existsb_elem_false.
Qed.

(** A call adds a justified record of its own arguments or leaves the rows alone. *)
Lemma record_cases report tenant environment transaction capability units u u' x :
  record_usage report tenant environment transaction capability units u = (u', x) →
  um_closed u' = um_closed u ∧
  ((um_rows u' = um_rows u ∧ match x with Ok m => ∃ k, um_rows u !! k = Some m | Err _ => True end) ∨
   ∃ m, x = Ok m ∧ um_rows u' = <[meter_scope m := m]> (um_rows u) ∧ validate_meter m = Ok () ∧ justified m report ∧
     um_rows u !! meter_scope m = None ∧ row_of_report (um_rows u) (mt_verification_report_digest m) = None) ∧
  ∀ m, x = Ok m → um_closed u = false ∧ billable report transaction = Ok () ∧
    issue_meter tenant environment transaction capability (rp_report_digest report) units = Ok m.
Proof.
  unfold record_usage. destruct (ensure_open u;; _) as [m|e] eqn:Hc; [|by intros [= <- <-]; split_and!; auto].
  unfold ensure_open in Hc. apply raise_if_then in Hc as [Ho ([] & Hb & Hi%escaping_ok)%bind_ok].
  pose proof (issue_meter_ok _ _ _ _ _ _ _ Hi) as (Hv & Hs & Hd & _).
  assert (mt_transaction_id m = transaction) as Ht by (unfold meter_scope in Hs; congruence).
  pose proof (billable_justified report m transaction Hb Ht Hd) as Hj.
  unfold record_body. destruct (row_of_report _ _) as [existing|] eqn:Er.
  { case_bool_decide as He; intros [= <- <-]; split_and!; try done; [|by intros ? [= <-]; subst|by left].
    left. split; [done|]. by apply row_of_report_some in Er as [_ ?]. }
  destruct (um_rows u !! meter_scope m) as [existing|] eqn:Es.
  { case_bool_decide as He; intros [= <- <-]; split_and!; try done; [|by intros ? [= <-]; subst|by left].
    left. split; [done|]. by eexists. }
  intros [= <- <-]. split_and!; [done| |by intros ? [= <-]]. right. by exists m.
Qed.

Lemma meter_step_inv u u' : meter_inv (um_rows u) → meter_step u u' → meter_inv (um_rows u').
Proof.
  intros Hi Hs. destruct Hs as [report tenant environment transaction capability units u u' x Hr|u]; [|exact Hi].
  apply record_cases in Hr as (_ & [[-> _]|(m & _ & -> & Hv & Hj & Hn & Hd)] & _); [done|]. split.
  - intros k m' [[<- <-]|[_ Hm]]%lookup_insert_Some; [by eauto|by apply (mi_scope _ Hi)].
  - intros k k' m1 m2 [[<- <-]|[H1 Hm1]]%lookup_insert_Some [[<- <-]|[H2 Hm2]]%lookup_insert_Some He; [done| | |].
    + by apply (row_of_report_none _ _ _ _ Hd) in Hm2.
    + by apply (row_of_report_none _ _ _ _ Hd) in Hm1.
    + by eapply (mi_unique _ Hi).
Qed.

Lemma meter_reachable_inv u : meter_reachable u → meter_inv (um_rows u).
Proof.
  intros Hr. apply (star_invariant meter_step (λ u, meter_inv (um_rows u)) empty_meter u); [| |exact Hr].
  - intros a b Hi Hs. by eapply meter_step_inv.
  - cbn [empty_meter um_rows]. split; [by intros k m ?%lookup_empty_Some|by intros k k' m m' ?%lookup_empty_Some].
Qed.

Lemma meter_step_grows u u' : meter_step u u' → um_rows u ⊆ um_rows u'.
Proof.
  intros [report tenant environment transaction capability units u0 u0' x Hr|u0]; [|reflexivity].
  apply record_cases in Hr as (_ & [[-> _]|(m & _ & -> & _ & _ & Hn & _)] & _); [done|]. by apply insert_subseteq.
Qed.

Lemma meter_grows u u' : star meter_step u u' → um_rows u ⊆ um_rows u'.
Proof. induction 1 as [u|u u1 u2 H1 _ IH]; [done|]. etrans; [by eapply meter_step_grows|done]. Qed.

(** ** Properties *)

(** C30. Whatever calls come in, every meter record is stored under its own tenant, environment
    and transaction, is valid, and is justified by a valid report of that transaction, verified
    on evidence with every claim matched and nothing synthetic; no report is metered twice, in
    any scope, and a record never changes or disappears. *)
Theorem usage_billed_once u k m :
  meter_reachable u → um_rows u !! k = Some m →
  k = meter_scope m ∧ validate_meter m = Ok () ∧ (∃ report, justified m report) ∧
  (∀ k' m', um_rows u !! k' = Some m' →
     mt_verification_report_digest m' = mt_verification_report_digest m → k' = k ∧ m' = m) ∧
  ∀ u', star meter_step u u' → um_rows u' !! k = Some m.
Proof.
  intros Hr Hm. pose proof (meter_reachable_inv u Hr) as Hi. destruct (mi_scope _ Hi k m Hm) as (Hk & Hv & Hj).
  split_and!; try done.
  - intros k' m' Hm' Hd. pose proof (mi_unique _ Hi _ _ _ _ Hm' Hm Hd) as ->. split; [done|congruence].
  - intros u' Hs. eapply lookup_weaken; [exact Hm|]. by apply meter_grows.
Qed.

(** Recording on an open meter succeeds exactly when the report is billable for the
    transaction, the record is well formed, and what is already stored for that report or that
    scope, if anything, is this very record; success stores it, a repetition returns it again
    without change, and a refusal changes nothing. *)
Theorem usage_record_exact u report tenant environment transaction capability units u' x :
  meter_reachable u → um_closed u = false →
  record_usage report tenant environment transaction capability units u = (u', x) →
  (∀ m, x = Ok m ↔
     billable report transaction = Ok () ∧
     issue_meter tenant environment transaction capability (rp_report_digest report) units = Ok m ∧
     (∀ k m', um_rows u !! k = Some m' →
        mt_verification_report_digest m' = rp_report_digest report ∨ k = (tenant, environment, transaction) → m' = m)) ∧
  (∀ m, x = Ok m → um_rows u' = <[(tenant, environment, transaction) := m]> (um_rows u) ∧
     record_usage report tenant environment transaction capability units u' = (u', Ok m)) ∧
  ∀ e, x = Err e → u' = u.
Proof.
  intros Hr Ho Hu. pose proof (meter_reachable_inv u Hr) as Hi.
  pose proof (record_cases _ _ _ _ _ _ _ _ _ Hu) as (Hc & Hrows & Hok).
  assert (∀ m, x = Ok m → um_rows u' = <[(tenant, environment, transaction) := m]> (um_rows u)) as Hset.
  { intros m ->. destruct (Hok m eq_refl) as (_ & _ & Hm). apply issue_meter_ok in Hm as (_ & Hs & _). rewrite <-Hs.
    destruct Hrows as [[-> [k Hk]]|(m' & [= <-] & -> & _)]; [|done].
    destruct (mi_scope _ Hi k m Hk) as (-> & _). by rewrite insert_id. }
  split_and!.
  - intros m. split.
    + intros ->. destruct (Hok m eq_refl) as (_ & Hb & Hm). split_and!; [done..|]. intros k m' Hk Hor.
      pose proof (issue_meter_ok _ _ _ _ _ _ _ Hm) as (_ & Hs & Hd & _).
      pose proof (Hset m eq_refl) as Hset'. destruct Hrows as [[Heq [k0 Hk0]]|(m0 & [= <-] & _ & _ & _ & Hn & Hnd)].
      * destruct (mi_scope _ Hi _ _ Hk0) as (-> & _). destruct Hor as [Hd' | ->].
        -- assert (k = meter_scope m) as -> by (eapply (mi_unique _ Hi); [done..|congruence]). congruence.
        -- congruence.
      * destruct Hor as [Hd' | ->]; [|congruence]. exfalso.
        apply (row_of_report_none _ _ _ _ Hnd Hk). congruence.
    + intros (Hb & Hm & Hall). pose proof (issue_meter_ok _ _ _ _ _ _ _ Hm) as (_ & Hs & Hd & _).
      unfold record_usage, ensure_open in Hu. rewrite Ho, Hb, Hm in Hu. cbn [raise_if mbind result_bind escaping] in Hu.
      unfold record_body in Hu. destruct (row_of_report _ _) as [existing|] eqn:Er.
      * apply row_of_report_some in Er as (Hd' & k & Hk).
        rewrite (Hall k existing Hk) in Hu by (left; congruence). rewrite bool_decide_true in Hu by done. by injection Hu.
      * destruct (um_rows u !! meter_scope m) as [existing|] eqn:Es; [|by injection Hu].
        rewrite (Hall _ existing Es) in Hu by (right; congruence). rewrite bool_decide_true in Hu by done. by injection Hu.
  - intros m ->. split; [by apply Hset|]. destruct (Hok m eq_refl) as (_ & Hb & Hm).
    pose proof (issue_meter_ok _ _ _ _ _ _ _ Hm) as (_ & Hs & Hd & _). pose proof (Hset m eq_refl) as Hset'.
    assert (meter_inv (um_rows u')) as Hi' by (eapply (meter_step_inv u); [done|by econstructor]).
    unfold record_usage, ensure_open. rewrite Hc, Ho, Hb, Hm. cbn [raise_if mbind result_bind escaping].
    assert (um_rows u' !! (tenant, environment, transaction) = Some m) as Hl by (rewrite Hset'; apply lookup_insert_eq).
    unfold record_body. rewrite Hs, Hl. destruct (row_of_report _ _) as [existing|] eqn:Er.
    + apply row_of_report_some in Er as (Hd' & k & Hk).
      assert (k = (tenant, environment, transaction)) as -> by exact (mi_unique _ Hi' _ _ _ _ Hk Hl Hd').
      assert (existing = m) as -> by congruence. rewrite bool_decide_true by done. by rewrite <-Ho, <-Hc; destruct u'.
    + rewrite bool_decide_true by done. by rewrite <-Ho, <-Hc; destruct u'.
  - intros e ->. clear Hset Hok. unfold record_usage in Hu.
    destruct (ensure_open u;; _) as [m|e']; [|congruence]. destruct (record_body _ _) as [[? ?]|]; congruence.
Qed.

End meter.

(** ** Witnesses *)

#[local] Existing Instances distinct_sha256 distinct_sha256_laws example_float_repr.

Definition some_digest : string := value_digest (JStr "document").
Definition verified (transaction_id : string) (synthetic : bool) : result string VerificationReport :=
  issue_report {| rp_transaction_id := transaction_id; rp_business_digest := some_digest; rp_verdict := VERIFIED;
    rp_required_level := L1; rp_achieved_level := L1; rp_evaluated_at := 0; rp_reasons := ["all_claims_match"];
    rp_claims := [{| cl_claim := "status"; cl_outcome := MATCH; cl_expected := SStr "ok"; cl_observed := [SStr "ok"] |}];
    rp_evidence := [{| rs_evidence_id := "e-1"; rs_source_record_id := "r-1"; rs_source_system := "carrier";
      rs_channel := CH_API; rs_collector_id := "collector"; rs_collection_id := "c-1"; rs_observed_at := 0;
      rs_content_digest := some_digest; rs_synthetic := synthetic |}];
    rp_synthetic := false; rp_report_digest := EmptyString |}.
Definition report_or (r : result string VerificationReport) : VerificationReport :=
  match r with
  | Ok r => r
  | Err _ => {| rp_transaction_id := EmptyString; rp_business_digest := EmptyString; rp_verdict := HALTED;
      rp_required_level := L1; rp_achieved_level := L0; rp_evaluated_at := 0; rp_reasons := []; rp_claims := [];
      rp_evidence := []; rp_synthetic := false; rp_report_digest := EmptyString |}
  end.

Definition metered (tenant : string) (synthetic : bool) (u : UsageMeter) : UsageMeter * result UsageError MeterRecord :=
  record_usage (report_or (verified "tx-1" synthetic)) tenant "prod" "tx-1" some_digest 3 u.
Definition meter_1 : UsageMeter := (metered "tenant" false empty_meter).1.
Definition record_1 : MeterRecord :=
  match (metered "tenant" false empty_meter).2 with
  | Ok m => m
  | Err _ => {| mt_tenant_id := EmptyString; mt_environment_id := EmptyString; mt_transaction_id := EmptyString;
      mt_capability_digest := EmptyString; mt_verification_report_digest := EmptyString; mt_units := 0;
      mt_meter_digest := EmptyString |}
  end.

(** Another tenant cannot use the same report, and synthetic evidence is not billable. *)
Example refused_meters :
  (metered "other" false meter_1).2 = Err UsageConflict ∧
  (metered "tenant" true empty_meter).2 = Err (UsageErr "usage_synthetic_not_billable").
Proof. vm_compute. split; reflexivity. Qed.

Lemma meter_1_reachable : meter_reachable meter_1.
Proof.
  apply (star_step _ _ meter_1); [|apply star_refl].
  apply (step_record (report_or (verified "tx-1" false)) "tenant" "prod" "tx-1" some_digest 3 empty_meter meter_1
    (metered "tenant" false empty_meter).2). exact (surjective_pairing _).
Qed.

Lemma usage_billed_once_witness :
  um_rows meter_1 !! ("tenant", "prod", "tx-1") = Some record_1 ∧ ∃ report, justified record_1 report.
Proof.
  assert (um_rows meter_1 !! ("tenant", "prod", "tx-1") = Some record_1) as Hm by (vm_compute; reflexivity).
  split; [exact Hm|]. apply (usage_billed_once meter_1 ("tenant", "prod", "tx-1") record_1 meter_1_reachable Hm).
Defined.

Lemma usage_record_exact_witness :
  (metered "tenant" false meter_1).2 = Ok record_1 ∧
  um_rows (metered "tenant" false meter_1).1 = <[("tenant", "prod", "tx-1") := record_1]> (um_rows meter_1).
Proof.
  assert ((metered "tenant" false meter_1).2 = Ok record_1) as Hx by (vm_compute; reflexivity).
  split; [exact Hx|].
  apply (proj1 (proj2 (usage_record_exact meter_1 (report_or (verified "tx-1" false)) "tenant" "prod" "tx-1"
    some_digest 3 (metered "tenant" false meter_1).1 (metered "tenant" false meter_1).2
    meter_1_reachable eq_refl (surjective_pairing _))) record_1 Hx).
Defined.
