(* ===== verification/Api.v ===== *)
(** * HTTP transport of transactions (api/main.py, api/errors.py, api/schemas.py)

    The four transaction endpoints as programs over a state: the audit store, a log of the
    calls made to the transaction service, and a step counter.  What others do while a handler
    awaits, what the service, the authenticator and the authorizer answer, the time and the
    drawn event ids are functions of the counter ([Environment]), so every interleaving with
    other requests is an environment.  FastAPI's routing, header parsing and JSON rendering are
    not modelled. *)

From Stdlib Require Import Ascii.
From S2P Require Import Prelude.
From S2P Require Import Contracts.
From S2P Require Import Documents.
From S2P Require Import Sqlite.
From S2P Require Import ControlModels.
From S2P Require Import AuditChain.
From S2P Require Import Membership.
From S2P Require Import Authorization.
From S2P Require Import AccessControl.
From S2P Require Import Idempotency.
From S2P Require Import TransactionService.
From S2P Require Import Mapping.
From S2P Require Import Compile.

(** ** Request text *)

Definition ascii_letter (c : ascii) : bool := is_lower c || is_upper c.
Definition request_id_char (c : ascii) : bool := ascii_letter c || is_digit c || is_sep c || (code c =? 58).
(** [request_id_middleware]: the caller's id if it is a safe one, else the drawn one. *)
Definition request_id_for (incoming uuid : string) : string :=
  if between 1 (len incoming) 128 && forall_chars request_id_char incoming then incoming else uuid.

(** [_IDEMPOTENCY_KEY_RE]. *)
Definition idempotency_key_ok (key : string) : bool :=
  between 1 (len key) 256 && forall_chars (λ c, (32 <? code c) && negb (code c =? 127)) key.

(** [_SAFE_ERROR_CODE_RE]. *)
Definition safe_code_char (c : ascii) : bool := is_alnum c || is_dash c || (code c =? 58).
Definition safe_error_code (s : string) : bool :=
  match s with
  | String c s' => is_lower c && between 1 (len s') 63 && forall_chars safe_code_char s'
  | EmptyString => false
  end.

Definition unsafe_markers : list string :=
  ["traceback"; "temporal"; "sqlite"; "password"; chars [99; 58; 92]; "/home/"].

(** ** Errors and responses *)

(** The attributes of an exception the normalizer reads; [None] when missing or of another
    type. *)
Record Exc := {
  ex_code : option string;
  ex_message : option string;
  ex_status_code : option Z;
  ex_authenticate_header : bool }.

(** What a handler raises: an access-control error, another exception, or a compilation
    error. *)
Inductive ApiError :=
| Access (e : Exc)
| Other (e : Exc)
| Compilation (e : CompilationError).

Definition plain_exception : Exc := {|
  ex_code := None; ex_message := None; ex_status_code := None; ex_authenticate_header := false |}.
Definition request_error (code message : string) (status : Z) : Exc := {|
  ex_code := Some code; ex_message := Some message; ex_status_code := Some status;
  ex_authenticate_header := false |}.
Definition lift_access (e : AccessError) : ApiError :=
  match e with
  | AccessControlError code message status header => Access {|
      ex_code := Some code; ex_message := Some message; ex_status_code := Some status;
      ex_authenticate_header := header |}
  | AccessValidationError _ => Other plain_exception
  end.

Inductive Body :=
| BView (v : TransactionView)
| BSubmission (s : TransactionSubmission)
| BError (code message : string) (diagnostics : list MappingDiagnostic).

Record Response := {
  rs_status_code : Z;
  rs_body : Body;
  rs_request_id : string;
  rs_authenticate : bool }.

(** [_bounded_runtime_reason]. *)
Definition bounded_runtime_reason (e : Exc) : string :=
  match ex_code e with
  | Some code => if safe_error_code code then code else "runtime_error"
  | None => "runtime_error"
  end.

(** The message of [_runtime_error_response]. *)
Definition bounded_message (e : Exc) : string :=
  let message :=
    match ex_message e with
    | Some message => if forall_chars py_space message then "Runtime operation failed" else message
    | None => "Runtime operation failed"
    end in
  if (500 <? len message) || existsb (λ marker, contains marker (casefold message)) unsafe_markers
  then "Runtime operation failed" else message.

(** [_runtime_error_response]. *)
Definition runtime_error_response (request_id : string) (e : Exc) : Response := {|
  rs_status_code :=
    match ex_status_code e with Some s => if between 400 s 599 then s else 500 | None => 500 end;
  rs_body := BError (bounded_runtime_reason e) (bounded_message e) [];
  rs_request_id := request_id; rs_authenticate := ex_authenticate_header e |}.
Definition runtime_unavailable (request_id : string) : Response :=
  runtime_error_response request_id
    (request_error "runtime_unavailable" "Transaction runtime is unavailable" 503).

(** [compilation_error_handler] and [unhandled_error_handler]; the message of a compilation
    error is fixed by its code and not repeated. *)
Definition compilation_response (request_id : string) (e : CompilationError) : Response := {|
  rs_status_code := if bool_decide (ce_code e = "unsupported_source_schema") then 400 else 422;
  rs_body := BError (ce_code e) EmptyString (ce_diagnostics e);
  rs_request_id := request_id; rs_authenticate := false |}.
Definition internal_error (request_id : string) : Response := {|
  rs_status_code := 500; rs_body := BError "internal_error" "Internal server error" [];
  rs_request_id := request_id; rs_authenticate := false |}.

(** ** Requests *)

(** [ApprovalRequest] with its validator; the strings are taken already stripped. *)
Record ApprovalRequest := {
  aq_step_id : string;
  aq_approved : bool;
  aq_decided_by : string;
  aq_reason : option string }.
Definition validate_approval_request (d : ApprovalRequest) : result string () :=
  raise_if (negb (between 1 (len (aq_step_id d)) 128 && between 1 (len (aq_decided_by d)) 256
                  && opt_ok (λ r, len r <=? 1000) (aq_reason d))) "field constraint";;
  raise_if (negb (aq_approved d) && negb (truthy (aq_reason d))) "a rejected approval requires a reason".
(** [decision.model_copy(update={"decided_by": subject})]. *)
Definition decided_by (d : ApprovalRequest) (subject : string) : ApprovalRequest := {|
  aq_step_id := aq_step_id d; aq_approved := aq_approved d; aq_decided_by := subject; aq_reason := aq_reason d |}.

Record CompileRequest := {
  cq_source_schema_version : string;
  cq_payload : list (string * json);
  cq_context : option (list (string * json)) }.

Record HttpRequest := {
  hr_authorization : option string;
  hr_request_id : string }.

(** The calls of the transaction service, with what they answered. *)
Inductive ServiceCall :=
| CSubmit (c : CompilationResult) (key : string) (principal_ref : option string)
    (answer : result Exc TransactionSubmission)
| CGet (transaction_id : string) (answer : result Exc TransactionView)
| CApprove (transaction_id : string) (decision : ApprovalRequest) (answer : result Exc TransactionView)
| CCancel (transaction_id : string) (answer : result Exc TransactionView).

(** [_resource_tenant_id]. *)
Definition resource_tenant_id (tenant_id : string) : result ApiError string :=
  if bool_decide (tenant_id = EmptyString) || negb (stripped tenant_id)
  then Err (Access (request_error "resource_scope_unavailable" "Resource authorization scope is unavailable" 503))
  else Ok tenant_id.

(** ** Handlers *)

Section api.
Context `{Sha256, FloatRepr, PayloadReader} {S : Type} `{AuditWriter S}.

(** What surrounds a request at each step. *)
Record Environment := {
  env_others : nat → list AuditEvent;
  env_now : nat → Z;
  env_event_id : nat → S → string;
  env_authenticator : nat → string → Z → result AuthenticatorError Principal;
  env_authorizer : nat → AuthorizationRequest → result string AuthorizationDecision;
  env_submit : nat → CompilationResult → string → option string → result Exc TransactionSubmission;
  env_get : nat → string → result Exc TransactionView;
  env_approve : nat → string → ApprovalRequest → result Exc TransactionView;
  env_cancel : nat → string → result Exc TransactionView }.

Record State := {
  st_audit : S;
  st_log : list (ServiceCall * S);
  st_step : nat }.

(** The application: its service, if any, and its access controller's environment, if any. *)
Record Application := {
  ap_service : bool;
  ap_contextual : bool;
  ap_controller : option string }.

Definition M (A : Type) : Type := State → State * result ApiError A.
Definition ret {A} (a : A) : M A := λ st, (st, Ok a).
Definition throw {A} (e : ApiError) : M A := λ st, (st, Err e).
Definition lift {A} (r : result ApiError A) : M A := λ st, (st, r).
Definition bind {A B} (m : M A) (f : A → M B) : M B := λ st,
  match m st with (st', Ok a) => f a st' | (st', Err e) => (st', Err e) end.
Notation "'let*' x ':=' m 'in' k" := (bind m (λ x, k)) (at level 100, x binder, right associativity).

(** [try: m] with the handler [h] for what it raises and the code [k] after it. *)
Definition try_else {A B} (m : M A) (h : ApiError → M B) (k : A → M B) : M B := λ st,
  match m st with (st', Ok a) => k a st' | (st', Err e) => h e st' end.

(** Others write their audit events while the handler awaits. *)
Definition write_all (events : list AuditEvent) (s : S) : S := fold_left (λ s e, (write_event e s).1) events s.
Definition await (env : Environment) (st : State) : State := {|
  st_audit := write_all (env_others env (st_step st)) (st_audit st);
  st_log := st_log st; st_step := st_step st + 1 |}.
Definition with_audit (st : State) (s : S) : State := {|
  st_audit := s; st_log := st_log st; st_step := st_step st + 1 |}.
Definition logged (st : State) (call : ServiceCall) : State := {|
  st_audit := st_audit st; st_log := st_log st ++ [(call, st_audit st)]; st_step := st_step st |}.

(** A call of the service, logged with the audit store it found. *)
Definition call_service {A} (env : Environment) (answer : nat → result Exc A) (entry : result Exc A → ServiceCall)
    : M A := λ st,
  let r := answer (st_step st) in
  (await env (logged st (entry r)), match r with Ok a => Ok a | Err e => Err (Other e) end).

Context (env : Environment) (app : Application) (request : HttpRequest).

Definition submit (c : CompilationResult) (key : string) (principal_ref : option string) : M TransactionSubmission :=
  call_service env (λ n, env_submit env n c key principal_ref) (CSubmit c key principal_ref).
Definition get (transaction_id : string) : M TransactionView :=
  call_service env (λ n, env_get env n transaction_id) (CGet transaction_id).
Definition approve (transaction_id : string) (d : ApprovalRequest) : M TransactionView :=
  call_service env (λ n, env_approve env n transaction_id d) (CApprove transaction_id d).
Definition cancel (transaction_id : string) : M TransactionView :=
  call_service env (λ n, env_cancel env n transaction_id) (CCancel transaction_id).

(** [_authenticate_request]. *)
Definition authenticate_request : M (option Principal) := λ st,
  match ap_controller app with
  | None => (st, Ok None)
  | Some _ =>
      (await env st,
       match authenticate (env_authenticator env (st_step st)) (hr_authorization request) (env_now env (st_step st)) with
       | Ok p => Ok (Some p)
       | Err e => Err (lift_access e)
       end)
  end.

(** [_require_access]; nothing is awaited. *)
Definition require_access (principal : option Principal) (action : AccessAction) (tenant_id : string)
    (resource_id : option string) : M (option AccessGrant) := λ st,
  match ap_controller app with
  | None => (st, Ok None)
  | Some environment_id =>
      match principal with
      | None => (st, Err (lift_access authentication_required))
      | Some p =>
          let '(s, x) := require (env_authorizer env (st_step st)) environment_id
            (env_event_id env (st_step st) (st_audit st)) p action tenant_id "transaction" resource_id
            (hr_request_id request) (env_now env (st_step st)) (st_audit st) in
          (with_audit st s, match x with Ok grant => Ok (Some grant) | Err e => Err (lift_access e) end)
      end
  end.

(** [_record_access_outcome]. *)
Definition record_access_outcome (grant : option AccessGrant) (succeeded : bool) (reason_code : string)
    (details : list (string * AuditScalar)) : M () := λ st,
  match ap_controller app, grant with
  | Some _, Some g =>
      let '(s, x) := record_outcome (env_event_id env (st_step st) (st_audit st)) g succeeded reason_code details
        (env_now env (st_step st)) (st_audit st) in
      (with_audit st s, match x with Ok _ => Ok () | Err e => Err (lift_access e) end)
  | _, _ => (st, Ok ())
  end.

(** [_policy_principal_ref]. *)
Definition policy_principal_ref (principal : option Principal) : string :=
  match principal with
  | None => "runtime.service"
  | Some p => "principal.sha256." +:+ sha256_hex (pc_issuer p +:+ chars [0] +:+ pc_subject p)
  end.

Definition respond (status : Z) (body : Body) : M Response :=
  ret {| rs_status_code := status; rs_body := body; rs_request_id := hr_request_id request; rs_authenticate := false |}.
Definition failure (e : Exc) : M Response := ret (runtime_error_response (hr_request_id request) e).

(** [except AccessControlError]: only that. *)
Definition on_access_error (e : ApiError) : M Response :=
  match e with Access x => failure x | _ => throw e end.
(** The two handlers of [get_transaction]. *)
Definition on_any_error (e : ApiError) : M Response :=
  match e with Access x | Other x => failure x | Compilation _ => failure plain_exception end.

(** The handlers of a failing mutation: access errors are answered, others first recorded. *)
Definition on_mutation_error (grant : option AccessGrant) (e : ApiError) : M Response :=
  match e with
  | Access x => failure x
  | Compilation _ => throw e
  | Other x =>
      try_else (record_access_outcome grant false (bounded_runtime_reason x) []) on_access_error (λ _, failure x)
  end.

(** The tenant of a resource, then [_require_access]; without a controller no grant. *)
Definition scoped_access (principal : option Principal) (action : AccessAction) (tenant_id : string)
    (resource_id : option string) : M (option AccessGrant) :=
  if is_none (ap_controller app) then ret None
  else let* tenant := lift (resource_tenant_id tenant_id) in require_access principal action tenant resource_id.

Definition create_transaction (body : CompileRequest) (idempotency_key : option string) : M Response :=
  try_else authenticate_request on_access_error (λ principal,
    match idempotency_key with
    | None => failure (request_error "missing_idempotency_key" "Idempotency-Key header is required" 400)
    | Some key =>
        if negb (idempotency_key_ok key)
        then failure (request_error "invalid_idempotency_key" "Idempotency-Key header is invalid" 400)
        else
          try_else
            (let* compilation := lift
               match compile None None (cq_source_schema_version body) (JObj (cq_payload body))
                       match cq_context body with Some fields => ContextDict (JObj fields) | None => NoContext end
               with Ok c => Ok c | Err e => Err (Compilation e) end in
             let* grant := scoped_access principal TRANSACTION_CREATE (tc_tenant_id (cr_command compilation)) None in
             ret (compilation, grant))
            (on_mutation_error None) (λ '(compilation, grant),
              if negb (ap_service app) then
                try_else (record_access_outcome grant false "runtime_unavailable" []) (on_mutation_error grant)
                  (λ _, ret (runtime_unavailable (hr_request_id request)))
              else
                try_else
                  (submit compilation key
                     (if ap_contextual app then Some (policy_principal_ref principal) else None))
                  (on_mutation_error grant) (λ result,
                    let replayed := negb (ts_created result) in
                    try_else
                      (record_access_outcome grant true
                         (if replayed then "transaction_replayed" else "transaction_created")
                         [("replayed", ABool replayed)])
                      on_access_error
                      (λ _, respond (if replayed then 200 else 202) (BSubmission result))))
    end).

(** Endpoints past authentication that need the service. *)
Definition with_service (k : option Principal → M Response) : M Response :=
  try_else authenticate_request on_access_error (λ principal,
    if negb (ap_service app) then ret (runtime_unavailable (hr_request_id request)) else k principal).

Definition get_endpoint (transaction_id : string) : M Response :=
  with_service (λ principal,
    try_else
      (let* result := get transaction_id in
       let* grant := scoped_access principal TRANSACTION_READ (tv_tenant_id result) (Some transaction_id) in
       let* _ := record_access_outcome grant true "transaction_read" [] in
       ret result)
      on_any_error (λ result, respond 200 (BView result))).

(** The stored resource's tenant, resolved before a mutation. *)
Definition resource_access (principal : option Principal) (action : AccessAction) (transaction_id : string)
    : M (option AccessGrant) :=
  if is_none (ap_controller app) then ret None
  else
    let* existing := get transaction_id in
    scoped_access principal action (tv_tenant_id existing) (Some transaction_id).

Definition approve_endpoint (transaction_id : string) (decision : ApprovalRequest) : M Response :=
  with_service (λ principal,
    try_else
      (let* grant := resource_access principal TRANSACTION_APPROVE transaction_id in
       if is_none (ap_controller app) then ret (grant, decision)
       else match principal with
            | None => throw (lift_access authentication_required)
            | Some p => ret (grant, decided_by decision (pc_subject p))
            end)
      (on_mutation_error None) (λ '(grant, decision),
        try_else
          (let* result := approve transaction_id decision in
           let* _ := record_access_outcome grant true "approval_delivered"
                       [("approved", ABool (aq_approved decision))] in
           ret result)
          (on_mutation_error grant) (λ result, respond 200 (BView result)))).

Definition cancel_endpoint (transaction_id : string) : M Response :=
  with_service (λ principal,
    try_else (resource_access principal TRANSACTION_CANCEL transaction_id) (on_mutation_error None) (λ grant,
      try_else
        (let* result := cancel transaction_id in
         let* _ := record_access_outcome grant true "cancellation_delivered" [] in
         ret result)
        (on_mutation_error grant) (λ result, respond 200 (BView result)))).

(** The exception handlers of the application around an endpoint. *)
Definition serve (endpoint : M Response) (st : State) : State * Response :=
  match endpoint st with
  | (st', Ok r) => (st', r)
  | (st', Err (Compilation e)) => (st', compilation_response (hr_request_id request) e)
  | (st', Err _) => (st', internal_error (hr_request_id request))
  end.

End api.

(** ** Bounded errors *)

Lemma runtime_reason_safe e : safe_error_code (bounded_runtime_reason e) = true.
Proof. unfold bounded_runtime_reason. destruct (ex_code e) as [code|]; [|done]. by destruct (safe_error_code code) eqn:E. Qed.

Lemma bounded_message_safe e :
  1 ≤ len (bounded_message e) ≤ 500 ∧ Forall (λ marker, contains marker (casefold (bounded_message e)) = false) unsafe_markers.
Proof.
  assert (1 ≤ len "Runtime operation failed" ≤ 500 ∧
    Forall (λ marker, contains marker (casefold "Runtime operation failed") = false) unsafe_markers) as Hd.
  { split; [unfold len; cbn; lia|by repeat constructor]. }
  unfold bounded_message. destruct (_ || _) eqn:E; [done|]. apply orb_false_iff in E as [Hl Hm].
  apply Z.ltb_ge in Hl. rewrite existsb_elem_false in Hm. split; [|by apply Forall_forall].
  split; [|done]. destruct (ex_message e) as [m|]; [|unfold len; cbn; lia].
  destruct (forall_chars py_space m) eqn:Es; [unfold len; cbn; lia|]. destruct m; [done|]. unfold len. cbn. lia.
Qed.

(** ** A logic of handlers

    [safe pre m post]: from an audit store with [pre], [m] loses no record, makes only
    justified calls, and leaves [post] when it returns. *)

#[local] Notation "'let*' x ':=' m 'in' k" := (bind m (λ x, k)) (at level 100, x binder, right associativity).

Section laws.
Context `{Sha256, FloatRepr, PayloadReader} {S : Type} `{AuditWriterLaws S}.
Context (env : Environment (S := S)) (app : Application) (request : HttpRequest) (environment_id : string).
Context (Hcontroller : ap_controller app = Some environment_id).
(** [uuid4] draws ids the audit store has not seen. *)
Context (Hdrawn : ∀ n s tenant_id, unused s tenant_id (env_event_id env n s)).

Definition authentic (p : Principal) : Prop :=
  ∃ n, authenticate (env_authenticator env n) (hr_authorization request) (env_now env n) = Ok p.

(** The store holds an ALLOWED event of this access in this phase. *)
Definition accessed (phase : string) (p : Principal) (action : AccessAction) (tenant_id : string)
    (resource_id : option string) (s : S) : Prop :=
  ∃ r, recorded s r ∧ au_result (rc_event r) = ALLOWED ∧ ("phase", AStr phase) ∈ au_details (rc_event r) ∧
    au_actor_issuer (rc_event r) = pc_issuer p ∧ au_actor_subject (rc_event r) = pc_subject p ∧
    au_action (rc_event r) = action ∧ au_tenant_id (rc_event r) = tenant_id ∧
    au_environment_id (rc_event r) = environment_id ∧ au_resource_id (rc_event r) = resource_id.

(** A call of the service, with the store it found: it is made for an authenticated principal,
    and a mutation for one whose access to that very resource is on record. *)
Definition justified_call (entry : ServiceCall * S) : Prop :=
  match entry.1 with
  | CSubmit c _ _ _ => ∃ p, authentic p ∧
      accessed "authorization" p TRANSACTION_CREATE (tc_tenant_id (cr_command c)) None entry.2
  | CGet _ _ => ∃ p, authentic p
  | CApprove tx d _ => ∃ p v n, authentic p ∧ env_get env n tx = Ok v ∧ aq_decided_by d = pc_subject p ∧
      accessed "authorization" p TRANSACTION_APPROVE (tv_tenant_id v) (Some tx) entry.2
  | CCancel tx _ => ∃ p v n, authentic p ∧ env_get env n tx = Ok v ∧
      accessed "authorization" p TRANSACTION_CANCEL (tv_tenant_id v) (Some tx) entry.2
  end.

Record moves (st st' : State (S := S)) : Prop := {
  mo_ok : writer_ok (st_audit st');
  mo_keeps r : recorded (st_audit st) r → recorded (st_audit st') r;
  mo_log : ∃ l, st_log st' = st_log st ++ l ∧ Forall justified_call l }.

Definition safe {A} (pre : S → Prop) (m : M A) (post : A → S → Prop) : Prop :=
  ∀ st st' x, writer_ok (st_audit st) → pre (st_audit st) → m st = (st', x) →
    moves st st' ∧ match x with Ok a => post a (st_audit st') | Err _ => True end.

(** Facts that more records do not undo. *)
Definition lasting (P : S → Prop) : Prop := ∀ s s', (∀ r, recorded s r → recorded s' r) → P s → P s'.

Lemma accessed_lasting phase p action tenant resource : lasting (accessed phase p action tenant resource).
Proof. intros s s' Hk (r & Hr & Hx). exists r. split; [by apply Hk|done]. Qed.

Lemma moves_refl st : writer_ok (st_audit st) → moves st st.
Proof. intros Ho. split; [done|done|]. exists []. by rewrite app_nil_r. Qed.

Lemma moves_trans st1 st2 st3 : moves st1 st2 → moves st2 st3 → moves st1 st3.
Proof.
  intros [O1 K1 (l1 & E1 & F1)] [O2 K2 (l2 & E2 & F2)]. split; [done|by auto|].
  exists (l1 ++ l2). rewrite E2, E1, app_assoc. split; [done|]. by apply Forall_app.
Qed.

Lemma safe_ret {A} (pre : S → Prop) (a : A) : safe pre (ret a) (λ b s, b = a ∧ pre s).
Proof. intros st st' x Ho Hp [= <- <-]. split; [by apply moves_refl|done]. Qed.

Lemma safe_err {A} (pre : S → Prop) e (post : A → S → Prop) : safe pre (throw e) post.
Proof. intros st st' x Ho Hp [= <- <-]. split; [by apply moves_refl|done]. Qed.

Lemma safe_lift {A} (pre : S → Prop) (r : result ApiError A) : safe pre (lift r) (λ a s, r = Ok a ∧ pre s).
Proof. intros st st' x Ho Hp [= <- <-]. split; [by apply moves_refl|by destruct r]. Qed.

Lemma safe_try {A B} (pre : S → Prop) (m : M A) (h : ApiError → M B) k mid post :
  safe pre m mid → (∀ e, safe (λ _, True) (h e) post) → (∀ a, safe (mid a) (k a) post) →
  safe pre (try_else m h k) post.
Proof.
  intros Hm Hh Hk st st' x Ho Hp. unfold try_else. destruct (m st) as [st1 [a|e]] eqn:E;
    destruct (Hm _ _ _ Ho Hp E) as [M1 P1]; intros Hx.
  - destruct (Hk a _ _ _ (mo_ok _ _ M1) P1 Hx) as [M2 P2]. split; [by eapply moves_trans|done].
  - destruct (Hh e _ _ _ (mo_ok _ _ M1) I Hx) as [M2 P2]. split; [by eapply moves_trans|done].
Qed.

Lemma safe_bind {A B} (pre : S → Prop) (m : M A) (k : A → M B) mid post :
  safe pre m mid → (∀ a, safe (mid a) (k a) post) → safe pre (bind m k) post.
Proof.
  intros Hm Hk st st' x Ho Hp. unfold bind. destruct (m st) as [st1 [a|e]] eqn:E;
    destruct (Hm _ _ _ Ho Hp E) as [M1 P1].
  - intros Hx. destruct (Hk a _ _ _ (mo_ok _ _ M1) P1 Hx) as [M2 P2]. split; [by eapply moves_trans|done].
  - by intros [= <- <-].
Qed.

Lemma safe_frame {A} (P pre : S → Prop) (m : M A) (post : A → S → Prop) :
  lasting P → safe pre m post → safe (λ s, P s ∧ pre s) m (λ a s, P s ∧ post a s).
Proof.
  intros HP Hm st st' x Ho [Hp Hpre] E. destruct (Hm _ _ _ Ho Hpre E) as [M1 P1]. split; [done|].
  destruct x; [|done]. split; [|done]. eapply HP; [by apply (mo_keeps _ _ M1)|done].
Qed.

Lemma safe_weaken {A} (pre pre' : S → Prop) (m : M A) (post post' : A → S → Prop) :
  safe pre m post → (∀ s, pre' s → pre s) → (∀ a s, post a s → post' a s) → safe pre' m post'.
Proof.
  intros Hm Hpre Hpost st st' x Ho Hp E. destruct (Hm _ _ _ Ho (Hpre _ Hp) E) as [M1 P1].
  split; [done|]. destruct x; [by apply Hpost|done].
Qed.

(** A precondition used as a fact, keeping or forgetting the store. *)
Lemma safe_at {A} (pre : S → Prop) (m : M A) post : (∀ s, pre s → safe (λ s', s' = s) m post) → safe pre m post.
Proof. intros Hm st st' x Ho Hp. by apply (Hm _ Hp). Qed.

Lemma safe_fact {A} (pre : S → Prop) (m : M A) post : (∀ s, pre s → safe (λ _, True) m post) → safe pre m post.
Proof. intros Hm st st' x Ho Hp. by apply (Hm _ Hp). Qed.

(** ** The operations *)

Lemma write_all_ok events s :
  writer_ok s → writer_ok (write_all events s) ∧ ∀ r, recorded s r → recorded (write_all events s) r.
Proof.
  unfold write_all. revert s. induction events as [|e events IH]; intros s Ho; [done|]. cbn.
  destruct (write_event e s) as [s1 y] eqn:E. destruct (write_keeps _ _ _ _ Ho E) as [O1 K1]. cbn.
  destruct (IH s1 O1) as [O2 K2]. split; [done|]. auto.
Qed.

Lemma await_moves st : writer_ok (st_audit st) → moves st (await env st).
Proof.
  intros Ho. destruct (write_all_ok (env_others env (st_step st)) (st_audit st) Ho) as [O K].
  split; [done|done|]. exists []. by rewrite app_nil_r.
Qed.

Lemma safe_call {A} (answer : nat → result Exc A) entry (pre : S → Prop) (post : A → Prop) :
  (∀ n r s, r = answer n → pre s → justified_call (entry r, s)) →
  (∀ n a, answer n = Ok a → post a) → safe pre (call_service env answer entry) (λ a _, post a).
Proof.
  intros Hj Hp st st' x Ho Hpre [= <- <-]. split.
  - apply (moves_trans _ (logged st (entry (answer (st_step st))))).
    + split; [done|done|]. eexists. split; [done|]. constructor; [|constructor]. by eapply Hj.
    + by apply await_moves.
  - destruct (answer (st_step st)) as [a|] eqn:E; [|done]. by eapply Hp.
Qed.

Lemma safe_authenticate :
  safe (λ _, True) (authenticate_request env app request) (λ a _, ∃ p, a = Some p ∧ authentic p).
Proof.
  intros st st' x Ho _. unfold authenticate_request. rewrite Hcontroller.
  destruct (authenticate _ _ _) as [p|e] eqn:E; intros [= <- <-]; (split; [by apply await_moves|]); [|done].
  exists p. split; [done|]. by eexists.
Qed.

(** What a grant says. *)
Definition granted_for (p : Principal) (action : AccessAction) (tenant_id : string) (resource_id : option string)
    (g : AccessGrant) : Prop :=
  gr_principal g = p ∧ az_action (ad_request (gr_decision g)) = action ∧
  az_tenant_id (ad_request (gr_decision g)) = tenant_id ∧
  az_environment_id (ad_request (gr_decision g)) = environment_id ∧
  az_resource_id (ad_request (gr_decision g)) = resource_id.

Lemma event_accessed (s : S) r event_id g reason phase details now p action tenant_id resource_id :
  granted_for p action tenant_id resource_id g → recorded s r →
  rc_event r = event_for event_id g ALLOWED reason phase details now →
  ("phase", AStr phase) ∈ bounded_details phase details →
  accessed phase p action tenant_id resource_id s.
Proof.
  intros (Hp & Ha & Ht & He & Hi) Hr Hev Hd. exists r. rewrite Hev. split; [done|]. cbn. rewrite Hp, Ha, Ht, He, Hi. done.
Qed.

Lemma safe_require p action tenant_id resource_id :
  safe (λ _, True) (require_access env app request (Some p) action tenant_id resource_id)
    (λ a s, ∃ g, a = Some g ∧ granted_for p action tenant_id resource_id g ∧
       accessed "authorization" p action tenant_id resource_id s).
Proof.
  intros st st' x Ho _. unfold require_access. rewrite Hcontroller.
  destruct (require _ _ _ _ _ _ _ _ _ _ _) as [s y] eqn:E. intros [= <- <-].
  pose proof (require_inv _ _ _ _ _ _ _ _ _ _ _ _ _ Ho (Hdrawn _ _ _) E) as (O & K & Hy). split.
  - split; [done|done|]. exists []. by rewrite app_nil_r.
  - destruct y as [g|]; [|done].
    destruct Hy as [(_ & _ & m & ?)|[?|[?|[(m & ?)|(d & r & Ha & Hd & Hr & He & Hg)]]]]; [done..|].
    destruct (ad_allowed d); [|done]. apply Ok_inj in Hg. subst g. eexists. split; [done|].
    assert (granted_for p action tenant_id resource_id
      {| gr_principal := p; gr_decision := d; gr_request_id := hr_request_id request |}) as Hgr.
    { unfold granted_for. cbn [gr_principal gr_decision]. by rewrite Hd. }
    split; [done|]. cbn [with_audit st_audit]. eapply event_accessed; [done|done|exact He|by left].
Qed.

Lemma safe_scoped p action tenant_id resource_id :
  safe (λ _, True) (scoped_access env app request (Some p) action tenant_id resource_id)
    (λ a s, ∃ g, a = Some g ∧ granted_for p action tenant_id resource_id g ∧
       accessed "authorization" p action tenant_id resource_id s).
Proof.
  unfold scoped_access. rewrite Hcontroller. cbn [is_none]. eapply safe_bind; [apply safe_lift|]. intros t.
  intros st st' x Ho [Ht _]. assert (t = tenant_id) as ->.
  { unfold resource_tenant_id in Ht. by destruct (_ || _); [|apply Ok_inj in Ht]. }
  by apply safe_require.
Qed.

Lemma safe_record p action tenant_id resource_id g succeeded reason details :
  granted_for p action tenant_id resource_id g →
  ("phase", AStr "outcome") ∈ bounded_details "outcome" details →
  safe (λ _, True) (record_access_outcome env app (Some g) succeeded reason details)
    (λ _ s, succeeded = true → accessed "outcome" p action tenant_id resource_id s).
Proof.
  intros Hg Hd st st' x Ho _. unfold record_access_outcome. rewrite Hcontroller.
  destruct (record_outcome _ _ _ _ _ _ _) as [s y] eqn:E. intros [= <- <-]. unfold record_outcome in E.
  apply write_audit_inv in E as (O & K & Hy); [|done]. split.
  - split; [done|done|]. exists []. by rewrite app_nil_r.
  - destruct y as [r|]; [|done]. destruct Hy as [Hr Hev]. intros ->. cbn [with_audit st_audit].
    eapply event_accessed; [done|done| |done]. by apply Hev.
Qed.

(** ** The endpoints *)

Definition success (r : Response) : Prop := 200 ≤ rs_status_code r < 300.
(** A success is answered only when [P] holds of the store. *)
Definition answers (P : S → Prop) (r : Response) (s : S) : Prop := success r → P s.

Lemma error_status id e : ¬ success (runtime_error_response id e).
Proof.
  unfold success, runtime_error_response, between. cbn [rs_status_code].
  destruct (ex_status_code e) as [z|]; [destruct (_ && _) eqn:E|]; lia.
Qed.

Lemma safe_failure (P : S → Prop) e : safe (λ _, True) (failure request e) (answers P).
Proof. eapply (safe_weaken (λ _, True)); [apply safe_ret|done|]. intros r s [-> _] Hs. by apply error_status in Hs. Qed.

Lemma safe_access_error (P : S → Prop) e : safe (λ _, True) (on_access_error request e) (answers P).
Proof. destruct e; [apply safe_failure|apply safe_err..]. Qed.

Lemma safe_any_error (P : S → Prop) e : safe (λ _, True) (on_any_error request e) (answers P).
Proof. destruct e; apply safe_failure. Qed.

Lemma safe_record_none (pre : S → Prop) succeeded reason details :
  safe pre (record_access_outcome env app None succeeded reason details) (λ _ s, pre s).
Proof.
  intros st st' x Ho Hp. unfold record_access_outcome. rewrite Hcontroller. intros [= <- <-].
  split; [by apply moves_refl|done].
Qed.

(** A grant that some access made. *)
Definition some_grant (o : option AccessGrant) : Prop :=
  match o with None => True | Some g => ∃ p action tenant_id resource_id, granted_for p action tenant_id resource_id g end.

Lemma safe_mutation_error (P : S → Prop) grant e :
  some_grant grant → safe (λ _, True) (on_mutation_error env app request grant e) (answers P).
Proof.
  intros Hg. destruct e as [x|x|x]; [apply safe_failure| |apply safe_err].
  cbn [on_mutation_error]. eapply safe_try with (mid := λ _ _, True).
  - destruct grant as [g|]; [|by apply safe_record_none]. destruct Hg as (p & action & tenant & resource & Hg).
    eapply safe_weaken; [eapply (safe_record p action tenant resource); [done|by left]|done|done].
  - intros e. apply safe_access_error.
  - intros _. apply safe_failure.
Qed.

(** The outcome of an access by the authenticated caller. *)
Definition outcome_recorded (action : AccessAction) (tenant_id : string) (resource_id : option string) (s : S) : Prop :=
  ∃ p, authentic p ∧ accessed "outcome" p action tenant_id resource_id s.

Lemma safe_respond (P : S → Prop) status body : safe P (respond request status body) (answers P).
Proof. eapply (safe_weaken P); [apply safe_ret|done|]. by intros r s [-> Hp] _. Qed.

Lemma safe_with_service k (P : S → Prop) :
  (∀ p, authentic p → safe (λ _, True) (k (Some p)) (answers P)) →
  safe (λ _, True) (with_service env app request k) (answers P).
Proof.
  intros Hk. unfold with_service. eapply safe_try; [apply safe_authenticate|intros e; apply safe_access_error|].
  intros a st st' x Ho (p & -> & Hp). destruct (negb (ap_service app)).
  - by apply (safe_failure P).
  - by apply Hk.
Qed.

Lemma safe_get p transaction_id :
  authentic p →
  safe (λ _, True) (get env transaction_id) (λ v _, ∃ n, env_get env n transaction_id = Ok v).
Proof. intros Hp. apply safe_call; [by intros; exists p|]. intros n v Hn. by exists n. Qed.

Lemma safe_get_endpoint transaction_id :
  safe (λ _, True) (get_endpoint env app request transaction_id)
    (answers (λ s, ∃ n v, env_get env n transaction_id = Ok v ∧
       outcome_recorded TRANSACTION_READ (tv_tenant_id v) (Some transaction_id) s)).
Proof.
  unfold get_endpoint. apply safe_with_service. intros p Hp.
  eapply safe_try with (mid := λ v s, ∃ n v, env_get env n transaction_id = Ok v ∧
    outcome_recorded TRANSACTION_READ (tv_tenant_id v) (Some transaction_id) s);
    [|intros e; apply safe_any_error|intros v; apply safe_respond].
  eapply safe_bind; [by eapply safe_get|]. intros v. apply safe_fact. intros _ [n Hv].
  eapply safe_bind; [apply safe_scoped|]. intros grant. apply safe_fact. intros _ (g & -> & Hg & _).
  eapply safe_bind; [by apply (safe_record p TRANSACTION_READ (tv_tenant_id v) (Some transaction_id) g); [|left]|].
  intros []. eapply safe_weaken; [apply (safe_ret (accessed "outcome" p TRANSACTION_READ (tv_tenant_id v) (Some transaction_id)))|by auto|].
  intros w s [_ Ho]. exists n, v. split; [done|]. by exists p.
Qed.

(** A mutation under a grant, then its outcome. *)
Lemma safe_mutation {A} p action tenant_id resource_id g (m : M A) (post : A → Prop) reason details status
    (body : A → Body) :
  authentic p → granted_for p action tenant_id resource_id g →
  ("phase", AStr "outcome") ∈ bounded_details "outcome" details →
  safe (accessed "authorization" p action tenant_id resource_id) m (λ a _, post a) →
  safe (accessed "authorization" p action tenant_id resource_id)
    (try_else (let* result := m in
               let* _ := record_access_outcome env app (Some g) true reason details in ret result)
       (on_mutation_error env app request (Some g)) (λ result, respond request status (body result)))
    (answers (outcome_recorded action tenant_id resource_id)).
Proof.
  intros Hp Hg Hd Hm.
  eapply safe_try with (mid := λ _, outcome_recorded action tenant_id resource_id);
    [|intros e; apply safe_mutation_error; by exists p, action, tenant_id, resource_id|intros a; apply safe_respond].
  eapply safe_bind; [exact Hm|]. intros a. apply safe_fact. intros _ _.
  eapply safe_bind; [by apply (safe_record p action tenant_id resource_id g)|].
  intros []. eapply safe_weaken; [apply (safe_ret (accessed "outcome" p action tenant_id resource_id))|by auto|].
  intros w s [_ Ho]. by exists p.
Qed.

Lemma safe_resource p action transaction_id :
  authentic p →
  safe (λ _, True) (resource_access env app request (Some p) action transaction_id)
    (λ a s, ∃ g n v, a = Some g ∧ env_get env n transaction_id = Ok v ∧
       granted_for p action (tv_tenant_id v) (Some transaction_id) g ∧
       accessed "authorization" p action (tv_tenant_id v) (Some transaction_id) s).
Proof.
  intros Hp. unfold resource_access. rewrite Hcontroller. cbn [is_none].
  eapply safe_bind; [by eapply safe_get|]. intros v. apply safe_fact. intros _ [n Hv].
  eapply safe_weaken; [apply safe_scoped|done|]. intros a s (g & -> & Hg & Ha). by exists g, n, v.
Qed.

Lemma safe_cancel_endpoint transaction_id :
  safe (λ _, True) (cancel_endpoint env app request transaction_id)
    (answers (λ s, ∃ n v, env_get env n transaction_id = Ok v ∧
       outcome_recorded TRANSACTION_CANCEL (tv_tenant_id v) (Some transaction_id) s)).
Proof.
  apply safe_with_service. intros p Hp.
  eapply safe_try; [by apply safe_resource|intros e; by apply safe_mutation_error|].
  intros grant. apply safe_at. intros s0 (g & n & v & -> & Hv & Hg & Ha).
  eapply safe_weaken; [eapply (safe_mutation p TRANSACTION_CANCEL (tv_tenant_id v) (Some transaction_id) g _ (λ _, True));
    [done|done|by left|]| |].
  - apply safe_call; [|done]. intros k r s _ Has. exists p, v, n. done.
  - by intros s ->.
  - intros r s Hr Hs. exists n, v. split; [done|]. by apply Hr.
Qed.

Lemma safe_approve_endpoint transaction_id decision :
  safe (λ _, True) (approve_endpoint env app request transaction_id decision)
    (answers (λ s, ∃ n v, env_get env n transaction_id = Ok v ∧
       outcome_recorded TRANSACTION_APPROVE (tv_tenant_id v) (Some transaction_id) s)).
Proof.
  apply safe_with_service. intros p Hp.
  eapply safe_try with (mid := λ a s, ∃ g n v, a = (Some g, decided_by decision (pc_subject p)) ∧
      env_get env n transaction_id = Ok v ∧
      granted_for p TRANSACTION_APPROVE (tv_tenant_id v) (Some transaction_id) g ∧
      accessed "authorization" p TRANSACTION_APPROVE (tv_tenant_id v) (Some transaction_id) s);
    [|intros e; by apply safe_mutation_error|].
  - eapply safe_bind; [by apply safe_resource|]. intros grant. rewrite Hcontroller. cbn [is_none].
    eapply safe_weaken; [apply safe_ret|exact (λ s Hs, Hs)|]. cbn beta.
    intros [o d] s [[= -> ->] (g & n & v & -> & Hx)]. by exists g, n, v.
  - intros [grant d]. apply safe_at. intros s0 (g & n & v & [= -> ->] & Hv & Hg & Ha).
    eapply safe_weaken; [eapply (safe_mutation p TRANSACTION_APPROVE (tv_tenant_id v) (Some transaction_id) g _ (λ _, True));
      [done|done|by left|]| |].
    + apply safe_call; [|done]. intros k r s _ Has. exists p, v, n. done.
    + by intros s ->.
    + intros r s Hr Hs. exists n, v. split; [done|]. by apply Hr.
Qed.

(** What a creation compiles. *)
Definition compiled (body : CompileRequest) (c : CompilationResult) : Prop :=
  compile None None (cq_source_schema_version body) (JObj (cq_payload body))
    match cq_context body with Some fields => ContextDict (JObj fields) | None => NoContext end = Ok c.

Lemma safe_create body key :
  safe (λ _, True) (create_transaction env app request body key)
    (answers (λ s, ∃ c, compiled body c ∧ outcome_recorded TRANSACTION_CREATE (tc_tenant_id (cr_command c)) None s)).
Proof.
  unfold create_transaction. eapply safe_try; [apply safe_authenticate|intros e; apply safe_access_error|].
  intros principal. apply safe_fact. intros _ (p & -> & Hp).
  destruct key as [key|]; [|apply safe_failure]. destruct (negb _); [apply safe_failure|].
  eapply safe_try with (mid := λ a s, ∃ g, a.2 = Some g ∧ compiled body a.1 ∧
      granted_for p TRANSACTION_CREATE (tc_tenant_id (cr_command a.1)) None g ∧
      accessed "authorization" p TRANSACTION_CREATE (tc_tenant_id (cr_command a.1)) None s);
    [|intros e; by apply safe_mutation_error|].
  - eapply safe_bind; [apply safe_lift|]. intros c. apply safe_fact. intros _ [Hc _].
    eapply safe_bind; [apply safe_scoped|]. intros grant.
    eapply safe_weaken; [apply safe_ret|exact (λ s Hs, Hs)|]. cbn beta.
    intros [c' o] s [[= -> ->] (g & -> & Hg & Ha)]. exists g. split_and!; try done.
    unfold compiled. by destruct (compile _ _ _ _ _); [apply Ok_inj in Hc as ->|].
  - intros [c grant]. apply safe_at. intros s0 (g & Eg & Hc & Hg & Ha). cbn [fst snd] in *. subst grant.
    destruct (negb (ap_service app)).
    + eapply safe_try with (mid := λ _ _, True).
      * eapply safe_weaken; [by apply (safe_record p TRANSACTION_CREATE (tc_tenant_id (cr_command c)) None g); [|left]|done|done].
      * intros e. apply safe_mutation_error. by exists p, TRANSACTION_CREATE, (tc_tenant_id (cr_command c)), None.
      * intros []. apply safe_failure.
    + eapply safe_try with (mid := λ _ _, True).
      * eapply (safe_weaken (accessed "authorization" p TRANSACTION_CREATE (tc_tenant_id (cr_command c)) None));
          [apply (safe_call _ _ _ (λ _, True)); [|done]|by intros s ->|done].
        intros n r s _ Has. by exists p.
      * intros e. apply safe_mutation_error. by exists p, TRANSACTION_CREATE, (tc_tenant_id (cr_command c)), None.
      * intros result. cbv zeta.
        eapply safe_try with (mid := λ _, outcome_recorded TRANSACTION_CREATE (tc_tenant_id (cr_command c)) None).
        -- eapply safe_weaken; [by apply (safe_record p TRANSACTION_CREATE (tc_tenant_id (cr_command c)) None g); [|left]|done|].
           intros [] s Hs. exists p. split; [done|]. by apply Hs.
        -- intros e. apply safe_access_error.
        -- intros []. eapply safe_weaken; [apply safe_respond|exact (λ s Hs, Hs)|]. intros r s Hr Hs. exists c.
           split; [done|]. by apply Hr.
Qed.

(** ** Properties *)

(** The endpoints that touch transactions. *)
Inductive endpoint :=
| ECreate (body : CompileRequest) (key : option string)
| EGet (transaction_id : string)
| EApprove (transaction_id : string) (decision : ApprovalRequest)
| ECancel (transaction_id : string).
Definition run_endpoint (e : endpoint) : M Response :=
  match e with
  | ECreate body key => create_transaction env app request body key
  | EGet transaction_id => get_endpoint env app request transaction_id
  | EApprove transaction_id decision => approve_endpoint env app request transaction_id decision
  | ECancel transaction_id => cancel_endpoint env app request transaction_id
  end.

(** The access an endpoint's success is audited as. *)
Definition audited_as (e : endpoint) (s : S) : Prop :=
  match e with
  | ECreate body _ => ∃ c, compiled body c ∧ outcome_recorded TRANSACTION_CREATE (tc_tenant_id (cr_command c)) None s
  | EGet tx => ∃ n v, env_get env n tx = Ok v ∧ outcome_recorded TRANSACTION_READ (tv_tenant_id v) (Some tx) s
  | EApprove tx _ => ∃ n v, env_get env n tx = Ok v ∧ outcome_recorded TRANSACTION_APPROVE (tv_tenant_id v) (Some tx) s
  | ECancel tx => ∃ n v, env_get env n tx = Ok v ∧ outcome_recorded TRANSACTION_CANCEL (tv_tenant_id v) (Some tx) s
  end.

Lemma serve_endpoint e st st' r :
  writer_ok (st_audit st) → serve request (run_endpoint e) st = (st', r) →
  moves st st' ∧ (success r → audited_as e (st_audit st')).
Proof.
  intros Ho. assert (safe (λ _, True) (run_endpoint e) (answers (audited_as e))) as Hs.
  { destruct e; [apply safe_create|apply safe_get_endpoint|apply safe_approve_endpoint|apply safe_cancel_endpoint]. }
  unfold serve. destruct (run_endpoint e st) as [st1 x] eqn:E. destruct (Hs _ _ _ Ho I E) as [Hm Hx].
  destruct x as [r1|[e1|e1|e1]]; intros [= <- <-]; (split; [exact Hm|]); [exact Hx|..]; unfold success; cbn; try lia.
  case_bool_decide; lia.
Qed.

(** C22. When the application has an access controller, which is optional ([open_server]): whatever
    the service answers and other requests do meanwhile, every call that reaches the transaction
    service is made for a principal the authenticator vouched for, and a submission, approval or
    cancellation only once the audit store holds the ALLOWED event of that principal's access, in
    the tenant of the compiled command or of the stored transaction, to that very resource; an
    approval carries the principal's own subject. *)
Theorem mutations_authorized e st st' r :
  writer_ok (st_audit st) → st_log st = [] → serve request (run_endpoint e) st = (st', r) →
  Forall justified_call (st_log st').
Proof.
  intros Ho Hl Hs. destruct (serve_endpoint e st st' r Ho Hs) as [[_ _ (l & El & Hf)] _].
  by rewrite El, Hl.
Qed.

(** C23. When the application has an access controller, a success is reported only after its audit
    record: when an endpoint answers 2xx the audit store holds an ALLOWED outcome event of the
    authenticated principal for that action on that resource in its tenant, and no earlier record
    is lost. *)
Theorem success_is_audited e st st' r :
  writer_ok (st_audit st) → serve request (run_endpoint e) st = (st', r) →
  (success r → audited_as e (st_audit st')) ∧ ∀ a, recorded (st_audit st) a → recorded (st_audit st') a.
Proof.
  intros Ho Hs. destruct (serve_endpoint e st st' r Ho Hs) as [Hm Ha]. split; [done|]. apply (mo_keeps _ _ Hm).
Qed.

End laws.

(** Whatever an exception carries, its response is bounded: a lower-case code of at most 64
    characters, a message of 1 to 500 characters in which no internal marker occurs in any
    letter case, and a status from 400 to 599. *)
Theorem error_responses_bounded request_id e :
  ∃ code message,
    rs_body (runtime_error_response request_id e) = BError code message [] ∧
    safe_error_code code = true ∧ 2 ≤ len code ≤ 64 ∧ 1 ≤ len message ≤ 500 ∧
    Forall (λ marker, contains marker (casefold message) = false) unsafe_markers ∧
    400 ≤ rs_status_code (runtime_error_response request_id e) ≤ 599 ∧
    rs_request_id (runtime_error_response request_id e) = request_id.
Proof.
  exists (bounded_runtime_reason e), (bounded_message e). pose proof (runtime_reason_safe e) as Hc.
  pose proof (bounded_message_safe e) as [Hl Hm]. split_and!; try done; try lia.
  - destruct (bounded_runtime_reason e) as [|c s]; [done|]. cbn in Hc. unfold between, len in *. cbn. boolify. lia.
  - destruct (bounded_runtime_reason e) as [|c s]; [done|]. cbn in Hc. unfold between, len in *. cbn. boolify. lia.
  - unfold runtime_error_response, between. cbn. destruct (ex_status_code e) as [z|]; [destruct (_ && _) eqn:E|]; lia.
  - unfold runtime_error_response, between. cbn. destruct (ex_status_code e) as [z|]; [destruct (_ && _) eqn:E|]; lia.
Qed.

(** ** Requests on the example directory and ledger *)

#[local] Existing Instances distinct_sha256 distinct_sha256_laws example_float_repr example_reader.

(** An id longer than every id of the ledger. *)
Definition fresh_id (s : AuditStore) : string := fold_right String.append "e" (map aw_event_id (cn_data s)).

Lemma fresh_longer ids id :
  id ∈ ids → (String.length id < String.length (fold_right String.append "e" ids))%nat.
Proof.
  assert (∀ l, 1 ≤ String.length (fold_right String.append "e" l))%nat as Hl.
  { induction l as [|x l IH]; [done|]. cbn [fold_right]. rewrite length_append. lia. }
  induction ids as [|x ids IH]; [by intros ?%elem_of_nil|]. cbn [fold_right]. rewrite length_append.
  intros [->|Hid]%elem_of_cons; [specialize (Hl ids)|specialize (IH Hid)]; lia.
Qed.

Lemma fresh_id_unused (s : AuditStore) tenant_id : unused s tenant_id (fresh_id s).
Proof.
  intros r Hr [= _ He]. assert (aw_event_id (row_of r) ∈ map aw_event_id (cn_data s)) as Hid
    by by apply list_elem_of_fmap_2.
  apply fresh_longer in Hid. cbn [row_of aw_event_id] in Hid. unfold fresh_id in He. rewrite He in Hid. lia.
Qed.

Definition outsider : Principal := {|
  pc_issuer := pc_issuer example_principal; pc_subject := "user-9";
  pc_principal_type := pc_principal_type example_principal; pc_audiences := pc_audiences example_principal;
  pc_client_id := pc_client_id example_principal; pc_token_id_digest := pc_token_id_digest example_principal;
  pc_issued_at := pc_issued_at example_principal; pc_expires_at := pc_expires_at example_principal;
  pc_authenticated_at := pc_authenticated_at example_principal |}.

(** An environment over the answers of the service to a lookup. *)
Definition example_environment (answer : string → result Exc TransactionView) : Environment (S := AuditStore) := {|
  env_others _ := []; env_now _ := 3000000; env_event_id _ := fresh_id;
  env_authenticator _ token _ := Ok (if bool_decide (token = "outsider") then outsider else example_principal);
  env_authorizer _ := authorize provisioned;
  env_submit _ c key _ := Ok {| ts_tenant_id := tc_tenant_id (cr_command c); ts_transaction_id := "tx-1";
    ts_workflow_id := "workflow"; ts_submission_state := STARTED; ts_created := true |};
  env_get _ := answer; env_approve _ tx _ := answer tx; env_cancel _ := answer |}.
Definition protected : Application := {|
  ap_service := true; ap_contextual := true; ap_controller := Some "prod" |}.
Definition empty_state : State (S := AuditStore) := {| st_audit := empty_audit; st_log := []; st_step := 0 |}.
Definition request_of (token : string) : HttpRequest := {|
  hr_authorization := Some ("Bearer " +:+ token); hr_request_id := "request-1" |}.

(** The transaction [tx-1], started, under a service whose runtime is up or down. *)
Definition started_view : TransactionView := {|
  tv_tenant_id := "tenant"; tv_transaction_id := "tx-1"; tv_workflow_id := "workflow";
  tv_submission_state := STARTED; tv_start_error_code := None; tv_execution := None |}.
Definition exc_of (e : ServiceError) : Exc :=
  match e with
  | TransactionServiceError code message status => request_error code message status
  | LedgerError _ => plain_exception
  end.
Definition lookup_answer (runtime_up : bool) (transaction_id : string) : result Exc TransactionView :=
  if bool_decide (transaction_id = "tx-1") then
    if runtime_up then Ok started_view
    else Err (exc_of (status_unavailable "Transaction status is temporarily unavailable"))
  else Err (exc_of (TransactionServiceError "transaction_not_found" "Transaction was not found" 404)).
Definition answered (runtime_up : bool) (token : string) (e : endpoint) : State (S := AuditStore) * Response :=
  serve (request_of token)
    (run_endpoint (example_environment (lookup_answer runtime_up)) protected (request_of token) e) empty_state.

Example answers_of_roles :
  (map (λ x, rs_status_code x.2)
     [answered true "member" (EGet "tx-1"); answered true "member" (EApprove "tx-1"
        {| aq_step_id := "s"; aq_approved := true; aq_decided_by := "somebody"; aq_reason := None |});
      answered true "outsider" (ECancel "tx-1"); answered true "outsider" (ECancel "tx-2")],
   rs_body (answered true "outsider" (EGet "tx-1")).2 = rs_body (answered true "outsider" (EGet "tx-2")).2)
  = ([200; 403; 404; 404], BError "transaction_not_found" "Transaction was not found" []
                           = BError "transaction_not_found" "Transaction was not found" []).
Proof. vm_compute. reflexivity. Qed.

(** Without an access controller nothing is asked of the caller and nothing is recorded: a request
    with no credentials cancels a transaction of any tenant. *)
Example open_server :
  let open := {| ap_service := true; ap_contextual := true; ap_controller := None |} in
  let anonymous := {| hr_authorization := None; hr_request_id := "request-1" |} in
  let x := serve anonymous (run_endpoint (example_environment (lookup_answer true)) open anonymous (ECancel "tx-1"))
    empty_state in
  (rs_status_code x.2, map fst (st_log x.1), length (cn_data (st_audit x.1)))
  = (200, [CCancel "tx-1" (Ok started_view)], 0%nat).
Proof. vm_compute. reflexivity. Qed.

(** While the runtime cannot be reached, a caller outside the tenant can tell an existing
    transaction from a missing one: the service is asked before access is. *)
Example existence_revealed :
  (rs_status_code (answered false "outsider" (EGet "tx-1")).2,
   rs_status_code (answered false "outsider" (EGet "tx-2")).2) = (503, 404).
Proof. vm_compute. reflexivity. Qed.

(** A service error code the normalizer accepts but the audit contract does not makes the
    failure go unaudited and unanswered. *)
Example unaudited_failure :
  let r := answered true "member" (ECancel "tx-1") in
  let failing := {|
    env_others _ := []; env_now _ := 3000000; env_event_id _ := fresh_id;
    env_authenticator _ _ _ := Ok example_principal; env_authorizer _ := authorize provisioned;
    env_submit _ _ _ _ := Err plain_exception; env_get _ := lookup_answer true;
    env_approve _ _ _ := Err plain_exception;
    env_cancel _ _ := Err (request_error "runtime:unavailable" "try later" 503) |} in
  let x := serve (request_of "member") (run_endpoint failing protected (request_of "member") (ECancel "tx-1")) empty_state in
  (rs_status_code r.2, rs_status_code x.2, length (cn_data (st_audit x.1))) = (200, 500, 1%nat).
Proof. vm_compute. reflexivity. Qed.

Lemma protected_writer : writer_ok (st_audit empty_state).
Proof. apply (audit_reachable_ok empty_audit). apply star_refl. Qed.

Definition example_run : State (S := AuditStore) * Response :=
  serve (request_of "member") (run_endpoint (example_environment (lookup_answer true)) protected (request_of "member")
    (ECancel "tx-1")) empty_state.

Lemma mutations_authorized_witness :
  map fst (st_log example_run.1) = [CGet "tx-1" (Ok started_view); CCancel "tx-1" (Ok started_view)] ∧
  Forall (justified_call (example_environment (lookup_answer true)) (request_of "member") "prod") (st_log example_run.1).
Proof.
  split; [vm_compute; reflexivity|].
  apply (mutations_authorized (example_environment (lookup_answer true)) protected (request_of "member") "prod" eq_refl
    (λ n, fresh_id_unused) (ECancel "tx-1") empty_state example_run.1 example_run.2 protected_writer eq_refl).
  exact (surjective_pairing example_run).
Defined.

Lemma success_is_audited_witness :
  success example_run.2 ∧
  audited_as (example_environment (lookup_answer true)) (request_of "member") "prod" (ECancel "tx-1") (st_audit example_run.1).
Proof.
  assert (success example_run.2) as Hs by (split; vm_compute; [discriminate|reflexivity]).
  split; [exact Hs|].
  destruct (success_is_audited (example_environment (lookup_answer true)) protected (request_of "member") "prod" eq_refl
    (λ n, fresh_id_unused) (ECancel "tx-1") empty_state example_run.1 example_run.2 protected_writer) as [H _].
  - exact (surjective_pairing example_run).
  - exact (H Hs).
Defined.
