(* ===== verification/Migrations.v ===== *)
(** * Document migrations (ir/migrations.py)

    The registry of migration steps, the breadth-first search for a path between two schema
    versions, and the derivation that applies it and keeps the digests of both documents.
    A payload is the list of its items; [deepcopy] and the fresh dictionaries steps return
    leave the caller's payload alone.  A derivation is for a [str]-keyed JSON payload. *)

From S2P Require Import Prelude.
From S2P Require Import Contracts.
From S2P Require Import Documents.
From S2P Require Import Mapping.
From S2P Require Import Compile.

Inductive MigrationFailure :=
| MigrationError (message : string)
| MigrationTypeError (message : string).

Notation Payload := (list (string * json)).

Record MigrationStep := {
  ms_source_version : string;
  ms_target_version : string;
  ms_migrate : Payload → result MigrationFailure Payload }.

(** ** The registry *)

(** [self._steps], in the order of registration. *)
Definition MigrationRegistry : Type := list MigrationStep.

Definition step_key (step : MigrationStep) : string * string := (ms_source_version step, ms_target_version step).

Definition register_migration (step : MigrationStep) (steps : MigrationRegistry)
    : result MigrationFailure MigrationRegistry :=
  raise_if (bool_decide (ms_source_version step = ms_target_version step))
    (MigrationError "migration source and target versions must differ");;
  raise_if (mem (step_key step) (map step_key steps)) (MigrationError "migration already registered");;
  Ok (steps ++ [step]).

(** ** The search *)

Notation Queue := (list (string * list MigrationStep)).

(** The loop over the edges for one version: the path to the target, or the queue and the
    versions visited. *)
Fixpoint expand (target current : string) (path : list MigrationStep) (steps : MigrationRegistry)
    (queue : Queue) (visited : list string) : list MigrationStep + (Queue * list string) :=
  match steps with
  | [] => inr (queue, visited)
  | step :: steps' =>
      if negb (bool_decide (ms_source_version step = current)) || mem (ms_target_version step) visited
      then expand target current path steps' queue visited
      else
        let next_path := path ++ [step] in
        if bool_decide (ms_target_version step = target) then inl next_path
        else expand target current path steps' (queue ++ [(ms_target_version step, next_path)])
               (ms_target_version step :: visited)
  end.

(** The loop over the queue; the fuel counts the versions still to be taken from it. *)
Fixpoint search (fuel : nat) (steps : MigrationRegistry) (target : string) (queue : Queue) (visited : list string)
    : option (list MigrationStep) :=
  match fuel, queue with
  | S fuel', (current, path) :: queue' =>
      match expand target current path steps queue' visited with
      | inl found => Some found
      | inr (queue'', visited') => search fuel' steps target queue'' visited'
      end
  | _, _ => None
  end.

(** [_find_path]: each step adds at most one version. *)
Definition find_path (steps : MigrationRegistry) (source_version target_version : string)
    : result MigrationFailure (list MigrationStep) :=
  match search (S (length steps)) steps target_version [(source_version, [])] [source_version] with
  | Some path => Ok path
  | None => Err (MigrationError "no migration path")
  end.

(** ** Derivations *)

Record MigrationDerivation := {
  mg_command : TransactionCommand;
  mg_source_schema_version : string;
  mg_target_schema_version : string;
  mg_applied_steps : list (string * string);
  mg_original_canonical_json : string;
  mg_migrated_canonical_json : string;
  mg_original_digest : string;
  mg_migrated_digest : string }.

(** [value == s] for a JSON value. *)
Definition is_string (value : option json) (s : string) : bool :=
  match value with Some (JStr t) => bool_decide (t = s) | _ => false end.

(** The loop over the path. *)
Fixpoint apply_steps (path : list MigrationStep) (working : Payload) : result MigrationFailure Payload :=
  match path with
  | [] => Ok working
  | step :: path' =>
      working' ← ms_migrate step working;
      raise_if (negb (is_string (assoc "schema_version" working') (ms_target_version step)))
        (MigrationError "migration did not set the target schema_version");;
      apply_steps path' working'
  end.

Section derive.
Context `{Sha256, FloatRepr, DatetimeText, PayloadReader}.

(** [_canonical_document_json]. *)
Definition canonical_document_json (payload : json) : result MigrationFailure string :=
  raise_if (negb (json_finite payload)) (MigrationError "migration payload must be JSON-compatible");;
  Ok (json_dumps payload).

(** [_document_digest]. *)
Definition document_digest (canonical_json : string) : string := "sha256:" +:+ sha256_hex canonical_json.

(** [command.model_dump(mode="json", exclude_none=True)]. *)
Definition command_document (c : TransactionCommand) : json :=
  match command_json true (λ d, JStr (datetime_text d)) c with
  | JObj fields =>
      JObj (match tc_transaction_id c with Some t => [("transaction_id", JStr t)] | None => [] end
            ++ ("requested_at", JStr (datetime_text (tc_requested_at c))) :: fields)
  | other => other
  end.

(** The path [derive] applies. *)
Definition derivation_path (steps : MigrationRegistry) (source_version target_version : string)
    : result MigrationFailure (list MigrationStep) :=
  if bool_decide (source_version = target_version) then Ok [] else find_path steps source_version target_version.

Definition derive (steps : MigrationRegistry) (payload : Payload) (target_version : string)
    : result MigrationFailure MigrationDerivation :=
  match assoc "schema_version" payload with
  | Some (JStr source_version) =>
      path ← derivation_path steps source_version target_version;
      working ← apply_steps path payload;
      match read_command (JObj working) with
      | Err _ => Err (MigrationError "migrated payload does not satisfy the target schema")
      | Ok command =>
          original_json ← canonical_document_json (JObj payload);
          migrated_json ← canonical_document_json (command_document command);
          Ok {| mg_command := command; mg_source_schema_version := source_version;
                mg_target_schema_version := target_version; mg_applied_steps := map step_key path;
                mg_original_canonical_json := original_json; mg_migrated_canonical_json := migrated_json;
                mg_original_digest := document_digest original_json;
                mg_migrated_digest := document_digest migrated_json |}
      end
  | _ => Err (MigrationError "payload must contain a string schema_version")
  end.

Definition migrate (steps : MigrationRegistry) (payload : Payload) (target_version : string)
    : result MigrationFailure TransactionCommand :=
  mg_command <$> derive steps payload target_version.

End derive.

(** ** The prototype payload *)

Definition V0ALPHA1 : string := "cargomesh.transaction/v0alpha1".

Definition v0alpha1_required : list string :=
  ["tenantId"; "externalReference"; "requestedAt"; "referenceType"; "referenceValue"].

(** [reference_field_by_type]. *)
Definition reference_field_by_type (reference_type : string) : option string :=
  if bool_decide (reference_type = "carrierBookingReference") then Some "carrier_booking_reference"
  else if bool_decide (reference_type = "transportDocumentReference") then Some "transport_document_reference"
  else if bool_decide (reference_type = "equipmentReference") then Some "equipment_reference"
  else None.

(** The document of [_v0alpha1_to_v1], with the subject's reference field. *)
Definition v1_document (payload : Payload) (reference_field : string) : Payload :=
  let item key := default JNull (assoc key payload) in [
  ("schema_version", JStr IR_SCHEMA_VERSION); ("transaction_id", item "transactionId");
  ("tenant_id", item "tenantId"); ("transaction_type", JStr "shipment.track");
  ("external_reference", item "externalReference"); ("requested_at", item "requestedAt");
  ("subject", JObj [("kind", JStr "shipment"); (reference_field, item "referenceValue")]);
  ("parameters", JObj [("event_types", default (JList []) (assoc "eventTypes" payload))]);
  ("requested_effects", JList [JStr "latest_transport_events_returned"]);
  ("verification_requirements", JObj [("minimum_independence_level", JStr "L1")]);
  ("risk_class", JStr "READ_ONLY"); ("required_capabilities", JList [JStr "shipment.track.read"]);
  ("extensions", JObj [])].

(** [_v0alpha1_to_v1]; asking whether an unhashable value is a key of a dictionary raises a
    [TypeError]. *)
Definition v0alpha1_to_v1 (payload : Payload) : result MigrationFailure Payload :=
  raise_if (existsb (λ key, is_none (assoc key payload)) v0alpha1_required)
    (MigrationError "v0alpha1 payload is missing a key");;
  match assoc "referenceType" payload with
  | Some (JList _ | JObj _) => Err (MigrationTypeError "unhashable type")
  | Some (JStr reference_type) =>
      match reference_field_by_type reference_type with
      | Some field => Ok (v1_document payload field)
      | None => Err (MigrationError "unsupported v0alpha1 referenceType")
      end
  | _ => Err (MigrationError "unsupported v0alpha1 referenceType")
  end.

Definition v0alpha1_step : MigrationStep := {|
  ms_source_version := V0ALPHA1; ms_target_version := IR_SCHEMA_VERSION; ms_migrate := v0alpha1_to_v1 |}.
Definition default_migration_registry : result MigrationFailure MigrationRegistry :=
  register_migration v0alpha1_step [].

(** ** The search is complete and finds a shortest path *)

(** A path of registered steps from the source. *)
Inductive chain (steps : MigrationRegistry) (source : string) : list MigrationStep → string → Prop :=
| chain_nil : chain steps source [] source
| chain_snoc path step :
    chain steps source path (ms_source_version step) → step ∈ steps →
    chain steps source (path ++ [step]) (ms_target_version step).

(** The entry a step adds to the queue. *)
Definition entry_of (path : list MigrationStep) (step : MigrationStep) : string * list MigrationStep :=
  (ms_target_version step, path ++ [step]).

Lemma expand_found target current path steps queue visited found :
  expand target current path steps queue visited = inl found →
  ∃ step, step ∈ steps ∧ ms_source_version step = current ∧ ms_target_version step = target ∧ found = path ++ [step].
Proof.
  revert queue visited. induction steps as [|step steps IH]; intros queue visited; [done|]. cbn.
  destruct (negb _ || _) eqn:E.
  { intros (s & Hs & ?)%IH. exists s. split; [by right|done]. }
  apply orb_false_iff in E as [E _]. boolify.
  destruct (bool_decide (_ = target)) eqn:Et; boolify.
  - intros [= <-]. exists step. split_and!; [left|done..].
  - intros (s & Hs & ?)%IH. exists s. split; [by right|done].
Qed.

(** What is scanned without meeting the target: the new versions are queued and visited. *)
Lemma expand_scanned target current path steps queue visited queue' visited' :
  expand target current path steps queue visited = inr (queue', visited') →
  ∃ added, queue' = queue ++ map (entry_of path) added ∧
    visited' = reverse (map ms_target_version added) ++ visited ∧
    (∀ step, step ∈ added → step ∈ steps ∧ ms_source_version step = current ∧
       ms_target_version step ∉ visited ∧ ms_target_version step ≠ target) ∧
    NoDup (map ms_target_version added) ∧
    ∀ step, step ∈ steps → ms_source_version step = current → ms_target_version step ∈ visited'.
Proof.
  revert queue visited. induction steps as [|step steps IH]; intros queue visited.
  { cbn. intros [= <- <-]. exists []. split_and!; [by rewrite app_nil_r|done|by intros ? ?%elem_of_nil|constructor|].
    by intros ? ?%elem_of_nil. }
  cbn. destruct (negb _ || _) eqn:E.
  - intros (added & -> & -> & Hadd & Hnd & Hall)%IH. exists added.
    split_and!; try done.
    + intros s Hs. destruct (Hadd s Hs) as (? & ?). split; [by right|done].
    + intros s [->|Hs]%elem_of_cons Hc; [|by apply Hall]. apply orb_true_iff in E as [E|E]; [boolify; congruence|].
      apply elem_of_app. right. by apply mem_true.
  - apply orb_false_iff in E as [Es Ev]. rewrite mem_false in Ev. boolify.
    destruct (bool_decide (_ = target)) eqn:Et; [done|]. boolify.
    intros (added & -> & -> & Hadd & Hnd & Hall)%IH. exists (step :: added). split_and!.
    + cbn. by rewrite <-app_assoc.
    + by rewrite map_cons, reverse_cons, <-app_assoc.
    + intros s [->|Hs]%elem_of_cons; [split_and!; [left|done..]|].
      destruct (Hadd s Hs) as (? & ? & Hn & ?). split_and!; [by right|done| |done]. intros Hv. apply Hn. by right.
    + cbn. constructor; [|done]. intros (s & Hst & Hs)%list_elem_of_fmap.
      destruct (Hadd s Hs) as (_ & _ & Hn & _). apply Hn. rewrite <-Hst. left.
    + intros s [->|Hs]%elem_of_cons Hc; [|by apply Hall]. apply elem_of_app. right. left.
Qed.

Section search.
Context (steps : MigrationRegistry) (source target : string).
Notation chain := (chain steps source).
Notation shortest p v := (chain p v ∧ ∀ q, chain q v → (length p ≤ length q)%nat).

(** The state of the search with [d] the length of the paths at the front of the queue: queued
    paths are shortest and at most one step apart, everything nearer is visited, and a version
    that has left the queue has all its neighbours visited. *)
Record frontier (queue : Queue) (visited : list string) (d : nat) : Prop := {
  fr_queue v p : (v, p) ∈ queue → shortest p v ∧ (d ≤ length p ≤ S d)%nat;
  fr_sorted : StronglySorted (λ a b, length a.2 ≤ length b.2)%nat queue;
  fr_near p v : chain p v → (length p ≤ d)%nat → v ∈ visited;
  fr_left v : v ∈ visited → (∃ p, (v, p) ∈ queue) ∨
    ∀ step, step ∈ steps → ms_source_version step = v → ms_target_version step ∈ visited;
  fr_target : target ∉ visited }.

(** A chain ends at its source or with a step from a shorter chain. *)
Lemma chain_end p v :
  chain p v → (p = [] ∧ v = source) ∨
  ∃ q step, p = q ++ [step] ∧ chain q (ms_source_version step) ∧ step ∈ steps ∧ v = ms_target_version step.
Proof. intros [|q step Hq Hs]; [by left|right; eauto 10]. Qed.

Lemma frontier_head current path queue visited d :
  frontier ((current, path) :: queue) visited d → frontier ((current, path) :: queue) visited (length path).
Proof.
  intros Hf. destruct (fr_queue _ _ _ Hf current path) as [_ Hl]; [left|].
  destruct (decide (length path = d)) as [->|Hd]; [done|]. assert (length path = S d) as Hp by lia. rewrite Hp.
  assert (∀ v p, (v, p) ∈ (current, path) :: queue → shortest p v ∧ length p = S d) as Hq.
  { intros v p Hv. destruct (fr_queue _ _ _ Hf v p Hv) as [Hs Hb]. split; [done|].
    apply elem_of_cons in Hv as [[= -> ->]|Hv]; [done|].
    pose proof (fr_sorted _ _ _ Hf) as [_ Ha]%StronglySorted_inv. rewrite Forall_forall in Ha.
    specialize (Ha _ Hv). cbn in Ha. lia. }
  split; try apply Hf.
  - intros v p Hv. destruct (Hq v p Hv). split; [done|lia].
  - intros p v Hc Hle. destruct (decide (length p ≤ d)%nat) as [|Hgt]; [by eapply (fr_near _ _ _ Hf)|].
    apply chain_end in Hc as [[-> ->]|(q & step & -> & Hc & Hs & ->)]; [cbn in Hgt; lia|].
    rewrite length_app in Hle, Hgt. cbn in Hle, Hgt.
    assert (ms_source_version step ∈ visited) as Hv by (eapply (fr_near _ _ _ Hf); [exact Hc|lia]).
    destruct (fr_left _ _ _ Hf _ Hv) as [[p' Hp']|Hall]; [|by apply Hall].
    destruct (Hq _ _ Hp') as [[_ Hmin] Hlen]. specialize (Hmin _ Hc). lia.
Qed.

(** A version met from the front of the queue for the first time is one step further. *)
Lemma frontier_step current path queue visited step :
  frontier ((current, path) :: queue) visited (length path) → step ∈ steps → ms_source_version step = current →
  ms_target_version step ∉ visited → shortest (path ++ [step]) (ms_target_version step).
Proof.
  intros Hf Hs Hc Hv. destruct (fr_queue _ _ _ Hf current path) as [[Hp _] _]; [left|]. split.
  - constructor; [by rewrite Hc|done].
  - intros q Hq. rewrite length_app. cbn. destruct (decide (length q ≤ length path)%nat); [|lia].
    exfalso. apply Hv. by eapply (fr_near _ _ _ Hf).
Qed.

Lemma frontier_expand current path queue visited queue' visited' :
  frontier ((current, path) :: queue) visited (length path) →
  expand target current path steps queue visited = inr (queue', visited') →
  frontier queue' visited' (length path).
Proof.
  intros Hf (added & -> & -> & Hadd & _ & Hall)%expand_scanned.
  pose proof (fr_sorted _ _ _ Hf) as [Hso Ha]%StronglySorted_inv. rewrite Forall_forall in Ha.
  assert (∀ v p, (v, p) ∈ map (entry_of path) added → shortest p v ∧ length p = S (length path)) as Hnew.
  { intros v p (step & [= -> ->] & Hs)%list_elem_of_fmap. destruct (Hadd step Hs) as (Hin & Hc & Hv & _).
    split; [by eapply frontier_step|]. rewrite length_app. cbn. lia. }
  assert (∀ v p, (v, p) ∈ queue → shortest p v ∧ (length path ≤ length p ≤ S (length path))%nat) as Hold.
  { intros v p Hv. apply (fr_queue _ _ _ Hf). by right. }
  split.
  - intros v p [Hv|Hv]%elem_of_app; [by apply Hold|]. destruct (Hnew v p Hv) as [? Hl]. split; [done|lia].
  - apply StronglySorted_app_2; [|done|].
    + intros [v p] [w q] [_ Hp]%Hold [_ Hq]%Hnew. cbn. lia.
    + apply (StronglySorted_fmap _ (λ _ _, True)); [|clear; induction added; constructor; [done|by apply Forall_true]].
      intros x y _. cbn. rewrite !length_app. done.
  - intros p v Hp Hl. apply elem_of_app. right. by eapply (fr_near _ _ _ Hf).
  - intros v [Hv|Hv]%elem_of_app.
    + left. apply elem_of_reverse, list_elem_of_fmap in Hv as (step & -> & Hs). exists (path ++ [step]).
      apply elem_of_app. right. apply list_elem_of_fmap. by exists step.
    + destruct (decide (v = current)) as [->|Hne]; [right; by intros; apply Hall|].
      destruct (fr_left _ _ _ Hf v Hv) as [(p & [[= -> ->]|Hp]%elem_of_cons)|Hn]; [done| |].
      * left. exists p. apply elem_of_app. by left.
      * right. intros. apply elem_of_app. right. by apply Hn.
  - intros [Hv|Hv]%elem_of_app; [|by apply (fr_target _ _ _ Hf)].
    apply elem_of_reverse, list_elem_of_fmap in Hv as (step & Ht & Hs). by apply (Hadd step Hs).
Qed.

(** A search that stops finds a shortest chain, or there is none. *)
Definition answer (found : option (list MigrationStep)) : Prop :=
  match found with Some p => shortest p target | None => ∀ p, ¬ chain p target end.

Lemma frontier_empty visited d : frontier [] visited d → ∀ p v, chain p v → v ∈ visited.
Proof.
  intros Hf p v. induction 1 as [|p step _ IH Hs]; [apply (fr_near _ _ _ Hf [] source); [apply chain_nil|cbn; lia]|].
  destruct (fr_left _ _ _ Hf _ IH) as [[? []%elem_of_nil]|Hn]. by apply Hn.
Qed.

(** The fuel covers the versions that are still to be taken from the queue. *)
Lemma search_answer fuel : ∀ queue visited d taken,
  frontier queue visited d → NoDup visited → visited ⊆ source :: map ms_target_version steps →
  length visited = (length queue + taken)%nat → (fuel + taken = S (length steps))%nat →
  answer (search fuel steps target queue visited).
Proof.
  induction fuel as [|fuel IH]; intros queue visited d taken Hf Hnd Hsub Hcount Hfuel.
  - assert (length visited ≤ S (length steps))%nat as Hb.
    { pose proof (submseteq_length _ _ (NoDup_submseteq _ _ Hnd Hsub)) as Hl. cbn in Hl. by rewrite length_map in Hl. }
    destruct queue; [|cbn in Hcount; lia]. cbn. intros p Hp. by eapply (fr_target _ _ _ Hf), frontier_empty.
  - destruct queue as [|[current path] queue].
    { cbn. intros p Hp. by eapply (fr_target _ _ _ Hf), frontier_empty. }
    apply frontier_head in Hf. cbn. destruct (expand _ _ _ _ _ _) as [found|[queue' visited']] eqn:E.
    + apply expand_found in E as (step & Hs & Hc & Ht & ->).
      pose proof (fr_target _ _ _ Hf) as Hn. rewrite <-Ht in Hn.
      pose proof (frontier_step current path queue visited step Hf Hs Hc Hn) as Hp. by rewrite Ht in Hp.
    + pose proof (frontier_expand _ _ _ _ _ _ Hf E) as Hf'.
      apply expand_scanned in E as (added & -> & -> & Hadd & Hna & _).
      eapply (IH _ _ _ (S taken)); [exact Hf'| | | |lia].
      * apply NoDup_app. split_and!; [by rewrite reverse_Permutation| |done].
        intros v (step & -> & Hs)%elem_of_reverse%list_elem_of_fmap. by apply (Hadd step Hs).
      * intros v [Hv|Hv]%elem_of_app; [|by apply Hsub].
        apply elem_of_reverse, list_elem_of_fmap in Hv as (step & -> & Hs). right. apply list_elem_of_fmap.
        exists step. split; [done|]. by apply (Hadd step Hs).
      * rewrite !length_app, length_reverse, !length_map. cbn in Hcount. lia.
Qed.

Lemma search_start : source ≠ target → answer (search (S (length steps)) steps target [(source, [])] [source]).
Proof.
  intros Hne. apply (search_answer _ _ _ 0 0).
  - split.
    + intros v p [= -> ->]%list_elem_of_singleton. split; [|cbn; lia]. split; [constructor|cbn; lia].
    + repeat constructor.
    + intros p v Hc Hl. apply chain_end in Hc as [[-> ->]|(q & step & -> & _)]; [left|].
      rewrite length_app in Hl. cbn in Hl. lia.
    + intros v ->%list_elem_of_singleton. left. exists []. left.
    + rewrite list_elem_of_singleton. congruence.
  - apply NoDup_singleton.
  - intros v ->%list_elem_of_singleton. left.
  - done.
  - lia.
Qed.

End search.

(** [shortest p v]: a chain to [v] no other chain to [v] is shorter than. *)
Definition shortest_chain (steps : MigrationRegistry) (source : string) (p : list MigrationStep) (v : string) : Prop :=
  chain steps source p v ∧ ∀ q, chain steps source q v → (length p ≤ length q)%nat.

(** The path exists exactly when some chain of registered steps does, and is a shortest one. *)
Lemma derivation_path_answer steps source target :
  match derivation_path steps source target with
  | Ok p => shortest_chain steps source p target
  | Err e => e = MigrationError "no migration path" ∧ ∀ p, ¬ chain steps source p target
  end.
Proof.
  unfold derivation_path. destruct (bool_decide (source = target)) eqn:E; boolify.
  - subst target. split; [apply chain_nil|]. cbn. lia.
  - pose proof (search_start steps source target E) as Ha. unfold find_path. destruct (search _ _ _ _ _); done.
Qed.

(** What applying a path needs of the payload: every step accepts it and sets its version. *)
Inductive migrates : list MigrationStep → Payload → Payload → Prop :=
| migrates_nil payload : migrates [] payload payload
| migrates_cons step path payload payload' migrated :
    ms_migrate step payload = Ok payload' →
    is_string (assoc "schema_version" payload') (ms_target_version step) = true →
    migrates path payload' migrated → migrates (step :: path) payload migrated.

Lemma apply_steps_ok path payload migrated : apply_steps path payload = Ok migrated ↔ migrates path payload migrated.
Proof.
  revert payload. induction path as [|step path IH]; intros payload; cbn.
  - split; [intros [= ->]; constructor|]. by inversion 1.
  - rewrite bind_ok. split.
    + intros (payload' & Hm & [Hv Hp]%raise_if_then). apply negb_false_iff in Hv. apply IH in Hp. by econstructor.
    + inversion 1; subst. exists payload'. split; [done|]. apply raise_if_then. rewrite IH. split; [|done].
      by apply negb_false_iff.
Qed.

Section derivations.
Context `{Sha256, FloatRepr, DatetimeText, PayloadReader}.

Lemma document_json_ok payload text :
  canonical_document_json payload = Ok text ↔ json_finite payload = true ∧ text = json_dumps payload.
Proof.
  unfold canonical_document_json. rewrite raise_if_then. split.
  - by intros [?%negb_false_iff [= <-]].
  - intros [Hf ->]. by rewrite Hf.
Qed.

(** The derivation a path gives: its steps accept the payload one after the other, each setting
    its version, the result reads as a valid command, both documents are JSON, and the
    derivation keeps that command, the steps applied, and texts and digests of the payload as it
    was given and of the migrated command. *)
Definition derived (path : list MigrationStep) (source target : string) (payload : Payload) (d : MigrationDerivation)
    : Prop :=
  (∃ migrated, migrates path payload migrated ∧ read_command (JObj migrated) = Ok (mg_command d)) ∧
  validate_command (mg_command d) = Ok () ∧
  json_finite (JObj payload) = true ∧ json_finite (command_document (mg_command d)) = true ∧
  mg_source_schema_version d = source ∧ mg_target_schema_version d = target ∧
  mg_applied_steps d = map step_key path ∧
  mg_original_canonical_json d = json_dumps (JObj payload) ∧
  mg_migrated_canonical_json d = json_dumps (command_document (mg_command d)) ∧
  mg_original_digest d = document_digest (mg_original_canonical_json d) ∧
  mg_migrated_digest d = document_digest (mg_migrated_canonical_json d).

Lemma derive_ok steps payload source target path d :
  assoc "schema_version" payload = Some (JStr source) → derivation_path steps source target = Ok path →
  derive steps payload target = Ok d ↔ derived path source target payload d.
Proof.
  intros Ev Hp. unfold derive, derived. rewrite Ev, Hp. cbn [mbind result_bind]. split.
  - intros Hd. apply bind_ok in Hd as (migrated & Hm & Hd).
    destruct (read_command _) as [command|] eqn:Hr; [|done].
    apply bind_ok in Hd as (original & [Hfo ->]%document_json_ok & Hd).
    apply bind_ok in Hd as (text & [Hfm ->]%document_json_ok & <-%Ok_inj). cbn.
    split_and!; try done; [|by eapply read_command_valid]. exists migrated. split; [by apply apply_steps_ok|done].
  - intros ((migrated & Hm & Hr) & _ & Hfo & Hfm & Hs & Ht & Ha & Ho & Hg & Hdo & Hdm).
    apply apply_steps_ok in Hm. rewrite Hm. cbn [mbind result_bind]. rewrite Hr.
    rewrite (proj2 (document_json_ok _ _) (conj Hfo eq_refl)). cbn [mbind result_bind].
    rewrite (proj2 (document_json_ok _ _) (conj Hfm eq_refl)). cbn [mbind result_bind]. f_equal.
    destruct d as [c s t a o m od md]. cbn in *. congruence.
Qed.

(** C31. Migration between two versions is decided by the registered steps: when some chain of
    them leads from the one to the other, there is a shortest such chain by which every payload
    of the first version is derived, so that a derivation exists exactly when the steps of that
    chain accept the payload one after the other, each setting its version, the result reads as
    a command and both documents are JSON, and it is the derivation of that chain; when none
    does, every such payload is refused for want of a path; and so is one without a version. *)
Theorem derivation_exact steps source target :
  (∀ p, chain steps source p target →
     ∃ path, shortest_chain steps source path target ∧
       ∀ payload d, assoc "schema_version" payload = Some (JStr source) →
         derive steps payload target = Ok d ↔ derived path source target payload d) ∧
  ((∀ p, ¬ chain steps source p target) →
     ∀ payload, assoc "schema_version" payload = Some (JStr source) →
       derive steps payload target = Err (MigrationError "no migration path")) ∧
  (∀ payload, (∀ version, assoc "schema_version" payload ≠ Some (JStr version)) →
     derive steps payload target = Err (MigrationError "payload must contain a string schema_version")).
Proof.
  pose proof (derivation_path_answer steps source target) as Ha. split_and!.
  - intros p Hp. destruct (derivation_path steps source target) as [path|e] eqn:E; [|by destruct Ha as [_ []%(λ H, H p)]].
    exists path. split; [done|]. intros payload d Hv. by apply derive_ok.
  - intros Hn payload Hv. unfold derive. rewrite Hv.
    destruct (derivation_path steps source target) as [path|e]; [by destruct (Hn path); apply Ha|].
    by destruct Ha as [-> _].
  - intros payload Hv. unfold derive. destruct (assoc _ _) as [[]|]; try done. by destruct (Hv s).
Qed.

End derivations.

(** The prototype's step accepts exactly the payloads with every required key and a known
    reference type. *)
Lemma v0alpha1_accepts payload :
  is_ok (v0alpha1_to_v1 payload) = true ↔
  (∀ key, key ∈ v0alpha1_required → is_Some (assoc key payload)) ∧
  ∃ t, assoc "referenceType" payload = Some (JStr t) ∧
    t ∈ ["carrierBookingReference"; "transportDocumentReference"; "equipmentReference"].
Proof.
  assert (existsb (λ key, is_none (assoc key payload)) v0alpha1_required = false ↔
    ∀ key, key ∈ v0alpha1_required → is_Some (assoc key payload)) as Hreq.
  { rewrite existsb_elem_false. split; intros Hall key Hk; specialize (Hall key Hk); cbn in *;
      destruct (assoc key payload); try done; by destruct Hall. }
  rewrite <-Hreq. unfold v0alpha1_to_v1. destruct (existsb _ _); cbn; [split; [done|by intros []]|].
  assert (∀ t, is_Some (reference_field_by_type t) ↔
    t ∈ ["carrierBookingReference"; "transportDocumentReference"; "equipmentReference"]) as Hf.
  { intros t. rewrite !elem_of_cons, elem_of_nil. split.
    - unfold reference_field_by_type. do 3 (case_bool_decide; [by auto|]). by intros [? ?].
    - intros [->|[->|[->|[]]]]; by eexists. }
  destruct (assoc "referenceType" payload) as [[| | | |t| |]|] eqn:Et; cbn;
    try (split; [done|intros (_ & ? & [= ?] & _)]).
  destruct (reference_field_by_type t) eqn:E; split; try done.
  - intros _. split; [done|]. exists t. split; [done|]. by rewrite <-Hf, E.
  - intros (_ & ? & [= <-] & Hin%Hf). rewrite E in Hin. by destruct Hin.
Qed.

(** ** Examples *)

#[local] Existing Instances distinct_sha256 example_float_repr.
#[local] Instance example_datetimes : DatetimeText := canonical_datetime.

Definition identity_step (source target : string) : MigrationStep := {|
  ms_source_version := source; ms_target_version := target;
  ms_migrate payload := Ok (("schema_version", JStr target) :: payload) |}.

(** Two steps registered later are preferred to three registered first; the longest cycle
    does not keep the search busy. *)
Example shorter_path_found :
  match find_path [identity_step "a" "b"; identity_step "b" "c"; identity_step "c" "d"; identity_step "c" "a";
                   identity_step "b" "d"] "a" "d" with
  | Ok path => map step_key path = [("a", "b"); ("b", "d")]
  | Err _ => False
  end.
Proof. vm_compute. reflexivity. Qed.
Example no_path_back :
  find_path [identity_step "a" "b"; identity_step "b" "c"] "c" "a" = Err (MigrationError "no migration path").
Proof. vm_compute. reflexivity. Qed.
Example registered_twice :
  register_migration v0alpha1_step [v0alpha1_step] = Err (MigrationError "migration already registered").
Proof. vm_compute. reflexivity. Qed.

Definition prototype (reference_type : json) : Payload := [
  ("schema_version", JStr V0ALPHA1); ("tenantId", JStr "tenant"); ("externalReference", JStr "EXT-1");
  ("requestedAt", JStr "2026-01-01T00:00:00Z"); ("referenceType", reference_type);
  ("referenceValue", JStr "REF-1")].

(** A reference type that cannot be a key of a dictionary escapes as a [TypeError], where the
    registry promises [MigrationError]s. *)
Example unhashable_reference_type :
  v0alpha1_to_v1 (prototype (JList [])) = Err (MigrationTypeError "unhashable type").
Proof. vm_compute. reflexivity. Qed.

(** A reader of the documents the prototype's step writes for a carrier booking. *)
Definition read_tracking (j : json) : result string TransactionCommand :=
  match j with
  | JObj fields =>
      match assoc "tenant_id" fields, assoc "external_reference" fields, assoc "subject" fields with
      | Some (JStr tenant), Some (JStr external), Some (JObj [_; (key, JStr reference)]) =>
          raise_if (negb (bool_decide (key = "carrier_booking_reference"))) "unsupported payload";;
          let c := {|
            tc_transaction_id := None; tc_tenant_id := tenant; tc_transaction_type := SHIPMENT_TRACK;
            tc_external_reference := external; tc_requested_at := {| dt_local := 0; dt_offset := Some 0 |};
            tc_subject := SShipment {|
              ss_carrier_booking_reference := Some reference; ss_booking_reference := None;
              ss_transport_document_id := None; ss_transport_document_reference := None;
              ss_equipment_reference := None; ss_schedule_id := None; ss_transport_call_id := None |};
            tc_parameters := PTrack {|
              tf_event_types := []; tf_shipment_event_type_codes := []; tf_document_type_codes := [];
              tf_transport_event_type_codes := []; tf_equipment_event_type_codes := [];
              tf_vessel_imo_number := None; tf_carrier_voyage_number := None; tf_export_voyage_number := None;
              tf_carrier_service_code := None; tf_un_location_code := None; tf_event_created_date_time := None;
              tf_limit := None; tf_cursor := None; tf_sort := None |};
            tc_requested_effects := [LATEST_TRANSPORT_EVENTS_RETURNED]; tc_minimum_independence_level := L1;
            tc_risk_class := READ_ONLY; tc_required_capabilities := [SHIPMENT_TRACK_READ]; tc_extensions := [] |} in
          validate_command c;; Ok c
      | _, _, _ => Err "unsupported payload"
      end
  | _ => Err "unsupported payload"
  end.

#[local] Instance tracking_reader : PayloadReader.
Proof.
  refine {| read_command := read_tracking; read_query := λ _, Err "unsupported payload";
            read_context := λ _, Err "unsupported payload" |}; try done.
  intros j c. unfold read_tracking. intros Hc.
  repeat match type of Hc with context [match ?v with _ => _ end] => destruct v; try done end.
  apply raise_if_then in Hc as [_ Hc]. by apply bind_ok in Hc as ([] & Hv & <-%Ok_inj).
Defined.

(** The prototype payload is migrated in one step; the derivation keeps both texts apart. *)
Example prototype_derivation :
  match derive [v0alpha1_step] (prototype (JStr "carrierBookingReference")) IR_SCHEMA_VERSION with
  | Ok d => mg_applied_steps d = [(V0ALPHA1, IR_SCHEMA_VERSION)] ∧ tc_tenant_id (mg_command d) = "tenant" ∧
      bool_decide (mg_original_digest d = mg_migrated_digest d) = false
  | Err _ => False
  end.
Proof. vm_compute. split_and!; reflexivity. Qed.

Lemma derivation_exact_witness :
  ∃ path d, shortest_chain [v0alpha1_step] V0ALPHA1 path IR_SCHEMA_VERSION ∧
    derive [v0alpha1_step] (prototype (JStr "carrierBookingReference")) IR_SCHEMA_VERSION = Ok d ∧
    derived path V0ALPHA1 IR_SCHEMA_VERSION (prototype (JStr "carrierBookingReference")) d.
Proof.
  destruct (derivation_exact [v0alpha1_step] V0ALPHA1 IR_SCHEMA_VERSION) as [Hd _].
  destruct (Hd ([] ++ [v0alpha1_step])) as (path & Hp & Hiff).
  { exact (chain_snoc _ _ [] v0alpha1_step (chain_nil _ _) (list_elem_of_here _ _)). }
  destruct (derive [v0alpha1_step] (prototype (JStr "carrierBookingReference")) IR_SCHEMA_VERSION) as [d|e] eqn:E.
  - exists path, d. split; [exact Hp|]. split; [reflexivity|]. apply (Hiff _ d); [reflexivity|exact E].
  - exfalso. vm_compute in E. discriminate E.
Defined.
