(* ===== verification/ReferenceData.v ===== *)
(** * Reference data (standards/reference_data.py)

    Versioned records with validity periods, and the catalog that refuses overlapping versions
    of a code and answers exact and alias lookups.  A date is its proleptic ordinal
    ([date.toordinal()]), from [DATE_MIN] to [DATE_MAX].  Reading CSV files is not modelled:
    a catalog is built from records already read. *)

From Stdlib Require Import Ascii.
From S2P Require Import Prelude.
From S2P Require Import Contracts.
From S2P Require Import Documents.
From S2P Require Import Mapping.

(** ** Records *)

Definition DATE_MIN : Z := 1.
Definition DATE_MAX : Z := 3652059.
Definition date_ok (d : Z) : bool := between DATE_MIN d DATE_MAX.

Inductive RecordStatus := ACTIVE | DEPRECATED.

#[export] Instance RecordStatus_eq_dec : EqDecision RecordStatus.
Proof. solve_decision. Defined.

Record ReferenceDataRecord := {
  rf_namespace : string;
  rf_code : string;
  rf_name : string;
  rf_aliases : list string;
  rf_version : string;
  rf_status : RecordStatus;
  rf_valid_from : option Z;
  rf_valid_to : option Z }.

#[export] Instance ReferenceDataRecord_eq_dec : EqDecision ReferenceDataRecord.
Proof. solve_decision. Defined.

(** [value.strip()] is empty. *)
Definition blank (s : string) : bool := forall_chars py_space s.

(** [_parse_aliases], on what a CSV field or a constructor gives. *)
Definition nonblank_stripped (aliases : list string) : list string :=
  List.filter (λ a, negb (bool_decide (a = EmptyString))) (map (λ a, py_strip (String.list_ascii_of_string a)) aliases).
Definition parse_aliases (value : json) : result string (list string) :=
  match value with
  | JNull => Ok []
  | JStr s => Ok (nonblank_stripped (map String.string_of_list_ascii (split_at 124 [] (String.list_ascii_of_string s))))
  | JList l =>
      aliases ← mapM_result (λ v, match v with
                                 | JStr s => Ok s
                                 | _ => Err "must be a '|' delimited string or a sequence of strings"
                                 end) l;
      Ok (nonblank_stripped aliases)
  | _ => Err "must be a '|' delimited string or a sequence of strings"
  end.

Definition validate_record (r : ReferenceDataRecord) : result string () :=
  raise_if (existsb blank [rf_namespace r; rf_code r; rf_name r; rf_version r]) "must not be blank";;
  raise_if (negb (opt_ok date_ok (rf_valid_from r) && opt_ok date_ok (rf_valid_to r))) "field constraint";;
  raise_if (match rf_valid_from r, rf_valid_to r with Some from, Some to => to <? from | _, _ => false end)
    "valid_to must be on or after valid_from".

(** [valid_at]; [None] asks for any time. *)
Definition valid_at (r : ReferenceDataRecord) (at_ : option Z) : bool :=
  match at_ with
  | None => true
  | Some at_ =>
      match rf_valid_from r with Some from => from <=? at_ | None => true end
      && match rf_valid_to r with Some to => at_ <=? to | None => true end
  end.

(** ** The catalog *)

Definition valid_start (r : ReferenceDataRecord) : Z := default DATE_MIN (rf_valid_from r).
Definition valid_end (r : ReferenceDataRecord) : Z := default DATE_MAX (rf_valid_to r).

(** [_record_sort_key] and its order. *)
Definition record_sort_key (r : ReferenceDataRecord) : string * (string * (Z * string)) :=
  (rf_namespace r, (rf_code r, (valid_start r, rf_version r))).
Notation record_order := (lex String.le (lex String.le (lex Z.le String.le))).

Definition group_key (r : ReferenceDataRecord) : string * string := (rf_namespace r, rf_code r).

(** [itertools.pairwise]. *)
Fixpoint pairwise {A} (l : list A) : list (A * A) :=
  match l with
  | a :: (b :: _) as l' => (a, b) :: pairwise l'
  | _ => []
  end.

Definition overlapping (p : ReferenceDataRecord * ReferenceDataRecord) : bool := valid_start p.2 <=? valid_end p.1.

(** [_validate_non_overlapping_codes]: the groups in order of their first record. *)
Definition versions (key : string * string) (records : list ReferenceDataRecord) : list ReferenceDataRecord :=
  filter (λ r, group_key r = key) records.
Definition validate_non_overlapping_codes (records : list ReferenceDataRecord) : result string () :=
  raise_if (existsb (λ key, existsb overlapping (pairwise (versions key records)))
              (remove_dups (map group_key records))) "overlapping validity".

Definition ReferenceDataCatalog : Type := list ReferenceDataRecord.

(** [__init__]. *)
Definition make_catalog (records : list ReferenceDataRecord) : result string ReferenceDataCatalog :=
  let ordered := sorted_by record_sort_key record_order records in
  validate_non_overlapping_codes ordered;;
  Ok ordered.

Definition list_records (catalog : ReferenceDataCatalog) (namespace : string) (at_ : option Z)
    : list ReferenceDataRecord :=
  List.filter (λ r, bool_decide (rf_namespace r = namespace) && valid_at r at_) catalog.

(** [max(xs, key=...)]: the first greatest element. *)
Fixpoint max_from {A} (gtb : A → A → bool) (best : A) (l : list A) : A :=
  match l with
  | [] => best
  | a :: l' => max_from gtb (if gtb a best then a else best) l'
  end.
Definition newer (a b : ReferenceDataRecord) : bool :=
  negb (bool_decide (record_order (record_sort_key a) (record_sort_key b))).

Definition get_record (catalog : ReferenceDataCatalog) (namespace code : string) (at_ : option Z)
    : option ReferenceDataRecord :=
  match List.filter (λ r, bool_decide (rf_namespace r = namespace) && bool_decide (rf_code r = code) && valid_at r at_)
          catalog with
  | [] => None
  | r :: candidates => Some (max_from newer r candidates)
  end.

(** ** Aliases *)

(** [str.split()]: the words between runs of whitespace. *)
Fixpoint words (current : list ascii) (s : string) : list string :=
  let flush := match current with [] => [] | _ => [String.string_of_list_ascii (rev current)] end in
  match s with
  | EmptyString => flush
  | String c s' => if py_space c then flush ++ words [] s' else words (c :: current) s'
  end.

Definition normalize_alias (value : string) : string := String.concat " " (words [] (casefold value)).

Definition declares (normalized : string) (r : ReferenceDataRecord) : bool :=
  mem normalized (map normalize_alias (rf_aliases r)).

(** [matches]: the newest record of each code so far. *)
Definition add_match (matches : gmap string ReferenceDataRecord) (r : ReferenceDataRecord)
    : gmap string ReferenceDataRecord :=
  match matches !! rf_code r with
  | None => <[rf_code r := r]> matches
  | Some current => if newer r current then <[rf_code r := r]> matches else matches
  end.

Definition suggest (catalog : ReferenceDataCatalog) (namespace alias : string) (at_ : option Z)
    : list ReferenceDataRecord :=
  let normalized := normalize_alias alias in
  if bool_decide (normalized = EmptyString) then []
  else
    let matches := fold_left add_match (List.filter (declares normalized) (list_records catalog namespace at_)) ∅ in
    sorted_by record_sort_key record_order (map_to_list matches).*2.

(** ** Validity periods *)

Lemma validate_record_period r :
  validate_record r = Ok () →
  DATE_MIN ≤ valid_start r ≤ DATE_MAX ∧ DATE_MIN ≤ valid_end r ≤ DATE_MAX ∧ valid_start r ≤ valid_end r.
Proof.
  unfold validate_record. rewrite !raise_if_then, raise_if_ok. intros (_ & Hd & Hp).
  apply negb_false_iff, andb_true_iff in Hd as [Hf Ht]. unfold opt_ok, date_ok, between in *.
  unfold valid_start, valid_end, DATE_MIN, DATE_MAX in *.
  destruct (rf_valid_from r), (rf_valid_to r); cbn in *; boolify; lia.
Qed.

Lemma valid_at_period r day :
  date_ok day = true → valid_at r (Some day) = true ↔ valid_start r ≤ day ≤ valid_end r.
Proof.
  unfold date_ok, between, valid_at, valid_start, valid_end, DATE_MIN, DATE_MAX. intros Hd. boolify.
  destruct (rf_valid_from r), (rf_valid_to r); cbn; rewrite ?andb_true_iff, ?Z.leb_le; lia.
Qed.

(** Records of one code in the order of the catalog. *)
Notation starts_in_order := (StronglySorted (λ a b, valid_start a ≤ valid_start b)).
Notation periods_in_order := (StronglySorted (λ a b, valid_end a < valid_start b)).

Lemma record_order_starts a b :
  group_key a = group_key b → record_order (record_sort_key a) (record_sort_key b) → valid_start a ≤ valid_start b.
Proof.
  unfold group_key, record_sort_key, lex. cbn. intros [= -> ->] [[_ []]|(_ & [[_ []]|(_ & [[? _]|[-> _]])])]; done || lia.
Qed.

Lemma versions_in_order key l :
  StronglySorted (by_key record_sort_key record_order) l → starts_in_order (versions key l).
Proof.
  unfold versions. induction 1 as [|r l Hs IH Hall]; [constructor|]. rewrite filter_cons.
  destruct (decide _) as [Hk|]; [|done]. constructor; [done|]. rewrite Forall_forall in *.
  intros x [Hx Hin]%list_elem_of_filter. apply record_order_starts; [congruence|]. by apply Hall.
Qed.

(** Comparing neighbours is enough: every version ends before every later one starts. *)
Lemma neighbours_disjoint l :
  (∀ r, r ∈ l → validate_record r = Ok ()) →
  existsb overlapping (pairwise l) = false ↔ periods_in_order l.
Proof.
  induction l as [|a l IH]; intros Hv; [split; [constructor|done]|].
  specialize (IH (λ r Hr, Hv r (list_elem_of_further _ _ _ Hr))). destruct l as [|b l].
  { split; [by repeat constructor|done]. }
  change (pairwise (a :: b :: l)) with ((a, b) :: pairwise (b :: l)). cbn [existsb].
  rewrite orb_false_iff, IH. unfold overlapping at 1. cbn [fst snd]. rewrite Z.leb_gt. split.
  - intros [Hab Hs]. constructor; [done|]. apply StronglySorted_inv in Hs as [_ Hall].
    constructor; [done|]. rewrite Forall_forall in *. intros x Hx.
    destruct (validate_record_period b) as (_ & _ & ?); [by apply Hv; right; left|]. specialize (Hall x Hx). lia.
  - intros [Hs Hall]%StronglySorted_inv. split; [|done]. by apply Forall_inv in Hall.
Qed.

(** ... exactly when no day has two versions. *)
Lemma periods_disjoint l :
  (∀ r, r ∈ l → validate_record r = Ok ()) → starts_in_order l →
  periods_in_order l ↔
  ∀ day, date_ok day = true → (length (filter (λ r, valid_at r (Some day) = true) l) ≤ 1)%nat.
Proof.
  intros Hv Hs. split.
  - clear Hs. intros Hp day Hd. induction Hp as [|a l _ IH Hall]; [cbn; lia|].
    specialize (IH (λ r Hr, Hv r (list_elem_of_further _ _ _ Hr))). rewrite filter_cons. destruct (decide _) as [Ha|]; [|done].
    assert (filter (λ r, valid_at r (Some day) = true) l = []) as ->; [|cbn; lia].
    apply elem_of_nil_inv. rewrite Forall_forall in Hall. intros x [Hxd Hx]%list_elem_of_filter.
    rewrite valid_at_period in Ha, Hxd by done. specialize (Hall x Hx). lia.
  - intros Hc. induction Hs as [|a l _ IH Hall]; constructor.
    + apply IH; [by intros r Hr; apply Hv; right|]. intros day Hd. specialize (Hc day Hd).
      rewrite filter_cons in Hc. destruct (decide _); [rewrite length_cons in Hc; lia|done].
    + rewrite Forall_forall in *. intros x Hx. specialize (Hall x Hx). destruct (decide (valid_end a < valid_start x)) as [|Hn]; [done|].
      exfalso. destruct (validate_record_period x) as (Hd & _ & ?); [by apply Hv; right|].
      assert (date_ok (valid_start x) = true) as Hok by (unfold date_ok, between; apply andb_true_iff, conj; apply Z.leb_le; lia).
      specialize (Hc _ Hok). rewrite filter_cons_True in Hc by (apply valid_at_period; [done|lia]).
      assert (x ∈ filter (λ r, valid_at r (Some (valid_start x)) = true) l) as Hin.
      { apply list_elem_of_filter. split; [apply valid_at_period; [done|lia]|done]. }
      destruct (filter _ l); [by apply elem_of_nil in Hin|cbn in Hc; lia].
Qed.

(** ** The catalog *)

(** The versions of a code valid on a day, in any list of records. *)
Definition valid_versions (records : list ReferenceDataRecord) (key : string * string) (day : Z)
    : list ReferenceDataRecord :=
  filter (λ r, valid_at r (Some day) = true) (versions key records).

#[local] Instance versions_perm key : Proper (Permutation ==> Permutation) (versions key).
Proof. intros l l' Hl. unfold versions. by rewrite Hl. Qed.
#[local] Instance valid_versions_perm : Proper (Permutation ==> eq ==> eq ==> Permutation) valid_versions.
Proof. intros l l' Hl k ? <- d ? <-. unfold valid_versions. by rewrite Hl. Qed.

Lemma versions_elem key l r : r ∈ versions key l ↔ r ∈ l ∧ group_key r = key.
Proof. unfold versions. rewrite list_elem_of_filter. tauto. Qed.

Section catalog.
Context (records : list ReferenceDataRecord).
Context (Hvalid : ∀ r, r ∈ records → validate_record r = Ok ()).
Notation ordered := (sorted_by record_sort_key record_order records).

Lemma ordered_versions_valid key r : r ∈ versions key ordered → validate_record r = Ok ().
Proof. intros [Hr _]%versions_elem. apply Hvalid. by rewrite <-(sorted_by_elem record_sort_key record_order records). Qed.

Lemma ordered_starts key : starts_in_order (versions key ordered).
Proof. apply versions_in_order. apply (sorted_by_sorted record_sort_key record_order). Qed.

Lemma catalog_periods catalog :
  make_catalog records = Ok catalog ↔ catalog = ordered ∧ ∀ key, periods_in_order (versions key ordered).
Proof.
  unfold make_catalog, validate_non_overlapping_codes. cbv zeta. rewrite raise_if_then, existsb_elem_false. split.
  - intros [Hk [= <-]]. split; [done|]. intros key. destruct (decide (key ∈ map group_key ordered)) as [Hin|Hn].
    + apply neighbours_disjoint; [apply ordered_versions_valid|]. apply Hk. by apply elem_of_remove_dups.
    + assert (versions key ordered = []) as ->; [|constructor]. apply elem_of_nil_inv. intros r [Hr <-]%versions_elem.
      apply Hn. by apply list_elem_of_fmap_2.
  - intros [-> Hp]. split; [|done]. intros key _. apply neighbours_disjoint; [apply ordered_versions_valid|done].
Qed.

Lemma catalog_days :
  (∀ key, periods_in_order (versions key ordered)) ↔
  ∀ key day, date_ok day = true → (length (valid_versions records key day) ≤ 1)%nat.
Proof.
  assert (∀ key, periods_in_order (versions key ordered) ↔
    ∀ day, date_ok day = true → (length (valid_versions records key day) ≤ 1)%nat) as Hkey.
  { intros key. rewrite periods_disjoint by (apply ordered_versions_valid || apply ordered_starts).
    assert (∀ day, length (filter (λ r, valid_at r (Some day) = true) (versions key ordered))
      = length (valid_versions records key day)) as Hlen; [|by setoid_rewrite Hlen].
    intros day. apply Permutation_length. unfold valid_versions.
    by rewrite (sorted_by_perm record_sort_key record_order records). }
  split; [intros Hp key; by apply Hkey|]. intros Hp key. apply Hkey, Hp.
Qed.

End catalog.

(** At most one element: membership says which. *)
Lemma single_elem {A} (l : list A) a b : (length l ≤ 1)%nat → a ∈ l → b ∈ l → a = b.
Proof.
  destruct l as [|x [|]]; cbn; [by intros _ ?%elem_of_nil| |lia].
  by intros _ ->%list_elem_of_singleton ->%list_elem_of_singleton.
Qed.

(** [max] returns an element that no other is greater than. *)
Lemma max_from_elem {A} gtb (best : A) l : max_from gtb best l ∈ best :: l.
Proof.
  revert best. induction l as [|a l IH]; intros best; cbn; [left|].
  specialize (IH (if gtb a best then a else best)). apply elem_of_cons in IH as [->|IH].
  - destruct (gtb a best); [right; left|left].
  - right. by right.
Qed.

Lemma newer_false a b : newer a b = false ↔ record_order (record_sort_key a) (record_sort_key b).
Proof. unfold newer. by rewrite negb_false_iff, bool_decide_eq_true. Qed.

Lemma newer_true a b : newer a b = true → record_order (record_sort_key b) (record_sort_key a).
Proof.
  unfold newer. rewrite negb_true_iff, bool_decide_eq_false. intros Hn.
  by destruct (total record_order (record_sort_key a) (record_sort_key b)).
Qed.

Lemma max_from_greatest best l r :
  r ∈ best :: l → record_order (record_sort_key r) (record_sort_key (max_from newer best l)).
Proof.
  revert best r. induction l as [|a l IH]; intros best r; cbn.
  - intros ->%list_elem_of_singleton. reflexivity.
  - intros Hr. destruct (newer a best) eqn:E.
    + apply elem_of_cons in Hr as [->|Hr]; [|by apply IH]. etrans; [by apply newer_true|]. apply IH. left.
    + apply newer_false in E. apply elem_of_cons in Hr as [->|[->|Hr]%elem_of_cons].
      * apply IH. left.
      * etrans; [exact E|]. apply IH. left.
      * apply IH. by right.
Qed.

(** The records a lookup chooses from. *)
Definition candidates (records : list ReferenceDataRecord) (namespace code : string) (at_ : option Z)
    (r : ReferenceDataRecord) : Prop :=
  r ∈ versions (namespace, code) records ∧ valid_at r at_ = true.

Lemma get_record_spec records namespace code at_ :
  match get_record (sorted_by record_sort_key record_order records) namespace code at_ with
  | Some r => candidates records namespace code at_ r ∧
      ∀ r', candidates records namespace code at_ r' → record_order (record_sort_key r') (record_sort_key r)
  | None => ∀ r, ¬ candidates records namespace code at_ r
  end.
Proof.
  unfold get_record. set (found := List.filter _ _).
  assert (∀ r, r ∈ found ↔ candidates records namespace code at_ r) as Hin.
  { intros r. unfold found, candidates. rewrite versions_elem, list_filter_elem.
    rewrite (sorted_by_elem record_sort_key record_order), !andb_true_iff, !bool_decide_eq_true.
    unfold group_key. naive_solver. }
  destruct found as [|r l].
  - intros r Hr%Hin. by apply elem_of_nil in Hr.
  - split; [apply Hin, max_from_elem|]. intros r' Hr%Hin. by apply max_from_greatest.
Qed.

Lemma strongly_sorted_compare {A} (R : A → A → Prop) l a b :
  StronglySorted R l → a ∈ l → b ∈ l → a = b ∨ R a b ∨ R b a.
Proof.
  induction 1 as [|x l _ IH Hall]; [by intros ?%elem_of_nil|]. rewrite Forall_forall in Hall.
  intros [->|Ha]%elem_of_cons [->|Hb]%elem_of_cons; auto.
Qed.

(** Two versions of a code in a catalog: the same, or one ends before the other starts. *)
Lemma versions_compare records r r' :
  (∀ r, r ∈ records → validate_record r = Ok ()) →
  (∀ key, periods_in_order (versions key (sorted_by record_sort_key record_order records))) →
  r ∈ records → r' ∈ records → group_key r' = group_key r → 
  (r' = r ∨ valid_end r' < valid_start r ∨ valid_end r < valid_start r') ∧
  (record_order (record_sort_key r') (record_sort_key r) ↔ r' = r ∨ valid_end r' < valid_start r).
Proof.
  intros Hv Hp Hr Hr' Hg.
  assert (r' = r ∨ valid_end r' < valid_start r ∨ valid_end r < valid_start r') as Hcmp.
  { apply (strongly_sorted_compare _ _ r' r (Hp (group_key r))); rewrite (sorted_by_perm record_sort_key record_order records);
      by apply versions_elem. }
  split; [done|].
  destruct (validate_record_period r (Hv r Hr)) as (_ & _ & ?), (validate_record_period r' (Hv r' Hr')) as (_ & _ & ?).
  split; [intros Hle%record_order_starts; [|done]; destruct Hcmp as [|[|]]; auto; lia|].
  intros [->|Hlt]; [reflexivity|]. destruct (total record_order (record_sort_key r') (record_sort_key r)) as [|Hle]; [done|].
  apply record_order_starts in Hle; [lia|done].
Qed.

(** C32. From valid records a catalog exists exactly when on no day two versions of a code are
    valid, in whatever order the records come; the lookup on a day then finds exactly the one
    version valid on it, and the lookup without a date the version that starts last, after
    every other has ended. *)
Theorem reference_data_exact records :
  (∀ r, r ∈ records → validate_record r = Ok ()) →
  (is_ok (make_catalog records) = true ↔
   ∀ key day, date_ok day = true → (length (valid_versions records key day) ≤ 1)%nat) ∧
  ∀ catalog namespace code, make_catalog records = Ok catalog →
    (∀ day r, date_ok day = true →
       get_record catalog namespace code (Some day) = Some r ↔
       r ∈ records ∧ group_key r = (namespace, code) ∧ valid_start r ≤ day ≤ valid_end r) ∧
    (get_record catalog namespace code None = None ↔ versions (namespace, code) records = []) ∧
    ∀ r, get_record catalog namespace code None = Some r →
      r ∈ versions (namespace, code) records ∧
      ∀ r', r' ∈ versions (namespace, code) records → r' = r ∨ valid_end r' < valid_start r.
Proof.
  intros Hv. split.
  { rewrite <-(catalog_days records Hv). split.
    - destruct (make_catalog records) as [catalog|] eqn:E; [|done]. intros _. by apply catalog_periods in E as [_ ?].
    - intros Hp. by rewrite (proj2 (catalog_periods records Hv _) (conj eq_refl Hp)). }
  intros catalog namespace code [-> Hp]%(catalog_periods records Hv). pose proof (proj1 (catalog_days records Hv) Hp) as Hd.
  split_and!.
  - intros day r Hday. pose proof (get_record_spec records namespace code (Some day)) as Hg.
    assert ((r ∈ records ∧ group_key r = (namespace, code) ∧ valid_start r ≤ day ≤ valid_end r) ↔
      candidates records namespace code (Some day) r) as ->.
    { unfold candidates. rewrite versions_elem, (valid_at_period r day Hday). tauto. }
    destruct (get_record _ _ _ _) as [r0|]; [|split; [done|by intros ?%Hg]].
    destruct Hg as [Hr0 _]. split; [by intros [= ->]|]. destruct Hr0 as [Hr0 Hd0]. intros [Hr Hrd]. f_equal.
    apply (single_elem _ _ _ (Hd (namespace, code) day Hday)); by apply list_elem_of_filter.
  - pose proof (get_record_spec records namespace code None) as Hg. destruct (get_record _ _ _ _) as [r0|]; split; try done.
    + intros Hn. destruct Hg as [[Hr _] _]. rewrite Hn in Hr. by apply elem_of_nil in Hr.
    + intros _. apply elem_of_nil_inv. intros r Hr. by apply (Hg r).
  - intros r Hr. pose proof (get_record_spec records namespace code None) as Hg. rewrite Hr in Hg.
    destruct Hg as [[Hin _] Hmax]. split; [done|]. intros r' Hr'. specialize (Hmax r' (conj Hr' eq_refl)).
    apply versions_elem in Hin as [Hin Hk], Hr' as [Hr' Hk'].
    apply (versions_compare records r r'); try done. by rewrite Hk, Hk'.
Qed.

(** The dictionary of matches holds, for every code met, its newest record. *)
Lemma matches_newest l :
  (∀ code r, fold_left add_match l ∅ !! code = Some r →
     r ∈ l ∧ rf_code r = code ∧ ∀ r', r' ∈ l → rf_code r' = code → record_order (record_sort_key r') (record_sort_key r)) ∧
  ∀ r, r ∈ l → is_Some (fold_left add_match l ∅ !! rf_code r).
Proof.
  induction l as [|x l [IH1 IH2]] using rev_ind; 
    [by split; [intros ? ?; cbn; rewrite lookup_empty|intros ? ?%elem_of_nil]|].
  rewrite fold_left_app. cbn [fold_left]. set (m := fold_left add_match l ∅) in *.
  assert (∀ r, r ∈ l ++ [x] ↔ r ∈ l ∨ r = x) as Hin by (intros r; by rewrite elem_of_app, list_elem_of_singleton).
  assert (∀ code r, m !! code = Some r → rf_code x ≠ code ∨ newer x r = false → r ∈ l ++ [x] ∧ rf_code r = code ∧
    ∀ r', r' ∈ l ++ [x] → rf_code r' = code → record_order (record_sort_key r') (record_sort_key r)) as Hold.
  { intros code r (Hr & Hc & Hmax)%IH1 Hx. split_and!; [apply Hin; by left|done|].
    intros r' [Hr'| ->]%Hin Hc'; [by apply Hmax|]. destruct Hx as [Hx|Hx]; [done|by apply newer_false]. }
  unfold add_match. destruct (m !! rf_code x) as [current|] eqn:E; [destruct (newer x current) eqn:En|]; split.
  - intros code r. destruct (decide (rf_code x = code)) as [<-|Hne].
    + rewrite lookup_insert_eq. intros [= <-]. split_and!; [apply Hin; by right|done|].
      intros r' [Hr'| ->]%Hin Hc'; [|reflexivity]. apply IH1 in E as (_ & _ & Hmax).
      etrans; [by apply Hmax|by apply newer_true].
    + rewrite lookup_insert_ne by done. intros Hr. apply Hold; auto.
  - intros r [Hr| ->]%Hin; rewrite lookup_insert; destruct (decide _); eauto; done.
  - intros code r Hr. apply Hold; [done|]. destruct (decide (rf_code x = code)) as [<-|]; [|by left]. right. congruence.
  - intros r [Hr| ->]%Hin; eauto.
  - intros code r. destruct (decide (rf_code x = code)) as [<-|Hne].
    + rewrite lookup_insert_eq. intros [= <-]. split_and!; [apply Hin; by right|done|].
      intros r' [Hr'| ->]%Hin Hc'; [|reflexivity]. apply IH2 in Hr'. rewrite Hc', E in Hr'. by destruct Hr'.
    + rewrite lookup_insert_ne by done. intros Hr. apply Hold; auto.
  - intros r [Hr| ->]%Hin; rewrite lookup_insert; destruct (decide _); eauto; done.
Qed.

(** The suggestions for an alias, which is compared without case and with runs of
    whitespace as one space, are exactly the latest version of each code of the namespace that
    declares it among those valid when asked, without duplicate codes and in the catalog's
    order; a blank alias suggests nothing. *)
Theorem suggest_exact records catalog namespace alias at_ :
  (∀ r, r ∈ records → validate_record r = Ok ()) → make_catalog records = Ok catalog →
  let declared r := r ∈ records ∧ rf_namespace r = namespace ∧ valid_at r at_ = true ∧
    declares (normalize_alias alias) r = true in
  let suggestions := suggest catalog namespace alias at_ in
  (∀ r, r ∈ suggestions ↔ normalize_alias alias ≠ EmptyString ∧ declared r ∧
     ∀ r', declared r' → rf_code r' = rf_code r → r' = r ∨ valid_end r' < valid_start r) ∧
  NoDup (map rf_code suggestions) ∧ StronglySorted (by_key record_sort_key record_order) suggestions.
Proof.
  intros Hv [-> Hp]%(catalog_periods records Hv). cbv zeta. unfold suggest. case_bool_decide as Hn.
  { split_and!; [|constructor..]. intros r. split; [by intros ?%elem_of_nil|by intros [? _]]. }
  set (found := List.filter _ (list_records _ _ _)).
  assert (∀ r, r ∈ found ↔ r ∈ records ∧ rf_namespace r = namespace ∧ valid_at r at_ = true ∧
    declares (normalize_alias alias) r = true) as Hin.
  { intros r. unfold found, list_records. rewrite !list_filter_elem.
    rewrite (sorted_by_elem record_sort_key record_order), andb_true_iff, bool_decide_eq_true. tauto. }
  assert (∀ r r', r ∈ found → r' ∈ found → rf_code r' = rf_code r →
    record_order (record_sort_key r') (record_sort_key r) ↔ r' = r ∨ valid_end r' < valid_start r) as Hcmp.
  { intros r r' (Hr & Hk & _)%Hin (Hr' & Hk' & _)%Hin Hc. apply (versions_compare records r r'); try done.
    unfold group_key. congruence. }
  assert (∀ r, r ∈ found → valid_start r ≤ valid_end r) as Hperiod.
  { intros r [Hr _]%Hin. by apply validate_record_period, Hv. }
  destruct (matches_newest found) as [Hnew Hall]. set (m := fold_left add_match found ∅) in *.
  assert (∀ r, r ∈ (map_to_list m).*2 ↔
    r ∈ found ∧ ∀ r', r' ∈ found → rf_code r' = rf_code r → r' = r ∨ valid_end r' < valid_start r) as Hm.
  { intros r. rewrite list_elem_of_fmap. split.
    - intros ([code r0] & -> & Hr%elem_of_map_to_list). apply Hnew in Hr as (Hr & <- & Hmax). split; [done|].
      intros r' Hr' Hc. apply Hcmp; auto.
    - intros [Hr Hmax]. destruct (Hall r Hr) as [r0 Hr0]. exists (rf_code r, r0).
      split; [|by apply elem_of_map_to_list]. apply Hnew in Hr0 as (Hr0 & Hc & Hmax0).
      destruct (Hmax r0 Hr0 Hc) as [->|Hlt]; [done|]. exfalso.
      pose proof (Hmax0 r Hr eq_refl) as Hle. apply Hcmp in Hle as [->|Hlt']; [| |done..].
      + pose proof (Hperiod r0 Hr0). lia.
      + pose proof (Hperiod r0 Hr0). pose proof (Hperiod r Hr). lia. }
  pose proof (sorted_by_perm record_sort_key record_order (map_to_list m).*2) as Hperm. split_and!.
  - intros r. rewrite (sorted_by_elem record_sort_key record_order), Hm.
    setoid_rewrite Hin. naive_solver.
  - change (NoDup (rf_code <$> sorted_by record_sort_key record_order (map_to_list m).*2)). rewrite Hperm.
    assert (rf_code <$> (map_to_list m).*2 = (map_to_list m).*1) as ->; [|apply NoDup_fst_map_to_list].
    rewrite <-list_fmap_compose. apply list_fmap_ext. intros i [code r] Hr. cbn.
    apply list_elem_of_lookup_2, elem_of_map_to_list, Hnew in Hr. by destruct Hr as (_ & ? & _).
  - apply (sorted_by_sorted record_sort_key record_order).
Qed.

(** ** Examples *)

Definition example_record (code version : string) (from to : option Z) (aliases : list string) : ReferenceDataRecord := {|
  rf_namespace := "events"; rf_code := code; rf_name := code; rf_aliases := aliases; rf_version := version;
  rf_status := ACTIVE; rf_valid_from := from; rf_valid_to := to |}.
Definition first_version := example_record "RECE" "2.10" None (Some 199) ["received"].
Definition second_version := example_record "RECE" "2.9" (Some 200) None ["Received  goods"; "received"].
Definition example_records := [second_version; example_record "DRFT" "2.9" None None ["draft"]; first_version].
Definition example_catalog : ReferenceDataCatalog := sorted_by record_sort_key record_order example_records.

Lemma example_records_valid r : r ∈ example_records → validate_record r = Ok ().
Proof. by intros [->|[->|[->|[]%elem_of_nil]%elem_of_cons]%elem_of_cons]%elem_of_cons. Qed.

Example example_catalog_made : make_catalog example_records = Ok example_catalog.
Proof. vm_compute. reflexivity. Qed.
(** Periods that share one day overlap. *)
Example shared_day_refused :
  make_catalog [example_record "RECE" "1" None (Some 200) []; second_version] = Err "overlapping validity".
Proof. vm_compute. reflexivity. Qed.
(** Exact lookups neither fold case nor look at aliases. *)
Example exact_lookups :
  get_record example_catalog "events" "RECE" (Some 199) = Some first_version ∧
  get_record example_catalog "events" "RECE" None = Some second_version ∧
  get_record example_catalog "events" "rece" None = None ∧ get_record example_catalog "events" "received" None = None.
Proof. vm_compute. split_and!; reflexivity. Qed.
Example alias_lookups :
  suggest example_catalog "events" "  RECEIVED " None = [second_version] ∧
  suggest example_catalog "events" "received" (Some 5) = [first_version] ∧
  suggest example_catalog "events" "received goods" (Some 5) = [] ∧ suggest example_catalog "events" " " None = [].
Proof. vm_compute. split_and!; reflexivity. Qed.
Example aliases_parsed :
  parse_aliases (JStr " draft |  | drafted") = Ok ["draft"; "drafted"] ∧ parse_aliases (JStr "") = Ok [] ∧
  parse_aliases (JList [JStr " draft"; JInt 1]) = Err "must be a '|' delimited string or a sequence of strings".
Proof. vm_compute. split_and!; reflexivity. Qed.

Lemma reference_data_exact_witness :
  is_ok (make_catalog example_records) = true ∧
  (get_record example_catalog "events" "RECE" (Some 199) = Some first_version ↔
   first_version ∈ example_records ∧ group_key first_version = ("events", "RECE") ∧ 1 ≤ 199 ≤ 199).
Proof.
  destruct (reference_data_exact example_records) as [_ Hc]; [exact example_records_valid|].
  split; [reflexivity|].
  destruct (Hc example_catalog "events" "RECE" example_catalog_made) as [Hg _].
  apply (Hg 199 first_version). reflexivity.
Defined.

Lemma suggest_exact_witness :
  NoDup (map rf_code (suggest example_catalog "events" "received" None)) ∧
  suggest example_catalog "events" "received" None = [second_version].
Proof.
  destruct (suggest_exact example_records example_catalog "events" "received" None) as (_ & Hn & _).
  - exact example_records_valid.
  - exact example_catalog_made.
  - split; [exact Hn|]. vm_compute. reflexivity.
Defined.
