(* ===== verification/Adapters.v ===== *)
(** * Adapter execution (runtime/adapters.py, credentials/providers.py)

    The worker's registry of adapters, the credential leases of one call, the secret providers,
    and the activity around a call.  An adapter is any function of the world it acts on;
    credential-aware ones use their leases only through reads and [close], as the interface
    lets them.  Outcomes of routed attempts go to RouteStore, whatever becomes of the write. *)

From Stdlib Require Import Ascii.
From stdpp Require Import pretty.
From S2P Require Import Prelude.
From S2P Require Import Contracts.
From S2P Require Import Routing.
From S2P Require Import Ledger.
From S2P Require Import RouteStore.
From S2P Require Import Verification.
From S2P Require Import RuntimeModels.
From S2P Require Import Credentials.
From S2P Require Import PolicyPlanning.

Record AdapterExecutionError := {
  ae_code : string;
  ae_message : string;
  ae_retryable : bool;
  ae_diagnostics : list (string * json) }.

(** What an adapter may raise. *)
Inductive AdapterException :=
| ExecutionFailed (e : AdapterExecutionError)
| OtherException (what : string).

Definition final_error (code message : string) : AdapterExecutionError :=
  {| ae_code := code; ae_message := message; ae_retryable := false; ae_diagnostics := [] |}.
Definition adapter_error {A} (code message : string) : result AdapterException A :=
  Err (ExecutionFailed (final_error code message)).

(** ** The leases of one call *)

Record CredentialLeaseSet := {
  ls_closed : bool;
  ls_leases : list (string * SecretLease) }.

Definition make_lease_set (leases : list (string * SecretLease)) : result AdapterException CredentialLeaseSet :=
  raise_if (bool_decide (length leases = 0%nat)) (OtherException "credential lease set must not be empty");;
  Ok {| ls_closed := false; ls_leases := leases |}.

Definition names (s : CredentialLeaseSet) : list string := merge_sort String.le (map fst (ls_leases s)).

(** The lease of a name replaced by what using it left. *)
Definition set_lease (name : string) (l : SecretLease) (leases : list (string * SecretLease)) : list (string * SecretLease) :=
  map (λ kv, if bool_decide (kv.1 = name) then (name, l) else kv) leases.

(** [read]; [__getitem__] is a call of it. *)
Definition read_lease (name : string) (now : Z) (s : CredentialLeaseSet)
    : CredentialLeaseSet * result AdapterException Buffer :=
  if ls_closed s then (s, adapter_error "credential_lease_closed" "Credential lease is closed")
  else
    match assoc name (ls_leases s) with
    | None => (s, adapter_error "credential_name_unavailable" "Requested credential is unavailable")
    | Some l =>
        let '(l', value) := read None now l in
        ({| ls_closed := false; ls_leases := set_lease name l' (ls_leases s) |},
         match value with Ok b => Ok b | Err _ => Err (OtherException "secret lease") end)
    end.

Definition close_leases (leases : list (string * SecretLease)) : list (string * SecretLease) :=
  map (λ kv, (kv.1, close_lease kv.2)) leases.

Definition close_lease_set (s : CredentialLeaseSet) : CredentialLeaseSet :=
  if ls_closed s then s else {| ls_closed := true; ls_leases := close_leases (ls_leases s) |}.

(** What the holder of a set can do with it. *)
Inductive lease_set_step : CredentialLeaseSet → CredentialLeaseSet → Prop :=
| lss_read name now s : lease_set_step s (read_lease name now s).1
| lss_close s : lease_set_step s (close_lease_set s).

(** ** Interfaces *)

Section adapters.
Context {W : Type}.

(** [execute], on the world [W]; [None] stands for a value that is no [AdapterResult]. *)
Definition AdapterExecutor : Type := AdapterInvocation → W → W * result AdapterException (option AdapterResult).

Record CredentialAwareAdapterExecutor := {
  execute_with_credentials : AdapterInvocation → CredentialLeaseSet → W →
    W * CredentialLeaseSet * result AdapterException (option AdapterResult);
  execute_uses_leases i s w w' s' r :
    execute_with_credentials i s w = (w', s', r) → star lease_set_step s s' }.

(** The scope of a resolution. *)
Record ResolveContext := {
  rc_tenant_id : string;
  rc_environment_id : string;
  rc_adapter : string;
  rc_capability : string }.
Definition validate_resolve_context (c : ResolveContext) : bool :=
  Identifier_ok (rc_tenant_id c) && Identifier_ok (rc_environment_id c) && Name_ok (rc_adapter c)
  && Name_ok (rc_capability c).

(** A closed lease is wiped. *)
Definition lease_sound (l : SecretLease) : Prop := sl_closed l = true → wiped l.

Record SecretProvider := {
  resolve_secret : SecretRef → ResolveContext → W → W * result string SecretLease;
  resolve_secret_sound r c w w' l : resolve_secret r c w = (w', Ok l) → lease_sound l }.

(** ** The registry *)

Record AdapterRegistry := {
  executors : list (string * AdapterExecutor);
  credential_executors : list (string * CredentialAwareAdapterExecutor) }.
Definition empty_registry : AdapterRegistry := {| executors := []; credential_executors := [] |}.

Definition registered (name : string) (r : AdapterRegistry) : bool :=
  negb (is_none (assoc name (executors r))) || negb (is_none (assoc name (credential_executors r))).

Definition register_adapter (name : string) (executor : AdapterExecutor) (r : AdapterRegistry)
    : result string AdapterRegistry :=
  raise_if (registered name r) "adapter is already registered";;
  Ok {| executors := executors r ++ [(name, executor)]; credential_executors := credential_executors r |}.
Definition register_credential_aware (name : string) (executor : CredentialAwareAdapterExecutor)
    (r : AdapterRegistry) : result string AdapterRegistry :=
  raise_if (registered name r) "adapter is already registered";;
  Ok {| executors := executors r; credential_executors := credential_executors r ++ [(name, executor)] |}.

(** [_invoke]: what comes out of an adapter is a result or a safe error. *)
Definition contain (r : result AdapterException (option AdapterResult)) : result AdapterExecutionError AdapterResult :=
  match r with
  | Ok (Some a) => Ok a
  | Ok None => Err (final_error "invalid_adapter_result" "Adapter returned an invalid result")
  | Err (ExecutionFailed e) => Err e
  | Err (OtherException _) => Err (final_error "adapter_internal" "Adapter failed without a safe diagnostic")
  end.

Definition invoke (r : AdapterRegistry) (i : AdapterInvocation) (w : W) : W * result AdapterExecutionError AdapterResult :=
  if negb (is_none (ai_credential_binding_digest i)) then
    (w, Err (final_error "credential_boundary_required" "Adapter invocation requires the credential boundary"))
  else
    match assoc (ai_adapter i) (executors r) with
    | None => (w, Err (final_error "adapter_not_found" "Requested adapter is not registered"))
    | Some executor => let '(w', x) := executor i w in (w', contain x)
    end.

Definition invoke_with_credentials (r : AdapterRegistry) (i : AdapterInvocation) (credentials : CredentialLeaseSet)
    (w : W) : W * CredentialLeaseSet * result AdapterExecutionError AdapterResult :=
  match assoc (ai_adapter i) (credential_executors r) with
  | None => (w, credentials, Err (final_error "credential_aware_adapter_not_found"
                                    "Requested credential-aware adapter is not registered"))
  | Some executor =>
      let '(w', s, x) := execute_with_credentials executor i credentials w in (w', s, contain x)
  end.

(** ** The activity *)

Record AdapterActivities := {
  aa_registry : AdapterRegistry;
  aa_credential_bindings : option BindingDirectory;
  aa_secret_providers : list (string * SecretProvider) }.

(** The loop over the references of a binding; a failure closes what was leased. *)
Fixpoint resolve_all (providers : list (string * SecretProvider)) (context : ResolveContext)
    (secrets : list (string * SecretRef)) (leases : list (string * SecretLease)) (w : W)
    : W * list (string * SecretLease) * result string () :=
  match secrets with
  | [] => (w, leases, Ok ())
  | (name, reference) :: secrets' =>
      match assoc (sr_provider reference) providers with
      | None => (w, close_leases leases, Err "secret provider is unavailable")
      | Some provider =>
          match resolve_secret provider reference context w with
          | (w', Ok lease) => resolve_all providers context secrets' (leases ++ [(name, lease)]) w'
          | (w', Err e) => (w', close_leases leases, Err e)
          end
      end
  end.

Definition credential_unavailable : AdapterExecutionError :=
  final_error "credential_unavailable" "Credentials could not be resolved".

(** The binding an invocation names, if the directory still has it. *)
Definition bound_credentials (directory : BindingDirectory) (i : AdapterInvocation) (capability : string)
    : option CredentialBinding :=
  match directory (ai_tenant_id i) (ai_environment_id i) (ai_adapter i) capability with
  | Ok (Some binding) =>
      if bool_decide (Some (bi_binding_digest binding) = ai_credential_binding_digest i) then Some binding else None
  | _ => None
  end.

(** [_resolve_credentials], with every lease it was given. *)
Definition resolve_credentials (a : AdapterActivities) (i : AdapterInvocation) (w : W)
    : W * list (string * SecretLease) * result AdapterExecutionError CredentialLeaseSet :=
  match aa_credential_bindings a, ai_capability i with
  | Some directory, Some capability =>
      match bound_credentials directory i capability with
      | None => (w, [], Err credential_unavailable)
      | Some binding =>
          let context := {| rc_tenant_id := ai_tenant_id i; rc_environment_id := ai_environment_id i;
                            rc_adapter := ai_adapter i; rc_capability := capability |} in
          if negb (validate_resolve_context context) then (w, [], Err credential_unavailable)
          else
            match resolve_all (aa_secret_providers a) context (bi_secrets binding) [] w with
            | (w', leases, Err _) => (w', leases, Err credential_unavailable)
            | (w', leases, Ok _) =>
                (w', leases, match make_lease_set leases with Ok s => Ok s | Err _ => Err credential_unavailable end)
            end
      end
  | _, _ => (w, [], Err (final_error "credential_unavailable" "Credential metadata is unavailable"))
  end.

(** [_invoke] of the activity: the result, and the leases of the call as they are left. *)
Definition invoke_adapter (a : AdapterActivities) (i : AdapterInvocation) (w : W)
    : W * list (string * SecretLease) * result AdapterExecutionError AdapterResult :=
  if is_none (ai_credential_binding_digest i) then
    let '(w', r) := invoke (aa_registry a) i w in (w', [], r)
  else
    match resolve_credentials a i w with
    | (w', leases, Err e) => (w', leases, Err e)
    | (w', _, Ok credentials) =>
        let '(w'', s, r) := invoke_with_credentials (aa_registry a) i credentials w' in
        (w'', ls_leases (close_lease_set s), r)
    end.

End adapters.
Arguments AdapterExecutor : clear implicits.
Arguments CredentialAwareAdapterExecutor : clear implicits.
Arguments SecretProvider : clear implicits.
Arguments AdapterRegistry : clear implicits.
Arguments AdapterActivities : clear implicits.

(** ** Outcomes of routed attempts *)

(** [_activity_attempt] and [_latency_ms], of what the SDK and the rounding give. *)
Definition activity_attempt (attempt : Z) : Z := Z.max 1 (Z.min 100 attempt).
Definition latency_ms (rounded : Z) : Z := Z.max 0 (Z.min 86400000 rounded).

Section outcomes.
Context `{Sha256, FloatRepr}.

Definition outcome_event_id (i : AdapterInvocation) (candidate_id : string) (attempt : Z) : string :=
  "route-outcome:" +:+ sha256_hex (String.concat (chars [0])
    [ai_tenant_id i; ai_transaction_id i; ai_step_id i; candidate_id; pretty attempt]).

(** [RouteOutcome.issue]; the digest given is ignored. *)
Definition issue_outcome (o : RouteOutcome) : result string RouteOutcome :=
  let o' := {| o_event_id := o_event_id o; o_tenant_id := o_tenant_id o; o_transaction_id := o_transaction_id o;
    o_step_id := o_step_id o; o_candidate_id := o_candidate_id o; o_temporal_attempt := o_temporal_attempt o;
    o_kind := o_kind o; o_latency_ms := o_latency_ms o; o_failure_code := o_failure_code o;
    o_occurred_at := o_occurred_at o; o_outcome_digest := value_digest (outcome_json o) |} in
  validate_outcome o';; Ok o'.

(** What the attempt provider, the clocks and the rounding of the latency give in one call. *)
Record Reading := { rd_attempt : Z; rd_latency : Z; rd_occurred_at : Z }.

(** The outcome [_record_outcome] issues. *)
Definition attempt_outcome (i : AdapterInvocation) (candidate_id : string) (kind : RouteOutcomeKind)
    (failure_code : option string) (reading : Reading) : RouteOutcome := {|
  o_event_id := outcome_event_id i candidate_id (rd_attempt reading); o_tenant_id := ai_tenant_id i;
  o_transaction_id := ai_transaction_id i; o_step_id := ai_step_id i; o_candidate_id := candidate_id;
  o_temporal_attempt := rd_attempt reading; o_kind := kind; o_latency_ms := latency_ms (rd_latency reading);
  o_failure_code := failure_code; o_occurred_at := rd_occurred_at reading; o_outcome_digest := EmptyString |}.

(** [_record_outcome]: no failure of it is reported. *)
Definition record_outcome (store : option OutcomeStore) (i : AdapterInvocation) (kind : RouteOutcomeKind)
    (failure_code : option string) (reading : Reading) : option OutcomeStore :=
  match store, ai_route_candidate_id i with
  | Some s, Some candidate_id =>
      match issue_outcome (attempt_outcome i candidate_id kind failure_code reading) with
      | Ok o => Some (append o s).1
      | Err _ => Some s
      end
  | _, _ => store
  end.

(** The [ApplicationError] of the Temporal SDK. *)
Record ApplicationError := {
  ap_type : string;
  ap_message : string;
  ap_details : list (string * json);
  ap_non_retryable : bool }.

Definition application_error (e : AdapterExecutionError) : ApplicationError := {|
  ap_type := ae_code e; ap_message := ae_message e; ap_details := ae_diagnostics e;
  ap_non_retryable := negb (ae_retryable e) |}.

(** [AdapterActivities.execute], with the leases of the call as they are left. *)
Definition execute_activity {W} (a : AdapterActivities W) (reading : Reading) (i : AdapterInvocation) (w : W)
    (store : option OutcomeStore)
    : W * option OutcomeStore * list (string * SecretLease) * result ApplicationError AdapterResult :=
  match invoke_adapter a i w with
  | (w', leases, Ok r) => (w', record_outcome store i SUCCESS None reading, leases, Ok r)
  | (w', leases, Err e) =>
      (w', record_outcome store i (if ae_retryable e then RETRYABLE_FAILURE else TERMINAL_FAILURE)
             (Some (ae_code e)) reading, leases, Err (application_error e))
  end.

End outcomes.

(** ** Secret providers (credentials/providers.py) *)

Definition MEMORY_PROVIDER_NAMES : list string := ["memory"; "in_memory"; "test"].
Definition ENVIRONMENT_PROVIDER_NAMES : list string := ["env"; "environment"].

(** [timedelta(seconds=ttl)] within [0 < ttl <= 3600]. *)
Definition ttl_ok (lease_ttl : Z) : bool := between 1 lease_ttl (seconds 3600).

(** [InMemorySecretProvider]: keys are checked as references. *)
Record InMemorySecretProvider := { im_secrets : list (string * Buffer); im_ttl : Z }.
Definition make_memory_provider (secrets : list (string * Buffer)) (lease_ttl : Z) : result string InMemorySecretProvider :=
  raise_if (negb (ttl_ok lease_ttl)) "lease_ttl_seconds is out of bounds";;
  raise_if (existsb (λ kv, negb (is_ok (validate_ref {| sr_provider := "memory"; sr_key := kv.1; sr_version := None |})))
              secrets) "in-memory secret map is invalid";;
  Ok {| im_secrets := secrets; im_ttl := lease_ttl |}.

(** The lease of a value; the clock is read again when the lease is made. *)
Definition lease_value (value : Buffer) (name : string) (ttl now now' : Z) : result string SecretLease :=
  match make_lease (OneValue value) (now + ttl) name false now' with Ok l => Ok l | Err _ => Err "lease" end.

Definition memory_resolve (p : InMemorySecretProvider) (r : SecretRef) (now now' : Z) : result string SecretLease :=
  raise_if (negb (mem (sr_provider r) MEMORY_PROVIDER_NAMES)) "provider_mismatch";;
  match assoc (sr_key r) (im_secrets p) with
  | None => Err "secret_not_found"
  | Some value => lease_value value (sr_key r) (im_ttl p) now now'
  end.

(** [^[A-Z][A-Z0-9_]{0,127}$] in full. *)
Definition env_name_ok (s : string) : bool :=
  match s with
  | EmptyString => false
  | String c s' => is_upper c && forall_chars (λ d, is_upper d || is_digit d || (code d =? 95)) s' && (len s' <=? 127)
  end.

Record EnvironmentSecretProvider := { ev_allowlist : list (string * string); ev_ttl : Z }.
Definition make_environment_provider (allowlist : list (string * string)) (lease_ttl : Z) (enabled : bool)
    : result string EnvironmentSecretProvider :=
  raise_if (negb enabled) "provider_disabled";;
  raise_if (bool_decide (allowlist = [])) "environment provider requires a non-empty allowlist";;
  raise_if (negb (ttl_ok lease_ttl)) "lease_ttl_seconds is out of bounds";;
  raise_if (existsb (λ kv, negb (is_ok (validate_ref {| sr_provider := "env"; sr_key := kv.1; sr_version := None |}))
                           || negb (env_name_ok kv.2)) allowlist) "environment allowlist is invalid";;
  Ok {| ev_allowlist := allowlist; ev_ttl := lease_ttl |}.

(** [resolve], on the values of the environment. *)
Definition environment_resolve (p : EnvironmentSecretProvider) (environ : list (string * Buffer)) (r : SecretRef)
    (now now' : Z) : result string SecretLease :=
  raise_if (negb (mem (sr_provider r) ENVIRONMENT_PROVIDER_NAMES)) "provider_mismatch";;
  match assoc (sr_key r) (ev_allowlist p) with
  | None => Err "secret_not_allowlisted"
  | Some name =>
      match assoc name environ with
      | None => Err "secret_unavailable"
      | Some value => lease_value value (sr_key r) (ev_ttl p) now now'
      end
  end.

(** ** The demonstration adapter *)

Definition synthetic_tracking {W} : AdapterExecutor W := λ i w,
  if negb (bool_decide (ai_operation i = "fetch")) then
    (w, adapter_error "operation_not_supported" "Synthetic adapter supports only the fetch operation")
  else
    (w, Ok (Some {| ar_output := [("synthetic", JBool true); ("events", JList []);
                                  ("notice", JStr "No carrier transaction was executed")];
                    ar_effect_reference := None; ar_execution_source := None |})).

(** ** Leases are wiped *)

Lemma close_sound l : lease_sound l → wiped (close_lease l).
Proof.
  intros Hl. destruct (sl_closed l) eqn:E; [|by apply close_lease_wiped].
  unfold close_lease. rewrite E. by apply Hl.
Qed.

Lemma step_sound l l' : lease_sound l → lease_step l l' → lease_sound l'.
Proof. intros Hl [->|[_ ->]]%lease_step_cases; [done|]. intros _. by apply close_sound. Qed.

(** A lease that can do no more harm. *)
Definition spent (l : SecretLease) : Prop := sl_closed l = true ∧ wiped l.

Lemma close_spent l : lease_sound l → spent (close_lease l).
Proof. intros Hl. split; [apply close_lease_closed|by apply close_sound]. Qed.

Notation all_leases P leases := (Forall (λ kv : string * SecretLease, P kv.2) leases).

Lemma close_leases_spent leases : all_leases lease_sound leases → all_leases spent (close_leases leases).
Proof. intros Hl. apply Forall_map. eapply Forall_impl; [exact Hl|]. intros [n l]. apply close_spent. Qed.

Definition set_sound (s : CredentialLeaseSet) : Prop :=
  all_leases lease_sound (ls_leases s) ∧ (ls_closed s = true → all_leases spent (ls_leases s)).

Lemma close_set_sound s : set_sound s → set_sound (close_lease_set s).
Proof.
  intros [Hs Hc]. unfold close_lease_set. destruct (ls_closed s) eqn:E; [split; [done|by rewrite E]|].
  pose proof (close_leases_spent _ Hs) as Hp. split; [|done]. cbn. eapply Forall_impl; [exact Hp|]. by intros ? [] ?.
Qed.

Lemma lease_set_step_sound s s' : set_sound s → lease_set_step s s' → set_sound s'.
Proof.
  intros Hset Hstep. destruct Hstep as [name now s0|s0]; [|by apply close_set_sound].
  destruct Hset as [Hs Hc]. unfold read_lease.
  destruct (ls_closed s0) eqn:E; [split; [done|cbn; by rewrite E]|].
  destruct (assoc name (ls_leases s0)) as [l|] eqn:El; [|split; [done|cbn; by rewrite E]].
  assert (lease_sound l) as Hl.
  { rewrite Forall_forall in Hs. by apply (Hs (name, l)), assoc_elem. }
  pose proof (step_sound _ _ Hl (use_read None now l)) as Hl'. destruct (read None now l) as [l' value]. cbn in Hl' |- *.
  split; [|done]. apply Forall_map. eapply Forall_impl; [exact Hs|]. intros [n k] Hk. cbn. by case_bool_decide.
Qed.

Lemma close_set_spent s : set_sound s → all_leases spent (ls_leases (close_lease_set s)).
Proof.
  intros [Hs Hc]. unfold close_lease_set. destruct (ls_closed s) eqn:E; [by apply Hc|]. by apply close_leases_spent.
Qed.

Section contained.
Context {W : Type}.
Implicit Types (a : AdapterActivities W) (w : W).

(** Secrets leased one after the other: each under the name the binding gives it, from the
    provider its own reference names, for that reference and in one context. *)
Inductive leased (providers : list (string * SecretProvider W)) (context : ResolveContext)
    : list (string * SecretRef) → W → list (string * SecretLease) → W → Prop :=
| leased_none w : leased providers context [] w [] w
| leased_next name reference provider lease secrets leases w w1 w2 :
    assoc (sr_provider reference) providers = Some provider →
    resolve_secret provider reference context w = (w1, Ok lease) →
    leased providers context secrets w1 leases w2 →
    leased providers context ((name, reference) :: secrets) w ((name, lease) :: leases) w2.

(** The leases a call starts with are those of the binding its invocation names. *)
Lemma resolve_all_leases (providers : list (string * SecretProvider W)) context secrets leases w w' leases' r :
  all_leases lease_sound leases → resolve_all providers context secrets leases w = (w', leases', r) →
  match r with
  | Ok _ => all_leases lease_sound leases' ∧ ∃ new, leases' = leases ++ new ∧ leased providers context secrets w new w'
  | Err _ => all_leases spent leases'
  end.
Proof.
  revert leases w. induction secrets as [|[name reference] secrets IH]; intros leases w Hl; cbn.
  - intros [= <- <- <-]. split; [done|]. exists []. by split; [rewrite app_nil_r|constructor].
  - destruct (assoc _ providers) as [provider|] eqn:Ep; [|intros [= <- <- <-]; by apply close_leases_spent].
    destruct (resolve_secret _ _ _ _) as [w1 [lease|e]] eqn:E; [|intros [= <- <- <-]; by apply close_leases_spent].
    pose proof (resolve_secret_sound _ _ _ _ _ _ E) as Hs. intros Hr. apply IH in Hr.
    + destruct r; [|done]. destruct Hr as (Hl' & new & -> & Hn). split; [done|]. exists ((name, lease) :: new).
      split; [by rewrite <-app_assoc|]. by econstructor.
    + apply Forall_app. split; [done|]. by constructor.
Qed.

(** The credentials of an invocation: sound open leases of exactly the references of the binding
    that the directory has for its tenant, environment, adapter and capability under the digest it
    names, each resolved by its own provider for that scope. *)
Definition credentials_of a (i : AdapterInvocation) w (s : CredentialLeaseSet) w1 : Prop :=
  ls_closed s = false ∧ all_leases lease_sound (ls_leases s) ∧
  ∃ directory capability binding context, aa_credential_bindings a = Some directory ∧ ai_capability i = Some capability ∧
    directory (ai_tenant_id i) (ai_environment_id i) (ai_adapter i) capability = Ok (Some binding) ∧
    ai_credential_binding_digest i = Some (bi_binding_digest binding) ∧
    rc_tenant_id context = ai_tenant_id i ∧ rc_environment_id context = ai_environment_id i ∧
    rc_adapter context = ai_adapter i ∧ rc_capability context = capability ∧
    leased (aa_secret_providers a) context (bi_secrets binding) w (ls_leases s) w1.

Lemma resolve_credentials_cases a i w w' leases r :
  resolve_credentials a i w = (w', leases, r) →
  match r with
  | Ok s => credentials_of a i w s w'
  | Err e => all_leases spent leases ∧ ae_code e = "credential_unavailable"
  end.
Proof.
  assert (∀ e : AdapterExecutionError, ae_code e = "credential_unavailable" →
    all_leases spent [] ∧ ae_code e = "credential_unavailable") as Hnone by (intros; by split; [constructor|]).
  unfold resolve_credentials, credentials_of. destruct (aa_credential_bindings a) as [directory|]; [|intros [= <- <- <-]; by apply Hnone].
  destruct (ai_capability i) as [capability|]; [|intros [= <- <- <-]; by apply Hnone].
  destruct (bound_credentials _ _ _) as [binding|] eqn:Eb; [|intros [= <- <- <-]; by apply Hnone].
  destruct (negb _); [intros [= <- <- <-]; by apply Hnone|].
  destruct (resolve_all _ _ _ _ _) as [[w1 leases1] [[]|e]] eqn:E; apply resolve_all_leases in E; try done.
  - destruct E as (Hl & new & Hnew & Hn). cbn [app] in Hnew. subst new.
    unfold make_lease_set. destruct (bool_decide _) eqn:E0; intros [= <- <- <-].
    + boolify. by destruct leases1.
    + split_and!; [done|done|]. clear E0. unfold bound_credentials in Eb.
      destruct (directory _ _ _ _) as [[binding'|]|] eqn:Ed; try done. case_bool_decide as Eq; [|done].
      injection Eb as ->. exists directory, capability, binding. eexists. split_and!; last exact Hn; done.
  - by intros [= <- <- <-].
Qed.

(** What a result comes from. *)
Definition ran a (i : AdapterInvocation) w w' (r : AdapterResult) : Prop :=
  (ai_credential_binding_digest i = None ∧
   ∃ executor, assoc (ai_adapter i) (executors (aa_registry a)) = Some executor ∧ executor i w = (w', Ok (Some r))) ∨
  ∃ executor s w1 s', assoc (ai_adapter i) (credential_executors (aa_registry a)) = Some executor ∧
    credentials_of a i w s w1 ∧ execute_with_credentials executor i s w1 = (w', s', Ok (Some r)).

Lemma contain_ok x (r : AdapterResult) : contain x = Ok r ↔ x = Ok (Some r).
Proof. destruct x as [[]|[]]; cbn; naive_solver. Qed.

Lemma invoke_adapter_contained a i w w' leases r :
  invoke_adapter a i w = (w', leases, r) →
  all_leases spent leases ∧ ∀ x, r = Ok x → ran a i w w' x.
Proof.
  unfold invoke_adapter, ran. destruct (ai_credential_binding_digest i) as [digest|] eqn:Ed; cbn.
  - destruct (resolve_credentials a i w) as [[w1 leases1] [s|e]] eqn:E; apply resolve_credentials_cases in E.
    + unfold invoke_with_credentials. destruct (assoc _ _) as [executor|] eqn:Ex; cbn.
      * destruct (execute_with_credentials executor i s w1) as [[w2 s'] x] eqn:Er. intros [= <- <- <-]. split.
        -- apply close_set_spent. eapply star_invariant; [| |by eapply execute_uses_leases].
           ++ apply lease_set_step_sound.
           ++ destruct E as (Ho & Hl & _). split; [done|by rewrite Ho].
        -- intros y Hy%contain_ok. subst x. right. by exists executor, s, w1, s'.
      * intros [= <- <- <-]. split; [|done]. apply close_set_spent. destruct E as (Ho & Hl & _).
        split; [done|by rewrite Ho].
    + intros [= <- <- <-]. split; [apply E|done].
  - unfold invoke. rewrite Ed. cbn. destruct (assoc _ _) as [executor|] eqn:Ex; cbn.
    + destruct (executor i w) as [w1 x] eqn:Er. intros [= <- <- <-]. split; [done|].
      intros y Hy%contain_ok. subst x. left. split; [done|]. by exists executor.
    + intros [= <- <- <-]. by split.
Qed.

End contained.

(** ** Outcomes *)

Section recorded.
Context `{Sha256, FloatRepr}.

Lemma issue_outcome_ok o o' :
  issue_outcome o = Ok o' → validate_outcome o' = Ok () ∧ outcome_key o' = outcome_key o ∧
  o_candidate_id o' = o_candidate_id o ∧ o_kind o' = o_kind o.
Proof. unfold issue_outcome. intros ([] & Hv & <-%Ok_inj)%bind_ok. done. Qed.

(** Appending adds the outcome of a key the store does not have, or changes nothing. *)
Lemma append_adds_one o s :
  (append o s).1 = s ∨ os_closed s = false ∧ find_outcome (o_tenant_id o) (o_event_id o) (os_rows s) = None ∧
    (append o s).1 = {| os_closed := false; os_rows := os_rows s ++ [o] |}.
Proof.
  unfold append, transact, append_body, RouteStore.ensure_open. destruct (os_closed s); [by left|]. cbn.
  destruct (find_outcome _ _ _); cbn; [by destruct (raise_if _ _); left|by right].
Qed.

Lemma record_outcome_cases store i kind code reading :
  record_outcome store i kind code reading = store ∨
  ∃ s o candidate_id, store = Some s ∧ ai_route_candidate_id i = Some candidate_id ∧ os_closed s = false ∧
    issue_outcome (attempt_outcome i candidate_id kind code reading) = Ok o ∧
    find_outcome (o_tenant_id o) (o_event_id o) (os_rows s) = None ∧
    record_outcome store i kind code reading = Some {| os_closed := false; os_rows := os_rows s ++ [o] |}.
Proof.
  unfold record_outcome. destruct store as [s|]; [|by left]. destruct (ai_route_candidate_id i) as [candidate_id|]; [|by left].
  destruct (issue_outcome _) as [o|] eqn:E; [|by left]. destruct (append_adds_one o s) as [->|(Ho & Hf & ->)]; [by left|].
  right. exists s, o, candidate_id. done.
Qed.

(** A second report of an attempt is lost. *)
Lemma record_outcome_again s i candidate_id kind code reading o :
  ai_route_candidate_id i = Some candidate_id →
  o ∈ os_rows s → outcome_key o = outcome_key (attempt_outcome i candidate_id kind code reading) →
  record_outcome (Some s) i kind code reading = Some s.
Proof.
  intros Hi Ho Hk. destruct (record_outcome_cases (Some s) i kind code reading) as [|(s' & o' & c & [= <-] & Hc & _ & Hio & Hf & _)]; [done|].
  exfalso. rewrite Hi in Hc. injection Hc as <-. apply issue_outcome_ok in Hio as (_ & Hk' & _).
  apply find_row_None in Hf. apply Hf. apply list_elem_of_fmap. exists o. split; [|done]. cbn. by rewrite Hk, <-Hk'.
Qed.

End recorded.

(** ** The activity *)

Section activity.
Context `{Sha256, FloatRepr} {W : Type}.

(** C33. Whatever adapters, providers and stores do, a call of the activity leaves every lease it
    was given closed and wiped; a result comes from the adapter registered for the invocation,
    a credential-aware one with exactly the secrets of the binding the invocation names, each
    resolved by the provider of its own reference in the invocation's own tenant, environment,
    adapter and capability;
    recording the outcome does not change what the call does or returns; at most one outcome is
    added, a valid one of this attempt that says success exactly when there is a result, and
    repeating the attempt then adds none. *)
Theorem activity_contained (a : AdapterActivities W) reading i w store w' store' leases r :
  execute_activity a reading i w store = (w', store', leases, r) →
  all_leases spent leases ∧ (∀ x, r = Ok x → ran a i w w' x) ∧
  execute_activity a reading i w None = (w', None, leases, r) ∧
  (store' = store ∨ ∃ s o, store = Some s ∧ os_closed s = false ∧
     store' = Some {| os_closed := false; os_rows := os_rows s ++ [o] |} ∧ validate_outcome o = Ok () ∧
     ai_route_candidate_id i = Some (o_candidate_id o) ∧ is_success (o_kind o) = is_ok r ∧
     ∀ a' w1 reading', rd_attempt reading' = rd_attempt reading →
       (execute_activity (W := W) a' reading' i w1 store').1.1.2 = store').
Proof.
  unfold execute_activity. destruct (invoke_adapter a i w) as [[w1 leases1] x] eqn:E.
  apply invoke_adapter_contained in E as [Hl Hr].
  assert (∀ kind code, is_success kind = is_ok x → record_outcome store i kind code reading = store ∨
    ∃ s o, store = Some s ∧ os_closed s = false ∧
      record_outcome store i kind code reading = Some {| os_closed := false; os_rows := os_rows s ++ [o] |} ∧
      validate_outcome o = Ok () ∧ ai_route_candidate_id i = Some (o_candidate_id o) ∧
      is_success (o_kind o) = is_ok x ∧
      ∀ kind' code' reading', rd_attempt reading' = rd_attempt reading →
        record_outcome (Some {| os_closed := false; os_rows := os_rows s ++ [o] |}) i kind' code' reading'
        = Some {| os_closed := false; os_rows := os_rows s ++ [o] |}) as Hrec.
  { intros kind code Hk. destruct (record_outcome_cases store i kind code reading) as [Hs|(s & o & c & Hs & Hc & Ho & Hio & _ & Hn)]; [by left|].
    right. exists s, o. apply issue_outcome_ok in Hio as (Hv & Hkey & Hcand & Hkind).
    split_and!; [done..|by rewrite Hc, Hcand|by rewrite Hkind|]. intros kind' code' reading' Hat.
    apply (record_outcome_again _ _ c _ _ _ o); [done|cbn; apply elem_of_app; right; left|].
    rewrite Hkey. unfold outcome_key, attempt_outcome. cbn. by rewrite Hat. }
  destruct x as [y|e]; intros [= <- <- <- <-].
  - split_and!; [done|by intros y' [= <-]; apply Hr|done|].
    destruct (Hrec SUCCESS None eq_refl) as [Hs|(s & o & Hs & Ho & Hn & Hv & Hc & Hk & Ha)]; [by left|right].
    exists s, o. split_and!; try done. intros a' w2 reading' Hat. rewrite Hn.
    destruct (invoke_adapter a' i w2) as [[w3 l3] [z|e]]; cbn; by apply Ha.
  - split_and!; [done|done|done|].
    destruct (Hrec (if ae_retryable e then RETRYABLE_FAILURE else TERMINAL_FAILURE) (Some (ae_code e)))
      as [Hs|(s & o & Hs & Ho & Hn & Hv & Hc & Hk & Ha)]; [by destruct (ae_retryable e)|by left|right].
    exists s, o. split_and!; try done. intros a' w2 reading' Hat. rewrite Hn.
    destruct (invoke_adapter a' i w2) as [[w3 l3] [z|e']]; cbn; by apply Ha.
Qed.

End activity.

(** ** Examples *)

#[local] Existing Instances example_sha256 example_float_repr.

(** An adapter that reports the length of its key. *)
Definition counting_adapter : CredentialAwareAdapterExecutor ().
Proof.
  refine {| execute_with_credentials i s w :=
    let '(s', key) := read_lease "api_key" 5 s in
    (w, s', key ← key; Ok (Some {| ar_output := [("length", JInt (Z.of_nat (length key)))];
                                   ar_effect_reference := None; ar_execution_source := None |})) |}.
  intros i s w w' s' r. pose proof (lss_read "api_key" 5 s) as Hr. destruct (read_lease _ _ _) as [s1 key].
  intros [= _ <- _]. by apply star_one.
Defined.

Lemma memory_sound p r now now' l : memory_resolve p r now now' = Ok l → lease_sound l.
Proof.
  unfold memory_resolve. intros [_ Hl]%raise_if_then. destruct (assoc _ _); [|done]. revert Hl.
  unfold lease_value, make_lease. destruct (_ && _); [done|]. by intros [= <-].
Qed.

Definition demo_secrets : InMemorySecretProvider := {| im_secrets := [("demo-key", [7; 7; 7])]; im_ttl := 60 |}.
Definition demo_provider : SecretProvider ().
Proof.
  refine {| resolve_secret r c w := (w, memory_resolve demo_secrets r 0 1) |}.
  intros r c w w' l [= _ Hl]. by eapply memory_sound.
Defined.

Definition demo_binding : CredentialBinding := {|
  bi_tenant_id := "t-1"; bi_environment_id := "prod"; bi_adapter := "counting"; bi_capability := "count";
  bi_secrets := [("api_key", {| sr_provider := "memory"; sr_key := "demo-key"; sr_version := None |})];
  bi_revision := 1; bi_binding_digest := "sha256:00" |}.
Definition demo_activities : AdapterActivities () := {|
  aa_registry := {| executors := [("synthetic.track", synthetic_tracking)];
                    credential_executors := [("counting", counting_adapter)] |};
  aa_credential_bindings := Some (λ t e a c,
    Ok (if bool_decide ((t, e, a, c) = ("t-1", "prod", "counting", "count")) then Some demo_binding else None));
  aa_secret_providers := [("memory", demo_provider)] |}.
Definition demo_invocation (adapter : string) (digest : option string) : AdapterInvocation := {|
  ai_transaction_id := "tx-1"; ai_tenant_id := "t-1"; ai_environment_id := "prod"; ai_step_id := "step-1";
  ai_capability := Some "count"; ai_adapter := adapter; ai_operation := "fetch"; ai_input := [];
  ai_route_candidate_id := Some "route-1"; ai_credential_binding_digest := digest |}.
Definition demo_reading : Reading := {| rd_attempt := 1; rd_latency := 20; rd_occurred_at := 0 |}.
Definition demo_result (length : Z) : AdapterResult := {|
  ar_output := [("length", JInt length)]; ar_effect_reference := None; ar_execution_source := None |}.

(** The second call of an attempt adds no outcome, a call under another digest gets no lease. *)
Definition demo_run (digest : string) (store : option OutcomeStore) :=
  execute_activity demo_activities demo_reading (demo_invocation "counting" (Some digest)) () store.

Example demo_calls :
  (demo_run "sha256:00" None).2 = Ok (demo_result 3) ∧
  map (λ kv, sl_buffers kv.2) (demo_run "sha256:00" None).1.2 = [[("demo-key", [0; 0; 0])]] ∧
  (demo_run "sha256:01" None).2 = Err (application_error credential_unavailable) ∧
  (demo_run "sha256:01" None).1.2 = [] ∧
  (execute_activity demo_activities demo_reading (demo_invocation "counting" None) () None).2
  = Err (application_error (final_error "adapter_not_found" "Requested adapter is not registered")).
Proof. split_and!; vm_compute; reflexivity. Qed.

Lemma activity_contained_witness :
  ran demo_activities (demo_invocation "counting" (Some "sha256:00")) () () (demo_result 3) ∧
  ∃ s, (demo_run "sha256:00" (Some empty_store)).1.1.2 = Some s ∧ length (os_rows s) = 1%nat ∧
    (demo_run "sha256:00" (Some s)).1.1.2 = Some s.
Proof.
  destruct (demo_run "sha256:00" (Some empty_store)) as [[[w' store'] leases] r] eqn:E.
  pose proof (activity_contained _ _ _ _ _ _ _ _ _ E) as (_ & Hran & _ & [Hs|(s & o & [= <-] & _ & Hs & _ & _ & _ & Hagain)]).
  - exfalso. subst store'. revert E. vm_compute. discriminate.
  - split.
    { destruct w'. apply Hran. assert ((demo_run "sha256:00" (Some empty_store)).2 = Ok (demo_result 3)) as Hr
        by (vm_compute; reflexivity). rewrite E in Hr. exact Hr. }
    subst store'. eexists. split_and!; [reflexivity|reflexivity|]. exact (Hagain demo_activities () demo_reading eq_refl).
Defined.
