(* ===== verification/Booking.v ===== *)
(** * Booking requests (booking/contracts.py, draft.py)

    The reviewed subset of DCSA's booking request, the mapping of a transaction into it, and
    the draft adapter that fingerprints it.  What pydantic reads from a payload is a parameter
    ([BookingReader]): it passes the model's validators, and includes the documents that have
    every field under its name or alias with a value of its type ([strict_request]). *)

From Stdlib Require Import Ascii.
From Stdlib Require Import SpecFloat.
From S2P Require Import Prelude.
From S2P Require Import Contracts.
From S2P Require Import Documents.
From S2P Require Import RuntimeModels.
From S2P Require Import Planner.
From S2P Require Import Adapters.

(** ** The request; handover types, movements, location types and weights are those of the IR *)

Notation BookingWeight := CargoGrossWeight.

Record BookingCommodity := {
  co_commodity_type : string;
  co_cargo_gross_weight : option BookingWeight }.

Record BookingEquipment := {
  eq_equipment_size_type : string;
  eq_units : Z;
  eq_is_shipper_owned : bool;
  eq_cargo_gross_weight : option BookingWeight;
  eq_commodities : list BookingCommodity }.

Record BookingShipmentLocation := {
  sl_un_location_code : string;
  sl_location_type_code : LocationType }.

Record BookingCreateRequest := {
  br_receipt_type_at_origin : HandoverType;
  br_delivery_type_at_destination : HandoverType;
  br_cargo_movement_type_at_origin : CargoMovement;
  br_cargo_movement_type_at_destination : CargoMovement;
  br_service_contract_reference : option string;
  br_contract_quotation_reference : option string;
  br_extended_contract_quotation_reference : option string;
  br_is_equipment_substitution_allowed : bool;
  br_shipment_locations : list BookingShipmentLocation;
  br_requested_equipments : list BookingEquipment;
  br_booking_agent : string }.

Definition weight_ok (w : BookingWeight) : bool :=
  SFltb (py_float 0) (gw_value w) && SFleb (gw_value w) (py_float 100000000).

Definition commodity_ok (c : BookingCommodity) : bool :=
  text_ok 1 550 (co_commodity_type c) && opt_ok weight_ok (co_cargo_gross_weight c).

(** The fields of [BookingEquipment] and [validate_weight]. *)
Definition booking_equipment_ok (e : BookingEquipment) : bool :=
  text_ok 1 4 (eq_equipment_size_type e) && between 1 (eq_units e) 10000
  && opt_ok weight_ok (eq_cargo_gross_weight e)
  && between 1 (Z.of_nat (length (eq_commodities e))) 32 && forallb commodity_ok (eq_commodities e)
  && negb (is_none (eq_cargo_gross_weight e)
           && existsb (λ c, is_none (co_cargo_gross_weight c)) (eq_commodities e)).

Definition count_locations (t : LocationType) (l : list BookingShipmentLocation) : Z :=
  Z.of_nat (length (List.filter (λ b, bool_decide (sl_location_type_code b = t)) l)).

(** The fields of [BookingCreateRequest] and [validate_business_rules]. *)
Definition validate_request (r : BookingCreateRequest) : result string () :=
  raise_if (negb (opt_ok (text_ok 1 30) (br_service_contract_reference r)
                  && opt_ok (text_ok 1 35) (br_contract_quotation_reference r)
                  && opt_ok (text_ok 1 70) (br_extended_contract_quotation_reference r)
                  && between 2 (Z.of_nat (length (br_shipment_locations r))) 16
                  && forallb (λ l, UNLocationCode_ok (sl_un_location_code l)) (br_shipment_locations r)
                  && between 1 (Z.of_nat (length (br_requested_equipments r))) 32
                  && forallb booking_equipment_ok (br_requested_equipments r)
                  && text_ok 1 70 (br_booking_agent r))) "field constraint";;
  raise_if (bool_decide (is_none (br_service_contract_reference r)
                         = (is_none (br_contract_quotation_reference r)
                            && is_none (br_extended_contract_quotation_reference r))))
    "exactly one service contract or quotation reference is required";;
  raise_if (negb (count_locations POL (br_shipment_locations r) =? 1)
            || negb (count_locations POD (br_shipment_locations r) =? 1))
    "booking requires exactly one POL and exactly one POD";;
  raise_if (has_duplicates (map sl_un_location_code (br_shipment_locations r)))
    "booking shipment locations must be distinct".

(** ** The wire form *)

Definition weight_json (w : BookingWeight) : json := model_obj true [
  ("value", JFloat (gw_value w)); ("unit", JStr (WeightUnit_value (gw_unit w)))].
Definition commodity_json (c : BookingCommodity) : json := model_obj true [
  ("commodityType", JStr (co_commodity_type c)); ("cargoGrossWeight", json_opt weight_json (co_cargo_gross_weight c))].
Definition booking_equipment_json (e : BookingEquipment) : json := model_obj true [
  ("ISOEquipmentCode", JStr (eq_equipment_size_type e)); ("units", JInt (eq_units e));
  ("isShipperOwned", JBool (eq_is_shipper_owned e));
  ("cargoGrossWeight", json_opt weight_json (eq_cargo_gross_weight e));
  ("commodities", JList (map commodity_json (eq_commodities e)))].
Definition shipment_location_json (l : BookingShipmentLocation) : json := model_obj true [
  ("location", model_obj true [("UNLocationCode", JStr (sl_un_location_code l))]);
  ("locationTypeCode", JStr (LocationType_value (sl_location_type_code l)))].

(** [to_dcsa]; the extended quotation reference takes precedence. *)
Definition to_dcsa (r : BookingCreateRequest) : json := model_obj true [
  ("receiptTypeAtOrigin", JStr (HandoverType_value (br_receipt_type_at_origin r)));
  ("deliveryTypeAtDestination", JStr (HandoverType_value (br_delivery_type_at_destination r)));
  ("cargoMovementTypeAtOrigin", JStr (CargoMovement_value (br_cargo_movement_type_at_origin r)));
  ("cargoMovementTypeAtDestination", JStr (CargoMovement_value (br_cargo_movement_type_at_destination r)));
  ("serviceContractReference", json_opt JStr (br_service_contract_reference r));
  ("contractQuotationReference",
    if is_none (br_extended_contract_quotation_reference r) then json_opt JStr (br_contract_quotation_reference r)
    else JNull);
  ("extendedContractQuotationReference", json_opt JStr (br_extended_contract_quotation_reference r));
  ("isEquipmentSubstitutionAllowed", JBool (br_is_equipment_substitution_allowed r));
  ("shipmentLocations", JList (map shipment_location_json (br_shipment_locations r)));
  ("requestedEquipments", JList (map booking_equipment_json (br_requested_equipments r)));
  ("documentParties", model_obj true [("bookingAgent", model_obj true [("partyName", JStr (br_booking_agent r))])])].

(** ** Documents of the model's own types

    Each field under its alias or its name, no others, and values of the field's type; an
    optional field may be missing or null. *)

Notation fields := (list (string * json)).

Definition allowed (keys : list string) (o : fields) : option () :=
  if forallb (λ kv, mem kv.1 keys) o then Some () else None.
Definition field (alias name : string) (o : fields) : option json :=
  match assoc alias o, assoc name o with
  | Some _, Some _ => None
  | Some v, None | None, Some v => Some v
  | None, None => Some JNull
  end.

Definition as_fields (v : json) : option fields := match v with JObj o => Some o | _ => None end.
Definition read_all {A} (f : json → option A) (l : list json) : option (list A) := mapM f l.
Definition as_list {A} (f : json → option A) (v : json) : option (list A) :=
  match v with JList l => read_all f l | _ => None end.
Definition as_string (v : json) : option string := match v with JStr s => Some s | _ => None end.
Definition as_int (v : json) : option Z := match v with JInt z => Some z | _ => None end.
Definition as_float (v : json) : option spec_float := match v with JFloat f => Some f | _ => None end.
Definition as_bool (v : json) : option bool := match v with JBool b => Some b | _ => None end.
Definition as_option {A} (f : json → option A) (v : json) : option (option A) :=
  match v with JNull => Some None | _ => Some <$> f v end.
Definition as_literal {A} (text : A → string) (all : list A) (v : json) : option A :=
  match v with JStr s => List.find (λ a, bool_decide (text a = s)) all | _ => None end.

Definition own (name : string) (o : fields) : option json := Some (default JNull (assoc name o)).

Definition strict_weight (v : json) : option BookingWeight :=
  o ← as_fields v; allowed ["value"; "unit"] o;;
  value ← own "value" o ≫= as_float; unit ← own "unit" o ≫= as_literal WeightUnit_value [KGM; LBR];
  Some {| gw_value := value; gw_unit := unit |}.

Definition strict_commodity (v : json) : option BookingCommodity :=
  o ← as_fields v; allowed ["commodityType"; "commodity_type"; "cargoGrossWeight"; "cargo_gross_weight"] o;;
  commodity_type ← field "commodityType" "commodity_type" o ≫= as_string;
  weight ← field "cargoGrossWeight" "cargo_gross_weight" o ≫= as_option strict_weight;
  Some {| co_commodity_type := commodity_type; co_cargo_gross_weight := weight |}.

Definition strict_equipment (v : json) : option BookingEquipment :=
  o ← as_fields v;
  allowed ["ISOEquipmentCode"; "equipment_size_type"; "units"; "isShipperOwned"; "is_shipper_owned";
           "cargoGrossWeight"; "cargo_gross_weight"; "commodities"] o;;
  size ← field "ISOEquipmentCode" "equipment_size_type" o ≫= as_string; units ← own "units" o ≫= as_int;
  owned ← field "isShipperOwned" "is_shipper_owned" o ≫= as_bool;
  weight ← field "cargoGrossWeight" "cargo_gross_weight" o ≫= as_option strict_weight;
  commodities ← own "commodities" o ≫= as_list strict_commodity;
  Some {| eq_equipment_size_type := size; eq_units := units; eq_is_shipper_owned := owned;
          eq_cargo_gross_weight := weight; eq_commodities := commodities |}.

Definition strict_shipment_location (v : json) : option BookingShipmentLocation :=
  o ← as_fields v; allowed ["location"; "locationTypeCode"; "location_type_code"] o;;
  location ← own "location" o ≫= as_fields; allowed ["UNLocationCode"; "un_location_code"] location;;
  location_code ← field "UNLocationCode" "un_location_code" location ≫= as_string;
  location_type ← field "locationTypeCode" "location_type_code" o ≫= as_literal LocationType_value [POL; POD];
  Some {| sl_un_location_code := location_code; sl_location_type_code := location_type |}.

Definition strict_parties (v : json) : option string :=
  o ← as_fields v; allowed ["bookingAgent"; "booking_agent"] o;;
  agent ← field "bookingAgent" "booking_agent" o ≫= as_fields; allowed ["partyName"; "party_name"] agent;;
  field "partyName" "party_name" agent ≫= as_string.

Definition request_keys : list (string * string) := [
  ("receiptTypeAtOrigin", "receipt_type_at_origin"); ("deliveryTypeAtDestination", "delivery_type_at_destination");
  ("cargoMovementTypeAtOrigin", "cargo_movement_type_at_origin");
  ("cargoMovementTypeAtDestination", "cargo_movement_type_at_destination");
  ("serviceContractReference", "service_contract_reference");
  ("contractQuotationReference", "contract_quotation_reference");
  ("extendedContractQuotationReference", "extended_contract_quotation_reference");
  ("isEquipmentSubstitutionAllowed", "is_equipment_substitution_allowed");
  ("shipmentLocations", "shipment_locations"); ("requestedEquipments", "requested_equipments");
  ("documentParties", "document_parties")].

Notation as_handover := (as_literal HandoverType_value [CY; SD; CFS]).
Notation as_movement := (as_literal CargoMovement_value [FCL; LCL]).

Definition strict_request (v : json) : option BookingCreateRequest :=
  o ← as_fields v; allowed (map fst request_keys ++ map snd request_keys) o;;
  receipt ← field "receiptTypeAtOrigin" "receipt_type_at_origin" o ≫= as_handover;
  delivery ← field "deliveryTypeAtDestination" "delivery_type_at_destination" o ≫= as_handover;
  origin ← field "cargoMovementTypeAtOrigin" "cargo_movement_type_at_origin" o ≫= as_movement;
  destination ← field "cargoMovementTypeAtDestination" "cargo_movement_type_at_destination" o ≫= as_movement;
  contract ← field "serviceContractReference" "service_contract_reference" o ≫= as_option as_string;
  quotation ← field "contractQuotationReference" "contract_quotation_reference" o ≫= as_option as_string;
  extended ← field "extendedContractQuotationReference" "extended_contract_quotation_reference" o
    ≫= as_option as_string;
  substitution ← field "isEquipmentSubstitutionAllowed" "is_equipment_substitution_allowed" o ≫= as_bool;
  locations ← field "shipmentLocations" "shipment_locations" o ≫= as_list strict_shipment_location;
  equipments ← field "requestedEquipments" "requested_equipments" o ≫= as_list strict_equipment;
  agent ← field "documentParties" "document_parties" o ≫= strict_parties;
  Some {|
    br_receipt_type_at_origin := receipt; br_delivery_type_at_destination := delivery;
    br_cargo_movement_type_at_origin := origin; br_cargo_movement_type_at_destination := destination;
    br_service_contract_reference := contract; br_contract_quotation_reference := quotation;
    br_extended_contract_quotation_reference := extended; br_is_equipment_substitution_allowed := substitution;
    br_shipment_locations := locations; br_requested_equipments := equipments; br_booking_agent := agent |}.

(** [BookingCreateRequest.model_validate]. *)
Class BookingReader := {
  read_booking : json → option BookingCreateRequest;
  read_booking_valid v r : read_booking v = Some r → validate_request r = Ok ();
  read_booking_strict v r : strict_request v = Some r → validate_request r = Ok () → read_booking v = Some r }.

(** ** The mapping of a transaction *)

Inductive MapFailure := MapValueError (message : string) | MapTypeError (message : string).

(** [source.get(key)], which does not tell a missing key from a null, and [get(key, other)]. *)
Definition get (key : string) (o : fields) : json := default JNull (assoc key o).
Definition get_or (key : string) (o : fields) (other : json) : json := default other (assoc key o).
Definition is_null (v : json) : bool := match v with JNull => true | _ => false end.

Section map_ir.
Context (source transaction : fields).

(** [first]: the first key either mapping has. *)
Fixpoint first (keys : list string) : json :=
  match keys with
  | [] => JNull
  | key :: keys' =>
      match assoc key source, assoc key transaction with
      | Some v, _ => v
      | None, Some v => v
      | None, None => first keys'
      end
  end.

Definition normalized_location (item : json) : json :=
  match item with
  | JObj o =>
      let location := get "location" o in
      let location' :=
        if is_null location && negb (is_null (get "un_location_code" o))
        then JObj [("un_location_code", get "un_location_code" o)] else location in
      JObj [("location", location');
            ("location_type_code", get_or "location_type_code" o (get "locationTypeCode" o))]
  | _ => item
  end.

Definition raw_locations : json :=
  match first ["shipment_locations"] with
  | JNull => JList [
      JObj [("location", first ["port_of_loading"; "pol"]); ("location_type_code", JStr "POL")];
      JObj [("location", first ["port_of_discharge"; "pod"]); ("location_type_code", JStr "POD")]]
  | v => v
  end.
Definition normalized_locations : list json :=
  match raw_locations with JList l => map normalized_location l | v => [v] end.

(** The comprehension over [commodities]: other than objects in a list leave nothing, a null,
    a boolean or a number cannot be iterated. *)
Definition clean_commodity (v : json) : option json :=
  match v with
  | JObj o => Some (JObj [("commodityType", get_or "commodityType" o (get "commodity_type" o));
                          ("cargoGrossWeight", get_or "cargoGrossWeight" o (get "cargo_gross_weight" o))])
  | _ => None
  end.
Definition clean_commodities (v : json) : result MapFailure (list json) :=
  match v with
  | JList l => Ok (omap clean_commodity l)
  | JObj _ | JStr _ => Ok []
  | _ => Err (MapTypeError "object is not iterable")
  end.

Definition normalized_equipment (item : json) : result MapFailure json :=
  match item with
  | JObj o =>
      commodities ← clean_commodities (get_or "commodities" o (JList []));
      Ok (JObj [
        ("ISOEquipmentCode",
          get_or "ISOEquipmentCode" o (get_or "iso_equipment_code" o (get "equipment_size_type" o)));
        ("units", get "units" o); ("isShipperOwned", get_or "isShipperOwned" o (get "is_shipper_owned" o));
        ("cargoGrossWeight", get_or "cargoGrossWeight" o (get "cargo_gross_weight" o));
        ("commodities", JList commodities)])
  | _ => Ok item
  end.

Definition normalized_equipments : result MapFailure (list json) :=
  match first ["requested_equipments"; "equipment"] with
  | JList l => mapM_result normalized_equipment l
  | _ => Ok []
  end.

Definition mapped_payload (equipments : list json) : json := JObj [
  ("receipt_type_at_origin", first ["receipt_type_at_origin"]);
  ("delivery_type_at_destination", first ["delivery_type_at_destination"]);
  ("cargo_movement_type_at_origin", first ["cargo_movement_type_at_origin"]);
  ("cargo_movement_type_at_destination", first ["cargo_movement_type_at_destination"]);
  ("service_contract_reference", first ["service_contract_reference"]);
  ("contract_quotation_reference", first ["contract_quotation_reference"]);
  ("extended_contract_quotation_reference", first ["extended_contract_quotation_reference"]);
  ("is_equipment_substitution_allowed", first ["is_equipment_substitution_allowed"]);
  ("shipment_locations", JList normalized_locations); ("requested_equipments", JList equipments);
  ("document_parties",
    match first ["document_parties"] with
    | JNull => JObj [("booking_agent", first ["booking_agent"])]
    | v => v
    end)].

End map_ir.

Section mapping.
Context `{BookingReader}.

Definition map_ir_to_booking (input : fields) : result MapFailure BookingCreateRequest :=
  let transaction := match assoc "transaction" input with Some (JObj nested) => nested | _ => input end in
  match get_or "parameters" transaction (JObj transaction) with
  | JObj source =>
      equipments ← normalized_equipments source transaction;
      match read_booking (mapped_payload source transaction equipments) with
      | Some r => Ok r
      | None => Err (MapValueError "booking transaction does not match the reviewed subset")
      end
  | _ => Err (MapValueError "booking transaction parameters are invalid")
  end.

(** [BookingDraftAdapter.execute]. *)
Definition draft_digest `{Sha256, FloatRepr} (r : BookingCreateRequest) : string :=
  "sha256:" +:+ sha256_hex (json_dumps (to_dcsa r)).
Definition draft_adapter `{Sha256, FloatRepr} {W} : AdapterExecutor W := λ i w,
  (w, if negb (bool_decide (ai_operation i = "prepare")) then
        adapter_error "booking_operation_unsupported" "Booking draft operation is unsupported"
      else
        match map_ir_to_booking (ai_input i) with
        | Err _ => adapter_error "booking_schema_rejected" "Booking request failed schema validation during preflight"
        | Ok r => Ok (Some {| ar_output := [("synthetic", JBool true); ("draft_digest", JStr (draft_digest r))];
                              ar_effect_reference := None; ar_execution_source := None |})
        end).

End mapping.

(** ** Round trips *)

Lemma read_all_to {A B} (f : json → option B) (g : A → json) (k : A → B) l :
  (∀ a, f (g a) = Some (k a)) → read_all f (map g l) = Some (map k l).
Proof. unfold read_all. intros Hfg. induction l as [|a l IH]; [done|]. cbn. by rewrite Hfg, IH. Qed.

Lemma read_all_map {A} (f : json → option A) (g : A → json) l :
  (∀ a, f (g a) = Some a) → read_all f (map g l) = Some l.
Proof. intros Hfg. rewrite (read_all_to f g id), map_id; done. Qed.

Lemma strict_weight_json w : strict_weight (weight_json w) = Some w.
Proof. by destruct w as [v []]. Qed.

Lemma strict_weight_option o : as_option strict_weight (json_opt weight_json o) = Some o.
Proof. by destruct o as [[v []]|]. Qed.

Lemma strict_commodity_json c : strict_commodity (commodity_json c) = Some c.
Proof. by destruct c as [t [[v []]|]]. Qed.

Lemma strict_equipment_json e : strict_equipment (booking_equipment_json e) = Some e.
Proof.
  pose proof (read_all_map _ _ (eq_commodities e) strict_commodity_json) as Hc.
  destruct e as [size units owned weight commodities]. cbn [eq_commodities] in Hc.
  unfold booking_equipment_json. cbn [eq_commodities]. revert Hc. generalize (map commodity_json commodities).
  intros values Hc. unfold strict_equipment.
  destruct weight as [[v []]|]; lazy -[read_all strict_commodity]; by rewrite Hc.
Qed.

Lemma strict_location_json l : strict_shipment_location (shipment_location_json l) = Some l.
Proof. by destruct l as [c []]. Qed.

(** What [to_dcsa] keeps. *)
Definition on_the_wire (r : BookingCreateRequest) : BookingCreateRequest :=
  if is_none (br_extended_contract_quotation_reference r) then r else {|
    br_receipt_type_at_origin := br_receipt_type_at_origin r;
    br_delivery_type_at_destination := br_delivery_type_at_destination r;
    br_cargo_movement_type_at_origin := br_cargo_movement_type_at_origin r;
    br_cargo_movement_type_at_destination := br_cargo_movement_type_at_destination r;
    br_service_contract_reference := br_service_contract_reference r; br_contract_quotation_reference := None;
    br_extended_contract_quotation_reference := br_extended_contract_quotation_reference r;
    br_is_equipment_substitution_allowed := br_is_equipment_substitution_allowed r;
    br_shipment_locations := br_shipment_locations r; br_requested_equipments := br_requested_equipments r;
    br_booking_agent := br_booking_agent r |}.

Lemma strict_to_dcsa r : strict_request (to_dcsa r) = Some (on_the_wire r).
Proof.
  pose proof (read_all_map _ _ (br_shipment_locations r) strict_location_json) as Hl.
  pose proof (read_all_map _ _ (br_requested_equipments r) strict_equipment_json) as He.
  destruct r as [h h' m m' contract quotation extended substitution locations equipments agent].
  cbn [br_shipment_locations br_requested_equipments] in Hl, He. unfold to_dcsa, on_the_wire.
  cbn [br_shipment_locations br_requested_equipments]. revert Hl He.
  generalize (map shipment_location_json locations) (map booking_equipment_json equipments). intros ls es Hl He.
  assert (∀ x, as_handover (JStr (HandoverType_value x)) = Some x) as Hh by by intros [].
  assert (∀ x, as_movement (JStr (CargoMovement_value x)) = Some x) as Hm by by intros [].
  unfold strict_request.
  destruct contract, quotation, extended; lazy -[read_all strict_shipment_location strict_equipment as_literal
    HandoverType_value CargoMovement_value]; rewrite !Hh, !Hm, Hl, He; reflexivity.
Qed.

Lemma on_the_wire_valid r : validate_request r = Ok () → validate_request (on_the_wire r) = Ok ().
Proof.
  unfold on_the_wire. destruct (is_none _) eqn:E; [done|]. unfold validate_request.
  rewrite !raise_if_then, !raise_if_ok. cbn [br_service_contract_reference br_contract_quotation_reference
    br_extended_contract_quotation_reference br_shipment_locations br_requested_equipments br_booking_agent].
  rewrite E, !andb_false_r. intros (Hf & ? & ? & ?). split_and!; try done.
  apply negb_false_iff. apply negb_false_iff in Hf. rewrite !andb_true_iff in *. tauto.
Qed.

Lemma to_dcsa_on_the_wire r : to_dcsa (on_the_wire r) = to_dcsa r.
Proof. unfold on_the_wire. destruct (is_none _) eqn:E; [done|]. unfold to_dcsa. cbn. by rewrite E. Qed.

Lemma map_ir_valid `{BookingReader} input r : map_ir_to_booking input = Ok r → validate_request r = Ok ().
Proof.
  unfold map_ir_to_booking. cbv zeta. destruct (get_or _ _ _); try done. intros (es & _ & Hr)%bind_ok.
  destruct (read_booking _) eqn:E; [|done]. injection Hr as <-. by eapply read_booking_valid.
Qed.

(** The carrier reads a request as it is on the wire. *)
Lemma read_to_dcsa `{BookingReader} r : validate_request r = Ok () → read_booking (to_dcsa r) = Some (on_the_wire r).
Proof. intros Hv. apply read_booking_strict; [apply strict_to_dcsa|by apply on_the_wire_valid]. Qed.

(** ** Planned bookings *)

(** The request that stands for booking parameters. *)
Definition equipment_request (e : RequestedBookingEquipment) : BookingEquipment := {|
  eq_equipment_size_type := be_iso_equipment_code e; eq_units := be_units e;
  eq_is_shipper_owned := be_is_shipper_owned e; eq_cargo_gross_weight := Some (be_cargo_gross_weight e);
  eq_commodities := map (λ t, {| co_commodity_type := t; co_cargo_gross_weight := None |}) (be_commodities e) |}.
Definition location_request (l : BookingLocation) : BookingShipmentLocation := {|
  sl_un_location_code := bl_un_location_code l; sl_location_type_code := bl_location_type_code l |}.
Definition booking_request (b : BookingParameters) : BookingCreateRequest := {|
  br_receipt_type_at_origin := bp_receipt_type_at_origin b;
  br_delivery_type_at_destination := bp_delivery_type_at_destination b;
  br_cargo_movement_type_at_origin := bp_cargo_movement_type_at_origin b;
  br_cargo_movement_type_at_destination := bp_cargo_movement_type_at_destination b;
  br_service_contract_reference := bp_service_contract_reference b; br_contract_quotation_reference := None;
  br_extended_contract_quotation_reference := bp_extended_contract_quotation_reference b;
  br_is_equipment_substitution_allowed := bp_is_equipment_substitution_allowed b;
  br_shipment_locations := map location_request (bp_shipment_locations b);
  br_requested_equipments := map equipment_request (bp_requested_equipments b);
  br_booking_agent := bp_booking_agent b |}.

(** What the mapper makes of the IR's locations and equipments. *)
Definition mapped_equipment (e : RequestedBookingEquipment) : json := JObj [
  ("ISOEquipmentCode", JStr (be_iso_equipment_code e)); ("units", JInt (be_units e));
  ("isShipperOwned", JBool (be_is_shipper_owned e));
  ("cargoGrossWeight", weight_json (be_cargo_gross_weight e));
  ("commodities",
    JList (map (λ t, JObj [("commodityType", JStr t); ("cargoGrossWeight", JNull)]) (be_commodities e)))].

Lemma omap_clean l :
  omap clean_commodity (map (λ t, model_obj false [("commodity_type", JStr t)]) l)
  = map (λ t, JObj [("commodityType", JStr t); ("cargoGrossWeight", JNull)]) l.
Proof. induction l as [|t l IH]; [done|]. cbn [map omap list_omap]. by rewrite IH. Qed.

Lemma normalized_equipment_json e : normalized_equipment (equipment_json false e) = Ok (mapped_equipment e).
Proof.
  pose proof (omap_clean (be_commodities e)) as Hc. destruct e as [code units owned w commodities].
  cbn [be_commodities] in Hc. unfold equipment_json, mapped_equipment. cbn [be_commodities]. revert Hc.
  generalize (map (λ t, model_obj false [("commodity_type", JStr t)]) commodities)
    (map (λ t, JObj [("commodityType", JStr t); ("cargoGrossWeight", JNull)]) commodities).
  intros values clean <-. by lazy -[omap list_omap clean_commodity].
Qed.

Lemma normalized_equipment_list l :
  mapM_result normalized_equipment (map (equipment_json false) l) = Ok (map mapped_equipment l).
Proof. induction l as [|e l IH]; [done|]. cbn [map mapM_result]. by rewrite normalized_equipment_json, IH. Qed.

Lemma strict_mapped_equipment e : strict_equipment (mapped_equipment e) = Some (equipment_request e).
Proof.
  pose proof (read_all_to strict_commodity (λ t, JObj [("commodityType", JStr t); ("cargoGrossWeight", JNull)])
    (λ t, {| co_commodity_type := t; co_cargo_gross_weight := None |}) (be_commodities e) (λ _, eq_refl)) as Hc.
  destruct e as [code units owned [v u] commodities]. cbn [be_commodities] in Hc.
  unfold mapped_equipment, equipment_request. cbn [be_commodities]. revert Hc.
  generalize (map (λ t, JObj [("commodityType", JStr t); ("cargoGrossWeight", JNull)]) commodities)
    (map (λ t, {| co_commodity_type := t; co_cargo_gross_weight := None |}) commodities).
  intros values read Hc. destruct u; lazy -[read_all strict_commodity]; by rewrite Hc.
Qed.

Lemma strict_mapped_location l :
  strict_shipment_location (normalized_location (location_json false l)) = Some (location_request l).
Proof. by destruct l as [[] c]. Qed.

Section planned.
Context `{BookingReader, DatetimeText}.

(** The payload the mapper makes of a planned booking, whatever else the transaction holds. *)
Definition planned_payload (b : BookingParameters) : json := JObj [
  ("receipt_type_at_origin", JStr (HandoverType_value (bp_receipt_type_at_origin b)));
  ("delivery_type_at_destination", JStr (HandoverType_value (bp_delivery_type_at_destination b)));
  ("cargo_movement_type_at_origin", JStr (CargoMovement_value (bp_cargo_movement_type_at_origin b)));
  ("cargo_movement_type_at_destination", JStr (CargoMovement_value (bp_cargo_movement_type_at_destination b)));
  ("service_contract_reference", json_opt JStr (bp_service_contract_reference b));
  ("contract_quotation_reference", JNull);
  ("extended_contract_quotation_reference", json_opt JStr (bp_extended_contract_quotation_reference b));
  ("is_equipment_substitution_allowed", JBool (bp_is_equipment_substitution_allowed b));
  ("shipment_locations",
    JList (map normalized_location (map (location_json false) (bp_shipment_locations b))));
  ("requested_equipments", JList (map mapped_equipment (bp_requested_equipments b)));
  ("document_parties", JObj [("booking_agent", JObj [("party_name", JStr (bp_booking_agent b))])])].

Lemma map_planned c b :
  tc_parameters c = PBooking b →
  map_ir_to_booking (step_input c) =
    match read_booking (planned_payload b) with
    | Some r => Ok r
    | None => Err (MapValueError "booking transaction does not match the reviewed subset")
    end.
Proof.
  intros Hp. pose proof (normalized_equipment_list (bp_requested_equipments b)) as He.
  unfold map_ir_to_booking, step_input, command_payload, command_json, parameters_json. rewrite Hp.
  unfold booking_json, planned_payload. revert He.
  generalize (map (equipment_json false) (bp_requested_equipments b))
    (map mapped_equipment (bp_requested_equipments b)) (map (location_json false) (bp_shipment_locations b)).
  intros es mapped ls He.
  lazy -[read_booking mapM_result normalized_equipment normalized_location map HandoverType_value
    CargoMovement_value subject_json json_strs].
  rewrite He. reflexivity.
Qed.

Lemma strict_planned b : strict_request (planned_payload b) = Some (booking_request b).
Proof.
  pose proof (read_all_to _ _ _ (bp_requested_equipments b) strict_mapped_equipment) as He.
  pose proof (read_all_to _ (λ l, normalized_location (location_json false l)) _ (bp_shipment_locations b)
    strict_mapped_location) as Hl. rewrite <-(map_map (location_json false) normalized_location) in Hl.
  destruct b as [h h' m m' contract extended substitution locations equipments agent].
  cbn [bp_shipment_locations bp_requested_equipments] in *. unfold planned_payload, booking_request.
  cbn [bp_shipment_locations bp_requested_equipments]. revert He Hl.
  generalize (map mapped_equipment equipments) (map equipment_request equipments)
    (map normalized_location (map (location_json false) locations)) (map location_request locations).
  intros mapped read_es ls read_ls He Hl.
  assert (∀ x, as_handover (JStr (HandoverType_value x)) = Some x) as Hh by by intros [].
  assert (∀ x, as_movement (JStr (CargoMovement_value x)) = Some x) as Hm by by intros [].
  destruct contract, extended; lazy -[read_all strict_shipment_location strict_equipment as_literal
    HandoverType_value CargoMovement_value]; rewrite !Hh, !Hm, Hl, He; reflexivity.
Qed.

Lemma equipment_request_ok e : equipment_ok e = true → booking_equipment_ok (equipment_request e) = true.
Proof.
  unfold equipment_ok, booking_equipment_ok, ISOEquipmentCode_ok, text_ok, between, weight_ok. cbn.
  rewrite length_map, !andb_true_iff. intros (((((Hcode & Hu) & Hlo) & Hhi) & Hn) & Hc).
  split_and!; try tauto.
  - destruct Hcode as (_ & H4 & _). boolify. apply Z.leb_le. lia.
  - apply forallb_elem. intros c (t & -> & Ht)%list_elem_of_fmap. rewrite forallb_elem in Hc.
    unfold commodity_ok. cbn. rewrite andb_true_r. by apply Hc.
Qed.

Lemma count_locations_request t l : count_locations t (map location_request l) = count_type t l.
Proof.
  unfold count_locations, count_type. f_equal. f_equal.
  induction l as [|a l IH]; [done|]. cbn. destruct (bool_decide _); cbn; by rewrite IH.
Qed.

Lemma booking_request_valid b : validate_booking b = Ok () → validate_request (booking_request b) = Ok ().
Proof.
  unfold validate_booking, validate_request. rewrite !raise_if_then, !raise_if_ok. intros (Hf & Hx & Hp & Hd).
  cbn [booking_request br_service_contract_reference br_contract_quotation_reference br_shipment_locations
    br_extended_contract_quotation_reference br_requested_equipments br_booking_agent is_none opt_ok andb].
  rewrite !count_locations_request, !length_map, map_map. split_and!; [|done..].
  apply negb_false_iff. apply negb_false_iff in Hf. rewrite !andb_true_iff in *.
  destruct Hf as ((((((Hs & He) & Hn) & Hl) & Hm) & Hq) & Ha). split_and!; try done.
  - rewrite forallb_elem in Hl. apply forallb_elem. intros x (l & -> & Hin)%list_elem_of_fmap. by apply (Hl l).
  - rewrite forallb_elem in Hq. apply forallb_elem. intros x (e & -> & Hin)%list_elem_of_fmap. by apply equipment_request_ok, Hq.
Qed.

Lemma map_planned_ok c b :
  tc_parameters c = PBooking b → validate_booking b = Ok () → map_ir_to_booking (step_input c) = Ok (booking_request b).
Proof.
  intros Hp Hv. rewrite (map_planned c b Hp).
  by rewrite (read_booking_strict _ _ (strict_planned b) (booking_request_valid b Hv)).
Qed.

Lemma wire_read b : validate_booking b = Ok () → read_booking (to_dcsa (booking_request b)) = Some (booking_request b).
Proof.
  intros Hv. apply read_booking_strict; [|by apply booking_request_valid]. rewrite strict_to_dcsa. f_equal.
  unfold on_the_wire. destruct (is_none _); [done|]. by destruct b.
Qed.

Lemma booking_request_inj b b' : booking_request b = booking_request b' → b = b'.
Proof.
  assert (Inj (=) (=) location_request) as Hl by (intros [] []; by intros [= -> ->]).
  assert (Inj (=) (=) equipment_request) as He.
  { intros [c u o w cs] [c' u' o' w' cs'] [= -> -> -> -> Hcs].
    assert (Inj (=) (=) (λ t, {| co_commodity_type := t; co_cargo_gross_weight := None |})) as Hi
      by by intros ? ? [= ->].
    apply (inj (fmap _)) in Hcs. by subst. }
  destruct b, b'. unfold booking_request. cbn. intros [= -> -> -> -> -> -> -> ?%(inj (fmap _)) ?%(inj (fmap _)) ->]. by subst.
Qed.

(** C34. A booking reaches the carrier exactly: for a valid booking command the mapper makes of
    the planned step's input the request that stands for its parameters, the request is valid,
    what the carrier reads from its wire form is that request, and different parameters have
    different wire forms. *)
Theorem booking_reaches_carrier c b :
  validate_command c = Ok () → tc_parameters c = PBooking b →
  map_ir_to_booking (step_input c) = Ok (booking_request b) ∧ validate_request (booking_request b) = Ok () ∧
  read_booking (to_dcsa (booking_request b)) = Some (booking_request b) ∧
  ∀ b', to_dcsa (booking_request b') = to_dcsa (booking_request b) → b' = b.
Proof.
  intros Hc Hp. assert (validate_booking b = Ok ()) as Hv.
  { unfold validate_command in Hc. rewrite raise_if_then in Hc. destruct Hc as [_ ([] & _ & Hc)%bind_ok].
    rewrite Hp in Hc. cbn [validate_parameters] in Hc. by apply bind_ok in Hc as ([] & Hc & _). }
  split_and!; [by apply map_planned_ok|by apply booking_request_valid|by apply wire_read|].
  intros b' Hw. assert (on_the_wire (booking_request b') = on_the_wire (booking_request b)) as Hr.
  { assert (Some (on_the_wire (booking_request b')) = Some (on_the_wire (booking_request b))) as Hs
      by by rewrite <-!strict_to_dcsa, Hw. congruence. }
  apply booking_request_inj. assert (∀ a, on_the_wire (booking_request a) = booking_request a) as Ho.
  { intros []. unfold on_the_wire. by destruct (is_none _). }
  by rewrite <-(Ho b'), <-(Ho b).
Qed.

End planned.

(** ** Examples *)

(** The strict reader with the model's validators. *)
Definition strict_reader : BookingReader.
Proof.
  refine {| read_booking v :=
    match strict_request v with
    | Some r => if is_ok (validate_request r) then Some r else None
    | None => None
    end |}.
  - intros v r. destruct (strict_request v) as [r'|]; [|done].
    destruct (validate_request r') as [[]|] eqn:E; [|done]. cbn. intros [= <-]. done.
  - intros v r Hs Hv. by rewrite Hs, Hv.
Defined.

Definition example_parameters : BookingParameters := {|
  bp_receipt_type_at_origin := CY; bp_delivery_type_at_destination := SD;
  bp_cargo_movement_type_at_origin := FCL; bp_cargo_movement_type_at_destination := FCL;
  bp_service_contract_reference := Some "SC-1"; bp_extended_contract_quotation_reference := None;
  bp_is_equipment_substitution_allowed := false;
  bp_shipment_locations := [
    {| bl_location_type_code := POL; bl_un_location_code := "DEHAM" |};
    {| bl_location_type_code := POD; bl_un_location_code := "SGSIN" |}];
  bp_requested_equipments := [{|
    be_iso_equipment_code := "22G1"; be_units := 2; be_is_shipper_owned := false;
    be_cargo_gross_weight := {| gw_value := py_float 12000; gw_unit := KGM |};
    be_commodities := ["Machine parts"] |}];
  bp_booking_agent := "Agent" |}.

Definition booking_command : TransactionCommand := {|
  tc_transaction_id := Some "tx-1"; tc_tenant_id := "t-1"; tc_transaction_type := BOOKING_CREATE;
  tc_external_reference := "PO-1"; tc_requested_at := {| dt_local := 0; dt_offset := Some 0 |};
  tc_subject := SBooking "synthetic.dcsa.booking"; tc_parameters := PBooking example_parameters;
  tc_requested_effects := [BOOKING_REQUEST_ACCEPTED; BOOKING_RECEIVED_VERIFIED];
  tc_minimum_independence_level := L3; tc_risk_class := CONSEQUENTIAL_WRITE;
  tc_required_capabilities := [BOOKING_DRAFT_PREPARE; BOOKING_SUBMIT]; tc_extensions := [] |}.

Example booking_command_valid : validate_command booking_command = Ok ().
Proof. vm_compute. reflexivity. Qed.

(** The mapper's other spellings, and a list that cannot be iterated. *)
Example mapped_spellings :
  map normalized_location [JObj [("un_location_code", JStr "DEHAM"); ("locationTypeCode", JStr "POL")]; JInt 1]
  = [JObj [("location", JObj [("un_location_code", JStr "DEHAM")]); ("location_type_code", JStr "POL")]; JInt 1] ∧
  normalized_equipment (JObj [("commodities", JNull)]) = Err (MapTypeError "object is not iterable") ∧
  raw_locations [("pol", JInt 1)] [("port_of_discharge", JInt 2)]
  = JList [JObj [("location", JInt 1); ("location_type_code", JStr "POL")];
           JObj [("location", JInt 2); ("location_type_code", JStr "POD")]].
Proof. split_and!; vm_compute; reflexivity. Qed.

Lemma booking_reaches_carrier_witness :
  @map_ir_to_booking strict_reader (@step_input canonical_datetime booking_command) = Ok (booking_request example_parameters).
Proof.
  exact (proj1 (@booking_reaches_carrier strict_reader canonical_datetime booking_command example_parameters
    booking_command_valid eq_refl)).
Defined.
