(* ===== verification/SyntheticCarrier.v ===== *)
(** * The synthetic carrier (booking/synthetic_carrier.py)

    The SQLite store of synthetic bookings, the carrier's HTTP endpoints over it with their
    fault modes, and the read-only ledger over the same rows.  A row keeps the decoded record;
    rows written by someone else are not modelled.  [create] and [cancel] write after their
    last statement that may raise, so a transaction left open holds no writes.  A request is
    what reaches an endpoint after FastAPI's routing; the size of a JSON response is that of
    its compact text. *)

From Stdlib Require Import Ascii.
From S2P Require Import Prelude.
From S2P Require Import Contracts.
From S2P Require Import Documents.
From S2P Require Import Mapping.
From S2P Require Import Sqlite.
From S2P Require Import Booking.

(** ** Records *)

Inductive BookingStatus := RECEIVED | CANCELLED.
#[export] Instance BookingStatus_eq_dec : EqDecision BookingStatus.
Proof. solve_decision. Defined.
Definition BookingStatus_value (s : BookingStatus) : string :=
  match s with RECEIVED => "RECEIVED" | CANCELLED => "CANCELLED" end.

Record SyntheticBookingRecord := {
  sb_carrier_booking_request_reference : string;
  sb_external_reference : string;
  sb_request_digest : string;
  sb_request_payload : json;
  sb_booking_status : BookingStatus;
  sb_created_at : Z;
  sb_updated_at : Z;
  sb_record_digest : string }.

(** [^CBRR-[A-Za-z0-9_-]{16,96}$] within 128 characters. *)
Definition reference_char (c : ascii) : bool := is_lower c || is_upper c || is_digit c || is_dash c.
Definition BookingReference_ok (s : string) : bool :=
  bool_decide (String.substring 0 5 s = "CBRR-") && between 21 (len s) 101
  && forall_chars reference_char (String.substring 5 96 s).

Definition is_object (v : json) : bool := match v with JObj _ => true | _ => false end.

(** [model_dump(exclude={"record_digest"})]. *)
Definition record_json (r : SyntheticBookingRecord) : json := JObj [
  ("schema_version", JStr "cargomesh.synthetic-booking/v1");
  ("carrier_booking_request_reference", JStr (sb_carrier_booking_request_reference r));
  ("external_reference", JStr (sb_external_reference r)); ("request_digest", JStr (sb_request_digest r));
  ("request_payload", sb_request_payload r);
  ("booking_status", JStr (BookingStatus_value (sb_booking_status r))); ("synthetic", JBool true);
  ("created_at", JStr (isoformat (sb_created_at r))); ("updated_at", JStr (isoformat (sb_updated_at r)))].

Section records.
Context `{Sha256, FloatRepr}.

(** The fields and [validate_record]. *)
Definition validate_booking_record (r : SyntheticBookingRecord) : result string () :=
  raise_if (negb (BookingReference_ok (sb_carrier_booking_request_reference r)
                  && text_ok 1 256 (sb_external_reference r) && Digest_ok (sb_request_digest r)
                  && is_object (sb_request_payload r) && Digest_ok (sb_record_digest r))) "field constraint";;
  raise_if (sb_updated_at r <? sb_created_at r) "booking update cannot precede creation";;
  raise_if (negb (bool_decide (sb_request_digest r = value_digest (sb_request_payload r))))
    "booking request digest does not match payload";;
  raise_if (negb (bool_decide (sb_record_digest r = value_digest (record_json r))))
    "booking record digest does not match".

(** [SyntheticBookingRecord.issue]. *)
Definition issue_booking (reference external_reference : string) (payload : json) (status : BookingStatus)
    (created_at updated_at : Z) : result string SyntheticBookingRecord :=
  raise_if (negb (is_object payload)) "synthetic booking request is invalid";;
  let unsigned digest := {|
    sb_carrier_booking_request_reference := reference; sb_external_reference := external_reference;
    sb_request_digest := value_digest payload; sb_request_payload := payload; sb_booking_status := status;
    sb_created_at := created_at; sb_updated_at := updated_at; sb_record_digest := digest |} in
  let record := unsigned (value_digest (record_json (unsigned EmptyString))) in
  validate_booking_record record;; Ok record.

End records.

(** ** The store *)

Inductive CarrierError :=
| SyntheticCarrierError (code message : string) (status_code : Z)
| RecordInvalid (message : string).

#[export] Instance CarrierError_eq_dec : EqDecision CarrierError.
Proof. solve_decision. Defined.

(** The exceptions the handlers of a [try] block roll back. *)
Definition carrier_handled (e : CarrierError) : bool :=
  match e with SyntheticCarrierError _ _ _ => true | RecordInvalid _ => false end.

Definition carrier_closed : CarrierError :=
  SyntheticCarrierError "synthetic_carrier_closed" "Synthetic carrier is unavailable" 503.
Definition carrier_unavailable : CarrierError :=
  SyntheticCarrierError "synthetic_carrier_unavailable" "Synthetic carrier is unavailable" 503.
Definition booking_conflict : CarrierError :=
  SyntheticCarrierError "booking_idempotency_conflict" "Booking request conflicts" 409.

Notation Bookings := (list SyntheticBookingRecord).
Notation CarrierStore := (Connection Bookings).

Definition by_external (reference : string) (rows : Bookings) : option SyntheticBookingRecord :=
  List.find (λ r, bool_decide (sb_external_reference r = reference)) rows.
Definition by_carrier (reference : string) (rows : Bookings) : option SyntheticBookingRecord :=
  List.find (λ r, bool_decide (sb_carrier_booking_request_reference r = reference)) rows.

(** [_external_reference]; the second check covers the [strip] before it. *)
Definition external_reference_ok (value : string) : bool :=
  negb (bool_decide (value = EmptyString)) && (len value <=? 256) && forall_chars (λ c, negb (py_space c)) value.
Definition check_external_reference (value : string) : result CarrierError () :=
  raise_if (negb (external_reference_ok value))
    (SyntheticCarrierError "synthetic_idempotency_key_invalid" "Idempotency-Key is invalid" 400).

Section store.
Context `{Sha256, FloatRepr}.

(** [create], with the reference [_new_booking_reference] draws; a taken one fails the
    primary key. *)
Definition create_body (payload : json) (reference drawn : string) (now : Z) (rows : Bookings)
    : result CarrierError (Bookings * (SyntheticBookingRecord * bool)) :=
  match by_external reference rows with
  | Some current =>
      raise_if (negb (bool_decide (sb_request_digest current = value_digest payload))) booking_conflict;;
      Ok (rows, (current, false))
  | None =>
      record ← escaping RecordInvalid (issue_booking drawn reference payload RECEIVED now now);
      raise_if (negb (is_none (by_carrier drawn rows))) carrier_unavailable;;
      Ok (rows ++ [record], (record, true))
  end.
Definition create (request : BookingCreateRequest) (external_reference drawn : string) (now : Z)
    : CarrierStore → CarrierStore * result CarrierError (SyntheticBookingRecord * bool) :=
  operation carrier_handled carrier_closed carrier_unavailable (check_external_reference external_reference)
    (create_body (to_dcsa request) external_reference drawn now).

(** [get] and [ledger_by_external_reference]: one statement outside any transaction. *)
Definition get_booking_record (reference : string) (c : CarrierStore)
    : result CarrierError (option SyntheticBookingRecord) :=
  ensure_open carrier_closed c;; Ok (by_carrier reference (cn_data c)).
Definition ledger_by_external_reference (reference : string) (c : CarrierStore)
    : result CarrierError (option SyntheticBookingRecord) :=
  ensure_open carrier_closed c;; check_external_reference reference;; Ok (by_external reference (cn_data c)).

(** [UPDATE ... WHERE carrier_booking_request_reference=?]. *)
Definition replace_booking (record : SyntheticBookingRecord) (rows : Bookings) : Bookings :=
  map (λ r, if bool_decide (sb_carrier_booking_request_reference r = sb_carrier_booking_request_reference record)
            then record else r) rows.

(** [cancel]. *)
Definition cancel_body (reference : string) (now : Z) (rows : Bookings)
    : result CarrierError (Bookings * option SyntheticBookingRecord) :=
  match by_carrier reference rows with
  | None => Ok (rows, None)
  | Some current =>
      if bool_decide (sb_booking_status current = CANCELLED) then Ok (rows, Some current)
      else
        record ← escaping RecordInvalid
          (issue_booking (sb_carrier_booking_request_reference current) (sb_external_reference current)
             (sb_request_payload current) CANCELLED (sb_created_at current) now);
        Ok (replace_booking record rows, Some record)
  end.
Definition cancel (reference : string) (now : Z)
    : CarrierStore → CarrierStore * result CarrierError (option SyntheticBookingRecord) :=
  operation carrier_handled carrier_closed carrier_unavailable (Ok ()) (cancel_body reference now).

End store.

(** ** HTTP *)

(** A body: its size in bytes and what [json.loads] makes of it. *)
Record HttpResponse := {
  rs_status : Z;
  rs_is_json : bool;
  rs_size : Z;
  rs_json : option json }.

Definition json_response `{FloatRepr} (status : Z) (body : json) : HttpResponse :=
  {| rs_status := status; rs_is_json := true; rs_size := utf8_len (json_dumps body); rs_json := Some body |}.
Definition empty_response (status : Z) : HttpResponse :=
  {| rs_status := status; rs_is_json := false; rs_size := 0; rs_json := None |}.

(** [_error_response]; an exception no handler is registered for is the server's plain 500. *)
Definition error_response `{FloatRepr} (e : CarrierError) : HttpResponse :=
  match e with
  | SyntheticCarrierError code message status =>
      json_response status (JObj [("error", JObj [("code", JStr code); ("message", JStr message)])])
  | RecordInvalid _ =>
      {| rs_status := 500; rs_is_json := false; rs_size := len "Internal Server Error"; rs_json := None |}
  end.
(** FastAPI's answer to a body it cannot read into the model. *)
Definition unprocessable `{FloatRepr} : HttpResponse := json_response 422 (JObj [("detail", JList [])]).

Definition FAULTS : list string :=
  ["normal"; "reject-before-effect"; "effect-then-lose-response"; "ledger-missing"; "ledger-conflict";
   "cancellation-failure"].

(** [_fault_mode]. *)
Definition fault_mode (value : option string) : result CarrierError string :=
  let mode := match value with None => "normal" | Some v => lower (py_strip (String.list_ascii_of_string v)) end in
  raise_if (negb (mem mode FAULTS))
    (SyntheticCarrierError "synthetic_fault_invalid" "Synthetic fault mode is invalid" 400);;
  Ok mode.

(** [_carrier_view] and [_ledger_view]. *)
Definition carrier_view (r : SyntheticBookingRecord) : json := JObj [
  ("carrierBookingRequestReference", JStr (sb_carrier_booking_request_reference r));
  ("bookingStatus", JStr (BookingStatus_value (sb_booking_status r)))].
Definition ledger_view (r : SyntheticBookingRecord) (status : string) : json := JObj [
  ("carrierBookingRequestReference", JStr (sb_carrier_booking_request_reference r));
  ("bookingStatus", JStr status); ("externalReference", JStr (sb_external_reference r));
  ("recordDigest", JStr (sb_record_digest r)); ("synthetic", JBool true)].

(** [BookingCancellationRequest.model_validate]. *)
Definition cancellation_ok (body : json) : bool :=
  match body with
  | JObj [(key, JStr status)] => mem key ["bookingStatus"; "booking_status"] && bool_decide (status = "CANCELLED")
  | _ => false
  end.

(** What reaches an endpoint, with the fault header, the clock and the reference drawn. *)
Inductive CarrierRequest :=
| PostBooking (body : json) (idempotency_key : option string) (fault : option string)
| GetBooking (reference : string) (fault : option string)
| PatchBooking (reference : string) (body : json) (fault : option string)
| GetLedger (external_reference : string) (fault : option string).
Record Moment := { mo_now : Z; mo_drawn : string }.

Section endpoints.
Context `{Sha256, FloatRepr, BookingReader}.

Definition respond (r : result CarrierError HttpResponse) : HttpResponse :=
  match r with Ok response => response | Err e => error_response e end.

Definition create_booking (body : json) (idempotency_key fault : option string) (m : Moment) (c : CarrierStore)
    : CarrierStore * HttpResponse :=
  match read_booking body with
  | None => (c, unprocessable)
  | Some booking =>
      match fault_mode fault with
      | Err e => (c, error_response e)
      | Ok mode =>
          match idempotency_key with
          | None => (c, error_response (SyntheticCarrierError "synthetic_idempotency_key_required"
                                          "Idempotency-Key is required" 400))
          | Some key =>
              if bool_decide (mode = "reject-before-effect") then
                (c, error_response (SyntheticCarrierError "synthetic_rejected" "Synthetic carrier rejected booking" 422))
              else
                match create booking key (mo_drawn m) (mo_now m) c with
                | (c', Err e) => (c', error_response e)
                | (c', Ok (record, _)) =>
                    (c', if bool_decide (mode = "effect-then-lose-response") then
                           error_response (SyntheticCarrierError "synthetic_response_lost"
                                             "Synthetic carrier response was lost" 503)
                         else json_response 202 (JObj [("carrierBookingRequestReference",
                                JStr (sb_carrier_booking_request_reference record))]))
                end
          end
      end
  end.

Definition booking_not_found : CarrierError :=
  SyntheticCarrierError "synthetic_booking_not_found" "Synthetic booking was not found" 404.
Definition ledger_not_found : CarrierError :=
  SyntheticCarrierError "synthetic_ledger_not_found" "Synthetic ledger record was not found" 404.

Definition get_booking (reference : string) (fault : option string) (c : CarrierStore) : HttpResponse :=
  respond (fault_mode fault;;
           record ← get_booking_record reference c;
           match record with
           | None => Err booking_not_found
           | Some r => Ok (json_response 200 (carrier_view r))
           end).

Definition cancel_booking (reference : string) (body : json) (fault : option string) (m : Moment) (c : CarrierStore)
    : CarrierStore * HttpResponse :=
  if negb (cancellation_ok body) then (c, unprocessable)
  else
    match fault_mode fault with
    | Err e => (c, error_response e)
    | Ok mode =>
        if bool_decide (mode = "cancellation-failure") then
          (c, error_response (SyntheticCarrierError "synthetic_cancellation_failed" "Synthetic cancellation failed" 503))
        else
          match cancel reference (mo_now m) c with
          | (c', Err e) => (c', error_response e)
          | (c', Ok None) => (c', error_response booking_not_found)
          | (c', Ok (Some _)) => (c', empty_response 202)
          end
    end.

Definition booking_by_external_reference (reference : string) (fault : option string) (c : CarrierStore) : HttpResponse :=
  respond (mode ← fault_mode fault;
           raise_if (bool_decide (mode = "ledger-missing")) ledger_not_found;;
           record ← ledger_by_external_reference reference c;
           match record with
           | None => Err ledger_not_found
           | Some r => Ok (json_response 200 (ledger_view r
               (if bool_decide (mode = "ledger-conflict") then "CONFLICT"
                else BookingStatus_value (sb_booking_status r))))
           end).

(** Both applications over one store. *)
Definition serve_carrier (request : CarrierRequest) (m : Moment) (c : CarrierStore) : CarrierStore * HttpResponse :=
  match request with
  | PostBooking body key fault => create_booking body key fault m c
  | GetBooking reference fault => (c, get_booking reference fault c)
  | PatchBooking reference body fault => cancel_booking reference body fault m c
  | GetLedger reference fault => (c, booking_by_external_reference reference fault c)
  end.

End endpoints.

(** ** Lemmas: the rows *)

(** A booking is only ever cancelled, once. *)
Definition booking_le (r r' : SyntheticBookingRecord) : Prop :=
  r' = r ∨ sb_booking_status r = RECEIVED ∧ sb_booking_status r' = CANCELLED ∧
    sb_carrier_booking_request_reference r' = sb_carrier_booking_request_reference r ∧
    sb_external_reference r' = sb_external_reference r ∧ sb_request_digest r' = sb_request_digest r ∧
    sb_request_payload r' = sb_request_payload r ∧ sb_created_at r' = sb_created_at r.

#[export] Instance booking_le_preorder : PreOrder booking_le.
Proof.
  split; [by left|]. intros r1 r2 r3 [->|H12]; [done|]. intros [->|H23]; [by right|].
  destruct H12 as (_ & H2 & _), H23 as (H2' & _). congruence.
Qed.

Lemma booking_le_external r r' : booking_le r r' → sb_external_reference r' = sb_external_reference r.
Proof. intros [->|H]; [done|tauto]. Qed.
Lemma booking_le_carrier r r' :
  booking_le r r' → sb_carrier_booking_request_reference r' = sb_carrier_booking_request_reference r.
Proof. intros [->|H]; [done|tauto]. Qed.
Lemma booking_le_digest r r' : booking_le r r' → sb_request_digest r' = sb_request_digest r.
Proof. intros [->|H]; [done|tauto]. Qed.

Lemma find_key_Some {K} `{EqDecision K} (f : SyntheticBookingRecord → K) key rows r :
  List.find (λ r, bool_decide (f r = key)) rows = Some r → r ∈ rows ∧ f r = key.
Proof. intros [Hin Hk]%find_some. split; [by apply list_elem_of_In|by boolify]. Qed.

Lemma find_key_None {K} `{EqDecision K} (f : SyntheticBookingRecord → K) key rows :
  List.find (λ r, bool_decide (f r = key)) rows = None ↔ key ∉ map f rows.
Proof.
  split.
  - intros Hf (r & Hk & Hr%list_elem_of_In)%list_elem_of_fmap. apply (find_none _ _ Hf) in Hr. by boolify.
  - intros Hn. destruct (List.find _ rows) as [r|] eqn:E; [|done]. apply find_key_Some in E as [Hr Hk].
    destruct Hn. apply list_elem_of_fmap. by exists r.
Qed.

Lemma find_key_unique {K} `{EqDecision K} (f : SyntheticBookingRecord → K) key rows r :
  NoDup (map f rows) → r ∈ rows → f r = key → List.find (λ r, bool_decide (f r = key)) rows = Some r.
Proof.
  intros Hn Hr Hk. destruct (List.find _ rows) as [r'|] eqn:E.
  - apply find_key_Some in E as [Hr' Hk']. f_equal. revert Hn Hr Hr'. induction rows as [|x rows IH]; [by intros _ ?%elem_of_nil|].
    cbn. intros [Hx Hn]%NoDup_cons. intros [->|Hr]%elem_of_cons [->|Hr']%elem_of_cons; [done| | |by apply IH].
    + destruct Hx. apply list_elem_of_fmap. exists r'. split; [congruence|done].
    + destruct Hx. apply list_elem_of_fmap. exists r. split; [congruence|done].
  - apply find_key_None in E. destruct E. apply list_elem_of_fmap. by exists r.
Qed.

(** The booking of a key is the only one. *)
Lemma find_key_only {K} `{EqDecision K} (f : SyntheticBookingRecord → K) key rows r :
  NoDup (map f rows) → List.find (λ r, bool_decide (f r = key)) rows = Some r → filter (λ r, f r = key) rows = [r].
Proof.
  induction rows as [|x rows IH]; [done|]. cbn [map List.find]. intros [Hx Hn]%NoDup_cons.
  destruct (bool_decide (f x = key)) eqn:E; boolify.
  - intros [= <-]. rewrite filter_cons_True by done. f_equal. apply elem_of_nil_inv.
    intros y [Hy Hin]%list_elem_of_filter. apply Hx, list_elem_of_fmap. exists y. split; [congruence|done].
  - intros Hr. rewrite filter_cons_False by done. by apply IH.
Qed.

Lemma substring_whole n s : (String.length s ≤ n)%nat → String.substring 0 n s = s.
Proof. revert n. induction s as [|c s IH]; intros [|n] Hn; cbn in *; [done|done|lia|]. rewrite IH by lia. done. Qed.

Lemma reference_plain s : BookingReference_ok s = true → strip s = s.
Proof.
  unfold BookingReference_ok. rewrite !andb_true_iff. intros ((Hp & Hl) & Hc). boolify. apply strip_plain.
  do 5 (destruct s as [|? s]; [done|]). cbn in Hp. injection Hp as -> -> -> -> ->.
  cbn in Hc. cbn. assert (String.substring 0 96 s = s) as E.
  { unfold between, len in Hl. boolify. apply substring_whole. cbn in *. lia. }
  rewrite E in Hc. revert Hc. apply forall_chars_impl. intros c.
  unfold reference_char, is_lower, is_upper, is_digit, is_dash, is_space. intros Hc.
  apply negb_true_iff, not_true_iff_false. intros Hs.
  rewrite ?orb_true_iff, ?andb_true_iff, ?Z.leb_le, ?Z.eqb_eq in *. lia.
Qed.

Section rows.
Context `{Sha256, FloatRepr}.

(** Both references are unique and every record is valid. *)
Record bookings_ok (rows : Bookings) : Prop := {
  bo_external : NoDup (map sb_external_reference rows);
  bo_carrier : NoDup (map sb_carrier_booking_request_reference rows);
  bo_valid r : r ∈ rows → validate_booking_record r = Ok () }.

(** What a call does to the rows. *)
Inductive rows_change (rows : Bookings) : Bookings → Prop :=
| rows_same : rows_change rows rows
| rows_new r : validate_booking_record r = Ok () → by_external (sb_external_reference r) rows = None →
    by_carrier (sb_carrier_booking_request_reference r) rows = None → rows_change rows (rows ++ [r])
| rows_cancelled current r : current ∈ rows → validate_booking_record r = Ok () → booking_le current r →
    rows_change rows (replace_booking r rows).

Lemma issue_booking_ok reference external payload status created updated r :
  issue_booking reference external payload status created updated = Ok r →
  validate_booking_record r = Ok () ∧ sb_carrier_booking_request_reference r = reference ∧
  sb_external_reference r = external ∧ sb_request_payload r = payload ∧ sb_request_digest r = value_digest payload ∧
  sb_booking_status r = status ∧ sb_created_at r = created ∧ sb_updated_at r = updated.
Proof. unfold issue_booking. intros [_ ([] & Hv & <-%Ok_inj)%bind_ok]%raise_if_then. done. Qed.

Lemma replace_keys {K} (f : SyntheticBookingRecord → K) r rows :
  (∀ x, x ∈ rows → sb_carrier_booking_request_reference x = sb_carrier_booking_request_reference r → f x = f r) →
  map f (replace_booking r rows) = map f rows.
Proof.
  intros Hf. unfold replace_booking. rewrite map_map. apply map_ext_in. intros x Hx%list_elem_of_In.
  case_bool_decide as E; [|done]. symmetry. by apply Hf.
Qed.

(** The cancelled booking is the only one under its reference. *)
Lemma cancelled_only rows current r x :
  bookings_ok rows → current ∈ rows → booking_le current r → x ∈ rows →
  sb_carrier_booking_request_reference x = sb_carrier_booking_request_reference r → x = current.
Proof.
  intros Hok Hc Hle Hx Hk. pose proof (booking_le_carrier _ _ Hle) as Hr.
  pose proof (find_key_unique sb_carrier_booking_request_reference _ _ _ (bo_carrier _ Hok) Hx eq_refl) as E1.
  pose proof (find_key_unique sb_carrier_booking_request_reference (sb_carrier_booking_request_reference x) _ _
    (bo_carrier _ Hok) Hc) as E2. rewrite E1 in E2. assert (Some x = Some current) as [= ->] by (apply E2; congruence). done.
Qed.

Lemma rows_change_ok rows rows' : bookings_ok rows → rows_change rows rows' → bookings_ok rows'.
Proof.
  intros Hok Hch. destruct Hch as [|r Hv He Hc|current r Hin Hv Hle]; [done| |].
  - apply (find_key_None sb_external_reference) in He. apply (find_key_None sb_carrier_booking_request_reference) in Hc.
    destruct Hok as [H1 H2 H3]. split.
    + rewrite map_app. apply NoDup_app. split_and!; [done| |apply NoDup_singleton].
      intros k Hk ->%list_elem_of_singleton. done.
    + rewrite map_app. apply NoDup_app. split_and!; [done| |apply NoDup_singleton].
      intros k Hk ->%list_elem_of_singleton. done.
    + intros x [Hx|Hx%list_elem_of_singleton]%elem_of_app; [by apply H3|by subst].
  - split.
    + rewrite replace_keys; [apply Hok|]. intros x Hx Hk. rewrite (cancelled_only _ _ _ _ Hok Hin Hle Hx Hk).
      symmetry. by apply booking_le_external.
    + rewrite replace_keys; [apply Hok|done].
    + intros x (y & -> & Hy)%list_elem_of_fmap. case_bool_decide; [done|]. by apply Hok.
Qed.

Lemma rows_change_entry rows rows' key r :
  bookings_ok rows → rows_change rows rows' → by_external key rows = Some r →
  ∃ r', by_external key rows' = Some r' ∧ booking_le r r'.
Proof.
  intros Hok Hch Hr. pose proof (rows_change_ok _ _ Hok Hch) as Hok'.
  apply find_key_Some in Hr as [Hr Hk]. destruct Hch as [|x _ _ _|current x Hin _ Hle].
  - exists r. split; [|done]. by apply (find_key_unique sb_external_reference); [apply Hok|..].
  - exists r. split; [|done]. apply (find_key_unique sb_external_reference); [apply Hok'| |done]. apply elem_of_app. by left.
  - exists (if bool_decide (sb_carrier_booking_request_reference r = sb_carrier_booking_request_reference x) then x else r).
    assert (booking_le r (if bool_decide (sb_carrier_booking_request_reference r = sb_carrier_booking_request_reference x)
      then x else r)) as Hrx.
    { case_bool_decide as E; [|done]. by rewrite (cancelled_only _ _ _ _ Hok Hin Hle Hr E). }
    split; [|done]. apply (find_key_unique sb_external_reference); [apply Hok'| |].
    + unfold replace_booking. apply list_elem_of_fmap. by exists r.
    + rewrite <-Hk. by apply booking_le_external.
Qed.

Lemma create_body_change payload reference drawn now rows rows' a :
  create_body payload reference drawn now rows = Ok (rows', a) →
  rows_change rows rows' ∧ by_external reference rows' = Some a.1 ∧ sb_request_digest a.1 = value_digest payload.
Proof.
  unfold create_body. destruct (by_external reference rows) as [current|] eqn:E.
  - intros [Hd%negb_false_iff [= <- <-]]%raise_if_then. boolify. split_and!; [constructor|done|done].
  - intros (r & Hr%escaping_ok & [Hc%negb_false_iff [= <- <-]]%raise_if_then)%bind_ok.
    apply issue_booking_ok in Hr as (Hv & Hcr & Hex & _ & Hd & _).
    assert (by_carrier drawn rows = None) as Hn by by destruct (by_carrier _ _). split_and!.
    + apply rows_new; [done|by rewrite Hex|by rewrite Hcr].
    + unfold by_external in *. cbn. apply (find_key_None sb_external_reference) in E.
      clear -E Hex. induction rows as [|x rows IH]; cbn.
      * by rewrite bool_decide_true.
      * cbn in E. rewrite bool_decide_false by (intros Hx; apply E; rewrite Hx; left).
        apply IH. intros Hin. apply E. by right.
    + done.
Qed.

Lemma valid_request_digest r : validate_booking_record r = Ok () → sb_request_digest r = value_digest (sb_request_payload r).
Proof. unfold validate_booking_record. rewrite !raise_if_then. intros (_ & _ & Hd & _). by boolify. Qed.

Lemma cancel_body_change reference now rows rows' a :
  bookings_ok rows → cancel_body reference now rows = Ok (rows', a) → rows_change rows rows'.
Proof.
  intros Hok. unfold cancel_body. destruct (by_carrier reference rows) as [current|] eqn:E; [|intros [= <- _]; constructor].
  apply find_key_Some in E as [Hin Hk]. destruct (bool_decide _) eqn:Es; [intros [= <- _]; constructor|].
  boolify. intros (r & Hr%escaping_ok & [= <- _])%bind_ok. apply issue_booking_ok in Hr as (Hv & Hcr & Hex & Hp & Hd & Hs & Ht & _).
  apply (rows_cancelled _ current); [done|done|]. right. split_and!; try done; [by destruct (sb_booking_status current)|].
  rewrite Hd. symmetry. by apply valid_request_digest, Hok.
Qed.

End rows.

(** ** Lemmas: the endpoints *)

Section served.
Context `{Sha256, FloatRepr, BookingReader}.

Lemma operation_rows {A} checks (body : Bookings → result CarrierError (Bookings * A)) (c c' : CarrierStore) x :
  (∀ rows' a, body (cn_data c) = Ok (rows', a) → rows_change (cn_data c) rows') →
  operation carrier_handled carrier_closed carrier_unavailable checks body c = (c', x) →
  rows_change (cn_data c) (cn_data c').
Proof.
  intros Hb [(-> & _)|(data & a & _ & _ & Hd & -> & _)]%operation_cases; [constructor|]. by eapply Hb.
Qed.

(** A request, by anyone, at any time, with any reference drawn. *)
Definition carrier_step (c c' : CarrierStore) : Prop := ∃ q m, c' = (serve_carrier q m c).1.

Lemma carrier_step_rows c c' : bookings_ok (cn_data c) → carrier_step c c' → rows_change (cn_data c) (cn_data c').
Proof.
  intros Hok (q & m & ->). destruct q as [body key fault|reference fault|reference body fault|reference fault]; cbn;
    [|constructor| |constructor].
  - unfold create_booking. destruct (read_booking body) as [booking|]; [|constructor].
    destruct (fault_mode fault) as [mode|]; [|constructor]. destruct key as [key|]; [|constructor].
    destruct (bool_decide _); [constructor|].
    destruct (create _ _ _ _ _) as [c1 x] eqn:E. apply operation_rows in E; [by destruct x as [[]|]|].
    intros rows' a Hb. by apply create_body_change in Hb as (? & _).
  - unfold cancel_booking. destruct (negb _); [constructor|]. destruct (fault_mode fault) as [mode|]; [|constructor].
    destruct (bool_decide _); [constructor|].
    destruct (cancel _ _ _) as [c1 x] eqn:E. apply operation_rows in E; [by destruct x as [[]|]|].
    intros rows' a Hb. by apply cancel_body_change in Hb.
Qed.

(** Whatever is asked, references stay unique, and a booking keeps its reference, its request
    and its creation. *)
Lemma carrier_run c c' key r :
  bookings_ok (cn_data c) → star carrier_step c c' → by_external key (cn_data c) = Some r →
  bookings_ok (cn_data c') ∧ ∃ r', by_external key (cn_data c') = Some r' ∧ booking_le r r'.
Proof.
  apply (star_entries carrier_step (λ c, bookings_ok (cn_data c)) (λ c k, by_external k (cn_data c)) booking_le).
  - intros s s' Hok Hs. eapply rows_change_ok; [exact Hok|by apply carrier_step_rows].
  - intros s s' k x Hok Hs. eapply rows_change_entry; [exact Hok|by apply carrier_step_rows].
Qed.

Lemma carrier_run_ok c c' : bookings_ok (cn_data c) → star carrier_step c c' → bookings_ok (cn_data c').
Proof.
  intros Hok. apply (star_invariant carrier_step (λ c, bookings_ok (cn_data c))); [|done].
  intros x y Hx Hs. eapply rows_change_ok; [exact Hx|by apply carrier_step_rows].
Qed.

(** No error of [create] answers 202. *)
Lemma create_error request key drawn now c c' e :
  create request key drawn now c = (c', Err e) → rs_status (error_response e) ≠ 202.
Proof.
  unfold create, operation, ensure_open, check_external_reference, session, create_body, escaping.
  generalize (issue_booking drawn key (to_dcsa request) RECEIVED now now). intros issued.
  destruct (cn_closed c); [by intros [= _ <-]|]. destruct (negb (external_reference_ok key)); [by intros [= _ <-]|]. cbn.
  destruct (cn_in_transaction c); [by intros [= _ <-]|].
  destruct (by_external key (cn_data c)) as [current|].
  - destruct (negb _); cbn; [by intros [= _ <-]|done].
  - destruct issued; cbn; [|by intros [= _ <-]].
    destruct (negb (is_none _)); cbn; [by intros [= _ <-]|done].
Qed.

(** A 202 of the create endpoint names the booking stored for the key. *)
Lemma created_booking body key fault m c c' response :
  create_booking body key fault m c = (c', response) → rs_status response = 202 →
  ∃ reference request r, key = Some reference ∧ read_booking body = Some request ∧
    by_external reference (cn_data c') = Some r ∧ sb_request_digest r = value_digest (to_dcsa request) ∧
    response = json_response 202 (JObj [("carrierBookingRequestReference",
                 JStr (sb_carrier_booking_request_reference r))]).
Proof.
  unfold create_booking. destruct (read_booking body) as [request|]; [|by intros [= _ <-]].
  destruct (fault_mode fault) as [mode|e] eqn:Ef.
  2:{ intros [= _ <-]. revert Ef. unfold fault_mode. cbv zeta. destruct (negb _); [by intros [= <-]|done]. }
  destruct key as [key|]; [|by intros [= _ <-]]. destruct (bool_decide (mode = _)); [by intros [= _ <-]|].
  destruct (create request key (mo_drawn m) (mo_now m) c) as [c1 [[r created]|e]] eqn:E.
  - destruct (bool_decide (mode = _)); [by intros [= _ <-]|]. intros [= <- <-] _.
    apply operation_ok in E as (_ & _ & _ & rows & Hb & ->). apply create_body_change in Hb as (_ & Hx & Hd).
    exists key, request, r. done.
  - intros [= _ <-] He. by apply create_error in E.
Qed.

End served.

(** ** Where the code falls short *)

(** A cancellation whose clock is before the booking's creation raises an error no handler
    names: the transaction stays open, and the next booking anyone asks for is refused. *)
Lemma early_cancel_blocks `{Sha256, FloatRepr} reference now r (c : CarrierStore) :
  by_carrier reference (cn_data c) = Some r → sb_booking_status r = RECEIVED → now < sb_created_at r →
  cn_closed c = false → cn_in_transaction c = false →
  ∃ message, cancel reference now c = (with_transaction c true, Err (RecordInvalid message)) ∧
    ∀ request key drawn now', external_reference_ok key = true →
      create request key drawn now' (with_transaction c true)
      = (with_transaction c false, Err carrier_unavailable).
Proof.
  intros Hr Hs Hnow Ho Ht.
  assert (∃ message, cancel_body reference now (cn_data c) = Err (RecordInvalid message)) as [message Hb].
  { unfold cancel_body. rewrite Hr, bool_decide_false by congruence.
    destruct (issue_booking _ _ _ _ _ _) as [x|message] eqn:E; [|by exists message].
    apply issue_booking_ok in E as (Hv & _ & _ & _ & _ & _ & Hc & Hu). unfold validate_booking_record in Hv.
    rewrite !raise_if_then in Hv. destruct Hv as (_ & Hlt & _). boolify. lia. }
  exists message. split.
  - unfold cancel. by rewrite operation_run, Hb by done.
  - intros request key drawn now' Hk. unfold create, operation, ensure_open, check_external_reference. rewrite Hk. cbn.
    by rewrite Ho.
Qed.

(** ** Examples *)

#[local] Existing Instances example_sha256 example_float_repr strict_reader.

Definition drawn_reference (last : string) : string := "CBRR-AAAAAAAAAAAAAAAA" +:+ last.
Definition example_moment (now : Z) : Moment := {| mo_now := now; mo_drawn := drawn_reference "1" |}.
Definition example_body : json := to_dcsa (booking_request example_parameters).
Definition post (fault : option string) (c : CarrierStore) : CarrierStore * HttpResponse :=
  serve_carrier (PostBooking example_body (Some "PO-1") fault) (example_moment 10) c.
Definition booked : CarrierStore := (post None (connect [])).1.

Example carrier_answers :
  rs_status (post None (connect [])).2 = 202 ∧ (post None booked).1 = booked ∧
  (post None booked).2 = (post None (connect [])).2 ∧
  rs_status (post (Some " Reject-Before-Effect ") (connect [])).2 = 422 ∧
  (post (Some "effect-then-lose-response") (connect [])).1 = booked ∧
  rs_status (post (Some "effect-then-lose-response") (connect [])).2 = 503 ∧
  rs_status (post (Some "late") (connect [])).2 = 400 ∧
  rs_status (serve_carrier (PostBooking (JObj []) (Some "PO-1") None) (example_moment 10) (connect [])).2 = 422 ∧
  rs_status (serve_carrier (PostBooking example_body (Some "PO 1") None) (example_moment 10) (connect [])).2 = 400.
Proof. split_and!; vm_compute; reflexivity. Qed.

Example cancelled_once :
  let patch := PatchBooking (drawn_reference "1") (JObj [("bookingStatus", JStr "CANCELLED")]) None in
  let c := (serve_carrier patch (example_moment 20) booked).1 in
  map sb_booking_status (cn_data c) = [CANCELLED] ∧ (serve_carrier patch (example_moment 30) c).1 = c ∧
  rs_json (serve_carrier (GetLedger "PO-1" None) (example_moment 30) c).2
  = Some (ledger_view (nth 0 (cn_data c) {| sb_carrier_booking_request_reference := EmptyString;
      sb_external_reference := EmptyString; sb_request_digest := EmptyString; sb_request_payload := JNull;
      sb_booking_status := RECEIVED; sb_created_at := 0; sb_updated_at := 0; sb_record_digest := EmptyString |})
      "CANCELLED") ∧
  rs_status (serve_carrier patch (example_moment 5) booked).2 = 500 ∧
  cn_in_transaction (serve_carrier patch (example_moment 5) booked).1 = true.
Proof. split_and!; vm_compute; reflexivity. Qed.
