(* ===== verification/BookingAdapter.v ===== *)
(** * The booking adapter (booking/adapter.py)

    The credential-aware adapter that submits and cancels bookings over HTTP, for any transport:
    a function from the call and the world to the world and a response, or none when httpx
    raises one of its own errors.  A call carries the reference its path quotes.  The
    configuration takes the parts [urlsplit] finds. *)

From Stdlib Require Import Ascii.
From S2P Require Import Prelude.
From S2P Require Import Contracts.
From S2P Require Import Documents.
From S2P Require Import Verification.
From S2P Require Import RuntimeModels.
From S2P Require Import Credentials.
From S2P Require Import Planner.
From S2P Require Import Sqlite.
From S2P Require Import Adapters.
From S2P Require Import Booking.
From S2P Require Import SyntheticCarrier.

(** ** Configuration *)

Record ParsedOrigin := {
  po_scheme : string;
  po_hostname : option string;
  po_port : result string (option Z);
  po_credentials : bool;
  po_path : string;
  po_query_or_fragment : bool }.

Record HttpConfig := {
  bc_origin : string;
  bc_max_response_bytes : Z;
  bc_credential_name : string }.

Definition LOOPBACK : list string := ["localhost"; "127.0.0.1"; "::1"].

Fixpoint has_colon (s : string) : bool :=
  match s with EmptyString => false | String c s' => (code c =? 58) || has_colon s' end.

(** [__init__] of the adapter's and of the collector's configuration; the timeout is
    passed on to httpx after its bounds are checked ([timeout_ok]). *)
Definition make_config (o : ParsedOrigin) (timeout_ok : bool) (max_response_bytes : Z) (own_transport : bool)
    (credential_name : string) : result string HttpConfig :=
  match mem (po_scheme o) ["http"; "https"], po_hostname o with
  | true, Some hostname =>
      raise_if (bool_decide (hostname = EmptyString)) "booking origin must be an http(s) origin";;
      port ← po_port o;
      raise_if (po_credentials o || negb (mem (po_path o) [EmptyString; "/"]))
        "booking origin must not include credentials or a path";;
      raise_if (po_query_or_fragment o) "booking origin must not include a query or fragment";;
      raise_if (negb timeout_ok) "booking timeout is out of bounds";;
      raise_if (negb (between 1 max_response_bytes 65536)) "booking response limit is out of bounds";;
      let host := lower hostname in
      raise_if (negb (mem host LOOPBACK) && negb own_transport) "booking adapter requires a loopback origin";;
      let host_part := if has_colon host then "[" +:+ host +:+ "]" else host in
      let default_port := if bool_decide (po_scheme o = "https") then 443 else 80 in
      let port_part := match port with
                       | None => EmptyString
                       | Some p => if p =? default_port then EmptyString else ":" +:+ pretty.pretty p
                       end in
      Ok {| bc_origin := po_scheme o +:+ "://" +:+ host_part +:+ port_part;
            bc_max_response_bytes := max_response_bytes; bc_credential_name := credential_name |}
  | _, _ => Err "booking origin must be an http(s) origin"
  end.

(** ** Requests *)

(** The calls of the adapter and of the evidence collector; the header carries the key. *)
Inductive HttpCall :=
| CallPost (body : json) (idempotency_key : string) (authorization : Buffer)
| CallGet (reference idempotency_key : string) (authorization : Buffer)
| CallPatch (reference : string) (body : json) (authorization : Buffer)
| CallLedger (reference : string).

Definition is_post (call : HttpCall) : bool := match call with CallPost _ _ _ => true | _ => false end.

(** [bytes.decode("utf-8")] succeeds. *)
Fixpoint utf8_valid (l : Buffer) : bool :=
  let continuation b := between 128 b 191 in
  match l with
  | [] => true
  | a :: l1 =>
      if a <? 128 then utf8_valid l1
      else
        match l1 with
        | [] => false
        | b :: l2 =>
            if between 194 a 223 then continuation b && utf8_valid l2
            else
              match l2 with
              | [] => false
              | c :: l3 =>
                  if between 224 a 239 then
                    continuation b && continuation c && negb ((a =? 224) && (b <? 160))
                    && negb ((a =? 237) && (159 <? b)) && utf8_valid l3
                  else
                    match l3 with
                    | [] => false
                    | d :: l4 =>
                        between 240 a 244 && continuation b && continuation c && continuation d
                        && negb ((a =? 240) && (b <? 144)) && negb ((a =? 244) && (143 <? b)) && utf8_valid l4
                    end
              end
        end
  end.

Definition effect_unknown {A} (message : string) : result AdapterException A :=
  adapter_error "booking_effect_unknown" message.
Definition schema_rejected {A} (message : string) : result AdapterException A :=
  adapter_error "booking_schema_rejected" message.

(** What [_request] makes of a response. *)
Definition check_response (config : HttpConfig) (post expect_json : bool) (expected_status : Z)
    (response : option HttpResponse) : result AdapterException HttpResponse :=
  match response with
  | None => effect_unknown "Booking transport failed"
  | Some rs =>
      if (300 <=? rs_status rs) && (rs_status rs <? 400) then effect_unknown "Booking redirect was rejected"
      else if post && (rs_status rs =? 400) then schema_rejected "Booking request was rejected by schema"
      else if negb (rs_status rs =? expected_status) then
        effect_unknown "Booking endpoint returned an unsuccessful response"
      else if expect_json && negb (rs_is_json rs) then effect_unknown "Booking endpoint response was not JSON"
      else if bc_max_response_bytes config <? rs_size rs then effect_unknown "Booking response exceeded the size limit"
      else Ok rs
  end.

(** ** Responses *)

(** A field of a model under its alias or its name, among the keys the model allows. *)
Definition model_field (keys : list string) (alias name : string) (o : list (string * json)) : option json :=
  if forallb (λ kv, mem kv.1 keys) o then
    match assoc alias o, assoc name o with
    | Some v, None | None, Some v => Some v
    | _, _ => None
    end
  else None.

(** [CarrierReference]. *)
Definition carrier_reference (v : json) : option string :=
  match v with
  | JStr s => if between 1 (len (strip s)) 100 then Some (strip s) else None
  | _ => None
  end.
Definition reference_keys : list string := ["carrierBookingRequestReference"; "carrier_booking_request_reference"].
Definition status_keys : list string := ["bookingStatus"; "booking_status"].
Definition BOOKING_STATUSES : list string :=
  ["RECEIVED"; "PENDING_UPDATE"; "UPDATE_RECEIVED"; "CONFIRMED"; "PENDING_AMENDMENT"; "REJECTED"; "DECLINED";
   "CANCELLED"; "COMPLETED"].

(** [_strict_json] and [BookingCreateResponse], [BookingGetResponse],
    [BookingCancellationResponse]. *)
Definition read_create_response (body : option json) : option string :=
  match body with
  | Some (JObj o) =>
      model_field reference_keys "carrierBookingRequestReference" "carrier_booking_request_reference" o
      ≫= carrier_reference
  | _ => None
  end.
Definition read_status_response (statuses : list string) (body : option json) : option (string * string) :=
  match body with
  | Some (JObj o) =>
      let keys := reference_keys ++ status_keys in
      reference ← model_field keys "carrierBookingRequestReference" "carrier_booking_request_reference" o
        ≫= carrier_reference;
      status ← model_field keys "bookingStatus" "booking_status" o ≫= as_string;
      if mem status statuses then Some (reference, status) else None
  | _ => None
  end.
Definition read_get_response : option json → option (string * string) := read_status_response BOOKING_STATUSES.
Definition read_cancellation_response : option json → option (string * string) := read_status_response ["CANCELLED"].

(** ** Execution *)

(** [_external_reference] of the adapter; [str.strip] finds something. *)
Definition usable_text (v : option json) : option string :=
  match v with
  | Some (JStr s) => if forall_chars py_space s then None else Some s
  | _ => None
  end.
Definition input_reference (input : list (string * json)) : option string :=
  match usable_text (assoc "external_reference" input) with
  | Some s => Some s
  | None =>
      match assoc "transaction" input with
      | Some (JObj transaction) => usable_text (assoc "external_reference" transaction)
      | _ => None
      end
  end.

(** [_credential_header]. *)
Definition credential_header (config : HttpConfig) (now : Z) (s : CredentialLeaseSet)
    : CredentialLeaseSet * result AdapterException Buffer :=
  let '(s', value) := read_lease (bc_credential_name config) now s in
  let unavailable := adapter_error "booking_credential_unavailable" "Booking credential is unavailable" in
  (s', match value with
       | Ok b => if utf8_valid b && negb (bool_decide (b = [])) then Ok b else unavailable
       | Err _ => unavailable
       end).

(** [AdapterResult(...)]: the parts validate, outside any handler. *)
Definition collection_id (i : AdapterInvocation) : string :=
  "booking:" +:+ ai_transaction_id i +:+ ":" +:+ ai_step_id i.
Definition adapter_result (i : AdapterInvocation) (output : list (string * json)) (reference : string)
    : result AdapterException (option AdapterResult) :=
  let source := {| src_source_system := "synthetic.carrier"; src_channel := CH_API;
                   src_adapter_id := ai_adapter i; src_collection_id := collection_id i; src_synthetic := true |} in
  raise_if (negb (validate_source source) || negb (Identifier_ok (strip reference))) (OtherException "ValidationError");;
  Ok (Some {| ar_output := output; ar_effect_reference := Some (strip reference); ar_execution_source := Some source |}).

Section execute.
Context `{BookingReader} {W : Type}.
Context (send : HttpCall → W → W * option HttpResponse) (config : HttpConfig) (now : Z).

Definition request (call : HttpCall) (expect_json : bool) (expected_status : Z) (w : W)
    : W * result AdapterException HttpResponse :=
  let '(w', response) := send call w in
  (w', check_response config (is_post call) expect_json expected_status response).

(** What follows an accepted submission. *)
Definition confirm (i : AdapterInvocation) (reference key : string) (authorization : Buffer) (w : W)
    : W * result AdapterException (option AdapterResult) :=
  let unknown := effect_unknown "Booking status could not be validated after submission" in
  match request (CallGet reference key authorization) true 200 w with
  | (w', Err _) => (w', unknown)
  | (w', Ok rs) =>
      (w', match read_get_response (rs_json rs) with
           | None => unknown
           | Some (reference', status) =>
               if negb (bool_decide (reference' = reference)) then
                 effect_unknown "Booking status reference did not match"
               else
                 adapter_result i [("synthetic", JBool true); ("carrier_booking_request_reference", JStr reference);
                                   ("booking_status", JStr status)] reference
           end)
  end.

Definition submit (i : AdapterInvocation) (s : CredentialLeaseSet) (w : W)
    : W * CredentialLeaseSet * result AdapterException (option AdapterResult) :=
  match map_ir_to_booking (ai_input i), input_reference (ai_input i) with
  | Err _, _ => (w, s, schema_rejected "Booking request failed schema validation before submission")
  | Ok _, None => (w, s, schema_rejected "Booking request has no external reference")
  | Ok booking, Some key =>
      match credential_header config now s with
      | (s', Err e) => (w, s', Err e)
      | (s', Ok authorization) =>
          match request (CallPost (to_dcsa booking) key authorization) true 202 w with
          | (w', Err e) => (w', s', Err e)
          | (w', Ok rs) =>
              match read_create_response (rs_json rs) with
              | None => (w', s', effect_unknown "Booking response could not be validated after submission")
              | Some reference =>
                  let '(w'', r) := confirm i reference key authorization w' in (w'', s', r)
              end
          end
      end
  end.

(** [_cancel]. *)
Definition cancellation_body : json := JObj [("bookingStatus", JStr "CANCELLED")].
Definition cancel_call (i : AdapterInvocation) (s : CredentialLeaseSet) (w : W)
    : W * CredentialLeaseSet * result AdapterException (option AdapterResult) :=
  match assoc "effect_reference" (ai_input i) with
  | Some (JStr (String _ _ as reference)) =>
      match credential_header config now s with
      | (s', Err e) => (w, s', Err e)
      | (s', Ok authorization) =>
          match request (CallPatch reference cancellation_body authorization) false 202 w with
          | (w', Err e) => (w', s', Err e)
          | (w', Ok rs) =>
              let failed message := adapter_error "booking_cancellation_failed" message in
              let cancelled := adapter_result i [("synthetic", JBool true); ("booking_status", JStr "CANCELLED")] reference in
              (w', s',
               if rs_size rs =? 0 then cancelled
               else
                 match read_cancellation_response (rs_json rs) with
                 | None => failed "Booking cancellation response was invalid"
                 | Some (reference', _) =>
                     if negb (bool_decide (reference' = reference)) then
                       failed "Booking cancellation reference did not match"
                     else cancelled
                 end)
          end
      end
  | _ => (w, s, adapter_error "booking_effect_reference_missing" "Booking cancellation requires an effect reference")
  end.

(** [execute_with_credentials]. *)
Definition booking_execute (i : AdapterInvocation) (s : CredentialLeaseSet) (w : W)
    : W * CredentialLeaseSet * result AdapterException (option AdapterResult) :=
  if negb (mem (ai_operation i) ["submit"; "booking.submit"; "cancel"]) then
    (w, s, adapter_error "booking_operation_unsupported" "Booking adapter operation is unsupported")
  else if bool_decide (ai_operation i = "cancel") then cancel_call i s w
  else submit i s w.

End execute.

(** ** What an execution exchanges *)

Section exchanged.
Context `{BookingReader} {W : Type} (send : HttpCall → W → W * option HttpResponse).

(** The calls and responses between two states of the world. *)
Fixpoint exchanges (w : W) (log : list (HttpCall * option HttpResponse)) (w' : W) : Prop :=
  match log with
  | [] => w' = w
  | (call, response) :: log' => ∃ w1, send call w = (w1, response) ∧ exchanges w1 log' w'
  end.

Lemma request_exchanges config call expect_json expected w w' r :
  request send config call expect_json expected w = (w', r) →
  ∃ response, exchanges w [(call, response)] w' ∧ r = check_response config (is_post call) expect_json expected response.
Proof.
  unfold request. destruct (send call w) as [w1 response] eqn:E. intros [= <- <-]. exists response.
  split; [|done]. by exists w1.
Qed.

(** A response accepted by [_request] is there with the expected status; a rejected one says
    whether the carrier refused the body. *)
Lemma check_response_cases config post expect_json expected response :
  match check_response config post expect_json expected response with
  | Ok rs => response = Some rs ∧ rs_status rs = expected
  | Err e => e = ExecutionFailed (final_error "booking_schema_rejected" "Booking request was rejected by schema") ∧
      post = true ∧ (∃ rs, response = Some rs ∧ rs_status rs = 400) ∨
      ∃ message, e = ExecutionFailed (final_error "booking_effect_unknown" message)
  end.
Proof.
  unfold check_response. destruct response as [rs|]; [|right; by eexists].
  destruct (_ && _); [right; by eexists|]. destruct (post && _) eqn:E.
  { apply andb_true_iff in E as [-> E]. boolify. left. eauto. }
  destruct (negb (rs_status rs =? expected)) eqn:Es; [right; by eexists|].
  destruct (expect_json && _); [right; by eexists|]. destruct (_ <? _); [right; by eexists|]. boolify. done.
Qed.

Lemma adapter_result_cases i output reference :
  match adapter_result i output reference with
  | Ok x => ∃ a, x = Some a ∧ ar_output a = output ∧ ar_effect_reference a = Some (strip reference)
  | Err e => e = OtherException "ValidationError" ∧
      (Name_ok (ai_adapter i) = false ∨ Identifier_ok (collection_id i) = false ∨ Identifier_ok (strip reference) = false)
  end.
Proof.
  unfold adapter_result. cbv zeta. destruct (negb _ || negb _) eqn:E; cbn; [|by eexists]. split; [done|].
  apply orb_true_iff in E as [E|E]; boolify; [|by auto]. unfold validate_source in E. cbn in E.
  destruct (Name_ok (ai_adapter i)); [|by auto]. cbn in E. by auto.
Qed.

(** How a submission ends. *)
Inductive submitted (i : AdapterInvocation) : list (HttpCall * option HttpResponse) →
    result AdapterException (option AdapterResult) → Prop :=
| sub_refused e : ae_code e ≠ "booking_effect_unknown" → submitted i [] (Err (ExecutionFailed e))
| sub_rejected body key authorization rs e :
    rs_status rs = 400 → submitted i [(CallPost body key authorization, Some rs)] (Err (ExecutionFailed e))
| sub_unknown call response log e :
    is_post call = true → forallb (λ x, negb (is_post x.1)) log = true → ae_code e = "booking_effect_unknown" →
    submitted i ((call, response) :: log) (Err (ExecutionFailed e))
| sub_done booking key authorization rs reference rs' status r :
    map_ir_to_booking (ai_input i) = Ok booking → input_reference (ai_input i) = Some key →
    rs_status rs = 202 → read_create_response (rs_json rs) = Some reference →
    rs_status rs' = 200 → read_get_response (rs_json rs') = Some (reference, status) →
    (∀ x, r = Ok x → ∃ a, x = Some a ∧ ar_effect_reference a = Some (strip reference) ∧
       assoc "booking_status" (ar_output a) = Some (JStr status)) →
    (∀ e, r = Err e → e = OtherException "ValidationError" ∧ (Name_ok (ai_adapter i) = false ∨
       Identifier_ok (collection_id i) = false ∨ Identifier_ok (strip reference) = false)) →
    submitted i [(CallPost (to_dcsa booking) key authorization, Some rs); (CallGet reference key authorization, Some rs')] r.

Lemma credential_header_error config now s s' e :
  credential_header config now s = (s', Err e) →
  e = ExecutionFailed (final_error "booking_credential_unavailable" "Booking credential is unavailable").
Proof.
  unfold credential_header. destruct (read_lease _ _ _) as [s1 [b|e1]]; [|by intros [= _ <-]].
  destruct (_ && _); [done|by intros [= _ <-]].
Qed.

Lemma submit_exchanges config now i s w w' s' r :
  submit send config now i s w = (w', s', r) → ∃ log, exchanges w log w' ∧ submitted i log r.
Proof.
  unfold submit. destruct (map_ir_to_booking (ai_input i)) as [booking|] eqn:Em.
  2:{ intros [= <- <- <-]. exists []. split; [done|]. by constructor. }
  destruct (input_reference (ai_input i)) as [key|] eqn:Ek.
  2:{ intros [= <- <- <-]. exists []. split; [done|]. by constructor. }
  destruct (credential_header config now s) as [s1 [authorization|e]] eqn:Ec.
  2:{ apply credential_header_error in Ec as ->. intros [= <- <- <-]. exists []. split; [done|]. by constructor. }
  destruct (request _ _ _ _ _ w) as [w1 r1] eqn:Ep. apply request_exchanges in Ep as (response & (w2 & Hs & <-) & ->).
  pose proof (check_response_cases config true true 202 response) as Hc. cbn [is_post].
  destruct (check_response config true true 202 response) as [rs|e].
  2:{ intros [= <- <- <-]. exists [(CallPost (to_dcsa booking) key authorization, response)].
      split; [by exists w1; split|]. destruct Hc as [(-> & _ & rs & -> & Hrs)|(message & ->)]; [by constructor|by apply sub_unknown]. }
  destruct Hc as [-> Hrs]. destruct (read_create_response (rs_json rs)) as [reference|] eqn:Er.
  2:{ intros [= <- <- <-]. exists [(CallPost (to_dcsa booking) key authorization, Some rs)]. split; [by exists w1; split|]. by apply sub_unknown. }
  unfold confirm. destruct (request _ _ (CallGet _ _ _) _ _ w1) as [w3 r3] eqn:Eg.
  apply request_exchanges in Eg as (response & (w4 & Hs' & <-) & ->). cbn [is_post].
  pose proof (check_response_cases config false true 200 response) as Hc.
  assert (exchanges w [(CallPost (to_dcsa booking) key authorization, Some rs); (CallGet reference key authorization, response)] w3)
    as Hx by (exists w1; split; [done|]; by exists w3; split).
  destruct (check_response config false true 200 response) as [rs'|e].
  2:{ intros [= <- <- <-]. eexists. split; [exact Hx|]. by apply sub_unknown. }
  destruct Hc as [-> Hrs']. destruct (read_get_response (rs_json rs')) as [[reference' status]|] eqn:Eg'.
  2:{ intros [= <- <- <-]. eexists. split; [exact Hx|]. by apply sub_unknown. }
  destruct (bool_decide (reference' = reference)) eqn:Eq; cbn [negb].
  2:{ intros [= <- <- <-]. eexists. split; [exact Hx|]. by apply sub_unknown. }
  boolify. subst reference'. intros [= <- <- <-]. eexists. split; [exact Hx|].
  pose proof (adapter_result_cases i [("synthetic", JBool true); ("carrier_booking_request_reference", JStr reference);
    ("booking_status", JStr status)] reference) as Ha.
  apply (sub_done i booking key authorization rs reference rs' status); try done.
  - intros x Hr. rewrite Hr in Ha. destruct Ha as (a & -> & Ho & He). exists a. by rewrite Ho.
  - intros e Hr. by rewrite Hr in Ha.
Qed.

End exchanged.

(** ** The synthetic carrier as the transport *)

Section carrier.
Context `{Sha256, FloatRepr, BookingReader}.

Definition request_of (call : HttpCall) : CarrierRequest :=
  match call with
  | CallPost body key _ => PostBooking body (Some key) None
  | CallGet reference _ _ => GetBooking reference None
  | CallPatch reference body _ => PatchBooking reference body None
  | CallLedger reference => GetLedger reference None
  end.

(** What happens around one call: the requests others have served before it, its moment, and
    whether the call or its response is lost. *)
Inductive Delivery := Delivered | LostBefore | LostAfter.
Record Turn := {
  tu_others : list (CarrierRequest * Moment);
  tu_moment : Moment;
  tu_delivery : Delivery }.

Definition serve_others (others : list (CarrierRequest * Moment)) (c : CarrierStore) : CarrierStore :=
  fold_left (λ c q, (serve_carrier q.1 q.2 c).1) others c.

Definition send_carrier (call : HttpCall) (w : CarrierStore * list Turn)
    : CarrierStore * list Turn * option HttpResponse :=
  match w with
  | (c, []) => ((c, []), None)
  | (c, turn :: turns) =>
      let c1 := serve_others (tu_others turn) c in
      match tu_delivery turn with
      | LostBefore => ((c1, turns), None)
      | Delivered => let '(c2, rs) := serve_carrier (request_of call) (tu_moment turn) c1 in ((c2, turns), Some rs)
      | LostAfter => let '(c2, rs) := serve_carrier (request_of call) (tu_moment turn) c1 in ((c2, turns), None)
      end
  end.

Lemma serve_others_run others c : star carrier_step c (serve_others others c).
Proof.
  revert c. induction others as [|[q m] others IH]; intros c; [done|]. cbn.
  eapply star_step; [|apply IH]. by exists q, m.
Qed.

Lemma send_run call c turns w' response : send_carrier call (c, turns) = (w', response) → star carrier_step c w'.1.
Proof.
  unfold send_carrier. destruct turns as [|turn turns]; [by intros [= <- _]|].
  pose proof (serve_others_run (tu_others turn) c) as Hr.
  destruct (serve_carrier (request_of call) (tu_moment turn) (serve_others (tu_others turn) c)) as [c2 rs] eqn:E.
  assert (carrier_step (serve_others (tu_others turn) c) c2) as Hs
    by (exists (request_of call), (tu_moment turn); by rewrite E).
  destruct (tu_delivery turn); intros [= <- _]; cbn; [|done|]; eapply star_trans; eauto using star_one.
Qed.

(** A response comes from serving the call after the requests others have in its turn. *)
Lemma send_response call c turns w' rs :
  send_carrier call (c, turns) = (w', Some rs) →
  ∃ turn, turns = turn :: w'.2 ∧
    serve_carrier (request_of call) (tu_moment turn) (serve_others (tu_others turn) c) = (w'.1, rs).
Proof.
  unfold send_carrier. destruct turns as [|turn turns]; [done|].
  destruct (serve_carrier _ _ _) as [c2 rs'] eqn:E. destruct (tu_delivery turn); try done.
  intros [= <- <-]. by exists turn.
Qed.

(** The carrier as it is when the turns taken have brought it the requests of others alone. *)
Definition untouched (c : CarrierStore) (turns : list Turn) (w' : CarrierStore * list Turn) : Prop :=
  ∃ taken, turns = taken ++ w'.2 ∧ w'.1 = serve_others (concat (map tu_others taken)) c.

(** A refusal of the body leaves the store as it was. *)
Lemma rejected_post body key m c c' rs :
  serve_carrier (PostBooking body (Some key) None) m c = (c', rs) → rs_status rs = 400 → c' = c.
Proof.
  cbn [serve_carrier]. unfold create_booking. destruct (read_booking body) as [booking|]; [|by intros [= <- _]].
  change (fault_mode None) with (@Ok CarrierError string "normal"). cbn iota beta.
  rewrite bool_decide_false by done.
  destruct (create booking key (mo_drawn m) (mo_now m) c) as [c1 [[r b]|e]] eqn:E.
  { rewrite bool_decide_false by done. by intros [= _ <-]. }
  intros [= <- <-] Hs. revert E Hs. unfold create, operation, check_external_reference, ensure_open, session.
  destruct (cn_closed c); [by intros [= <- _]|]. destruct (negb (external_reference_ok key)); [by intros [= <- _]|]. cbn.
  destruct (cn_in_transaction c); [by intros [= _ <-]|]. unfold create_body, escaping.
  generalize (issue_booking (mo_drawn m) key (to_dcsa booking) RECEIVED (mo_now m) (mo_now m)). intros issued.
  destruct (by_external key (cn_data c)) as [current|].
  - destruct (negb _); cbn; [by intros [= _ <-]|done].
  - destruct issued; cbn; [|by intros [= _ <-]]. destruct (negb (is_none _)); cbn; [by intros [= _ <-]|done].
Qed.

(** The reference an accepted submission reads is that of a stored booking for the request. *)
Lemma post_stored booking key authorization c turns w1 rs reference input :
  bookings_ok (cn_data c) → map_ir_to_booking input = Ok booking →
  send_carrier (CallPost (to_dcsa booking) key authorization) (c, turns) = (w1, Some rs) → rs_status rs = 202 →
  read_create_response (rs_json rs) = Some reference →
  ∃ row, by_external key (cn_data w1.1) = Some row ∧ sb_request_digest row = value_digest (to_dcsa booking) ∧
    reference = sb_carrier_booking_request_reference row ∧ strip reference = reference ∧ len reference ≤ 100 ∧ 1 ≤ len reference.
Proof.
  intros Hok Hm Hsend Hrs Hread. pose proof (carrier_run_ok _ _ Hok (send_run _ _ _ _ _ Hsend)) as Hok1.
  apply send_response in Hsend as (turn & _ & Hserve). cbn [request_of serve_carrier] in Hserve.
  apply created_booking in Hserve as (key' & req & row & [= <-] & Hreq & Hrow & Hd & ->); [|done].
  rewrite (read_to_dcsa _ (map_ir_valid _ _ Hm)) in Hreq. injection Hreq as <-. rewrite to_dcsa_on_the_wire in Hd.
  exists row. split; [done|]. split; [done|]. pose proof (find_key_Some _ _ _ _ Hrow) as [Hin _].
  pose proof (bo_valid _ Hok1 _ Hin) as Hv. unfold validate_booking_record in Hv. apply raise_if_then in Hv as [Hf _].
  apply negb_false_iff in Hf. rewrite !andb_true_iff in Hf. destruct Hf as ((((Hr & _) & _) & _) & _).
  pose proof (reference_plain _ Hr) as Hp.
  assert (carrier_reference (JStr (sb_carrier_booking_request_reference row)) = Some reference) as Hc by done.
  unfold carrier_reference in Hc. rewrite Hp in Hc. destruct (between _ _ _) eqn:Eb; [|done]. injection Hc as <-.
  unfold between in Eb. boolify. done.
Qed.

(** C35. Over the synthetic carrier, whatever others ask of it meanwhile and whichever calls or
    responses are lost, a submission that succeeds leaves one booking under its external
    reference, for this very request, whose reference it returns and which every later state
    of the carrier still has; one that fails with another code than [booking_effect_unknown]
    has not touched the carrier, which is as the requests of the others in its turns leave it;
    and an unexpected exception comes only from a result that does not fit its model, after
    the booking has been made. *)
Theorem booked_once config now i s c turns w' s' r :
  bookings_ok (cn_data c) → ai_operation i ∈ ["submit"; "booking.submit"] →
  booking_execute send_carrier config now i s (c, turns) = (w', s', r) →
  match r with
  | Ok x => ∃ result key booking row, x = Some result ∧ map_ir_to_booking (ai_input i) = Ok booking ∧
      input_reference (ai_input i) = Some key ∧ by_external key (cn_data w'.1) = Some row ∧
      sb_request_digest row = value_digest (to_dcsa booking) ∧
      ar_effect_reference result = Some (sb_carrier_booking_request_reference row) ∧
      ∀ c2, star carrier_step w'.1 c2 →
        ∃ row2, filter (λ x, sb_external_reference x = key) (cn_data c2) = [row2] ∧ booking_le row row2
  | Err (ExecutionFailed e) => ae_code e ≠ "booking_effect_unknown" → untouched c turns w'
  | Err (OtherException _) =>
      (Name_ok (ai_adapter i) = false ∨ Identifier_ok (collection_id i) = false) ∧
      ∃ key booking row, map_ir_to_booking (ai_input i) = Ok booking ∧ input_reference (ai_input i) = Some key ∧
        by_external key (cn_data w'.1) = Some row ∧ sb_request_digest row = value_digest (to_dcsa booking)
  end.
Proof.
  intros Hok Hop. unfold booking_execute.
  rewrite (proj2 (mem_true _ _)) by (revert Hop; rewrite !elem_of_cons, elem_of_nil; tauto). cbn [negb].
  rewrite bool_decide_false by (rewrite !elem_of_cons, elem_of_nil in Hop; by intros Ho; rewrite Ho in Hop; intuition).
  intros (log & Hx & Hsub)%submit_exchanges. destruct Hsub as [e He|body key authorization rs e Hrs|call response log e _ _ He|
    booking key authorization rs reference rs' status r Hm Hk Hrs Hread _ _ Hval Herr].
  - intros _. exists []. cbn in Hx. by subst w'.
  - intros _. destruct Hx as (w1 & Hs & ->). apply send_response in Hs as (turn & -> & Hserve).
    exists [turn]. split; [done|]. cbn [map concat]. rewrite app_nil_r. by eapply rejected_post.
  - done.
  - destruct Hx as ([c1 turns1] & Hpost & w2 & Hget & ->).
    pose proof (send_run _ _ _ _ _ Hpost) as Hrun1. pose proof (send_run _ _ _ _ _ Hget) as Hrun2. cbn in Hrun1.
    pose proof (carrier_run_ok _ _ Hok Hrun1) as Hok1. pose proof (carrier_run_ok _ _ Hok1 Hrun2) as Hok2.
    destruct (post_stored _ _ _ _ _ _ _ _ _ Hok Hm Hpost Hrs Hread) as (row & Hrow & Hd & -> & Hp & Hlen & Hlen').
    destruct (carrier_run _ _ _ _ Hok1 Hrun2 Hrow) as (_ & row2 & Hrow2 & Hle). destruct r as [x|[e|what]].
    + destruct (Hval x eq_refl) as (result & -> & Href & _). exists result, key, booking, row2.
      split_and!; try done.
      * by rewrite (booking_le_digest _ _ Hle).
      * rewrite Href, Hp. by rewrite (booking_le_carrier _ _ Hle).
      * intros c2 Hc2. destruct (carrier_run _ _ _ _ Hok2 Hc2 Hrow2) as (Hok3 & row3 & Hrow3 & Hle3).
        exists row3. split; [|done]. by apply find_key_only; [apply Hok3|].
    + by destruct (Herr _ eq_refl) as [? _].
    + split; [|exists key, booking, row2; split_and!; [done..|by rewrite (booking_le_digest _ _ Hle)]].
      destruct (Herr _ eq_refl) as [_ [?|[?|Hbad]]]; [by left|by right|]. exfalso.
      revert Hbad. unfold Identifier_ok. rewrite Hp, bool_decide_true by done. cbn.
      rewrite (proj2 (Z.leb_le _ _) Hlen'), (proj2 (Z.leb_le _ _)) by lia. done.
Qed.

End carrier.

(** ** The adapter as the registry has it *)

Lemma credential_header_reads config now s s' r : credential_header config now s = (s', r) → star lease_set_step s s'.
Proof.
  unfold credential_header. pose proof (lss_read (bc_credential_name config) now s) as Hr.
  destruct (read_lease _ _ _) as [s1 value]. intros [= <- _]. by apply star_one.
Qed.

Lemma booking_execute_leases `{BookingReader} {W} (send : HttpCall → W → W * option HttpResponse) config now i s w w' s' r :
  booking_execute send config now i s w = (w', s', r) → star lease_set_step s s'.
Proof.
  unfold booking_execute. destruct (negb _); [by intros [= _ <- _]|]. destruct (bool_decide _).
  - unfold cancel_call. destruct (assoc _ _) as [[| | | |[|a t]| |]|]; try by intros [= _ <- _].
    destruct (credential_header config now s) as [s1 [b|e]] eqn:E; apply credential_header_reads in E; [|by intros [= _ <- _]].
    destruct (request _ _ _ _ _ _) as [w1 [rs|e]]; by intros [= _ <- _].
  - unfold submit. destruct (map_ir_to_booking _) as [booking|]; [|by intros [= _ <- _]].
    destruct (input_reference _) as [key|]; [|by intros [= _ <- _]].
    destruct (credential_header config now s) as [s1 [b|e]] eqn:E; apply credential_header_reads in E; [|by intros [= _ <- _]].
    destruct (request _ _ _ _ _ _) as [w1 [rs|e]]; [|by intros [= _ <- _]].
    destruct (read_create_response _) as [reference|]; [|by intros [= _ <- _]].
    destruct (confirm _ _ _ _ _ _) as [w2 x]. by intros [= _ <- _].
Qed.

Definition BookingHttpAdapter `{BookingReader} {W} (send : HttpCall → W → W * option HttpResponse) (config : HttpConfig)
    (now : Z) : CredentialAwareAdapterExecutor W := {|
  execute_with_credentials := booking_execute send config now;
  execute_uses_leases i s w w' s' r := booking_execute_leases send config now i s w w' s' r |}.

(** ** Examples *)

#[local] Existing Instances example_sha256 example_float_repr strict_reader.
#[local] Instance adapter_datetimes : DatetimeText := canonical_datetime.

Definition example_origin (scheme hostname : string) : ParsedOrigin := {|
  po_scheme := scheme; po_hostname := Some hostname; po_port := Ok (Some 8091); po_credentials := false;
  po_path := EmptyString; po_query_or_fragment := false |}.
Definition example_config : HttpConfig := {|
  bc_origin := "http://127.0.0.1:8091"; bc_max_response_bytes := 65536; bc_credential_name := "api_key" |}.

Example configured_origins :
  make_config (example_origin "http" "127.0.0.1") true 65536 false "api_key" = Ok example_config ∧
  bc_origin <$> make_config (example_origin "https" "::1") true 1 false "api_key" = Ok "https://[::1]:8091" ∧
  is_ok (make_config (example_origin "http" "carrier.example") true 65536 false "api_key") = false ∧
  is_ok (make_config (example_origin "http" "carrier.example") true 65536 true "api_key") = true ∧
  is_ok (make_config (example_origin "ftp" "localhost") true 65536 true "api_key") = false ∧
  is_ok (make_config (example_origin "http" "localhost") true 65537 true "api_key") = false.
Proof. split_and!; vm_compute; reflexivity. Qed.

Definition example_leases : CredentialLeaseSet := {|
  ls_closed := false;
  ls_leases := [("api_key", {| sl_buffers := [("demo", [107; 101; 121])]; sl_default_name := "demo";
                               sl_closed := false; sl_expires_at := 1000 |})] |}.
Definition submit_invocation (transaction_id : string) : AdapterInvocation := {|
  ai_transaction_id := transaction_id; ai_tenant_id := "t-1"; ai_environment_id := "default";
  ai_step_id := "submit-booking"; ai_capability := Some "booking.submit"; ai_adapter := "synthetic.booking.api";
  ai_operation := "submit"; ai_input := step_input booking_command; ai_route_candidate_id := None;
  ai_credential_binding_digest := None |}.
Definition delivered (others : list (CarrierRequest * Moment)) : Turn := {|
  tu_others := others; tu_moment := example_moment 10; tu_delivery := Delivered |}.
Definition lost_response : Turn := {| tu_others := []; tu_moment := example_moment 10; tu_delivery := LostAfter |}.
Definition submission (transaction_id : string) (c : CarrierStore) (turns : list Turn) :=
  booking_execute send_carrier example_config 5 (submit_invocation transaction_id) example_leases (c, turns).

(** A response lost after the effect is unknown; submitting again finds the same booking. *)
Example lost_then_found :
  contain (submission "tx-1" (connect []) [lost_response]).2
  = Err (final_error "booking_effect_unknown" "Booking transport failed") ∧
  (submission "tx-1" (connect []) [lost_response]).1.1.1 = booked ∧
  (submission "tx-1" booked [delivered []; delivered []]).1.1.1 = booked ∧
  (r ← contain (submission "tx-1" booked [delivered []; delivered []]).2; Ok (ar_effect_reference r))
  = Ok (Some (drawn_reference "1")).
Proof. split_and!; vm_compute; reflexivity. Qed.

(** A transaction id over 233 characters leaves no room for the collection id: the booking is
    made and confirmed, then the result does not validate, and the call is reported as
    [adapter_internal], which the plan does not list among its unknown effects. *)
Definition long_transaction : string := String.string_of_list_ascii (repeat "a"%char 234).
Lemma long_transaction_effect_hidden :
  contain (submission long_transaction (connect []) [delivered []; delivered []]).2
  = Err (final_error "adapter_internal" "Adapter failed without a safe diagnostic") ∧
  (submission long_transaction (connect []) [delivered []; delivered []]).1.1.1 = booked.
Proof. split; vm_compute; reflexivity. Qed.

Lemma empty_bookings_ok : bookings_ok [].
Proof. split; [apply NoDup_nil_2..|by intros r ?%elem_of_nil]. Qed.

Lemma booked_once_witness :
  ∃ row, by_external "PO-1" (cn_data booked) = Some row ∧
    ∀ c2, star carrier_step booked c2 → length (filter (λ x, sb_external_reference x = "PO-1") (cn_data c2)) = 1%nat.
Proof.
  destruct (submission "tx-1" (connect []) [delivered []; delivered []]) as [[w' s'] r] eqn:E.
  pose proof (booked_once example_config 5 (submit_invocation "tx-1") example_leases (connect []) _ w' s' r
    empty_bookings_ok (list_elem_of_here _ _) E) as Hb.
  assert (w'.1 = booked ∧ is_ok r = true) as [Hw Hr] by (revert E; vm_compute; by intros [= <- _ <-]).
  destruct r as [x|e]; [|done]. destruct Hb as (result & key & booking & row & _ & _ & Hk & Hrow & _ & _ & Hlater).
  assert (key = "PO-1") as -> by (revert Hk; vm_compute; by intros [= <-]). rewrite Hw in Hrow, Hlater.
  exists row. split; [exact Hrow|]. intros c2 Hc2. destruct (Hlater c2 Hc2) as (row2 & -> & _). reflexivity.
Defined.
