(* ===== verification/BookingEvidence.v ===== *)
(** * Booking evidence (booking/evidence.py)

    The collector that asks the carrier's read-only ledger for a booking and issues the
    observation of its two claims, for any transport.  Reading an ISO timestamp is Python's
    [datetime.fromisoformat], a parameter: the naive or aware datetime it reads, if any. *)

From Stdlib Require Import Ascii.
From S2P Require Import Prelude.
From S2P Require Import Contracts.
From S2P Require Import Documents.
From S2P Require Import Verification.
From S2P Require Import EvidenceStore.
From S2P Require Import Sqlite.
From S2P Require Import Booking.
From S2P Require Import SyntheticCarrier.
From S2P Require Import BookingAdapter.

Class IsoReader := fromisoformat : string → option Datetime.

Definition collection_error (code : string) (retryable : bool) : CollectionError :=
  {| ce_code := code; ce_retryable := retryable |}.

(** [_external_reference] of the collector. *)
Definition evidence_reference (input : list (string * json)) : option string :=
  match usable_text (assoc "external_reference" input) with
  | Some s => Some s
  | None => usable_text (assoc "carrier_booking_request_reference" input)
  end.

(** The checks of [collect] on a response. *)
Definition check_ledger_response (config : HttpConfig) (response : option HttpResponse)
    : result CollectionError HttpResponse :=
  match response with
  | None => Err (collection_error "evidence_unavailable" true)
  | Some rs =>
      raise_if ((300 <=? rs_status rs) && (rs_status rs <? 400)) (collection_error "redirect_rejected" false);;
      raise_if ((rs_status rs <? 200) || (300 <=? rs_status rs)) (collection_error "evidence_unavailable" false);;
      raise_if (negb (rs_is_json rs)) (collection_error "invalid_response_schema" false);;
      raise_if (bc_max_response_bytes config <? rs_size rs) (collection_error "response_too_large" false);;
      Ok rs
  end.

Definition LEDGER_FIELDS : list string :=
  ["externalReference"; "external_reference"; "carrierBookingRequestReference"; "bookingStatus"; "booking_status";
   "sourceRecordId"; "source_record_id"; "observedAt"; "observed_at"; "recordDigest"; "synthetic"].

(** [value.replace("Z", "+00:00")]. *)
Fixpoint replace_z (s : string) : string :=
  match s with
  | EmptyString => EmptyString
  | String c s' => if code c =? 90 then "+00:00" +:+ replace_z s' else String c (replace_z s')
  end.

(** A non-empty string. *)
Definition nonempty_text (v : json) : option string :=
  match v with JStr (String c s) => Some (String c s) | _ => None end.

Section collector.
Context `{Sha256, FloatRepr, IsoReader}.

(** [EvidenceObservation.issue]; the digest given is ignored. *)
Definition issue_observation (o : EvidenceObservation) : result string EvidenceObservation :=
  let o' := {| ob_evidence_id := ob_evidence_id o; ob_tenant_id := ob_tenant_id o;
    ob_transaction_id := ob_transaction_id o; ob_source_record_id := ob_source_record_id o;
    ob_source_system := ob_source_system o; ob_channel := ob_channel o; ob_collector_id := ob_collector_id o;
    ob_collection_id := ob_collection_id o; ob_observed_at := ob_observed_at o; ob_expires_at := ob_expires_at o;
    ob_claims := ob_claims o; ob_synthetic := ob_synthetic o; ob_content_digest := value_digest (observation_json o) |} in
  validate_observation o';; Ok o'.

(** The provenance checks, the subject and the status of [_observation]. *)
Definition ledger_status (o : list (string * json)) (reference : string) : option string :=
  if negb (forallb (λ kv, mem kv.1 LEDGER_FIELDS) o) then None
  else if negb (match assoc "synthetic" o with Some (JBool true) => true | _ => false end
                && match assoc "recordDigest" o with Some (JStr d) => Digest_ok d | _ => false end) then None
  else
    let response_reference :=
      match get_or "externalReference" o (get "external_reference" o) with
      | JNull => get "carrierBookingRequestReference" o
      | v => v
      end in
    match response_reference, nonempty_text (get_or "bookingStatus" o (get "booking_status" o)) with
    | JStr s, Some status => if bool_decide (s = reference) then Some status else None
    | _, _ => None
    end.

(** [observed_at], in UTC. *)
Definition observed_time (o : list (string * json)) (now : Z) : option Z :=
  match get_or "observedAt" o (get "observed_at" o) with
  | JStr s => d ← fromisoformat (replace_z s); if naive d then None else Some (instant d)
  | _ => Some now
  end.

(** [_observation]. *)
Definition ledger_observation (body : option json) (inv : CollectionInvocation) (reference : string) (now : Z)
    : result CollectionError EvidenceObservation :=
  let invalid := Err (collection_error "invalid_response_schema" false) in
  match body with
  | Some (JObj o) =>
      match ledger_status o reference, observed_time o now with
      | Some status, Some observed_at =>
          let source_record_id :=
            default ("booking:" +:+ reference) (nonempty_text (get_or "sourceRecordId" o (get "source_record_id" o))) in
          match issue_observation {|
            ob_evidence_id := "booking:" +:+ ci_tenant_id inv +:+ ":" +:+ ci_transaction_id inv +:+ ":" +:+ source_record_id;
            ob_tenant_id := ci_tenant_id inv; ob_transaction_id := ci_transaction_id inv;
            ob_source_record_id := source_record_id; ob_source_system := "synthetic.ledger";
            ob_channel := CH_SYSTEM_RECORD; ob_collector_id := ci_collector_id inv;
            ob_collection_id := "booking-ledger:" +:+ ci_tenant_id inv +:+ ":" +:+ ci_transaction_id inv +:+ ":"
              +:+ ci_step_id inv;
            ob_observed_at := observed_at; ob_expires_at := None;
            ob_claims := [("booking.external_reference", SStr reference); ("booking.status", SStr status)];
            ob_synthetic := true; ob_content_digest := EmptyString |} with
          | Ok o => Ok o
          | Err _ => invalid
          end
      | _, _ => invalid
      end
  | _ => invalid
  end.

Definition collected_result (r : result CollectionError EvidenceObservation) : Collected :=
  match r with Ok o => CollectedObservation o | Err e => CollectedError e end.

(** [collect]. *)
Definition ledger_collect {W} (send : HttpCall → W → W * option HttpResponse) (config : HttpConfig) (now : Z)
    (inv : CollectionInvocation) (w : W) : W * Collected :=
  if negb (mem (ci_operation inv) ["fetch"; "booking.fetch"]) then
    (w, CollectedError (collection_error "operation_not_supported" false))
  else
    match evidence_reference (ci_input inv) with
    | None => (w, CollectedError (collection_error "invalid_invocation" false))
    | Some reference =>
        let '(w', response) := send (CallLedger reference) w in
        (w', collected_result (rs ← check_ledger_response config response;
                               ledger_observation (rs_json rs) inv reference now))
    end.

(** ** Lemmas *)

Lemma issue_observation_ok o o' :
  issue_observation o = Ok o' → validate_observation o' = Ok () ∧ observation_json o' = observation_json o ∧
  ob_claims o' = ob_claims o ∧ ob_channel o' = ob_channel o ∧ ob_source_system o' = ob_source_system o ∧
  ob_tenant_id o' = ob_tenant_id o ∧ ob_transaction_id o' = ob_transaction_id o ∧ ob_synthetic o' = ob_synthetic o ∧
  ob_observed_at o' = ob_observed_at o ∧ ob_expires_at o' = ob_expires_at o ∧ ob_collector_id o' = ob_collector_id o ∧
  ob_collection_id o' = ob_collection_id o.
Proof. unfold issue_observation. by intros ([] & Hv & <-%Ok_inj)%bind_ok. Qed.

(** What an observation of the ledger says. *)
Definition ledger_evidence (inv : CollectionInvocation) (reference status : string) (o : EvidenceObservation) : Prop :=
  validate_observation o = Ok () ∧ ob_tenant_id o = ci_tenant_id inv ∧ ob_transaction_id o = ci_transaction_id inv ∧
  ob_source_system o = "synthetic.ledger" ∧ ob_channel o = CH_SYSTEM_RECORD ∧ ob_synthetic o = true ∧
  ob_expires_at o = None ∧ ob_collector_id o = ci_collector_id inv ∧
  ob_collection_id o = "booking-ledger:" +:+ ci_tenant_id inv +:+ ":" +:+ ci_transaction_id inv +:+ ":"
    +:+ ci_step_id inv ∧
  ob_claims o = [("booking.external_reference", SStr reference); ("booking.status", SStr status)].

Lemma ledger_observation_ok body inv reference now o :
  ledger_observation body inv reference now = Ok o →
  ∃ fields status, body = Some (JObj fields) ∧ ledger_status fields reference = Some status ∧
    observed_time fields now = Some (ob_observed_at o) ∧ ledger_evidence inv reference status o.
Proof.
  unfold ledger_observation. destruct body as [[| | | | | |fields]|]; try done.
  destruct (ledger_status fields reference) as [status|] eqn:Es; [|done].
  destruct (observed_time fields now) as [observed_at|] eqn:Et; [|done].
  destruct (issue_observation _) as [o'|] eqn:Ei; [|done]. intros [= <-].
  apply issue_observation_ok in Ei as (Hv & _ & Hc & Hch & Hs & Ht & Hx & Hy & Hz & He & Hi & Hj).
  exists fields, status. split; [done|]. split; [done|]. split; [by rewrite Hz|]. by split_and!.
Qed.

Lemma ledger_view_status r reference status :
  Digest_ok (sb_record_digest r) = true → sb_external_reference r = reference → status ≠ EmptyString →
  ∃ fields, ledger_view r status = JObj fields ∧ ledger_status fields reference = Some status ∧
    (∀ now, observed_time fields now = Some now) ∧ get_or "sourceRecordId" fields (get "source_record_id" fields) = JNull.
Proof.
  intros Hd <- Hs. eexists. split; [reflexivity|]. split_and!; [|done|done].
  unfold ledger_status. rewrite (proj2 (negb_false_iff _)) by done.
  rewrite (proj2 (negb_false_iff _)) by exact Hd.
  change (match nonempty_text (JStr status) with
          | Some t => if bool_decide (sb_external_reference r = sb_external_reference r) then Some t else None
          | None => None
          end = Some status).
  destruct status; [done|]. cbn [nonempty_text]. by rewrite bool_decide_true.
Qed.

(** The ledger answers with the booking it holds, or with an error. *)
Lemma ledger_answer `{BookingReader} reference m c c' rs :
  serve_carrier (GetLedger reference None) m c = (c', rs) → c' = c ∧
  ((∃ row, by_external reference (cn_data c) = Some row ∧
     rs = json_response 200 (ledger_view row (BookingStatus_value (sb_booking_status row)))) ∨
   400 ≤ rs_status rs).
Proof.
  cbn [serve_carrier]. intros [= <- <-]. split; [done|]. unfold booking_by_external_reference.
  change (fault_mode None) with (@Ok CarrierError string "normal"). cbn [mbind result_bind].
  rewrite bool_decide_false by done. cbn [raise_if mbind result_bind]. unfold ledger_by_external_reference, ensure_open, check_external_reference.
  destruct (cn_closed c); [by right|]. cbn [raise_if mbind result_bind].
  destruct (negb (external_reference_ok reference)); [by right|]. cbn [raise_if mbind result_bind respond].
  destruct (by_external reference (cn_data c)) as [row|]; [|by right]. left. exists row. split; [done|].
  rewrite bool_decide_false by done. done.
Qed.

End collector.

(** ** Evidence of a stored booking *)

Section evidence.
Context `{Sha256Laws, FloatRepr, IsoReader, BookingReader}.

(** The identifiers the collector composes fit their fields. *)
Definition evidence_fits (inv : CollectionInvocation) (reference : string) : bool :=
  Identifier_ok ("booking:" +:+ ci_tenant_id inv +:+ ":" +:+ ci_transaction_id inv +:+ ":" +:+ "booking:" +:+ reference)
  && Identifier_ok (ci_tenant_id inv) && Identifier_ok (ci_transaction_id inv) && Identifier_ok ("booking:" +:+ reference)
  && Name_ok (ci_collector_id inv)
  && Identifier_ok ("booking-ledger:" +:+ ci_tenant_id inv +:+ ":" +:+ ci_transaction_id inv +:+ ":" +:+ ci_step_id inv).

Lemma status_text s : BookingStatus_value s ≠ EmptyString ∧ len (BookingStatus_value s) ≤ 4096.
Proof. by destruct s. Qed.

Lemma row_digest_ok rows r : bookings_ok rows → r ∈ rows → Digest_ok (sb_record_digest r) = true.
Proof.
  intros Hok Hr. pose proof (bo_valid _ Hok _ Hr) as Hv. unfold validate_booking_record in Hv.
  apply raise_if_then in Hv as [Hf _]. apply negb_false_iff in Hf. rewrite !andb_true_iff in Hf. tauto.
Qed.

Lemma check_ledger_ok config response rs :
  check_ledger_response config response = Ok rs →
  response = Some rs ∧ 200 ≤ rs_status rs < 300 ∧ rs_is_json rs = true ∧ rs_size rs ≤ bc_max_response_bytes config.
Proof.
  unfold check_ledger_response. destruct response as [rs'|]; [|done].
  rewrite !raise_if_then. intros (_ & Hs & Hj & Hm & [= <-]). boolify. by repeat split.
Qed.

(** An observation of the ledger's view of a booking. *)
Lemma view_observed inv row reference now :
  Digest_ok (sb_record_digest row) = true → sb_external_reference row = reference → len reference ≤ 256 →
  evidence_fits inv reference = true →
  ∃ o, ledger_observation (Some (ledger_view row (BookingStatus_value (sb_booking_status row)))) inv reference now = Ok o ∧
    ob_observed_at o = now.
Proof.
  intros Hd Href Hlen Hfit. pose proof (status_text (sb_booking_status row)) as [Hne Hl].
  destruct (ledger_view_status row reference _ Hd Href Hne) as (fields & Hv & Hs & Ht & Hsrc).
  rewrite Hv. unfold ledger_observation. rewrite Hs, Ht, Hsrc. cbn [nonempty_text default].
  destruct (issue_observation _) as [o|m] eqn:E.
  - exists o. split; [done|]. apply issue_observation_ok in E. by destruct E as (_ & _ & _ & _ & _ & _ & _ & _ & -> & _).
  - exfalso. revert E. unfold issue_observation. cbv zeta. unfold validate_observation. cbn [ob_expires_at raise_if].
    rewrite (bool_decide_true (ob_content_digest _ = _)) by done. unfold observation_fields_ok.
    cbn [ob_evidence_id ob_tenant_id ob_transaction_id ob_source_record_id ob_source_system ob_collector_id
      ob_collection_id ob_claims ob_content_digest]. rewrite value_digest_ok.
    unfold evidence_fits in Hfit. rewrite !andb_true_iff in Hfit.
    destruct Hfit as (((((-> & ->) & ->) & ->) & ->) & ->).
    cbn [map fst forallb snd claim_item_ok]. unfold claim_item_ok. cbn [fst snd].
    rewrite (proj2 (Z.leb_le (len reference) 4096)) by lia. rewrite (proj2 (Z.leb_le _ 4096) Hl). done.
Qed.

(** ... says what the booking's row does. *)
Lemma view_evidence rows inv row reference now o :
  bookings_ok rows → by_external reference rows = Some row →
  ledger_observation (Some (ledger_view row (BookingStatus_value (sb_booking_status row)))) inv reference now = Ok o →
  ledger_evidence inv reference (BookingStatus_value (sb_booking_status row)) o ∧ ob_observed_at o = now.
Proof.
  intros Hok [Hin Hk]%find_key_Some (fields & status & [= Hf] & Hst & Ht & Hev)%ledger_observation_ok.
  destruct (ledger_view_status row reference (BookingStatus_value (sb_booking_status row))) as (fields' & Hv & Hs' & Ht' & _);
    [by eapply row_digest_ok|done|apply status_text|].
  unfold ledger_view in Hv. injection Hv as <-. rewrite Hf in Hs', Ht'. rewrite Hst in Hs'. rewrite Ht' in Ht.
  injection Hs' as ->. by injection Ht as ->.
Qed.

(** What is collected over the carrier is the row of its ledger. *)
Lemma ledger_collected config now inv c turns reference w' o :
  bookings_ok (cn_data c) → ci_operation inv ∈ ["fetch"; "booking.fetch"] →
  evidence_reference (ci_input inv) = Some reference →
  ledger_collect send_carrier config now inv (c, turns) = (w', CollectedObservation o) →
  ∃ row, by_external reference (cn_data w'.1) = Some row ∧
    ledger_evidence inv reference (BookingStatus_value (sb_booking_status row)) o ∧ ob_observed_at o = now.
Proof.
  intros Hok Hop Href. unfold ledger_collect. rewrite (proj2 (mem_true _ _) Hop), Href. cbn [negb].
  destruct (send_carrier _ _) as [w1 response] eqn:E.
  intros [= <- Hr]. destruct (check_ledger_response config response) as [rs|] eqn:Ec; [|done]. cbn in Hr.
  apply check_ledger_ok in Ec as (-> & Hs & _). apply send_response in E as (turn & _ & Hserve).
  apply ledger_answer in Hserve as [-> [(row & Hrow & ->)|Hbad]]; [|lia]. exists row. split; [done|].
  destruct (ledger_observation _ _ _ _) as [o'|] eqn:Eo; [|done]. injection Hr as ->.
  by eapply view_evidence; [eapply carrier_run_ok; [exact Hok|apply serve_others_run]|..].
Qed.

(** What the collector observes over the synthetic carrier is what the ledger holds: an
    observation is a valid one of the invocation's transaction, from the ledger and not from
    the carrier the booking was executed on, and claims the external reference asked for with
    the status of the booking stored under it; and a stored booking is observed, at the time
    given, whenever the response arrives and the identifiers made from it fit their fields. *)
Theorem ledger_evidence_exact config now inv c turns reference :
  bookings_ok (cn_data c) → ci_operation inv ∈ ["fetch"; "booking.fetch"] →
  evidence_reference (ci_input inv) = Some reference →
  (∀ w' o, ledger_collect send_carrier config now inv (c, turns) = (w', CollectedObservation o) →
     ∃ row, by_external reference (cn_data w'.1) = Some row ∧
       ledger_evidence inv reference (BookingStatus_value (sb_booking_status row)) o) ∧
  (∀ turn turns' row, turns = turn :: turns' → tu_delivery turn = Delivered →
     let c1 := serve_others (tu_others turn) c in
     cn_closed c1 = false → external_reference_ok reference = true → by_external reference (cn_data c1) = Some row →
     rs_size (json_response 200 (ledger_view row (BookingStatus_value (sb_booking_status row))))
       ≤ bc_max_response_bytes config →
     evidence_fits inv reference = true →
     ∃ o, ledger_collect send_carrier config now inv (c, turns) = ((c1, turns'), CollectedObservation o) ∧
       ob_observed_at o = now ∧ ledger_evidence inv reference (BookingStatus_value (sb_booking_status row)) o).
Proof.
  intros Hok Hop Href. split.
  - intros w' o Hc. destruct (ledger_collected config now inv c turns reference w' o Hok Hop Href Hc) as (row & ? & ? & _).
    by exists row.
  - unfold ledger_collect. rewrite (proj2 (mem_true _ _) Hop), Href. cbn [negb]. intros turn turns' row -> Hd. cbv zeta. intros Ho Hr Hrow Hsize Hfit.
    set (c1 := serve_others (tu_others turn) c) in *.
    assert (serve_carrier (GetLedger reference None) (tu_moment turn) c1
      = (c1, json_response 200 (ledger_view row (BookingStatus_value (sb_booking_status row))))) as Hserve.
    { cbn [serve_carrier]. f_equal. unfold booking_by_external_reference.
      change (fault_mode None) with (@Ok CarrierError string "normal"). cbn [mbind result_bind].
      rewrite bool_decide_false by done. cbn [raise_if mbind result_bind].
      unfold ledger_by_external_reference, ensure_open, check_external_reference. rewrite Ho, Hr. cbn [negb raise_if mbind result_bind].
      rewrite Hrow. cbn [respond mbind result_bind]. by rewrite bool_decide_false by done. }
    unfold send_carrier. fold c1. rewrite Hd. cbn [request_of]. rewrite Hserve.
    pose proof (carrier_run_ok _ _ Hok (serve_others_run (tu_others turn) c)) as Hok1.
    pose proof (find_key_Some _ _ _ _ Hrow) as [Hin Hk].
    assert (len reference ≤ 256) as Hlen.
    { unfold external_reference_ok in Hr. rewrite !andb_true_iff in Hr. destruct Hr as [[_ Hr] _]. boolify. lia. }
    destruct (view_observed inv row reference now (row_digest_ok _ _ Hok1 Hin) Hk Hlen Hfit) as (o & Ho' & Ht).
    exists o. unfold check_ledger_response. cbn [rs_status rs_is_json json_response negb].
    rewrite (proj2 (Z.ltb_ge _ _) Hsize). cbn -[ledger_observation ledger_view].
    split; [by rewrite Ho'|]. split; [done|]. by eapply (proj1 (view_evidence _ _ _ _ _ _ Hok1 Hrow Ho')).
Qed.

End evidence.

(** ** Examples *)

#[local] Existing Instances example_sha256 example_sha256_laws example_float_repr strict_reader.
#[local] Instance example_iso_reader : IsoReader := λ _, None.

Definition ledger_invocation (operation reference : string) : CollectionInvocation := {|
  ci_tenant_id := "t-1"; ci_transaction_id := "tx-1"; ci_step_id := "collect-booking-ledger";
  ci_collector_id := "synthetic.booking.ledger"; ci_operation := operation;
  ci_input := [("external_reference", JStr reference)] |}.

Example ledger_refusals :
  (ledger_collect send_carrier example_config 40 (ledger_invocation "delete" "PO-1") (booked, [delivered []])).2
  = CollectedError (collection_error "operation_not_supported" false) ∧
  (ledger_collect send_carrier example_config 40 (ledger_invocation "fetch" " ") (booked, [delivered []])).2
  = CollectedError (collection_error "invalid_invocation" false) ∧
  (ledger_collect send_carrier example_config 40 (ledger_invocation "fetch" "PO-2") (booked, [delivered []])).2
  = CollectedError (collection_error "evidence_unavailable" false) ∧
  (ledger_collect send_carrier example_config 40 (ledger_invocation "fetch" "PO-1") (booked, [lost_response])).2
  = CollectedError (collection_error "evidence_unavailable" true).
Proof. split_and!; vm_compute; reflexivity. Qed.

(** The booking arrives while the collector asks. *)
Definition booking_turn : Turn := delivered [(PostBooking example_body (Some "PO-1") None, example_moment 10)].

Lemma ledger_evidence_exact_witness :
  ∃ o, ledger_collect send_carrier example_config 40 (ledger_invocation "fetch" "PO-1") (connect [], [booking_turn])
       = ((booked, []), CollectedObservation o) ∧ ledger_evidence (ledger_invocation "fetch" "PO-1") "PO-1" "RECEIVED" o.
Proof.
  assert (serve_others (tu_others booking_turn) (connect []) = booked) as Hc by (vm_compute; reflexivity).
  destruct (by_external "PO-1" (cn_data booked)) as [row|] eqn:Hrow; [|vm_compute in Hrow; discriminate].
  assert ((λ row, let status := BookingStatus_value (sb_booking_status row) in
             (status, rs_size (json_response 200 (ledger_view row status)) <=? 65536))
          <$> by_external "PO-1" (cn_data booked) = Some ("RECEIVED", true)) as Hv by (vm_compute; reflexivity).
  rewrite Hrow in Hv. injection Hv as Hs Hsize. apply Z.leb_le in Hsize.
  destruct (proj2 (ledger_evidence_exact example_config 40 (ledger_invocation "fetch" "PO-1") (connect []) [booking_turn] "PO-1"
    empty_bookings_ok (list_elem_of_here _ _) eq_refl) booking_turn [] row eq_refl eq_refl) as (o & Hcollect & _ & Hev);
    rewrite ?Hc; [by vm_compute|by vm_compute|exact Hrow|exact Hsize|by vm_compute|].
  rewrite Hc in Hcollect. exists o. rewrite Hs in Hev. split; [exact Hcollect|exact Hev].
Defined.
