(* ===== verification/BookingPlanner.v ===== *)
(** * The booking planner (booking/planner.py, local.py)

    The plan of a synthetic booking (a draft, then a submission that needs approval and is
    cancelled by compensation, verified on the ledger), and the local policy, credential
    bindings and secrets it runs under. *)

From Stdlib Require Import Ascii.
From S2P Require Import Prelude.
From S2P Require Import Contracts.
From S2P Require Import Documents.
From S2P Require Import Policy.
From S2P Require Import Verification.
From S2P Require Import RuntimeModels.
From S2P Require Import Planner.
From S2P Require Import Credentials.
From S2P Require Import PolicyPlanning.
From S2P Require Import Adapters.
From S2P Require Import Booking.

(** ** SyntheticBookingPlanner *)

(** [RetryPolicySpec(maximum_attempts=1, ...)]. *)
Definition single_attempt (non_retryable : list string) : RetryPolicySpec := {|
  rt_initial_interval_seconds := py_float 1; rt_backoff_coefficient := py_float 2;
  rt_maximum_interval_seconds := py_float 60; rt_maximum_attempts := 1;
  rt_non_retryable_error_types := non_retryable |}.

Definition cancellation : CompensationSpec := {|
  cp_adapter := "synthetic.booking.api"; cp_operation := "cancel"; cp_capability := Some "booking.cancel";
  cp_risk_class := REVERSIBLE_WRITE; cp_execution_channel := API; cp_credential_binding_digest := None;
  cp_include_effect_reference := true; cp_input := []; cp_timeout_seconds := 60;
  cp_retry := single_attempt [] |}.

Section planner.
Context `{Sha256, FloatRepr, DatetimeText}.

Definition prepare_step (c : TransactionCommand) : ExecutionStep := {|
  st_step_id := "prepare-booking-draft"; st_capability := "booking.draft.prepare";
  st_adapter := "synthetic.booking.draft"; st_operation := "prepare"; st_risk_class := READ_ONLY;
  st_input := step_input c; st_depends_on := []; st_timeout_seconds := 60; st_retry := single_attempt [];
  st_requires_approval := false; st_approval_timeout_seconds := None; st_compensation := None;
  st_route_candidate_id := None; st_fallback_on_error_codes := []; st_unknown_effect_error_codes := [];
  st_route_fallbacks := []; st_execution_channel := API; st_credential_binding_digest := None |}.

Definition submit_step (c : TransactionCommand) : ExecutionStep := {|
  st_step_id := "submit-booking"; st_capability := "booking.submit";
  st_adapter := "synthetic.booking.api"; st_operation := "submit"; st_risk_class := CONSEQUENTIAL_WRITE;
  st_input := step_input c; st_depends_on := ["prepare-booking-draft"]; st_timeout_seconds := 60;
  st_retry := single_attempt ["booking_effect_unknown"; "booking_schema_rejected"];
  st_requires_approval := true; st_approval_timeout_seconds := Some 86400;
  st_compensation := Some cancellation; st_route_candidate_id := None; st_fallback_on_error_codes := [];
  st_unknown_effect_error_codes := ["booking_effect_unknown"]; st_route_fallbacks := [];
  st_execution_channel := API; st_credential_binding_digest := None |}.

Definition ledger_collection (c : TransactionCommand) : EvidenceCollectionSpec := {|
  ec_step_id := "collect-booking-ledger"; ec_collector_id := "synthetic.booking.ledger";
  ec_operation := "fetch"; ec_input := [("external_reference", JStr (tc_external_reference c))] |}.

Definition booking_verification (c : TransactionCommand) : VerificationPlan := {|
  vp_required_level := tc_minimum_independence_level c; vp_collectors := [ledger_collection c];
  vp_claim_rules := [
    {| cr_claim := "booking.external_reference"; cr_expected_pointer := "/transaction/external_reference";
       cr_normalization := EXACT |};
    {| cr_claim := "booking.status"; cr_expected_pointer := "/transaction/parameters/expected_status";
       cr_normalization := EXACT |}];
  vp_max_evidence_age_seconds := 3600; vp_future_clock_skew_seconds := 300; vp_timeout_seconds := 30;
  vp_retry := {|
    vr_initial_interval_seconds := py_float 1; vr_backoff_coefficient := py_float 2;
    vr_maximum_interval_seconds := py_float 30; vr_maximum_attempts := 3 |} |}.

(** [build]. *)
Definition booking_build (c : TransactionCommand) (transaction_id business_digest : string)
    : result PlanError ExecutionPlan :=
  match tc_transaction_type c, tc_subject c, tc_parameters c with
  | BOOKING_CREATE, SBooking carrier_profile, PBooking _ =>
      raise_if (negb (bool_decide (carrier_profile = "synthetic.dcsa.booking")))
        (PlanInvalid "synthetic booking planner requires the explicit synthetic profile");;
      plan_value (validate_step (prepare_step c));;
      plan_value (validate_step (submit_step c));;
      plan_value (validate_plan (booking_verification c));;
      make_plan {|
        pl_transaction_id := transaction_id; pl_tenant_id := tc_tenant_id c;
        pl_environment_id := "local"; pl_business_digest := business_digest;
        pl_risk_class := CONSEQUENTIAL_WRITE;
        pl_verification_level := tc_minimum_independence_level c; pl_data_classification := INTERNAL;
        pl_steps := [prepare_step c; submit_step c]; pl_verification := Some (booking_verification c);
        pl_routing_decisions := []; pl_policy_decisions := [] |}
  | _, _, _ => Err (PlanInvalid "synthetic booking planner only accepts booking.create")
  end.

(** ** Local policy and credentials *)

Definition SYNTHETIC_BOOKING_ADAPTER : string := "synthetic.booking.api".
Definition SYNTHETIC_BOOKING_SECRET_KEY : string := "synthetic-booking-demo".

Definition local_rule (tenant_id environment_id rule_id : string) (priority : Z) (capability : string)
    (risk_class : RiskClass) (adapter : string) (effect : PolicyEffect) (approval : option string)
    (reason_code : string) : PolicyRule := {|
  pr_rule_id := rule_id; pr_priority := priority; pr_tenant_ids := [tenant_id];
  pr_environment_ids := [environment_id]; pr_principal_refs := []; pr_capabilities := [capability];
  pr_risk_classes := [risk_class]; pr_data_classifications := []; pr_requested_verification_levels := [];
  pr_routes := [adapter]; pr_channels := []; pr_adapters := [adapter]; pr_effect := effect;
  pr_approval_requirement := approval; pr_reason_code := reason_code; pr_rule_digest := EmptyString |}.

Definition local_rules (tenant_id environment_id : string) : list PolicyRule := [
  local_rule tenant_id environment_id "synthetic.booking.draft.allow" 10 "booking.draft.prepare" READ_ONLY
    "synthetic.booking.draft" ALLOW None "synthetic.booking.draft.allowed";
  local_rule tenant_id environment_id "synthetic.booking.submit.approval" 20 "booking.submit" CONSEQUENTIAL_WRITE
    SYNTHETIC_BOOKING_ADAPTER REQUIRE_APPROVAL (Some "human.approver")
    "synthetic.booking.submit.requires-approval";
  local_rule tenant_id environment_id "synthetic.booking.cancel.allow" 30 "booking.cancel" REVERSIBLE_WRITE
    SYNTHETIC_BOOKING_ADAPTER ALLOW None "synthetic.booking.cancel.allowed"].

(** [synthetic_booking_policy_provider]. *)
Definition synthetic_booking_policy (tenant_id environment_id : string) : result string PolicySet :=
  rules ← mapM_result issue_rule (local_rules tenant_id environment_id);
  issue_set {| ps_policy_id := "synthetic.booking.local"; ps_version := "1.0.0"; ps_rules := rules;
               ps_policy_digest := EmptyString |}.

(** [synthetic_booking_credential_store]. *)
Definition local_binding (tenant_id environment_id capability : string) : CredentialBinding := {|
  bi_tenant_id := tenant_id; bi_environment_id := environment_id; bi_adapter := SYNTHETIC_BOOKING_ADAPTER;
  bi_capability := capability;
  bi_secrets := [("api_key", {| sr_provider := "memory"; sr_key := SYNTHETIC_BOOKING_SECRET_KEY;
                               sr_version := None |})];
  bi_revision := 1; bi_binding_digest := EmptyString |}.
Definition provision_local (tenant_id environment_id : string) (s : BindingStore) (capability : string)
    : result string BindingStore :=
  binding ← issue_binding (local_binding tenant_id environment_id capability);
  match put binding s with
  | (s', Ok _) => Ok s'
  | (_, Err _) => Err "credential binding"
  end.
Definition synthetic_booking_credential_store (tenant_id environment_id : string) : result string BindingStore :=
  foldM (provision_local tenant_id environment_id) empty_bindings ["booking.submit"; "booking.cancel"].

End planner.

(** [synthetic_booking_secret_provider], with the default lease. *)
Definition synthetic_booking_secret_provider : result string InMemorySecretProvider :=
  make_memory_provider
    [(SYNTHETIC_BOOKING_SECRET_KEY, map code (String.list_ascii_of_string "synthetic-only-not-a-real-credential"))] 60.

(** ** Lemmas: the plan *)

Section plan.
Context `{Sha256, FloatRepr, DatetimeText} (c : TransactionCommand).
Hypothesis Hsecret : has_secret_values (JObj (tc_extensions c)) = false.

Lemma prepare_step_valid : validate_step (prepare_step c) = Ok ().
Proof.
  apply plain_step_valid; try done; try (by apply NoDup_nil_2); try (by right).
  - intros f Hf. by apply elem_of_nil in Hf.
  - by apply not_elem_of_nil.
  - unfold prepare_step. cbn [st_input]. by rewrite step_input_secrets.
Qed.

Lemma submit_step_valid : validate_step (submit_step c) = Ok ().
Proof.
  assert (validate_step (submit_step c)
    = (raise_if (has_secret_values (JObj (step_input c))) "looks like secret material";; Ok ())) as ->.
  { lazy -[has_secret_values step_input]. by destruct (has_secret_values _). }
  by rewrite step_input_secrets, Hsecret.
Qed.

Lemma booking_verification_valid :
  Identifier_ok (tc_external_reference c) = true → tc_minimum_independence_level c ≠ L0 →
  validate_plan (booking_verification c) = Ok ().
Proof.
  intros Hr Hl. unfold Identifier_ok in Hr. rewrite !andb_true_iff in Hr. destruct Hr as [_ Hr]. boolify.
  set (o := JObj [("external_reference", JStr (tc_external_reference c))]).
  assert ((utf8_len (json_dumps o) <=? 65536) = true) as Hsize.
  { apply Z.leb_le. unfold o. cbn -[json_string utf8_len]. rewrite !utf8_len_app. cbn -[json_string].
    rewrite ?utf8_len_app. pose proof (json_string_size (tc_external_reference c)).
    change (utf8_len (json_string "external_reference")) with 20.
    cbn. repeat case_match; lia. }
  unfold validate_plan. cbn [booking_verification vp_collectors vp_claim_rules vp_required_level
    vp_max_evidence_age_seconds vp_future_clock_skew_seconds vp_timeout_seconds vp_retry length map forallb
    ec_step_id cr_claim]. unfold validate_collection, bounded_json. cbn [ledger_collection ec_input]. fold o. rewrite Hsize.
  rewrite (bool_decide_false (_ = L0)) by done. vm_compute. reflexivity.
Qed.

End plan.

(** ** Lemmas: the local policy and bindings *)

(** What [issue] returns, once it validates. *)
Definition signed_rule `{Sha256, FloatRepr} (r : PolicyRule) : PolicyRule := {|
  pr_rule_id := pr_rule_id r; pr_priority := pr_priority r; pr_tenant_ids := pr_tenant_ids r;
  pr_environment_ids := pr_environment_ids r; pr_principal_refs := pr_principal_refs r;
  pr_capabilities := pr_capabilities r; pr_risk_classes := pr_risk_classes r;
  pr_data_classifications := pr_data_classifications r;
  pr_requested_verification_levels := pr_requested_verification_levels r; pr_routes := pr_routes r;
  pr_channels := pr_channels r; pr_adapters := pr_adapters r; pr_effect := pr_effect r;
  pr_approval_requirement := pr_approval_requirement r; pr_reason_code := pr_reason_code r;
  pr_rule_digest := value_digest (JObj (rule_unsigned_fields r)) |}.
Definition signed_binding `{Sha256, FloatRepr} (b : CredentialBinding) : CredentialBinding := {|
  bi_tenant_id := bi_tenant_id b; bi_environment_id := bi_environment_id b; bi_adapter := bi_adapter b;
  bi_capability := bi_capability b; bi_secrets := bi_secrets b; bi_revision := bi_revision b;
  bi_binding_digest := value_digest (binding_json b) |}.

Section local.
Context `{Sha256Laws, FloatRepr} (tenant_id environment_id : string).
Hypothesis Htenant : Identifier_ok tenant_id = true.
Hypothesis Henvironment : Identifier_ok environment_id = true.

Notation local_signed := (map signed_rule (local_rules tenant_id environment_id)).

Lemma local_rule_valid r : r ∈ local_rules tenant_id environment_id → validate_rule (signed_rule r) = Ok ().
Proof.
  intros Hr. unfold validate_rule.
  rewrite (bool_decide_true (pr_rule_digest (signed_rule r) = _)) by done.
  assert (rule_fields_ok (signed_rule r) = true) as ->.
  { unfold rule_fields_ok. cbn [signed_rule pr_rule_digest]. rewrite value_digest_ok.
    unfold local_rules in Hr. repeat (apply elem_of_cons in Hr as [->|Hr]); [..|by apply elem_of_nil in Hr];
      cbn [signed_rule local_rule pr_tenant_ids pr_environment_ids forallb]; rewrite Htenant, Henvironment;
      vm_compute; reflexivity. }
  unfold local_rules in Hr. repeat (apply elem_of_cons in Hr as [->|Hr]); [..|by apply elem_of_nil in Hr]; reflexivity.
Qed.

Lemma local_policy :
  ∃ s, synthetic_booking_policy tenant_id environment_id = Ok s ∧ validate_set s = Ok () ∧ ps_rules s = local_signed.
Proof.
  unfold synthetic_booking_policy.
  assert (mapM_result issue_rule (local_rules tenant_id environment_id) = Ok local_signed) as ->.
  { apply mapM_result_Forall2, Forall2_fmap_r, Forall_Forall2_diag, Forall_forall. intros r Hr.
    unfold issue_rule. fold (signed_rule r). by rewrite (local_rule_valid r Hr). }
  cbn [mbind result_bind]. unfold issue_set. cbv zeta.
  match goal with |- context [validate_set ?x] => set (s := x) end.
  assert (validate_set s = Ok ()) as Hv; [|by exists s; rewrite Hv].
  unfold validate_set. rewrite (proj2 (foldM_unit_ok validate_rule _)).
  - rewrite (bool_decide_true (ps_policy_digest s = _)) by done. cbn [s ps_policy_digest]. rewrite value_digest_ok.
    reflexivity.
  - intros r (r' & -> & Hr)%list_elem_of_fmap. by apply local_rule_valid.
Qed.

Lemma local_first_match i :
  first_match local_signed i = List.find (λ r, matches r i) local_signed.
Proof. reflexivity. Qed.

Lemma local_binding_valid capability :
  Name_ok capability = true → validate_binding (signed_binding (local_binding tenant_id environment_id capability)) = Ok ().
Proof.
  intros Hc. unfold validate_binding. rewrite (bool_decide_true (bi_binding_digest _ = _)) by done.
  cbn [signed_binding local_binding bi_tenant_id bi_environment_id bi_capability bi_binding_digest].
  rewrite value_digest_ok, Htenant, Henvironment, Hc. vm_compute. reflexivity.
Qed.

Lemma local_bindings :
  let b := λ capability, signed_binding (local_binding tenant_id environment_id capability) in
  synthetic_booking_credential_store tenant_id environment_id
  = Ok {| bs_closed := false;
          bs_rows := <[(tenant_id, environment_id, SYNTHETIC_BOOKING_ADAPTER, "booking.cancel") := b "booking.cancel"]>
                    (<[(tenant_id, environment_id, SYNTHETIC_BOOKING_ADAPTER, "booking.submit") := b "booking.submit"]> ∅) |}.
Proof.
  cbv zeta. unfold synthetic_booking_credential_store. cbn [foldM]. unfold provision_local, issue_binding.
  fold (signed_binding (local_binding tenant_id environment_id "booking.submit")).
  fold (signed_binding (local_binding tenant_id environment_id "booking.cancel")).
  rewrite !local_binding_valid by done. cbn [mbind result_bind]. unfold put, binding_session, transact.
  rewrite !local_binding_valid by done. cbn [is_ok negb raise_if mbind result_bind bs_closed empty_bindings bs_rows].
  unfold put_body.
  change (identity (signed_binding (local_binding tenant_id environment_id ?x)))
    with (tenant_id, environment_id, SYNTHETIC_BOOKING_ADAPTER, x).
  rewrite lookup_empty. cbn [mbind result_bind is_ok negb raise_if bs_closed bs_rows].
  rewrite lookup_insert_ne by (intros [= ]). by rewrite lookup_empty.
Qed.

End local.

Lemma in_or_any_one {A} `{EqDecision A} (x y : A) : in_or_any x [y] = bool_decide (x = y).
Proof. unfold in_or_any, mem. rewrite bool_decide_false by done. cbn. apply bool_decide_ext. apply list_elem_of_singleton. Qed.

Section decisions.
Context `{Sha256Laws, FloatRepr} (tenant_id environment_id : string) (s : PolicySet).
Hypothesis Hset : validate_set s = Ok ().
Hypothesis Hrules : ps_rules s = map signed_rule (local_rules tenant_id environment_id).

Context (plan : ExecutionPlan) (environment principal : string) (now : Z).
Hypothesis Hplan : Identifier_ok (pl_tenant_id plan) = true.
Hypothesis Henvironment : Identifier_ok environment = true.
Hypothesis Hprincipal : Identifier_ok principal = true.

Notation input_of := (attempt_input plan environment principal now).

Lemma attempt_issued capability risk route adapter channel :
  Name_ok capability && Name_ok route && Name_ok adapter = true →
  ∃ i, issue_input (input_of capability risk route adapter channel) = Ok i ∧ validate_input i = Ok ().
Proof.
  rewrite !andb_true_iff. intros [[Hc Hr] Ha]. unfold issue_input. cbv zeta.
  match goal with |- context [validate_input ?x] => set (i := x) end.
  assert (validate_input i = Ok ()) as Hv; [|by exists i; rewrite Hv].
  unfold validate_input. rewrite (bool_decide_true (pi_input_digest i = _)) by done.
  cbn [i attempt_input pi_tenant_id pi_environment_id pi_principal_ref pi_capability pi_route pi_adapter pi_input_digest].
  by rewrite Hplan, Henvironment, Hprincipal, Hc, Hr, Ha, value_digest_ok.
Qed.

(** The attempt's own tenant and environment are the policy's. *)
Definition local_scope : bool := bool_decide (pl_tenant_id plan = tenant_id) && bool_decide (environment = environment_id).

(** What the local policy decides of an attempt: its rule's effect in its own scope. *)
Definition local_outcome (capability : string) (risk : RiskClass) (adapter : string) : PolicyEffect * string :=
  match (if local_scope then
           List.find (λ r, bool_decide (pr_capabilities r = [capability]) && bool_decide (pr_risk_classes r = [risk])
                           && bool_decide (pr_adapters r = [adapter])) (local_rules tenant_id environment_id)
         else None) with
  | Some r => (pr_effect r, pr_reason_code r)
  | None => (DENY, "policy_no_matching_rule")
  end.

Lemma local_decision capability risk adapter channel :
  Name_ok capability && Name_ok adapter && Name_ok adapter = true →
  ∃ d, issue_input (input_of capability risk adapter adapter channel) = Ok (pd_input d) ∧
    embedded_provider s (pd_input d) = Decided d ∧
    (pd_effect d, pd_reason_code d) = local_outcome capability risk adapter.
Proof.
  intros Hn. destruct (attempt_issued capability risk adapter adapter channel Hn) as (i & Hi & Hv).
  pose proof (issued_input _ _ Hi) as (Et & Ee & Ec & Er & _ & _ & Eroute & Ead & _). cbn in Et, Ee, Ec, Er, Eroute, Ead.
  destruct (embedded_effect s i Hset Hv) as (d & Hd & <- & Heff). exists d. unfold embedded_provider. rewrite Hd.
  split; [done|]. split; [done|]. rewrite Heff, Hrules, local_first_match. unfold local_outcome, local_scope.
  assert (∀ r, r ∈ local_rules tenant_id environment_id → matches (signed_rule r) (pd_input d) =
    bool_decide (pl_tenant_id plan = tenant_id) && bool_decide (environment = environment_id)
    && (bool_decide (pr_capabilities r = [capability]) && bool_decide (pr_risk_classes r = [risk])
        && bool_decide (pr_adapters r = [adapter]))) as Hm.
  { intros r Hr. unfold matches. rewrite Et, Ee, Ec, Er, Eroute, Ead. unfold local_rules in Hr.
    repeat (apply elem_of_cons in Hr as [->|Hr]); [..|by apply elem_of_nil in Hr];
      cbn [signed_rule local_rule pr_tenant_ids pr_environment_ids pr_principal_refs pr_capabilities pr_risk_classes
        pr_data_classifications pr_requested_verification_levels pr_routes pr_channels pr_adapters];
      rewrite !in_or_any_one; unfold in_or_any; rewrite !(bool_decide_true ([] = [])) by done;
      cbn [orb]; apply eq_iff_eq_true; rewrite ?andb_true_r, ?andb_true_iff, ?bool_decide_eq_true;
      split; intros; destruct_and?; split_and!; congruence. }
  revert Hm. generalize (local_rules tenant_id environment_id). intros l.
  destruct (bool_decide (pl_tenant_id plan = tenant_id) && bool_decide (environment = environment_id)) eqn:Eb;
    intros Hm; induction l as [|r l IH]; try done; cbn [map List.find];
    rewrite (Hm r (list_elem_of_here _ _)); cbn [andb].
  - destruct (bool_decide _ && _ && _); [done|]. apply IH. intros r' Hr'. apply Hm. by right.
  - apply IH. intros r' Hr'. apply Hm. by right.
Qed.

(** Out of scope, an attempt is denied. *)
Lemma local_denied capability risk adapter channel :
  Name_ok capability && Name_ok adapter && Name_ok adapter = true → local_scope = false →
  evaluate_attempt (embedded_provider s) plan environment principal now capability risk adapter adapter channel
  = Err (PolicyPlanningError "policy_denied" "Execution policy denied this transaction" 403).
Proof.
  intros Hn Hs. destruct (local_decision capability risk adapter channel Hn) as (d & Hi & Hp & Ho).
  unfold local_outcome in Ho. rewrite Hs in Ho. injection Ho as He Hr.
  unfold evaluate_attempt. rewrite Hi, Hp. rewrite bool_decide_true by done. cbn [negb raise_if mbind result_bind].
  by rewrite He, Hr.
Qed.

End decisions.

(** ** The plan under the local policy *)

Section permitted.
Context `{Sha256Laws, FloatRepr, DatetimeText} (c : TransactionCommand).

Definition booking_plan (transaction_id digest : string) : ExecutionPlan := {|
  pl_transaction_id := transaction_id; pl_tenant_id := tc_tenant_id c; pl_environment_id := "local";
  pl_business_digest := digest; pl_risk_class := CONSEQUENTIAL_WRITE;
  pl_verification_level := tc_minimum_independence_level c; pl_data_classification := INTERNAL;
  pl_steps := [prepare_step c; submit_step c]; pl_verification := Some (booking_verification c);
  pl_routing_decisions := []; pl_policy_decisions := [] |}.

Lemma booking_plan_valid transaction_id digest :
  validate_command c = Ok () → has_secret_values (JObj (tc_extensions c)) = false →
  tc_minimum_independence_level c ≠ L0 → Identifier_ok transaction_id = true → Digest_ok digest = true →
  validate_plan (booking_verification c) = Ok () ∧ validate_execution_plan (booking_plan transaction_id digest) = Ok ().
Proof.
  intros Hc Hsec Hl Ht Hd. unfold validate_command in Hc. apply raise_if_then in Hc as [Hf _].
  rewrite negb_false_iff, !andb_true_iff in Hf. destruct Hf as [[_ Htenant] Href].
  pose proof (booking_verification_valid c Href Hl) as Hv. split; [done|].
  apply unsigned_plan_valid; cbn [booking_plan pl_steps pl_verification pl_routing_decisions pl_transaction_id
    pl_tenant_id pl_environment_id pl_business_digest pl_verification_level pl_risk_class pl_policy_decisions];
    try done.
  - intros s [->|[->|Hs]%elem_of_cons]%elem_of_cons;
      [by apply prepare_step_valid|by apply submit_step_valid|by apply elem_of_nil in Hs].
  - by intros v [= <-].
  - intros d Hd'. by apply elem_of_nil in Hd'.
  - by apply (bool_decide_unpack _).
Qed.

Context (tenant_id environment_id : string).
Hypothesis Htenant : Identifier_ok tenant_id = true.
Hypothesis Henvironment : Identifier_ok environment_id = true.

Definition local_digest (capability : string) : string :=
  value_digest (binding_json (local_binding tenant_id environment_id capability)).

(** The submission as it is frozen: bound credentials for it and for its cancellation. *)
Definition bound_submission (timeout : Z) : ExecutionStep :=
  updated_step timeout (submit_step c) (Some (local_digest "booking.submit")) []
    (Some (with_compensation_digest cancellation (Some (local_digest "booking.cancel")))) true.

Lemma local_lookup store adapter capability :
  synthetic_booking_credential_store tenant_id environment_id = Ok store →
  binding_digest (Some (Credentials.get store)) tenant_id environment_id adapter capability
  = Ok (if bool_decide (adapter = SYNTHETIC_BOOKING_ADAPTER)
           && mem capability ["booking.submit"; "booking.cancel"] then Some (local_digest capability) else None).
Proof.
  rewrite local_bindings by done. intros [= <-]. unfold binding_digest, Credentials.get. cbn [bs_closed bs_rows raise_if mbind result_bind].
  destruct (decide (adapter = SYNTHETIC_BOOKING_ADAPTER)) as [->|Ha].
  - rewrite (bool_decide_true (_ = _)) by done. destruct (decide (capability = "booking.cancel")) as [->|Hc].
    { by rewrite lookup_insert_eq. }
    rewrite lookup_insert_ne by congruence. destruct (decide (capability = "booking.submit")) as [->|Hs].
    { by rewrite lookup_insert_eq. }
    rewrite lookup_insert_ne by congruence. rewrite lookup_empty. cbn [andb].
    rewrite (proj2 (mem_false _ _)); [done|]. rewrite !elem_of_cons, elem_of_nil. naive_solver.
  - rewrite (bool_decide_false (_ = _)) by done. rewrite !lookup_insert_ne by congruence. by rewrite lookup_empty.
Qed.

Lemma local_directory store :
  synthetic_booking_credential_store tenant_id environment_id = Ok store →
  lawful_directory (Some (Credentials.get store)) ∧ (∀ t e a k, ∃ o, Credentials.get store t e a k = Ok o).
Proof.
  rewrite local_bindings by done. intros [= <-]. split; [|intros t e a k; by eexists].
  intros get' t e a k b [= <-]. unfold Credentials.get. cbn [bs_closed bs_rows raise_if mbind result_bind]. intros [= Hb].
  apply lookup_insert_Some in Hb as [[_ <-]|[_ Hb]]; [apply value_digest_ok|].
  apply lookup_insert_Some in Hb as [[_ <-]|[_ Hb]]; [apply value_digest_ok|]. by rewrite lookup_empty in Hb.
Qed.

(** Freezing the two steps in the policy's own scope. *)
Lemma local_frozen transaction_id digest principal timeout now s store :
  tc_tenant_id c = tenant_id → Identifier_ok principal = true →
  validate_set s = Ok () → ps_rules s = map signed_rule (local_rules tenant_id environment_id) →
  synthetic_booking_credential_store tenant_id environment_id = Ok store →
  ∃ d1 d2 d3, map pd_effect [d1; d2; d3] = [ALLOW; REQUIRE_APPROVAL; ALLOW] ∧
    mapM_result (freeze_step (embedded_provider s) (booking_plan transaction_id digest) environment_id principal now
                   (Some (Credentials.get store)) timeout) [prepare_step c; submit_step c]
    = Ok [{| fz_step := prepare_step c; fz_primary := d1; fz_fallbacks := []; fz_compensations := [] |};
          {| fz_step := bound_submission timeout; fz_primary := d2; fz_fallbacks := []; fz_compensations := [d3] |}].
Proof.
  intros Et Hp Hs Hr Hst. set (plan := booking_plan transaction_id digest).
  assert (Identifier_ok (pl_tenant_id plan) = true) as Hplan by (cbn; by rewrite Et).
  assert (∀ capability risk adapter, Name_ok capability && Name_ok adapter && Name_ok adapter = true →
    (local_outcome tenant_id environment_id plan environment_id capability risk adapter).1 ≠ DENY →
    ∃ d, pd_effect d = (local_outcome tenant_id environment_id plan environment_id capability risk adapter).1 ∧
      evaluate_attempt (embedded_provider s) plan environment_id principal now capability risk adapter adapter API = Ok d)
    as Hev.
  { intros capability risk adapter Hn Hne.
    destruct (local_decision tenant_id environment_id s Hs Hr plan environment_id principal now Hplan Henvironment Hp
      capability risk adapter API Hn) as (d & Hi & Hd & Ho). exists d.
    rewrite <-Ho in Hne |- *. split; [done|]. by apply evaluate_attempt_ok. }
  assert (local_scope tenant_id environment_id plan environment_id = true) as Hscope.
  { unfold local_scope. cbn [plan booking_plan pl_tenant_id]. by rewrite Et, !bool_decide_true by done. }
  destruct (Hev "booking.draft.prepare" READ_ONLY "synthetic.booking.draft") as (d1 & E1 & Hd1);
    [done|unfold local_outcome; by rewrite Hscope|].
  destruct (Hev "booking.submit" CONSEQUENTIAL_WRITE "synthetic.booking.api") as (d2 & E2 & Hd2);
    [done|unfold local_outcome; by rewrite Hscope|].
  destruct (Hev "booking.cancel" REVERSIBLE_WRITE "synthetic.booking.api") as (d3 & E3 & Hd3);
    [done|unfold local_outcome; by rewrite Hscope|].
  unfold local_outcome in E1, E2, E3. rewrite Hscope in E1, E2, E3. cbn in E1, E2, E3.
  exists d1, d2, d3. split; [cbn; by rewrite E1, E2, E3|].
  cbn [mapM_result]. unfold freeze_step, attempt_digest. cbn [prepare_step submit_step st_adapter st_capability
    st_risk_class st_execution_channel st_route_fallbacks st_compensation mapM_result].
  unfold primary_route. cbn [prepare_step submit_step st_route_candidate_id st_adapter].
  change (pl_tenant_id plan) with (tc_tenant_id c). rewrite Et, !(local_lookup store) by done.
  rewrite Hd1, Hd2. cbn [mbind result_bind freeze_compensation cancellation cp_capability cp_adapter cp_risk_class
    cp_execution_channel]. unfold attempt_digest. change (pl_tenant_id plan) with (tc_tenant_id c).
  rewrite Et, (local_lookup store), Hd3 by done.
  cbn [mbind result_bind]. unfold is_effect. rewrite E1, E2, E3. reflexivity.
Qed.

End permitted.

Lemma booking_type c profile :
  validate_command c = Ok () → tc_subject c = SBooking profile → tc_transaction_type c = BOOKING_CREATE.
Proof.
  unfold validate_command. intros Hc Hs. apply raise_if_then in Hc as [_ Hc].
  apply bind_ok in Hc as ([] & _ & ([] & _ & Hc)%bind_ok). rewrite !raise_if_then in Hc.
  destruct Hc as (_ & _ & _ & _ & _ & Hc). destruct (tc_transaction_type c); [|done].
  rewrite Hs in Hc. by apply raise_if_then in Hc as [? _].
Qed.

(** [build] on a valid command. *)
Lemma booking_build_cases `{Sha256, FloatRepr, DatetimeText} c transaction_id digest :
  validate_command c = Ok () → has_secret_values (JObj (tc_extensions c)) = false →
  Identifier_ok transaction_id = true → Digest_ok digest = true →
  (tc_subject c = SBooking "synthetic.dcsa.booking" ∧
   booking_build c transaction_id digest = Ok (booking_plan c transaction_id digest) ∧
   validate_execution_plan (booking_plan c transaction_id digest) = Ok ()) ∨
  (tc_subject c ≠ SBooking "synthetic.dcsa.booking" ∧ ∃ e, booking_build c transaction_id digest = Err e).
Proof.
  intros Hc Hsec Ht Hd. pose proof (validated_command c Hc) as (_ & [(x & t & Es & Ep & _)|(profile & b & Es & Ep & _ & _ & Hl)]).
  - right. split; [by rewrite Es|]. unfold booking_build. rewrite Es. destruct (tc_transaction_type c); eauto.
  - unfold booking_build. rewrite (booking_type c profile Hc Es), Es, Ep.
    destruct (decide (profile = "synthetic.dcsa.booking")) as [->|Hp].
    + left. split; [done|]. rewrite bool_decide_true by done. cbn [negb raise_if mbind result_bind].
      assert (tc_minimum_independence_level c ≠ L0) as Hl0 by (intros El; by rewrite El in Hl).
      destruct (booking_plan_valid c transaction_id digest Hc Hsec Hl0 Ht Hd) as [Hv Hplan].
      rewrite prepare_step_valid, submit_step_valid, Hv by done. cbn [plan_value mbind result_bind].
      split; [|exact Hplan]. by apply make_plan_ok.
    + right. split; [congruence|]. rewrite bool_decide_false by done. cbn. eauto.
Qed.

(** Freezing the plan in and out of the policy's scope. *)
Lemma booking_frozen `{Sha256Laws, FloatRepr, DatetimeText} c transaction_id digest tenant_id environment_id environment
    principal timeout clock s store :
  validate_execution_plan (booking_plan c transaction_id digest) = Ok () →
  forallb Identifier_ok [tenant_id; environment_id; environment; principal] = true →
  between 1 timeout 604800 = true → naive clock = false →
  validate_set s = Ok () → ps_rules s = map signed_rule (local_rules tenant_id environment_id) →
  synthetic_booking_credential_store tenant_id environment_id = Ok store →
  match apply_execution_policy (booking_plan c transaction_id digest) (embedded_provider s) environment principal
          (Some (Credentials.get store)) timeout clock with
  | Ok p' =>
      tc_tenant_id c = tenant_id ∧ environment = environment_id ∧
      pl_steps p' = [prepare_step c; bound_submission c tenant_id environment_id timeout] ∧
      map pd_effect (pl_policy_decisions p') = [ALLOW; REQUIRE_APPROVAL; ALLOW]
  | Err e =>
      (tc_tenant_id c ≠ tenant_id ∨ environment ≠ environment_id) ∧
      e = PolicyPlanningError "policy_denied" "Execution policy denied this transaction" 403
  end.
Proof.
  intros Hplan Hids Htimeout Hclock Hs Hr Hst. cbn [forallb] in Hids. rewrite !andb_true_iff in Hids.
  destruct Hids as (Ht & He & Henv & Hp & _).
  pose proof (validate_plan_parts _ Hplan) as (_ & Hv & _ & Hten & _).
  destruct (Hv (booking_verification c) eq_refl) as [Hver _].
  destruct (local_directory tenant_id environment_id Ht He store Hst) as [Hdir Hanswers].
  unfold apply_execution_policy. rewrite Htimeout, Hclock. cbn [negb raise_if mbind result_bind].
  change (pl_steps (booking_plan c transaction_id digest)) with [prepare_step c; submit_step c].
  destruct (local_scope tenant_id environment_id (booking_plan c transaction_id digest) environment) eqn:Hscope;
    unfold local_scope in Hscope; change (pl_tenant_id (booking_plan c transaction_id digest)) with (tc_tenant_id c) in *.
  - boolify. subst environment.
    destruct (local_frozen c tenant_id environment_id Ht He transaction_id digest principal timeout (instant clock) s store)
      as (d1 & d2 & d3 & Heff & Hf); [done..|].
    pose proof (frozen_all (embedded_provider s) (booking_plan c transaction_id digest) environment_id principal clock
      (Some (Credentials.get store)) timeout Hdir Hplan _ Htimeout Hf) as Hok.
    pose proof (frozen_plan_level (embedded_provider s) (booking_plan c transaction_id digest) environment_id principal
      clock Hplan _ Henv Hok) as Hlevel.
    rewrite Hf. cbn [mbind result_bind]. unfold revalidate_plan.
    change (pl_verification (frozen_plan (booking_plan c transaction_id digest) _ _)) with (Some (booking_verification c)).
    cbn iota beta. rewrite Hver. cbn [mbind result_bind].
    change (pl_routing_decisions (frozen_plan (booking_plan c transaction_id digest) _ _)) with (@nil Routing.RouteDecision).
    cbn [foldM mbind result_bind]. rewrite Hlevel. by split_and!.
  - destruct (Hanswers (tc_tenant_id c) environment "synthetic.booking.draft" "booking.draft.prepare") as [o Ho].
    assert (∃ x : option string, attempt_digest (booking_plan c transaction_id digest) environment (Some (Credentials.get store))
      (st_adapter (prepare_step c)) (st_capability (prepare_step c)) = Ok x) as [d Hdigest].
    { unfold attempt_digest, binding_digest. cbn [booking_plan pl_tenant_id prepare_step st_adapter st_capability].
      rewrite Ho. destruct o; eauto. }
    assert (freeze_step (embedded_provider s) (booking_plan c transaction_id digest) environment principal (instant clock)
      (Some (Credentials.get store)) timeout (prepare_step c)
      = Err (PolicyPlanningError "policy_denied" "Execution policy denied this transaction" 403)) as Hdenied.
    { unfold freeze_step. rewrite Hdigest. cbn [mbind result_bind].
      change (primary_route (prepare_step c)) with "synthetic.booking.draft".
      cbn [prepare_step st_adapter st_capability st_risk_class st_execution_channel].
      by rewrite (local_denied tenant_id environment_id s Hs Hr (booking_plan c transaction_id digest) environment
        principal (instant clock) Hten Henv Hp "booking.draft.prepare" READ_ONLY "synthetic.booking.draft" API eq_refl Hscope). }
    cbn [mapM_result]. rewrite Hdenied. cbn [mbind result_bind]. split; [|done].
    apply andb_false_iff in Hscope. by rewrite !bool_decide_eq_false in Hscope.
Qed.


#[export] Instance booking_build_lawful `{Sha256, FloatRepr, DatetimeText} : LawfulPlanner booking_build.
Proof.
  assert (∀ c t d p, booking_build c t d = Ok p → p = booking_plan c t d ∧ validate_execution_plan p = Ok () ∧
    is_shipment (tc_subject c) = false) as Hb.
  { intros c t d p. unfold booking_build. destruct (tc_transaction_type c); [done|].
    destruct (tc_subject c) as [|profile], (tc_parameters c); try done.
    intros [_ ([] & _ & ([] & _ & ([] & _ & [-> Hv]%make_plan_inv)%bind_ok)%bind_ok)%bind_ok]%raise_if_then. done. }
  split; intros c t d p (-> & Hv & Hs)%Hb; [done|]. split_and!; try done. intros Hc. cbn [booking_plan pl_risk_class].
  destruct (validated_command c Hc) as (_ & [(x & y & Es & _)|(x & y & _ & _ & -> & _)]); [by rewrite Es in Hs|done].
Qed.

(** ** Examples *)

#[local] Existing Instances example_sha256 example_sha256_laws example_float_repr strict_reader.
#[local] Instance planner_datetimes : DatetimeText := canonical_datetime.

Definition booking_digest : string := value_digest JNull.


Example other_profiles_refused :
  booking_build {| tc_transaction_id := None; tc_tenant_id := "t-1"; tc_transaction_type := BOOKING_CREATE;
    tc_external_reference := "PO-1"; tc_requested_at := tc_requested_at booking_command;
    tc_subject := SBooking "carrier.live"; tc_parameters := tc_parameters booking_command;
    tc_requested_effects := tc_requested_effects booking_command; tc_minimum_independence_level := L3;
    tc_risk_class := CONSEQUENTIAL_WRITE; tc_required_capabilities := tc_required_capabilities booking_command;
    tc_extensions := [] |} "tx-1" booking_digest
  = Err (PlanInvalid "synthetic booking planner requires the explicit synthetic profile") ∧
  is_ok (booking_build planned_command "tx-1" booking_digest) = false ∧
  (im_ttl <$> synthetic_booking_secret_provider) = Ok 60.
Proof. split_and!; vm_compute; reflexivity. Qed.
