(* ===== verification/BookingSlice.v ===== *)
(** * A synthetic booking, from the plan to its verdict

    What the parts of the booking slice give together: the plan of BookingPlanner, the source
    the adapter of BookingAdapter reports, the observation BookingEvidence collects from the
    carrier of SyntheticCarrier, the invocation Workflow makes of them and the evaluation of
    VerifyEngine. *)

From S2P Require Import Prelude.
From S2P Require Import Contracts.
From S2P Require Import Documents.
From S2P Require Import Verification.
From S2P Require Import VerifyEngine.
From S2P Require Import EvidenceStore.
From S2P Require Import RuntimeModels.
From S2P Require Import Planner.
From S2P Require Import Workflow.
From S2P Require Import Sqlite.
From S2P Require Import Booking.
From S2P Require Import SyntheticCarrier.
From S2P Require Import BookingAdapter.
From S2P Require Import BookingEvidence.
From S2P Require Import BookingPlanner.

(** The execution source of a submission. *)
Definition booked_source (transaction_id : string) : ExecutionSource := {|
  src_source_system := "synthetic.carrier"; src_channel := CH_API; src_adapter_id := "synthetic.booking.api";
  src_collection_id := "booking:" +:+ transaction_id +:+ ":" +:+ "submit-booking"; src_synthetic := true |}.

Section slice.
Context `{Sha256, FloatRepr, DatetimeText} (c : TransactionCommand) (p : ExecutionPlan) (snapshot : ExecutionSnapshot).
Hypothesis Hfirst : head (pl_steps p) = Some (prepare_step c).
Hypothesis Hsources : omap so_execution_source (sn_outputs snapshot) = [booked_source (pl_transaction_id p)].

Notation inv := (verification_invocation p (booking_verification c) snapshot).

Lemma slice_document :
  ∃ outputs, vi_execution_document inv = [("transaction", command_payload c); ("outputs", outputs)].
Proof.
  unfold verification_invocation. destruct (pl_steps p) as [|s steps]; [done|]. injection Hfirst as ->.
  eexists. reflexivity.
Qed.

(** What the two claim rules expect. *)
Lemma expected_reference rule :
  cr_expected_pointer rule = "/transaction/external_reference" →
  expected_value inv rule = Ok (SStr (tc_external_reference c)).
Proof.
  intros Hr. unfold expected_value. destruct slice_document as [outputs ->]. rewrite Hr. reflexivity.
Qed.

Lemma expected_status rule b :
  tc_parameters c = PBooking b → cr_expected_pointer rule = "/transaction/parameters/expected_status" →
  expected_value inv rule = Ok (SStr "RECEIVED").
Proof.
  intros Hb Hr. unfold expected_value. destruct slice_document as [outputs ->]. rewrite Hr.
  unfold command_payload, command_json. rewrite Hb. reflexivity.
Qed.

(** ** One observation *)

(** One observation never reaches L3, which needs two systems and two channels. *)
Lemma one_observation_level o sources :
  VERIFICATION_RANK (independence_level [o] sources).1 ≤ VERIFICATION_RANK L2.
Proof.
  unfold independence_level. destruct sources as [|x sources]; [done|]. cbn [List.filter].
  destruct (independent_of _ o); [|done]. cbn [List.filter]. by destruct (external_to _ o).
Qed.

Lemma ledger_independent reference status o :
  ledger_evidence (collection_invocation inv (ledger_collection c)) reference status o →
  independence_level [o] (vi_execution_sources inv) = (L2, [o]).
Proof.
  intros (_ & _ & _ & Hs & _ & _ & _ & Hc & Hi & _).
  change (vi_execution_sources inv) with (omap so_execution_source (sn_outputs snapshot)). rewrite Hsources.
  assert (independent_of [booked_source (pl_transaction_id p)] o = true) as Hind.
  { apply independent_of_true. intros x ->%list_elem_of_singleton. rewrite Hc, Hi. by split. }
  assert (external_to [booked_source (pl_transaction_id p)] o = true) as Hext.
  { unfold external_to. by rewrite Hs. }
  unfold independence_level. cbn [List.filter]. rewrite Hind. cbn [List.filter]. by rewrite Hext.
Qed.

(** What is collected for the plan is a row of the ledger under the command's reference. *)
Lemma slice_collected `{IsoReader, BookingReader} config now carrier turns w' o :
  bookings_ok (cn_data carrier) →
  ledger_collect send_carrier config now (collection_invocation inv (ledger_collection c)) (carrier, turns)
    = (w', CollectedObservation o) →
  ∃ row, by_external (tc_external_reference c) (cn_data w'.1) = Some row ∧
    ledger_evidence (collection_invocation inv (ledger_collection c)) (tc_external_reference c)
      (BookingStatus_value (sb_booking_status row)) o ∧ ob_observed_at o = now.
Proof.
  intros Hok Hcollect. eapply ledger_collected; [exact Hok| | |exact Hcollect]; [by left|].
  revert Hcollect. unfold ledger_collect, evidence_reference.
  cbn [collection_invocation ci_operation ci_input ledger_collection ec_operation ec_input].
  change (assoc "external_reference" [("external_reference", JStr (tc_external_reference c))])
    with (Some (JStr (tc_external_reference c))).
  change (assoc "carrier_booking_request_reference" [("external_reference", JStr (tc_external_reference c))])
    with (@None json).
  rewrite (proj2 (mem_true _ _)) by left. cbn [negb usable_text]. by destruct (forall_chars _ _).
Qed.

(** The claims agree when the booking is still as received. *)
Lemma slice_claims b status o :
  tc_parameters c = PBooking b →
  ledger_evidence (collection_invocation inv (ledger_collection c)) (tc_external_reference c)
    (BookingStatus_value status) o →
  (∀ rule, rule ∈ vp_claim_rules (booking_verification c) → claim_agrees inv [o] rule) ↔ status = RECEIVED.
Proof.
  intros Hb Hev. assert (ob_claims o = [("booking.external_reference", SStr (tc_external_reference c));
    ("booking.status", SStr (BookingStatus_value status))]) as Hclaims by apply Hev.
  cbn [booking_verification vp_claim_rules]. split.
  - intros Hall. destruct (Hall {| cr_claim := "booking.status"; cr_expected_pointer := "/transaction/parameters/expected_status";
      cr_normalization := EXACT |}) as (expected & He & _ & Hsame); [right; left|].
    rewrite (expected_status _ b Hb) in He by done. injection He as <-.
    specialize (Hsame o (SStr (BookingStatus_value status)) (list_elem_of_here _ _)). rewrite Hclaims in Hsame.
    specialize (Hsame eq_refl). destruct status; [done|]. by vm_compute in Hsame.
  - intros ->. intros rule Hrule. rewrite !elem_of_cons, elem_of_nil in Hrule. unfold claim_agrees.
    destruct Hrule as [->|[->|[]]]; cbn [cr_claim cr_normalization].
    + exists (SStr (tc_external_reference c)). split; [by apply expected_reference|]. split.
      * exists o, (SStr (tc_external_reference c)). split; [left|]. by rewrite Hclaims.
      * intros o' v ->%list_elem_of_singleton. rewrite Hclaims. by intros [= <-].
    + exists (SStr "RECEIVED"). split; [by apply (expected_status _ b)|]. split.
      * exists o, (SStr "RECEIVED"). split; [left|]. by rewrite Hclaims.
      * intros o' v ->%list_elem_of_singleton. rewrite Hclaims. by intros [= <-].
Qed.

End slice.

(** A booking command may ask for L3, and its plan then requires L3 of its one collector's
    evidence: the booking is made, and whatever is collected it is never verified. *)
Lemma level_three_unverifiable `{Sha256, FloatRepr, DatetimeText} c p snapshot o evaluated_at r :
  tc_minimum_independence_level c = L3 →
  evaluate_verification (verification_invocation p (booking_verification c) snapshot) [o] evaluated_at = Ok r →
  rp_verdict r ≠ VERIFIED.
Proof.
  intros Hl Hr Hv. apply (evaluate_verified _ _ _ _ Hr) in Hv as (Hall & Hrank & _).
  rewrite independence_of_all in Hrank by done.
  pose proof (one_observation_level o (vi_execution_sources (verification_invocation p (booking_verification c) snapshot))).
  cbn [verification_invocation vi_plan booking_verification vp_required_level] in Hrank. rewrite Hl in Hrank. cbn in *. lia.
Qed.

(** C37. The synthetic booking slice verifies exactly what is so: when the ledger is asked for
    a submitted booking as its plan says, and what is collected is evaluated, the report says
    VERIFIED if and only if the command asks for no more than L2, the evidence is fresh, and
    the carrier holds, under the command's external reference, a booking that is still as
    received. *)
Theorem booking_verified_iff `{Sha256Laws, FloatRepr, DatetimeText, IsoReader, BookingReader} c p snapshot config now
    carrier turns w' o evaluated_at r :
  validate_command c = Ok () → is_shipment (tc_subject c) = false →
  head (pl_steps p) = Some (prepare_step c) →
  omap so_execution_source (sn_outputs snapshot) = [booked_source (pl_transaction_id p)] →
  bookings_ok (cn_data carrier) →
  let inv := verification_invocation p (booking_verification c) snapshot in
  ledger_collect send_carrier config now (collection_invocation inv (ledger_collection c)) (carrier, turns)
    = (w', CollectedObservation o) →
  evaluate_verification inv [o] evaluated_at = Ok r →
  (rp_verdict r = VERIFIED ↔
   tc_minimum_independence_level c = L2 ∧
   evaluated_at - seconds 3600 ≤ now ≤ evaluated_at + seconds 300 ∧
   ∃ row, by_external (tc_external_reference c) (cn_data w'.1) = Some row ∧ sb_booking_status row = RECEIVED).
Proof.
  intros Hc Hship Hfirst Hsources Hok inv Hcollect Hr. unfold inv in *.
  destruct (validated_command c Hc) as (_ & [(x & t & Es & _)|(profile & b & _ & Hb & _ & _ & Hl)]); [by rewrite Es in Hship|].
  destruct (slice_collected c p snapshot config now carrier turns w' o Hok Hcollect) as (row & Hrow & Hev & Htime).
  rewrite (evaluate_verified _ _ _ _ Hr).
  assert ((∀ o', o' ∈ [o] → admissible_evidence (verification_invocation p (booking_verification c) snapshot) evaluated_at o') ↔
    evaluated_at - seconds 3600 ≤ now ≤ evaluated_at + seconds 300) as Hwindow.
  { destruct Hev as (_ & Et & Ex & _ & _ & _ & Ee & _). split.
    - intros Hall. destruct (Hall o (list_elem_of_here _ _)) as (_ & _ & Hw & _). by rewrite Htime in Hw.
    - intros Hw o' ->%list_elem_of_singleton. unfold admissible_evidence. rewrite Ee, Htime.
      split; [exact Et|]. split; [exact Ex|]. by split. }
  rewrite Hwindow. split.
  - intros (Hw & Hrank & Hclaims). rewrite independence_of_all in Hrank, Hclaims by (by apply Hwindow).
    rewrite (ledger_independent c p snapshot Hsources _ _ o Hev) in Hrank, Hclaims. cbn [fst snd] in *.
    apply (slice_claims c p snapshot Hfirst b _ _ Hb Hev) in Hclaims.
    split; [|split; [done|by exists row]]. cbn [verification_invocation vi_plan booking_verification vp_required_level] in Hrank.
    destruct (tc_minimum_independence_level c); done || (cbn in Hl, Hrank; lia).
  - intros (Elevel & Hw & row' & Hrow' & Hs). assert (row' = row) as -> by congruence. split; [done|].
    rewrite independence_of_all by (by apply Hwindow).
    rewrite (ledger_independent c p snapshot Hsources _ _ o Hev). cbn [fst snd].
    split; [|exact (proj2 (slice_claims c p snapshot Hfirst b _ _ Hb Hev) Hs)].
    cbn [verification_invocation vi_plan booking_verification vp_required_level]. by rewrite Elevel.
Qed.

(** ** Examples *)

#[local] Existing Instances example_sha256 example_sha256_laws example_float_repr strict_reader.
#[local] Instance slice_datetimes : DatetimeText := canonical_datetime.
#[local] Instance slice_iso_reader : IsoReader := λ _, None.

Definition slice_command : TransactionCommand := {|
  tc_transaction_id := Some "tx-1"; tc_tenant_id := "t-1"; tc_transaction_type := BOOKING_CREATE;
  tc_external_reference := "PO-1"; tc_requested_at := tc_requested_at booking_command;
  tc_subject := SBooking "synthetic.dcsa.booking"; tc_parameters := PBooking example_parameters;
  tc_requested_effects := tc_requested_effects booking_command; tc_minimum_independence_level := L2;
  tc_risk_class := CONSEQUENTIAL_WRITE; tc_required_capabilities := tc_required_capabilities booking_command;
  tc_extensions := [] |}.
Definition slice_plan : ExecutionPlan := booking_plan slice_command "tx-1" booking_digest.

(** The outputs of the two steps; the second is the adapter's own result. *)
Definition slice_outputs : list StepOutput :=
  [{| so_step_id := "prepare-booking-draft"; so_output := []; so_effect_reference := None; so_execution_source := None |};
   match (submission "tx-1" (connect []) [delivered []; delivered []]).2 with
   | Ok (Some x) => {| so_step_id := "submit-booking"; so_output := ar_output x;
                       so_effect_reference := ar_effect_reference x; so_execution_source := ar_execution_source x |}
   | _ => {| so_step_id := "submit-booking"; so_output := []; so_effect_reference := None; so_execution_source := None |}
   end].
Definition slice_snapshot : ExecutionSnapshot := {|
  sn_transaction_id := "tx-1"; sn_workflow_id := "wf-1"; sn_status := Status.VERIFYING; sn_current_step_id := None;
  sn_awaiting_approval_step_id := None; sn_completed_step_ids := ["prepare-booking-draft"; "submit-booking"];
  sn_compensated_step_ids := []; sn_outputs := slice_outputs; sn_failure_code := None; sn_verification := None;
  sn_routing_decisions := []; sn_policy_decisions := []; sn_route_attempts := [] |}.
Definition slice_invocation : VerificationInvocation :=
  verification_invocation slice_plan (booking_verification slice_command) slice_snapshot.
Definition slice_collect (carrier : CarrierStore) :=
  ledger_collect send_carrier example_config 40
    (collection_invocation slice_invocation (ledger_collection slice_command)) (carrier, [delivered []]).
Definition slice_verdict (carrier : CarrierStore) : option VerificationVerdict :=
  match (slice_collect carrier).2 with
  | CollectedObservation o =>
      match evaluate_verification slice_invocation [o] 45 with Ok r => Some (rp_verdict r) | Err _ => None end
  | _ => None
  end.

(** Booked, then cancelled before the ledger is read. *)
Definition cancelled_store : CarrierStore :=
  (serve_carrier (PatchBooking (drawn_reference "1") (JObj [("bookingStatus", JStr "CANCELLED")]) None)
     (example_moment 20) booked).1.
Example slice_verdicts :
  slice_verdict booked = Some VERIFIED ∧ slice_verdict cancelled_store = Some NEEDS_REVIEW ∧
  slice_verdict (connect []) = None.
Proof. split_and!; vm_compute; reflexivity. Qed.

Lemma booking_verified_iff_witness :
  slice_verdict booked = Some VERIFIED ∧
  ∃ w', (slice_collect booked).1 = w' ∧
    ∃ row, by_external "PO-1" (cn_data w'.1) = Some row ∧ sb_booking_status row = RECEIVED.
Proof.
  assert (slice_verdict booked = Some VERIFIED) as Hv by (vm_compute; reflexivity). split; [exact Hv|].
  unfold slice_verdict in Hv. destruct (slice_collect booked) as [w' collected] eqn:Ec. exists w'. split; [done|].
  destruct collected as [o|e| |]; [|discriminate Hv..]. cbn [snd] in Hv.
  destruct (evaluate_verification slice_invocation [o] 45) as [r|e] eqn:Er; [|discriminate Hv]. injection Hv as Hv.
  assert (bookings_ok (cn_data booked)) as Hok.
  { apply (carrier_run_ok (connect [])); [exact empty_bookings_ok|]. apply star_one. by eexists _, _. }
  assert (omap so_execution_source (sn_outputs slice_snapshot) = [booked_source (pl_transaction_id slice_plan)]) as Hs
    by (vm_compute; reflexivity).
  exact (proj2 (proj2 (proj1 (booking_verified_iff slice_command slice_plan slice_snapshot example_config 40 booked _ w' o 45 r
    eq_refl eq_refl eq_refl Hs Hok Ec Er) Hv))).
Defined.
