(* ===== verification/Authentication.v ===== *)
(** * OIDC authentication (controlplane/authentication.py)

    Bearer tokens, the key providers and the claims of an accepted token.  Parameters: the keys
    and the verification of PyJWT ([Jwt]), Python's URL splitting ([UrlSplit]) and reading of a
    token's header ([HeaderReader]), and the HTTP exchange with the key endpoint. *)

From Stdlib Require Import Ascii SpecFloat.
From S2P Require Import Prelude.
From S2P Require Import Contracts.
From S2P Require Import Documents.
From S2P Require Import Mapping.
From S2P Require Import ControlModels.

(** ** Library code *)

(** What [PyJWK.from_dict] gives: a key, a [ValueError] or [TypeError], or another exception. *)
Inductive KeyParse (K : Type) :=
| ParsedKey (k : K)
| KeyValueError
| KeyOtherError.
Arguments ParsedKey {_} _.
Arguments KeyValueError {_}.
Arguments KeyOtherError {_}.

(** What [jwt.decode] gives: the claims, a [PyJWTError], or another exception. *)
Inductive JwtAnswer :=
| JwtClaims (claims : json)
| JwtError
| JwtOtherError.

(** [jwt.decode] with the required claims and no time checks. *)
Class Jwt (K : Type) := {
  from_dict : list (string * json) → KeyParse K;
  key_algorithm : K → string;
  jwt_decode : string → K → string → string → string → JwtAnswer }.

(** What PyJWT documents of [decode]: the issuer is the one given and the audience is named. *)
Class JwtLaws (K : Type) `{Jwt K} := {
  decoded_claims token k algorithm audience issuer claims :
    jwt_decode token k algorithm audience issuer = JwtClaims (JObj claims) →
    assoc "iss" claims = Some (JStr issuer) ∧
    (assoc "aud" claims = Some (JStr audience) ∨
     ∃ l, assoc "aud" claims = Some (JList l) ∧ JStr audience ∈ l) }.

Record SplitUrl := {
  su_scheme : string;
  su_hostname : option string;
  su_port_valid : bool;
  su_credentials : bool;
  su_query_or_fragment : bool }.
(** [urlsplit], which may raise a [ValueError]. *)
Class UrlSplit := urlsplit : string → option SplitUrl.
(** [json.loads(base64.urlsafe_b64decode(...))] of a padded segment: a value, a [ValueError], or the
    [RecursionError] of a text that nests too deep. *)
Inductive SegmentRead :=
| SegmentValue (value : json)
| SegmentValueError
| SegmentRecursionError.
Class HeaderReader := read_segment : string → SegmentRead.

(** ** Errors *)

(** [AuthenticationError], a [ValueError] and its kin, or another exception. *)
Inductive AuthFailure :=
| AuthenticationError (code message : string)
| AuthValueError
| AuthOtherError.

Definition MAX_TOKEN_BYTES : Z := 16384.
Definition MAX_JWKS_RESPONSE_BYTES : Z := 65536.
Definition MAX_KID_LENGTH : Z := 256.
Definition DEFAULT_ALLOWED_ALGORITHMS : list string := ["RS256"].
Definition SUPPORTED_ALGORITHMS : list string := ["RS256"; "RS384"; "RS512"; "ES256"; "ES384"; "ES512"].

Definition invalid_token : AuthFailure := AuthenticationError "invalid_token" "Bearer token is invalid".
Definition invalid_claims : AuthFailure := AuthenticationError "invalid_claims" "Identity token claims are invalid".

(** ** Configuration *)

(** [_validate_issuer], and [_validate_jwks_url] alike. *)
Definition validate_issuer `{UrlSplit} (value : json) : result AuthFailure string :=
  match value with
  | JStr s =>
      raise_if (bool_decide (s = EmptyString) || (2048 <? len s)) AuthValueError;;
      match urlsplit s with
      | None => Err AuthValueError
      | Some parsed =>
          raise_if (negb (bool_decide (su_scheme parsed = "https"))
                    || negb (opt_ok (λ h, negb (bool_decide (h = EmptyString))) (su_hostname parsed))
                    || is_none (su_hostname parsed)) AuthValueError;;
          raise_if (negb (su_port_valid parsed)) AuthValueError;;
          raise_if (su_credentials parsed || su_query_or_fragment parsed) AuthValueError;;
          Ok s
      end
  | _ => Err AuthValueError
  end.

(** [value.strip()]. *)
Definition str_strip (s : string) : string := py_strip (String.list_ascii_of_string s).

(** [_validate_identifier]. *)
Definition validate_identifier (value : json) : result AuthFailure string :=
  match value with
  | JStr s => if between 1 (len (str_strip s)) 256 then Ok (str_strip s) else Err AuthValueError
  | _ => Err AuthValueError
  end.

(** [_validate_algorithms]. *)
Definition validate_algorithms (algorithms : list string) : result AuthFailure (list string) :=
  raise_if (bool_decide (algorithms = []) || negb (forallb (λ a, mem a SUPPORTED_ALGORITHMS) algorithms))
    AuthValueError;;
  Ok algorithms.

(** ** The token's header *)

(** [_validate_token]. *)
Definition validate_token (token : string) : result AuthFailure () :=
  raise_if (bool_decide (token = EmptyString) || (MAX_TOKEN_BYTES <? utf8_len token)) invalid_token.

(** [_authenticated_at]. *)
Definition aware (now : Datetime) : result AuthFailure Z :=
  raise_if (naive now) AuthValueError;; Ok (instant now).

(** [token.split(".")]. *)
Definition segments (token : string) : list string :=
  map String.string_of_list_ascii (split_at 46 [] (String.list_ascii_of_string token)).

(** [_unverified_header]; a [RecursionError] matches none of its except clauses. *)
Definition unverified_header `{HeaderReader} (token : string) : result AuthFailure (list (string * json)) :=
  match segments token with
  | [encoded_header; _; _] =>
      match read_segment encoded_header with
      | SegmentValueError => Err invalid_token
      | SegmentRecursionError => Err AuthOtherError
      | SegmentValue (JObj header) => Ok header
      | SegmentValue _ => Err (AuthenticationError "invalid_header" "Bearer token header is invalid")
      end
  | _ => Err invalid_token
  end.

(** [_header_algorithm]. *)
Definition header_algorithm (header : list (string * json)) (allowed : list string) : result AuthFailure string :=
  match assoc "alg" header with
  | Some (JStr algorithm) =>
      raise_if (negb (mem algorithm allowed))
        (AuthenticationError "unsupported_algorithm" "Bearer token algorithm is not allowed");;
      raise_if (negb (is_none (assoc "crit" header)))
        (AuthenticationError "unsupported_critical_header" "Bearer token header is not supported");;
      Ok algorithm
  | _ => Err (AuthenticationError "unsupported_algorithm" "Bearer token algorithm is not allowed")
  end.

(** A key id. *)
Definition key_id (value : option json) : option string :=
  match value with
  | Some (JStr kid) => if between 1 (len kid) MAX_KID_LENGTH then Some kid else None
  | _ => None
  end.

(** [_header_kid]. *)
Definition header_kid (header : list (string * json)) : result AuthFailure string :=
  match key_id (assoc "kid" header) with
  | Some kid => Ok kid
  | None => Err (AuthenticationError "missing_key_id" "Bearer token has no valid key identifier")
  end.

(** ** Claims *)

(** [_claim_audiences]. *)
Definition claim_audiences (value : json) : result AuthFailure (list string) :=
  audiences ← match value with
              | JStr s => mapM_result validate_identifier [JStr s]
              | JList l => mapM_result validate_identifier l
              | _ => Err AuthValueError
              end;
  raise_if (bool_decide (audiences = []) || (8 <? Z.of_nat (length audiences)) || has_duplicates audiences)
    AuthValueError;;
  Ok audiences.

(** [round] to the nearest integer, ties to even. *)
Definition round_half_even (f : spec_float) : Z :=
  match f with
  | S754_finite s m e =>
      let z :=
        if 0 <=? e then Zpos m * 2 ^ e
        else
          let d := 2 ^ (- e) in
          let q := Zpos m / d in
          let r := Zpos m mod d in
          if 2 * r <? d then q else if d <? 2 * r then q + 1 else if Z.even q then q else q + 1 in
      if s then - z else z
  | _ => 0
  end.

(** [modf], then the fraction in microseconds. *)
Definition float_microseconds (f : spec_float) : Z :=
  match f with
  | S754_finite s m e =>
      let sign z := if s then - z else z in
      if 0 <=? e then sign (Zpos m * 2 ^ e) * 1000000
      else
        let d := 2 ^ (- e) in
        let fraction := binary_normalize 53 1024 (sign (Zpos m mod d)) e s in
        sign (Zpos m / d) * 1000000 + round_half_even (SFmul 53 1024 fraction (py_float 1000000))
  | _ => 0
  end.

(** [_claim_timestamp]: from 0001-01-01 to 9999-12-31. *)
Definition claim_timestamp (value : json) : result AuthFailure Z :=
  us ← match value with
       | JInt z => Ok (z * 1000000)
       | JFloat f => raise_if (negb (sf_is_finite f)) AuthValueError;; Ok (float_microseconds f)
       | _ => Err AuthValueError
       end;
  raise_if (negb (between (-62135596800000000) us 253402300799999999)) AuthValueError;;
  Ok us.

(** [claims.get(name)]: absent and [None] are the same. *)
Definition claim (name : string) (claims : list (string * json)) : option json :=
  match assoc name claims with Some JNull | None => None | Some v => Some v end.

(** [claims[name]]. *)
Definition required_claim (name : string) (claims : list (string * json)) : result AuthFailure json :=
  match assoc name claims with Some v => Ok v | None => Err AuthValueError end.

(** [_validate_time_claims]. *)
Definition validate_time_claims (claims : list (string * json)) (authenticated_at issued_at expires_at : Z)
    : result AuthFailure () :=
  match claim "nbf" claims with
  | Some not_before => start ← claim_timestamp not_before; raise_if (authenticated_at <? start) invalid_token
  | None => Ok ()
  end;;
  raise_if ((authenticated_at <? issued_at) || (expires_at <=? authenticated_at)) invalid_token.

(** [_optional_client_id]. *)
Definition optional_client_id (claims : list (string * json)) : result AuthFailure (option string) :=
  match claim "client_id" claims, claim "azp" claims with
  | Some v, _ | None, Some v => s ← validate_identifier v; Ok (Some s)
  | None, None => Ok None
  end.

(** [_principal_type]. *)
Definition principal_type (claims : list (string * json)) : PrincipalType :=
  let says name := match assoc name claims with
                   | Some (JStr s) => bool_decide (s = "client_credentials")
                   | _ => false
                   end in
  if says "token_use" || says "grant_type" then SERVICE_ACCOUNT else HUMAN.

(** [_token_id_digest]. *)
Definition token_id_digest `{Sha256} (token : string) (jti : option json) : string :=
  "sha256:" +:+ sha256_hex match jti with Some (JStr (String c s)) => String c s | _ => token end.

(** ** Key sets *)

(** What reading a key set raises. *)
Inductive JwksError := JwksValueError | JwksOtherError.

Section keys.
Context {K : Type} `{Jwt K}.

(** [use is None or use == "sig"]. *)
Definition signing_use (fields : list (string * json)) : bool :=
  match claim "use" fields with
  | None => true
  | Some (JStr use) => bool_decide (use = "sig")
  | Some _ => false
  end.

(** One turn of the loop of [_parse_jwks]. *)
Definition parse_key (parsed : list (string * K)) (raw_key : json) : result JwksError (list (string * K)) :=
  match raw_key with
  | JObj fields =>
      match key_id (assoc "kid" fields) with
      | Some kid =>
          raise_if (negb (is_none (assoc kid parsed))) JwksValueError;;
          if signing_use fields then
            match from_dict fields with
            | ParsedKey key =>
                if mem (key_algorithm key) SUPPORTED_ALGORITHMS then Ok (parsed ++ [(kid, key)]) else Ok parsed
            | KeyValueError => Err JwksValueError
            | KeyOtherError => Err JwksOtherError
            end
          else Ok parsed
      | None => Err JwksValueError
      end
  | _ => Err JwksValueError
  end.

(** [_parse_jwks]. *)
Definition parse_jwks (jwks : list (string * json)) : result JwksError (list (string * K)) :=
  match assoc "keys" jwks with
  | Some (JList (raw_key :: raw_keys)) =>
      parsed ← foldM parse_key [] (raw_key :: raw_keys);
      raise_if (bool_decide (length parsed = 0%nat)) JwksValueError;;
      Ok parsed
  | _ => Err JwksValueError
  end.

(** ** Providers *)

(** What awaiting [get_key] gives. *)
Inductive KeyAnswer :=
| KeyKnown (k : option K)
| KeyAuthentication (code message : string)
| KeyRaised.

Class JwksProvider (W : Type) := get_key : string → bool → W → W * KeyAnswer.

(** [StaticJwksProvider]. *)
Definition static_provider {W} (keys : list (string * K)) : JwksProvider W := λ kid _ w, (w, KeyKnown (assoc kid keys)).

(** A response of the key endpoint; [int] reads its content length. *)
Record JwksResponse := {
  jr_status : Z;
  jr_content_type : string;
  jr_content_length : option (option Z);
  jr_size : Z;
  jr_json : option json }.
Inductive JwksExchange :=
| JwksTimeout
| JwksTransportError
| JwksAnswered (r : JwksResponse).

(** [split(";", 1)[0].strip().lower()]. *)
Fixpoint before_semicolon (s : string) : string :=
  match s with
  | EmptyString => EmptyString
  | String c s' => if code c =? 59 then EmptyString else String c (before_semicolon s')
  end.
Definition jwks_media_type (content_type : string) : string := lower (str_strip (before_semicolon content_type)).

(** [_check_jwks_response_headers]. *)
Definition check_jwks_response_headers (r : JwksResponse) (maximum : Z) : result KeyAnswer () :=
  raise_if ((300 <=? jr_status r) && (jr_status r <? 400))
    (KeyAuthentication "jwks_redirect_rejected" "Identity key redirect was rejected");;
  raise_if ((jr_status r <? 200) || (300 <=? jr_status r))
    (KeyAuthentication "jwks_http_error" "Identity key endpoint returned an error");;
  raise_if (negb (mem (jwks_media_type (jr_content_type r)) ["application/json"; "application/jwk-set+json"]))
    (KeyAuthentication "invalid_jwks_content_type" "Identity key response is not JSON");;
  let invalid := KeyAuthentication "invalid_jwks_content_length" "Identity key response has invalid content length" in
  match jr_content_length r with
  | None => Ok ()
  | Some None => Err invalid
  | Some (Some declared_length) =>
      raise_if (declared_length <? 0) invalid;;
      raise_if (maximum <? declared_length)
        (KeyAuthentication "jwks_response_too_large" "Identity key response exceeds size limit")
  end.

(** [_fetch_keys], from what the exchange gave. *)
Definition fetch_keys (max_response_bytes : Z) (exchange : JwksExchange) : result KeyAnswer (list (string * K)) :=
  match exchange with
  | JwksTimeout => Err (KeyAuthentication "jwks_timeout" "Identity key request timed out")
  | JwksTransportError => Err (KeyAuthentication "jwks_transport_error" "Identity key request failed")
  | JwksAnswered r =>
      check_jwks_response_headers r max_response_bytes;;
      raise_if (max_response_bytes <? jr_size r)
        (KeyAuthentication "jwks_response_too_large" "Identity key response exceeds size limit");;
      let invalid := KeyAuthentication "invalid_jwks" "Identity key response is invalid" in
      match jr_json r with
      | Some (JObj jwks) =>
          match parse_jwks jwks with
          | Ok keys => Ok keys
          | Err JwksValueError => Err invalid
          | Err JwksOtherError => Err KeyRaised
          end
      | _ => Err invalid
      end
  end.

(** [HttpJwksProvider]: its keys, whether they were loaded, and the exchanges to come. *)
Record HttpJwksProvider := {
  hp_keys : list (string * K);
  hp_loaded : bool;
  hp_exchanges : list JwksExchange }.
(** [_validate_timeout]: a number from 0.1 to 30; [isfinite] overflows on an integer no float holds. *)
Definition validate_timeout (timeout : json) : result AuthFailure spec_float :=
  match timeout with
  | JInt z =>
      raise_if (negb (sf_is_finite (py_float z))) AuthOtherError;;
      raise_if (negb (between 1 z 30)) AuthValueError;;
      Ok (py_float z)
  | JFloat f =>
      raise_if (negb (sf_is_finite f)
                || negb (SFleb (SFdiv 53 1024 (py_float 1) (py_float 10)) f && SFleb f (py_float 30))) AuthValueError;;
      Ok f
  | _ => Err AuthValueError
  end.

(** [_validate_max_response_bytes]. *)
Definition validate_max_response_bytes (max_response_bytes : json) : result AuthFailure Z :=
  match max_response_bytes with
  | JInt z => raise_if (negb (between 1 z MAX_JWKS_RESPONSE_BYTES)) AuthValueError;; Ok z
  | _ => Err AuthValueError
  end.

(** Its [__init__], with the exchanges to come. *)
Definition make_http_provider `{UrlSplit} (url timeout max_response_bytes : json) (exchanges : list JwksExchange)
    : result AuthFailure (string * spec_float * Z * HttpJwksProvider) :=
  url ← validate_issuer url;
  timeout ← validate_timeout timeout;
  max_response_bytes ← validate_max_response_bytes max_response_bytes;
  Ok (url, timeout, max_response_bytes, {| hp_keys := []; hp_loaded := false; hp_exchanges := exchanges |}).

(** Its [get_key]; without an exchange left the request times out. *)
Definition http_get_key (max_response_bytes : Z) : JwksProvider HttpJwksProvider := λ kid refresh p,
  if refresh || negb (hp_loaded p) then
    let '(exchange, rest) := match hp_exchanges p with [] => (JwksTimeout, []) | x :: l => (x, l) end in
    match fetch_keys max_response_bytes exchange with
    | Ok keys => ({| hp_keys := keys; hp_loaded := true; hp_exchanges := rest |}, KeyKnown (assoc kid keys))
    | Err e => ({| hp_keys := hp_keys p; hp_loaded := hp_loaded p; hp_exchanges := rest |}, e)
    end
  else (p, KeyKnown (assoc kid (hp_keys p))).

(** ** The authenticator *)

Record OIDCAuthenticator := {
  oa_issuer : string;
  oa_audience : string;
  oa_allowed_algorithms : list string }.

(** [__init__]. *)
Definition make_authenticator `{UrlSplit} (issuer audience : json) (allowed : list string)
    : result AuthFailure OIDCAuthenticator :=
  issuer ← validate_issuer issuer;
  audience ← validate_identifier audience;
  allowed ← validate_algorithms allowed;
  Ok {| oa_issuer := issuer; oa_audience := audience; oa_allowed_algorithms := allowed |}.

Section authenticator.
Context `{UrlSplit, HeaderReader, Sha256} {W : Type} `{JwksProvider W} (a : OIDCAuthenticator).

(** [_key_for]. *)
Definition key_for (kid : string) (w : W) : W * result AuthFailure (option K) :=
  let failed answer := match answer with
                       | KeyKnown k => Ok k
                       | KeyAuthentication code message => Err (AuthenticationError code message)
                       | KeyRaised => Err (AuthenticationError "jwks_unavailable" "Identity key provider is unavailable")
                       end in
  match get_key kid false w with
  | (w', KeyKnown None) => let '(w'', answer) := get_key kid true w' in (w'', failed answer)
  | (w', answer) => (w', failed answer)
  end.

(** [_decode_claims]. *)
Definition decode_claims (token : string) (key : K) (algorithm : string) : result AuthFailure (list (string * json)) :=
  match jwt_decode token key algorithm (oa_audience a) (oa_issuer a) with
  | JwtError => Err invalid_token
  | JwtOtherError => Err AuthOtherError
  | JwtClaims (JObj claims) => Ok claims
  | JwtClaims _ => Err invalid_claims
  end.

(** [Principal(...)], whose issuer is stripped; its errors are [ValueError]s. *)
Definition claimed_principal (token : string) (claims : list (string * json)) (authenticated_at : Z)
    : result AuthFailure Principal :=
  issuer ← required_claim "iss" claims;
  subject ← required_claim "sub" claims ≫= validate_identifier;
  audiences ← required_claim "aud" claims ≫= claim_audiences;
  issued_at ← required_claim "iat" claims ≫= claim_timestamp;
  expires_at ← required_claim "exp" claims ≫= claim_timestamp;
  validate_time_claims claims authenticated_at issued_at expires_at;;
  issuer ← validate_issuer issuer;
  client_id ← optional_client_id claims;
  let p := {|
    pc_issuer := strip issuer; pc_subject := subject; pc_principal_type := principal_type claims;
    pc_audiences := audiences; pc_client_id := client_id;
    pc_token_id_digest := token_id_digest token (assoc "jti" claims); pc_issued_at := issued_at;
    pc_expires_at := expires_at; pc_authenticated_at := authenticated_at |} in
  match validate_principal p with Ok _ => Ok p | Err _ => Err AuthValueError end.

(** What [authenticate] makes of a [ValueError] while reading the claims. *)
Definition claims_invalid {A} (r : result AuthFailure A) : result AuthFailure A :=
  match r with Err AuthValueError => Err invalid_claims | _ => r end.

(** [authenticate]. *)
Definition authenticate_token (token : string) (now : Datetime) (w : W) : W * result AuthFailure Principal :=
  match (validate_token token;;
         authenticated_at ← aware now;
         header ← unverified_header token;
         algorithm ← header_algorithm header (oa_allowed_algorithms a);
         kid ← header_kid header;
         Ok (authenticated_at, algorithm, kid)) with
  | Err e => (w, Err e)
  | Ok (authenticated_at, algorithm, kid) =>
      let '(w', key) := key_for kid w in
      (w', key ← key;
           match key with
           | None => Err (AuthenticationError "unknown_key" "Identity signing key is unknown")
           | Some key =>
               raise_if (negb (bool_decide (key_algorithm key = algorithm)))
                 (AuthenticationError "invalid_key" "Identity signing key is invalid");;
               claims ← decode_claims token key algorithm;
               claims_invalid (claimed_principal token claims authenticated_at)
           end)
  end.

End authenticator.
End keys.

(** ** Lemmas: identifiers *)

Fixpoint drop_space (l : list ascii) : list ascii :=
  match l with
  | c :: l' => if py_space c then drop_space l' else l
  | [] => []
  end.

Lemma str_strip_list s :
  String.list_ascii_of_string (str_strip s) = rev (drop_space (rev (drop_space (String.list_ascii_of_string s)))).
Proof. apply String.list_ascii_of_string_of_list_ascii. Qed.

Definition begins_dense (l : list ascii) : Prop := ∀ c l', l = c :: l' → py_space c = false.

Lemma drop_space_dense l : begins_dense (drop_space l).
Proof. induction l as [|c l IH]; [by intros c l|]. cbn. destruct (py_space c) eqn:E; [done|]. by intros d l' [= <- _]. Qed.

Lemma drop_space_id l : begins_dense l → drop_space l = l.
Proof. destruct l as [|c l]; [done|]. intros H. cbn. by rewrite (H c l eq_refl). Qed.

Lemma drop_space_snoc l c : py_space c = false → ∃ l', drop_space (l ++ [c]) = l' ++ [c].
Proof.
  intros Hc. induction l as [|d l [l' IH]]; [exists []; cbn; by rewrite Hc|].
  cbn. destruct (py_space d); [by exists l'|by exists (d :: l)].
Qed.

Lemma str_strip_idem s : str_strip (str_strip s) = str_strip s.
Proof.
  unfold str_strip at 1. rewrite str_strip_list.
  change (String.string_of_list_ascii (rev (drop_space (rev (drop_space
    (rev (drop_space (rev (drop_space (String.list_ascii_of_string s))))))))) = str_strip s).
  pose proof (drop_space_dense (String.list_ascii_of_string s)) as Hd.
  change (str_strip s) with (String.string_of_list_ascii (rev (drop_space (rev (drop_space (String.list_ascii_of_string s)))))).
  destruct (drop_space (String.list_ascii_of_string s)) as [|c l]; [done|]. cbn [rev].
  pose proof (drop_space_dense (rev l ++ [c])) as Hx.
  destruct (drop_space_snoc (rev l) c (Hd c l eq_refl)) as [l' E]. rewrite E in *.
  rewrite (drop_space_id (rev (l' ++ [c]))).
  - by rewrite rev_involutive, (drop_space_id _ Hx).
  - rewrite rev_app_distr. cbn. intros d l'' [= <- _]. by apply (Hd c l).
Qed.

Lemma validate_identifier_ok v s :
  validate_identifier v = Ok s → ∃ t, v = JStr t ∧ s = str_strip t ∧ 1 ≤ len s ≤ 256.
Proof.
  destruct v as [| | | |t| |]; try done. cbn. destruct (between _ _ _) eqn:E; [|done]. intros [= <-].
  exists t. unfold between in E. boolify. done.
Qed.

Lemma validate_issuer_ok `{UrlSplit} v s : validate_issuer v = Ok s → v = JStr s.
Proof.
  destruct v as [| | | |t| |]; try done. cbn. rewrite raise_if_then. intros [_ Hv].
  destruct (urlsplit t) as [parsed|]; [|done]. rewrite !raise_if_then in Hv. by destruct Hv as (_ & _ & _ & [= ->]).
Qed.

Lemma claim_audiences_ok v l :
  claim_audiences v = Ok l →
  ∃ raw, (v = JList raw ∨ ∃ s, v = JStr s ∧ raw = [JStr s]) ∧ Forall2 (λ x s, validate_identifier x = Ok s) raw l.
Proof.
  unfold claim_audiences. intros (l' & Hl & [_ [= <-]]%raise_if_then)%bind_ok.
  destruct v as [| | | |s|raw|]; try done; apply mapM_result_Forall2 in Hl; eauto 7.
Qed.

(** ** Lemmas: key sets *)

Section key_sets.
Context {K : Type} `{Jwt K}.

Lemma parse_keys_app (l l' : list json) (keys : list (string * K)) :
  foldM parse_key keys (l ++ l') = (keys ← foldM parse_key keys l; foldM parse_key keys l').
Proof. revert keys. induction l as [|x l IH]; intros keys; [done|]. cbn. destruct (parse_key keys x); [apply IH|done]. Qed.

(** A signing key PyJWT has no name for makes the whole set unreadable, not just itself. *)
Lemma unknown_key_refuses_set (keys : list json) fields rest parsed kid :
  foldM parse_key [] keys = Ok parsed → key_id (assoc "kid" fields) = Some kid → assoc kid parsed = None →
  signing_use fields = true → from_dict fields = KeyOtherError →
  parse_jwks [("keys", JList (keys ++ JObj fields :: rest))] = Err JwksOtherError.
Proof.
  intros Hkeys Hkid Hnew Huse Hkey.
  assert (foldM parse_key [] (keys ++ JObj fields :: rest) = Err JwksOtherError) as Hf.
  { rewrite parse_keys_app, Hkeys. cbn. by rewrite Hkid, Hnew, Huse, Hkey. }
  unfold parse_jwks. change (assoc "keys" _) with (Some (JList (keys ++ JObj fields :: rest))).
  by destruct keys as [|x keys]; cbn [app] in *; rewrite Hf.
Qed.

End key_sets.

(** ** Lemmas: what an accepted token has *)

Section accepted.
Context {K : Type} `{Jwt K, UrlSplit, HeaderReader, Sha256} {W : Type} `{!JwksProvider (K:=K) W} (a : OIDCAuthenticator).

Lemma key_for_ok kid (w w' : W) k :
  key_for kid w = (w', Ok k) → ∃ refresh w0, get_key kid refresh w0 = (w', KeyKnown k).
Proof.
  unfold key_for. destruct (get_key kid false w) as [w1 [[k1|]|code message|]] eqn:E.
  - intros [= <- <-]. by exists false, w.
  - destruct (get_key kid true w1) as [w2 [k2|code message|]] eqn:E2; try done.
    intros [= <- <-]. by exists true, w1.
  - done.
  - done.
Qed.

Lemma claimed_principal_ok token claims now p :
  claimed_principal token claims now = Ok p →
  validate_principal p = Ok () ∧ pc_authenticated_at p = now ∧
  (∃ issuer, assoc "iss" claims = Some (JStr issuer) ∧ pc_issuer p = strip issuer) ∧
  (∃ subject, assoc "sub" claims = Some (JStr subject) ∧ pc_subject p = str_strip subject) ∧
  (∃ audiences, assoc "aud" claims = Some audiences ∧ claim_audiences audiences = Ok (pc_audiences p)) ∧
  (∀ v start, claim "nbf" claims = Some v → claim_timestamp v = Ok start → start ≤ now).
Proof.
  unfold claimed_principal, required_claim. intros (iss & Hiss & Hp)%bind_ok.
  destruct (assoc "iss" claims) as [x|]; [|done]. injection Hiss as ->.
  apply bind_ok in Hp as (subject & Hsub & Hp). destruct (assoc "sub" claims) as [x|]; [|done].
  apply validate_identifier_ok in Hsub as (t & -> & -> & _).
  apply bind_ok in Hp as (audiences & Haud & Hp). destruct (assoc "aud" claims) as [x|]; [|done].
  apply bind_ok in Hp as (issued_at & _ & Hp). apply bind_ok in Hp as (expires_at & _ & Hp).
  apply bind_ok in Hp as ([] & Ht & Hp). apply bind_ok in Hp as (issuer & Hissuer & Hp).
  apply validate_issuer_ok in Hissuer as ->. apply bind_ok in Hp as (client_id & _ & Hp).
  destruct (validate_principal _) as [[]|] eqn:Hv; [|done]. injection Hp as <-. cbn.
  split; [exact Hv|]. split_and!; eauto. intros v start Hn Hs. unfold validate_time_claims in Ht. rewrite Hn, Hs in Ht.
  cbn in Ht. apply raise_if_then in Ht as [Ht _]. boolify. done.
Qed.

End accepted.

(** ** Failures *)

(** The codes and messages a failure may show. *)
Definition PUBLIC_FAILURES : list (string * string) := [
  ("invalid_token", "Bearer token is invalid"); ("invalid_claims", "Identity token claims are invalid");
  ("invalid_header", "Bearer token header is invalid");
  ("unsupported_algorithm", "Bearer token algorithm is not allowed");
  ("unsupported_critical_header", "Bearer token header is not supported");
  ("missing_key_id", "Bearer token has no valid key identifier");
  ("unknown_key", "Identity signing key is unknown"); ("invalid_key", "Identity signing key is invalid");
  ("jwks_unavailable", "Identity key provider is unavailable");
  ("jwks_timeout", "Identity key request timed out"); ("jwks_transport_error", "Identity key request failed");
  ("jwks_redirect_rejected", "Identity key redirect was rejected");
  ("jwks_http_error", "Identity key endpoint returned an error");
  ("invalid_jwks_content_type", "Identity key response is not JSON");
  ("invalid_jwks_content_length", "Identity key response has invalid content length");
  ("jwks_response_too_large", "Identity key response exceeds size limit");
  ("invalid_jwks", "Identity key response is invalid")].

(** A failure that is one of them. *)
Definition public_failure (e : AuthFailure) : Prop :=
  ∃ code message, e = AuthenticationError code message ∧ (code, message) ∈ PUBLIC_FAILURES.

Ltac public := eexists _, _; split; [reflexivity|by apply (bool_decide_unpack _)].

Section failures.
Context {K : Type} `{Jwt K, UrlSplit, HeaderReader, Sha256} (a : OIDCAuthenticator) (max_response_bytes : Z).
#[local] Instance http_provider : JwksProvider (K:=K) HttpJwksProvider := http_get_key max_response_bytes.

Lemma fetch_keys_err exchange e :
  fetch_keys max_response_bytes exchange = Err e →
  e = KeyRaised ∨ ∃ code message, e = KeyAuthentication (K:=K) code message ∧ (code, message) ∈ PUBLIC_FAILURES.
Proof.
  assert (∀ code message, KeyAuthentication (K:=K) code message = e → bool_decide ((code, message) ∈ PUBLIC_FAILURES) = true →
    e = KeyRaised ∨ ∃ code message, e = KeyAuthentication (K:=K) code message ∧ (code, message) ∈ PUBLIC_FAILURES) as Hp
    by (intros code message <- Hb%bool_decide_eq_true; eauto).
  destruct exchange as [| |r]; cbn [fetch_keys]; [intros [= He]; by eapply Hp|intros [= He]; by eapply Hp|].
  destruct (check_jwks_response_headers r max_response_bytes) as [[]|e'] eqn:Ec.
  - cbn [mbind result_bind]. intros [He|Hr]%raise_if_err; [by eapply Hp|].
    destruct (jr_json r) as [[| | | | | |jwks]|]; try (injection Hr as He; by eapply Hp).
    destruct (parse_jwks jwks) as [keys|[]]; [done|injection Hr as He; by eapply Hp|]. injection Hr as <-. by left.
  - cbn [mbind result_bind]. intros [= ->]. unfold check_jwks_response_headers in Ec. cbv zeta in Ec.
    apply raise_if_err in Ec as [He|Ec]; [by eapply Hp|]. apply raise_if_err in Ec as [He|Ec]; [by eapply Hp|].
    apply raise_if_err in Ec as [He|Ec]; [by eapply Hp|].
    destruct (jr_content_length r) as [[declared|]|]; [|injection Ec as He; by eapply Hp|done].
    apply raise_if_err in Ec as [He|Ec]; [by eapply Hp|]. destruct (_ <? declared); [|done]. injection Ec as He. by eapply Hp.
Qed.

(** A key the HTTP provider gives is one it then holds; its failures are public or opaque. *)
Lemma http_answer kid refresh (w w' : HttpJwksProvider) answer :
  get_key kid refresh w = (w', answer) →
  (∃ key, answer = KeyKnown key ∧ assoc kid (hp_keys w') = key) ∨ answer = KeyRaised ∨
  ∃ code message, answer = KeyAuthentication code message ∧ (code, message) ∈ PUBLIC_FAILURES.
Proof.
  unfold get_key, http_provider, http_get_key. destruct (refresh || negb (hp_loaded w)).
  - destruct (match hp_exchanges w with [] => _ | _ => _ end) as [exchange rest].
    destruct (fetch_keys max_response_bytes exchange) as [keys|e] eqn:E; intros [= <- <-]; [left; eauto|].
    right. by eapply fetch_keys_err.
  - intros [= <- <-]. left. eauto.
Qed.

Lemma key_for_err kid (w w' : HttpJwksProvider (K:=K)) e : key_for kid w = (w', Err e) → public_failure e.
Proof.
  assert (∀ w0 w1 answer refresh, get_key kid refresh w0 = (w1, answer) →
    match answer with
    | KeyKnown k => Ok k
    | KeyAuthentication code message => Err (AuthenticationError code message)
    | KeyRaised => Err (AuthenticationError "jwks_unavailable" "Identity key provider is unavailable")
    end = Err e → public_failure e) as Ha.
  { intros w0 w1 answer refresh [(k & -> & _)|[->|(code & message & -> & Hin)]]%http_answer; [done|..]; intros [= <-].
    - public.
    - by exists code, message. }
  unfold key_for. destruct (get_key kid false w) as [w1 answer] eqn:E.
  destruct answer as [[k|]|code message|].
  - done.
  - destruct (get_key kid true w1) as [w2 answer] eqn:E2. intros [= _ Hr]. by eapply Ha.
  - intros [= _ Hr]. eapply Ha; [exact E|]. cbn. by rewrite Hr.
  - intros [= _ Hr]. eapply Ha; [exact E|]. cbn. by rewrite Hr.
Qed.

End failures.

(** What an accepted token's header and claims are. *)
Definition accepted_token {K} `{Jwt K, HeaderReader} (a : OIDCAuthenticator) (keys : list (string * K)) (token : string)
    (now : Datetime) (p : Principal) : Prop :=
  ∃ header kid algorithm key claims,
    unverified_header token = Ok header ∧ assoc "alg" header = Some (JStr algorithm) ∧
    assoc "crit" header = None ∧ key_id (assoc "kid" header) = Some kid ∧
    algorithm ∈ oa_allowed_algorithms a ∧ algorithm ∈ SUPPORTED_ALGORITHMS ∧
    assoc kid keys = Some key ∧ key_algorithm key = algorithm ∧
    jwt_decode token key algorithm (oa_audience a) (oa_issuer a) = JwtClaims (JObj claims) ∧
    (∃ subject, assoc "sub" claims = Some (JStr subject) ∧ pc_subject p = str_strip subject) ∧
    (∀ v start, claim "nbf" claims = Some v → claim_timestamp v = Ok start → start ≤ instant now).

Section authentication.
Context {K : Type} `{JwtLaws K, UrlSplit, HeaderReader, Sha256} (a : OIDCAuthenticator) (max_response_bytes : Z).
#[local] Instance http_keys : JwksProvider (K:=K) HttpJwksProvider := http_get_key max_response_bytes.

(** A header that nests too deep for the JSON decoder. *)
Definition header_too_deep (token : string) : Prop :=
  ∃ header payload signature, segments token = [header; payload; signature] ∧ read_segment header = SegmentRecursionError.

Lemma header_cases token e :
  unverified_header token = Err e → public_failure e ∨ (e = AuthOtherError ∧ header_too_deep token).
Proof.
  unfold unverified_header, header_too_deep.
  destruct (segments token) as [|x [|y [|z [|]]]] eqn:Es; try (intros [= <-]; left; public).
  destruct (read_segment x) as [[| | | | | |header]| |] eqn:Er; try (intros [= <-]; left; public).
  intros [= <-]. right. split; [done|]. by exists x, y, z.
Qed.

(** Such a token escapes every except clause. *)
Lemma deep_header_escapes token now w :
  validate_token token = Ok () → naive now = false → header_too_deep token →
  (authenticate_token (K:=K) a token now w).2 = Err AuthOtherError.
Proof.
  intros Ht Hn (x & y & z & Hs & Hr). unfold authenticate_token, aware, unverified_header.
  by rewrite Ht, Hn, Hs, Hr.
Qed.

Lemma algorithm_cases header allowed r :
  header_algorithm header allowed = r →
  match r with
  | Ok algorithm => assoc "alg" header = Some (JStr algorithm) ∧ algorithm ∈ allowed ∧ assoc "crit" header = None
  | Err e => public_failure e
  end.
Proof.
  intros <-. unfold header_algorithm. destruct (assoc "alg" header) as [[| | | |algorithm| |]|]; try public.
  destruct (mem algorithm allowed) eqn:Hm; cbn; [|public]. apply mem_true in Hm.
  destruct (assoc "crit" header); cbn; [public|]. done.
Qed.

(** What reading the claims may raise. *)
Definition claims_error (e : AuthFailure) : Prop := e = AuthValueError ∨ e = invalid_token.
Ltac claims_raise := raises ltac:(first [left; reflexivity | right; reflexivity]).

Lemma validate_identifier_raise v : raises_only claims_error (validate_identifier v).
Proof. unfold validate_identifier. claims_raise. Qed.
#[local] Hint Resolve validate_identifier_raise : raises.

Lemma claim_audiences_raise v : raises_only claims_error (claim_audiences v).
Proof. unfold claim_audiences. claims_raise. Qed.

Lemma claim_timestamp_raise v : raises_only claims_error (claim_timestamp v).
Proof. unfold claim_timestamp. claims_raise. Qed.
#[local] Hint Resolve claim_audiences_raise claim_timestamp_raise : raises.

Lemma validate_issuer_raise v : raises_only claims_error (validate_issuer v).
Proof. unfold validate_issuer. claims_raise. Qed.

Lemma validate_time_claims_raise claims now issued_at expires_at :
  raises_only claims_error (validate_time_claims claims now issued_at expires_at).
Proof. unfold validate_time_claims. claims_raise. Qed.
#[local] Hint Resolve validate_issuer_raise validate_time_claims_raise : raises.

Lemma claimed_principal_raise token claims now : raises_only claims_error (claimed_principal token claims now).
Proof. unfold claimed_principal, required_claim, optional_client_id. claims_raise. Qed.

Lemma claims_invalid_cases {A} (r : result AuthFailure A) : raises_only claims_error r →
  match claims_invalid r with Ok x => r = Ok x | Err e => public_failure e end.
Proof. destruct r as [x|e]; [done|]. intros [->| ->]; cbn; public. Qed.

(** The lifetime of a valid principal. *)
Lemma principal_lifetime p :
  validate_principal p = Ok () → pc_issued_at p ≤ pc_authenticated_at p < pc_expires_at p.
Proof. unfold validate_principal. rewrite !raise_if_then. intros (_ & _ & _ & Hl%raise_if_ok). boolify. lia. Qed.

(** The configured audience is among the audiences of a verified token. *)
Lemma audience_named audience raw claimed l :
  audience = str_strip raw → (claimed = JStr audience ∨ ∃ l, claimed = JList l ∧ JStr audience ∈ l) →
  claim_audiences claimed = Ok l → audience ∈ l.
Proof.
  intros Ha Hc (raws & Hraw & Hl)%claim_audiences_ok.
  assert (JStr audience ∈ raws) as Hin.
  { destruct Hc as [->|(l' & -> & Hin)], Hraw as [Hx|(s & Hx & ->)]; try done; injection Hx as <-; [by apply list_elem_of_singleton|done]. }
  apply list_elem_of_lookup in Hin as [i Hi]. destruct (Forall2_lookup_l _ _ _ _ _ Hl Hi) as (s & Hs & Hv).
  apply validate_identifier_ok in Hv as (t & [= <-] & -> & _). rewrite Ha, str_strip_idem in Hs.
  rewrite Ha. by eapply list_elem_of_lookup_2.
Qed.

(** What the claims PyJWT verified make of the principal. *)
Lemma decoded_principal token key algorithm claims now p raw :
  oa_audience a = str_strip raw →
  jwt_decode token key algorithm (oa_audience a) (oa_issuer a) = JwtClaims (JObj claims) →
  claimed_principal token claims now = Ok p →
  (validate_principal p = Ok () ∧ pc_issuer p = strip (oa_issuer a) ∧ oa_audience a ∈ pc_audiences p ∧
   pc_authenticated_at p = now ∧ pc_issued_at p ≤ now < pc_expires_at p) ∧
  (∃ subject, assoc "sub" claims = Some (JStr subject) ∧ pc_subject p = str_strip subject) ∧
  (∀ v start, claim "nbf" claims = Some v → claim_timestamp v = Ok start → start ≤ now).
Proof.
  intros Hraw [Hiss Haud]%decoded_claims (Hv & Hnow & (iss & Hiss' & Hpi) & Hsub & (auds & Haud' & Hpa) & Hnbf)%claimed_principal_ok.
  rewrite Hiss in Hiss'. injection Hiss' as <-. pose proof (principal_lifetime _ Hv) as Hl. rewrite Hnow in Hl.
  split_and!; try done; [|lia|lia]. eapply (audience_named _ raw); [done| |done].
  destruct Haud as [Ha|(l & Ha & Hin)]; rewrite Ha in Haud'; injection Haud' as <-; eauto.
Qed.

Lemma public_outcome (P Q : Prop) e :
  public_failure e →
  match e with AuthenticationError _ _ => public_failure e | AuthValueError => P | AuthOtherError => Q end.
Proof. intros Hp. pose proof Hp as (code & message & -> & _). done. Qed.

(** C40. Authentication fails closed: an accepted token has a header that names an allowed and
    supported algorithm, no critical extension, and a key of the provider with that very
    algorithm; PyJWT has verified it with that key for the configured issuer and audience, and
    its principal is valid, of that issuer, for that audience and within its lifetime at the
    time given.  Every other token fails with one of the public codes and messages, which show
    nothing of it, except that a naive clock raises a [ValueError], and that the exception of a
    header nested too deep for the JSON decoder, or one of PyJWT that is none of its own,
    escapes. *)
Theorem authentication_fails_closed issuer audience allowed token now (w w' : HttpJwksProvider (K:=K)) r :
  make_authenticator issuer audience allowed = Ok a →
  authenticate_token (K:=K) a token now w = (w', r) →
  match r with
  | Ok p =>
      accepted_token a (hp_keys w') token now p ∧ validate_principal p = Ok () ∧
      pc_issuer p = strip (oa_issuer a) ∧ oa_audience a ∈ pc_audiences p ∧
      pc_authenticated_at p = instant now ∧ pc_issued_at p ≤ instant now < pc_expires_at p
  | Err (AuthenticationError _ _ as e) => public_failure e
  | Err AuthValueError => naive now = true
  | Err AuthOtherError =>
      header_too_deep token ∨
      ∃ key algorithm, jwt_decode token key algorithm (oa_audience a) (oa_issuer a) = JwtOtherError
  end.
Proof.
  intros Ha. unfold make_authenticator in Ha. apply bind_ok in Ha as (iss & _ & Ha).
  apply bind_ok in Ha as (aud & Haud & Ha). apply bind_ok in Ha as (algs & Halgs & Ha). injection Ha as Ea.
  apply validate_identifier_ok in Haud as (raw & _ & Haud & _).
  apply raise_if_then in Halgs as [Hsup [= ->]]. boolify. rewrite forallb_forall in H5.
  assert (oa_audience a = str_strip raw) as Hraw by (by rewrite <- Ea).
  assert (∀ x, In x (oa_allowed_algorithms a) → mem x SUPPORTED_ALGORITHMS = true) as Hsup by (by rewrite <- Ea).
  clear Ea H5.
  unfold authenticate_token, validate_token, aware.
  destruct (raise_if _ invalid_token) as [[]|e] eqn:Et; cbn [mbind result_bind];
    [|intros [= <- <-]; destruct (_ || _) in Et; [injection Et as <-; public|done]].
  destruct (naive now) eqn:Hn; [by intros [= <- <-]|]. cbn [mbind result_bind raise_if].
  destruct (unverified_header token) as [header|e] eqn:Hh; cbn [mbind result_bind];
    [|intros [= <- <-]; apply header_cases in Hh as [Hp|[-> Hd]]; [by apply public_outcome|by left]].
  pose proof (algorithm_cases header (oa_allowed_algorithms a) _ eq_refl) as Hal.
  destruct (header_algorithm header _) as [algorithm|e]; cbn [mbind result_bind];
    [|intros [= <- <-]; by apply public_outcome]. destruct Hal as (Hal & Hin & Hcrit).
  unfold header_kid. destruct (key_id (assoc "kid" header)) as [kid|] eqn:Hk; cbn [mbind result_bind];
    [|intros [= <- <-]; public].
  destruct (key_for kid w) as [w1 [[key|]|e]] eqn:Hf; cbn [mbind result_bind]; intros [= <- <-];
    [|public|by eapply public_outcome, key_for_err].
  apply key_for_ok in Hf as (refresh & w0 & [(k & [= <-] & Hkey)|[?|(? & ? & ? & _)]]%http_answer); [|done..].
  destruct (bool_decide (key_algorithm key = algorithm)) eqn:Hka; cbn [mbind result_bind negb raise_if]; [|public].
  unfold decode_claims. destruct (jwt_decode _ _ _ _ _) as [[| | | | | |claims]| |] eqn:Hd; cbn [mbind result_bind];
    try public; [|by right; exists key, algorithm].
  pose proof (claims_invalid_cases _ (claimed_principal_raise token claims (instant now))) as Hc.
  destruct (claims_invalid _) as [p|e]; [|by apply public_outcome].
  destruct (decoded_principal _ _ _ _ _ _ raw Hraw Hd Hc) as (Hp & Hsub & Hnbf).
  split; [|exact Hp]. boolify. exists header, kid, algorithm, key, claims. split_and!; try done.
  apply mem_true, Hsup. by apply list_elem_of_In.
Qed.

End authentication.

(** ** Examples *)

Module AuthExample.

Definition issuer : string := "https://id.example.com/".
(** A key is its algorithm's name; an OKP key on an unknown curve has none. *)
#[local] Instance named_keys : Jwt string := {
  from_dict fields := match assoc "alg" fields with
                      | Some (JStr algorithm) => ParsedKey algorithm
                      | _ => match assoc "kty" fields with Some _ => KeyOtherError | None => KeyValueError end
                      end;
  key_algorithm k := k;
  jwt_decode _ _ _ audience issuer := JwtClaims (JObj [
    ("iss", JStr issuer); ("sub", JStr " user-1 "); ("aud", JList [JStr "other"; JStr audience]);
    ("iat", JInt 1767225600); ("exp", JInt 1767229200); ("nbf", JInt 1767225600); ("azp", JStr "portal")]) }.
#[local] Instance named_keys_laws : JwtLaws string.
Proof.
  split. intros token k algorithm audience iss claims [= <-]. split; [done|]. right. eexists. split; [done|].
  apply list_elem_of_further, list_elem_of_here.
Qed.
#[local] Instance https_only : UrlSplit := λ url,
  Some {| su_scheme := if String.prefix "https://" url then "https" else "http"; su_hostname := Some "id.example.com";
          su_port_valid := true; su_credentials := false; su_query_or_fragment := false |}.
#[local] Instance one_header : HeaderReader := λ segment,
  if String.prefix "eyJ" segment then SegmentValue (JObj [("alg", JStr "RS256"); ("kid", JStr "k-1")])
  else if String.prefix "W1tb" segment then SegmentRecursionError else SegmentValueError.
#[local] Existing Instance example_sha256.

Definition key_set : list (string * json) := [("keys", JList [
  JObj [("kid", JStr "k-0"); ("use", JStr "enc")];
  JObj [("kid", JStr "k-1"); ("use", JStr "sig"); ("alg", JStr "RS256")]])].
Definition provider : HttpJwksProvider (K:=string) := {|
  hp_keys := []; hp_loaded := false;
  hp_exchanges := [JwksAnswered {|
    jr_status := 200; jr_content_type := "application/jwk-set+json ; charset=utf-8"; jr_content_length := Some (Some 90);
    jr_size := 90; jr_json := Some (JObj key_set) |}] |}.
Definition authenticator : OIDCAuthenticator := {|
  oa_issuer := issuer; oa_audience := "cargomesh"; oa_allowed_algorithms := ["RS256"] |}.
Definition at_ (seconds : Z) : Datetime := {| dt_local := seconds * 1000000; dt_offset := Some 0 |}.

#[local] Instance provider_keys : JwksProvider (K:=string) HttpJwksProvider := http_get_key 65536.

Example authentication_refusals :
  (authenticate_token (K:=string) authenticator "eyJ.x" (at_ 1767225600) provider).2 = Err invalid_token ∧
  (authenticate_token (K:=string) authenticator "x.y.z" (at_ 1767225600) provider).2 = Err invalid_token ∧
  (authenticate_token (K:=string) authenticator "eyJ.y.z" (at_ 1767225599) provider).2 = Err invalid_token ∧
  (authenticate_token (K:=string) authenticator "eyJ.y.z" (at_ 1767229200) provider).2 = Err invalid_token ∧
  (authenticate_token (K:=string) authenticator "eyJ.y.z" (at_ 1767225600) {| hp_keys := []; hp_loaded := true; hp_exchanges := [] |}).2
  = Err (AuthenticationError "jwks_timeout" "Identity key request timed out") ∧
  (authenticate_token (K:=string) authenticator "W1tb.y.z" (at_ 1767225600) provider).2 = Err AuthOtherError.
Proof. split_and!; vm_compute; reflexivity. Qed.

(** The set with an OKP key beside the RS256 one is refused. *)
Example key_set_refused :
  parse_jwks (K:=string) [("keys", JList [JObj [("kid", JStr "k-1"); ("alg", JStr "RS256")]; JObj [("kid", JStr "k-2"); ("kty", JStr "OKP")]])]
  = Err JwksOtherError.
Proof. reflexivity. Qed.

Lemma authentication_fails_closed_witness :
  ∃ w p, authenticate_token (K:=string) authenticator "eyJ.y.z" (at_ 1767225600) provider = (w, Ok p) ∧
    accepted_token authenticator (hp_keys w) "eyJ.y.z" (at_ 1767225600) p ∧ pc_issued_at p ≤ 1767225600000000 < pc_expires_at p.
Proof.
  destruct (authenticate_token (K:=string) authenticator "eyJ.y.z" (at_ 1767225600) provider) as [w r] eqn:Hr.
  assert (make_authenticator (JStr issuer) (JStr " cargomesh ") ["RS256"] = Ok authenticator) as Hmake by (vm_compute; reflexivity).
  pose proof (authentication_fails_closed authenticator 65536 _ _ _ "eyJ.y.z" (at_ 1767225600) provider w r Hmake Hr) as Ht.
  assert ((λ r, match r with Ok _ => true | Err _ => false end)
    (authenticate_token (K:=string) authenticator "eyJ.y.z" (at_ 1767225600) provider).2 = true) as Hok by (vm_compute; reflexivity).
  rewrite Hr in Hok. destruct r as [p|e]; [|discriminate Hok]. destruct Ht as (Ha & _ & _ & _ & _ & Hl).
  exists w, p. split; [reflexivity|]. split; [exact Ha|exact Hl].
Defined.

End AuthExample.
