(* ===== verification/ChannelPlanner.v ===== *)
(** * Attended channel plans (channels/planner.py)

    The steps of EDI and attended-human channels, and their compilation into an execution
    plan. *)

From Stdlib Require Import Ascii SpecFloat.
From S2P Require Import Prelude.
From S2P Require Import Contracts.
From S2P Require Import Routing.
From S2P Require Import Verification.
From S2P Require Import RuntimeModels.
From S2P Require Import ControlModels.

Definition CHANNEL_PLAN_MAX_INPUT_BYTES : Z := 65536.
Definition CHANNEL_PLAN_MAX_INPUT_DEPTH : Z := 8.

(** ** Metadata *)

(** [_SECRET_KEY_RE]: the words of the control plane. *)
Definition channel_secret_key (key : string) : bool := secret_search control_secret_words true key.
(** [_DOCUMENT_KEY_RE]. *)
Definition document_words : list string := ["body"; "content"; "document"; "edi"; "mime"; "pdf"; "payload"; "raw"; "source"].
Definition document_key (key : string) : bool :=
  secret_search document_words true key && negb (ends_with "digest" (lower key) || ends_with "reference" (lower key)).

(** [json.dumps(value, ensure_ascii=False, separators=(",", ":"))], which keeps the order of
    keys and writes floats that are not finite. *)
Fixpoint json_plain `{FloatRepr} (value : json) : string :=
  match value with
  | JNull => "null"
  | JBool true => "true"
  | JBool false => "false"
  | JInt z => pretty.pretty z
  | JFloat S754_nan => "NaN"
  | JFloat (S754_infinity s) => if s then "-Infinity" else "Infinity"
  | JFloat f => float_repr f
  | JStr s => json_string s
  | JList l => "[" +:+ String.concat "," (map json_plain l) +:+ "]"
  | JObj fields =>
      "{" +:+ String.concat "," (map (λ kv, json_string kv.1 +:+ ":" +:+ json_plain kv.2) fields) +:+ "}"
  end.

Section metadata.
Context `{FloatRepr}.

(** [len(encoded) > CHANNEL_PLAN_MAX_INPUT_BYTES]. *)
Definition encoded_too_large (value : json) : bool := CHANNEL_PLAN_MAX_INPUT_BYTES <? utf8_len (json_plain value).

(** [_validate_metadata] on JSON values. *)
Fixpoint validate_metadata (depth : Z) (value : json) : result string () :=
  raise_if (CHANNEL_PLAN_MAX_INPUT_DEPTH <? depth) "channel input exceeds maximum nesting depth";;
  match value with
  | JObj fields =>
      foldM (λ _ kv,
        raise_if (channel_secret_key kv.1) "channel input contains a secret-like key";;
        raise_if (document_key kv.1) "channel input contains raw document content";;
        validate_metadata (depth + 1) kv.2) () fields
  | JList l => foldM (λ _ item, validate_metadata (depth + 1) item) () l
  | JStr s => raise_if (contains "UNB+" s || contains "UNH+" s) "channel input contains raw EDI content"
  | _ => Ok ()
  end;;
  raise_if (encoded_too_large value) "channel input exceeds size limit".

(** ** Steps *)

Record ChannelStepSpec := {
  cs_step_id : string;
  cs_capability : string;
  cs_adapter : string;
  cs_operation : string;
  cs_execution_channel : ExecutionChannel;
  cs_risk_class : RiskClass;
  cs_input : list (string * json);
  cs_artifact_digest_reference : option string;
  cs_requires_approval : bool;
  cs_approval_timeout_seconds : option Z;
  cs_timeout_seconds : Z;
  cs_retry : RetryPolicySpec;
  cs_depends_on : list string }.

(** [validate_artifact_digest] and [validate_step], after the field constraints. *)
Definition validate_channel_step (s : ChannelStepSpec) : result string () :=
  validate_retry_spec (cs_retry s);;
  raise_if (negb (Name_ok (cs_step_id s) && Name_ok (cs_capability s) && Name_ok (cs_adapter s)
                  && Name_ok (cs_operation s) && max_length 32 (cs_input s)
                  && opt_ok (λ t, between 1 t 604800) (cs_approval_timeout_seconds s)
                  && between 1 (cs_timeout_seconds s) 86400)) "field constraint";;
  raise_if (negb (optional_digest_ok (cs_artifact_digest_reference s)))
    "artifact digest reference must be a lowercase sha256 digest";;
  raise_if (negb (bool_decide (cs_execution_channel s = EDI) || bool_decide (cs_execution_channel s = Contracts.HUMAN)))
    "channel step must use EDI or HUMAN";;
  raise_if (has_duplicates (cs_depends_on s)) "channel step dependencies must be unique";;
  raise_if (mem (cs_step_id s) (cs_depends_on s)) "channel step cannot depend on itself";;
  (if negb (is_read_only (cs_risk_class s)) then
     raise_if (negb (cs_requires_approval s)) "effectful channel steps require approval";;
     raise_if (negb (rt_maximum_attempts (cs_retry s) =? 1)) "effectful channel steps allow one attempt"
   else
     raise_if (negb (is_none (cs_approval_timeout_seconds s)) && negb (cs_requires_approval s))
       "approval timeout requires approval");;
  validate_metadata 0 (JObj (cs_input s)).

(** ** Compilation *)

(** [_plan_input]. *)
Definition plan_input (s : ChannelStepSpec) : result string (list (string * json)) :=
  values ← match cs_artifact_digest_reference s with
           | Some digest =>
               raise_if (negb (is_none (assoc "artifact_digest_reference" (cs_input s))))
                 "artifact digest reference must be declared once";;
               Ok (cs_input s ++ [("artifact_digest_reference", JStr digest)])
           | None => Ok (cs_input s)
           end;
  validate_metadata 0 (JObj values);;
  Ok values.

(** [ExecutionStep(...)] as the comprehension builds it. *)
Definition step_of (s : ChannelStepSpec) (input : list (string * json)) : ExecutionStep := {|
  st_step_id := cs_step_id s; st_capability := cs_capability s; st_adapter := cs_adapter s;
  st_operation := cs_operation s; st_risk_class := cs_risk_class s; st_input := input;
  st_depends_on := cs_depends_on s; st_timeout_seconds := cs_timeout_seconds s; st_retry := cs_retry s;
  st_requires_approval := cs_requires_approval s;
  st_approval_timeout_seconds := cs_approval_timeout_seconds s; st_compensation := None;
  st_route_candidate_id := None; st_fallback_on_error_codes := []; st_unknown_effect_error_codes := [];
  st_route_fallbacks := []; st_execution_channel := cs_execution_channel s;
  st_credential_binding_digest := None |}.
Definition runtime_step (s : ChannelStepSpec) : result string ExecutionStep :=
  input ← plan_input s;
  validate_step (step_of s input);;
  Ok (step_of s input).

(** The loop over [frozen_steps] that grows [available]. *)
Fixpoint topologically_ordered (available : list string) (steps : list ChannelStepSpec) : bool :=
  match steps with
  | [] => true
  | s :: steps' =>
      forallb (λ d, mem d available) (cs_depends_on s) && topologically_ordered (cs_step_id s :: available) steps'
  end.

(** [max(..., key=_risk_rank)] of at least one step. *)
Definition calculated_risk (steps : list ChannelStepSpec) : RiskClass :=
  foldl (λ m s, if RISK_RANK m <? RISK_RANK (cs_risk_class s) then cs_risk_class s else m) READ_ONLY steps.

(** The arguments of [compile]. *)
Record ChannelPlan := {
  ch_transaction_id : string;
  ch_tenant_id : string;
  ch_business_digest : string;
  ch_verification_level : VerificationLevel;
  ch_verification : option VerificationPlan;
  ch_steps : list ChannelStepSpec;
  ch_environment_id : string;
  ch_data_classification : DataClassification;
  ch_risk_class : option RiskClass }.

(** [ExecutionPlan(...)]. *)
Definition plan_of (c : ChannelPlan) (steps : list ExecutionStep) : ExecutionPlan := {|
  pl_transaction_id := ch_transaction_id c; pl_tenant_id := ch_tenant_id c;
  pl_environment_id := ch_environment_id c; pl_business_digest := ch_business_digest c;
  pl_risk_class := calculated_risk (ch_steps c); pl_verification_level := ch_verification_level c;
  pl_data_classification := ch_data_classification c; pl_steps := steps;
  pl_verification := ch_verification c; pl_routing_decisions := []; pl_policy_decisions := [] |}.

(** [ChannelPlanCompiler.compile]; the steps and the verification plan are validated already. *)
Definition compile_channel_plan (c : ChannelPlan) : result string ExecutionPlan :=
  raise_if (negb (Digest_ok (ch_business_digest c))) "business digest must be a lowercase sha256 digest";;
  raise_if (is_nil (ch_steps c)) "channel plan requires at least one step";;
  raise_if (has_duplicates (map cs_step_id (ch_steps c))) "channel plan step ids must be unique";;
  raise_if (negb (topologically_ordered [] (ch_steps c)))
    "channel plan dependencies must be topologically ordered";;
  raise_if (negb (opt_ok (λ r, bool_decide (r = calculated_risk (ch_steps c))) (ch_risk_class c)))
    "channel plan risk summary is inaccurate";;
  steps ← mapM_result runtime_step (ch_steps c);
  raise_if (negb (opt_ok (λ v, bool_decide (vp_required_level v = ch_verification_level c)) (ch_verification c)))
    "verification level does not match the execution plan";;
  validate_plan_level (plan_of c steps);;
  Ok (plan_of c steps).

(** ** Lemmas: metadata *)

Lemma secret_search_mono words words' start key :
  (∀ w, w ∈ words → w ∈ words') → secret_search words start key = true → secret_search words' start key = true.
Proof. rewrite !secret_search_spec. intros Hw (pre & w & post & E & Hb & Hin & Hp). exists pre, w, post. auto. Qed.

(** A key the runtime calls secret is one the channel calls secret. *)
Lemma channel_secret_key_runtime key : is_secret_key key = true → channel_secret_key key = true.
Proof.
  apply secret_search_mono. intros w Hw. apply (bool_decide_unpack _).
  unfold secret_words in Hw. repeat (apply elem_of_cons in Hw as [->|Hw]; [reflexivity|]). by apply elem_of_nil in Hw.
Qed.

Lemma validate_metadata_object depth fields :
  validate_metadata depth (JObj fields) = Ok () ↔
  depth ≤ CHANNEL_PLAN_MAX_INPUT_DEPTH ∧ encoded_too_large (JObj fields) = false ∧
  ∀ k v, (k, v) ∈ fields →
    channel_secret_key k = false ∧ document_key k = false ∧ validate_metadata (depth + 1) v = Ok ().
Proof.
  cbn [validate_metadata]. rewrite raise_if_then, bind_ok, Z.ltb_ge.
  setoid_rewrite raise_if_ok. split.
  - intros (Hd & [] & Hf & He). rewrite foldM_unit_ok in Hf. split_and!; [done|done|]. intros k v Hin.
    apply Hf in Hin. cbn in Hin. rewrite !raise_if_then in Hin. tauto.
  - intros (Hd & He & Hf). split; [done|]. exists (). split; [|done]. apply foldM_unit_ok. intros [k v] Hin.
    cbn. rewrite !raise_if_then. by apply Hf.
Qed.

(** Metadata has no secret key at any depth. *)
Lemma validate_metadata_plain value depth : validate_metadata depth value = Ok () → has_secret_values value = false.
Proof.
  revert depth. induction value as [|b|z|f|s|l IH|fields IH] using json_deep_ind; intros depth Hv; try done.
  - cbn [validate_metadata] in Hv. apply raise_if_then in Hv as [_ Hv]. apply bind_ok in Hv as ([] & Hv & _).
    rewrite foldM_unit_ok in Hv. cbn. apply existsb_elem_false. intros v Hin. rewrite Forall_forall in IH. eauto.
  - apply validate_metadata_object in Hv as (_ & _ & Hv). cbn. apply existsb_elem_false. intros [k v] Hin. cbn.
    rewrite Forall_forall in IH. destruct (Hv k v Hin) as (Hk & _ & Hd). apply orb_false_iff. split.
    + destruct (is_secret_key k) eqn:E; [|done]. apply channel_secret_key_runtime in E. congruence.
    + by eapply (IH (k, v)).
Qed.

(** ** Lemmas: the input of a step *)

Definition channel_input (s : ChannelStepSpec) : list (string * json) :=
  cs_input s ++ match cs_artifact_digest_reference s with
                | Some digest => [("artifact_digest_reference", JStr digest)]
                | None => []
                end.

(** The reference is declared once and fits. *)
Definition reference_fits (s : ChannelStepSpec) : Prop :=
  (cs_artifact_digest_reference s = None ∨ assoc "artifact_digest_reference" (cs_input s) = None) ∧
  encoded_too_large (JObj (channel_input s)) = false.

Lemma contains_char c needle s p :
  contains (String c needle) s = true → forall_chars p s = true → p c = true.
Proof.
  induction s as [|d s IH]; [done|]. cbn [contains forall_chars]. intros Hc [Hd Hs]%andb_true_iff.
  apply orb_true_iff in Hc as [Hc|Hc]; [|by apply IH]. cbn in Hc. destruct (ascii_dec c d) as [->|]; done.
Qed.

(** A digest is metadata at any depth. *)
Lemma digest_metadata depth digest :
  Digest_ok digest = true → depth ≤ CHANNEL_PLAN_MAX_INPUT_DEPTH → validate_metadata depth (JStr digest) = Ok ().
Proof.
  intros (h & -> & Hl & Hh)%digest_shape Hd. cbn [validate_metadata].
  assert (forall_chars (λ c, negb (code c =? 85)) ("sha256:" +:+ h) = true) as Hc.
  { change (forall_chars (λ c, negb (code c =? 85)) h = true). apply (forall_chars_impl is_hex); [|done].
    intros c. unfold is_hex, is_digit. lia. }
  rewrite !raise_if_then, raise_if_ok. split_and!; [by apply Z.ltb_ge|..].
  - apply orb_false_iff. split; apply not_true_iff_false; intros Hx; by pose proof (contains_char _ _ _ _ Hx Hc).
  - unfold encoded_too_large. apply Z.ltb_ge. cbn [json_plain]. etrans; [apply json_string_size|].
    unfold len. rewrite length_append, Hl. vm_compute. discriminate.
Qed.

Lemma plan_input_ok s input :
  validate_metadata 0 (JObj (cs_input s)) = Ok () → optional_digest_ok (cs_artifact_digest_reference s) = true →
  plan_input s = Ok input ↔ input = channel_input s ∧ reference_fits s.
Proof.
  intros Hm Hd. unfold plan_input, reference_fits, channel_input in *.
  destruct (cs_artifact_digest_reference s) as [digest|]; cbn [mbind result_bind].
  - destruct (assoc _ (cs_input s)) eqn:E; cbn [is_none negb raise_if mbind result_bind].
    + split; [done|]. intros (_ & [?|?] & _); done.
    + apply validate_metadata_object in Hm as (_ & _ & Hm).
      split; [intros ([] & Hv%validate_metadata_object & [= <-])%bind_ok; naive_solver|].
      intros (-> & _ & He). apply bind_ok. exists (). split; [|done].
      apply validate_metadata_object. split_and!; [done|done|]. intros k v [Hin|Hin]%elem_of_app; [by apply Hm|].
      apply list_elem_of_singleton in Hin as [= -> ->]. split_and!; [done|done|].
      by apply digest_metadata.
  - rewrite app_nil_r, Hm. cbn [mbind result_bind]. apply validate_metadata_object in Hm as (_ & He & _).
    split; [intros [= <-]; auto|]. by intros (-> & _).
Qed.

(** ** Lemmas: steps *)

Definition channel_step (s : ChannelStepSpec) : ExecutionStep := step_of s (channel_input s).

(** What a validated step spec promises. *)
Lemma channel_step_parts s :
  validate_channel_step s = Ok () →
  Name_ok (cs_step_id s) = true ∧ validate_metadata 0 (JObj (cs_input s)) = Ok () ∧
  optional_digest_ok (cs_artifact_digest_reference s) = true ∧
  (cs_execution_channel s = EDI ∨ cs_execution_channel s = Contracts.HUMAN) ∧
  (cs_risk_class s ≠ READ_ONLY → cs_requires_approval s = true ∧ rt_maximum_attempts (cs_retry s) = 1).
Proof.
  unfold validate_channel_step. intros ([] & _ & Hs)%bind_ok. rewrite !raise_if_then in Hs.
  destruct Hs as (Hf & Hd & Hc & _ & _ & Hs). apply bind_ok in Hs as ([] & Ha & Hm). boolify.
  split_and!; try done.
  - apply orb_true_iff in Hc as [Hc|Hc]; apply bool_decide_eq_true in Hc; auto.
  - intros Hr%is_read_only_false. rewrite Hr in Ha. cbn [negb] in Ha. rewrite raise_if_then, raise_if_ok in Ha.
    destruct Ha as [Ha1 Ha2]. boolify. done.
Qed.

(** The runtime accepts a valid channel step whose dependencies are names. *)
Lemma channel_step_valid s :
  validate_channel_step s = Ok () → reference_fits s → Forall (λ d, Name_ok d = true) (cs_depends_on s) →
  validate_step (channel_step s) = Ok ().
Proof.
  intros Hs Hr Hd. pose proof (channel_step_parts s Hs) as (_ & Hm & Hdig & _).
  pose proof (proj2 (plan_input_ok s _ Hm Hdig) (conj eq_refl Hr)) as Hp.
  unfold plan_input in Hp. apply bind_ok in Hp as (values & _ & Hp). apply bind_ok in Hp as ([] & Hv & [= ->]).
  apply validate_metadata_plain in Hv.
  unfold validate_channel_step in Hs. apply bind_ok in Hs as ([] & Hretry & Hs). rewrite !raise_if_then in Hs.
  destruct Hs as (Hf & _ & _ & Hdup & Hself & Hs). apply bind_ok in Hs as ([] & Ha & _). boolify.
  unfold validate_step, channel_step, step_of. cbn -[has_secret_values]. rewrite Hretry, Hself, Hdup, Hv.
  cbn -[has_secret_values]. rewrite !raise_if_then. split_and!; [| |by rewrite andb_false_r|done].
  - unfold step_fields_ok. cbn. assert (forallb Name_ok (cs_depends_on s) = true) as -> by (by rewrite forallb_elem, <-Forall_forall).
    by repeat match goal with H : ?b = true |- context [?b] => rewrite H end.
  - rewrite andb_comm. destruct (is_read_only (cs_risk_class s)); cbn [negb] in Ha; [by apply raise_if_ok in Ha|].
    apply raise_if_then in Ha as [Ha _]. boolify. rewrite Ha. by rewrite andb_false_r.
Qed.

(** ** Lemmas: the plan *)

Lemma runtime_step_ok s e :
  validate_channel_step s = Ok () → Forall (λ d, Name_ok d = true) (cs_depends_on s) →
  runtime_step s = Ok e ↔ e = channel_step s ∧ reference_fits s.
Proof.
  intros Hs Hd. pose proof (channel_step_parts s Hs) as (_ & Hm & Hdig & _). unfold runtime_step. split.
  - intros (input & Hi & ([] & _ & [= <-])%bind_ok)%bind_ok. apply plan_input_ok in Hi as [-> Hr]; done.
  - intros [-> Hr]. rewrite (proj2 (plan_input_ok s _ Hm Hdig) (conj eq_refl Hr)). cbn [mbind result_bind].
    change (step_of s (channel_input s)) with (channel_step s). by rewrite channel_step_valid.
Qed.

Lemma channel_steps_ordered available steps :
  dependencies_ok available (map channel_step steps) = topologically_ordered available steps.
Proof. revert available. induction steps as [|s steps IH]; intros available; [done|]. cbn. by rewrite IH. Qed.

Lemma channel_steps_risk steps : maximum_step_risk (map channel_step steps) = calculated_risk steps.
Proof.
  unfold maximum_step_risk, calculated_risk. generalize READ_ONLY. induction steps as [|s steps IH]; intros m; [done|].
  cbn. apply IH.
Qed.

(** In an ordered list of valid steps every dependency is a name. *)
Lemma ordered_dependencies available steps :
  topologically_ordered available steps = true → (∀ d, d ∈ available → Name_ok d = true) →
  (∀ s, s ∈ steps → validate_channel_step s = Ok ()) →
  ∀ s, s ∈ steps → Forall (λ d, Name_ok d = true) (cs_depends_on s).
Proof.
  revert available. induction steps as [|t steps IH]; intros available; [by intros _ _ _ s Hs%elem_of_nil|].
  cbn [topologically_ordered]. intros [Hd Ho]%andb_true_iff Ha Hv s [->|Hs]%elem_of_cons.
  - apply Forall_forall. intros d Hin. rewrite forallb_elem in Hd. apply Ha, mem_true, Hd, Hin.
  - eapply (IH (cs_step_id t :: available)); [done| |intros s' Hs'; apply Hv; by right|done].
    intros d [->|Hin]%elem_of_cons; [|by apply Ha]. by apply channel_step_parts, Hv, elem_of_cons; left.
Qed.

(** Every dependency is the id of an earlier step. *)
Lemma topologically_ordered_spec available steps :
  topologically_ordered available steps = true ↔
  ∀ before s after, steps = before ++ s :: after →
    ∀ d, d ∈ cs_depends_on s → d ∈ available ∨ d ∈ map cs_step_id before.
Proof.
  revert available. induction steps as [|t steps IH]; intros available.
  - split; [|done]. intros _ before s after E. by destruct before.
  - cbn [topologically_ordered]. rewrite andb_true_iff, forallb_elem, IH. setoid_rewrite mem_true. split.
    + intros [Hd Ho] [|b before] s after E d Hin; injection E as -> E; [left; auto|].
      destruct (Ho before s after E d Hin) as [[->|]%elem_of_cons|]; [|by left|]; right; cbn; [left|by right].
    + intros Hall. split.
      * intros d Hin. destruct (Hall [] t steps eq_refl d Hin) as [|Hn]; [done|by apply elem_of_nil in Hn].
      * intros before s after -> d Hin. destruct (Hall (t :: before) s after eq_refl d Hin) as [|Hb]; [left; by right|].
        cbn in Hb. apply elem_of_cons in Hb as [->|]; [left; left|by right].
Qed.

(** What a channel plan needs beyond valid steps. *)
Record channel_compilable (c : ChannelPlan) : Prop := {
  cc_digest : Digest_ok (ch_business_digest c) = true;
  cc_identifiers : Identifier_ok (ch_transaction_id c) = true ∧ Identifier_ok (ch_tenant_id c) = true ∧
                   Identifier_ok (ch_environment_id c) = true;
  cc_steps : ch_steps c ≠ [];
  cc_unique : NoDup (map cs_step_id (ch_steps c));
  cc_ordered : ∀ before s after, ch_steps c = before ++ s :: after →
    ∀ d, d ∈ cs_depends_on s → d ∈ map cs_step_id before;
  cc_risk : ch_risk_class c = None ∨ ch_risk_class c = Some (calculated_risk (ch_steps c));
  cc_level : ∀ v, ch_verification c = Some v → vp_required_level v = ch_verification_level c;
  cc_references : ∀ s, s ∈ ch_steps c → reference_fits s }.

Section compilation.
Context (c : ChannelPlan).
Hypothesis Hsteps : ∀ s, s ∈ ch_steps c → validate_channel_step s = Ok ().

Lemma runtime_steps_ok steps :
  topologically_ordered [] (ch_steps c) = true →
  mapM_result runtime_step (ch_steps c) = Ok steps ↔
  steps = map channel_step (ch_steps c) ∧ ∀ s, s ∈ ch_steps c → reference_fits s.
Proof.
  intros Ho. assert (∀ s e, s ∈ ch_steps c → runtime_step s = Ok e ↔ e = channel_step s ∧ reference_fits s) as Hs.
  { intros s e Hin. apply runtime_step_ok; [by apply Hsteps|].
    eapply ordered_dependencies; [done|by intros d ?%elem_of_nil|done|done]. }
  rewrite mapM_result_Forall2. clear Ho Hsteps. revert steps. induction (ch_steps c) as [|s l IH]; intros steps.
  - split; [intros Hf; inversion Hf; by split; [|intros s ?%elem_of_nil]|intros [-> _]; constructor].
  - assert (∀ s' e, s' ∈ l → runtime_step s' = Ok e ↔ e = channel_step s' ∧ reference_fits s') as Hl
      by (intros; apply Hs; by right). specialize (IH Hl). split.
    + intros Hf. inversion Hf as [|? e ? es He Hes]; subst. apply Hs in He as [-> Hr]; [|left].
      apply IH in Hes as [-> Hrs]. split; [done|]. intros s' [->|]%elem_of_cons; auto.
    + intros [-> Hr]. cbn. constructor; [apply Hs; [left|split; [done|apply Hr; left]]|].
      apply IH. split; [done|]. intros s' Hs'. apply Hr. by right.
Qed.

(** The plan's own checks repeat the compiler's, but for the identifiers. *)
Lemma channel_plan_level :
  Digest_ok (ch_business_digest c) = true → ch_steps c ≠ [] → NoDup (map cs_step_id (ch_steps c)) →
  topologically_ordered [] (ch_steps c) = true →
  (∀ v, ch_verification c = Some v → vp_required_level v = ch_verification_level c) →
  validate_plan_level (plan_of c (map channel_step (ch_steps c))) = Ok () ↔
  Identifier_ok (ch_transaction_id c) = true ∧ Identifier_ok (ch_tenant_id c) = true ∧
  Identifier_ok (ch_environment_id c) = true.
Proof.
  clear Hsteps. intros Hd Hne Hu Ho Hl. unfold validate_plan_level. rewrite raise_if_then, negb_false_iff, !andb_true_iff.
  assert (List.filter is_routed (map channel_step (ch_steps c)) = []) as Hr.
  { clear. induction (ch_steps c) as [|s l IH]; [done|]. cbn. exact IH. }
  cbn [plan_of pl_steps pl_business_digest pl_risk_class pl_verification pl_routing_decisions pl_verification_level
       pl_transaction_id pl_tenant_id pl_environment_id].
  rewrite Hd, Hr, channel_steps_ordered, Ho, channel_steps_risk, map_map.
  change (map (λ s, st_step_id (channel_step s)) (ch_steps c)) with (map cs_step_id (ch_steps c)).
  rewrite (proj2 (has_duplicates_false _) Hu), bool_decide_true by done.
  destruct (ch_steps c) as [|s l]; [done|]. cbn [map is_nil negb raise_if mbind result_bind].
  destruct (ch_verification c) as [v|]; [rewrite bool_decide_true by by apply Hl|]; tauto.
Qed.

End compilation.

End metadata.

(** ** Properties *)

Section properties.
Context `{Sha256, FloatRepr} (c : ChannelPlan).
Hypothesis Hsteps : ∀ s, s ∈ ch_steps c → validate_channel_step s = Ok ().
Hypothesis Hverification : ∀ v, ch_verification c = Some v → validate_plan v = Ok ().

Lemma compile_channel_plan_ok p :
  compile_channel_plan c = Ok p ↔ channel_compilable c ∧ p = plan_of c (map channel_step (ch_steps c)).
Proof.
  unfold compile_channel_plan. rewrite !raise_if_then. split.
  - intros (Hd & Hn & Hu & Ho & Hr & (steps & Hs & Hp)%bind_ok). boolify. apply has_duplicates_false in Hu.
    apply (runtime_steps_ok c Hsteps) in Hs as [-> Href]; [|done]. apply raise_if_then in Hp as [Hl Hp].
    apply bind_ok in Hp as ([] & Hp & [= <-]). boolify. split; [|done].
    assert (∀ v, ch_verification c = Some v → vp_required_level v = ch_verification_level c) as Hlevel.
    { intros v E. rewrite E in Hl. by apply bool_decide_eq_true in Hl. }
    assert (ch_steps c ≠ []) as Hne by (intros E; by rewrite E in Hn).
    apply channel_plan_level in Hp; try done. split; try done.
    + intros before s after E d Hin. rewrite topologically_ordered_spec in Ho.
      destruct (Ho before s after E d Hin) as [Hx|]; [by apply elem_of_nil in Hx|done].
    + destruct (ch_risk_class c) as [r|]; [right|by left]. by apply bool_decide_eq_true in Hr as ->.
  - intros [[Hd Hi Hn Hu Ho Hr Hl Href] ->].
    assert (topologically_ordered [] (ch_steps c) = true) as Ho'.
    { apply topologically_ordered_spec. intros before s after E d Hin. right. by eapply Ho. }
    rewrite Hd, Ho', (proj2 (has_duplicates_false _) Hu). split_and!; [done|by destruct (ch_steps c)|done|done| |].
    + destruct Hr as [-> | ->]; [done|]. cbn. by rewrite bool_decide_true.
    + rewrite (proj2 (runtime_steps_ok c Hsteps (map channel_step (ch_steps c)) Ho') (conj eq_refl Href)). cbn [mbind result_bind].
      rewrite (proj2 (channel_plan_level c Hd Hn Hu Ho' Hl) Hi).
      destruct (ch_verification c) as [v|]; [|done]. cbn. by rewrite bool_decide_true by by apply Hl.
Qed.

(** C39. Attended channel steps compile exactly when they should: with valid steps and
    verification the compiler returns a plan exactly if its digest and identifiers are
    well-formed, its steps have unique ids and depend on earlier ones only, the risk summary and
    the level are right, and every artifact reference is declared once and fits.  The plan is
    the given one, the runtime accepts it, it goes through EDI or people only, stays within its
    risk, carries no secret key, and asks for approval before each effect, which is tried once. *)
Theorem attended_plan_exact :
  match compile_channel_plan c with
  | Ok p =>
      channel_compilable c ∧ p = plan_of c (map channel_step (ch_steps c)) ∧ validate_execution_plan p = Ok () ∧
      ∀ s, s ∈ pl_steps p →
        (st_execution_channel s = EDI ∨ st_execution_channel s = Contracts.HUMAN) ∧
        RISK_RANK (st_risk_class s) ≤ RISK_RANK (pl_risk_class p) ∧
        has_secret_values (JObj (st_input s)) = false ∧
        (st_risk_class s ≠ READ_ONLY → st_requires_approval s = true ∧ rt_maximum_attempts (st_retry s) = 1)
  | Err _ => ¬ channel_compilable c
  end.
Proof.
  destruct (compile_channel_plan c) as [p|e] eqn:Hp;
    [|intros Hc; by rewrite (proj2 (compile_channel_plan_ok _) (conj Hc eq_refl)) in Hp].
  apply compile_channel_plan_ok in Hp as [Hc ->]. pose proof Hc as [Hd Hi Hn Hu Ho _ Hl Href].
  assert (topologically_ordered [] (ch_steps c) = true) as Ho'.
  { apply topologically_ordered_spec. intros before s after E d Hin. right. by eapply Ho. }
  assert (∀ s, s ∈ ch_steps c → validate_step (channel_step s) = Ok ()) as Hvs.
  { intros s Hs. apply channel_step_valid; [by apply Hsteps|by apply Href|].
    eapply ordered_dependencies; [done|by intros d ?%elem_of_nil|done|done]. }
  pose proof (proj2 (channel_plan_level c Hd Hn Hu Ho' Hl) Hi) as Hlevel.
  split; [done|]. split; [done|]. split.
  - unfold validate_execution_plan. cbn [plan_of pl_steps pl_verification pl_routing_decisions pl_policy_decisions foldM].
    rewrite (proj2 (foldM_unit_ok _ _)) by (intros e (s & -> & Hs)%list_elem_of_fmap; by apply Hvs).
    cbn [mbind result_bind]. rewrite Hlevel.
    destruct (ch_verification c) as [v|]; [by rewrite (Hverification v eq_refl)|done].
  - cbn [plan_of pl_steps pl_risk_class]. rewrite <-channel_steps_risk. intros e He.
    pose proof (proj2 (maximum_risk_spec (map channel_step (ch_steps c)) READ_ONLY) e He) as Hrisk.
    apply list_elem_of_fmap in He as (s & -> & Hs).
    pose proof (channel_step_parts s (Hsteps s Hs)) as (_ & _ & _ & Hch & Heff).
    split_and!; [done|done| |done]. pose proof (Hvs s Hs) as Hv. unfold validate_step in Hv.
    do 3 apply bind_ok in Hv as ([] & _ & Hv). rewrite !raise_if_then in Hv. boolify. tauto.
Qed.

End properties.

(** ** Examples *)

#[local] Existing Instances example_sha256 example_float_repr.

Definition channel_spec (step_id : string) (risk : RiskClass) (approval : bool) (deps : list string) (reference : option string)
    : ChannelStepSpec := {|
  cs_step_id := step_id; cs_capability := "tracking.notice"; cs_adapter := "edi.attended"; cs_operation := "send";
  cs_execution_channel := EDI; cs_risk_class := risk; cs_input := [("recipient", JStr "CARRIER")];
  cs_artifact_digest_reference := reference; cs_requires_approval := approval; cs_approval_timeout_seconds := None;
  cs_timeout_seconds := 60; cs_retry := example_retry; cs_depends_on := deps |}.
Definition channel_example (steps : list ChannelStepSpec) : ChannelPlan := {|
  ch_transaction_id := "tx-1"; ch_tenant_id := "tenant"; ch_business_digest := value_digest JNull;
  ch_verification_level := L1; ch_verification := None; ch_steps := steps; ch_environment_id := "local";
  ch_data_classification := INTERNAL; ch_risk_class := None |}.
Definition channel_steps_example : list ChannelStepSpec := [
  channel_spec "review" READ_ONLY false [] None;
  channel_spec "send" CONSEQUENTIAL_WRITE true ["review"] (Some (value_digest JNull))].

Example channel_refusals :
  compile_channel_plan (channel_example (rev channel_steps_example))
  = Err "channel plan dependencies must be topologically ordered" ∧
  compile_channel_plan (channel_example []) = Err "channel plan requires at least one step" ∧
  validate_metadata 0 (JObj [("raw_document", JStr "x")]) = Err "channel input contains raw document content" ∧
  validate_metadata 0 (JObj [("document_digest", JStr "x"); ("notes", JList [JStr "see UNH+1"])])
  = Err "channel input contains raw EDI content" ∧
  validate_metadata 0 (JObj [("a", JObj [("api-key", JNull)])]) = Err "channel input contains a secret-like key" ∧
  validate_channel_step (channel_spec "send" REVERSIBLE_WRITE false [] None) = Err "effectful channel steps require approval".
Proof. split_and!; vm_compute; reflexivity. Qed.

Lemma attended_plan_exact_witness :
  ∃ p, compile_channel_plan (channel_example channel_steps_example) = Ok p ∧ validate_execution_plan p = Ok () ∧
    pl_risk_class p = CONSEQUENTIAL_WRITE ∧ length (pl_steps p) = 2%nat.
Proof.
  assert (∀ s, s ∈ ch_steps (channel_example channel_steps_example) → validate_channel_step s = Ok ()) as Hs.
  { apply (proj1 (foldM_unit_ok validate_channel_step _)). vm_compute. reflexivity. }
  pose proof (attended_plan_exact (channel_example channel_steps_example) Hs (λ v Hv, ltac:(discriminate Hv))) as Ht.
  assert ((λ r, match r with Ok _ => true | Err _ => false end)
    (compile_channel_plan (channel_example channel_steps_example)) = true) as Hok by (vm_compute; reflexivity).
  destruct (compile_channel_plan (channel_example channel_steps_example)) as [p|e]; [|discriminate Hok].
  destruct Ht as (_ & -> & Hv & _). eexists. split; [reflexivity|]. split; [exact Hv|]. split; reflexivity.
Defined.
