(* ===== verification/Ingestion.v ===== *)
(** * Document ingestion (channels/ingestion.py)

    Email messages are read within a budget and either summarised as metadata or quarantined.
    A message as Python's parser gives it and the base64 decoder are parameters ([MimeParser],
    [Base64]); bytes are 8-bit characters. *)

From Stdlib Require Import Ascii.
From stdpp Require Import pretty.
From S2P Require Import Prelude.
From S2P Require Import Contracts.
From S2P Require Import Documents.

(** ** Library code *)

(** The headers of a part in order, with [None] for a value that raises when it is read, and
    what the accessors of [email.message.Message] give, [None] when they raise. *)
Record PartHeaders := {
  ph_headers : list (string * option string);
  ph_content_type : option string;
  ph_disposition : option (option string);
  ph_filename : option (option string) }.
(** A part has parts of its own, or a payload, [None] when it is no text, with what decoding it
    gives, which may raise or be no bytes. *)
Inductive Message :=
| Multipart (headers : PartHeaders) (children : list Message)
| Single (headers : PartHeaders) (payload : option string) (decoded : option (option string)).

(** [BytesParser(...).parsebytes], which may raise. *)
Class MimeParser := parsebytes : string → option Message.
(** Whether [base64.b64decode(validate=True)] accepts. *)
Class Base64 := b64_valid : string → bool.

Definition part_headers (part : Message) : PartHeaders :=
  match part with Multipart h _ | Single h _ _ => h end.

(** ** Contracts *)

Inductive IngestionDisposition := ACCEPT | QUARANTINE.
#[export] Instance IngestionDisposition_eq_dec : EqDecision IngestionDisposition.
Proof. solve_decision. Defined.
Definition IngestionDisposition_value (d : IngestionDisposition) : string :=
  match d with ACCEPT => "ACCEPT" | QUARANTINE => "QUARANTINE" end.

Record IngestionPolicy := {
  ig_max_total_bytes : Z;
  ig_max_headers : Z;
  ig_max_header_bytes : Z;
  ig_max_mime_depth : Z;
  ig_max_parts : Z;
  ig_max_attachments : Z;
  ig_max_attachment_bytes : Z;
  ig_policy_digest : string }.
Record AttachmentSummary := {
  as_attachment_index : Z;
  as_filename : string;
  as_media_type : string;
  as_byte_length : Z;
  as_content_digest : string;
  as_attachment_digest : string }.
Record MessageSummary := {
  ms_message_digest : string;
  ms_byte_length : Z;
  ms_top_level_media_type : string;
  ms_header_count : Z;
  ms_part_count : Z;
  ms_attachments : list AttachmentSummary;
  ms_summary_digest : string }.
Record QuarantineRecord := {
  qr_policy_digest : string;
  qr_message_digest : string;
  qr_reason_code : string;
  qr_occurred_at : Z;
  qr_record_digest : string }.
Record IngestionDecision := {
  dc_disposition : IngestionDisposition;
  dc_reason_code : string;
  dc_message : option MessageSummary;
  dc_quarantine : option QuarantineRecord;
  dc_decision_digest : string }.

(** What the digests are taken of. *)
Definition policy_fields (p : IngestionPolicy) : list (string * json) := [
  ("schema_version", JStr "cargomesh.ingestion-policy/v1"); ("max_total_bytes", JInt (ig_max_total_bytes p));
  ("max_headers", JInt (ig_max_headers p)); ("max_header_bytes", JInt (ig_max_header_bytes p));
  ("max_mime_depth", JInt (ig_max_mime_depth p)); ("max_parts", JInt (ig_max_parts p));
  ("max_attachments", JInt (ig_max_attachments p)); ("max_attachment_bytes", JInt (ig_max_attachment_bytes p))].
Definition attachment_fields (a : AttachmentSummary) : list (string * json) := [
  ("schema_version", JStr "cargomesh.attachment-summary/v1"); ("attachment_index", JInt (as_attachment_index a));
  ("filename", JStr (as_filename a)); ("media_type", JStr (as_media_type a));
  ("byte_length", JInt (as_byte_length a)); ("content_digest", JStr (as_content_digest a))].
Definition summary_fields (m : MessageSummary) : list (string * json) := [
  ("schema_version", JStr "cargomesh.message-summary/v1"); ("message_digest", JStr (ms_message_digest m));
  ("byte_length", JInt (ms_byte_length m)); ("top_level_media_type", JStr (ms_top_level_media_type m));
  ("header_count", JInt (ms_header_count m)); ("part_count", JInt (ms_part_count m));
  ("attachments", JList (map (λ a, JObj (attachment_fields a
     ++ [("attachment_digest", JStr (as_attachment_digest a))])) (ms_attachments m)))].
Definition quarantine_fields (q : QuarantineRecord) : list (string * json) := [
  ("schema_version", JStr "cargomesh.quarantine-record/v1"); ("policy_digest", JStr (qr_policy_digest q));
  ("message_digest", JStr (qr_message_digest q)); ("reason_code", JStr (qr_reason_code q));
  ("occurred_at", JStr (isoformat (qr_occurred_at q)))].
Definition decision_fields (d : IngestionDecision) : list (string * json) := [
  ("schema_version", JStr "cargomesh.ingestion-decision/v1");
  ("disposition", JStr (IngestionDisposition_value (dc_disposition d))); ("reason_code", JStr (dc_reason_code d));
  ("message", json_opt (λ m, JObj (summary_fields m ++ [("summary_digest", JStr (ms_summary_digest m))])) (dc_message d));
  ("quarantine", json_opt (λ q, JObj (quarantine_fields q ++ [("record_digest", JStr (qr_record_digest q))]))
     (dc_quarantine d))].

(** [_digest_bytes]. *)
Definition digest_bytes `{Sha256} (value : string) : string := "sha256:" +:+ sha256_hex value.

Section contracts.
Context `{Sha256, FloatRepr}.

(** The fields and validators of each contract, and its [issue]. *)
Definition validate_policy (p : IngestionPolicy) : result string () :=
  raise_if (negb (between 1 (ig_max_total_bytes p) 52428800 && between 1 (ig_max_headers p) 1024
                  && between 64 (ig_max_header_bytes p) 262144 && between 0 (ig_max_mime_depth p) 32
                  && between 1 (ig_max_parts p) 512 && between 0 (ig_max_attachments p) 128
                  && between 1 (ig_max_attachment_bytes p) 26214400 && Digest_ok (ig_policy_digest p)))
    "field constraint";;
  raise_if (ig_max_total_bytes p <? ig_max_attachment_bytes p) "attachment limit cannot exceed total message limit";;
  raise_if (negb (bool_decide (ig_policy_digest p = value_digest (JObj (policy_fields p)))))
    "ingestion policy digest does not match".
Definition issue_policy (p : IngestionPolicy) : result string IngestionPolicy :=
  let p' := {|
    ig_max_total_bytes := ig_max_total_bytes p; ig_max_headers := ig_max_headers p;
    ig_max_header_bytes := ig_max_header_bytes p; ig_max_mime_depth := ig_max_mime_depth p;
    ig_max_parts := ig_max_parts p; ig_max_attachments := ig_max_attachments p;
    ig_max_attachment_bytes := ig_max_attachment_bytes p;
    ig_policy_digest := value_digest (JObj (policy_fields p)) |} in
  validate_policy p';;
  Ok p'.

Definition validate_attachment (a : AttachmentSummary) : result string () :=
  raise_if (negb (between 1 (as_attachment_index a) 128 && between 1 (len (as_filename a)) 128
                  && Name_ok (as_media_type a) && between 0 (as_byte_length a) 26214400
                  && Digest_ok (as_content_digest a) && Digest_ok (as_attachment_digest a))) "field constraint";;
  raise_if (negb (bool_decide (as_attachment_digest a = value_digest (JObj (attachment_fields a)))))
    "attachment summary digest does not match".
(** The digest is taken before the filename is stripped; the other texts have no white space. *)
Definition issue_attachment (index : Z) (filename media_type : string) (byte_length : Z) (content_digest : string)
    : result string AttachmentSummary :=
  let a name digest := {|
    as_attachment_index := index; as_filename := name; as_media_type := media_type;
    as_byte_length := byte_length; as_content_digest := content_digest; as_attachment_digest := digest |} in
  let issued := a (strip filename) (value_digest (JObj (attachment_fields (a filename EmptyString)))) in
  validate_attachment issued;;
  Ok issued.

Definition validate_summary (m : MessageSummary) : result string () :=
  raise_if (negb (Digest_ok (ms_message_digest m) && between 0 (ms_byte_length m) 52428800
                  && Name_ok (ms_top_level_media_type m) && between 0 (ms_header_count m) 1024
                  && between 1 (ms_part_count m) 512 && max_length 128 (ms_attachments m)
                  && Digest_ok (ms_summary_digest m))) "field constraint";;
  raise_if (negb (bool_decide (ms_summary_digest m = value_digest (JObj (summary_fields m)))))
    "message summary digest does not match".
Definition issue_summary (m : MessageSummary) : result string MessageSummary :=
  let m' := {|
    ms_message_digest := ms_message_digest m; ms_byte_length := ms_byte_length m;
    ms_top_level_media_type := ms_top_level_media_type m; ms_header_count := ms_header_count m;
    ms_part_count := ms_part_count m; ms_attachments := ms_attachments m;
    ms_summary_digest := value_digest (JObj (summary_fields m)) |} in
  validate_summary m';;
  Ok m'.

(** The time is an instant, so that it has a timezone. *)
Definition validate_quarantine (q : QuarantineRecord) : result string () :=
  raise_if (negb (Digest_ok (qr_policy_digest q) && Digest_ok (qr_message_digest q) && Name_ok (qr_reason_code q)
                  && Digest_ok (qr_record_digest q))) "field constraint";;
  raise_if (negb (bool_decide (qr_record_digest q = value_digest (JObj (quarantine_fields q)))))
    "quarantine record digest does not match".
Definition issue_quarantine (q : QuarantineRecord) : result string QuarantineRecord :=
  let q' := {|
    qr_policy_digest := qr_policy_digest q; qr_message_digest := qr_message_digest q;
    qr_reason_code := qr_reason_code q; qr_occurred_at := qr_occurred_at q;
    qr_record_digest := value_digest (JObj (quarantine_fields q)) |} in
  validate_quarantine q';;
  Ok q'.

Definition validate_decision (d : IngestionDecision) : result string () :=
  raise_if (negb (Name_ok (dc_reason_code d) && Digest_ok (dc_decision_digest d))) "field constraint";;
  raise_if (bool_decide (dc_disposition d = ACCEPT) && (is_none (dc_message d) || negb (is_none (dc_quarantine d))))
    "accepted ingestion requires only a message summary";;
  raise_if (bool_decide (dc_disposition d = QUARANTINE) && is_none (dc_quarantine d))
    "quarantined ingestion requires a quarantine record";;
  raise_if (match dc_message d, dc_quarantine d with
            | Some m, Some q => negb (bool_decide (ms_message_digest m = qr_message_digest q))
            | _, _ => false
            end) "quarantine message identity does not match";;
  raise_if (negb (bool_decide (dc_decision_digest d = value_digest (JObj (decision_fields d)))))
    "ingestion decision digest does not match".
Definition issue_decision (disposition : IngestionDisposition) (reason_code : string) (message : option MessageSummary)
    (quarantine : option QuarantineRecord) : result string IngestionDecision :=
  let d digest := {|
    dc_disposition := disposition; dc_reason_code := reason_code; dc_message := message;
    dc_quarantine := quarantine; dc_decision_digest := digest |} in
  let issued := d (value_digest (JObj (decision_fields (d EmptyString)))) in
  validate_decision issued;;
  Ok issued.

End contracts.

(** ** Headers *)

(** [_Quarantine] carries a code; any other exception is quarantined as [message_parse_invalid]. *)
Definition parse_invalid : string := "message_parse_invalid".
Definition readable {A} (o : option A) : result string A := match o with Some a => Ok a | None => Err parse_invalid end.

Definition LF : string := chars [10].
Definition CRLF : string := chars [13; 10].

(** [bytes.splitlines()]. *)
Fixpoint byte_lines (line : string) (s : string) : list string :=
  match s with
  | EmptyString => if decide (line = EmptyString) then [] else [line]
  | String c s' =>
      if code c =? 10 then line :: byte_lines EmptyString s'
      else if code c =? 13 then
        line :: match s' with
                | String d s'' => if code d =? 10 then byte_lines EmptyString s'' else byte_lines EmptyString s'
                | EmptyString => []
                end
      else byte_lines (line +:+ String c EmptyString) s'
  end.

(** The block of headers before [CRLF CRLF], or else before [LF LF]. *)
Definition header_block (data : string) : option string :=
  match String.index 0 (CRLF +:+ CRLF) data, String.index 0 (LF +:+ LF) data with
  | Some i, _ | None, Some i => Some (String.substring 0 i data)
  | None, None => None
  end.

Definition begins_blank (line : string) : bool :=
  match line with String c _ => (code c =? 32) || (code c =? 9) | EmptyString => false end.

(** [_validate_wire_headers]. *)
Definition validate_wire_headers (data : string) (policy : IngestionPolicy) : result string Z :=
  match header_block data with
  | None => Err "header_terminator_missing"
  | Some block =>
      raise_if (ig_max_header_bytes policy <? len block) "header_bytes_limit";;
      let lines := byte_lines EmptyString block in
      raise_if (ig_max_headers policy <? Z.of_nat (length lines)) "header_count_limit";;
      raise_if (existsb (λ line, ig_max_header_bytes policy <? len line) lines) "header_line_limit";;
      raise_if (existsb begins_blank (List.filter (λ line, negb (contains ":" line)) lines)) "header_malformed";;
      Ok (Z.of_nat (length lines))
  end.

Definition CRITICAL_HEADERS : list string := ["content-transfer-encoding"; "content-type"; "mime-version"; "message-id"].

(** [get_all(name, [])]. *)
Definition get_all (name : string) (h : PartHeaders) : result string (list string) :=
  mapM_result (λ kv : string * option string, readable kv.2) (List.filter (λ kv, bool_decide (lower kv.1 = name)) (ph_headers h)).

(** [_validate_duplicate_headers]. *)
Definition validate_duplicate_headers (message : Message) : result string () :=
  foldM (λ _ name,
    values ← get_all name (part_headers message);
    raise_if (1 <? Z.of_nat (length values)) "header_duplicate_critical") () CRITICAL_HEADERS.

(** [_walk_parts]; a message with several parts has a list of messages as its payload. *)
Fixpoint visit (maximum_depth depth : Z) (part : Message) (values : list Message) : result string (list Message) :=
  raise_if (maximum_depth <? depth) "mime_depth_limit";;
  match part with
  | Multipart _ children => foldM (λ values child, visit maximum_depth (depth + 1) child values) (values ++ [part]) children
  | Single _ _ _ => Ok (values ++ [part])
  end.
Definition walk_parts (message : Message) (maximum_depth : Z) : result string (list Message) :=
  visit maximum_depth 0 message [].

(** ** Parts *)

Definition TRANSFER_ENCODINGS : list string := ["7bit"; "8bit"; "binary"; "base64"; "quoted-printable"].

(** [value.strip()]. *)
Fixpoint drop_while (p : ascii → bool) (l : list ascii) : list ascii :=
  match l with
  | c :: l' => if p c then drop_while p l' else l
  | [] => []
  end.
Definition strip_chars (p : ascii → bool) (s : string) : string :=
  String.string_of_list_ascii (rev (drop_while p (rev (drop_while p (String.list_ascii_of_string s))))).

(** [part.get("Content-Transfer-Encoding", "7bit")]. *)
Definition transfer_encoding (h : PartHeaders) : result string string :=
  match List.filter (λ kv, bool_decide (lower kv.1 = "content-transfer-encoding")) (ph_headers h) with
  | [] => Ok "7bit"
  | kv :: _ => value ← readable kv.2; Ok (lower (strip_chars py_space value))
  end.

(** The loop of [_malformed_quoted_printable]. *)
Definition hex_any (c : ascii) : bool := is_hex c || ((65 <=? code c) && (code c <=? 70)).
Fixpoint malformed_quoted_printable (value : string) : bool :=
  match value with
  | EmptyString => false
  | String c rest =>
      (if code c =? 61 then
         let tail := String.substring 0 2 rest in
         if mem tail [CRLF; LF] then false
         else negb (len tail =? 2) || negb (forall_chars hex_any tail)
       else false)
      || malformed_quoted_printable rest
  end.

(** [re.sub(rb"\s+", b"", raw_bytes)]. *)
Definition byte_space (c : ascii) : bool := ((9 <=? code c) && (code c <=? 13)) || (code c =? 32).
Fixpoint without_space (s : string) : string :=
  match s with
  | EmptyString => EmptyString
  | String c s' => if byte_space c then without_space s' else String c (without_space s')
  end.

(** [_validate_transfer_encoding]. *)
Definition validate_transfer_encoding `{Base64} (h : PartHeaders) (payload : option string) : result string () :=
  transfer ← transfer_encoding h;
  let invalid := "transfer_encoding_invalid" in
  raise_if (negb (mem transfer TRANSFER_ENCODINGS)) invalid;;
  match payload with
  | None => Err invalid
  | Some raw =>
      if forall_chars (λ c, code c <? 128) raw then
        raise_if (bool_decide (transfer = "base64") && negb (b64_valid (without_space raw))) invalid;;
        raise_if (bool_decide (transfer = "quoted-printable") && malformed_quoted_printable raw) invalid
      else raise_if (bool_decide (transfer = "base64")) invalid
  end.

(** [_is_attachment]. *)
Definition is_attachment (h : PartHeaders) : result string bool :=
  disposition ← readable (ph_disposition h);
  if bool_decide (lower (default EmptyString disposition) = "attachment") then Ok true
  else filename ← readable (ph_filename h); Ok (negb (is_none filename)).

(** [_media_type]. *)
Fixpoint slash_to_dot (s : string) : string :=
  match s with
  | EmptyString => EmptyString
  | String c s' => String (if code c =? 47 then "."%char else c) (slash_to_dot s')
  end.
Definition media_type (h : PartHeaders) : result string string :=
  content_type ← readable (ph_content_type h);
  let value := slash_to_dot (lower content_type) in
  raise_if (negb (name_pattern is_sep value)) "media_type_invalid";;
  Ok value.

(** [str.isalnum] of one character. *)
Definition py_alnum (c : ascii) : bool :=
  is_alnum c || is_upper c || existsb (Z.eqb (code c)) [170; 178; 179; 181; 185; 186; 188; 189; 190]
  || ((192 <=? code c) && negb (code c =? 215) && negb (code c =? 247)).

(** [value.replace("\\", "/").rsplit("/", 1)[-1]]. *)
Fixpoint last_segment (kept : list ascii) (l : list ascii) : list ascii :=
  match l with
  | [] => rev kept
  | c :: l' => if (code c =? 47) || (code c =? 92) then last_segment [] l' else last_segment (c :: kept) l'
  end.

(** [_safe_filename]. *)
Definition safe_char (c : ascii) : bool := py_alnum c || is_sep c || (code c =? 32).
Definition safe_filename (value : option string) (index : Z) : string :=
  let fallback := "attachment-" +:+ pretty index in
  match value with
  | None => fallback
  | Some value =>
      let segment := last_segment [] (String.list_ascii_of_string value) in
      let replaced := map (λ c, if safe_char c then c else "_"%char) segment in
      let candidate := strip_chars (λ c, (code c =? 32) || (code c =? 46)) (String.string_of_list_ascii replaced) in
      let name := String.substring 0 128 candidate in
      if decide (name = EmptyString) then fallback else name
  end.

(** [_pdf_preflight]. *)
Definition PDF_ACTIVE_TOKENS : list string := ["/javascript"; "/js "; "/launch"; "/embeddedfiles"; "/filespec"].
Definition pdf_preflight (payload : string) : result string () :=
  let tail := String.substring (String.length payload - 2048) 2048 payload in
  raise_if (negb (String.prefix "%PDF-" payload) || negb (contains "%%EOF" tail)) "pdf_structure_invalid";;
  raise_if (contains "/encrypt" (lower payload)) "pdf_encrypted";;
  raise_if (existsb (λ token, contains token (lower payload)) PDF_ACTIVE_TOKENS) "pdf_active_content".

(** ** Ingestion *)

(** A [ContentScanner]; [None] when it raises. *)
Definition ContentScanner := string → AttachmentSummary → option bool.

Section ingestion.
Context `{Sha256, FloatRepr, MimeParser, Base64}.

(** Errors of [issue] and of the parser are not [_Quarantine]s. *)
Definition issued {A} (r : result string A) : result string A := match r with Ok a => Ok a | Err _ => Err parse_invalid end.

(** The loop body of [_summarize_attachments] for an attachment. *)
Definition summarize_attachment (policy : IngestionPolicy) (scanner : option ContentScanner) (index : Z)
    (h : PartHeaders) (decoded : option (option string)) : result string AttachmentSummary :=
  payload ← readable decoded;
  match payload with
  | None => Err "attachment_encoding_invalid"
  | Some payload =>
      raise_if (ig_max_attachment_bytes policy <? len payload) "attachment_too_large";;
      media_type ← media_type h;
      filename ← readable (ph_filename h);
      summary ← issued (issue_attachment index (safe_filename filename index) media_type (len payload) (digest_bytes payload));
      (if bool_decide (media_type = "application.pdf") then pdf_preflight payload else Ok ());;
      match scanner with
      | None => Err "scanner_unavailable"
      | Some scan =>
          match scan payload summary with
          | None => Err "scanner_unavailable"
          | Some is_clean => raise_if (negb is_clean) "scanner_rejected";; Ok summary
          end
      end
  end.

(** The loop body of [_summarize_attachments]. *)
Definition summarize_part (policy : IngestionPolicy) (scanner : option ContentScanner)
    (values : list AttachmentSummary) (part : Message) : result string (list AttachmentSummary) :=
  match part with
  | Multipart _ _ => Ok values
  | Single h payload decoded =>
      validate_transfer_encoding h payload;;
      attached ← is_attachment h;
      if negb attached then Ok values
      else
        raise_if (ig_max_attachments policy <=? Z.of_nat (length values)) "attachment_limit";;
        summary ← summarize_attachment policy scanner (Z.of_nat (length values) + 1) h decoded;
        Ok (values ++ [summary])
  end.

(** The [try] block of [ingest_message], up to the summary. *)
Definition read_message (policy : IngestionPolicy) (scanner : option ContentScanner) (raw_message : option string)
    : result string MessageSummary :=
  match raw_message with
  | None => Err "message_type_invalid"
  | Some data =>
      raise_if (ig_max_total_bytes policy <? len data) "message_too_large";;
      header_count ← validate_wire_headers data policy;
      message ← readable (parsebytes data);
      validate_duplicate_headers message;;
      parts ← walk_parts message (ig_max_mime_depth policy);
      raise_if (ig_max_parts policy <? Z.of_nat (length parts)) "mime_part_limit";;
      attachments ← foldM (summarize_part policy scanner) [] parts;
      top_level_media_type ← media_type (part_headers message);
      issued (issue_summary {|
        ms_message_digest := digest_bytes data; ms_byte_length := len data;
        ms_top_level_media_type := top_level_media_type; ms_header_count := header_count;
        ms_part_count := Z.of_nat (length parts); ms_attachments := attachments; ms_summary_digest := EmptyString |})
  end.

(** [_quarantine]. *)
Definition quarantine (policy : IngestionPolicy) (message_digest reason_code : string) (occurred_at : Z)
    : result string IngestionDecision :=
  record ← issue_quarantine {|
    qr_policy_digest := ig_policy_digest policy; qr_message_digest := message_digest;
    qr_reason_code := reason_code; qr_occurred_at := occurred_at; qr_record_digest := EmptyString |};
  issue_decision QUARANTINE reason_code None (Some record).

(** [ingest_message]. *)
Definition ingest_message (policy : IngestionPolicy) (scanner : option ContentScanner) (raw_message : option string)
    (now : Datetime) : result string IngestionDecision :=
  raise_if (naive now) "ingestion time must include a timezone";;
  let raw_digest := digest_bytes (default EmptyString raw_message) in
  match (summary ← read_message policy scanner raw_message;
         issued (issue_decision ACCEPT "accepted" (Some summary) None)) with
  | Ok decision => Ok decision
  | Err reason => quarantine policy raw_digest reason (instant now)
  end.

End ingestion.

(** ** Lemmas: issued contracts *)

Section issued.
Context `{Sha256Laws, FloatRepr}.

Lemma issued_ok {A} (r : result string A) a : issued r = Ok a → r = Ok a.
Proof. by destruct r. Qed.

Lemma issue_attachment_ok index filename media_type byte_length digest a :
  issue_attachment index filename media_type byte_length digest = Ok a →
  validate_attachment a = Ok () ∧ as_attachment_index a = index ∧ as_filename a = strip filename ∧
  as_media_type a = media_type ∧ as_byte_length a = byte_length ∧ as_content_digest a = digest.
Proof. unfold issue_attachment. by intros ([] & Hv & [= <-])%bind_ok. Qed.

Lemma issue_summary_ok m m' :
  issue_summary m = Ok m' →
  validate_summary m' = Ok () ∧ ms_message_digest m' = ms_message_digest m ∧ ms_byte_length m' = ms_byte_length m ∧
  ms_top_level_media_type m' = ms_top_level_media_type m ∧ ms_header_count m' = ms_header_count m ∧
  ms_part_count m' = ms_part_count m ∧ ms_attachments m' = ms_attachments m.
Proof. unfold issue_summary. by intros ([] & Hv & [= <-])%bind_ok. Qed.

(** Acceptance and quarantine are always issued. *)
Lemma issue_accept_ok summary :
  ∃ d, issue_decision ACCEPT "accepted" (Some summary) None = Ok d ∧ validate_decision d = Ok () ∧
    dc_disposition d = ACCEPT ∧ dc_message d = Some summary ∧ dc_quarantine d = None.
Proof.
  unfold issue_decision. match goal with |- context [validate_decision ?d] => set (issued := d) end.
  assert (validate_decision issued = Ok ()) as Hv.
  { unfold validate_decision. rewrite !raise_if_then, raise_if_ok. split_and!; try done.
    - cbn. by rewrite value_digest_ok.
    - apply negb_false_iff, bool_decide_eq_true. reflexivity. }
  rewrite Hv. by exists issued.
Qed.

Lemma quarantine_ok policy message_digest reason occurred_at :
  Digest_ok (ig_policy_digest policy) = true → Digest_ok message_digest = true → Name_ok reason = true →
  ∃ d q, quarantine policy message_digest reason occurred_at = Ok d ∧ validate_decision d = Ok () ∧
    dc_disposition d = QUARANTINE ∧ dc_reason_code d = reason ∧ dc_message d = None ∧ dc_quarantine d = Some q ∧
    qr_policy_digest q = ig_policy_digest policy ∧ qr_message_digest q = message_digest ∧
    qr_reason_code q = reason ∧ qr_occurred_at q = occurred_at.
Proof.
  intros Hp Hm Hr. unfold quarantine, issue_quarantine.
  match goal with |- context [validate_quarantine ?q] => set (record := q) end.
  assert (validate_quarantine record = Ok ()) as ->.
  { unfold validate_quarantine. rewrite raise_if_then, raise_if_ok. split.
    - cbn. by rewrite Hp, Hm, Hr, value_digest_ok.
    - apply negb_false_iff, bool_decide_eq_true. reflexivity. }
  cbn [mbind result_bind]. unfold issue_decision.
  match goal with |- context [validate_decision ?d] => set (issued := d) end.
  assert (validate_decision issued = Ok ()) as Hv.
  { unfold validate_decision. rewrite !raise_if_then, raise_if_ok. split_and!; try done.
    - cbn. by rewrite Hr, value_digest_ok.
    - apply negb_false_iff, bool_decide_eq_true. reflexivity. }
  rewrite Hv. by exists issued, record.
Qed.

End issued.

(** ** Lemmas: walking the parts *)

(** Induction on a message and the parts inside it. *)
Lemma message_deep_ind (P : Message → Prop) :
  (∀ h children, Forall P children → P (Multipart h children)) → (∀ h payload decoded, P (Single h payload decoded)) →
  ∀ m, P m.
Proof.
  intros Hm Hs. fix IH 1. intros [h children|h payload decoded]; [apply Hm|apply Hs].
  induction children as [|m children IHc]; constructor; [apply IH|exact IHc].
Qed.

Fixpoint subparts (m : Message) : list Message :=
  m :: match m with Multipart _ children => concat (map subparts children) | Single _ _ _ => [] end.
Fixpoint depth (m : Message) : Z :=
  match m with
  | Multipart _ children => fold_right (λ c d, Z.max (1 + depth c) d) 0 children
  | Single _ _ _ => 0
  end.

Lemma visit_ok maximum m : ∀ d values parts,
  d ≤ maximum → visit maximum d m values = Ok parts → parts = values ++ subparts m ∧ d + depth m ≤ maximum.
Proof.
  induction m as [h children IH|h payload decoded] using message_deep_ind; intros d values parts Hd;
    cbn [visit subparts depth]; rewrite raise_if_then; intros [_ Hv].
  - enough (parts = (values ++ [Multipart h children]) ++ concat (map subparts children) ∧
            d + fold_right (λ c d, Z.max (1 + depth c) d) 0 children ≤ maximum) as [-> ?] by (split; [by rewrite <-app_assoc|done]).
    revert Hv. generalize (values ++ [Multipart h children]). clear values.
    induction IH as [|c children Hc _ IHc]; intros values; cbn [foldM fold_right map concat].
    + intros [= <-]. rewrite app_nil_r. split; [done|lia].
    + intros (values' & Hvisit & Hrest)%bind_ok.
      assert (d + 1 ≤ maximum) as Hd1.
      { destruct c; cbn [visit] in Hvisit; apply raise_if_then in Hvisit as [Hb _]; boolify; lia. }
      destruct (Hc _ _ _ Hd1 Hvisit) as [-> Hcd]. destruct (IHc _ Hrest) as [-> Hr].
      rewrite app_assoc. split; [done|lia].
  - injection Hv as <-. split; [done|lia].
Qed.

Lemma walk_parts_ok m maximum parts :
  0 ≤ maximum → walk_parts m maximum = Ok parts → parts = subparts m ∧ depth m ≤ maximum.
Proof. intros H0 Hw. by apply visit_ok in Hw. Qed.

(** ** Lemmas: reasons *)

Definition QUARANTINE_CODES : list string := [
  "message_type_invalid"; "message_too_large"; "header_terminator_missing"; "header_bytes_limit";
  "header_count_limit"; "header_line_limit"; "header_malformed"; "message_parse_invalid";
  "header_duplicate_critical"; "mime_depth_limit"; "mime_part_limit"; "transfer_encoding_invalid";
  "attachment_limit"; "attachment_encoding_invalid"; "attachment_too_large"; "media_type_invalid";
  "pdf_structure_invalid"; "pdf_encrypted"; "pdf_active_content"; "scanner_unavailable"; "scanner_rejected"].
Definition coded (reason : string) : Prop := reason ∈ QUARANTINE_CODES.
Ltac coded := raises ltac:(apply (bool_decide_unpack _); vm_compute; exact I).

Lemma coded_name reason : coded reason → Name_ok reason = true.
Proof.
  assert (Forall (λ r, Name_ok r = true) QUARANTINE_CODES) as Hall by (repeat constructor).
  rewrite Forall_forall in Hall. apply Hall.
Qed.

Lemma visit_coded maximum m : ∀ d values, raises_only coded (visit maximum d m values).
Proof.
  induction m as [h children IH|h payload decoded] using message_deep_ind; intros d values; cbn [visit].
  - apply raises_only_bind; [coded|intros _]. generalize (values ++ [Multipart h children]). clear values.
    induction IH as [|c children Hc _ IHc]; intros values; [done|]. cbn [foldM]. apply raises_only_bind; auto.
  - coded.
Qed.

Section reasons.
Context `{Sha256, FloatRepr, MimeParser, Base64} (policy : IngestionPolicy) (scanner : option ContentScanner).

Lemma readable_coded {A} (o : option A) : raises_only coded (readable o).
Proof. unfold readable. coded. Qed.
Lemma issued_coded {A} (r : result string A) : raises_only coded (issued r).
Proof. unfold issued. coded. Qed.
#[local] Hint Resolve readable_coded issued_coded visit_coded : raises.

Lemma wire_headers_coded data : raises_only coded (validate_wire_headers data policy).
Proof. unfold validate_wire_headers. coded. Qed.
Lemma transfer_encoding_coded h payload : raises_only coded (validate_transfer_encoding h payload).
Proof. unfold validate_transfer_encoding, transfer_encoding. coded. Qed.
Lemma media_type_coded h : raises_only coded (media_type h).
Proof. unfold media_type. coded. Qed.
#[local] Hint Resolve wire_headers_coded transfer_encoding_coded media_type_coded : raises.

Lemma summarize_part_coded values part : raises_only coded (summarize_part policy scanner values part).
Proof. unfold summarize_part, is_attachment, summarize_attachment, pdf_preflight. coded. Qed.
#[local] Hint Resolve summarize_part_coded : raises.

Lemma read_message_coded raw : raises_only coded (read_message policy scanner raw).
Proof. unfold read_message, validate_duplicate_headers, get_all, walk_parts. coded. Qed.

End reasons.

(** ** What an accepted message is *)

(** A part that is an attachment. *)
Definition attached (part : Message) : bool :=
  match part with
  | Single h _ _ => match is_attachment h with Ok b => b | Err _ => false end
  | Multipart _ _ => false
  end.

Section admission.
Context `{Sha256Laws, FloatRepr, MimeParser, Base64} (policy : IngestionPolicy) (scanner : option ContentScanner).

(** A leaf is decodable. *)
Definition decodable (part : Message) : Prop :=
  match part with Single h payload _ => validate_transfer_encoding h payload = Ok () | Multipart _ _ => True end.

(** An attachment was decoded within its limit, its media type has a name, a PDF passed the
    preflight, and the scanner found its bytes clean; the summary is of these bytes. *)
Definition clean_attachment (index : Z) (part : Message) (s : AttachmentSummary) : Prop :=
  ∃ h payload content scan,
    part = Single h payload (Some (Some content)) ∧ len content ≤ ig_max_attachment_bytes policy ∧
    media_type h = Ok (as_media_type s) ∧ (as_media_type s = "application.pdf" → pdf_preflight content = Ok ()) ∧
    scanner = Some scan ∧ scan content s = Some true ∧
    as_attachment_index s = index ∧ as_byte_length s = len content ∧ as_content_digest s = digest_bytes content ∧
    validate_attachment s = Ok () ∧ forall_chars safe_char (as_filename s) = true.

Record admissible (data : string) (message : Message) (s : MessageSummary) : Prop := {
  ad_size : len data ≤ ig_max_total_bytes policy;
  ad_headers : ∃ block, header_block data = Some block ∧ len block ≤ ig_max_header_bytes policy ∧
    ms_header_count s = Z.of_nat (length (byte_lines EmptyString block)) ∧ ms_header_count s ≤ ig_max_headers policy;
  ad_critical : ∀ name, name ∈ CRITICAL_HEADERS →
    (length (List.filter (λ kv, bool_decide (lower kv.1 = name)) (ph_headers (part_headers message))) ≤ 1)%nat;
  ad_depth : depth message ≤ ig_max_mime_depth policy;
  ad_parts : ms_part_count s = Z.of_nat (length (subparts message)) ∧ ms_part_count s ≤ ig_max_parts policy;
  ad_decodable : ∀ part, part ∈ subparts message → decodable part;
  ad_attachments : Forall2 (λ ip s, clean_attachment ip.1 ip.2 s)
    (imap (λ i p, (Z.of_nat i + 1, p)) (List.filter attached (subparts message))) (ms_attachments s);
  ad_count : Z.of_nat (length (ms_attachments s)) ≤ ig_max_attachments policy;
  ad_identity : ms_message_digest s = digest_bytes data ∧ ms_byte_length s = len data ∧
    media_type (part_headers message) = Ok (ms_top_level_media_type s);
  ad_valid : validate_summary s = Ok () }.

(** *** Filenames *)

Lemma forall_chars_list p s : forall_chars p s = forallb p (String.list_ascii_of_string s).
Proof. induction s as [|c s IH]; [done|]. cbn. by rewrite IH. Qed.

Lemma drop_while_forallb p q l : forallb q l = true → forallb q (drop_while p l) = true.
Proof. induction l as [|c l IH]; [done|]. cbn. destruct (p c); [intros [_ Hl]%andb_true_iff; auto|done]. Qed.

Lemma strip_chars_forall p q s : forall_chars q s = true → forall_chars q (strip_chars p s) = true.
Proof.
  rewrite !forall_chars_list. intros Hs. unfold strip_chars. rewrite String.list_ascii_of_string_of_list_ascii, forallb_rev.
  apply drop_while_forallb. rewrite forallb_rev. by apply drop_while_forallb.
Qed.

Lemma lstrip_forallb q l : forallb q l = true → forallb q (lstrip l) = true.
Proof. induction l as [|c l IH]; [done|]. cbn. destruct (is_space c); [intros [_ Hl]%andb_true_iff; auto|done]. Qed.

Lemma strip_forall q s : forall_chars q s = true → forall_chars q (strip s) = true.
Proof.
  rewrite !forall_chars_list. intros Hs. unfold strip. rewrite String.list_ascii_of_string_of_list_ascii, forallb_rev.
  apply lstrip_forallb. rewrite forallb_rev. by apply lstrip_forallb.
Qed.

Lemma substring_forall q n s : forall_chars q s = true → forall_chars q (String.substring 0 n s) = true.
Proof.
  revert n. induction s as [|c s IH]; intros [|n]; [done..|]. cbn. intros [-> Hs]%andb_true_iff. by apply IH.
Qed.

(** A summary's filename has letters, digits, [.], [-], [_] and spaces only. *)
Lemma safe_filename_safe value index :
  0 ≤ index < 129 → forall_chars safe_char (safe_filename value index) = true.
Proof.
  intros Hi. assert (forall_chars safe_char ("attachment-" +:+ pretty index) = true) as Hf.
  { change (forall_chars safe_char (pretty index) = true).
    assert (forallb (λ i, forall_chars safe_char (pretty i)) (seqZ 0 129) = true) as Hall by (vm_compute; reflexivity).
    rewrite forallb_elem in Hall. apply Hall, elem_of_seqZ. lia. }
  unfold safe_filename. destruct value as [value|]; [|done]. case_decide; [done|].
  apply substring_forall, strip_chars_forall. rewrite forall_chars_list, String.list_ascii_of_string_of_list_ascii.
  apply forallb_elem. intros c (d & -> & _)%list_elem_of_fmap. by destruct (safe_char d) eqn:E.
Qed.

(** *** Attachments *)

Lemma summarize_attachment_ok index h payload decoded s :
  summarize_attachment policy scanner index h decoded = Ok s → clean_attachment index (Single h payload decoded) s.
Proof.
  unfold summarize_attachment. intros (content & Hc & Hs)%bind_ok. destruct decoded as [d|]; [|done].
  injection Hc as ->. destruct content as [c|]; [|done]. apply raise_if_then in Hs as [Hl Hs].
  apply bind_ok in Hs as (mt & Hmt & Hs). apply bind_ok in Hs as (name & _ & Hs).
  apply bind_ok in Hs as (summary & Hsum%issued_ok & Hs). apply bind_ok in Hs as ([] & Hpdf & Hs).
  destruct scanner as [scan|] eqn:Escan; [|done]. destruct (scan c summary) as [clean|] eqn:Hscan; [|done].
  apply raise_if_then in Hs as [Hclean [= <-]]. boolify. subst clean.
  apply issue_attachment_ok in Hsum as (Hv & Hi & Hf & Hm & Hb & Hd).
  exists h, payload, c, scan. split_and!; try done.
  - by rewrite Hm.
  - rewrite Hm. intros E. by rewrite bool_decide_true in Hpdf.
  - rewrite Hf. apply strip_forall, safe_filename_safe. unfold validate_attachment in Hv.
    apply raise_if_then in Hv as [Hv _]. rewrite Hi in Hv. unfold between in Hv. boolify. lia.
Qed.

Lemma summarize_parts_ok parts : ∀ values l,
  Z.of_nat (length values) ≤ ig_max_attachments policy →
  foldM (summarize_part policy scanner) values parts = Ok l →
  Z.of_nat (length l) ≤ ig_max_attachments policy ∧ (∀ part, part ∈ parts → decodable part) ∧
  ∃ new, l = values ++ new ∧
    Forall2 (λ ip s, clean_attachment ip.1 ip.2 s)
      (imap (λ i p, (Z.of_nat (length values + i) + 1, p)) (List.filter attached parts)) new.
Proof.
  induction parts as [|part parts IH]; intros values l Hle; cbn [foldM].
  - intros [= <-]. split_and!; [done|by intros p ?%elem_of_nil|]. exists []. by rewrite app_nil_r.
  - intros (values' & Hp & Hrest)%bind_ok. cbn [List.filter].
    assert (values' = values → decodable part → attached part = false →
      Z.of_nat (length l) ≤ ig_max_attachments policy ∧ (∀ p, p ∈ part :: parts → decodable p) ∧
      ∃ new, l = values ++ new ∧ Forall2 (λ ip s, clean_attachment ip.1 ip.2 s)
        (imap (λ i p, (Z.of_nat (length values + i) + 1, p))
           (if attached part then part :: List.filter attached parts else List.filter attached parts)) new) as Hskip.
    { intros -> Hdec ->. destruct (IH _ _ Hle Hrest) as (Hl & Hd & Hn). split_and!; [done| |done].
      intros p [->|Hp']%elem_of_cons; auto. }
    destruct part as [h children|h payload decoded]; cbn [summarize_part] in Hp; [injection Hp as <-; by apply Hskip|].
    apply bind_ok in Hp as ([] & Hdec & Hp). apply bind_ok in Hp as (a & Ha & Hp).
    destruct a; cbn [negb] in Hp; [|injection Hp as <-; apply Hskip; [done|done|cbn; by rewrite Ha]].
    apply raise_if_then in Hp as [Hlt Hp]. apply bind_ok in Hp as (s & Hs & [= <-]). boolify.
    destruct (IH (values ++ [s]) l) as (Hl & Hd & new & -> & Hnew); [rewrite length_app; cbn; lia|done|].
    split_and!; [done|intros p [->|Hp']%elem_of_cons; auto|]. cbn [attached]. rewrite Ha. exists (s :: new).
    split; [by rewrite <-app_assoc|]. cbn [imap]. constructor.
    + cbn. rewrite Nat.add_0_r. by apply summarize_attachment_ok.
    + rewrite length_app in Hnew. cbn [length] in Hnew. erewrite imap_ext; [exact Hnew|].
      intros i p _. cbn. f_equal; lia.
Qed.

(** *** The message *)

Lemma duplicate_headers_ok message :
  validate_duplicate_headers message = Ok () → ∀ name, name ∈ CRITICAL_HEADERS →
  (length (List.filter (λ kv, bool_decide (lower kv.1 = name)) (ph_headers (part_headers message))) ≤ 1)%nat.
Proof.
  unfold validate_duplicate_headers. rewrite foldM_unit_ok. intros Hall name Hin. specialize (Hall name Hin).
  apply bind_ok in Hall as (values & Hv & Hl%raise_if_ok). unfold get_all in Hv.
  apply mapM_result_Forall2, Forall2_length in Hv. boolify. lia.
Qed.

Lemma read_message_ok raw s :
  validate_policy policy = Ok () → read_message policy scanner raw = Ok s →
  ∃ data message, raw = Some data ∧ parsebytes data = Some message ∧ admissible data message s.
Proof.
  intros Hpol. unfold read_message. destruct raw as [data|]; [|done]. rewrite raise_if_then. intros [Hsize Hr].
  apply bind_ok in Hr as (header_count & Hh & Hr). apply bind_ok in Hr as (message & Hm & Hr).
  destruct (parsebytes data) as [m|] eqn:Hparse; [|done]. injection Hm as ->.
  apply bind_ok in Hr as ([] & Hdup & Hr). apply bind_ok in Hr as (parts & Hw & Hr).
  apply raise_if_then in Hr as [Hparts Hr]. apply bind_ok in Hr as (attachments & Hatt & Hr).
  apply bind_ok in Hr as (top & Htop & Hr%issued_ok). boolify.
  unfold validate_policy in Hpol. apply raise_if_then in Hpol as [Hpol _]. unfold between in Hpol. boolify.
  apply walk_parts_ok in Hw as [-> Hdepth]; [|lia].
  apply summarize_parts_ok in Hatt as (Hcount & Hdec & new & -> & Hnew); [|cbn; lia].
  apply issue_summary_ok in Hr as (Hv & Hd & Hb & Ht & Hc & Hpc & Ha). cbn in *.
  exists data, message. split; [done|]. split; [done|]. split; try done; try lia.
  - unfold validate_wire_headers in Hh. destruct (header_block data) as [block|]; [|done].
    rewrite !raise_if_then in Hh. destruct Hh as (Hbl & Hln & _ & _ & [= <-]). boolify.
    exists block. rewrite Hc. split_and!; done || lia.
  - by apply duplicate_headers_ok.
  - by rewrite Ha.
  - by rewrite Ha.
  - by rewrite Ht.
Qed.

(** C38. Ingestion fails closed: with a valid policy every message gets a valid decision unless
    the clock is naive.  A message is accepted only within every budget of the policy, with
    each critical header at most once and every leaf decodable, and each of its attachments is
    decoded within its limit, past the PDF preflight and found clean by the scanner; what is
    returned are counts, digests, media types and safe filenames.  Any other message, whatever
    the parser or the scanner does, is quarantined under a known reason with its digest and the
    policy's, and nothing else of it. *)
Theorem ingestion_fails_closed raw now :
  validate_policy policy = Ok () →
  match ingest_message policy scanner raw now with
  | Err _ => naive now = true
  | Ok d =>
      validate_decision d = Ok () ∧
      match dc_disposition d with
      | ACCEPT =>
          dc_quarantine d = None ∧
          ∃ data message s, raw = Some data ∧ parsebytes data = Some message ∧ dc_message d = Some s ∧
            admissible data message s
      | QUARANTINE =>
          dc_message d = None ∧ dc_reason_code d ∈ QUARANTINE_CODES ∧
          ∃ q, dc_quarantine d = Some q ∧ qr_reason_code q = dc_reason_code d ∧
            qr_policy_digest q = ig_policy_digest policy ∧
            qr_message_digest q = digest_bytes (default EmptyString raw) ∧ qr_occurred_at q = instant now
      end
  end.
Proof.
  intros Hpol. unfold ingest_message. destruct (naive now) eqn:Hn; [done|]. cbn [raise_if mbind result_bind].
  pose proof (read_message_coded policy scanner raw) as Hcoded.
  destruct (read_message policy scanner raw) as [s|reason] eqn:Hr; cbn [mbind result_bind].
  - destruct (issue_accept_ok s) as (d & -> & Hv & Hd & Hm & Hq). cbn [issued]. rewrite Hd.
    destruct (read_message_ok _ _ Hpol Hr) as (data & message & -> & Hp & Ha). split; [done|]. split; [done|].
    by exists data, message, s.
  - unfold validate_policy in Hpol. apply raise_if_then in Hpol as [Hpol _]. boolify.
    destruct (quarantine_ok policy (digest_bytes (default EmptyString raw)) reason (instant now))
      as (d & q & -> & Hv & Hd & Hreason & Hm & Hq & Hqp & Hqm & Hqr & Hqo);
      [done|apply hash_digest_ok|by apply coded_name|].
    rewrite Hd, Hreason. split; [done|]. split; [done|]. split; [exact Hcoded|]. by exists q.
Qed.

End admission.

(** ** Where ingestion refuses or misses what it means to take *)

(** A soft line break of a quoted-printable text with bare line feeds is refused unless it ends
    the text: the two bytes after [=] are compared with the single byte of a line feed. *)
Lemma line_feed_soft_break_refused before c after :
  malformed_quoted_printable (before +:+ "=" +:+ LF +:+ String c after) = true.
Proof.
  induction before as [|d before IH].
  - change (malformed_quoted_printable (String "=" (String "010" (String c after))) = true).
    cbn [malformed_quoted_printable]. apply orb_true_iff. left.
    change (String.substring 0 2 _) with (String "010" (String c (String.substring 0 0 after))).
    assert (String.substring 0 0 after = EmptyString) as -> by by destruct after.
    by destruct c as [[] [] [] [] [] [] [] []].
  - change (malformed_quoted_printable (String d (before +:+ "=" +:+ LF +:+ String c after)) = true).
    cbn [malformed_quoted_printable]. rewrite IH. apply orb_true_r.
Qed.

(** A leaf without a filename that is not declared an attachment is neither inspected nor
    scanned, whatever its media type is. *)
Lemma unnamed_part_unscanned `{Sha256, FloatRepr, MimeParser, Base64} policy scanner values h payload decoded :
  validate_transfer_encoding h payload = Ok () → ph_disposition h = Some None → ph_filename h = Some None →
  summarize_part policy scanner values (Single h payload decoded) = Ok values.
Proof. intros Ht Hd Hf. unfold summarize_part, is_attachment. by rewrite Ht, Hd, Hf. Qed.

(** ** Examples *)

Module IngestionExample.

#[local] Existing Instances distinct_sha256 distinct_sha256_laws example_float_repr.
#[local] Instance any_base64 : Base64 := λ _, true.

Definition headers (content_type : string) (filename : option string) : PartHeaders := {|
  ph_headers := [("Content-Type", Some content_type)]; ph_content_type := Some content_type;
  ph_disposition := Some (if filename then Some "attachment" else None); ph_filename := Some filename |}.
Definition pdf : string := "%PDF-1.7 1 0 obj %%EOF".
Definition active_pdf : string := "%PDF-1.7 /JavaScript (app.alert(1)) %%EOF".
Definition part (content : string) (filename : option string) : Message :=
  Single (headers "application/pdf" filename) (Some content) (Some (Some content)).
Definition message (child : Message) : Message := Multipart (headers "multipart/mixed" None) [child].

(** A parser that knows three messages by their last byte. *)
#[local] Instance three_messages : MimeParser := λ data,
  if contains "body1" data then Some (message (part pdf (Some "..\in/report 1.pdf")))
  else if contains "body2" data then Some (message (part active_pdf (Some "x.pdf")))
  else if contains "body3" data then Some (message (part active_pdf None))
  else None.

Definition policy_values : IngestionPolicy := {|
  ig_max_total_bytes := 32768; ig_max_headers := 32; ig_max_header_bytes := 4096; ig_max_mime_depth := 4;
  ig_max_parts := 16; ig_max_attachments := 4; ig_max_attachment_bytes := 8192; ig_policy_digest := EmptyString |}.
Definition policy : IngestionPolicy := match issue_policy policy_values with Ok p => p | Err _ => policy_values end.
Definition mail (body : string) : string := "From: a@b" +:+ CRLF +:+ "Subject: x" +:+ CRLF +:+ CRLF +:+ body.
Definition clean : ContentScanner := λ _ _, Some true.
Definition now : Datetime := {| dt_local := 0; dt_offset := Some 0 |}.
Definition reason (scanner : option ContentScanner) (data : string) : result string string :=
  dc_reason_code <$> ingest_message policy scanner (Some data) now.

Example ingestion_reasons :
  reason (Some clean) (mail "body1") = Ok "accepted" ∧ reason None (mail "body1") = Ok "scanner_unavailable" ∧
  reason (Some (λ _ _, Some false)) (mail "body1") = Ok "scanner_rejected" ∧
  reason (Some clean) (mail "body2") = Ok "pdf_active_content" ∧
  reason (Some clean) (mail "body4") = Ok "message_parse_invalid" ∧
  reason (Some clean) "From: a@b" = Ok "header_terminator_missing".
Proof. split_and!; vm_compute; reflexivity. Qed.

(** The active PDF is accepted without a scanner when its part has no name. *)
Example unnamed_active_pdf_accepted : reason None (mail "body3") = Ok "accepted".
Proof. vm_compute. reflexivity. Qed.

(** A folded header, which RFC 5322 allows, is malformed. *)
Example folded_header_refused :
  validate_wire_headers ("Content-Type: multipart/mixed;" +:+ CRLF +:+ " boundary=x" +:+ CRLF +:+ CRLF) policy
  = Err "header_malformed".
Proof. vm_compute. reflexivity. Qed.

(** A filename cut after a space fails its own digest. *)
Definition long_name : string := hex_text 127 0 +:+ " copy.pdf".
Example cut_filename_refused :
  safe_filename (Some long_name) 1 = hex_text 127 0 +:+ " " ∧
  issue_attachment 1 (safe_filename (Some long_name) 1) "application.pdf" 3 (digest_bytes "abc")
  = Err "attachment summary digest does not match".
Proof. split; vm_compute; reflexivity. Qed.

Lemma ingestion_fails_closed_witness :
  ∃ d data m s, ingest_message policy (Some clean) (Some (mail "body1")) now = Ok d ∧ dc_message d = Some s ∧
    admissible policy (Some clean) data m s ∧ map as_filename (ms_attachments s) = ["report 1.pdf"].
Proof.
  assert (validate_policy policy = Ok ()) as Hp by (vm_compute; reflexivity).
  pose proof (ingestion_fails_closed policy (Some clean) (Some (mail "body1")) now Hp) as Ht.
  assert ((λ d, (dc_disposition d, (λ s, map as_filename (ms_attachments s)) <$> dc_message d))
    <$> ingest_message policy (Some clean) (Some (mail "body1")) now = Ok (ACCEPT, Some ["report 1.pdf"])) as Hok
    by (vm_compute; reflexivity).
  destruct (ingest_message policy (Some clean) (Some (mail "body1")) now) as [d|e]; [|discriminate Hok].
  apply Ok_inj in Hok. injection Hok as Hd Hm. destruct Ht as [_ Ht]. rewrite Hd in Ht.
  destruct Ht as (_ & data & m & s & _ & _ & Hs & Ha). rewrite Hs in Hm. injection Hm as Hm.
  exists d, data, m, s. split; [reflexivity|]. split; [exact Hs|]. split; [exact Ha|exact Hm].
Defined.

End IngestionExample.
